(* ===== verification/_CoqProject ===== *)
-Q . S2P
Prelude.v
GoStd.v
Clock.v
StoreTypes.v
Priority.v
Messages.v
Queue.v
Agents.v
Queries.v
Budget.v
Lifecycle.v
Invariants.v
QueueProps.v
RegistryProps.v
ThreadProps.v
PrefixProps.v
BudgetProps.v
Window.v
TmuxIO.v
PaneState.v
ObserveGate.v
Deliver.v
DeliverProps.v
Throttle.v
Mailman.v
Respawn.v
Serve.v
ServeDemo.v
ServeLogic.v
RespawnProps.v
SingleFlight.v
ServeProps.v
PasteSafety.v
Discover.v
DiscoverProps.v
Runs.v
Alone.v
Identity.v
Send.v
Control.v
SendDemo.v
IdentityProps.v
ControlProps.v
InboxWatch.v
InboxProps.v
SendProps.v
SendOutcome.v
Requests.v
Ping.v
RequestProps.v
PingProps.v
Config.v
ServeConfig.v
ConfigProps.v
StartProps.v
WindowProps.v
Upkeep.v
UpkeepProps.v
Register.v
RegisterProps.v
Views.v
Tree.v
TreeProps.v
ViewsProps.v
Render.v
RenderProps.v
Hook.v
Operator.v
Fleet.v
Tail.v
Server.v
Notify.v
Codex.v
Stats.v
Digest.v
Doctor.v
Migrate.v
Health.v
Opening.v
CommandLine.v
