(* ===== verification/Prelude.v ===== *)
(** * tmux-tell: a verification library

    tmux-tell is a message bus for agents that live in tmux panes.  Senders put rows
    into a shared SQLite file; one "mailman" process per agent claims its rows one by
    one, decides when the agent's pane may be pasted into, pastes, checks that the
    text was submitted, and records the outcome.  This library models the store, the
    terminal layer, the pane walker, the mailman and both ways to send, and proves what
    makes them correct.  This file is its root: the documentation below, then what all
    other files share.

    ** Parts and files

    The store (src/internal/store) is a value of type [DB]: the rows of [messages] in
    insertion order and the rows of [agents] by canonical name, with the id counter.
    An operation is a function from a database to a result and a database; a
    transaction that fails returns the database it was given.
    - StoreTypes.v: states, kinds, rows, validators (types.go, schema.sql);
    - Priority.v: the cross-channel scheduler (priority.go);
    - Messages.v: admission, caps, insertion of messages, pairs and notices
      (messages.go, recipientcap.go, notify.go);
    - Queue.v: claiming and the delivery transitions (messages.go);
    - Agents.v: the registry (agents.go, provider.go, presence.go);
    - Queries.v: listings, threads, replies, deletion (messages.go, thread.go,
      reply.go, reset.go);
    - Budget.v: the refilling send budget, its formulas (internal/budget) and its
      rows (budget.go);
    - Opening.v: opening the file, its schema and the migrations (store.go, schema.sql),
      on tables of named columns.
    GoStd.v holds what the code uses of Go's library on strings and integers, Clock.v
    durations and timestamps with their text.

    The terminal layer (src/internal/tmuxio) issues commands to a tmux server that may
    answer anything.  A computation of type [T A] takes a [World] (tmux, the clock, the
    context, as functions of the history so far) and a history of events, and returns
    its value and the longer history; what a computation did is read off the history.
    - TmuxIO.v: the commands (deliver.go, panes.go, session.go, title.go, clients.go);
    - PaneState.v: the classifier of a screen (profile.go, state.go, classifier.go);
    - ObserveGate.v: the wait for a pane that may be pasted into (observe_gate.go);
    - Deliver.v: paste, submit, verify (deliver.go).

    The mailman (src/internal/cli/serve.go and the files it is built from) runs in the
    monad [M] over the database, the loop's variables and the history; a step ends
    normally, with a [continue], an exit code, or the spin guard's panic.
    - Throttle.v: fan-out stagger, spin guard, backoffs, rate-limit wake and resume
      (fanoutthrottle.go, spinguard.go, serve.go);
    - Mailman.v: configuration, variables, environment, the monad, waiting;
    - Respawn.v: stable idle, bare shell, relaunch (respawn.go, serve.go);
    - Serve.v: one definition per phase of an iteration, composed as the code composes
      them into [iteration], [serve_loop] and [runServeWithStore].
    The loop is proved for every pane walker (the interface [Walker] of Mailman.v);
    Discover.v models the real one (internal/discover), and [discover_walker] is its
    instance.  ServeDemo.v is a concrete environment in which a message is delivered,
    for the witnesses.

    Sending (src/internal/cli: send.go, mcp.go, sendbudget.go, sendstatus.go,
    operator_routing.go, deferred.go, flag_operator.go) runs over the database between
    the steps of other processes.
    - Send.v: the command and the MCP tool, to one recipient and to several, with the
      budget gate, operator routing, the answer's status and the wait for a delivery;
    - Identity.v: who the caller is, on the command line and over MCP
      (internal/identity, mcp.go);
    - Control.v: the whitelist of slash-commands, who may aim which at whom, and the
      command that queues them (internal/control, control.go);
    - Requests.v: asking and waiting for the answer, checking for answers, replaying a
      message (reply.go, resend.go, store/reply.go, mcp.go);
    - Ping.v: whether an agent answers, and what its pane shows (ping.go, state.go);
    - Runs.v: outcomes of such commands as a list of the operations they performed,
      with those of other processes in between;
    - Register.v: registering, unregistering, the backlog policy and the units of
      systemd (register.go, unregister.go, backlog.go, systemctl.go, common.go, mcp.go);
    - Upkeep.v: archived drafts, reset, reap, the observer of the mailmen, the retention
      sweep (stranded.go, reset.go, reap.go, observe_mailmen.go, serve.go);
    - Views.v: listing, looking up and following messages and agents, and the
      acknowledgements (inbox.go, get.go, track.go, sent.go, agents.go, whoami.go,
      status.go, common.go, mcp.go); Tree.v: the tree of a thread (thread.go);
    - Hook.v: delivery to an agent without a mailman (hook.go);
    - Tail.v: watching every message of the bus (tail.go);
    - Fleet.v: recording the panes of all agents, restarting the servers of all of them
      (discover.go, refresh.go);
    - Operator.v: the commands that set one thing (pause.go, set_*.go, note_compact.go,
      restart_mailmen.go, mcp.go);
    - Codex.v: the edit of the configuration file of the Codex adapter
      (codex_install.go);
    - Notify.v: the doorbell between processes (internal/notify), with everybody it
      concerns, as a step relation;
    - Stats.v: counts and latencies per agent and pair (store/stats.go, stats.go,
      common.go); Digest.v: the conversations of a window (digest.go);
    - Health.v: counters and latencies read back from the log of the mailmen, and the
      status of today (internal/healthscan, health.go, status.go);
    - Doctor.v: which database the running processes have open (doctor.go,
      doctor_chamber.go, whoami_db.go);
    - Migrate.v: moving the database file, and the installation, over a file system
      whose calls may fail (db.go, bootstrap.go);
    - CommandLine.v: the order of flags and arguments, the choice of the subcommand,
      deprecation warnings, the flat log of a thread, the balance of a budget, asking
      for the operator (flagorder.go, run.go, deprecation.go, log.go, budgetcmd.go,
      flag_operator.go);
    - Alone.v: total correctness of a command that no other process interrupts;
    - SendDemo.v: a concrete bus for the witnesses.

    Render.v is the text a message is pasted as (internal/render).  Server.v is the MCP
    server (internal/mcp), for any table of tools, with the server of a remote session
    whose tools forward over ssh, and the receiver on the host of the bus (remote.go,
    remote_recv.go).

    Configuration.  Config.v is the file, its schema and every lookup (internal/config);
    ServeConfig.v is how [serve] turns flags and file into the settings of the loop and
    starts it (runServeCLI of serve.go), and the watchdog interval (internal/sdnotify);
    Window.v is the reading of time windows
    (window.go).

    The interactive inbox (inbox_watch.go, inbox_watch_reply.go) is InboxWatch.v: its
    model and update function, and its event loop as a step relation on the model, the
    commands under way, the messages not yet delivered and the store.

    ** What the theorems show

    - Invariants.v, Lifecycle.v: every database reachable by operations is well formed,
      and every row only moves along the life cycle; letters never change.
    - QueueProps.v, Priority.v: caps hold, pairs are atomic, a claim takes the right
      row, a crash between claim and delivery is undone exactly.
    - RegistryProps.v, ThreadProps.v, PrefixProps.v: panes and aliases have one owner,
      compactions count once, threads are complete, what paging, deletion and prefix
      lookup really return.
    - PaneState.v, ObserveGate.v, DeliverProps.v: when a screen is idle, that the gate
      only reads and terminates and what its last looks saw when it opens or aborts,
      that a body is pasted at most once and success needs evidence.
    - Clock.v, BudgetProps.v: times keep their text, a charge is admitted exactly when
      the refilled balance covers it, refills compose, the time to wait suffices.
    - DiscoverProps.v: what a lookup by session or by name returns, and what it may
      confuse.
    - SendProps.v, SendOutcome.v: the two surfaces do the same to the bus, and what a
      send leaves behind on every path, the budget included.
    - IdentityProps.v: the resolver follows the documented order of sources.
    - ControlProps.v: what a control command can make the bus type into a pane, and that
      the advice of a refusal is the policy.
    - RequestProps.v: a wait returns the answer that is there and ends at its deadline;
      what a replay sends.
    - PingProps.v: what a probe sends, when it stops and what it concludes.
    - ConfigProps.v, StartProps.v, WindowProps.v: which source each setting comes from,
      when a mailman refuses to start, and what a window in days reaches.
    - RegisterProps.v: what a registration writes (row, aliases and the queued messages
      it settles), refuses and announces, and what unregistering removes.
    - UpkeepProps.v: that a draft is recovered byte for byte, the text that marks an
      empty one excepted, what the commands that delete may destroy and how old it must
      be, and when the observer alerts.
    - ViewsProps.v: a message is shown to its ends and the allowlist only, what the inbox
      says of a message is what a claim does with it, following a message with a timeout
      ends;
      TreeProps.v: the tree of a thread is the whole thread; RenderProps.v: a body is
      read back from the text that is pasted; Hook.v: a hook presents what waits;
      Tail.v: the firehose tells what happened to every row, once and in order.
    - Server.v: which request gets which answer, a failing tool a result that says so,
      and that a call over the tunnel is the call at the other end; Fleet.v: what the
      restart of a session hands to a shell; Notify.v: until its watcher is closed a
      subscriber is woken for every ring whose event the file system delivers; Codex.v:
      the file is written exactly when something is missing, and only the old section is
      touched, once.
    - Stats.v: the counters are those of the messages and add up, a percentile is
      the nearest rank; Digest.v: every conversation is in the digest, once.
    - Health.v: the report is what the log says, and the lines that begin and end a
      delivery are read back; Doctor.v: the diagnosis passes exactly when no process is
      seen astray (one whose files cannot be read is not); Migrate.v: when no other
      connection blocks the checkpoint, a migration that fails at any point still leaves
      the database whole, at one of the two places.
    - Opening.v: opening repairs an old file, can be resumed, and then changes nothing;
      CommandLine.v: flags may stand anywhere between the arguments.
    - InboxProps.v: the inbox under any order of keys, commands and messages; what a
      refresh keeps; what is sent from the editor.
    - Throttle.v, RespawnProps.v: the pacing decisions and the waits with a ceiling.
    - ServeLogic.v, ServeProps.v, SingleFlight.v, PasteSafety.v: the loop refines the
      store's operations (so the invariants carry over to every run, with other
      processes interleaved), a parked mailman is silent, a mailman alone and without
      store failures has at most the claimed row in flight, and a message is typed into a
      pane that was checked, or into the one the walker names when tmux has lost that.

    ** Bounds and fuel

    Loops over rows, screens and lines are structural.  The thread walks carry the
    number of rows as fuel, which [GetThread_complete] proves enough.  The polling loops
    (gate, stability wait) take a fuel; [ObserveGate_terminates] and
    [stable_idle_correct] give the amount that is enough on a clock that does not run
    backwards and honours sleeps.  In the loop, running out of fuel is a value of its
    own ([OutOfFuel]), never a result.  The wait for a delivery polls [poll_count]
    times, the wait for an answer [reply_polls] times, a probe [ping_polls] and a followed
    message [track_polls] times,
    enough when sleeps are honoured; the walker's descent is bounded by the
    code's own MaxDepth.  The serve loop runs for a given number of
    iterations, the firehose for a number of polls, since the code's do not end.  Durations are int64 nanoseconds in [Z]
    and wrap where the code computes on them; SQLite integers and ids are bounded as
    the schema bounds them.

    ** The environment

    Other processes change the database between two accesses of the mailman
    ([sw_others], any store steps), and an access may fail ([sw_fault]).  The clock, the
    tmux server, the context, random ids and samples are functions of the history.
    Parameters: the regexp engine of the classifier's
    profile, the content hash, the renderer of a message (Render.v models it, the
    loop holds for any), the offset of the local zone, the
    process table under /proc, the environment variables, [systemctl], [math.Pow], the
    decoder of TOML files, [strconv.ParseFloat], which files exist, the local midnight,
    the text an editor leaves behind, ssh, the difference of two stored times in SQL, the
    order in which a map is ranged over, the journal and the instants of the local zone, the
    handles under /proc, what SQLite does to the files of a database, and for the MCP server
    the decoder of a line and the encoder of a result.

    ** What is not modelled

    Logs and metrics; the decoding of flags into values (what they were set to is a
    record); SQL text and the pages of the database file; the systemd socket itself
    (calls to it, and to the doorbell, are events of the other models); the names, descriptions
    and schemas of the tools and the strict decoding of their arguments; the drawing of
    the inbox; help texts; the text of the operator's reports; the tools of the
    repository.  The waits of a command ([delivery_loop], [reply_loop], [ping_loop],
    [track_loop]) keep the polling and drop the branch of their select in which the
    doorbell shortens a sleep.  [IncrementRespawnShrinkCount],
    [PromoteResumeOnSelfCompactIfNew], [SetAliases] and the refused row of
    [InsertMessage] are one step each, although the code runs several statements without
    a transaction.  The weight of a channel ([channel_weight]) is an integer that does not
    wrap, as it cannot at the ages of real rows.  A set-up of the doorbell that fails is
    left out: its caller then only polls.  [strings.ToLower] is modelled on ASCII; finite float64 values are
    rationals, but for the retry hint and the sizes in a header, which are rounded as
    IEEE prescribes. *)

From Stdlib Require Export ZArith Lia Bool Ascii.
From stdpp Require Export base gmap strings option numbers pretty list.

#[global] Arguments String.append !_ _ / : simpl nomatch.

(** ** Errors and results *)

(** Go error values.  [ErrNotFound], [ErrRecipientQueueFull], ... are the
    sentinels the code compares with [errors.Is]; [ErrWrap msg e] is a
    [fmt.Errorf] with text [msg] that wraps [e]; [ErrMsg] is [errors.New];
    [ExecError] is what [os/exec] reports for a subprocess. *)
Inductive error : Type :=
  | ErrMsg (msg : string)
  | ErrNotFound
  | ErrRecipientQueueFull
  | ErrSenderBacklogFull
  | ErrReservedRoutingName
  | ErrAliasCollision
  | ErrBudgetExhausted
  | ErrForeignKey
  | ExecError (msg : string)
  | ErrWrap (msg : string) (e : error)
  | CapRejectionError (refusedID msg : string) (e : error).

#[global] Instance error_eq_dec : EqDecision error.
Proof. solve_decision. Defined.

(** [errors.Is]: follow the chain of wrapped errors. *)
Fixpoint errors_Is (e target : error) : bool :=
  bool_decide (e = target) ||
  match e with
  | ErrWrap _ e' => errors_Is e' target
  | CapRejectionError _ _ e' => errors_Is e' target
  | _ => false
  end.

(** [err.Error()]. *)
Definition error_text (e : error) : string :=
  match e with
  | ErrMsg msg | ExecError msg | ErrWrap msg _ | CapRejectionError _ msg _ => msg
  | ErrNotFound => "not found"
  | ErrRecipientQueueFull => "store: recipient queue full"
  | ErrSenderBacklogFull => "store: sender backlog full"
  | ErrReservedRoutingName => "store: name is reserved as a routing primitive"
  | ErrAliasCollision => "store: alias collides with an existing canonical agent"
  | ErrBudgetExhausted => "store: communication budget exhausted"
  | ErrForeignKey => "FOREIGN KEY constraint failed"
  end.

(** [errors.Unwrap]: the wrapped error, when there is one. *)
Definition errors_Unwrap (e : error) : option error :=
  match e with
  | ErrWrap _ e' => Some e'
  | CapRejectionError _ _ e' => Some e'
  | _ => None
  end.

Inductive result (A : Type) : Type :=
  | Ok (a : A)
  | Err (e : error).
Arguments Ok {A} a.
Arguments Err {A} e.

Declare Scope tell_scope.
Delimit Scope tell_scope with tell.

(** Early return on error: [if err != nil { return err }]. *)
Notation "x <-? c1 ;; c2" :=
  (match c1 with Ok x => c2 | Err e => Err e end)
  (at level 100, c1 at next level, right associativity) : tell_scope.

Definition is_ok {A} (r : result A) : bool :=
  match r with Ok _ => true | Err _ => false end.

(** ** Relational tables

    A table is the list of its rows in rowid order.  [sql_where] is a
    [SELECT ... WHERE], [sql_count] a [SELECT COUNT( * )], [sql_update] an
    [UPDATE ... SET ... WHERE], and [sql_affected] its [RowsAffected]. *)

Section Sql.
Context {R : Type}.

Definition sql_where (p : R -> bool) (rows : list R) : list R :=
  List.filter p rows.

Definition sql_count (p : R -> bool) (rows : list R) : Z :=
  Z.of_nat (length (sql_where p rows)).

Definition sql_exists (p : R -> bool) (rows : list R) : bool :=
  existsb p rows.

Definition sql_update (p : R -> bool) (f : R -> R) (rows : list R) : list R :=
  map (fun r => if p r then f r else r) rows.

Definition sql_affected (p : R -> bool) (rows : list R) : Z := sql_count p rows.

Definition sql_delete (p : R -> bool) (rows : list R) : list R :=
  List.filter (fun r => negb (p r)) rows.
End Sql.

(** ** Generic lemmas *)

Section SqlLemmas.
Context {R : Type}.
Implicit Types (p q : R -> bool) (rows : list R) (f : R -> R).

Lemma sql_where_app p rows1 rows2 :
  sql_where p (rows1 ++ rows2) = sql_where p rows1 ++ sql_where p rows2.
Proof. apply List.filter_app. Qed.

Lemma sql_where_elem p rows r :
  r ∈ sql_where p rows <-> r ∈ rows /\ p r = true.
Proof. rewrite !list_elem_of_In. apply filter_In. Qed.

Lemma sql_where_ext p q rows :
  (forall r, r ∈ rows -> p r = q r) -> sql_where p rows = sql_where q rows.
Proof.
  intros H. apply filter_ext_in. intros r Hr. apply H. by apply list_elem_of_In.
Qed.

Lemma sql_where_none p rows :
  (forall r, r ∈ rows -> p r = false) -> sql_where p rows = [].
Proof.
  induction rows as [|r rows IH]; intros H; [done|]. simpl.
  rewrite (H r) by set_solver. apply IH. intros r' Hr'. apply H. set_solver.
Qed.

Lemma sql_where_all p rows :
  (forall r, r ∈ rows -> p r = true) -> sql_where p rows = rows.
Proof.
  induction rows as [|r rows IH]; intros H; [done|]. simpl.
  rewrite (H r) by set_solver. f_equal. apply IH. intros r' Hr'. apply H. set_solver.
Qed.

Lemma sql_where_where p q rows :
  sql_where p (sql_where q rows) = sql_where (fun r => q r && p r) rows.
Proof.
  induction rows as [|r rows IH]; [done|]. simpl.
  destruct (q r); simpl; [destruct (p r); by rewrite IH|done].
Qed.

Lemma sql_where_nil p rows :
  sql_where p rows = [] -> forall r, r ∈ rows -> p r = false.
Proof.
  intros H r Hr. destruct (p r) eqn:E; [|done].
  assert (Hin : r ∈ sql_where p rows) by (by apply sql_where_elem).
  rewrite H in Hin. by apply elem_of_nil in Hin.
Qed.

Lemma sql_count_nonneg p rows : (0 <= sql_count p rows)%Z.
Proof. unfold sql_count. lia. Qed.

Lemma sql_count_app p rows1 rows2 :
  sql_count p (rows1 ++ rows2) = (sql_count p rows1 + sql_count p rows2)%Z.
Proof. unfold sql_count. rewrite sql_where_app, length_app. lia. Qed.

Lemma sql_count_zero p rows :
  sql_count p rows = 0%Z <-> forall r, r ∈ rows -> p r = false.
Proof.
  unfold sql_count. split.
  - intros H r Hr. destruct (p r) eqn:E; [|done].
    assert (Hin : r ∈ sql_where p rows) by (by apply sql_where_elem).
    destruct (sql_where p rows); [by apply elem_of_nil in Hin | simpl in H; lia].
  - intros H. by rewrite sql_where_none.
Qed.

Lemma sql_count_pos p rows :
  (0 < sql_count p rows)%Z <-> exists r, r ∈ rows /\ p r = true.
Proof.
  unfold sql_count. split.
  - intros H. destruct (sql_where p rows) as [|r l] eqn:E; [simpl in H; lia|].
    exists r. apply sql_where_elem. rewrite E. set_solver.
  - intros (r & Hr & Hp).
    assert (Hin : r ∈ sql_where p rows) by (by apply sql_where_elem).
    destruct (sql_where p rows); [by apply elem_of_nil in Hin | simpl; lia].
Qed.

Lemma sql_exists_true p rows :
  sql_exists p rows = true <-> exists r, r ∈ rows /\ p r = true.
Proof.
  unfold sql_exists. rewrite existsb_exists.
  split; intros (r & ? & ?); exists r; by rewrite list_elem_of_In in *.
Qed.

Lemma sql_exists_false p rows :
  sql_exists p rows = false <-> forall r, r ∈ rows -> p r = false.
Proof.
  split.
  - intros H r Hr. destruct (p r) eqn:E; [|done].
    enough (sql_exists p rows = true) by congruence.
    apply sql_exists_true. eauto.
  - intros H. destruct (sql_exists p rows) eqn:E; [|done].
    apply sql_exists_true in E as (r & Hr & Hp). rewrite H in Hp; done.
Qed.

Lemma sql_update_elem p f rows r' :
  r' ∈ sql_update p f rows <->
  exists r, r ∈ rows /\ r' = if p r then f r else r.
Proof.
  unfold sql_update. rewrite list_elem_of_In, in_map_iff.
  split.
  - intros (r & <- & Hr). exists r. by rewrite list_elem_of_In.
  - intros (r & Hr & ->). exists r. by rewrite <- list_elem_of_In.
Qed.

Lemma sql_update_app p f rows1 rows2 :
  sql_update p f (rows1 ++ rows2) = sql_update p f rows1 ++ sql_update p f rows2.
Proof. apply map_app. Qed.

Lemma sql_update_length p f rows : length (sql_update p f rows) = length rows.
Proof. apply length_map. Qed.

(** An update that preserves a projection preserves the column. *)
Lemma sql_update_map {B} (g : R -> B) p f rows :
  (forall r, g (f r) = g r) -> map g (sql_update p f rows) = map g rows.
Proof.
  intros H. unfold sql_update. rewrite map_map. apply map_ext.
  intros r. by destruct (p r).
Qed.

Lemma sql_update_none p f rows :
  (forall r, r ∈ rows -> p r = false) -> sql_update p f rows = rows.
Proof.
  induction rows as [|r rows IH]; intros H; [done|]. simpl.
  rewrite (H r) by set_solver. f_equal. apply IH. intros r' Hr'. apply H. set_solver.
Qed.

Lemma sql_delete_elem p rows r :
  r ∈ sql_delete p rows <-> r ∈ rows /\ p r = false.
Proof.
  unfold sql_delete. rewrite !list_elem_of_In, filter_In, negb_true_iff. done.
Qed.

(** Counting after an update splits on the rows it touched. *)
Lemma sql_count_update_same p q f rows :
  (forall r, p r = true -> q (f r) = q r) ->
  sql_count q (sql_update p f rows) = sql_count q rows.
Proof.
  intros H. induction rows as [|r rows IH]; [done|].
  unfold sql_count, sql_where, sql_update in *. simpl.
  destruct (p r) eqn:E; [rewrite (H r E)|]; destruct (q r); simpl in *; lia.
Qed.
End SqlLemmas.

(** A key column without duplicates determines the row. *)
Lemma inj_on_NoDup {A B} (f : A -> B) (l : list A) x y :
  NoDup (map f l) -> x ∈ l -> y ∈ l -> f x = f y -> x = y.
Proof.
  induction l as [|z l IH]; simpl; intros Hnd Hx Hy E; [by apply elem_of_nil in Hx|].
  apply NoDup_cons in Hnd as [Hz Hnd]. rewrite list_elem_of_In, in_map_iff in Hz.
  apply elem_of_cons in Hx as [->|Hx], Hy as [->|Hy]; auto.
  - destruct Hz. exists y. by rewrite <- list_elem_of_In.
  - destruct Hz. exists x. by rewrite <- list_elem_of_In.
Qed.

(** ** Automation *)

Create Rewrite HintDb sqldb.
Create HintDb sqlrow.
#[export] Hint Rewrite @sql_where_app @sql_count_app @sql_update_app : sqldb.
#[export] Hint Resolve sql_count_nonneg : sqlrow.

(** Turn boolean tests of the code into propositions, then split. *)
Ltac bsimp :=
  repeat match goal with
  | H : _ && _ = true |- _ => apply andb_true_iff in H; destruct H
  | H : _ || _ = false |- _ => apply orb_false_iff in H; destruct H
  | H : negb _ = true |- _ => apply negb_true_iff in H
  | H : negb _ = false |- _ => apply negb_false_iff in H
  | H : bool_decide _ = true |- _ => apply bool_decide_eq_true_1 in H
  | H : bool_decide _ = false |- _ => apply bool_decide_eq_false_1 in H
  | H : (_ <? _)%Z = true |- _ => apply Z.ltb_lt in H
  | H : (_ <? _)%Z = false |- _ => apply Z.ltb_ge in H
  | H : (_ <=? _)%Z = true |- _ => apply Z.leb_le in H
  | H : (_ <=? _)%Z = false |- _ => apply Z.leb_gt in H
  | H : (_ =? _)%Z = true |- _ => apply Z.eqb_eq in H
  | H : (_ =? _)%Z = false |- _ => apply Z.eqb_neq in H
  end.

(** Split the first [if]/[match] of the goal, keeping its equation. *)
Ltac case_code :=
  match goal with
  | |- context [if ?b then _ else _] => destruct b eqn:?
  | |- context [match ?x with _ => _ end] => destruct x eqn:?
  end.

(** The same in a hypothesis. *)
Ltac case_code_in H :=
  match type of H with
  | context [if ?b then _ else _] => destruct b eqn:?
  | context [match ?x with _ => _ end] => destruct x eqn:?
  end.
