(* ===== verification/GoStd.v ===== *)
(** * The part of Go's standard library the program uses

    Byte strings ([strings], [unicode/utf8]), decimal and hexadecimal text
    ([strconv], [encoding/hex]), 64-bit wrap-around and the ISO-8601 clock text
    ([time.Format]) that the store compares lexically.  Case mapping is the ASCII
    one: bytes outside A-Z / a-z are left alone. *)

From Stdlib Require Export QArith.QArith_base.
From S2P Require Import Prelude.

Open Scope Z_scope.

Module Str.

Definition of_bytes (l : list nat) : string :=
  fold_right (fun n s => String (Ascii.ascii_of_nat n) s) EmptyString l.

Definition byte_val (a : ascii) : Z := Z.of_nat (Ascii.nat_of_ascii a).

Definition nl : ascii := Ascii.ascii_of_nat 10.
Definition tab : ascii := Ascii.ascii_of_nat 9.
Definition dquote : string := of_bytes [34%nat].

Fixpoint drop (n : nat) (s : string) : string :=
  match n, s with
  | O, _ => s
  | _, EmptyString => EmptyString
  | S n', String _ s' => drop n' s'
  end.

Fixpoint take (n : nat) (s : string) : string :=
  match n, s with
  | O, _ => EmptyString
  | _, EmptyString => EmptyString
  | S n', String a s' => String a (take n' s')
  end.

Definition HasPrefix (s p : string) : bool := String.prefix p s.

Definition HasSuffix (s p : string) : bool :=
  bool_decide (String.length p <= String.length s)%nat &&
  bool_decide (drop (String.length s - String.length p) s = p).

Definition CutPrefix (s p : string) : option string :=
  if HasPrefix s p then Some (drop (String.length p) s) else None.

Definition TrimPrefix (s p : string) : string :=
  if HasPrefix s p then drop (String.length p) s else s.

Definition TrimSuffix (s p : string) : string :=
  if HasSuffix s p then take (String.length s - String.length p) s else s.

(** [strings.Index]: the byte offset of the first occurrence. *)
Definition Index (s sub : string) : option nat := String.index 0 sub s.

Fixpoint Contains (s sub : string) : bool :=
  HasPrefix s sub ||
  match s with
  | EmptyString => false
  | String _ s' => Contains s' sub
  end.

(** [strings.LastIndex]. *)
Fixpoint LastIndex (s sub : string) : option nat :=
  match s with
  | EmptyString => if HasPrefix s sub then Some O else None
  | String _ s' =>
      match LastIndex s' sub with
      | Some i => Some (S i)
      | None => if HasPrefix s sub then Some O else None
      end
  end.

(** [strings.Split] on a one-byte separator: never empty. *)
Fixpoint Split (c : ascii) (s : string) : list string :=
  match s with
  | EmptyString => [EmptyString]
  | String a s' =>
      if bool_decide (a = c) then EmptyString :: Split c s'
      else match Split c s' with
           | [] => [String a EmptyString]
           | h :: t => String a h :: t
           end
  end.

Definition Lines (s : string) : list string := Split nl s.

Definition Join (l : list string) (sep : string) : string := String.concat sep l.

Fixpoint Count (c : ascii) (s : string) : Z :=
  match s with
  | EmptyString => 0
  | String a s' => (if bool_decide (a = c) then 1 else 0) + Count c s'
  end.

(** [strings.ReplaceAll] of one byte by a string. *)
Fixpoint ReplaceByte (c : ascii) (r s : string) : string :=
  match s with
  | EmptyString => EmptyString
  | String a s' =>
      if bool_decide (a = c) then r +:+ ReplaceByte c r s'
      else String a (ReplaceByte c r s')
  end.

Fixpoint Repeat (s : string) (n : nat) : string :=
  match n with O => EmptyString | S n' => s +:+ Repeat s n' end.

Fixpoint map_bytes (f : ascii -> ascii) (s : string) : string :=
  match s with
  | EmptyString => EmptyString
  | String a s' => String (f a) (map_bytes f s')
  end.

Definition lower_byte (a : ascii) : ascii :=
  let n := Ascii.nat_of_ascii a in
  if (65 <=? n)%nat && (n <=? 90)%nat then Ascii.ascii_of_nat (n + 32) else a.

Definition upper_byte (a : ascii) : ascii :=
  let n := Ascii.nat_of_ascii a in
  if (97 <=? n)%nat && (n <=? 122)%nat then Ascii.ascii_of_nat (n - 32) else a.

Definition ToLower (s : string) : string := map_bytes lower_byte s.
Definition ToUpper (s : string) : string := map_bytes upper_byte s.

(** The UTF-8 encodings of the runes [unicode.IsSpace] accepts. *)
Definition space_runes : list string :=
  map of_bytes
    ([[9]; [10]; [11]; [12]; [13]; [32]; [194; 133]; [194; 160];
      [225; 154; 128]; [226; 128; 168]; [226; 128; 169]; [226; 128; 175];
      [226; 129; 159]; [227; 128; 128]; [226; 128; 128]; [226; 128; 129];
      [226; 128; 130]; [226; 128; 131]; [226; 128; 132]; [226; 128; 133];
      [226; 128; 134]; [226; 128; 135]; [226; 128; 136]; [226; 128; 137];
      [226; 128; 138]]%nat).

(** Remove leading (trailing) runes of a cutset, given by their encodings. *)
Fixpoint trim_left (fuel : nat) (cut : list string) (s : string) : string :=
  match fuel with
  | O => s
  | S fuel' =>
      match List.find (fun e => HasPrefix s e) cut with
      | Some e => trim_left fuel' cut (drop (String.length e) s)
      | None => s
      end
  end.

Fixpoint trim_right (fuel : nat) (cut : list string) (s : string) : string :=
  match fuel with
  | O => s
  | S fuel' =>
      match List.find (fun e => HasSuffix s e) cut with
      | Some e => trim_right fuel' cut (take (String.length s - String.length e) s)
      | None => s
      end
  end.

Definition TrimLeft (s : string) (cut : list string) : string :=
  trim_left (String.length s) cut s.
Definition TrimRight (s : string) (cut : list string) : string :=
  trim_right (String.length s) cut s.
Definition TrimSpace (s : string) : string :=
  TrimRight (TrimLeft s space_runes) space_runes.

(** [strings.Fields] on ASCII blanks. *)
Definition is_blank (a : ascii) : bool :=
  let n := Ascii.nat_of_ascii a in
  bool_decide (n = 32%nat) || ((9 <=? n)%nat && (n <=? 13)%nat).

Fixpoint fields_acc (cur s : string) : list string :=
  match s with
  | EmptyString => if bool_decide (cur = EmptyString) then [] else [cur]
  | String a s' =>
      if is_blank a then
        (if bool_decide (cur = EmptyString) then [] else [cur]) ++ fields_acc EmptyString s'
      else fields_acc (cur +:+ String a EmptyString) s'
  end.
Definition Fields (s : string) : list string := fields_acc EmptyString s.

(** Length in bytes of the first rune ([utf8.DecodeRuneInString]); an invalid
    encoding consumes one byte and decodes to [RuneError]. *)
Definition cont (b : Z) : bool := (128 <=? b) && (b <=? 191).

Definition decode_width (bs : list Z) : nat * bool :=
  match bs with
  | [] => (0%nat, false)
  | b0 :: r =>
      if b0 <? 128 then (1%nat, true)
      else match r with
      | b1 :: r1 =>
          if (194 <=? b0) && (b0 <=? 223) && cont b1 then (2%nat, true)
          else match r1 with
          | b2 :: r2 =>
              if (((b0 =? 224) && (160 <=? b1) && (b1 <=? 191))
                  || ((225 <=? b0) && (b0 <=? 236) && cont b1)
                  || ((b0 =? 237) && (128 <=? b1) && (b1 <=? 159))
                  || ((238 <=? b0) && (b0 <=? 239) && cont b1)) && cont b2
              then (3%nat, true)
              else match r2 with
              | b3 :: _ =>
                  if (((b0 =? 240) && (144 <=? b1) && (b1 <=? 191))
                      || ((241 <=? b0) && (b0 <=? 243) && cont b1)
                      || ((b0 =? 244) && (128 <=? b1) && (b1 <=? 143)))
                     && cont b2 && cont b3
                  then (4%nat, true) else (1%nat, false)
              | [] => (1%nat, false)
              end
          | [] => (1%nat, false)
          end
      | [] => (1%nat, false)
      end
  end.

Definition bytes_of (s : string) : list Z :=
  map byte_val (String.list_ascii_of_string s).

Fixpoint rune_count (fuel : nat) (s : string) : Z :=
  match fuel, s with
  | S fuel', String _ _ =>
      1 + rune_count fuel' (drop (fst (decode_width (bytes_of s))) s)
  | _, _ => 0
  end.
Definition RuneCountInString (s : string) : Z := rune_count (String.length s) s.

(** The first rune as a string; [None] for [utf8.RuneError]. *)
Definition first_rune (s : string) : option string :=
  let (w, valid) := decode_width (bytes_of s) in
  if valid && negb (bool_decide (take w s = of_bytes [239; 191; 189]%nat))
  then Some (take w s) else None.

(** [%q] ([strconv.Quote]): the ASCII escapes; printable text is taken as it is, and
    so is every byte outside ASCII. *)
Definition quote_byte (a : ascii) : string :=
  let n := Ascii.nat_of_ascii a in
  let esc c := of_bytes [92; c]%nat in
  let digit k := (if k <? 10 then k + 48 else k + 87)%nat in
  match n with
  | 34%nat => esc 34%nat
  | 92%nat => esc 92%nat
  | 7%nat => esc 97%nat
  | 8%nat => esc 98%nat
  | 12%nat => esc 102%nat
  | 10%nat => esc 110%nat
  | 13%nat => esc 114%nat
  | 9%nat => esc 116%nat
  | 11%nat => esc 118%nat
  | _ => if ((n <? 32) || (n =? 127))%nat
         then of_bytes [92; 120; digit (n / 16); digit (n mod 16)]%nat
         else String a EmptyString
  end.

Fixpoint quote_body (s : string) : string :=
  match s with
  | EmptyString => EmptyString
  | String a s' => quote_byte a +:+ quote_body s'
  end.

Definition Quote (s : string) : string := dquote +:+ quote_body s +:+ dquote.

(** Byte order, as Go's [<] on strings and SQLite's BINARY collation. *)
Definition ltb (a b : string) : bool := String.ltb a b.
Definition leb (a b : string) : bool := String.leb a b.

(** [strings.SplitN(s, sep, 2)] on a one-byte separator: the two parts, when the
    separator occurs. *)
Fixpoint Cut (c : ascii) (s : string) : option (string * string) :=
  match s with
  | EmptyString => None
  | String a s' =>
      if bool_decide (a = c) then Some (EmptyString, s')
      else match Cut c s' with
           | Some (l, r) => Some (String a l, r)
           | None => None
           end
  end.

Definition is_digit (a : ascii) : bool :=
  (48 <=? byte_val a) && (byte_val a <=? 57).

Fixpoint digits_acc (acc : Z) (s : string) : option Z :=
  match s with
  | EmptyString => Some acc
  | String a s' => if is_digit a then digits_acc (10 * acc + (byte_val a - 48)) s' else None
  end.

(** [strconv.Atoi]: an optional sign, decimal digits, and the int64 range. *)
Definition Atoi (s : string) : option Z :=
  let '(neg, ds) := match s with
                    | String a s' =>
                        if bool_decide (a = Ascii.ascii_of_nat 45) then (true, s')
                        else if bool_decide (a = Ascii.ascii_of_nat 43) then (false, s')
                        else (false, s)
                    | EmptyString => (false, s)
                    end in
  match ds with
  | EmptyString => None
  | _ => match digits_acc 0 ds with
         | Some n => let v := if neg : bool then - n else n in
                     if (- 2 ^ 63 <=? v) && (v <? 2 ^ 63) then Some v else None
         | None => None
         end
  end.

Definition itoa (n : Z) : string := pretty n.

End Str.

Notation str_empty s := (bool_decide (s = EmptyString)).

(** [os.ErrNotExist]. *)
Definition ErrNotExist : error := ErrMsg "file does not exist".

Module Time.
(** Durations and instants are int64 nanoseconds. *)
Definition Nanosecond : Z := 1.
Definition Millisecond : Z := 1000000.
Definition Second : Z := 1000000000.
Definition Minute : Z := 60 * Second.
Definition Hour : Z := 60 * Minute.

(** Wrap a mathematical integer to int64. *)
Definition wrap64 (z : Z) : Z := (z + 2 ^ 63) mod 2 ^ 64 - 2 ^ 63.

Fixpoint pad_left (fuel : nat) (w : nat) (s : string) : string :=
  match fuel with
  | O => s
  | S f => if (String.length s <? w)%nat then pad_left f w ("0" +:+ s) else s
  end.
Definition pad (w : nat) (n : Z) : string := pad_left w w (Str.itoa n).

(** Proleptic Gregorian date of a day number since 1970-01-01. *)
Definition civil_from_days (z0 : Z) : Z * Z * Z :=
  let z := z0 + 719468 in
  let era := z / 146097 in
  let doe := z mod 146097 in
  let yoe := (doe - doe / 1460 + doe / 36524 - doe / 146096) / 365 in
  let doy := doe - (365 * yoe + yoe / 4 - yoe / 100) in
  let mp := (5 * doy + 2) / 153 in
  let d := doy - (153 * mp + 2) / 5 + 1 in
  let m := if mp <? 10 then mp + 3 else mp - 9 in
  let y := yoe + era * 400 + (if m <=? 2 then 1 else 0) in
  (y, m, d).

(** [t.UTC().Format("2006-01-02T15:04:05.000Z")]: the milliseconds are truncated. *)
Definition formatISO (ns : Z) : string :=
  let ms := ns / Millisecond in
  let '(y, m, d) := civil_from_days (ms / 86400000) in
  let r := ms mod 86400000 in
  pad 4 y +:+ "-" +:+ pad 2 m +:+ "-" +:+ pad 2 d +:+ "T"
    +:+ pad 2 (r / 3600000) +:+ ":" +:+ pad 2 (r / 60000 mod 60) +:+ ":"
    +:+ pad 2 (r / 1000 mod 60) +:+ "." +:+ pad 3 (r mod 1000) +:+ "Z".
End Time.

(** A value within the width does not wrap. *)
Lemma wrap64_id z : - 2 ^ 63 <= z < 2 ^ 63 -> Time.wrap64 z = z.
Proof. intros H. unfold Time.wrap64. rewrite Z.mod_small by lia. lia. Qed.

(** ** Numbers *)

(** Finite [float64] values are rationals; [<] on them, and the conversion to an
    integer type, which truncates. *)
Definition Qlt_bool (a b : Q) : bool := (Qnum a * Zpos (Qden b) <? Qnum b * Zpos (Qden a))%Z.
Definition Qtrunc (q : Q) : Z := Z.quot (Qnum q) (Zpos (Qden q)).

(** ** Examples of the clock text *)

Example formatISO_epoch : Time.formatISO 0 = "1970-01-01T00:00:00.000Z".
Proof. reflexivity. Qed.

Example formatISO_leap :
  Time.formatISO (1709251199 * Time.Second + 5 * Time.Millisecond)
  = "2024-02-29T23:59:59.005Z".
Proof. vm_compute. reflexivity. Qed.

(** ** Lemmas on byte strings *)

Module StrFacts.
Import Str.

Lemma prefix_true p s : String.prefix p s = true <-> exists t, s = p +:+ t.
Proof.
  revert s. induction p as [|a p IH]; intros s; simpl.
  - split; eauto. intros _. by destruct s.
  - destruct s as [|b s]; simpl.
    + split; [done|]. by intros [t Ht].
    + destruct (Ascii.ascii_dec a b) as [->|Hne].
      * rewrite IH. split; intros [t Ht]; exists t; simpl in *; congruence.
      * split; [done|]. intros [t Ht]. simpl in Ht. congruence.
Qed.

Lemma drop_app p t : drop (String.length p) (p +:+ t) = t.
Proof. induction p; simpl; [by destruct t|done]. Qed.

Lemma drop_nil n : drop n EmptyString = EmptyString.
Proof. by destruct n. Qed.

Lemma string_app_nil_r s : s +:+ EmptyString = s.
Proof. induction s; simpl; congruence. Qed.

Lemma string_app_assoc (s t u : string) : (s +:+ t) +:+ u = s +:+ (t +:+ u).
Proof. induction s as [|a s IH]; simpl; [done|]. by f_equal. Qed.

Lemma string_length_app s t :
  String.length (s +:+ t) = (String.length s + String.length t)%nat.
Proof. induction s; simpl; congruence. Qed.

Lemma HasPrefix_app p t : HasPrefix (p +:+ t) p = true.
Proof. apply prefix_true. eauto. Qed.

Lemma CutPrefix_Some s p t : CutPrefix s p = Some t <-> s = p +:+ t.
Proof.
  unfold CutPrefix, HasPrefix. split.
  - destruct (String.prefix p s) eqn:E; [|done].
    apply prefix_true in E as [t' ->]. rewrite drop_app. by intros [= ->].
  - intros ->. rewrite (proj2 (prefix_true p (p +:+ t))) by eauto.
    by rewrite drop_app.
Qed.

Lemma Contains_true s sub :
  Contains s sub = true <-> exists a b, s = a +:+ (sub +:+ b).
Proof.
  induction s as [|c s IH]; cbn [Contains]; rewrite orb_true_iff; unfold HasPrefix.
  - split.
    + intros [H|H]; [|done]. apply prefix_true in H as [t Ht].
      exists EmptyString, t. done.
    + intros (a & b & H). left. destruct a; simpl in H; [|done].
      apply prefix_true. eauto.
  - rewrite IH. split.
    + intros [H|(a & b & ->)].
      * apply prefix_true in H as [t Ht]. by exists EmptyString, t.
      * by exists (String c a), b.
    + intros (a & b & H). destruct a as [|c' a]; simpl in H.
      * left. apply prefix_true. eauto.
      * injection H as -> ->. right. eauto.
Qed.

Lemma Split_not_nil c s : Split c s <> [].
Proof.
  destruct s; simpl; [done|]. case_bool_decide; [done|]. by destruct (Split c s).
Qed.

(** [Split] and [Join] are inverse. *)
Lemma Join_Split c s : Join (Split c s) (String c EmptyString) = s.
Proof.
  unfold Join. induction s as [|a s IH]; [done|]. simpl.
  pose proof (Split_not_nil c s) as Hne.
  case_bool_decide; subst; destruct (Split c s) as [|h t]; try done.
  - simpl in *. by rewrite IH.
  - simpl in *. destruct t; by rewrite <- IH.
Qed.

(** No piece of a split contains the separator. *)
Lemma Split_no_sep c s l :
  l ∈ Split c s -> Count c l = 0%Z.
Proof.
  revert l. induction s as [|a s IH]; intros l; simpl.
  - intros ->%list_elem_of_singleton. done.
  - case_bool_decide.
    + intros [->|H']%elem_of_cons; [done|]. by apply IH.
    + pose proof (Split_not_nil c s) as Hne.
      destruct (Split c s) as [|h t]; [done|].
      intros [->|H']%elem_of_cons.
      * simpl. rewrite bool_decide_false by done. rewrite IH; set_solver.
      * apply IH. set_solver.
Qed.

Lemma map_bytes_length f s : String.length (map_bytes f s) = String.length s.
Proof. induction s; simpl; congruence. Qed.

Lemma map_bytes_app f s t : map_bytes f (s +:+ t) = map_bytes f s +:+ map_bytes f t.
Proof. induction s; simpl; congruence. Qed.

Lemma map_bytes_drop f n s : map_bytes f (drop n s) = drop n (map_bytes f s).
Proof. revert s. induction n; intros [|a s]; simpl; auto. Qed.

Lemma map_bytes_take f n s : map_bytes f (take n s) = take n (map_bytes f s).
Proof. revert s. induction n; intros [|a s]; simpl; congruence. Qed.

Lemma lower_byte_idem a : lower_byte (lower_byte a) = lower_byte a.
Proof. by destruct a as [[] [] [] [] [] [] [] []]. Qed.

Lemma ToLower_idem s : ToLower (ToLower s) = ToLower s.
Proof.
  unfold ToLower. induction s; simpl; [done|]. by rewrite lower_byte_idem, IHs.
Qed.

(** Bytes that are not letters are fixed by lowering, and only they map to them. *)
Definition caseless (a : ascii) : Prop :=
  lower_byte a = a /\ forall b, lower_byte b = a -> b = a.

Fixpoint caseless_str (s : string) : Prop :=
  match s with EmptyString => True | String a s' => caseless a /\ caseless_str s' end.

Lemma caseless_prefix e s :
  caseless_str e -> HasPrefix (ToLower s) e = HasPrefix s e.
Proof.
  unfold HasPrefix, ToLower. revert s.
  induction e as [|a e IH]; intros s; simpl; [by destruct s|].
  intros [[Ha Hinv] He]. destruct s as [|b s]; simpl; [done|].
  destruct (Ascii.ascii_dec a b) as [<-|Hne].
  - rewrite Ha. destruct (Ascii.ascii_dec a a); [|done]. by apply IH.
  - destruct (Ascii.ascii_dec a (lower_byte b)) as [->|]; [|done].
    by rewrite (Hinv b) in Hne.
Qed.

Lemma caseless_ToLower e s : caseless_str e -> ToLower s = e <-> s = e.
Proof.
  unfold ToLower. revert s.
  induction e as [|a e IH]; intros [|b s]; simpl; try done.
  intros [[Ha Hinv] He]. specialize (IH s He). split.
  - intros [= Hb Hs]. apply Hinv in Hb. apply IH in Hs. congruence.
  - intros [= -> ->]. rewrite Ha. f_equal. by apply IH.
Qed.

Lemma caseless_suffix e s :
  caseless_str e -> HasSuffix (ToLower s) e = HasSuffix s e.
Proof.
  intros He. unfold HasSuffix, ToLower. rewrite map_bytes_length. f_equal.
  rewrite <- map_bytes_drop. apply bool_decide_ext.
  by apply (caseless_ToLower e).
Qed.

Definition letterb (a : ascii) : bool :=
  let n := Ascii.nat_of_ascii a in
  ((65 <=? n)%nat && (n <=? 90)%nat) || ((97 <=? n)%nat && (n <=? 122)%nat).

Lemma not_letter_caseless a : letterb a = false -> caseless a.
Proof.
  unfold letterb, caseless, lower_byte. intros H. bsimp. split; [by rewrite H|].
  intros b Hb. destruct (_ && _) eqn:E in Hb; [|done]. exfalso. bsimp.
  apply Nat.leb_le in H1, H2. subst a. rewrite Ascii.nat_ascii_embedding in H0 by lia.
  apply andb_false_iff in H0 as [H0|H0]; apply Nat.leb_gt in H0; lia.
Qed.

Fixpoint no_letters (s : string) : bool :=
  match s with EmptyString => true | String a s' => negb (letterb a) && no_letters s' end.

Lemma no_letters_caseless s : no_letters s = true -> caseless_str s.
Proof.
  induction s as [|a s IH]; simpl; [done|]. intros H. bsimp.
  split; [by apply not_letter_caseless|auto].
Qed.

Lemma space_runes_caseless : Forall caseless_str space_runes.
Proof.
  apply Forall_forall. intros e He. apply no_letters_caseless.
  apply (proj1 (forallb_forall no_letters space_runes)); [by vm_compute|].
  by apply list_elem_of_In.
Qed.

(** No rune of the cutset starts (ends) the string. *)
Lemma find_none_iff {A} (f : A -> bool) l :
  List.find f l = None <-> Forall (fun x => f x = false) l.
Proof.
  induction l as [|x l IH]; simpl; [done|]. destruct (f x) eqn:E.
  - split; [done|]. inversion 1; congruence.
  - rewrite IH. split; [by constructor|by inversion 1].
Qed.

Lemma find_ext {A} (f g : A -> bool) l :
  Forall (fun x => f x = g x) l -> List.find f l = List.find g l.
Proof. induction 1 as [|x l H _ IH]; simpl; [done|]. by rewrite H, IH. Qed.

Lemma trim_left_lower cut fuel s :
  Forall caseless_str cut ->
  trim_left fuel cut (ToLower s) = ToLower (trim_left fuel cut s).
Proof.
  intros Hcut. revert s. induction fuel as [|fuel IH]; intros s; simpl; [done|].
  rewrite (find_ext _ (fun e => HasPrefix s e)).
  - destruct (List.find _ cut); [|done]. unfold ToLower.
    rewrite <- map_bytes_drop. apply IH.
  - eapply List.Forall_impl; [|exact Hcut]. intros e He. by apply caseless_prefix.
Qed.

Lemma trim_right_lower cut fuel s :
  Forall caseless_str cut ->
  trim_right fuel cut (ToLower s) = ToLower (trim_right fuel cut s).
Proof.
  intros Hcut. revert s. induction fuel as [|fuel IH]; intros s; simpl; [done|].
  rewrite (find_ext _ (fun e => HasSuffix s e)).
  - destruct (List.find _ cut); [|done]. unfold ToLower.
    rewrite map_bytes_length, <- map_bytes_take. apply IH.
  - eapply List.Forall_impl; [|exact Hcut]. intros e He. by apply caseless_suffix.
Qed.

Lemma TrimSpace_lower s : TrimSpace (ToLower s) = ToLower (TrimSpace s).
Proof.
  unfold TrimSpace, TrimRight, TrimLeft.
  pose proof space_runes_caseless as H.
  replace (String.length (ToLower s)) with (String.length s)
    by (symmetry; apply map_bytes_length).
  rewrite trim_left_lower by done.
  replace (String.length (ToLower _)) with (String.length (trim_left (String.length s) space_runes s))
    by (symmetry; apply map_bytes_length).
  by apply trim_right_lower.
Qed.

(** Trimming has enough fuel: the result starts (ends) with no cutset rune. *)
Lemma drop_length n s : String.length (drop n s) = (String.length s - n)%nat.
Proof. revert s. induction n; intros [|a s]; simpl; auto. Qed.

Lemma take_length_str n s : String.length (take n s) = (n `min` String.length s)%nat.
Proof. revert s. induction n; intros [|a s]; simpl; auto. Qed.

Definition nonempty_cut (cut : list string) : Prop :=
  Forall (fun e => (0 < String.length e)%nat) cut.

Lemma trim_left_fixed cut fuel s :
  nonempty_cut cut -> (String.length s <= fuel)%nat ->
  List.find (fun e => HasPrefix (trim_left fuel cut s) e) cut = None.
Proof.
  intros Hne. revert s. induction fuel as [|fuel IH]; intros s Hlen; simpl.
  - destruct s; simpl in *; [|lia]. apply find_none_iff.
    eapply List.Forall_impl; [|exact Hne]. intros [|] He; simpl in *; [lia|done].
  - destruct (List.find (fun e => HasPrefix s e) cut) as [e|] eqn:E; [|done].
    apply IH. rewrite drop_length. apply List.find_some in E as [Hin Hp].
    apply list_elem_of_In in Hin. unfold nonempty_cut in Hne.
    rewrite Forall_forall in Hne. specialize (Hne _ Hin). lia.
Qed.

Lemma trim_right_fixed cut fuel s :
  nonempty_cut cut -> (String.length s <= fuel)%nat ->
  List.find (fun e => HasSuffix (trim_right fuel cut s) e) cut = None.
Proof.
  intros Hne. revert s. induction fuel as [|fuel IH]; intros s Hlen; simpl.
  - destruct s; simpl in *; [|lia]. apply find_none_iff.
    eapply List.Forall_impl; [|exact Hne]. intros [|] He; simpl in *; [lia|done].
  - destruct (List.find (fun e => HasSuffix s e) cut) as [e|] eqn:E; [|done].
    apply IH. rewrite take_length_str. apply List.find_some in E as [Hin Hp].
    apply list_elem_of_In in Hin. unfold nonempty_cut in Hne.
    rewrite Forall_forall in Hne. specialize (Hne _ Hin).
    unfold HasSuffix in Hp. bsimp. lia.
Qed.

Lemma take_prefix n s e : HasPrefix (take n s) e = true -> HasPrefix s e = true.
Proof.
  unfold HasPrefix. revert n s. induction e as [|a e IH]; intros n s; [by destruct s|].
  destruct n, s as [|b s]; simpl; try done.
  destruct (Ascii.ascii_dec a b); [|done]. apply IH.
Qed.

Lemma trim_right_prefix cut fuel s e :
  HasPrefix (trim_right fuel cut s) e = true -> HasPrefix s e = true.
Proof.
  revert s. induction fuel as [|fuel IH]; intros s; simpl; [done|].
  destruct (List.find _ cut); [|done]. intros H%IH. by eapply take_prefix.
Qed.

Lemma trim_left_id cut fuel s :
  List.find (fun e => HasPrefix s e) cut = None -> trim_left fuel cut s = s.
Proof. destruct fuel; simpl; [done|]. by intros ->. Qed.

Lemma trim_right_id cut fuel s :
  List.find (fun e => HasSuffix s e) cut = None -> trim_right fuel cut s = s.
Proof. destruct fuel; simpl; [done|]. by intros ->. Qed.

Lemma space_runes_nonempty : nonempty_cut space_runes.
Proof.
  unfold nonempty_cut, space_runes. rewrite Forall_map.
  repeat apply List.Forall_cons; try apply List.Forall_nil; simpl; lia.
Qed.

Lemma TrimSpace_idem s : TrimSpace (TrimSpace s) = TrimSpace s.
Proof.
  unfold TrimSpace at 1, TrimLeft. rewrite trim_left_id.
  - unfold TrimRight at 1. apply trim_right_id. unfold TrimSpace, TrimRight.
    by apply trim_right_fixed; [apply space_runes_nonempty|].
  - apply find_none_iff.
    pose proof (trim_left_fixed space_runes (String.length s) s
                  space_runes_nonempty (le_n _)) as Hl.
    rewrite find_none_iff in Hl. eapply List.Forall_impl; [|exact Hl]. simpl.
    intros e He. apply not_true_is_false. intros Hp.
    unfold TrimSpace, TrimRight, TrimLeft in Hp.
    apply trim_right_prefix in Hp. congruence.
Qed.

(** ** The first occurrence *)

Fixpoint has_byte (c : ascii) (s : string) : bool :=
  match s with EmptyString => false | String a s' => bool_decide (a = c) || has_byte c s' end.

Lemma has_byte_app c s t : has_byte c (s +:+ t) = has_byte c s || has_byte c t.
Proof. induction s as [|a s IH]; simpl; [done|]. by rewrite IH, orb_assoc. Qed.

Lemma take_whole s t : take (String.length s) (s +:+ t) = s.
Proof. induction s as [|a s IH]; simpl; [by destruct t|]. by rewrite IH. Qed.

(** Two ways to cut one string in two. *)
Lemma app_cases s1 : forall s2 t1 t2, s1 +:+ s2 = t1 +:+ t2 ->
  (exists u, s1 = t1 +:+ u /\ t2 = u +:+ s2) \/ (exists u, t1 = s1 +:+ u /\ s2 = u +:+ t2).
Proof.
  induction s1 as [|a s1 IH]; intros s2 t1 t2 H; [right; by exists t1|].
  destruct t1 as [|b t1]; [left; by exists (String a s1)|]. simpl in H. injection H as -> H.
  destruct (IH _ _ _ H) as [(u & -> & ->)|(u & -> & ->)]; [left|right]; by exists u.
Qed.

(** A pattern whose first byte does not come back in it cannot straddle a boundary
    after which it stands. *)
Lemma Index_first c x a b :
  Contains a (String c x) = false -> has_byte c x = false ->
  Index (a +:+ String c x +:+ b) (String c x) = Some (String.length a).
Proof.
  intros Ha Hx. unfold Index. induction a as [|h a IH].
  - cbn [String.append String.length]. set (pat := String c x). change (String c (x +:+ b)) with (pat +:+ b).
    assert (String.prefix pat (pat +:+ b) = true) as Hp by (apply prefix_true; eauto).
    unfold pat at 2. cbn [String.append String.index]. change (String c (x +:+ b)) with (pat +:+ b). by rewrite Hp.
  - cbn [Contains] in Ha. apply orb_false_iff in Ha as [Hp Ha].
    cbn [String.append String.index String.length].
    destruct (String.prefix (String c x) (String h (a +:+ String c (x +:+ b)))) eqn:E.
    + exfalso. apply prefix_true in E as [t E].
      change (String h (a +:+ String c (x +:+ b))) with (String h a +:+ String c (x +:+ b)) in E.
      destruct (app_cases _ _ _ _ E) as [(u & E1 & _)|(u & E1 & E2)].
      * rewrite E1, HasPrefix_app in Hp. done.
      * destruct u as [|c' u]; [rewrite string_app_nil_r in E1; rewrite <- E1 in Hp; pose proof (HasPrefix_app (String c x) EmptyString) as H;
           rewrite string_app_nil_r in H; congruence|].
        simpl in E1, E2. injection E1 as -> ->. injection E2 as -> _.
        rewrite has_byte_app in Hx. simpl in Hx. by rewrite bool_decide_true, orb_true_r in Hx.
    + change (a +:+ String c (x +:+ b)) with (a +:+ String c x +:+ b). by rewrite (IH Ha).
Qed.

End StrFacts.
