(* ===== verification/Clock.v ===== *)
(** * Instants and their text

    The store keeps instants as ISO-8601 text with milliseconds ([tsLayout] of
    store/budget.go, [strandedTimeFormat] of cli/stranded.go) and compares them as
    strings.  This file has the parser of that layout, and the two facts the rest
    relies on for int64 instants since 1970: parsing undoes formatting up to the
    millisecond, and the order of the text is the order of the instants. *)

From S2P Require Import Prelude GoStd.

Open Scope Z_scope.

(** Linear arithmetic with division by constants. *)
Ltac dlia := Z.to_euclidean_division_equations; lia.

(** ** The parser *)

(** The day number of a proleptic Gregorian date. *)
Definition days_from_civil (y0 m d : Z) : Z :=
  let y := if m <=? 2 then y0 - 1 else y0 in
  let era := y / 400 in
  let yoe := y mod 400 in
  let mp := if m <=? 2 then m + 9 else m - 3 in
  let doy := (153 * mp + 2) / 5 + d - 1 in
  let doe := yoe * 365 + yoe / 4 - yoe / 100 + doy in
  era * 146097 + doe - 719468.

Definition leap_year (y : Z) : bool :=
  (y mod 4 =? 0) && (negb (y mod 100 =? 0) || (y mod 400 =? 0)).

Definition days_in_month (y m : Z) : Z :=
  if m =? 2 then (if leap_year y then 29 else 28)
  else if (m =? 4) || (m =? 6) || (m =? 9) || (m =? 11) then 30 else 31.

(** [w] digits at offset [i]. *)
Definition field (i w : nat) (s : string) : option Z := Str.digits_acc 0 (Str.take w (Str.drop i s)).

Definition literal (i : nat) (c s : string) : bool := bool_decide (Str.take 1 (Str.drop i s) = c).

(** [time.Parse("2006-01-02T15:04:05.000Z", s)], in nanoseconds. *)
Definition parseISO (s : string) : option Z :=
  if bool_decide (String.length s = 24%nat) && literal 4 "-" s && literal 7 "-" s && literal 10 "T" s &&
     literal 13 ":" s && literal 16 ":" s && literal 19 "." s && literal 23 "Z" s
  then
    match field 0 4 s, field 5 2 s, field 8 2 s, field 11 2 s, field 14 2 s, field 17 2 s, field 20 3 s with
    | Some y, Some m, Some d, Some hh, Some mi, Some ss, Some ms =>
        if (1 <=? m) && (m <=? 12) && (1 <=? d) && (d <=? days_in_month y m) && (hh <? 24) &&
           (mi <? 60) && (ss <? 60)
        then Some ((days_from_civil y m d * 86400000 + hh * 3600000 + mi * 60000 + ss * 1000 + ms)
                     * Time.Millisecond)
        else None
    | _, _, _, _, _, _, _ => None
    end
  else None.

(** ** Durations as text *)

(** [Duration.String] of whole seconds, not negative. *)
Definition duration_text (s : Z) : string :=
  let hs := s / 3600 in let ms := s / 60 mod 60 in let ss := s mod 60 in
  (if 0 <? hs then Str.itoa hs +:+ "h" else EmptyString) +:+
  (if 0 <? s / 60 then Str.itoa ms +:+ "m" else EmptyString) +:+ Str.itoa ss +:+ "s".

(** [d.Round(time.Second).String()] and [d.Round(time.Minute).String()]. *)
Definition seconds_text (d : Z) : string := duration_text ((d + 500 * Time.Millisecond) / Time.Second).
Definition minutes_text (d : Z) : string := duration_text ((d + 30 * Time.Second) / Time.Minute * 60).

(** ** Fixed-width decimals *)

Definition digit (n : Z) : ascii := Ascii.ascii_of_nat (48 + Z.to_nat (n mod 10)).

Fixpoint fixed (w : nat) (n : Z) : string :=
  match w with
  | O => EmptyString
  | S w' => String (digit (n / 10 ^ Z.of_nat w')) (fixed w' n)
  end.

Lemma fixed_length w n : String.length (fixed w n) = w.
Proof. induction w; simpl; congruence. Qed.

(** All numbers of [[a, a + n)], by computation. *)
Definition all_from (a : Z) (n : N) (f : Z -> bool) : bool :=
  fst (N.iter n (fun p : bool * Z => let (ok, z) := p in (ok && f z, z + 1)) (true, a)).

Lemma all_from_spec a n f z : all_from a n f = true -> a <= z < a + Z.of_N n -> f z = true.
Proof.
  unfold all_from.
  assert (snd (N.iter n (fun p : bool * Z => let (ok, z) := p in (ok && f z, z + 1)) (true, a)) = a + Z.of_N n /\
          (fst (N.iter n (fun p : bool * Z => let (ok, z) := p in (ok && f z, z + 1)) (true, a)) = true ->
           forall z, a <= z < a + Z.of_N n -> f z = true)) as [_ H]; [|intros H1 H2; by apply H].
  induction n as [|n [IH1 IH2]] using N.peano_ind; [simpl; split; [lia|intros _ z' ?; lia]|].
  rewrite N.iter_succ. destruct (N.iter n _ _) as [ok z']. simpl in *. split; [lia|].
  intros [-> Hf]%andb_true_iff y Hy. destruct (decide (y = z')) as [->|]; [done|]. apply IH2; [done|lia].
Qed.

Lemma pad_fixed w n bound :
  (w, bound) ∈ [(2%nat, 100%N); (3%nat, 1000%N); (4%nat, 2301%N)] -> 0 <= n < Z.of_N bound ->
  Time.pad w n = fixed w n.
Proof.
  intros Hw Hn.
  assert (all_from 0 bound (fun z => bool_decide (Time.pad w z = fixed w z)) = true) as H.
  { repeat (apply elem_of_cons in Hw as [[= -> ->]|Hw]; [vm_compute; reflexivity|]).
    by apply elem_of_nil in Hw. }
  apply (all_from_spec _ _ _ n) in H; [by apply bool_decide_eq_true_1 in H|lia].
Qed.

Lemma digit_val n : Str.is_digit (digit n) = true /\ Str.byte_val (digit n) = 48 + n mod 10.
Proof.
  pose proof (Z.mod_pos_bound n 10 ltac:(lia)) as H. unfold digit, Str.is_digit, Str.byte_val.
  rewrite Ascii.nat_ascii_embedding by lia. split; [|lia]. apply andb_true_iff. split; apply Z.leb_le; lia.
Qed.

Lemma fixed_mod w n : 0 <= n -> n / 10 ^ Z.of_nat w mod 10 * 10 ^ Z.of_nat w + n mod 10 ^ Z.of_nat w
  = n mod 10 ^ Z.of_nat (S w).
Proof.
  intros Hn. rewrite Nat2Z.inj_succ, Z.pow_succ_r by lia. set (p := 10 ^ Z.of_nat w).
  assert (0 < p) by (by apply Z.pow_pos_nonneg; lia).
  rewrite (Z.mul_comm 10 p), Z.rem_mul_r by lia. lia.
Qed.

Lemma digits_fixed w n acc s :
  0 <= n -> Str.digits_acc acc (fixed w n +:+ s) = Str.digits_acc (acc * 10 ^ Z.of_nat w + n mod 10 ^ Z.of_nat w) s.
Proof.
  intros Hn. revert acc. induction w as [|w IH]; intros acc.
  - simpl. f_equal. rewrite Z.mod_1_r. lia.
  - cbn [fixed String.append Str.digits_acc]. destruct (digit_val (n / 10 ^ Z.of_nat w)) as [-> ->].
    rewrite IH. f_equal. rewrite <- (fixed_mod w n Hn), Nat2Z.inj_succ, Z.pow_succ_r by lia. lia.
Qed.

Lemma take_app n s t : String.length s = n -> Str.take n (s +:+ t) = s.
Proof.
  intros <-. induction s as [|a s IH]; simpl; [by destruct t|by rewrite IH].
Qed.

(** ** The date of a day *)

(** Day of the 400-year era (starting in March) on which its year [y] starts. *)
Definition year_start (y : Z) : Z := if y =? 400 then 146097 else y * 365 + y / 4 - y / 100.

Definition year_of (doe : Z) : Z := (doe - doe / 1460 + doe / 36524 - doe / 146096) / 365.

Lemma minus_div_mono c x y : 0 < c -> x <= y -> x - x / c <= y - y / c.
Proof.
  intros Hc H. enough (y / c < x / c + (y - x) + 1) by lia. apply Z.div_lt_upper_bound; [lia|].
  pose proof (Z.mul_succ_div_gt x c Hc). nia.
Qed.

Lemma year_of_mono x y : 0 <= x <= y -> year_of x <= year_of y.
Proof.
  intros H. unfold year_of. apply Z.div_le_mono; [lia|].
  pose proof (minus_div_mono 1460 x y ltac:(lia) ltac:(lia)).
  assert (x / 36524 - x / 146096 <= y / 36524 - y / 146096).
  { assert (forall z, z / 146096 = z / 36524 / 4) as Hq by (intros z; by rewrite Z.div_div).
    rewrite !Hq.
    pose proof (Z.div_le_mono x y 36524 ltac:(lia) ltac:(lia)) as Hm. revert Hm.
    generalize (x / 36524) (y / 36524). clear. intros a b Hm. by apply minus_div_mono. }
  lia.
Qed.

Lemma year_of_spec y doe :
  0 <= y < 400 -> year_start y <= doe < year_start (y + 1) -> year_of doe = y /\ 0 <= year_start y.
Proof.
  intros Hy Hd.
  assert (all_from 0 400 (fun y => (year_of (year_start y) =? y) && (0 <=? year_start y) &&
    (year_of (year_start (y + 1) - 1) =? y)) = true) as H by (vm_compute; reflexivity).
  apply (all_from_spec _ _ _ y) in H; [|lia].
  rewrite !andb_true_iff, !Z.eqb_eq, Z.leb_le in H. destruct H as [[H1 H0] H2].
  pose proof (year_of_mono (year_start y) doe ltac:(lia)).
  pose proof (year_of_mono doe (year_start (y + 1) - 1) ltac:(lia)). lia.
Qed.

Lemma year_exists doe : 0 <= doe < 146097 ->
  exists y, 0 <= y < 400 /\ year_start y <= doe < year_start (y + 1).
Proof.
  intros Hd. assert (forall n : nat, Z.of_nat n <= 400 -> doe < year_start (Z.of_nat n) ->
    exists y, 0 <= y < Z.of_nat n /\ year_start y <= doe < year_start (y + 1)) as H.
  { induction n as [|n IH]; intros Hn Hlt; [change (year_start (Z.of_nat 0)) with 0 in Hlt; lia|].
    destruct (Z.lt_ge_cases doe (year_start (Z.of_nat n))) as [Hl|Hl].
    - destruct (IH ltac:(lia) Hl) as (y & ? & ?). exists y. split; [lia|done].
    - exists (Z.of_nat n). replace (Z.of_nat n + 1) with (Z.of_nat (S n)) by lia. lia. }
  destruct (H 400%nat ltac:(lia)) as (y & Hy & ?); [change (year_start (Z.of_nat 400)) with 146097; lia|].
  exists y. split; [lia|done].
Qed.

(** Month (from March) and day of a day of the year. *)
Definition month_of (doy : Z) : Z := (5 * doy + 2) / 153.
Definition day_of (doy : Z) : Z := doy - (153 * month_of doy + 2) / 5 + 1.

(** The month's number, and whether it is in the next calendar year. *)
Definition month_no (doy : Z) : Z := if month_of doy <? 10 then month_of doy + 3 else month_of doy - 9.

Definition month_ok (doy : Z) : bool :=
  let m := month_no doy in let d := day_of doy in
  (0 <=? month_of doy) && (month_of doy <=? 11) && (1 <=? m) && (m <=? 12) && (1 <=? d) && (d <? 32) &&
  (if m =? 2 then (d <=? 28) || ((d =? 29) && (doy =? 365)) else d <=? days_in_month 1970 m) &&
  Bool.eqb (m <=? 2) (negb (month_of doy <? 10)) &&
  ((153 * (if m <=? 2 then m + 9 else m - 3) + 2) / 5 + d - 1 =? doy) &&
  ((365 <=? doy) || (month_of doy * 100 + d <? month_of (doy + 1) * 100 + day_of (doy + 1))).

Lemma month_facts doy : 0 <= doy < 366 ->
  0 <= month_of doy <= 11 /\ 1 <= month_no doy <= 12 /\ 1 <= day_of doy < 32 /\
  (if month_no doy =? 2 then day_of doy <= 28 \/ day_of doy = 29 /\ doy = 365
   else day_of doy <= days_in_month 1970 (month_no doy)) /\
  (month_no doy <=? 2) = negb (month_of doy <? 10) /\
  (153 * (if month_no doy <=? 2 then month_no doy + 9 else month_no doy - 3) + 2) / 5 + day_of doy - 1 = doy /\
  (doy < 365 -> month_of doy * 100 + day_of doy < month_of (doy + 1) * 100 + day_of (doy + 1)).
Proof.
  intros Hd.
  assert (all_from 0 366 month_ok = true) as H by (vm_compute; reflexivity).
  apply (all_from_spec _ _ _ doy) in H; [|lia]. unfold month_ok in H. cbv zeta in H.
  rewrite !andb_true_iff, orb_true_iff, !Z.leb_le, !Z.ltb_lt, eqb_true_iff, Z.eqb_eq in H.
  destruct H as [[[[[[[[[? ?] ?] ?] ?] ?] Hf] Hb] Hi] Hs].
  repeat (split; [lia|]). split; [|split; [done|split; [done|intros; destruct Hs; [lia|done]]]].
  destruct (month_no doy =? 2); [|by apply Z.leb_le].
  rewrite orb_true_iff, andb_true_iff, Z.leb_le, !Z.eqb_eq in Hf. done.
Qed.

Lemma month_key_mono x y : 0 <= x < y -> y < 366 ->
  month_of x * 100 + day_of x < month_of y * 100 + day_of y.
Proof.
  intros H1 H2. replace y with (x + 1 + Z.of_nat (Z.to_nat (y - x - 1))) in * by lia.
  induction (Z.to_nat (y - x - 1)) as [|n IH].
  - replace (x + 1 + Z.of_nat 0) with (x + 1) by lia. apply (month_facts x); lia.
  - pose proof (month_facts (x + 1 + Z.of_nat n) ltac:(lia)) as (_ & _ & _ & _ & _ & _ & Hs).
    replace (x + 1 + Z.of_nat n + 1) with (x + 1 + Z.of_nat (S n)) in Hs by lia.
    specialize (IH ltac:(lia) ltac:(lia)). specialize (Hs ltac:(lia)). lia.
Qed.

(** First day of the March-based year [y], from the first of March of year 0. *)
Definition year_day (y : Z) : Z := y / 400 * 146097 + year_start (y mod 400).

Lemma year_day_next y : year_day (y + 1) = y / 400 * 146097 + year_start (y mod 400 + 1).
Proof.
  unfold year_day. pose proof (Z.mod_pos_bound y 400 ltac:(lia)) as Hm. pose proof (Z.div_mod y 400 ltac:(lia)).
  destruct (decide (y mod 400 = 399)) as [E|E].
  - assert ((y + 1) / 400 = y / 400 + 1 /\ (y + 1) mod 400 = 0) as [-> ->] by dlia. rewrite E.
    change (year_start 0) with 0. change (year_start (399 + 1)) with 146097. lia.
  - assert ((y + 1) / 400 = y / 400 /\ (y + 1) mod 400 = y mod 400 + 1) as [-> ->] by dlia. done.
Qed.

Lemma year_day_facts y : 1969 <= y < 2400 ->
  365 <= year_day (y + 1) - year_day y <= 366 /\
  (365 < year_day (y + 1) - year_day y -> leap_year (y + 1) = true).
Proof.
  intros Hy.
  assert (all_from 1969 431 (fun y => (365 <=? year_day (y + 1) - year_day y) &&
    (year_day (y + 1) - year_day y <=? 366) &&
    ((year_day (y + 1) - year_day y <=? 365) || leap_year (y + 1))) = true) as H by (vm_compute; reflexivity).
  apply (all_from_spec _ _ _ y) in H; [|lia].
  rewrite !andb_true_iff, orb_true_iff, !Z.leb_le in H. destruct H as [? [?|?]]; split; try done; lia.
Qed.

Lemma year_day_mono y1 y2 : 1969 <= y1 <= y2 -> y2 <= 2400 -> year_day y1 <= year_day y2.
Proof.
  intros H1 H2. replace y2 with (y1 + Z.of_nat (Z.to_nat (y2 - y1))) in * by lia.
  induction (Z.to_nat (y2 - y1)) as [|n IH]; [by rewrite Z.add_0_r|].
  pose proof (year_day_facts (y1 + Z.of_nat n) ltac:(lia)) as [Hs _].
  replace (y1 + Z.of_nat n + 1) with (y1 + Z.of_nat (S n)) in Hs by lia.
  specialize (IH ltac:(lia) ltac:(lia)). lia.
Qed.

(** A day as its March-based year and the day of that year. *)
Definition shape (z y doy : Z) : Prop :=
  1969 <= y < 2300 /\ 0 <= doy < 366 /\ z + 719468 = year_day y + doy /\ z + 719468 < year_day (y + 1) /\
  Time.civil_from_days z =
    (y + (if month_of doy <? 10 then 0 else 1), month_no doy, day_of doy).

(** Days of int64 nanoseconds since 1970. *)
Definition max_day : Z := 106752.

Lemma civil_shape z : 0 <= z < max_day -> exists y doy, shape z y doy.
Proof.
  unfold max_day. intros Hz. set (z' := z + 719468). set (era := z' / 146097). set (doe := z' mod 146097).
  destruct (year_exists doe) as (yoe & Hy & Hd); [by apply Z.mod_pos_bound|].
  destruct (year_of_spec yoe doe Hy Hd) as [Hyo H0].
  exists (era * 400 + yoe), (doe - year_start yoe).
  assert ((era * 400 + yoe) / 400 = era) as E1 by (rewrite Z.div_add_l, (Z.div_small yoe) by lia; lia).
  assert ((era * 400 + yoe) mod 400 = yoe) as E2 by (rewrite Z.add_comm, Z.mod_add, Z.mod_small by lia; lia).
  assert (year_day (era * 400 + yoe) = era * 146097 + year_start yoe) as E3 by (unfold year_day; by rewrite E1, E2).
  pose proof (year_day_next (era * 400 + yoe)) as E4. rewrite E1, E2 in E4.
  assert (z' = era * 146097 + doe) as Ez by (unfold era, doe; pose proof (Z.div_mod z' 146097); lia).
  assert (4 <= era <= 5) as Hera.
  { unfold era. split; [apply Z.div_le_lower_bound|apply Z.lt_succ_r, Z.div_lt_upper_bound]; lia. }
  assert (1969 <= era * 400 + yoe < 2300) as Hb.
  { pose proof (year_of_mono 135080 doe) as Hlo. pose proof (year_of_mono doe 95735) as Hhi.
    change (year_of 135080) with 369 in Hlo. change (year_of 95735) with 262 in Hhi. lia. }
  assert (year_start (yoe + 1) - year_start yoe <= 366) as Hlen.
  { pose proof (proj1 (year_day_facts (era * 400 + yoe) ltac:(lia))). lia. }
  split; [lia|]. split; [lia|]. split; [lia|]. split; [lia|].
  unfold Time.civil_from_days. fold z'. fold era. fold doe.
  change ((doe - doe / 1460 + doe / 36524 - doe / 146096) / 365) with (year_of doe). rewrite Hyo.
  assert (365 * yoe + yoe / 4 - yoe / 100 = year_start yoe) as Es.
  { unfold year_start. destruct (Z.eqb_spec yoe 400); lia. }
  replace (doe - (365 * yoe + yoe / 4 - yoe / 100)) with (doe - year_start yoe) by lia.
  assert (0 <= doe - year_start yoe < 366) as Hdoy by lia.
  set (doy := doe - year_start yoe) in *. change ((5 * doy + 2) / 153) with (month_of doy).
  change (doy - (153 * month_of doy + 2) / 5 + 1) with (day_of doy).
  pose proof (month_facts doy Hdoy) as (_ & _ & _ & _ & Hb2 & _).
  change (if month_of doy <? 10 then month_of doy + 3 else month_of doy - 9) with (month_no doy).
  rewrite Hb2. destruct (month_of doy <? 10); simpl; do 2 f_equal; lia.
Qed.

(** Parsing the date back. *)
Lemma shape_back z y doy : shape z y doy ->
  let '(cy, cm, cd) := Time.civil_from_days z in
  1969 <= cy <= 2300 /\ 1 <= cm <= 12 /\ 1 <= cd <= days_in_month cy cm /\ cd < 32 /\
  days_from_civil cy cm cd = z.
Proof.
  intros (Hy & Hd & Hz & Hn & ->). pose proof (month_facts doy Hd) as (_ & Hm & Hday & Hf & Hb & Hi & _).
  pose proof (year_day_facts y ltac:(lia)) as [Hl Hleap].
  unfold days_from_civil. rewrite Hi, Hb.
  assert ((if negb (month_of doy <? 10) then y + (if month_of doy <? 10 then 0 else 1) - 1
           else y + (if month_of doy <? 10 then 0 else 1)) = y) as -> by (destruct (_ <? 10); simpl; lia).
  split; [destruct (_ <? 10); lia|]. split; [lia|]. split; [|split; [lia|]].
  - split; [lia|]. unfold days_in_month in *. destruct (Z.eqb_spec (month_no doy) 2) as [E|E]; [|done].
    rewrite E in Hb. destruct (month_of doy <? 10); [done|].
    destruct Hf as [?|[? ->]]; [destruct (leap_year _); lia|]. rewrite Hleap by lia. lia.
  - unfold year_day, year_start in Hz. pose proof (Z.mod_pos_bound y 400).
    destruct (Z.eqb_spec (y mod 400) 400); lia.
Qed.

(** The order of dates, as one number. *)
Definition date_key (z : Z) : Z := let '(y, m, d) := Time.civil_from_days z in (y * 100 + m) * 100 + d.

Lemma date_key_mono z1 z2 : 0 <= z1 < z2 -> z2 < max_day -> date_key z1 < date_key z2.
Proof.
  intros H1 H2. destruct (civil_shape z1) as (y1 & n1 & Hy1 & Hn1 & Hz1 & Hx1 & E1); [lia|].
  destruct (civil_shape z2) as (y2 & n2 & Hy2 & Hn2 & Hz2 & Hx2 & E2); [lia|].
  unfold date_key. rewrite E1, E2.
  pose proof (month_facts n1 Hn1) as (Hm1 & _ & Hd1 & _). pose proof (month_facts n2 Hn2) as (Hm2 & _ & Hd2 & _).
  unfold month_no. destruct (Z.lt_trichotomy y1 y2) as [Hlt|[->|Hgt]].
  - destruct (Z.ltb_spec (month_of n1) 10), (Z.ltb_spec (month_of n2) 10); lia.
  - pose proof (month_key_mono n1 n2 ltac:(lia) ltac:(lia)) as Hk.
    destruct (Z.ltb_spec (month_of n1) 10), (Z.ltb_spec (month_of n2) 10); lia.
  - pose proof (year_day_mono (y2 + 1) y1 ltac:(lia) ltac:(lia)). lia.
Qed.

(** ** The text *)

(** int64 instants since 1970. *)
Definition instant (t : Z) : Prop := 0 <= t < 2 ^ 63.

(** The fields of an instant. *)
Definition ms_of (t : Z) : Z := t / Time.Millisecond.
Definition day_no (t : Z) : Z := ms_of t / 86400000.
Definition tod (t : Z) : Z := ms_of t mod 86400000.
Definition hour_of (t : Z) : Z := tod t / 3600000.
Definition minute_of (t : Z) : Z := tod t / 60000 mod 60.
Definition second_of (t : Z) : Z := tod t / 1000 mod 60.
Definition milli_of (t : Z) : Z := tod t mod 1000.

Lemma instant_fields t : instant t ->
  0 <= day_no t < max_day /\ 0 <= hour_of t < 24 /\ 0 <= minute_of t < 60 /\ 0 <= second_of t < 60 /\
  0 <= milli_of t < 1000 /\
  ms_of t = day_no t * 86400000 + hour_of t * 3600000 + minute_of t * 60000 + second_of t * 1000 + milli_of t.
Proof.
  unfold instant, day_no, tod, hour_of, minute_of, second_of, milli_of, tod, max_day. intros Ht.
  assert (0 <= ms_of t < 106752 * 86400000) as Hms.
  { unfold ms_of, Time.Millisecond. split; [apply Z.div_pos; lia|apply Z.div_lt_upper_bound; lia]. }
  revert Hms. generalize (ms_of t). clear. intros m Hm.
  pose proof (Z.div_mod m 86400000 ltac:(lia)) as E. pose proof (Z.mod_pos_bound m 86400000 ltac:(lia)) as Hr.
  split; [split; [apply Z.div_pos; lia|apply Z.div_lt_upper_bound; lia]|].
  revert E Hr. generalize (m / 86400000) (m mod 86400000). clear. intros q r -> Hr. dlia.
Qed.

Definition iso_text (y m d hh mi ss ms : Z) : string :=
  fixed 4 y +:+ ("-" +:+ (fixed 2 m +:+ ("-" +:+ (fixed 2 d +:+ ("T" +:+ (fixed 2 hh +:+ (":" +:+
    (fixed 2 mi +:+ (":" +:+ (fixed 2 ss +:+ ("." +:+ (fixed 3 ms +:+ "Z")))))))))))).

Lemma formatISO_text t : instant t ->
  Time.formatISO t =
    let '(y, m, d) := Time.civil_from_days (day_no t) in
    iso_text y m d (hour_of t) (minute_of t) (second_of t) (milli_of t).
Proof.
  intros Ht. destruct (instant_fields t Ht) as (Hd & Hh & Hmi & Hs & Hms & _).
  destruct (civil_shape _ Hd) as (yy & doy & Hsh). apply shape_back in Hsh.
  unfold Time.formatISO. change (t / Time.Millisecond) with (ms_of t).
  change (ms_of t / 86400000) with (day_no t). change (ms_of t mod 86400000) with (tod t).
  destruct (Time.civil_from_days (day_no t)) as [[y m] d]. destruct Hsh as (Hy & Hm & Hdd & Hd32 & _).
  change (tod t / 3600000) with (hour_of t). change (tod t / 60000 mod 60) with (minute_of t).
  change (tod t / 1000 mod 60) with (second_of t). change (tod t mod 1000) with (milli_of t).
  rewrite (pad_fixed 4 y 2301), !(pad_fixed 2 _ 100), (pad_fixed 3 _ 1000) by (lia || (repeat constructor)).
  done.
Qed.

Lemma field_fixed w n : 0 <= n < 10 ^ Z.of_nat w -> Str.digits_acc 0 (fixed w n) = Some n.
Proof.
  intros Hn. rewrite <- (StrFacts.string_app_nil_r (fixed w n)), digits_fixed by lia.
  simpl. by rewrite Z.mod_small.
Qed.

Lemma parse_iso_text y m d hh mi ss ms :
  0 <= y < 10000 -> 1 <= m <= 12 -> 1 <= d <= days_in_month y m -> d < 100 -> 0 <= hh < 24 -> 0 <= mi < 60 ->
  0 <= ss < 60 -> 0 <= ms < 1000 ->
  parseISO (iso_text y m d hh mi ss ms) =
    Some ((days_from_civil y m d * 86400000 + hh * 3600000 + mi * 60000 + ss * 1000 + ms) * Time.Millisecond).
Proof.
  intros Hy Hm Hd Hd' Hh Hmi Hss Hms. unfold parseISO, field.
  change (String.length (iso_text y m d hh mi ss ms)) with 24%nat.
  change (Str.take 4 (Str.drop 0 (iso_text y m d hh mi ss ms))) with (fixed 4 y).
  change (Str.take 2 (Str.drop 5 (iso_text y m d hh mi ss ms))) with (fixed 2 m).
  change (Str.take 2 (Str.drop 8 (iso_text y m d hh mi ss ms))) with (fixed 2 d).
  change (Str.take 2 (Str.drop 11 (iso_text y m d hh mi ss ms))) with (fixed 2 hh).
  change (Str.take 2 (Str.drop 14 (iso_text y m d hh mi ss ms))) with (fixed 2 mi).
  change (Str.take 2 (Str.drop 17 (iso_text y m d hh mi ss ms))) with (fixed 2 ss).
  change (Str.take 3 (Str.drop 20 (iso_text y m d hh mi ss ms))) with (fixed 3 ms).
  rewrite !field_fixed by (simpl Z.of_nat; lia).
  change (literal 4 "-" (iso_text y m d hh mi ss ms)) with true.
  change (literal 7 "-" (iso_text y m d hh mi ss ms)) with true.
  change (literal 10 "T" (iso_text y m d hh mi ss ms)) with true.
  change (literal 13 ":" (iso_text y m d hh mi ss ms)) with true.
  change (literal 16 ":" (iso_text y m d hh mi ss ms)) with true.
  change (literal 19 "." (iso_text y m d hh mi ss ms)) with true.
  change (literal 23 "Z" (iso_text y m d hh mi ss ms)) with true.
  simpl andb.
  destruct (_ && _) eqn:E; [done|]. exfalso. revert E. apply not_false_iff_true.
  rewrite !andb_true_iff, !Z.leb_le, !Z.ltb_lt. lia.
Qed.

(** Lexicographic comparison, field by field. *)
Lemma compare_cons a s t : String.compare (String a s) (String a t) = String.compare s t.
Proof.
  simpl. assert (Ascii.compare a a = Eq) as -> by (unfold Ascii.compare; apply N.compare_refl). done.
Qed.

Lemma ascii_digit_compare a b :
  0 <= a < 10 -> 0 <= b < 10 -> Ascii.compare (digit a) (digit b) = (a ?= b).
Proof.
  intros Ha Hb.
  assert (all_from 0 10 (fun a => all_from 0 10 (fun b =>
    bool_decide (Ascii.compare (digit a) (digit b) = (a ?= b)))) = true) as H by (vm_compute; reflexivity).
  pose proof (all_from_spec _ _ _ a H ltac:(lia)) as H1. cbv beta in H1.
  pose proof (all_from_spec _ _ _ b H1 ltac:(lia)) as H2. exact (bool_decide_eq_true_1 _ H2).
Qed.

Lemma compare_cons_eq a b s t :
  String.compare (String a s) (String b t) = match Ascii.compare a b with Eq => String.compare s t | c => c end.
Proof. done. Qed.

Lemma compare_digit a b s t :
  0 <= a < 10 -> 0 <= b < 10 ->
  String.compare (String (digit a) s) (String (digit b) t)
    = match a ?= b with Eq => String.compare s t | c => c end.
Proof. intros Ha Hb. by rewrite compare_cons_eq, ascii_digit_compare. Qed.

Lemma digit_mod n : digit n = digit (n mod 10).
Proof. unfold digit. by rewrite Z.mod_mod. Qed.

Lemma compare_radix p a b x y :
  0 <= x < p -> 0 <= y < p ->
  (a * p + x ?= b * p + y) = match a ?= b with Eq => x ?= y | c => c end.
Proof.
  intros Hx Hy. destruct (Z.compare_spec a b) as [->|Hab|Hab].
  - by rewrite Z.add_compare_mono_l.
  - apply Z.compare_lt_iff. nia.
  - apply Z.compare_gt_iff. nia.
Qed.

Lemma compare_fixed w n m s t :
  0 <= n < 10 ^ Z.of_nat w -> 0 <= m < 10 ^ Z.of_nat w ->
  String.compare (fixed w n +:+ s) (fixed w m +:+ t)
    = match n ?= m with Eq => String.compare s t | c => c end.
Proof.
  intros Hn Hm.
  enough (forall n m, 0 <= n -> 0 <= m ->
    String.compare (fixed w n +:+ s) (fixed w m +:+ t)
      = match n mod 10 ^ Z.of_nat w ?= m mod 10 ^ Z.of_nat w with Eq => String.compare s t | c => c end) as H
    by (rewrite H, !Z.mod_small by lia; done).
  clear. induction w as [|w IH]; intros n m Hn Hm.
  - simpl. by rewrite !Z.mod_1_r.
  - cbn [fixed String.append]. rewrite (digit_mod (n / _)), (digit_mod (m / _)), compare_digit, IH
      by (done || (apply Z.mod_pos_bound; lia)).
    rewrite <- (fixed_mod w n Hn), <- (fixed_mod w m Hm).
    set (p := 10 ^ Z.of_nat w). assert (0 < p) as Hp by (apply Z.pow_pos_nonneg; lia).
    pose proof (Z.mod_pos_bound n p Hp). pose proof (Z.mod_pos_bound m p Hp).
    rewrite compare_radix by lia. by destruct (n / p mod 10 ?= m / p mod 10).
Qed.

Lemma compare_sep a s t : String.compare (String a EmptyString +:+ s) (String a EmptyString +:+ t) = String.compare s t.
Proof. apply compare_cons. Qed.

(** The first difference of two lists of fields decides. *)
Fixpoint first_diff (l : list (Z * Z)) : comparison :=
  match l with
  | [] => Eq
  | (a, b) :: l' => match a ?= b with Eq => first_diff l' | c => c end
  end.

Lemma compare_iso y m d hh mi ss ms y' m' d' hh' mi' ss' ms' :
  Forall (fun p => 0 <= p < 100) [m; d; hh; mi; ss; m'; d'; hh'; mi'; ss'] ->
  Forall (fun p => 0 <= p < 10000) [y; y'] -> Forall (fun p => 0 <= p < 1000) [ms; ms'] ->
  String.compare (iso_text y m d hh mi ss ms) (iso_text y' m' d' hh' mi' ss' ms')
    = first_diff [(y, y'); (m, m'); (d, d'); (hh, hh'); (mi, mi'); (ss, ss'); (ms, ms')].
Proof.
  intros H2 H4 H3. repeat rewrite Forall_cons in *. unfold iso_text, first_diff.
  rewrite !compare_fixed by (simpl Z.of_nat; lia). rewrite !compare_sep.
  repeat (rewrite compare_fixed by (simpl Z.of_nat; lia); rewrite ?compare_sep). done.
Qed.

Lemma compare_tod hh mi ss ms hh' mi' ss' ms' :
  0 <= mi < 60 -> 0 <= ss < 60 -> 0 <= ms < 1000 -> 0 <= mi' < 60 -> 0 <= ss' < 60 -> 0 <= ms' < 1000 ->
  first_diff [(hh, hh'); (mi, mi'); (ss, ss'); (ms, ms')]
    = (((hh * 60 + mi) * 60 + ss) * 1000 + ms ?= ((hh' * 60 + mi') * 60 + ss') * 1000 + ms').
Proof.
  intros. rewrite !compare_radix by lia. simpl.
  by destruct (hh ?= hh'), (mi ?= mi'), (ss ?= ss'), (ms ?= ms').
Qed.

Lemma compare_date y m d y' m' d' l :
  0 <= m < 100 -> 0 <= d < 100 -> 0 <= m' < 100 -> 0 <= d' < 100 ->
  first_diff ((y, y') :: (m, m') :: (d, d') :: l)
    = match (y * 100 + m) * 100 + d ?= (y' * 100 + m') * 100 + d' with Eq => first_diff l | c => c end.
Proof.
  intros. rewrite !compare_radix by lia. simpl. by destruct (y ?= y'), (m ?= m'), (d ?= d').
Qed.

Lemma date_key_compare z1 z2 :
  0 <= z1 < max_day -> 0 <= z2 < max_day -> (date_key z1 ?= date_key z2) = (z1 ?= z2).
Proof.
  intros H1 H2. destruct (Z.compare_spec z1 z2) as [->|H|H].
  - apply Z.compare_refl.
  - apply Z.compare_lt_iff, date_key_mono; lia.
  - apply Z.compare_gt_iff, date_key_mono; lia.
Qed.

Lemma compare_formatISO t1 t2 :
  instant t1 -> instant t2 ->
  String.compare (Time.formatISO t1) (Time.formatISO t2) = (ms_of t1 ?= ms_of t2).
Proof.
  intros H1 H2. destruct (instant_fields t1 H1) as (Hd1 & Hh1 & Hmi1 & Hs1 & Hms1 & ->).
  destruct (instant_fields t2 H2) as (Hd2 & Hh2 & Hmi2 & Hs2 & Hms2 & ->).
  rewrite !formatISO_text by done. pose proof (date_key_compare _ _ Hd1 Hd2) as Hk. unfold date_key in Hk.
  destruct (civil_shape _ Hd1) as (y1 & doy1 & Hsh1%shape_back).
  destruct (civil_shape _ Hd2) as (y2 & doy2 & Hsh2%shape_back).
  destruct (Time.civil_from_days (day_no t1)) as [[cy1 cm1] cd1] in *.
  destruct (Time.civil_from_days (day_no t2)) as [[cy2 cm2] cd2] in *.
  rewrite compare_iso by (repeat rewrite Forall_cons; rewrite Forall_nil; lia).
  rewrite compare_date, Hk, compare_tod by lia.
  rewrite <- (compare_radix 86400000) by lia. f_equal; lia.
Qed.

(** Text and instants agree.  For int64 instants since 1970, parsing the text of
    an instant gives it back truncated to the millisecond, and the text of one is
    before the text of another, as SQLite and Go compare strings, exactly when its
    millisecond is. *)
Theorem iso_text_faithful t1 t2 :
  instant t1 -> instant t2 ->
  parseISO (Time.formatISO t1) = Some (ms_of t1 * Time.Millisecond) /\
  Str.ltb (Time.formatISO t1) (Time.formatISO t2) = (ms_of t1 <? ms_of t2).
Proof.
  intros H1 H2. split.
  - destruct (instant_fields t1 H1) as (Hd & Hh & Hmi & Hs & Hms & ->).
    rewrite formatISO_text by done. destruct (civil_shape _ Hd) as (y & doy & Hsh%shape_back).
    destruct (Time.civil_from_days (day_no t1)) as [[cy cm] cd] in *.
    rewrite parse_iso_text by lia. do 2 f_equal. lia.
  - unfold Str.ltb, String.ltb. by rewrite compare_formatISO.
Qed.

Lemma iso_text_faithful_witness :
  let t1 := 1787825472345678901 in let t2 := 1788220800000000000 in
  Time.formatISO t1 = "2026-08-27T10:11:12.345Z" /\
  parseISO (Time.formatISO t1) = Some 1787825472345000000 /\
  Str.ltb (Time.formatISO t1) (Time.formatISO t2) = true.
Proof.
  cbv zeta. split; [vm_compute; reflexivity|].
  apply (iso_text_faithful 1787825472345678901 1788220800000000000); unfold instant; lia.
Defined.
