(* ===== verification/StoreTypes.v ===== *)
(** * The data model of the store (internal/store/types.go, schema.sql)

    Messages, agents, their enumerations and validators, the canonical routing
    key, and the database state the operations of the store transform.  The row
    setters at the end are the [SET col = v] of the SQL statements. *)

From S2P Require Import Prelude GoStd.

Open Scope Z_scope.

(** Lifecycle of a message ([type State string]). *)
Inductive State : Type :=
  | StateQueued
  | StateDelivering
  | StateDelivered
  | StateFailed
  | StateAcknowledged
  | StateDeferred
  | StateRefused.

#[global] Instance State_eq_dec : EqDecision State.
Proof. solve_decision. Defined.

Definition State_string (s : State) : string :=
  match s with
  | StateQueued => "queued"
  | StateDelivering => "delivering"
  | StateDelivered => "delivered"
  | StateFailed => "failed"
  | StateAcknowledged => "acknowledged"
  | StateDeferred => "deferred"
  | StateRefused => "refused"
  end.

(** What a message is ([type Kind string]). *)
Inductive Kind : Type :=
  | KindMessage
  | KindControl
  | KindDeliveryFailureNotice
  | KindStrandedDraft
  | KindPing
  | KindDedupeNotice
  | KindBacklogAnnounce
  | KindStuckChamberNotice
  | KindDeadMailmanNotice.

#[global] Instance Kind_eq_dec : EqDecision Kind.
Proof. solve_decision. Defined.

Definition Kind_string (k : Kind) : string :=
  match k with
  | KindMessage => "message"
  | KindControl => "control"
  | KindDeliveryFailureNotice => "delivery_failure_notice"
  | KindStrandedDraft => "stranded_draft"
  | KindPing => "ping"
  | KindDedupeNotice => "dedupe_notice"
  | KindBacklogAnnounce => "backlog_announce"
  | KindStuckChamberNotice => "stuck_chamber_notice"
  | KindDeadMailmanNotice => "dead_mailman_notice"
  end.

(** A row of [messages]; a NULLable column is an [option]. *)
Record Message : Type := mkMessage {
  m_ID : Z;
  m_PublicID : string;
  m_FromAgent : string;
  m_ToAgent : string;
  m_ReplyTo : option string;
  m_Body : string;
  m_Kind : Kind;
  m_NoReplyExpected : bool;
  m_Quick : bool;
  m_State : State;
  m_CreatedAt : string;
  m_DeliveredAt : option string;
  m_Error : option string;
  m_ReplayOf : option string;
  m_ReplayOfAt : option string;
  m_DeliverAfter : option string;
  m_Verified : option Z;
  m_ExpectsReply : bool;
  m_Priority : Z;
  m_ForceRateLimited : bool
}.

#[global] Instance Message_eq_dec : EqDecision Message.
Proof. solve_decision. Defined.

(** A row of [agents]; [aliases] is the decoded JSON list. *)
Record Agent : Type := mkAgent {
  a_name : string;
  a_pane_id : option string;
  a_paused : bool;
  a_updated_at : string;
  a_aliases : list string;
  a_delivery_mode : string;
  a_backlog_epoch_id : option Z;
  a_attention_state : string;
  a_stuck_reason : string;
  a_display_name : string;
  a_session_id : string;
  a_metabolism : string;
  a_metabolism_set_at : option string;
  a_respawn_after_shrinks : Z;
  a_respawn_shrink_count : Z;
  a_last_self_compact_at : option string;
  a_self_compact_counted_at : option string;
  a_resume_promoted_at : option string;
  a_relaunch_cmd : string;
  a_auto_restart : bool;
  a_provider : string;
  a_provider_cap : Z;
  a_observed_state : string;
  a_observed_state_at : option string
}.

#[global] Instance Agent_eq_dec : EqDecision Agent.
Proof. solve_decision. Defined.

(** The database: the [messages] table in rowid order, the AUTOINCREMENT
    counter, the other tables by primary key, and the doorbell rings the
    notifier hook has received so far. *)
Record DB : Type := mkDB {
  db_messages : list Message;
  db_seq : Z;
  db_agents : gmap string Agent;
  db_budgets : gmap string (Q * string);
  db_presence : gmap string string;
  db_rings : list string
}.

(** Delivery modes, attention states, metabolism states, stuck reasons. *)
Definition DeliveryModePasteAndEnter : string := "paste-and-enter".
Definition DeliveryModeMailboxOnly : string := "mailbox-only".
Definition DeliveryModeHookContext : string := "hook-context".

Definition ValidDeliveryMode (s : string) : bool :=
  bool_decide (s = DeliveryModePasteAndEnter) ||
  bool_decide (s = DeliveryModeMailboxOnly) ||
  bool_decide (s = DeliveryModeHookContext).

Definition AttentionStateIdle : string := "idle".
Definition AttentionStateBusy : string := "busy".
Definition AttentionStateAwaitingOperator : string := "awaiting_operator".

Definition ValidAttentionState (s : string) : bool :=
  bool_decide (s = AttentionStateIdle) ||
  bool_decide (s = AttentionStateBusy) ||
  bool_decide (s = AttentionStateAwaitingOperator).

Definition MetabolismWarming : string := "warming".
Definition MetabolismSaturating : string := "saturating".
Definition MetabolismCompactPending : string := "compact-pending".

Definition ValidMetabolism (s : string) : bool :=
  str_empty s ||
  bool_decide (s = MetabolismWarming) ||
  bool_decide (s = MetabolismSaturating) ||
  bool_decide (s = MetabolismCompactPending).

Definition StuckReasonPaneNotFound : string := "pane-not-found".
Definition StuckReasonSessionStale : string := "session-stale".

(** The routing key of an agent: lowercased and trimmed. *)
Definition CanonicalName (name : string) : string :=
  Str.ToLower (Str.TrimSpace name).

Definition ReservedRoutingName (name : string) : bool :=
  bool_decide (CanonicalName name = "operator").

(** [sql.NullString] to Go: NULL reads as the empty string. *)
Definition null_string (o : option string) : string := default EmptyString o.

(** ** Column setters *)

Definition set_m_State (v : State) (r : Message) : Message :=
    mkMessage (m_ID r) (m_PublicID r) (m_FromAgent r) (m_ToAgent r) (m_ReplyTo r)
    (m_Body r) (m_Kind r) (m_NoReplyExpected r) (m_Quick r) v (m_CreatedAt r)
    (m_DeliveredAt r) (m_Error r) (m_ReplayOf r) (m_ReplayOfAt r) (m_DeliverAfter r)
    (m_Verified r) (m_ExpectsReply r) (m_Priority r) (m_ForceRateLimited r).
Definition set_m_CreatedAt (v : string) (r : Message) : Message :=
    mkMessage (m_ID r) (m_PublicID r) (m_FromAgent r) (m_ToAgent r) (m_ReplyTo r)
    (m_Body r) (m_Kind r) (m_NoReplyExpected r) (m_Quick r) (m_State r) v
    (m_DeliveredAt r) (m_Error r) (m_ReplayOf r) (m_ReplayOfAt r) (m_DeliverAfter r)
    (m_Verified r) (m_ExpectsReply r) (m_Priority r) (m_ForceRateLimited r).
Definition set_m_DeliveredAt (v : option string) (r : Message) : Message :=
    mkMessage (m_ID r) (m_PublicID r) (m_FromAgent r) (m_ToAgent r) (m_ReplyTo r)
    (m_Body r) (m_Kind r) (m_NoReplyExpected r) (m_Quick r) (m_State r) (m_CreatedAt
    r) v (m_Error r) (m_ReplayOf r) (m_ReplayOfAt r) (m_DeliverAfter r) (m_Verified
    r) (m_ExpectsReply r) (m_Priority r) (m_ForceRateLimited r).
Definition set_m_Error (v : option string) (r : Message) : Message :=
    mkMessage (m_ID r) (m_PublicID r) (m_FromAgent r) (m_ToAgent r) (m_ReplyTo r)
    (m_Body r) (m_Kind r) (m_NoReplyExpected r) (m_Quick r) (m_State r) (m_CreatedAt
    r) (m_DeliveredAt r) v (m_ReplayOf r) (m_ReplayOfAt r) (m_DeliverAfter r)
    (m_Verified r) (m_ExpectsReply r) (m_Priority r) (m_ForceRateLimited r).
Definition set_m_Verified (v : option Z) (r : Message) : Message :=
    mkMessage (m_ID r) (m_PublicID r) (m_FromAgent r) (m_ToAgent r) (m_ReplyTo r)
    (m_Body r) (m_Kind r) (m_NoReplyExpected r) (m_Quick r) (m_State r) (m_CreatedAt
    r) (m_DeliveredAt r) (m_Error r) (m_ReplayOf r) (m_ReplayOfAt r) (m_DeliverAfter
    r) v (m_ExpectsReply r) (m_Priority r) (m_ForceRateLimited r).
Definition set_a_pane_id (v : option string) (r : Agent) : Agent :=
    mkAgent (a_name r) v (a_paused r) (a_updated_at r) (a_aliases r)
    (a_delivery_mode r) (a_backlog_epoch_id r) (a_attention_state r) (a_stuck_reason
    r) (a_display_name r) (a_session_id r) (a_metabolism r) (a_metabolism_set_at r)
    (a_respawn_after_shrinks r) (a_respawn_shrink_count r) (a_last_self_compact_at
    r) (a_self_compact_counted_at r) (a_resume_promoted_at r) (a_relaunch_cmd r)
    (a_auto_restart r) (a_provider r) (a_provider_cap r) (a_observed_state r)
    (a_observed_state_at r).
Definition set_a_paused (v : bool) (r : Agent) : Agent :=
    mkAgent (a_name r) (a_pane_id r) v (a_updated_at r) (a_aliases r)
    (a_delivery_mode r) (a_backlog_epoch_id r) (a_attention_state r) (a_stuck_reason
    r) (a_display_name r) (a_session_id r) (a_metabolism r) (a_metabolism_set_at r)
    (a_respawn_after_shrinks r) (a_respawn_shrink_count r) (a_last_self_compact_at
    r) (a_self_compact_counted_at r) (a_resume_promoted_at r) (a_relaunch_cmd r)
    (a_auto_restart r) (a_provider r) (a_provider_cap r) (a_observed_state r)
    (a_observed_state_at r).
Definition set_a_updated_at (v : string) (r : Agent) : Agent :=
    mkAgent (a_name r) (a_pane_id r) (a_paused r) v (a_aliases r) (a_delivery_mode
    r) (a_backlog_epoch_id r) (a_attention_state r) (a_stuck_reason r)
    (a_display_name r) (a_session_id r) (a_metabolism r) (a_metabolism_set_at r)
    (a_respawn_after_shrinks r) (a_respawn_shrink_count r) (a_last_self_compact_at
    r) (a_self_compact_counted_at r) (a_resume_promoted_at r) (a_relaunch_cmd r)
    (a_auto_restart r) (a_provider r) (a_provider_cap r) (a_observed_state r)
    (a_observed_state_at r).
Definition set_a_aliases (v : list string) (r : Agent) : Agent :=
    mkAgent (a_name r) (a_pane_id r) (a_paused r) (a_updated_at r) v
    (a_delivery_mode r) (a_backlog_epoch_id r) (a_attention_state r) (a_stuck_reason
    r) (a_display_name r) (a_session_id r) (a_metabolism r) (a_metabolism_set_at r)
    (a_respawn_after_shrinks r) (a_respawn_shrink_count r) (a_last_self_compact_at
    r) (a_self_compact_counted_at r) (a_resume_promoted_at r) (a_relaunch_cmd r)
    (a_auto_restart r) (a_provider r) (a_provider_cap r) (a_observed_state r)
    (a_observed_state_at r).
Definition set_a_delivery_mode (v : string) (r : Agent) : Agent :=
    mkAgent (a_name r) (a_pane_id r) (a_paused r) (a_updated_at r) (a_aliases r) v
    (a_backlog_epoch_id r) (a_attention_state r) (a_stuck_reason r) (a_display_name
    r) (a_session_id r) (a_metabolism r) (a_metabolism_set_at r)
    (a_respawn_after_shrinks r) (a_respawn_shrink_count r) (a_last_self_compact_at
    r) (a_self_compact_counted_at r) (a_resume_promoted_at r) (a_relaunch_cmd r)
    (a_auto_restart r) (a_provider r) (a_provider_cap r) (a_observed_state r)
    (a_observed_state_at r).
Definition set_a_backlog_epoch_id (v : option Z) (r : Agent) : Agent :=
    mkAgent (a_name r) (a_pane_id r) (a_paused r) (a_updated_at r) (a_aliases r)
    (a_delivery_mode r) v (a_attention_state r) (a_stuck_reason r) (a_display_name
    r) (a_session_id r) (a_metabolism r) (a_metabolism_set_at r)
    (a_respawn_after_shrinks r) (a_respawn_shrink_count r) (a_last_self_compact_at
    r) (a_self_compact_counted_at r) (a_resume_promoted_at r) (a_relaunch_cmd r)
    (a_auto_restart r) (a_provider r) (a_provider_cap r) (a_observed_state r)
    (a_observed_state_at r).
Definition set_a_attention_state (v : string) (r : Agent) : Agent :=
    mkAgent (a_name r) (a_pane_id r) (a_paused r) (a_updated_at r) (a_aliases r)
    (a_delivery_mode r) (a_backlog_epoch_id r) v (a_stuck_reason r) (a_display_name
    r) (a_session_id r) (a_metabolism r) (a_metabolism_set_at r)
    (a_respawn_after_shrinks r) (a_respawn_shrink_count r) (a_last_self_compact_at
    r) (a_self_compact_counted_at r) (a_resume_promoted_at r) (a_relaunch_cmd r)
    (a_auto_restart r) (a_provider r) (a_provider_cap r) (a_observed_state r)
    (a_observed_state_at r).
Definition set_a_stuck_reason (v : string) (r : Agent) : Agent :=
    mkAgent (a_name r) (a_pane_id r) (a_paused r) (a_updated_at r) (a_aliases r)
    (a_delivery_mode r) (a_backlog_epoch_id r) (a_attention_state r) v
    (a_display_name r) (a_session_id r) (a_metabolism r) (a_metabolism_set_at r)
    (a_respawn_after_shrinks r) (a_respawn_shrink_count r) (a_last_self_compact_at
    r) (a_self_compact_counted_at r) (a_resume_promoted_at r) (a_relaunch_cmd r)
    (a_auto_restart r) (a_provider r) (a_provider_cap r) (a_observed_state r)
    (a_observed_state_at r).
Definition set_a_display_name (v : string) (r : Agent) : Agent :=
    mkAgent (a_name r) (a_pane_id r) (a_paused r) (a_updated_at r) (a_aliases r)
    (a_delivery_mode r) (a_backlog_epoch_id r) (a_attention_state r) (a_stuck_reason
    r) v (a_session_id r) (a_metabolism r) (a_metabolism_set_at r)
    (a_respawn_after_shrinks r) (a_respawn_shrink_count r) (a_last_self_compact_at
    r) (a_self_compact_counted_at r) (a_resume_promoted_at r) (a_relaunch_cmd r)
    (a_auto_restart r) (a_provider r) (a_provider_cap r) (a_observed_state r)
    (a_observed_state_at r).
Definition set_a_session_id (v : string) (r : Agent) : Agent :=
    mkAgent (a_name r) (a_pane_id r) (a_paused r) (a_updated_at r) (a_aliases r)
    (a_delivery_mode r) (a_backlog_epoch_id r) (a_attention_state r) (a_stuck_reason
    r) (a_display_name r) v (a_metabolism r) (a_metabolism_set_at r)
    (a_respawn_after_shrinks r) (a_respawn_shrink_count r) (a_last_self_compact_at
    r) (a_self_compact_counted_at r) (a_resume_promoted_at r) (a_relaunch_cmd r)
    (a_auto_restart r) (a_provider r) (a_provider_cap r) (a_observed_state r)
    (a_observed_state_at r).
Definition set_a_metabolism (v : string) (r : Agent) : Agent :=
    mkAgent (a_name r) (a_pane_id r) (a_paused r) (a_updated_at r) (a_aliases r)
    (a_delivery_mode r) (a_backlog_epoch_id r) (a_attention_state r) (a_stuck_reason
    r) (a_display_name r) (a_session_id r) v (a_metabolism_set_at r)
    (a_respawn_after_shrinks r) (a_respawn_shrink_count r) (a_last_self_compact_at
    r) (a_self_compact_counted_at r) (a_resume_promoted_at r) (a_relaunch_cmd r)
    (a_auto_restart r) (a_provider r) (a_provider_cap r) (a_observed_state r)
    (a_observed_state_at r).
Definition set_a_metabolism_set_at (v : option string) (r : Agent) : Agent :=
    mkAgent (a_name r) (a_pane_id r) (a_paused r) (a_updated_at r) (a_aliases r)
    (a_delivery_mode r) (a_backlog_epoch_id r) (a_attention_state r) (a_stuck_reason
    r) (a_display_name r) (a_session_id r) (a_metabolism r) v
    (a_respawn_after_shrinks r) (a_respawn_shrink_count r) (a_last_self_compact_at
    r) (a_self_compact_counted_at r) (a_resume_promoted_at r) (a_relaunch_cmd r)
    (a_auto_restart r) (a_provider r) (a_provider_cap r) (a_observed_state r)
    (a_observed_state_at r).
Definition set_a_respawn_after_shrinks (v : Z) (r : Agent) : Agent :=
    mkAgent (a_name r) (a_pane_id r) (a_paused r) (a_updated_at r) (a_aliases r)
    (a_delivery_mode r) (a_backlog_epoch_id r) (a_attention_state r) (a_stuck_reason
    r) (a_display_name r) (a_session_id r) (a_metabolism r) (a_metabolism_set_at r)
    v (a_respawn_shrink_count r) (a_last_self_compact_at r)
    (a_self_compact_counted_at r) (a_resume_promoted_at r) (a_relaunch_cmd r)
    (a_auto_restart r) (a_provider r) (a_provider_cap r) (a_observed_state r)
    (a_observed_state_at r).
Definition set_a_respawn_shrink_count (v : Z) (r : Agent) : Agent :=
    mkAgent (a_name r) (a_pane_id r) (a_paused r) (a_updated_at r) (a_aliases r)
    (a_delivery_mode r) (a_backlog_epoch_id r) (a_attention_state r) (a_stuck_reason
    r) (a_display_name r) (a_session_id r) (a_metabolism r) (a_metabolism_set_at r)
    (a_respawn_after_shrinks r) v (a_last_self_compact_at r)
    (a_self_compact_counted_at r) (a_resume_promoted_at r) (a_relaunch_cmd r)
    (a_auto_restart r) (a_provider r) (a_provider_cap r) (a_observed_state r)
    (a_observed_state_at r).
Definition set_a_last_self_compact_at (v : option string) (r : Agent) : Agent :=
    mkAgent (a_name r) (a_pane_id r) (a_paused r) (a_updated_at r) (a_aliases r)
    (a_delivery_mode r) (a_backlog_epoch_id r) (a_attention_state r) (a_stuck_reason
    r) (a_display_name r) (a_session_id r) (a_metabolism r) (a_metabolism_set_at r)
    (a_respawn_after_shrinks r) (a_respawn_shrink_count r) v
    (a_self_compact_counted_at r) (a_resume_promoted_at r) (a_relaunch_cmd r)
    (a_auto_restart r) (a_provider r) (a_provider_cap r) (a_observed_state r)
    (a_observed_state_at r).
Definition set_a_self_compact_counted_at (v : option string) (r : Agent) : Agent :=
    mkAgent (a_name r) (a_pane_id r) (a_paused r) (a_updated_at r) (a_aliases r)
    (a_delivery_mode r) (a_backlog_epoch_id r) (a_attention_state r) (a_stuck_reason
    r) (a_display_name r) (a_session_id r) (a_metabolism r) (a_metabolism_set_at r)
    (a_respawn_after_shrinks r) (a_respawn_shrink_count r) (a_last_self_compact_at
    r) v (a_resume_promoted_at r) (a_relaunch_cmd r) (a_auto_restart r) (a_provider
    r) (a_provider_cap r) (a_observed_state r) (a_observed_state_at r).
Definition set_a_resume_promoted_at (v : option string) (r : Agent) : Agent :=
    mkAgent (a_name r) (a_pane_id r) (a_paused r) (a_updated_at r) (a_aliases r)
    (a_delivery_mode r) (a_backlog_epoch_id r) (a_attention_state r) (a_stuck_reason
    r) (a_display_name r) (a_session_id r) (a_metabolism r) (a_metabolism_set_at r)
    (a_respawn_after_shrinks r) (a_respawn_shrink_count r) (a_last_self_compact_at
    r) (a_self_compact_counted_at r) v (a_relaunch_cmd r) (a_auto_restart r)
    (a_provider r) (a_provider_cap r) (a_observed_state r) (a_observed_state_at r).
Definition set_a_relaunch_cmd (v : string) (r : Agent) : Agent :=
    mkAgent (a_name r) (a_pane_id r) (a_paused r) (a_updated_at r) (a_aliases r)
    (a_delivery_mode r) (a_backlog_epoch_id r) (a_attention_state r) (a_stuck_reason
    r) (a_display_name r) (a_session_id r) (a_metabolism r) (a_metabolism_set_at r)
    (a_respawn_after_shrinks r) (a_respawn_shrink_count r) (a_last_self_compact_at
    r) (a_self_compact_counted_at r) (a_resume_promoted_at r) v (a_auto_restart r)
    (a_provider r) (a_provider_cap r) (a_observed_state r) (a_observed_state_at r).
Definition set_a_auto_restart (v : bool) (r : Agent) : Agent :=
    mkAgent (a_name r) (a_pane_id r) (a_paused r) (a_updated_at r) (a_aliases r)
    (a_delivery_mode r) (a_backlog_epoch_id r) (a_attention_state r) (a_stuck_reason
    r) (a_display_name r) (a_session_id r) (a_metabolism r) (a_metabolism_set_at r)
    (a_respawn_after_shrinks r) (a_respawn_shrink_count r) (a_last_self_compact_at
    r) (a_self_compact_counted_at r) (a_resume_promoted_at r) (a_relaunch_cmd r) v
    (a_provider r) (a_provider_cap r) (a_observed_state r) (a_observed_state_at r).
Definition set_a_provider (v : string) (r : Agent) : Agent :=
    mkAgent (a_name r) (a_pane_id r) (a_paused r) (a_updated_at r) (a_aliases r)
    (a_delivery_mode r) (a_backlog_epoch_id r) (a_attention_state r) (a_stuck_reason
    r) (a_display_name r) (a_session_id r) (a_metabolism r) (a_metabolism_set_at r)
    (a_respawn_after_shrinks r) (a_respawn_shrink_count r) (a_last_self_compact_at
    r) (a_self_compact_counted_at r) (a_resume_promoted_at r) (a_relaunch_cmd r)
    (a_auto_restart r) v (a_provider_cap r) (a_observed_state r)
    (a_observed_state_at r).
Definition set_a_provider_cap (v : Z) (r : Agent) : Agent :=
    mkAgent (a_name r) (a_pane_id r) (a_paused r) (a_updated_at r) (a_aliases r)
    (a_delivery_mode r) (a_backlog_epoch_id r) (a_attention_state r) (a_stuck_reason
    r) (a_display_name r) (a_session_id r) (a_metabolism r) (a_metabolism_set_at r)
    (a_respawn_after_shrinks r) (a_respawn_shrink_count r) (a_last_self_compact_at
    r) (a_self_compact_counted_at r) (a_resume_promoted_at r) (a_relaunch_cmd r)
    (a_auto_restart r) (a_provider r) v (a_observed_state r) (a_observed_state_at
    r).
Definition set_a_observed_state (v : string) (r : Agent) : Agent :=
    mkAgent (a_name r) (a_pane_id r) (a_paused r) (a_updated_at r) (a_aliases r)
    (a_delivery_mode r) (a_backlog_epoch_id r) (a_attention_state r) (a_stuck_reason
    r) (a_display_name r) (a_session_id r) (a_metabolism r) (a_metabolism_set_at r)
    (a_respawn_after_shrinks r) (a_respawn_shrink_count r) (a_last_self_compact_at
    r) (a_self_compact_counted_at r) (a_resume_promoted_at r) (a_relaunch_cmd r)
    (a_auto_restart r) (a_provider r) (a_provider_cap r) v (a_observed_state_at r).
Definition set_a_observed_state_at (v : option string) (r : Agent) : Agent :=
    mkAgent (a_name r) (a_pane_id r) (a_paused r) (a_updated_at r) (a_aliases r)
    (a_delivery_mode r) (a_backlog_epoch_id r) (a_attention_state r) (a_stuck_reason
    r) (a_display_name r) (a_session_id r) (a_metabolism r) (a_metabolism_set_at r)
    (a_respawn_after_shrinks r) (a_respawn_shrink_count r) (a_last_self_compact_at
    r) (a_self_compact_counted_at r) (a_resume_promoted_at r) (a_relaunch_cmd r)
    (a_auto_restart r) (a_provider r) (a_provider_cap r) (a_observed_state r) v.

(** [PaneID]: empty when the column is NULL. *)
Definition PaneID (a : Agent) : string := null_string (a_pane_id a).

(** The column defaults of a fresh [agents] row (schema.sql and the ALTER list). *)
Definition new_agent (name : string) (pane : option string) (now : string) : Agent :=
  mkAgent name pane false now [] DeliveryModePasteAndEnter None
    AttentionStateIdle EmptyString EmptyString EmptyString EmptyString None 0 0
    None None None EmptyString false EmptyString 0 EmptyString None.

Definition set_messages (v : list Message) (d : DB) : DB :=
  mkDB v (db_seq d) (db_agents d) (db_budgets d) (db_presence d) (db_rings d).
Definition set_agents (v : gmap string Agent) (d : DB) : DB :=
  mkDB (db_messages d) (db_seq d) v (db_budgets d) (db_presence d) (db_rings d).
Definition set_budgets (v : gmap string (Q * string)) (d : DB) : DB :=
  mkDB (db_messages d) (db_seq d) (db_agents d) v (db_presence d) (db_rings d).
Definition set_presence (v : gmap string string) (d : DB) : DB :=
  mkDB (db_messages d) (db_seq d) (db_agents d) (db_budgets d) v (db_rings d).

(** An empty database. *)
Definition empty_db : DB := mkDB [] 0 ∅ ∅ ∅ [].

(** ** The canonical routing key *)

Lemma CanonicalName_idem_aux s : CanonicalName (CanonicalName s) = CanonicalName s.
Proof.
  unfold CanonicalName. rewrite StrFacts.TrimSpace_lower, StrFacts.TrimSpace_idem.
  apply StrFacts.ToLower_idem.
Qed.

Create Rewrite HintDb canon.
#[export] Hint Rewrite CanonicalName_idem_aux : canon.
