(* ===== verification/Priority.v ===== *)
(** * Priorities and the cross-channel scheduler (internal/store/priority.go)

    [selectScheduled] picks the message the mailman claims next: first in first
    out inside a sender's channel, weighted across channels.  The section
    [Spec] states what a pick must satisfy, independently of the sort-and-scan
    loop, and the loop is shown to refine it. *)

From stdpp Require Import sorting.
From S2P Require Import Prelude GoStd StoreTypes.

Open Scope Z_scope.

Definition PriorityLow : Z := 10.
Definition PriorityNormal : Z := 20.
Definition PriorityHigh : Z := 30.

Definition priorityByName (s : string) : option Z :=
  if bool_decide (s = "low") then Some PriorityLow
  else if bool_decide (s = "normal") then Some PriorityNormal
  else if bool_decide (s = "high") then Some PriorityHigh
  else None.

Definition nameByPriority (w : Z) : option string :=
  if w =? PriorityLow then Some "low"
  else if w =? PriorityNormal then Some "normal"
  else if w =? PriorityHigh then Some "high"
  else None.

Definition ParsePriority (name : string) : result Z :=
  if str_empty (Str.TrimSpace name) then Ok PriorityNormal
  else match priorityByName (Str.ToLower (Str.TrimSpace name)) with
       | Some w => Ok w
       | None => Err (ErrMsg ("store: unknown priority " +:+ name))
       end.

Definition PriorityName (weight : Z) : string :=
  match nameByPriority weight with
  | Some n => n
  | None => Str.itoa weight
  end.

Inductive SchedulerStrategy : Type :=
  | StrategyMaxPriority
  | StrategyAged.

#[global] Instance SchedulerStrategy_eq_dec : EqDecision SchedulerStrategy.
Proof. solve_decision. Defined.

Definition ParseStrategy (name : string) : result SchedulerStrategy :=
  let n := Str.ToLower (Str.TrimSpace name) in
  if str_empty n || bool_decide (n = "max") || bool_decide (n = "max-priority")
  then Ok StrategyMaxPriority
  else if bool_decide (n = "aged") || bool_decide (n = "aged-priority")
  then Ok StrategyAged
  else Err (ErrMsg ("store: unknown priority strategy " +:+ name)).

(** A queued message as the scheduler sees it. *)
Record claimCandidate : Type := mkCand {
  c_ID : Z;
  c_FromAgent : string;
  c_Priority : Z
}.

(** The order of [sort.SliceStable]: by sender, then by id. *)
Definition cand_le (a b : claimCandidate) : Prop :=
  (c_FromAgent a <> c_FromAgent b /\ String.le (c_FromAgent a) (c_FromAgent b))
  \/ (c_FromAgent a = c_FromAgent b /\ c_ID a <= c_ID b).

#[global] Instance cand_le_dec : RelDecision cand_le.
Proof. intros a b. unfold cand_le. apply _. Defined.

(** The candidates of the channel at the front, and the rest. *)
Fixpoint span_from (f : string) (cs : list claimCandidate)
  : list claimCandidate * list claimCandidate :=
  match cs with
  | c :: cs' =>
      if bool_decide (c_FromAgent c = f)
      then let (ch, rest) := span_from f cs' in (c :: ch, rest)
      else ([], cs)
  | [] => ([], [])
  end.

(** The inner loop: the weight of a channel, [pos] counting from its head. *)
Fixpoint channel_weight (strategy : SchedulerStrategy) (pos weight : Z)
    (ch : list claimCandidate) : Z :=
  match ch with
  | [] => weight
  | c :: ch' =>
      let w := match strategy with
               | StrategyAged => c_Priority c * (1 + pos)
               | StrategyMaxPriority => c_Priority c
               end in
      channel_weight strategy (pos + 1) (if weight <? w then w else weight) ch'
  end.

(** The outer loop over channels; [best] is [(bestWeight, bestHead)] once found. *)
Fixpoint scan_channels (fuel : nat) (strategy : SchedulerStrategy)
    (cs : list claimCandidate) (best : option (Z * Z)) : option (Z * Z) :=
  match fuel, cs with
  | S fuel', c :: _ =>
      let (ch, rest) := span_from (c_FromAgent c) cs in
      let head := c_ID c in
      let weight := channel_weight strategy 0 0 ch in
      let best' := match best with
                   | None => Some (weight, head)
                   | Some (bw, bh) =>
                       if (bw <? weight) || ((weight =? bw) && (head <? bh))
                       then Some (weight, head) else best
                   end in
      scan_channels fuel' strategy rest best'
  | _, _ => best
  end.

Definition selectScheduled (candidates : list claimCandidate)
    (strategy : SchedulerStrategy) : option Z :=
  let cs := merge_sort cand_le candidates in
  snd <$> scan_channels (length cs) strategy cs None.

(** ** What a pick must satisfy *)

Section Spec.
Variable strategy : SchedulerStrategy.
Variable cands : list claimCandidate.

(** The channel of a sender, oldest first. *)
Definition channel (f : string) : list claimCandidate :=
  sql_where (fun c => bool_decide (c_FromAgent c = f)) (merge_sort cand_le cands).

(** What the message at position [i] of a channel contributes to its weight:
    its priority, aged by its depth under [StrategyAged]. *)
Definition contribution (i : nat) (c : claimCandidate) : Z :=
  match strategy with
  | StrategyMaxPriority => c_Priority c
  | StrategyAged => c_Priority c * (1 + Z.of_nat i)
  end.

(** The weight of a channel: its largest contribution (at least 0). *)
Definition weight_of (f : string) : Z :=
  foldr Z.max 0 (imap contribution (channel f)).

(** [c] is the oldest candidate of its channel. *)
Definition is_head (c : claimCandidate) : Prop :=
  c ∈ cands /\
  forall c', c' ∈ cands -> c_FromAgent c' = c_FromAgent c -> c_ID c <= c_ID c'.

(** The head [c] wins: no channel is heavier, and among the heaviest channels
    no candidate is older. *)
Definition wins (c : claimCandidate) : Prop :=
  is_head c /\
  forall c', c' ∈ cands ->
    weight_of (c_FromAgent c') < weight_of (c_FromAgent c) \/
    (weight_of (c_FromAgent c') = weight_of (c_FromAgent c) /\ c_ID c <= c_ID c').
End Spec.

(** ** The sorted candidate list *)

#[global] Instance cand_le_total : Total cand_le.
Proof.
  intros a b. unfold cand_le.
  destruct (decide (c_FromAgent a = c_FromAgent b)) as [E|E].
  - destruct (Z.le_ge_cases (c_ID a) (c_ID b)); [left|right]; right; split; auto; lia.
  - destruct (total String.le (c_FromAgent a) (c_FromAgent b)) as [H|H];
      [left|right]; left; auto.
Qed.

#[global] Instance cand_le_trans : Transitive cand_le.
Proof.
  intros a b c. unfold cand_le.
  intros [[Hab Lab]|[Hab Lab]] [[Hbc Lbc]|[Hbc Lbc]].
  - left. split; [|by etrans]. intros E. rewrite E in *.
    apply Hbc. by apply (anti_symm String.le).
  - left. by rewrite <- Hbc.
  - left. by rewrite Hab.
  - right. split; [congruence|lia].
Qed.

Definition from_is (f : string) (c : claimCandidate) : bool :=
  bool_decide (c_FromAgent c = f).

Lemma span_from_sorted f cs :
  StronglySorted cand_le cs ->
  (forall c, c ∈ cs -> c_FromAgent c <> f -> String.le f (c_FromAgent c)) ->
  span_from f cs = (sql_where (from_is f) cs, sql_where (fun c => negb (from_is f c)) cs).
Proof.
  induction 1 as [|c cs Hs IH Hall]; intros Hle; [done|]. simpl.
  change (bool_decide (c_FromAgent c = f)) with (from_is f c).
  destruct (from_is f c) eqn:E; simpl; apply bool_decide_eq_true in E ||
    apply bool_decide_eq_false in E.
  - rewrite IH; [done|]. intros c' Hc'. apply Hle. set_solver.
  - assert (Hne : forall c', c' ∈ cs -> from_is f c' = false).
    { intros c' Hc'. apply bool_decide_eq_false. intros <-.
      rewrite Forall_forall in Hall. specialize (Hall _ Hc') as [[Hn Hl]|[He _]]; [|done].
      specialize (Hle c ltac:(set_solver) E). apply E. by apply (anti_symm String.le). }
    rewrite (sql_where_none (from_is f) cs) by done.
    rewrite sql_where_all; [done|]. intros c' Hc'. by rewrite Hne.
Qed.

Lemma span_from_length f cs :
  (length (fst (span_from f cs)) + length (snd (span_from f cs)) = length cs)%nat.
Proof.
  induction cs as [|c cs IH]; [done|]. simpl. case_bool_decide; [|done].
  destruct (span_from f cs). simpl in *. lia.
Qed.

(** The accumulating loop computes the declarative weight. *)
Lemma channel_weight_spec strategy ch (pos : nat) w :
  0 <= w ->
  channel_weight strategy (Z.of_nat pos) w ch
  = Z.max w (foldr Z.max 0 (imap (fun i => contribution strategy (pos + i)) ch)).
Proof.
  revert pos w. induction ch as [|c ch IH]; intros pos w Hw; simpl; [lia|].
  replace (Z.of_nat pos + 1) with (Z.of_nat (S pos)) by lia.
  set (v := match strategy with StrategyMaxPriority => _ | StrategyAged => _ end).
  assert (Hv : v = contribution strategy (pos + 0) c).
  { unfold v, contribution. destruct strategy; [done|]. f_equal. lia. }
  rewrite IH by (destruct (w <? v) eqn:E; bsimp; lia). rewrite <- Hv.
  replace (imap (fun i => contribution strategy (S pos + i)) ch)
    with (imap ((fun i => contribution strategy (pos + i)) ∘ S) ch).
  - destruct (w <? v) eqn:E; bsimp; lia.
  - apply imap_ext. intros i x _. simpl. f_equal. lia.
Qed.

Lemma channel_weight_weight_of strategy cands f :
  channel_weight strategy 0 0 (channel cands f) = weight_of strategy cands f.
Proof.
  unfold weight_of. rewrite (channel_weight_spec strategy _ 0) by lia. simpl.
  assert (H : forall l, 0 <= foldr Z.max 0 l) by (induction l; simpl; lia).
  rewrite Z.max_r by apply H. done.
Qed.

Lemma StronglySorted_where (p : claimCandidate -> bool) cs :
  StronglySorted cand_le cs -> StronglySorted cand_le (sql_where p cs).
Proof.
  induction 1 as [|c cs Hs IH Hall]; simpl; [constructor|].
  destruct (p c); [|done]. constructor; [done|].
  apply Forall_forall. intros c' [Hin _]%sql_where_elem. rewrite Forall_forall in Hall.
  by apply Hall.
Qed.

(** ** The loop invariant *)

Section Loop.
Variable strategy : SchedulerStrategy.
Variable cands : list claimCandidate.
Notation all := (merge_sort cand_le cands).

Lemma all_sorted : StronglySorted cand_le all.
Proof. apply StronglySorted_merge_sort; apply _. Qed.

Lemma all_elem c : c ∈ all <-> c ∈ cands.
Proof. by rewrite (merge_sort_Permutation cand_le cands). Qed.

(** The channels scanned so far are the senders in [D]. *)
Definition best_of (D : string -> bool) (best : option (Z * Z)) : Prop :=
  match best with
  | None => forall c, c ∈ cands -> D (c_FromAgent c) = false
  | Some (w, h) =>
      exists c, is_head cands c /\ h = c_ID c /\
        w = weight_of strategy cands (c_FromAgent c) /\
        forall c', c' ∈ cands -> D (c_FromAgent c') = true ->
          weight_of strategy cands (c_FromAgent c') < w \/
          (weight_of strategy cands (c_FromAgent c') = w /\ h <= c_ID c')
  end.

Definition unscanned (D : string -> bool) : list claimCandidate :=
  sql_where (fun c => negb (D (c_FromAgent c))) all.

Lemma unscanned_head D c cs : unscanned D = c :: cs -> is_head cands c.
Proof.
  intros E. assert (Hin : c ∈ unscanned D) by (rewrite E; set_solver).
  apply sql_where_elem in Hin as [Hin Hpc]. split; [by apply all_elem|].
  intros c' Hc' Hf.
  assert (Hin' : c' ∈ c :: cs).
  { rewrite <- E. apply sql_where_elem. split; [by apply all_elem|]. by rewrite Hf. }
  apply elem_of_cons in Hin' as [->|Hin']; [lia|].
  pose proof (StronglySorted_where (fun c => negb (D (c_FromAgent c))) _ all_sorted) as Hs.
  unfold unscanned in E. rewrite E in Hs.
  inversion Hs as [|? ? _ Hall]; subst. rewrite Forall_forall in Hall.
  destruct (Hall _ Hin') as [[Hn _]|[_ ?]]; congruence || lia.
Qed.

(** Cutting the front channel off the unscanned ones. *)
Lemma span_unscanned D c cs :
  unscanned D = c :: cs ->
  span_from (c_FromAgent c) (unscanned D) =
    (channel cands (c_FromAgent c),
     unscanned (fun f => D f || bool_decide (f = c_FromAgent c))).
Proof.
  intros E. assert (HD : D (c_FromAgent c) = false).
  { assert (Hin : c ∈ unscanned D) by (rewrite E; set_solver).
    apply sql_where_elem in Hin as [_ H]. by apply negb_true_iff in H. }
  pose proof (StronglySorted_where (fun c => negb (D (c_FromAgent c))) _ all_sorted) as Hs.
  rewrite span_from_sorted; [|exact Hs|].
  - unfold unscanned, channel. rewrite !sql_where_where. f_equal.
    + apply sql_where_ext. intros r _. unfold from_is.
      case_bool_decide as Hr; [|by rewrite andb_false_r]. by rewrite Hr, HD.
    + apply sql_where_ext. intros r _. unfold from_is. by rewrite negb_orb.
  - intros c' Hin Hne. unfold unscanned in E. rewrite E in Hs.
    unfold unscanned in Hin. rewrite E in Hin. inversion Hs as [|? ? _ Hall]; subst.
    apply elem_of_cons in Hin as [->|Hin]; [done|]. rewrite Forall_forall in Hall.
    destruct (Hall _ Hin) as [[_ ?]|[? _]]; congruence.
Qed.

Lemma best_of_done D best :
  unscanned D = [] -> best_of D best -> best_of (fun _ => true) best.
Proof.
  intros Hnil. assert (Hall : forall c, c ∈ cands -> D (c_FromAgent c) = true).
  { intros c Hc. apply negb_false_iff.
    by apply (sql_where_nil _ _ Hnil c), all_elem. }
  destruct best as [[w h]|]; simpl.
  - intros (c & ? & ? & ? & Hmax). refine (ex_intro _ c (conj _ (conj _ (conj _ _)))); auto.
  - intros H c Hc. by rewrite <- (H c Hc), Hall.
Qed.

Lemma best_of_step D best c :
  is_head cands c -> best_of D best ->
  let w := weight_of strategy cands (c_FromAgent c) in
  best_of (fun f => D f || bool_decide (f = c_FromAgent c))
    (match best with
     | None => Some (w, c_ID c)
     | Some (bw, bh) => if (bw <? w) || ((w =? bw) && (c_ID c <? bh))
                        then Some (w, c_ID c) else best
     end).
Proof.
  intros Hhd Hb w. pose proof Hhd as [Hin Hh].
  assert (Hown : forall c', c' ∈ cands -> c_FromAgent c' = c_FromAgent c ->
            weight_of strategy cands (c_FromAgent c') = w /\ c_ID c <= c_ID c').
  { intros c' Hc' E. split; [by rewrite E|by apply Hh]. }
  destruct best as [[bw bh]|]; simpl in Hb |- *.
  - destruct Hb as (b & Hbh & -> & -> & Hmax).
    destruct ((_ <? _) || _) eqn:E.
    + refine (ex_intro _ c (conj _ (conj _ (conj _ _)))); auto. intros c' Hc' HD.
      apply orb_true_iff in HD as [HD|HD]; [|bsimp; right; by apply Hown].
      specialize (Hmax c' Hc' HD). apply orb_true_iff in E as [E|E]; bsimp; lia.
    + refine (ex_intro _ b (conj _ (conj _ (conj _ _)))); auto. intros c' Hc' HD. bsimp.
      apply orb_true_iff in HD as [HD|HD]; [by apply Hmax|]. bsimp.
      destruct (Hown c' Hc' HD) as [-> ?].
      apply andb_false_iff in H0 as [H0|H0]; bsimp; lia.
  - refine (ex_intro _ c (conj _ (conj _ (conj _ _)))); auto. intros c' Hc' HD.
    rewrite (Hb c' Hc') in HD. simpl in HD. bsimp. right. by apply Hown.
Qed.

Lemma scan_channels_inv fuel D best :
  (length (unscanned D) <= fuel)%nat -> best_of D best ->
  best_of (fun _ => true) (scan_channels fuel strategy (unscanned D) best).
Proof.
  revert D best. induction fuel as [|fuel IH]; intros D best Hlen Hb;
    destruct (unscanned D) as [|c cs] eqn:E; simpl in Hlen; try lia.
  - by apply (best_of_done D).
  - by apply (best_of_done D).
  - cbn [scan_channels]. rewrite <- E, (span_unscanned _ _ _ E), channel_weight_weight_of. apply IH.
    + assert (Hlt : (length (unscanned (fun f => D f || bool_decide (f = c_FromAgent c)))
                     < length (unscanned D))%nat); [|rewrite E in Hlt; simpl in Hlt; lia].
      pose proof (span_from_length (c_FromAgent c) (unscanned D)) as Hl.
      rewrite (span_unscanned _ _ _ E) in Hl. simpl in Hl.
      assert (c ∈ channel cands (c_FromAgent c)).
      { apply sql_where_elem. rewrite bool_decide_true by done. split; [|done].
        apply all_elem. by apply (unscanned_head D c cs). }
      destruct (channel cands (c_FromAgent c)); [set_solver|]. simpl in Hl. lia.
    + apply best_of_step; [by eapply unscanned_head|done].
Qed.

Lemma selectScheduled_best :
  best_of (fun _ => true) (scan_channels (length all) strategy all None).
Proof.
  assert (E : unscanned (fun _ => false) = all) by (by apply sql_where_all).
  rewrite <- E at 2. apply scan_channels_inv; [by rewrite E|]. by intros c.
Qed.
End Loop.

Lemma selectScheduled_cases strategy cands :
  match selectScheduled cands strategy with
  | None => cands = []
  | Some id => exists c, wins strategy cands c /\ id = c_ID c
  end.
Proof.
  unfold selectScheduled.
  pose proof (selectScheduled_best strategy cands) as H. cbv zeta.
  destruct (scan_channels _ _ _ _) as [[w h]|]; simpl in *.
  - destruct H as (c & Hh & -> & -> & Hmax). exists c. split; [|done].
    split; [done|]. intros c' Hc'. by apply Hmax.
  - destruct cands as [|c cs]; [done|]. exfalso.
    assert (true = false) by (apply (H c); set_solver). done.
Qed.

(** Under one shared priority every channel weighs the same. *)
Lemma foldr_max_const l p :
  l <> [] -> 0 <= p -> (forall v, v ∈ l -> v = p) -> foldr Z.max 0 l = p.
Proof.
  intros Hne Hp. induction l as [|v l IH]; [done|]. intros Hall. simpl.
  rewrite (Hall v) by set_solver. destruct l as [|v' l].
  - simpl. lia.
  - rewrite IH; [lia|done|]. intros; apply Hall; set_solver.
Qed.

(** ** Properties *)

(** C7: the scheduler refines its specification for every strategy: it picks
    nothing only from an empty queue; otherwise the pick is the oldest message
    of its sender, its channel has maximal weight, and among the heaviest
    channels nothing is older. *)
Theorem selectScheduled_refines strategy cands :
  (selectScheduled cands strategy = None <-> cands = []) /\
  (forall id, selectScheduled cands strategy = Some id ->
     exists c, wins strategy cands c /\ c_ID c = id).
Proof.
  pose proof (selectScheduled_cases strategy cands) as H. split.
  - split; [by destruct (selectScheduled cands strategy)|]. by intros ->.
  - intros id E. rewrite E in H. destruct H as (c & ? & ->). eauto.
Qed.

(** Under one shared non-negative priority the default strategy is plain first
    in first out over the whole queue: the pick is the smallest id. *)
Theorem selectScheduled_fifo cands p id :
  0 <= p -> (forall c, c ∈ cands -> c_Priority c = p) ->
  selectScheduled cands StrategyMaxPriority = Some id ->
  forall c, c ∈ cands -> id <= c_ID c.
Proof.
  intros Hp Hall E c Hc.
  pose proof (selectScheduled_cases StrategyMaxPriority cands) as H. rewrite E in H.
  destruct H as (b & [[Hb _] Hw] & ->).
  assert (Hweight : forall c, c ∈ cands -> weight_of StrategyMaxPriority cands (c_FromAgent c) = p).
  { intros c' Hc'. unfold weight_of. apply foldr_max_const; [|done|].
    - assert (Hin : c' ∈ channel cands (c_FromAgent c')).
      { apply sql_where_elem. rewrite bool_decide_true by done. split; [by apply all_elem|done]. }
      destruct (channel cands (c_FromAgent c')); [set_solver|done].
    - intros v (i & x & -> & Hx%list_elem_of_lookup_2)%elem_of_lookup_imap.
      apply sql_where_elem in Hx as [Hx _]. by apply Hall, all_elem. }
  destruct (Hw c Hc) as [Hlt|[_ ?]]; [|done].
  rewrite !Hweight in Hlt by done. lia.
Qed.

Lemma selectScheduled_fifo_witness :
  selectScheduled [mkCand 7 "b" 20; mkCand 3 "a" 20; mkCand 5 "b" 20] StrategyMaxPriority = Some 3
  /\ 3 <= 7.
Proof.
  split; [by vm_compute|].
  apply (selectScheduled_fifo [mkCand 7 "b" 20; mkCand 3 "a" 20; mkCand 5 "b" 20] 20 3)
    with (c := mkCand 7 "b" 20); [lia| |by vm_compute|set_solver].
  intros c Hc. repeat (apply elem_of_cons in Hc as [->|Hc]; [done|]). by apply elem_of_nil in Hc.
Defined.
