(* ===== verification/Messages.v ===== *)
(** * The message queue (internal/store/messages.go, recipientcap.go, notify.go)

    Insertion under the two caps, claiming, the delivery transitions, deferral,
    acknowledgement, backlog floors, reaping and dedupe.  An operation that can
    fail returns a [result] with the database it leaves behind: a rolled-back
    transaction leaves the database it started from. *)

From S2P Require Import Prelude GoStd StoreTypes Priority.

Open Scope Z_scope.
Open Scope tell_scope.

(** ** Doorbells and public ids *)

(** [fireNotify] with the notifier the CLI installs: the ring is recorded. *)
Definition fireNotify (toAgent : string) (d : DB) : DB :=
  if str_empty toAgent then d
  else mkDB (db_messages d) (db_seq d) (db_agents d) (db_budgets d) (db_presence d)
         (db_rings d ++ [toAgent]).

Definition hex_digit (n : Z) : string :=
  if n <? 10 then Str.itoa n
  else Str.of_bytes [Z.to_nat (n + 87)].

Definition hex_byte (b : Z) : string := hex_digit (b / 16) +:+ hex_digit (b mod 16).

(** Two random bytes in hexadecimal; [None] when the entropy source fails. *)
Definition generatePublicID (entropy : option (Z * Z)) : option string :=
  match entropy with
  | Some (b0, b1) => Some (hex_byte b0 +:+ hex_byte b1)
  | None => None
  end.

Definition publicIDRetryAttempts : nat := 20.

(** ** Parameters of an insert *)

Record InsertParams : Type := mkParams {
  p_FromAgent : string;
  p_ToAgent : string;
  p_ReplyTo : string;
  p_Body : string;
  p_Kind : option Kind;
  p_NoReplyExpected : bool;
  p_Quick : bool;
  p_ReplayOf : string;
  p_ReplayOfAt : string;
  p_DeliverAfter : string;
  p_ExpectsReply : bool;
  p_Priority : Z;
  p_ForceRateLimited : bool;
  p_MaxRecipientQueue : Z;
  p_MaxSenderBacklog : Z
}.

Definition with_agents (from to : string) (p : InsertParams) : InsertParams :=
  mkParams from to (p_ReplyTo p) (p_Body p) (p_Kind p) (p_NoReplyExpected p)
    (p_Quick p) (p_ReplayOf p) (p_ReplayOfAt p) (p_DeliverAfter p)
    (p_ExpectsReply p) (p_Priority p) (p_ForceRateLimited p)
    (p_MaxRecipientQueue p) (p_MaxSenderBacklog p).

Definition with_caps (rq sb : Z) (p : InsertParams) : InsertParams :=
  mkParams (p_FromAgent p) (p_ToAgent p) (p_ReplyTo p) (p_Body p) (p_Kind p)
    (p_NoReplyExpected p) (p_Quick p) (p_ReplayOf p) (p_ReplayOfAt p)
    (p_DeliverAfter p) (p_ExpectsReply p) (p_Priority p) (p_ForceRateLimited p) rq sb.

Definition with_reply_to (r : string) (p : InsertParams) : InsertParams :=
  mkParams (p_FromAgent p) (p_ToAgent p) r (p_Body p) (p_Kind p)
    (p_NoReplyExpected p) (p_Quick p) (p_ReplayOf p) (p_ReplayOfAt p)
    (p_DeliverAfter p) (p_ExpectsReply p) (p_Priority p) (p_ForceRateLimited p)
    (p_MaxRecipientQueue p) (p_MaxSenderBacklog p).

(** A plain message, the other fields at Go's zero values. *)
Definition simple_params (from to body : string) (k : option Kind) : InsertParams :=
  mkParams from to EmptyString body k false false EmptyString EmptyString EmptyString
    false 0 false 0 0.

Definition canonical_params (p : InsertParams) : InsertParams :=
  with_agents (CanonicalName (p_FromAgent p)) (CanonicalName (p_ToAgent p)) p.

Record InsertResult : Type := mkInsertResult { ir_PublicID : string; ir_Queued : Z }.

(** ** Validation and caps *)

Definition validateInsertParams (p : InsertParams) : result unit :=
  if str_empty (p_Body p) then Err (ErrMsg "store: body must be non-empty")
  else if str_empty (p_FromAgent p) || str_empty (p_ToAgent p)
  then Err (ErrMsg "store: from and to are required")
  else Ok tt.

Definition has_public_id (id : string) (m : Message) : bool :=
  bool_decide (m_PublicID m = id).

Definition validateReplyTo (replyTo : string) (d : DB) : result unit :=
  if str_empty replyTo then Ok tt
  else if sql_exists (has_public_id replyTo) (db_messages d) then Ok tt
  else Err (ErrWrap ("store: reply_to " +:+ replyTo +:+ ": not found") ErrNotFound).

Definition Anthropic : string := "anthropic".
Definition OpenAI : string := "openai".

Definition recipientQueueCapByProvider : gmap string Z := {[ OpenAI := 20 ]}.

Definition recipientQueueCapFloor (provider : string) : Z :=
  default 0 (recipientQueueCapByProvider !! provider).

(** [to_agent = ? AND state = ?] and [from_agent = ? AND to_agent = ? AND state = ?]. *)
Definition to_in_state (to : string) (st : State) (m : Message) : bool :=
  bool_decide (m_ToAgent m = to) && bool_decide (m_State m = st).

Definition from_to_in_state (from to : string) (st : State) (m : Message) : bool :=
  bool_decide (m_FromAgent m = from) && to_in_state to st m.

Definition queue_depth (to : string) (d : DB) : Z :=
  sql_count (to_in_state to StateQueued) (db_messages d).

Definition pair_backlog (from to : string) (d : DB) : Z :=
  sql_count (from_to_in_state from to StateQueued) (db_messages d).

(** The passed cap, floored up by the recipient's provider. *)
Definition effective_cap (p : InsertParams) (d : DB) : Z :=
  match db_agents d !! p_ToAgent p with
  | Some a =>
      let floor := recipientQueueCapFloor (a_provider a) in
      if p_MaxRecipientQueue p <? floor then floor else p_MaxRecipientQueue p
  | None => p_MaxRecipientQueue p
  end.

Definition cap_text (who : string) (depth cap need : Z) : string :=
  who +:+ " (" +:+ Str.itoa depth +:+ "/" +:+ Str.itoa cap +:+ ", need "
      +:+ Str.itoa need +:+ " slot(s))".

Definition checkCapsInTx (p : InsertParams) (addedRows : Z) (d : DB) : result unit :=
  _ <-? (if 0 <? p_MaxRecipientQueue p then
           let effectiveCap := effective_cap p d in
           let depth := queue_depth (p_ToAgent p) d in
           if effectiveCap <? depth + addedRows
           then Err (ErrWrap ("store: recipient queue full: "
                       +:+ cap_text (p_ToAgent p) depth effectiveCap addedRows)
                       ErrRecipientQueueFull)
           else Ok tt
         else Ok tt) ;;
  (if 0 <? p_MaxSenderBacklog p then
     let backlog := pair_backlog (p_FromAgent p) (p_ToAgent p) d in
     if p_MaxSenderBacklog p <? backlog + addedRows
     then Err (ErrWrap ("store: sender backlog full: "
                 +:+ cap_text (p_FromAgent p +:+ "→" +:+ p_ToAgent p) backlog
                       (p_MaxSenderBacklog p) addedRows)
                 ErrSenderBacklogFull)
     else Ok tt
   else Ok tt).

(** ** The INSERT statements *)

(** What one INSERT did: the UNIQUE and the reply_to foreign-key constraints are
    the ones that can fail it. *)
Inductive exec_insert_result : Type :=
  | Inserted (d : DB)
  | UniqueViolation
  | ForeignKeyViolation.

Definition exec_insert (row : Message) (d : DB) : exec_insert_result :=
  if sql_exists (has_public_id (m_PublicID row)) (db_messages d) then UniqueViolation
  else
    let rows := db_messages d ++ [row] in
    match m_ReplyTo row with
    | Some r =>
        if sql_exists (has_public_id r) rows
        then Inserted (mkDB rows (m_ID row) (db_agents d) (db_budgets d) (db_presence d) (db_rings d))
        else ForeignKeyViolation
    | None => Inserted (mkDB rows (m_ID row) (db_agents d) (db_budgets d) (db_presence d) (db_rings d))
    end.

Definition null_if_empty (s : string) : option string :=
  if str_empty s then None else Some s.

(** The row [insertOneInTx] writes for a candidate public id. *)
Definition new_row (p : InsertParams) (candidate now : string) (d : DB) : Message :=
  mkMessage (db_seq d + 1) candidate (p_FromAgent p) (p_ToAgent p)
    (null_if_empty (p_ReplyTo p)) (p_Body p)
    (default KindMessage (p_Kind p)) (p_NoReplyExpected p) (p_Quick p)
    (if str_empty (p_DeliverAfter p) then StateQueued else StateDeferred)
    now None None
    (null_if_empty (p_ReplayOf p)) (null_if_empty (p_ReplayOfAt p))
    (null_if_empty (p_DeliverAfter p)) None (p_ExpectsReply p)
    (if p_Priority p =? 0 then PriorityNormal else p_Priority p)
    (p_ForceRateLimited p).

(** The collision-retry loop: [rnd i] is the entropy of attempt [i]. *)
Fixpoint insert_attempts (n i : nat) (p : InsertParams) (rnd : nat -> option (Z * Z))
    (now : string) (d : DB) : result (string * DB) :=
  match n with
  | O => Err (ErrMsg "store: exhausted 20 public_id retries")
  | S n' =>
      match generatePublicID (rnd i) with
      | None => Err (ErrMsg "store: generate public_id")
      | Some candidate =>
          match exec_insert (new_row p candidate now d) d with
          | Inserted d' => Ok (candidate, d')
          | UniqueViolation => insert_attempts n' (S i) p rnd now d
          | ForeignKeyViolation => Err (ErrWrap "store: insert message" ErrForeignKey)
          end
      end
  end.

Definition insertOneInTx (p : InsertParams) (rnd : nat -> option (Z * Z))
    (now : string) (d : DB) : result (InsertResult * DB) :=
  r <-? insert_attempts publicIDRetryAttempts 0 p rnd now d ;;
  Ok (mkInsertResult (fst r) (queue_depth (p_ToAgent p) (snd r)), snd r).

(** The durability record of a message a cap refused. *)
Definition refused_row (p : InsertParams) (reason candidate now : string) (d : DB) : Message :=
  mkMessage (db_seq d + 1) candidate (p_FromAgent p) (p_ToAgent p) None (p_Body p)
    (default KindMessage (p_Kind p)) false false StateRefused now None (Some reason)
    None None None None false PriorityNormal false.

Fixpoint refused_attempts (n i : nat) (p : InsertParams) (reason : string)
    (rnd : nat -> option (Z * Z)) (now : string) (d : DB) : string * DB :=
  match n with
  | O => (EmptyString, d)
  | S n' =>
      match generatePublicID (rnd i) with
      | None => (EmptyString, d)
      | Some candidate =>
          match exec_insert (refused_row p reason candidate now d) d with
          | Inserted d' => (candidate, d')
          | UniqueViolation => refused_attempts n' (S i) p reason rnd now d
          | ForeignKeyViolation => (EmptyString, d)
          end
      end
  end.

Definition insertRefusedRow (p : InsertParams) (reason : string)
    (rnd : nat -> option (Z * Z)) (now : string) (d : DB) : string * DB :=
  refused_attempts publicIDRetryAttempts 0 p reason rnd now d.

(** The error a cap rejection returns, with its handle on the refused row. *)
Definition cap_rejection (refusedID : string) (e : error) : error :=
  CapRejectionError refusedID (error_text e) (default e (errors_Unwrap e)).

Definition InsertMessage (p0 : InsertParams) (rnd rndRefused : nat -> option (Z * Z))
    (now : string) (d : DB) : result InsertResult * DB :=
  let p1 := canonical_params p0 in
  match validateInsertParams p1 with
  | Err e => (Err e, d)
  | Ok _ =>
      match validateReplyTo (p_ReplyTo p1) d with
      | Err e => (Err e, d)
      | Ok _ =>
          let p := if str_empty (p_DeliverAfter p1) then p1 else with_caps 0 0 p1 in
          match checkCapsInTx p 1 d with
          | Err e =>
              let (refusedID, d') := insertRefusedRow p (error_text e) rndRefused now d in
              (Err (cap_rejection refusedID e), d')
          | Ok _ =>
              match insertOneInTx p rnd now d with
              | Err e => (Err e, d)
              | Ok (res, d') =>
                  (Ok res, if str_empty (p_DeliverAfter p)
                           then fireNotify (p_ToAgent p) d' else d')
              end
          end
      end
  end.

Definition InsertNotice (p0 : InsertParams) (rnd : nat -> option (Z * Z))
    (now : string) (d : DB) : result InsertResult * DB :=
  let p1 := canonical_params p0 in
  match validateInsertParams p1 with
  | Err e => (Err e, d)
  | Ok _ =>
      match validateReplyTo (p_ReplyTo p1) d with
      | Err e => (Err e, d)
      | Ok _ =>
          let p := with_caps 0 0 p1 in
          match insertOneInTx p rnd now d with
          | Err e => (Err e, d)
          | Ok (res, d') => (Ok res, fireNotify (p_ToAgent p) d')
          end
      end
  end.

(** The checks of a pair that need no transaction. *)
Definition pair_checks (p1 p2 : InsertParams) (linkP2ToP1 : bool) (d : DB) : result unit :=
  if negb (bool_decide (p_FromAgent p1 = p_FromAgent p2)) ||
     negb (bool_decide (p_ToAgent p1 = p_ToAgent p2))
  then Err (ErrMsg "store: pair must share from/to")
  else if linkP2ToP1 && negb (str_empty (p_ReplyTo p2))
  then Err (ErrMsg "store: linkP2ToP1 requires p2.ReplyTo to be empty")
  else
    _ <-? validateInsertParams p1 ;;
    _ <-? validateInsertParams p2 ;;
    _ <-? validateReplyTo (p_ReplyTo p1) d ;;
    (if linkP2ToP1 then Ok tt else validateReplyTo (p_ReplyTo p2) d).

Definition InsertMessagePair (q1 q2 : InsertParams) (linkP2ToP1 : bool)
    (rnd1 rnd2 rndRef1 rndRef2 : nat -> option (Z * Z)) (now : string) (d : DB)
    : result (InsertResult * InsertResult) * DB :=
  let p1 := canonical_params q1 in
  let p2 := canonical_params q2 in
  match pair_checks p1 p2 linkP2ToP1 d with
  | Err e => (Err e, d)
  | Ok _ =>
      match checkCapsInTx p1 2 d with
      | Err e =>
          let (refusedID, d1) := insertRefusedRow p1 (error_text e) rndRef1 now d in
          let (_, d2) := insertRefusedRow p2 (error_text e) rndRef2 now d1 in
          (Err (cap_rejection refusedID e), d2)
      | Ok _ =>
          match insertOneInTx p1 rnd1 now d with
          | Err e => (Err e, d)
          | Ok (res1, d1) =>
              let p2' := if linkP2ToP1 then with_reply_to (ir_PublicID res1) p2 else p2 in
              match insertOneInTx p2' rnd2 now d1 with
              | Err e => (Err e, d)
              | Ok (res2, d2) =>
                  (Ok (res1, res2), if str_empty (p_DeliverAfter p1)
                                    then fireNotify (p_ToAgent p1) d2 else d2)
              end
          end
      end
  end.

(** ** Fixed inputs for concrete runs *)

Definition entropy (n : Z) : nat -> option (Z * Z) := fun _ => Some (n / 256, n mod 256).

Definition t0 : string := "2026-01-01T00:00:00.000Z".
Definition t1 : string := "2026-01-01T00:01:00.000Z".
