(* ===== verification/Queue.v ===== *)
(** * Claiming and the delivery transitions (internal/store/messages.go)

    The mailman's side of the queue: claim, mark, recover, promote, acknowledge,
    backlog floors, reaping and dedupe.  Every operation is one SQL statement (or
    a transaction of two) on the [messages] table. *)

From S2P Require Import Prelude GoStd StoreTypes Priority Messages.

Open Scope Z_scope.

(** ** Claiming *)

(** [COALESCE((SELECT backlog_epoch_id FROM agents WHERE name = ?), 0)]. *)
Definition backlog_floor (agent : string) (d : DB) : Z :=
  match db_agents d !! agent with
  | Some a => default 0 (a_backlog_epoch_id a)
  | None => 0
  end.

(** The claimable rows of a recipient: queued, and above the backlog floor unless
    the row is a promoted deferral. *)
Definition claimable (toAgent : string) (d : DB) (m : Message) : bool :=
  to_in_state toAgent StateQueued m &&
  (match m_DeliverAfter m with Some _ => true | None => false end
   || (backlog_floor toAgent d <? m_ID m)).

Definition candidate_of (m : Message) : claimCandidate :=
  mkCand (m_ID m) (m_FromAgent m) (m_Priority m).

Definition with_id (id : Z) (m : Message) : bool := m_ID m =? id.

Definition ClaimNextWithStrategy (agent : string) (strategy : SchedulerStrategy)
    (d : DB) : result (option Message) * DB :=
  let toAgent := CanonicalName agent in
  let cands := map candidate_of (sql_where (claimable toAgent d) (db_messages d)) in
  match selectScheduled cands strategy with
  | None => (Ok None, d)
  | Some chosenID =>
      match List.find (with_id chosenID) (db_messages d) with
      | None => (Err (ErrMsg "store: fetch chosen message"), d)
      | Some m =>
          (Ok (Some (set_m_State StateDelivering m)),
           set_messages (sql_update (with_id (m_ID m)) (set_m_State StateDelivering)
                           (db_messages d)) d)
      end
  end.

Definition ClaimNext (agent : string) (d : DB) : result (option Message) * DB :=
  ClaimNextWithStrategy agent StrategyMaxPriority d.

(** ** Marking *)

Definition id_in_state (publicID : string) (st : State) (m : Message) : bool :=
  bool_decide (m_PublicID m = publicID) && bool_decide (m_State m = st).

(** An UPDATE that must hit a row: [ErrNotFound] when it hits none. *)
Definition update_or_not_found (what : string) (p : Message -> bool)
    (f : Message -> Message) (d : DB) : result unit * DB :=
  (if sql_affected p (db_messages d) =? 0
   then Err (ErrWrap (what +:+ ": not found") ErrNotFound) else Ok tt,
   set_messages (sql_update p f (db_messages d)) d).

(** An UPDATE returning [RowsAffected]. *)
Definition update_count (p : Message -> bool) (f : Message -> Message) (d : DB) : Z * DB :=
  (sql_affected p (db_messages d), set_messages (sql_update p f (db_messages d)) d).

Definition delivered_row (verified : Z) (now : string) (m : Message) : Message :=
  set_m_DeliveredAt (Some now) (set_m_Verified (Some verified) (set_m_State StateDelivered m)).

Definition failed_row (reason now : string) (m : Message) : Message :=
  set_m_DeliveredAt (Some now) (set_m_Error (Some reason) (set_m_State StateFailed m)).

Definition markDelivered (publicID : string) (verified : Z) (now : string) (d : DB)
    : result unit * DB :=
  update_or_not_found ("store: mark delivered " +:+ publicID)
    (id_in_state publicID StateDelivering) (delivered_row verified now) d.

Definition MarkDelivered (publicID now : string) (d : DB) : result unit * DB :=
  markDelivered publicID 1 now d.

Definition MarkDeliveredInInputBox (publicID now : string) (d : DB) : result unit * DB :=
  markDelivered publicID 0 now d.

Definition MarkFailed (publicID reason now : string) (d : DB) : result unit * DB :=
  update_or_not_found ("store: mark failed " +:+ publicID)
    (id_in_state publicID StateDelivering) (failed_row reason now) d.

Definition RecoverDelivering (agent : string) (d : DB) : Z * DB :=
  let toAgent := CanonicalName agent in
  update_count (to_in_state toAgent StateDelivering) (set_m_State StateQueued) d.

Definition deferred_on (toAgent trigger : string) (m : Message) : bool :=
  to_in_state toAgent StateDeferred m && bool_decide (m_DeliverAfter m = Some trigger).

Definition PromoteDeferred (agent trigger : string) (d : DB) : Z * DB :=
  let toAgent := CanonicalName agent in
  let (n, d') := update_count (deferred_on toAgent trigger) (set_m_State StateQueued) d in
  (n, if 0 <? n then fireNotify toAgent d' else d').

(** ** Depths and ages *)

Definition RecipientQueueDepth (agent : string) (d : DB) : Z :=
  queue_depth (CanonicalName agent) d.

Definition SenderBacklog (agent : string) (d : DB) : Z :=
  sql_count (fun m => bool_decide (m_FromAgent m = CanonicalName agent) &&
                      bool_decide (m_State m = StateQueued)) (db_messages d).

(** [MIN] and [MAX] over a text column; [None] on no rows. *)
Definition text_min (l : list string) : option string :=
  match l with
  | [] => None
  | x :: l' => Some (foldl (fun a b => if Str.ltb b a then b else a) x l')
  end.
Definition text_max (l : list string) : option string :=
  match l with
  | [] => None
  | x :: l' => Some (foldl (fun a b => if Str.ltb a b then b else a) x l')
  end.

(** The pending rows the freshness alert ages: real deliverables only. *)
Definition pending_real (toAgent : string) (m : Message) : bool :=
  bool_decide (m_ToAgent m = toAgent) &&
  (bool_decide (m_State m = StateQueued) || bool_decide (m_State m = StateDelivering)) &&
  (bool_decide (m_Kind m = KindMessage) || bool_decide (m_Kind m = KindControl)).

Definition valid_stamp (o : option string) : option string :=
  match o with
  | Some ts => if str_empty ts then None else Some ts
  | None => None
  end.

Definition RecipientOldestPendingAt (agent : string) (d : DB) : option string :=
  valid_stamp (text_min (map m_CreatedAt
    (sql_where (pending_real (CanonicalName agent)) (db_messages d)))).

Definition RecipientLastDelivered (agent : string) (d : DB) : option string :=
  valid_stamp (text_max (omap m_DeliveredAt
    (sql_where (to_in_state (CanonicalName agent) StateDelivered) (db_messages d)))).

(** [(id DESC) LIMIT 1 OFFSET keepNewest] over the queued rows. *)
Definition QueuedBacklogFloor (agent : string) (keepNewest0 : Z) (d : DB)
    : result (Z * Z) :=
  let toAgent := CanonicalName agent in
  let keepNewest := if keepNewest0 <? 0 then 0 else keepNewest0 in
  let depth := RecipientQueueDepth toAgent d in
  if (depth =? 0) || (depth <=? keepNewest) then Ok (0, 0)
  else
    match rev (map m_ID (sql_where (to_in_state toAgent StateQueued) (db_messages d)))
            !! Z.to_nat keepNewest with
    | Some floor => Ok (floor, depth - keepNewest)
    | None => Err (ErrMsg "store: backlog floor id")
    end.

(** ** Acknowledgement *)

Definition id_to_in_state (publicID to : string) (st : State) (m : Message) : bool :=
  bool_decide (m_PublicID m = publicID) && to_in_state to st m.

Definition MarkAcknowledged (agent publicID : string) (d : DB) : result unit * DB :=
  let toAgent := CanonicalName agent in
  let (n, d') := update_count (id_to_in_state publicID toAgent StateQueued)
                   (set_m_State StateAcknowledged) d in
  if 0 <? n then (Ok tt, d')
  else if 0 <? sql_count (id_to_in_state publicID toAgent StateAcknowledged) (db_messages d')
  then (Ok tt, d')
  else (Err (ErrWrap ("store: message " +:+ publicID +:+ ": not found") ErrNotFound), d').

Definition MarkAcknowledgedBatch (agent : string) (epochID : Z) (d : DB) : Z * DB :=
  let toAgent := CanonicalName agent in
  if epochID <=? 0 then (0, d)
  else update_count (fun m => to_in_state toAgent StateQueued m && (m_ID m <=? epochID))
         (set_m_State StateAcknowledged) d.

Definition staleQueuedPredicate (toAgent : string) (m : Message) : bool :=
  to_in_state toAgent StateQueued m &&
  match m_DeliverAfter m with None => true | Some _ => false end.

Definition CountStaleQueued (agent : string) (d : DB) : Z :=
  sql_count (staleQueuedPredicate (CanonicalName agent)) (db_messages d).

Definition AckStaleQueued (agent : string) (d : DB) : Z * DB :=
  update_count (staleQueuedPredicate (CanonicalName agent)) (set_m_State StateAcknowledged) d.

(** ** Reaping undeliverable rows *)

(** SQLite's one-argument [TRIM] removes spaces only. *)
Definition has_live_pane (a : Agent) : bool :=
  match a_pane_id a with
  | Some p => negb (str_empty (Str.TrimRight (Str.TrimLeft p [" "]) [" "]))
  | None => false
  end.

Definition reapableUndeliverablePredicate (cutoff : string) (d : DB) (m : Message) : bool :=
  bool_decide (m_State m = StateQueued) &&
  match m_DeliverAfter m with None => true | Some _ => false end &&
  Str.ltb (m_CreatedAt m) cutoff &&
  negb (match db_agents d !! m_ToAgent m with
        | Some a => has_live_pane a
        | None => false
        end).

Definition reapPredicate (agent cutoff : string) (d : DB) (m : Message) : bool :=
  reapableUndeliverablePredicate cutoff d m &&
  (str_empty agent || bool_decide (m_ToAgent m = CanonicalName agent)).

Record ReapCandidate : Type := mkReap {
  rc_PublicID : string;
  rc_FromAgent : string;
  rc_ToAgent : string;
  rc_CreatedAt : string;
  rc_Kind : Kind
}.

(** [ORDER BY created_at, id] of rows already in id order. *)
Definition created_le (a b : Message) : Prop := String.le (m_CreatedAt a) (m_CreatedAt b).

#[global] Instance created_le_dec : RelDecision created_le.
Proof. intros a b. unfold created_le. apply _. Defined.

Definition ListReapableUndeliverable (agent cutoff : string) (d : DB) : list ReapCandidate :=
  map (fun m => mkReap (m_PublicID m) (m_FromAgent m) (m_ToAgent m) (m_CreatedAt m) (m_Kind m))
    (sorting.merge_sort created_le (sql_where (reapPredicate agent cutoff d) (db_messages d))).

Definition ReapUndeliverable (agent cutoff reason now : string) (d : DB) : Z * DB :=
  update_count (reapPredicate agent cutoff d) (failed_row reason now) d.

(** ** Dedupe and lookup *)

(** Every read but the claim leaves [ForceRateLimited] at its zero value. *)
Definition scanned (m : Message) : Message :=
  mkMessage (m_ID m) (m_PublicID m) (m_FromAgent m) (m_ToAgent m) (m_ReplyTo m)
    (m_Body m) (m_Kind m) (m_NoReplyExpected m) (m_Quick m) (m_State m)
    (m_CreatedAt m) (m_DeliveredAt m) (m_Error m) (m_ReplayOf m) (m_ReplayOfAt m)
    (m_DeliverAfter m) (m_Verified m) (m_ExpectsReply m) (m_Priority m) false.

Definition dedupe_match (from to body cutoff : string) (m : Message) : bool :=
  bool_decide (m_FromAgent m = from) && bool_decide (m_ToAgent m = to) &&
  bool_decide (m_Body m = body) && bool_decide (m_State m = StateDelivered) &&
  bool_decide (m_Verified m = Some 0) && Str.ltb cutoff (m_CreatedAt m).

Definition FindDedupeMatch (from to body cutoff : string) (d : DB) : option Message :=
  scanned <$> last (sql_where (dedupe_match (CanonicalName from) (CanonicalName to) body cutoff)
                      (db_messages d)).

Definition MarkVerifiedByDedupe (publicID : string) (d : DB) : result unit * DB :=
  update_or_not_found ("store: mark verified by dedupe " +:+ publicID)
    (fun m => id_in_state publicID StateDelivered m && bool_decide (m_Verified m = Some 0))
    (set_m_Verified (Some 1)) d.

Definition GetMessage (publicID : string) (d : DB) : result Message :=
  match List.find (has_public_id publicID) (db_messages d) with
  | Some m => Ok (scanned m)
  | None => Err ErrNotFound
  end.

(** What a recipient never received. *)
Record RefusedInboundSummary : Type := mkRefusedInbound {
  ri_Recent : Z; ri_Total : Z; ri_NewestAt : string
}.

Definition RefusedInboundWindow : Z := 24 * Time.Hour.

Definition RefusedInbound (agent : string) (now : Z) (d : DB) : RefusedInboundSummary :=
  let cutoff := Time.formatISO (now - RefusedInboundWindow) in
  let rows := sql_where (to_in_state (CanonicalName agent) StateRefused) (db_messages d) in
  mkRefusedInbound
    (sql_count (fun m => Str.leb cutoff (m_CreatedAt m)) rows)
    (Z.of_nat (length rows))
    (null_string (text_max (map m_CreatedAt rows))).

(** Announced backlog nudges that reached the recipient. *)
Definition delivered_announces (agent : string) (d : DB) : Z :=
  sql_count (fun m => to_in_state (CanonicalName agent) StateDelivered m &&
                      bool_decide (m_Kind m = KindBacklogAnnounce)) (db_messages d).
