(* ===== verification/Agents.v ===== *)
(** * The agent registry (internal/store/agents.go, provider.go, presence.go)

    Registration, the per-agent columns, the self-compaction watermarks, the
    mailman park signal, aliases, the provider columns and the presence slot. *)

From stdpp Require Import sorting.
From S2P Require Import Prelude GoStd StoreTypes Messages Queue.

Open Scope Z_scope.
Open Scope tell_scope.

(** ** UPDATE agents SET ... WHERE name = ? *)

(** With the [RowsAffected() == 0] check. *)
Definition update_agent (name : string) (f : Agent -> Agent) (d : DB) : result unit * DB :=
  match db_agents d !! name with
  | None => (Err (ErrWrap ("store: agent " +:+ name +:+ ": not found") ErrNotFound), d)
  | Some a => (Ok tt, set_agents (<[name := f a]> (db_agents d)) d)
  end.

(** Without it. *)
Definition update_agent_quiet (name : string) (f : Agent -> Agent) (d : DB) : DB :=
  set_agents (alter f name (db_agents d)) d.

(** ** Registration *)

Definition holds_pane (pane : string) (a : Agent) : bool :=
  bool_decide (a_pane_id a = Some pane).

(** [UPDATE agents SET pane_id = NULL WHERE pane_id = ? AND name != ?]. *)
Definition clear_other_holders (pane name now : string) (ags : gmap string Agent)
    : gmap string Agent :=
  (fun a => if holds_pane pane a && negb (bool_decide (a_name a = name))
            then set_a_pane_id None (set_a_updated_at now a) else a) <$> ags.

(** The UNIQUE index on [pane_id]: no row other than [name] holds the pane. *)
Definition pane_free (pane name : string) (ags : gmap string Agent) : bool :=
  forallb (fun kv => negb (holds_pane pane (snd kv)) || bool_decide (fst kv = name))
    (map_to_list ags).

(** The upsert: insert a fresh row or set the conflict columns. *)
Definition upsert_row (name : string) (pane : option string) (now : string)
    (ags : gmap string Agent) : gmap string Agent :=
  match ags !! name with
  | None => <[name := new_agent name pane now]> ags
  | Some a =>
      <[name := match pane with
                | None => set_a_updated_at now a
                | Some _ => set_a_pane_id pane (set_a_updated_at now a)
                end]> ags
  end.

Definition UpsertAgent (name0 paneID now : string) (d : DB) : result unit * DB :=
  let name := CanonicalName name0 in
  if str_empty name then (Err (ErrMsg "store: agent name required"), d)
  else if ReservedRoutingName name
  then (Err (ErrWrap ("store: name is reserved as a routing primitive: " +:+ name)
               ErrReservedRoutingName), d)
  else if str_empty paneID
  then (Ok tt, set_agents (upsert_row name None now (db_agents d)) d)
  else
    let cleared := clear_other_holders paneID name now (db_agents d) in
    if pane_free paneID name cleared
    then (Ok tt, set_agents (upsert_row name (Some paneID) now cleared) d)
    else (Err (ErrMsg "UNIQUE constraint failed: agents.pane_id"), d).

Definition GetAgent (name : string) (d : DB) : result Agent :=
  match db_agents d !! CanonicalName name with
  | Some a => Ok a
  | None => Err ErrNotFound
  end.

Definition name_le (a b : Agent) : Prop := String.le (a_name a) (a_name b).

#[global] Instance name_le_dec : RelDecision name_le.
Proof. intros a b. unfold name_le. apply _. Defined.

(** [SELECT ... FROM agents ORDER BY name]. *)
Definition ListAgents (d : DB) : list Agent :=
  merge_sort name_le (map snd (map_to_list (db_agents d))).

Definition DeleteAgent (name : string) (d : DB) : bool * DB :=
  let n := CanonicalName name in
  match db_agents d !! n with
  | None => (false, d)
  | Some _ => (true, set_agents (delete n (db_agents d)) d)
  end.

(** ** Column updates *)

Definition SetPaused (name : string) (paused : bool) (now : string) (d : DB) : result unit * DB :=
  update_agent (CanonicalName name) (fun a => set_a_paused paused (set_a_updated_at now a)) d.

Definition SetPausedAll (paused : bool) (now : string) (d : DB) : Z * DB :=
  (Z.of_nat (size (db_agents d)),
   set_agents ((fun a => set_a_paused paused (set_a_updated_at now a)) <$> db_agents d) d).

Definition SetDisplayName (name v : string) (d : DB) : result unit * DB :=
  update_agent (CanonicalName name) (set_a_display_name v) d.

Definition SetSessionID (name v : string) (d : DB) : result unit * DB :=
  update_agent (CanonicalName name) (set_a_session_id v) d.

Definition SetDeliveryMode (name mode now : string) (d : DB) : result unit * DB :=
  if negb (ValidDeliveryMode mode)
  then (Err (ErrMsg ("store: invalid delivery_mode " +:+ mode)), d)
  else update_agent (CanonicalName name)
         (fun a => set_a_delivery_mode mode (set_a_updated_at now a)) d.

Definition SetBacklogEpoch (name : string) (floor : Z) (d : DB) : result unit * DB :=
  update_agent (CanonicalName name) (set_a_backlog_epoch_id (Some floor)) d.

Definition SetAttentionState (name state : string) (d : DB) : result unit * DB :=
  if negb (ValidAttentionState state)
  then (Err (ErrMsg ("store: invalid attention_state " +:+ state)), d)
  else update_agent (CanonicalName name) (set_a_attention_state state) d.

Definition SetMetabolism (name value now : string) (d : DB) : result unit * DB :=
  if negb (ValidMetabolism value)
  then (Err (ErrMsg ("store: invalid metabolism " +:+ value)), d)
  else update_agent (CanonicalName name)
         (if str_empty value
          then fun a => set_a_metabolism EmptyString (set_a_metabolism_set_at None a)
          else fun a => set_a_metabolism value (set_a_metabolism_set_at (Some now) a)) d.

Definition ClearMetabolismIfPending (name : string) (d : DB) : DB :=
  update_agent_quiet (CanonicalName name)
    (fun a => if bool_decide (a_metabolism a = MetabolismCompactPending)
              then set_a_metabolism EmptyString (set_a_metabolism_set_at None a) else a) d.

Definition SetRespawnAfterShrinks (name : string) (n : Z) (d : DB) : result unit * DB :=
  if n <? 0
  then (Err (ErrMsg ("store: respawn-after-shrinks must be >= 0, got " +:+ Str.itoa n)), d)
  else update_agent (CanonicalName name) (set_a_respawn_after_shrinks n) d.

Definition SetRelaunchCmd (name cmd : string) (d : DB) : result unit * DB :=
  update_agent (CanonicalName name) (set_a_relaunch_cmd cmd) d.

Definition SetAutoRestart (name : string) (on : bool) (d : DB) : result unit * DB :=
  update_agent (CanonicalName name) (set_a_auto_restart on) d.

Definition bump_shrinks (a : Agent) : Agent :=
  set_a_respawn_shrink_count (a_respawn_shrink_count a + 1) a.

Definition IncrementRespawnShrinkCount (name : string) (d : DB) : result Z * DB :=
  match update_agent (CanonicalName name) bump_shrinks d with
  | (Err e, d') => (Err e, d')
  | (Ok _, d') =>
      match db_agents d' !! CanonicalName name with
      | Some a => (Ok (a_respawn_shrink_count a), d')
      | None => (Err ErrNotFound, d')
      end
  end.

Definition ResetRespawnShrinkCount (name : string) (d : DB) : DB :=
  update_agent_quiet (CanonicalName name) (set_a_respawn_shrink_count 0) d.

(** ** The self-compaction edge and its two watermarks *)

Definition setSelfCompactSignalAt (name at_ : string) (d : DB) : result unit * DB :=
  update_agent (CanonicalName name) (set_a_last_self_compact_at (Some at_)) d.

Definition SetSelfCompactSignal (name now : string) (d : DB) : result unit * DB :=
  setSelfCompactSignalAt name now d.

(** [last IS NOT NULL AND last != '' AND (mark IS NULL OR mark = '' OR last > mark)]. *)
Definition unseen_signal (last mark : option string) : bool :=
  match last with
  | None => false
  | Some l =>
      negb (str_empty l) &&
      match mark with
      | None => true
      | Some w => str_empty w || Str.ltb w l
      end
  end.

Definition CountSelfCompactIfNew (name0 : string) (d : DB) : result (bool * Z) * DB :=
  let name := CanonicalName name0 in
  match db_agents d !! name with
  | Some a =>
      if unseen_signal (a_last_self_compact_at a) (a_self_compact_counted_at a) then
        let a' := set_a_self_compact_counted_at (a_last_self_compact_at a) (bump_shrinks a) in
        (Ok (true, a_respawn_shrink_count a'), set_agents (<[name := a']> (db_agents d)) d)
      else (Ok (false, 0), d)
  | None => (Ok (false, 0), d)
  end.

Definition PromoteResumeOnSelfCompactIfNew (name0 trigger : string) (d : DB)
    : result (bool * Z) * DB :=
  let name := CanonicalName name0 in
  match db_agents d !! name with
  | Some a =>
      if unseen_signal (a_last_self_compact_at a) (a_resume_promoted_at a) then
        let d1 := set_agents (<[name := set_a_resume_promoted_at (a_last_self_compact_at a) a]>
                                (db_agents d)) d in
        let (n, d2) := PromoteDeferred name trigger d1 in
        (Ok (true, n), d2)
      else (Ok (false, 0), d)
  | None => (Ok (false, 0), d)
  end.

(** ** The park signal *)

Definition setStuckReason (name reason : string) (d : DB) : result unit * DB :=
  update_agent (CanonicalName name) (set_a_stuck_reason reason) d.

Definition SetStuck (name reason : string) (d : DB) : result unit * DB :=
  if str_empty reason
  then (Err (ErrMsg "store: SetStuck requires a non-empty reason"), d)
  else setStuckReason name reason d.

Definition ClearStuck (name : string) (d : DB) : result unit * DB :=
  setStuckReason name EmptyString d.

(** ** Aliases *)

Definition collides_with (name canonCand : string) (other : Agent) : bool :=
  negb (bool_decide (a_name other = name)) &&
  (bool_decide (a_name other = canonCand) ||
   existsb (fun al => bool_decide (CanonicalName al = canonCand)) (a_aliases other)).

Definition checkAliasCollisions (name0 : string) (aliases : list string) (d : DB)
    : result unit :=
  if bool_decide (aliases = []) then Ok tt
  else
    let name := CanonicalName name0 in
    match List.find ReservedRoutingName aliases with
    | Some c => Err (ErrWrap ("store: name is reserved as a routing primitive: alias " +:+ c)
                       ErrReservedRoutingName)
    | None =>
        let all := ListAgents d in
        match List.find (fun c => existsb (collides_with name (CanonicalName c)) all) aliases with
        | Some c => Err (ErrWrap ("store: alias collides with an existing canonical agent: alias "
                                    +:+ c) ErrAliasCollision)
        | None => Ok tt
        end
    end.

Definition SetAliases (name0 : string) (aliases : list string) (now : string) (d : DB)
    : result unit * DB :=
  let name := CanonicalName name0 in
  match checkAliasCollisions name aliases d with
  | Err e => (Err e, d)
  | Ok _ => update_agent name (fun a => set_a_aliases aliases (set_a_updated_at now a)) d
  end.

Definition AddAlias (name alias now : string) (d : DB) : result unit * DB :=
  match GetAgent name d with
  | Err e => (Err e, d)
  | Ok a =>
      if existsb (fun e => bool_decide (e = alias)) (a_aliases a) then (Ok tt, d)
      else SetAliases name (a_aliases a ++ [alias]) now d
  end.

(** ** Provider columns *)

Definition observedStateWorking : string := "working".

Definition SetProvider (agent provider : string) (d : DB) : DB :=
  update_agent_quiet (CanonicalName agent) (set_a_provider provider) d.

Definition SetProviderCap (agent : string) (cap : Z) (d : DB) : DB :=
  update_agent_quiet (CanonicalName agent) (set_a_provider_cap cap) d.

Definition ProviderCapConfig (agent : string) (d : DB) : string * Z :=
  match db_agents d !! CanonicalName agent with
  | Some a => (a_provider a, a_provider_cap a)
  | None => (EmptyString, 0)
  end.

Definition SetObservedState (agent state observedAt : string) (d : DB) : DB :=
  update_agent_quiet (CanonicalName agent)
    (fun a => set_a_observed_state state (set_a_observed_state_at (Some observedAt) a)) d.

(** [observed_state_at > ?]: false on NULL. *)
Definition observed_after (cutoff : string) (a : Agent) : bool :=
  match a_observed_state_at a with
  | Some t => Str.ltb cutoff t
  | None => false
  end.

Definition ObservedStateSnapshot (ttl now : Z) (d : DB) : gmap string string :=
  let cutoff := Time.formatISO (now - ttl) in
  omap (fun a => if negb (str_empty (a_observed_state a)) && observed_after cutoff a
                 then Some (a_observed_state a) else None) (db_agents d).

Definition CountWorkingOnProvider (provider : string) (ttl now : Z) (d : DB) : Z :=
  if str_empty provider then 0
  else
    let cutoff := Time.formatISO (now - ttl) in
    sql_count (fun a => bool_decide (a_provider a = provider) &&
                        bool_decide (a_observed_state a = observedStateWorking) &&
                        observed_after cutoff a) (map snd (map_to_list (db_agents d))).

(** ** Presence *)

Definition PresenceKeyOperatorLastSeenIn : string := "operator.last_seen_in".

Definition SetPresence (key value : string) (d : DB) : result unit * DB :=
  if str_empty key then (Err (ErrMsg "store: presence key required"), d)
  else (Ok tt, set_presence (<[key := value]> (db_presence d)) d).

Definition GetPresence (key : string) (d : DB) : result string :=
  match db_presence d !! key with
  | Some v => Ok v
  | None => Err ErrNotFound
  end.
