(* ===== verification/Queries.v ===== *)
(** * Queries, threads, replies and deletion
    (internal/store/messages.go, thread.go, reply.go, reset.go) *)

From S2P Require Import Prelude GoStd StoreTypes Messages Queue.

Open Scope Z_scope.

(** ** Listing *)

Record ListFilter : Type := mkListFilter {
  f_ToAgent : string;
  f_FromAgent : string;
  f_ReplyTo : string;
  f_State : option State;
  f_Kind : option Kind;
  f_Limit : Z;
  f_SinceCreatedAt : string;
  f_Unverified : bool;
  f_OrderDesc : bool;
  f_Deferred : bool;
  f_Unanswered : bool;
  f_AwaitingReply : bool
}.

(** The row [r] replies to [m] and comes from [by_]. *)
Definition replied_by (by_ : string) (m r : Message) : bool :=
  bool_decide (m_ReplyTo r = Some (m_PublicID m)) && bool_decide (m_FromAgent r = by_).

(** The conjunction of the WHERE clauses, in the order the code adds them. *)
Definition list_where (f : ListFilter) (rows : list Message) (m : Message) : bool :=
  (str_empty (f_ToAgent f) || bool_decide (m_ToAgent m = f_ToAgent f)) &&
  (str_empty (f_FromAgent f) || bool_decide (m_FromAgent m = f_FromAgent f)) &&
  (str_empty (f_ReplyTo f) || bool_decide (m_ReplyTo m = Some (f_ReplyTo f))) &&
  match f_State f with
  | Some st => bool_decide (m_State m = st)
  | None => if f_Deferred f then bool_decide (m_State m = StateDeferred)
            else negb (bool_decide (m_State m = StateDeferred))
  end &&
  match f_Kind f with Some k => bool_decide (m_Kind m = k) | None => true end &&
  (str_empty (f_SinceCreatedAt f) || Str.leb (f_SinceCreatedAt f) (m_CreatedAt m)) &&
  (negb (f_Unverified f) ||
   (bool_decide (m_State m = StateDelivered) && bool_decide (m_Verified m = Some 0))) &&
  (negb (f_Unanswered f) ||
   (m_ExpectsReply m && negb (sql_exists (replied_by (f_ToAgent f) m) rows))) &&
  (negb (f_AwaitingReply f) ||
   (m_ExpectsReply m && negb (sql_exists (replied_by (m_ToAgent m) m) rows))).

Definition list_limit (n : Z) : Z :=
  if n <=? 0 then 100 else if 1000 <? n then 1000 else n.

Definition canonical_filter (f : ListFilter) : ListFilter :=
  mkListFilter (CanonicalName (f_ToAgent f)) (CanonicalName (f_FromAgent f))
    (f_ReplyTo f) (f_State f) (f_Kind f) (f_Limit f) (f_SinceCreatedAt f)
    (f_Unverified f) (f_OrderDesc f) (f_Deferred f) (f_Unanswered f) (f_AwaitingReply f).

Definition ListMessages (f0 : ListFilter) (d : DB) : result (list Message) :=
  let f := canonical_filter f0 in
  if f_Unverified f && match f_State f with
                       | Some StateDelivered | None => false
                       | Some _ => true
                       end
  then Err (ErrMsg "store: ListFilter: Unverified=true requires State to be empty or delivered")
  else if f_Unanswered f && str_empty (f_ToAgent f)
  then Err (ErrMsg "store: ListFilter: Unanswered=true requires ToAgent to be set")
  else
    let rows := sql_where (list_where f (db_messages d)) (db_messages d) in
    let ordered := if f_OrderDesc f then rev rows else rows in
    Ok (map scanned (take (Z.to_nat (list_limit (f_Limit f))) ordered)).

Record TailFilter : Type := mkTailFilter {
  tf_From : string; tf_To : string; tf_Kind : string; tf_SinceCreatedAt : string
}.

Definition TailRows (afterID : Z) (f : TailFilter) (limit : Z) (d : DB) : list Message :=
  let from := CanonicalName (tf_From f) in
  let to := CanonicalName (tf_To f) in
  let rows := sql_where (fun m =>
    (afterID <? m_ID m) &&
    (str_empty from || bool_decide (m_FromAgent m = from)) &&
    (str_empty to || bool_decide (m_ToAgent m = to)) &&
    (str_empty (tf_Kind f) || bool_decide (Kind_string (m_Kind m) = tf_Kind f)) &&
    (str_empty (tf_SinceCreatedAt f) || Str.leb (tf_SinceCreatedAt f) (m_CreatedAt m)))
    (db_messages d) in
  map scanned (take (Z.to_nat (if limit <=? 0 then 1000 else limit)) rows).

Definition MessagesByIDs (ids : list Z) (d : DB) : list Message :=
  map scanned (sql_where (fun m => existsb (Z.eqb (m_ID m)) ids) (db_messages d)).

(** ** Prefix lookup *)

Definition backslash : ascii := Ascii.ascii_of_nat 92.
Definition percent : ascii := Ascii.ascii_of_nat 37.
Definition underscore : ascii := Ascii.ascii_of_nat 95.

Definition escaped_by (c : ascii) : string := String backslash (String c EmptyString).

Definition escapeLikePrefix (s : string) : string :=
  let s1 := Str.ReplaceByte backslash (escaped_by backslash) s in
  let s2 := Str.ReplaceByte percent (escaped_by percent) s1 in
  Str.ReplaceByte underscore (escaped_by underscore) s2.

(** SQL's [LIKE pattern ESCAPE '\']: ASCII case-insensitive, [%] matches any run
    of characters and [_] one; the escape makes the next byte a literal. *)
Fixpoint sql_like (fuel : nat) (pat s : string) : bool :=
  match fuel with
  | O => false
  | S fuel' =>
      match pat with
      | EmptyString => str_empty s
      | String c pat' =>
          if bool_decide (c = backslash) then
            match pat', s with
            | String c' pat'', String b s' =>
                bool_decide (Str.lower_byte c' = Str.lower_byte b) && sql_like fuel' pat'' s'
            | _, _ => false
            end
          else if bool_decide (c = percent) then
            sql_like fuel' pat' s ||
            match s with String _ s' => sql_like fuel' pat s' | EmptyString => false end
          else match s with
               | EmptyString => false
               | String b s' =>
                   (bool_decide (c = underscore) ||
                    bool_decide (Str.lower_byte c = Str.lower_byte b))
                   && sql_like fuel' pat' s'
               end
      end
  end.

Definition sql_LIKE (pat s : string) : bool :=
  sql_like (S (String.length pat + String.length s)) pat s.

Definition FindMessagesByPrefix (prefix : string) (d : DB) : result (list Message) :=
  if str_empty prefix then Err (ErrMsg "store: prefix required")
  else
    let pat := escapeLikePrefix prefix +:+ String percent EmptyString in
    Ok (map scanned (sql_where (fun m => sql_LIKE pat (m_PublicID m)) (db_messages d))).

(** ** Replies *)

Definition reply_filter (caller askID : string) : ListFilter :=
  mkListFilter caller EmptyString askID None None 1000 EmptyString
    false false false false false.

Definition ListReplies (caller askID : string) (sinceID : Z) (d : DB)
    : result (list Message) :=
  match ListMessages (reply_filter caller askID) d with
  | Err e => Err e
  | Ok msgs =>
      if sinceID <=? 0 then Ok msgs
      else Ok (List.filter (fun m => sinceID <? m_ID m) msgs)
  end.

Definition FindReply (caller askID : string) (sinceID : Z) (d : DB)
    : result (option Message) :=
  match ListReplies caller askID sinceID d with
  | Err e => Err e
  | Ok msgs => Ok (head msgs)
  end.

(** ** Threads *)

(** The thread reads select fewer columns: the others stay at their zero values. *)
Definition thread_scanned (m : Message) : Message :=
  mkMessage (m_ID m) (m_PublicID m) (m_FromAgent m) (m_ToAgent m) (m_ReplyTo m)
    (m_Body m) (m_Kind m) (m_NoReplyExpected m) false (m_State m)
    (m_CreatedAt m) (m_DeliveredAt m) (m_Error m) (m_ReplayOf m) (m_ReplayOfAt m)
    None None false 0 false.

(** Walk [reply_to] backwards; [fuel] bounds the walk, [visited] detects cycles. *)
Fixpoint findThreadRoot (fuel : nat) (visited : list string) (current : string) (d : DB)
    : result Message :=
  match fuel with
  | O => Err (ErrMsg "fuel")
  | S fuel' =>
      if bool_decide (current ∈ visited)
      then Err (ErrMsg ("store: cycle detected at " +:+ current))
      else
        match List.find (has_public_id current) (db_messages d) with
        | None => Err ErrNotFound
        | Some m =>
            match m_ReplyTo m with
            | None => Ok (thread_scanned m)
            | Some r => if str_empty r then Ok (thread_scanned m)
                        else findThreadRoot fuel' (current :: visited) r d
            end
        end
  end.

Definition children_of (id : string) (d : DB) : list Message :=
  map thread_scanned (sql_where (fun m => bool_decide (m_ReplyTo m = Some id)) (db_messages d)).

(** The inner loop over the children of one node. *)
Fixpoint visit_children (cs : list Message) (visited : list string)
    (out : list Message) (queue : list string)
    : list string * list Message * list string :=
  match cs with
  | [] => (visited, out, queue)
  | c :: cs' =>
      if bool_decide (m_PublicID c ∈ visited) then visit_children cs' visited out queue
      else visit_children cs' (m_PublicID c :: visited) (out ++ [c]) (queue ++ [m_PublicID c])
  end.

(** The breadth-first loop; [None] when the fuel runs out. *)
Fixpoint thread_bfs (fuel : nat) (visited : list string) (out : list Message)
    (queue : list string) (d : DB) : option (list Message) :=
  match queue with
  | [] => Some out
  | current :: queue' =>
      match fuel with
      | O => None
      | S fuel' =>
          let '(visited', out', queue'') :=
            visit_children (children_of current d) visited out queue' in
          thread_bfs fuel' visited' out' queue'' d
      end
  end.

Definition id_le (a b : Message) : Prop := m_ID a <= m_ID b.

#[global] Instance id_le_dec : RelDecision id_le.
Proof. intros a b. unfold id_le. apply _. Defined.

(** Enough for any walk: every step visits a row not visited before. *)
Definition thread_fuel (d : DB) : nat := S (S (length (db_messages d))).

Definition GetThread (anyID : string) (d : DB) : result (list Message) :=
  match findThreadRoot (thread_fuel d) [] anyID d with
  | Err e => Err e
  | Ok root =>
      match thread_bfs (thread_fuel d) [m_PublicID root] [root] [m_PublicID root] d with
      | None => Err (ErrMsg "fuel")
      | Some out => Ok (sorting.merge_sort id_le out)
      end
  end.

(** ** Deletion

    The database runs with foreign keys on and [reply_to] has no ON DELETE
    action: deleting a row that a surviving row replies to fails the statement. *)

Definition fk_blocked (p : Message -> bool) (rows : list Message) : bool :=
  existsb (fun m => p m &&
    existsb (fun c => negb (p c) && bool_decide (m_ReplyTo c = Some (m_PublicID m))) rows) rows.

Definition exec_delete (p : Message -> bool) (d : DB) : result Z * DB :=
  if fk_blocked p (db_messages d)
  then (Err (ErrWrap "store: delete messages" ErrForeignKey), d)
  else (Ok (sql_affected p (db_messages d)), set_messages (sql_delete p (db_messages d)) d).

Definition in_states (states : list State) (m : Message) : bool :=
  existsb (fun st => bool_decide (m_State m = st)) states.

Definition to_scope (toAgent : string) (m : Message) : bool :=
  str_empty toAgent || bool_decide (m_ToAgent m = toAgent).

Definition DeleteMessages (agent : string) (states : list State) (d : DB) : result Z * DB :=
  let toAgent := CanonicalName agent in
  if bool_decide (states = []) then (Err (ErrMsg "store: at least one state required"), d)
  else exec_delete (fun m => in_states states m && to_scope toAgent m) d.

Definition DeleteMessagesBefore (agent cutoff : string) (states : list State) (d : DB)
    : result Z * DB :=
  let toAgent := CanonicalName agent in
  if str_empty cutoff then (Err (ErrMsg "store: cutoff required"), d)
  else if bool_decide (states = []) then (Err (ErrMsg "store: at least one state required"), d)
  else exec_delete (fun m => Str.ltb (m_CreatedAt m) cutoff && in_states states m
                             && to_scope toAgent m) d.

Definition DeleteStrandedDraftsBefore (agent cutoff : string) (d : DB) : result Z * DB :=
  let toAgent := CanonicalName agent in
  if str_empty cutoff then (Err (ErrMsg "store: cutoff required"), d)
  else exec_delete (fun m => bool_decide (m_Kind m = KindStrandedDraft) &&
                             Str.ltb (m_CreatedAt m) cutoff && to_scope toAgent m) d.
