(* ===== verification/Budget.v ===== *)
(** * The communication budget (internal/budget, internal/store/budget.go)

    The price of a send, the lazily refilled balance and the transactions that quote,
    charge and refund it.  A finite [float64] is a rational and its operations are
    exact; [math.Pow] is a parameter, with the facts the theorems use stated where
    they are used. *)

From S2P Require Import Prelude GoStd Clock StoreTypes Messages.

Open Scope Z_scope.
Open Scope tell_scope.

(** ** Prices (budget/cost.go, budget/refill.go) *)

Definition BreadthExponent : Q := 3 # 2.
Definition LengthDivisor : Q := 3000 # 1.
Definition DefaultCap : Q := 120 # 1.
Definition DefaultRefillPerHour : Q := 16 # 1.
Definition DefaultOverdraftRatio : Q := (-1) # 4.
Definition DefaultAlpha : Q := 1 # 4.
Definition DefaultWindow : Z := 15 * Time.Minute.
Definition RecoveryFactor : Q := 1 # 2.

Definition float (n : Z) : Q := Qmake n 1.

(** The package's own [min]. *)
Definition fmin (a b : Q) : Q := if Qlt_bool a b then a else b.

(** [d.Hours()]. *)
Definition Hours (d : Z) : Q := Qmake d 3600000000000.

Definition Refilled (balance capacity ratePerHour : Q) (elapsed : Z) : Q :=
  if (elapsed <=? 0) || Qle_bool ratePerHour 0 then fmin balance capacity
  else
    let hours := Hours elapsed in
    if Qle_bool 0 balance then fmin (balance + ratePerHour * hours)%Q capacity
    else
      let toZero := (- balance / (ratePerHour * RecoveryFactor))%Q in
      if Qle_bool hours toZero then (balance + ratePerHour * RecoveryFactor * hours)%Q
      else fmin (ratePerHour * (hours - toZero))%Q capacity.

Definition Overdraft (capacity : Q) : Q := (capacity * DefaultOverdraftRatio)%Q.

Definition Affordable (balance cost capacity : Q) : bool := Qle_bool (Overdraft capacity) (balance - cost)%Q.

Definition TimeToAfford (balance cost capacity ratePerHour : Q) : Z :=
  if Affordable balance cost capacity then 0
  else if Qle_bool ratePerHour 0 then 0
  else
    let need := (cost + Overdraft capacity - balance)%Q in
    let rate := if Qlt_bool balance 0 then (ratePerHour * RecoveryFactor)%Q else ratePerHour in
    Qtrunc (need / rate * float Time.Hour)%Q.

(** ** Text of a refusal *)

(** [%.1f]: the exact value rounded to one decimal, ties to even. *)
Definition tenths (q : Q) : Z :=
  let n := 10 * Qnum q in let d := Zpos (Qden q) in
  let fl := n / d in let r2 := 2 * (n mod d) in
  if (d <? r2) || ((r2 =? d) && Z.odd fl) then fl + 1 else fl.

Definition fmt1 (q : Q) : string :=
  let neg := Qnum q <? 0 in
  let n := tenths (if neg then - q else q)%Q in
  (if neg then "-" else EmptyString) +:+ Str.itoa (n / 10) +:+ "." +:+ Str.itoa (n mod 10).

Definition whenAffordable (d : Z) (ratePerHour : Q) : string :=
  if Qle_bool ratePerHour 0
  then "never — refill is disabled (refill_per_hour=0); raise the cap or the rate"
  else if d <=? 0 then "now"
  else if d <? Time.Minute then "in " +:+ seconds_text d
  else "in " +:+ minutes_text d.

(** ** The store's side (store/budget.go) *)

Record BudgetParams : Type := mkBudgetParams {
  bp_Agent : string;
  bp_Recipients : list string;
  bp_Bytes : Z;
  bp_Capacity : Q;
  bp_RefillPerHour : Q;
  bp_Alpha : Q;
  bp_Window : Z
}.

Record BudgetState : Type := mkBudgetState {
  bs_Agent : string;
  bs_Balance : Q;
  bs_Capacity : Q;
  bs_PriorRecipients : Z;
  bs_NewRecipients : Z;
  bs_Deliveries : Z;
  bs_Bytes : Z;
  bs_Cost : Q;
  bs_Affordable : bool;
  bs_TimeToAfford : Z;
  bs_Remaining : Q
}.

(** [SELECT DISTINCT to_agent FROM messages WHERE from_agent = ? AND created_at > ?
    AND state != 'refused']. *)
Definition in_window (agent cutoff : string) (m : Message) : bool :=
  bool_decide (m_FromAgent m = agent) && Str.ltb cutoff (m_CreatedAt m) &&
  negb (bool_decide (m_State m = StateRefused)).

Definition budget_window (agent cutoff : string) (d : DB) : gset string :=
  list_to_set (map m_ToAgent (sql_where (in_window agent cutoff) (db_messages d))).

(** The stored balance brought forward to [now]; a full one when there is none, the
    stored one as it is when its instant does not parse. *)
Definition current_balance (now : Z) (p : BudgetParams) (d : DB) : Q :=
  match db_budgets d !! bp_Agent p with
  | None => bp_Capacity p
  | Some (stored, updatedAt) =>
      match parseISO updatedAt with
      | None => stored
      | Some prev => Refilled stored (bp_Capacity p) (bp_RefillPerHour p) (now - prev)
      end
  end.

Section Priced.
Context (math_Pow : Q -> Q -> Q).

Definition breadth (distinctRecipients : Z) : Q :=
  if distinctRecipients <=? 0 then 0%Q else math_Pow (float distinctRecipients) BreadthExponent.

Definition Cost (prior newDistinct deliveries bytes : Z) (alpha : Q) : Q :=
  if deliveries <=? 0 then 0%Q
  else
    let lengthFactor := (1 + float bytes / LengthDivisor)%Q in
    let marginal := (breadth newDistinct - breadth prior)%Q in
    let marginalBreadth := if Qlt_bool marginal 0 then 0%Q else marginal in
    ((marginalBreadth + alpha * float deliveries) * lengthFactor)%Q.

Definition quoteBudgetInTx (now : Z) (p : BudgetParams) (d : DB) : BudgetState :=
  let balance := current_balance now p d in
  let cutoff := Time.formatISO (now - bp_Window p) in
  let seen := budget_window (bp_Agent p) cutoff d in
  let seen' := seen ∪ list_to_set (bp_Recipients p) in
  let prior := Z.of_nat (size seen) in
  let newDistinct := Z.of_nat (size seen') in
  let deliveries := Z.of_nat (length (bp_Recipients p)) in
  let cost := Cost prior newDistinct deliveries (bp_Bytes p) (bp_Alpha p) in
  mkBudgetState (bp_Agent p) balance (bp_Capacity p) prior newDistinct deliveries (bp_Bytes p) cost
    (Affordable balance cost (bp_Capacity p))
    (TimeToAfford balance cost (bp_Capacity p) (bp_RefillPerHour p))
    (balance - cost)%Q.

Definition QuoteBudget (now : Z) (p : BudgetParams) (d : DB) : BudgetState := quoteBudgetInTx now p d.

(** Written after a charge: the state with the new balance. *)
Definition charged (st : BudgetState) : BudgetState :=
  mkBudgetState (bs_Agent st) (bs_Remaining st) (bs_Capacity st) (bs_PriorRecipients st)
    (bs_NewRecipients st) (bs_Deliveries st) (bs_Bytes st) (bs_Cost st) (bs_Affordable st)
    (bs_TimeToAfford st) (bs_Remaining st).

Definition exhausted (p : BudgetParams) (st : BudgetState) : error :=
  ErrWrap ("store: communication budget exhausted: " +:+ bp_Agent p +:+ " has " +:+ fmt1 (bs_Balance st)
             +:+ ", this send costs " +:+ fmt1 (bs_Cost st) +:+ " (" +:+ Str.itoa (bs_Deliveries st)
             +:+ " deliveries, " +:+ Str.itoa (bs_NewRecipients st - bs_PriorRecipients st)
             +:+ " new recipient(s), " +:+ Str.itoa (bs_Bytes st) +:+ " bytes); affordable "
             +:+ whenAffordable (bs_TimeToAfford st) (bp_RefillPerHour p)) ErrBudgetExhausted.

(** Check and debit in one transaction. *)
Definition ChargeBudget (now : Z) (p : BudgetParams) (d : DB) : (BudgetState * option error) * DB :=
  let st := quoteBudgetInTx now p d in
  if negb (bs_Affordable st) then ((st, Some (exhausted p st)), d)
  else ((charged st, None),
        set_budgets (<[bp_Agent p := (bs_Remaining st, Time.formatISO now)]> (db_budgets d)) d).
End Priced.

Definition RefundBudget (now : Z) (agent : string) (amount capacity : Q) (d : DB) : DB :=
  if Qle_bool amount 0 then d
  else match db_budgets d !! agent with
       | None => d
       | Some (balance, _) =>
           let balance' := (balance + amount)%Q in
           let balance'' := if Qlt_bool capacity balance' then capacity else balance' in
           set_budgets (<[agent := (balance'', Time.formatISO now)]> (db_budgets d)) d
       end.
