(* ===== verification/Lifecycle.v ===== *)
(** * The life of a message

    The store's operations as a step relation on the database, the state machine
    of one row ([row_step]), and the shape every operation has: it rewrites rows
    along [row_step], appends fresh rows, or deletes. *)

From S2P Require Import Prelude GoStd StoreTypes Priority Messages Queue Agents Queries Budget.

Open Scope Z_scope.

(** ** One row *)

(** The transitions of a message row; a row outside [queued], [delivering] and
    [deferred] only ever has its paste verified after the fact. *)
Inductive row_step (m : Message) : Message -> Prop :=
  | row_same : row_step m m
  | row_claim : m_State m = StateQueued -> row_step m (set_m_State StateDelivering m)
  | row_acknowledge : m_State m = StateQueued -> row_step m (set_m_State StateAcknowledged m)
  | row_reap reason now : m_State m = StateQueued -> row_step m (failed_row reason now m)
  | row_deliver verified now :
      m_State m = StateDelivering -> verified = 0 \/ verified = 1 ->
      row_step m (delivered_row verified now m)
  | row_fail reason now : m_State m = StateDelivering -> row_step m (failed_row reason now m)
  | row_recover : m_State m = StateDelivering -> row_step m (set_m_State StateQueued m)
  | row_promote : m_State m = StateDeferred -> row_step m (set_m_State StateQueued m)
  | row_dedupe :
      m_State m = StateDelivered -> m_Verified m = Some 0 ->
      row_step m (set_m_Verified (Some 1) m).

Create HintDb rowdb.
#[export] Hint Constructors row_step : rowdb.

(** The states an inserted row can start in. *)
Definition fresh_state (s : State) : Prop :=
  s = StateQueued \/ s = StateDeferred \/ s = StateRefused.

(** Columns no operation ever writes after the insert. *)
Definition same_letter (m m' : Message) : Prop :=
  m_ID m' = m_ID m /\ m_PublicID m' = m_PublicID m /\ m_FromAgent m' = m_FromAgent m /\
  m_ToAgent m' = m_ToAgent m /\ m_ReplyTo m' = m_ReplyTo m /\ m_Body m' = m_Body m /\
  m_Kind m' = m_Kind m /\ m_CreatedAt m' = m_CreatedAt m /\
  m_DeliverAfter m' = m_DeliverAfter m /\ m_Priority m' = m_Priority m.

Lemma row_step_same_letter m m' : row_step m m' -> same_letter m m'.
Proof. intros []; repeat split. Qed.

Lemma same_letter_trans a b c : same_letter a b -> same_letter b c -> same_letter a c.
Proof. unfold same_letter. intuition congruence. Qed.

Definition terminal (s : State) : bool :=
  match s with
  | StateDelivered | StateFailed | StateAcknowledged | StateRefused => true
  | _ => false
  end.

(** ** The operations of the store *)

Inductive store_step (d : DB) : DB -> Prop :=
  | step_InsertMessage p rnd rndR now : store_step d (snd (InsertMessage p rnd rndR now d))
  | step_InsertNotice p rnd now : store_step d (snd (InsertNotice p rnd now d))
  | step_InsertMessagePair p q link r1 r2 r3 r4 now :
      store_step d (snd (InsertMessagePair p q link r1 r2 r3 r4 now d))
  | step_Claim agent strategy : store_step d (snd (ClaimNextWithStrategy agent strategy d))
  | step_MarkDelivered id now : store_step d (snd (MarkDelivered id now d))
  | step_MarkDeliveredInInputBox id now : store_step d (snd (MarkDeliveredInInputBox id now d))
  | step_MarkFailed id reason now : store_step d (snd (MarkFailed id reason now d))
  | step_RecoverDelivering agent : store_step d (snd (RecoverDelivering agent d))
  | step_PromoteDeferred agent trigger : store_step d (snd (PromoteDeferred agent trigger d))
  | step_MarkAcknowledged agent id : store_step d (snd (MarkAcknowledged agent id d))
  | step_MarkAcknowledgedBatch agent epoch :
      store_step d (snd (MarkAcknowledgedBatch agent epoch d))
  | step_AckStaleQueued agent : store_step d (snd (AckStaleQueued agent d))
  | step_ReapUndeliverable agent cutoff reason now :
      store_step d (snd (ReapUndeliverable agent cutoff reason now d))
  | step_MarkVerifiedByDedupe id : store_step d (snd (MarkVerifiedByDedupe id d))
  | step_DeleteMessages agent states : store_step d (snd (DeleteMessages agent states d))
  | step_DeleteMessagesBefore agent cutoff states :
      store_step d (snd (DeleteMessagesBefore agent cutoff states d))
  | step_DeleteStrandedDraftsBefore agent cutoff :
      store_step d (snd (DeleteStrandedDraftsBefore agent cutoff d))
  | step_UpsertAgent name pane now : store_step d (snd (UpsertAgent name pane now d))
  | step_DeleteAgent name : store_step d (snd (DeleteAgent name d))
  | step_SetPaused name b now : store_step d (snd (SetPaused name b now d))
  | step_SetPausedAll b now : store_step d (snd (SetPausedAll b now d))
  | step_SetDisplayName name v : store_step d (snd (SetDisplayName name v d))
  | step_SetSessionID name v : store_step d (snd (SetSessionID name v d))
  | step_SetDeliveryMode name v now : store_step d (snd (SetDeliveryMode name v now d))
  | step_SetBacklogEpoch name floor : store_step d (snd (SetBacklogEpoch name floor d))
  | step_SetAttentionState name v : store_step d (snd (SetAttentionState name v d))
  | step_SetMetabolism name v now : store_step d (snd (SetMetabolism name v now d))
  | step_ClearMetabolismIfPending name : store_step d (ClearMetabolismIfPending name d)
  | step_SetRespawnAfterShrinks name n : store_step d (snd (SetRespawnAfterShrinks name n d))
  | step_SetRelaunchCmd name v : store_step d (snd (SetRelaunchCmd name v d))
  | step_SetAutoRestart name b : store_step d (snd (SetAutoRestart name b d))
  | step_IncrementRespawnShrinkCount name :
      store_step d (snd (IncrementRespawnShrinkCount name d))
  | step_ResetRespawnShrinkCount name : store_step d (ResetRespawnShrinkCount name d)
  | step_SetSelfCompactSignal name now : store_step d (snd (SetSelfCompactSignal name now d))
  | step_CountSelfCompactIfNew name : store_step d (snd (CountSelfCompactIfNew name d))
  | step_PromoteResume name trigger :
      store_step d (snd (PromoteResumeOnSelfCompactIfNew name trigger d))
  | step_SetStuck name reason : store_step d (snd (SetStuck name reason d))
  | step_ClearStuck name : store_step d (snd (ClearStuck name d))
  | step_SetAliases name aliases now : store_step d (snd (SetAliases name aliases now d))
  | step_AddAlias name alias now : store_step d (snd (AddAlias name alias now d))
  | step_SetProvider name v : store_step d (SetProvider name v d)
  | step_SetProviderCap name n : store_step d (SetProviderCap name n d)
  | step_SetObservedState name v at_ : store_step d (SetObservedState name v at_ d)
  | step_ChargeBudget math_Pow now p : store_step d (snd (ChargeBudget math_Pow now p d))
  | step_RefundBudget now agent amount capacity :
      store_step d (RefundBudget now agent amount capacity d)
  | step_SetPresence key v : store_step d (snd (SetPresence key v d)).

(** Everything the store can do to its database, in any order. *)
Definition store_steps : DB -> DB -> Prop := rtc store_step.

Definition reachable (d : DB) : Prop := store_steps empty_db d.

(** ** The shapes of the operations

    [msg_shape d d'] describes what an operation did to the [messages] table;
    [agent_shape] what it did to the [agents] table. *)

(** A row an INSERT may append. *)
Definition fresh_row (d : DB) (m : Message) : Prop :=
  m_ID m = db_seq d + 1 /\ fresh_state (m_State m) /\
  CanonicalName (m_FromAgent m) = m_FromAgent m /\ CanonicalName (m_ToAgent m) = m_ToAgent m /\
  m_DeliveredAt m = None /\ m_Verified m = None /\
  (m_Error m = None <-> m_State m <> StateRefused) /\
  (m_State m = StateDeferred -> exists t, m_DeliverAfter m = Some t) /\
  (forall r, m_ReplyTo m = Some r ->
     r <> EmptyString /\ exists m', m' ∈ db_messages d /\ m_PublicID m' = r).

Inductive msg_shape : DB -> DB -> Prop :=
  | shape_same d d' :
      db_messages d' = db_messages d -> db_seq d' = db_seq d -> msg_shape d d'
  | shape_update d d' p f :
      (forall m, m ∈ db_messages d -> p m = true -> row_step m (f m)) ->
      db_messages d' = sql_update p f (db_messages d) -> db_seq d' = db_seq d ->
      msg_shape d d'
  | shape_insert d d' m :
      fresh_row d m -> exec_insert m d = Inserted d' -> msg_shape d d'
  | shape_delete d d' p :
      fk_blocked p (db_messages d) = false ->
      db_messages d' = sql_delete p (db_messages d) -> db_seq d' = db_seq d ->
      msg_shape d d'.

#[export] Hint Constructors msg_shape : rowdb.

Lemma exec_insert_Inserted m d d' :
  exec_insert m d = Inserted d' ->
  d' = mkDB (db_messages d ++ [m]) (m_ID m) (db_agents d) (db_budgets d) (db_presence d) (db_rings d)
  /\ (forall m', m' ∈ db_messages d -> m_PublicID m' <> m_PublicID m)
  /\ (forall r, m_ReplyTo m = Some r ->
        exists m', m' ∈ db_messages d ++ [m] /\ m_PublicID m' = r).
Proof.
  unfold exec_insert. destruct (sql_exists _ _) eqn:E; [done|].
  rewrite sql_exists_false in E. unfold has_public_id in E.
  assert (Huniq : forall m', m' ∈ db_messages d -> m_PublicID m' <> m_PublicID m).
  { intros m' Hin. apply E in Hin. by bsimp. }
  destruct (m_ReplyTo m) as [r|].
  - destruct (sql_exists (has_public_id r) _) eqn:E2; [|done]. intros [= <-].
    apply sql_exists_true in E2 as (m' & Hin & Hr). unfold has_public_id in Hr. bsimp.
    repeat split; auto. intros r' [= <-]. eauto.
  - intros [= <-]. repeat split; auto. intros r [=].
Qed.

(** A transaction of several statements. *)
Definition msg_shapes : DB -> DB -> Prop := rtc msg_shape.

(** ** Inserts *)

Lemma insert_attempts_shape n i p rnd now d id d' :
  insert_attempts n i p rnd now d = Ok (id, d') ->
  exec_insert (new_row p id now d) d = Inserted d'.
Proof.
  revert i. induction n as [|n IH]; intros i; simpl; [done|].
  destruct (generatePublicID (rnd i)) as [c|]; [|done].
  destruct (exec_insert (new_row p c now d) d) eqn:E; [|by apply IH|done].
  by intros [= <- <-].
Qed.

Lemma refused_attempts_shape n i p reason rnd now d :
  refused_attempts n i p reason rnd now d = (EmptyString, d) \/
  exists id d', refused_attempts n i p reason rnd now d = (id, d') /\
    exec_insert (refused_row p reason id now d) d = Inserted d'.
Proof.
  revert i. induction n as [|n IH]; intros i; simpl; [by left|].
  destruct (generatePublicID (rnd i)) as [c|]; [|by left].
  destruct (exec_insert _ _) eqn:E; [|apply IH|by left]. right. eauto.
Qed.

Definition canonical_p (p : InsertParams) : Prop :=
  CanonicalName (p_FromAgent p) = p_FromAgent p /\ CanonicalName (p_ToAgent p) = p_ToAgent p.

Lemma canonical_params_canonical p : canonical_p (canonical_params p).
Proof. split; apply CanonicalName_idem_aux. Qed.

(** The reply target of an insert, when it has one, is a row. *)
Definition reply_known (p : InsertParams) (d : DB) : Prop :=
  p_ReplyTo p <> EmptyString ->
  exists m, m ∈ db_messages d /\ m_PublicID m = p_ReplyTo p.

Lemma validateReplyTo_Ok p d u : validateReplyTo (p_ReplyTo p) d = Ok u -> reply_known p d.
Proof.
  unfold validateReplyTo, reply_known. case_bool_decide; [done|].
  destruct (sql_exists _ _) eqn:E; [|done]. intros _ _.
  apply sql_exists_true in E as (m & Hm & Hid). unfold has_public_id in Hid. bsimp. eauto.
Qed.

Lemma new_row_fresh p id now d :
  canonical_p p -> reply_known p d -> fresh_row d (new_row p id now d).
Proof.
  intros [Hf Ht] Hr. unfold fresh_row, new_row, fresh_state; simpl. unfold null_if_empty.
  do 8 (split; [repeat split; repeat case_bool_decide; auto; try done; by eexists|]).
  intros r. case_bool_decide; [done|]. intros [= <-]. split; [done|]. by apply Hr.
Qed.

Lemma refused_row_fresh p reason id now d :
  canonical_p p -> fresh_row d (refused_row p reason id now d).
Proof.
  intros [Hf Ht]. unfold fresh_row, refused_row, fresh_state; simpl.
  repeat split; auto; try done.
Qed.

Lemma insertOneInTx_shape p rnd now d res d' :
  canonical_p p -> reply_known p d -> insertOneInTx p rnd now d = Ok (res, d') ->
  msg_shape d d'.
Proof.
  unfold insertOneInTx. intros Hc Hr. destruct (insert_attempts _ _ _ _ _ _) as [[id d1]|] eqn:E; [|done].
  simpl. intros [= _ <-]. apply insert_attempts_shape in E.
  eapply shape_insert; [by apply new_row_fresh|exact E].
Qed.

Lemma insertRefusedRow_shape p reason rnd now d id d' :
  canonical_p p -> insertRefusedRow p reason rnd now d = (id, d') -> msg_shape d d'.
Proof.
  unfold insertRefusedRow. intros Hc E.
  destruct (refused_attempts_shape publicIDRetryAttempts 0 p reason rnd now d)
    as [E2|(id2 & d2 & E2 & Hi)]; rewrite E2 in E; injection E as <- <-.
  - by apply shape_same.
  - eapply shape_insert; [by apply refused_row_fresh|exact Hi].
Qed.

Lemma fireNotify_messages to d : db_messages (fireNotify to d) = db_messages d.
Proof. unfold fireNotify. by case_bool_decide. Qed.
Lemma fireNotify_seq to d : db_seq (fireNotify to d) = db_seq d.
Proof. unfold fireNotify. by case_bool_decide. Qed.
Lemma fireNotify_agents to d : db_agents (fireNotify to d) = db_agents d.
Proof. unfold fireNotify. by case_bool_decide. Qed.

#[export] Hint Rewrite fireNotify_messages fireNotify_seq fireNotify_agents : sqldb.

Lemma fireNotify_shape to d : msg_shape d (fireNotify to d).
Proof. apply shape_same; by autorewrite with sqldb. Qed.

Lemma shapes_one d d' : msg_shape d d' -> msg_shapes d d'.
Proof. apply rtc_once. Qed.
Lemma shapes_two d d1 d2 : msg_shape d d1 -> msg_shape d1 d2 -> msg_shapes d d2.
Proof. intros ? ?. eapply rtc_l; [done|by apply rtc_once]. Qed.
Lemma shapes_refl d : msg_shapes d d.
Proof. apply rtc_refl. Qed.
#[export] Hint Resolve shapes_one shapes_two shapes_refl fireNotify_shape : rowdb.

(** The ring after a committed transaction. *)
Lemma shapes_ring (b : bool) to d d' :
  msg_shapes d d' -> msg_shapes d (if b then fireNotify to d' else d').
Proof. intros H. destruct b; [|done]. eapply rtc_r; [done|apply fireNotify_shape]. Qed.

Lemma InsertMessage_shapes p rnd rndR now d :
  msg_shapes d (snd (InsertMessage p rnd rndR now d)).
Proof.
  unfold InsertMessage. destruct (validateInsertParams _); [|apply shapes_refl].
  destruct (validateReplyTo _ _) eqn:Ev; [|apply shapes_refl]. cbv zeta.
  apply validateReplyTo_Ok in Ev. set (p' := if str_empty _ then _ else _).
  assert (Hc : canonical_p p').
  { unfold p'. case_bool_decide; apply (canonical_params_canonical p). }
  assert (Hr : reply_known p' d) by (unfold p'; case_bool_decide; exact Ev).
  destruct (checkCapsInTx p' 1 d).
  - destruct (insertOneInTx p' rnd now d) as [[res d']|] eqn:E; [|apply shapes_refl].
    apply insertOneInTx_shape in E; [|done..]. apply shapes_ring. by apply shapes_one.
  - destruct (insertRefusedRow _ _ _ _ _) as [id d'] eqn:E.
    apply insertRefusedRow_shape in E; [|done]. by apply shapes_one.
Qed.

Lemma InsertNotice_shapes p rnd now d : msg_shapes d (snd (InsertNotice p rnd now d)).
Proof.
  unfold InsertNotice. destruct (validateInsertParams _); [|apply shapes_refl].
  destruct (validateReplyTo _ _) eqn:Ev; [|apply shapes_refl]. cbv zeta.
  apply validateReplyTo_Ok in Ev.
  destruct (insertOneInTx _ _ _ _) as [[res d']|] eqn:E; [|apply shapes_refl].
  apply insertOneInTx_shape in E; [|apply (canonical_params_canonical p)|exact Ev].
  by apply (shapes_ring true), shapes_one.
Qed.

Lemma pair_checks_Ok p1 p2 link d u :
  pair_checks p1 p2 link d = Ok u ->
  p_FromAgent p1 = p_FromAgent p2 /\ p_ToAgent p1 = p_ToAgent p2 /\
  reply_known p1 d /\ (link = false -> reply_known p2 d).
Proof.
  unfold pair_checks. destruct (negb _ || negb _) eqn:E1; [done|].
  destruct (link && _); [done|]. bsimp.
  destruct (validateInsertParams p1); [|done]. destruct (validateInsertParams p2); [|done].
  destruct (validateReplyTo (p_ReplyTo p1) d) eqn:V1; [|done]. intros V2.
  split; [done|]. split; [done|]. split; [by eapply validateReplyTo_Ok|].
  intros ->. by eapply validateReplyTo_Ok.
Qed.

Lemma insertOneInTx_row p rnd now d res d' :
  insertOneInTx p rnd now d = Ok (res, d') ->
  d' = mkDB (db_messages d ++ [new_row p (ir_PublicID res) now d]) (db_seq d + 1)
         (db_agents d) (db_budgets d) (db_presence d) (db_rings d) /\
  ir_Queued res = queue_depth (p_ToAgent p) d' /\
  (forall m, m ∈ db_messages d -> m_PublicID m <> ir_PublicID res).
Proof.
  unfold insertOneInTx. destruct (insert_attempts _ _ _ _ _ _) as [[id d1]|] eqn:E; [|done].
  intros [= <- <-]. apply insert_attempts_shape, exec_insert_Inserted in E as (-> & Hu & _).
  by split.
Qed.

(** The second half of a pair may reply to the first. *)
Lemma pair_reply_known p1 p2 (link : bool) rnd now d res1 d1 :
  insertOneInTx p1 rnd now d = Ok (res1, d1) ->
  (link = false -> reply_known p2 d) ->
  reply_known (if link then with_reply_to (ir_PublicID res1) p2 else p2) d1.
Proof.
  intros (-> & _)%insertOneInTx_row Hr. destruct link; intros Hne; simpl in *.
  - eexists. split; [apply elem_of_app; right; apply list_elem_of_here|done].
  - destruct (Hr eq_refl Hne) as (m & ? & ?). exists m. split; [|done]. set_solver.
Qed.

Lemma InsertMessagePair_shapes p q link r1 r2 r3 r4 now d :
  msg_shapes d (snd (InsertMessagePair p q link r1 r2 r3 r4 now d)).
Proof.
  pose proof (canonical_params_canonical p) as Hp.
  pose proof (canonical_params_canonical q) as Hq.
  unfold InsertMessagePair. cbv zeta.
  destruct (pair_checks _ _ _ _) eqn:Ec; [|apply shapes_refl].
  apply pair_checks_Ok in Ec as (_ & _ & Hr1 & Hr2).
  destruct (checkCapsInTx _ 2 d) as [|e].
  - destruct (insertOneInTx _ r1 now d) as [[res1 d1]|] eqn:E1; [|apply shapes_refl].
    pose proof (pair_reply_known _ _ _ _ _ _ _ _ E1 Hr2) as Hr.
    set (q' := if link then _ else _) in *. assert (Hq' : canonical_p q') by (by destruct link).
    destruct (insertOneInTx q' r2 now d1) as [[res2 d2]|] eqn:E2; [|apply shapes_refl].
    apply insertOneInTx_shape in E1, E2; try done. apply shapes_ring. by eapply shapes_two.
  - destruct (insertRefusedRow _ _ r3 _ _) as [id1 d1] eqn:E1.
    destruct (insertRefusedRow _ _ r4 _ _) as [id2 d2] eqn:E2.
    apply insertRefusedRow_shape in E1, E2; try done. by eapply shapes_two.
Qed.

(** ** Updates *)

Lemma with_state_step (p : Message -> bool) d s :
  (forall m, p m = true -> row_step m (set_m_State s m)) ->
  msg_shape d (snd (update_count p (set_m_State s) d)).
Proof. intros H. eapply shape_update; [|done|done]. intros m _. apply H. Qed.

Lemma to_in_state_true to s m :
  to_in_state to s m = true <-> m_ToAgent m = to /\ m_State m = s.
Proof. unfold to_in_state. by rewrite andb_true_iff, !bool_decide_eq_true. Qed.

Lemma id_in_state_true id s m :
  id_in_state id s m = true <-> m_PublicID m = id /\ m_State m = s.
Proof. unfold id_in_state. by rewrite andb_true_iff, !bool_decide_eq_true. Qed.

Lemma with_id_true id m : with_id id m = true <-> m_ID m = id.
Proof. unfold with_id. apply Z.eqb_eq. Qed.

(** Decompose the row predicates of the statements. *)
Ltac rowsimp :=
  repeat match goal with
  | H : to_in_state _ _ _ = true |- _ => apply to_in_state_true in H as [? ?]
  | H : id_in_state _ _ _ = true |- _ => apply id_in_state_true in H as [? ?]
  | H : with_id _ _ = true |- _ => apply with_id_true in H
  | H : deferred_on _ _ _ = true |- _ => unfold deferred_on in H
  | H : staleQueuedPredicate _ _ = true |- _ => unfold staleQueuedPredicate in H
  | H : id_to_in_state _ _ _ _ = true |- _ => unfold id_to_in_state in H
  | H : reapPredicate _ _ _ _ = true |- _ =>
      unfold reapPredicate, reapableUndeliverablePredicate in H
  | H : claimable _ _ _ = true |- _ => unfold claimable in H
  | _ => progress bsimp
  end.

Lemma PromoteDeferred_shapes agent trigger d :
  msg_shapes d (snd (PromoteDeferred agent trigger d)).
Proof.
  unfold PromoteDeferred, update_count. cbv zeta. simpl. apply shapes_ring, shapes_one.
  apply (with_state_step (deferred_on _ _)). intros m Hm. rowsimp. by apply row_promote.
Qed.

(** The row a claim takes is one of the candidates. *)
Lemma Claim_shape agent strategy d :
  NoDup (map m_ID (db_messages d)) ->
  msg_shape d (snd (ClaimNextWithStrategy agent strategy d)).
Proof.
  intros Hnd. unfold ClaimNextWithStrategy. cbv zeta.
  destruct (selectScheduled _ _) as [id|] eqn:E; [|by apply shape_same].
  destruct (List.find _ _) as [m|] eqn:F; [|by apply shape_same].
  pose proof (selectScheduled_cases strategy
    (map candidate_of (sql_where (claimable (CanonicalName agent) d) (db_messages d)))) as H.
  rewrite E in H. destruct H as (c & [[Hc _] _] & ->).
  apply list_elem_of_In, in_map_iff in Hc as (r & <- & Hr). rewrite <- list_elem_of_In in Hr.
  apply sql_where_elem in Hr as [Hr Hcl].
  apply List.find_some in F as [Hm Hid]. rowsimp. simpl in Hid.
  eapply shape_update; [|done|done]. intros m' Hm' Hid'. rowsimp.
  apply row_claim. rewrite <- list_elem_of_In in Hm.
  assert (m' = r) as ->; [|done]. apply (inj_on_NoDup m_ID (db_messages d)); congruence || done.
Qed.

Lemma exec_delete_shape p d : msg_shape d (snd (exec_delete p d)).
Proof.
  unfold exec_delete. destruct (fk_blocked p (db_messages d)) eqn:E; [by apply shape_same|].
  by eapply shape_delete.
Qed.

(** ** Operations on the agent registry leave the messages alone *)

Lemma update_agent_messages name f d :
  db_messages (snd (update_agent name f d)) = db_messages d /\
  db_seq (snd (update_agent name f d)) = db_seq d.
Proof. unfold update_agent. by destruct (_ !! _). Qed.

Lemma update_agent_shape name f d : msg_shape d (snd (update_agent name f d)).
Proof. destruct (update_agent_messages name f d). by apply shape_same. Qed.
#[export] Hint Resolve update_agent_shape exec_delete_shape : rowdb.

Lemma SetAliases_shape name aliases now d : msg_shape d (snd (SetAliases name aliases now d)).
Proof. unfold SetAliases. destruct (checkAliasCollisions _ _ _); auto with rowdb. Qed.
#[export] Hint Resolve SetAliases_shape : rowdb.

Lemma CountSelfCompact_shape name d : msg_shape d (snd (CountSelfCompactIfNew name d)).
Proof.
  unfold CountSelfCompactIfNew. cbv zeta.
  destruct (_ !! _) as [a|]; [destruct (unseen_signal _ _)|]; by apply shape_same.
Qed.

Lemma PromoteResume_shapes name trigger d :
  msg_shapes d (snd (PromoteResumeOnSelfCompactIfNew name trigger d)).
Proof.
  unfold PromoteResumeOnSelfCompactIfNew. cbv zeta.
  destruct (_ !! _) as [a|]; [|apply shapes_refl].
  destruct (unseen_signal _ _); [|apply shapes_refl].
  set (d1 := set_agents _ d). pose proof (PromoteDeferred_shapes (CanonicalName name) trigger d1) as H.
  destruct (PromoteDeferred _ trigger d1) as [n d2].
  eapply rtc_l; [|exact H]. by apply shape_same.
Qed.

(** An operation that only writes the other tables. *)
Ltac shape_agents :=
  repeat match goal with
  | |- context [if ?b then _ else _] => destruct b
  | |- context [match ?x with _ => _ end] => destruct x
  end; solve [auto with rowdb | by apply shape_same].

Lemma store_step_shapes d d' :
  NoDup (map m_ID (db_messages d)) -> store_step d d' -> msg_shapes d d'.
Proof.
  intros Hnd Hs. destruct Hs;
    try solve [ apply InsertMessage_shapes | apply InsertNotice_shapes
              | apply InsertMessagePair_shapes | apply PromoteDeferred_shapes
              | apply PromoteResume_shapes | by apply shapes_one, Claim_shape
              | apply shapes_one; cbv delta [SetPaused SetPausedAll SetDisplayName SetSessionID
                  SetDeliveryMode SetBacklogEpoch SetAttentionState SetMetabolism
                  ClearMetabolismIfPending SetRespawnAfterShrinks SetRelaunchCmd SetAutoRestart
                  ResetRespawnShrinkCount SetSelfCompactSignal setSelfCompactSignalAt SetStuck
                  ClearStuck setStuckReason SetProvider SetProviderCap SetObservedState SetPresence
                  update_agent_quiet AddAlias GetAgent UpsertAgent DeleteAgent
                  DeleteMessages DeleteMessagesBefore DeleteStrandedDraftsBefore] beta zeta;
                shape_agents ]; apply shapes_one.
  - eapply shape_update; [|done|done]. intros m _ Hm. rowsimp. apply row_deliver; auto.
  - eapply shape_update; [|done|done]. intros m _ Hm. rowsimp. apply row_deliver; auto.
  - eapply shape_update; [|done|done]. intros m _ Hm. rowsimp. by apply row_fail.
  - apply with_state_step. intros m Hm. rowsimp. by apply row_recover.
  - unfold MarkAcknowledged, update_count. simpl.
    assert (H : forall m, id_to_in_state id (CanonicalName agent) StateQueued m = true ->
                  row_step m (set_m_State StateAcknowledged m)).
    { intros m Hm. rowsimp. by apply row_acknowledge. }
    repeat case_match; apply with_state_step; exact H.
  - unfold MarkAcknowledgedBatch. case_match; [by apply shape_same|].
    apply with_state_step. intros m Hm. rowsimp. by apply row_acknowledge.
  - apply with_state_step. intros m Hm. rowsimp. by apply row_acknowledge.
  - eapply shape_update; [|done|done]. intros m _ Hm. rowsimp. by apply row_reap.
  - eapply shape_update; [|done|done]. intros m _ Hm. simpl in Hm. rowsimp. by apply row_dedupe.
  - pose proof (update_agent_messages (CanonicalName name) bump_shrinks d) as [? ?].
    unfold IncrementRespawnShrinkCount. destruct (update_agent _ _ d) as [[|] d1]; simpl in *.
    + destruct (_ !! _); by apply shape_same.
    + by apply shape_same.
  - apply CountSelfCompact_shape.
  - unfold ChargeBudget. case_match; [by apply shape_same|]. by apply shape_same.
  - unfold RefundBudget. repeat case_match; by apply shape_same.
Qed.
