(* ===== verification/Invariants.v ===== *)
(** * The invariant of the store

    [store_wf]: the message rows are in rowid order with unique public ids, every
    [reply_to] points at a row, the NULLable columns agree with the state, every
    agent sits under its canonical name and no two agents share a pane.  Every
    operation preserves it, so it holds in every reachable database. *)

From stdpp Require Import sorting.
From S2P Require Import Prelude GoStd StoreTypes Priority Messages Queue Agents Queries Budget Lifecycle.

Open Scope Z_scope.

(** ** The invariant *)

(** The columns of one row agree with its state. *)
Record row_ok (m : Message) : Prop := {
  ro_from : CanonicalName (m_FromAgent m) = m_FromAgent m;
  ro_to : CanonicalName (m_ToAgent m) = m_ToAgent m;
  ro_verified : m_State m = StateDelivered <-> m_Verified m = Some 0 \/ m_Verified m = Some 1;
  ro_unverified : m_State m <> StateDelivered -> m_Verified m = None;
  ro_delivered_at :
    m_DeliveredAt m <> None <-> m_State m = StateDelivered \/ m_State m = StateFailed;
  ro_error : m_Error m <> None <-> m_State m = StateFailed \/ m_State m = StateRefused;
  ro_deferred : m_State m = StateDeferred -> m_DeliverAfter m <> None
}.

Record messages_wf (d : DB) : Prop := {
  mw_sorted : StronglySorted Z.lt (map m_ID (db_messages d));
  mw_bound : forall m, m ∈ db_messages d -> 1 <= m_ID m <= db_seq d;
  mw_seq : 0 <= db_seq d;
  mw_public : NoDup (map m_PublicID (db_messages d));
  mw_reply : forall m r, m ∈ db_messages d -> m_ReplyTo m = Some r ->
    r <> EmptyString /\
    exists m', m' ∈ db_messages d /\ m_PublicID m' = r /\ m_ID m' < m_ID m;
  mw_rows : forall m, m ∈ db_messages d -> row_ok m
}.

Record agents_wf (ags : gmap string Agent) : Prop := {
  aw_key : forall k a, ags !! k = Some a ->
    a_name a = k /\ CanonicalName k = k /\ k <> EmptyString /\ ReservedRoutingName k = false;
  aw_pane : forall k1 k2 a1 a2 p, ags !! k1 = Some a1 -> ags !! k2 = Some a2 ->
    a_pane_id a1 = Some p -> a_pane_id a2 = Some p -> k1 = k2
}.

Definition store_wf (d : DB) : Prop := messages_wf d /\ agents_wf (db_agents d).

(** ** Sorted id columns *)

Lemma sorted_NoDup l : StronglySorted Z.lt l -> NoDup l.
Proof.
  induction 1 as [|x l Hs IH Hall]; constructor; auto.
  intros Hin. rewrite Forall_forall in Hall. specialize (Hall x Hin). lia.
Qed.

Lemma sorted_snoc l x :
  StronglySorted Z.lt l -> (forall y, y ∈ l -> y < x) -> StronglySorted Z.lt (l ++ [x]).
Proof.
  induction 1 as [|y l Hs IH Hall]; simpl; intros Hx; [repeat constructor|].
  constructor; [apply IH; intros z Hz; apply Hx; set_solver|].
  apply Forall_app. split; [done|]. constructor; [apply Hx; set_solver|constructor].
Qed.

Lemma sorted_where p rows :
  StronglySorted Z.lt (map m_ID rows) -> StronglySorted Z.lt (map m_ID (sql_where p rows)).
Proof.
  induction rows as [|r rows IH]; simpl; [done|]. inversion 1 as [|? ? Hs Hall]; subst.
  destruct (p r); [|by apply IH]. simpl. constructor; [by apply IH|].
  apply Forall_forall. intros z Hz. apply list_elem_of_In, in_map_iff in Hz as (m & <- & Hm).
  rewrite Forall_forall in Hall. apply Hall. rewrite <- list_elem_of_In in Hm.
  apply sql_where_elem in Hm as [Hm _]. apply list_elem_of_In, in_map_iff. exists m.
  by rewrite <- list_elem_of_In.
Qed.

Lemma ids_NoDup d : messages_wf d -> NoDup (map m_ID (db_messages d)).
Proof. intros H. apply sorted_NoDup, H. Qed.

Lemma NoDup_map_where {B} (g : Message -> B) p rows :
  NoDup (map g rows) -> NoDup (map g (sql_where p rows)).
Proof.
  induction rows as [|r rows IH]; simpl; [done|]. intros [Hr Hnd]%NoDup_cons.
  destruct (p r); [|by apply IH]. simpl. apply NoDup_cons. split; [|by apply IH].
  intros Hin. apply Hr. apply list_elem_of_In, in_map_iff in Hin as (m & <- & Hm).
  rewrite <- list_elem_of_In in Hm. apply sql_where_elem in Hm as [Hm _].
  apply list_elem_of_In, in_map_iff. exists m. by rewrite <- list_elem_of_In.
Qed.

(** ** Rows *)

Lemma row_step_ok m m' : row_step m m' -> row_ok m -> row_ok m'.
Proof.
  intros Hs [Hf Ht Hv Hu Hd He Hdef].
  destruct Hs; [by split|..]; split; simpl; try done;
    try (intuition congruence); rewrite ?H in *; intuition congruence.
Qed.

Lemma fresh_row_ok d m : fresh_row d m -> row_ok m.
Proof.
  intros (Hid & Hst & Hf & Ht & Hd & Hv & He & Hdef & _).
  split; try done; try rewrite Hd; try rewrite Hv;
    destruct Hst as [E|[E|E]]; rewrite ?E in *; try (intuition congruence).
  intros _. destruct (Hdef eq_refl) as [t ->]. done.
Qed.

(** An update along [row_step] keeps the key columns. *)
Lemma update_map_same {B} (g : Message -> B) p f rows :
  (forall m m', same_letter m m' -> g m' = g m) ->
  (forall m, m ∈ rows -> p m = true -> row_step m (f m)) ->
  map g (sql_update p f rows) = map g rows.
Proof.
  intros Hg. induction rows as [|r rows IH]; intros H; [done|]. simpl. f_equal.
  - destruct (p r) eqn:E; [|done]. apply Hg, row_step_same_letter, H; [set_solver|done].
  - apply IH. intros m Hm. apply H. set_solver.
Qed.

(** A row of the updated table comes from a row by one transition. *)
Lemma update_origin p f rows m' :
  (forall m, m ∈ rows -> p m = true -> row_step m (f m)) ->
  m' ∈ sql_update p f rows -> exists m, m ∈ rows /\ row_step m m'.
Proof.
  intros H (m & Hm & ->)%sql_update_elem. exists m. split; [done|].
  destruct (p m) eqn:E; [by apply H|apply row_same].
Qed.

Lemma fk_unblocked p rows m c :
  fk_blocked p rows = false -> m ∈ rows -> p m = true ->
  c ∈ rows -> p c = false -> m_ReplyTo c <> Some (m_PublicID m).
Proof.
  unfold fk_blocked. intros H Hm Hp Hc Hpc E.
  enough (Ht : existsb (fun m => p m && existsb (fun c => negb (p c) &&
      bool_decide (m_ReplyTo c = Some (m_PublicID m))) rows) rows = true) by congruence.
  apply existsb_exists. exists m. split; [by apply list_elem_of_In|]. rewrite Hp. simpl.
  apply existsb_exists. exists c. split; [by apply list_elem_of_In|]. rewrite Hpc. simpl.
  by apply bool_decide_eq_true.
Qed.

(** ** Preservation for the message table *)

Lemma shape_update_wf d d' p f :
  (forall m, m ∈ db_messages d -> p m = true -> row_step m (f m)) ->
  db_messages d' = sql_update p f (db_messages d) -> db_seq d' = db_seq d ->
  messages_wf d -> messages_wf d'.
Proof.
  intros H E Es [Hs Hb Hq Hp Hr Hro].
  split; rewrite ?E, ?Es; auto.
  - rewrite (update_map_same m_ID); auto. by intros ? ? (? & _).
  - intros m (m0 & Hm0 & Hst%row_step_same_letter)%update_origin; [|done].
    destruct Hst as (-> & _). auto.
  - rewrite (update_map_same m_PublicID); auto. by intros ? ? (_ & ? & _).
  - intros m r (m0 & Hm0 & (-> & _ & _ & _ & -> & _)%row_step_same_letter)%update_origin Hrm;
      [|done].
    destruct (Hr m0 r Hm0 Hrm) as (Hne & m1 & Hm1 & <- & Hlt). split; [done|].
    exists (if p m1 then f m1 else m1). split; [apply sql_update_elem; eauto|].
    destruct (p m1) eqn:Ep; [|done]. by apply H, row_step_same_letter in Hm1 as (-> & -> & _).
  - intros m (m0 & Hm0 & Hst)%update_origin; [|done]. eapply row_step_ok; eauto.
Qed.

Lemma shape_insert_wf d d' m :
  fresh_row d m -> exec_insert m d = Inserted d' -> messages_wf d -> messages_wf d'.
Proof.
  intros Hf (-> & Hu & _)%exec_insert_Inserted [Hs Hb Hq Hp Hr Hro].
  pose proof Hf as (Hid & _ & _ & _ & _ & _ & _ & _ & Hrep).
  split; simpl; rewrite ?Hid.
  - rewrite map_app. simpl. rewrite Hid. apply sorted_snoc; [done|].
    intros y Hy. apply list_elem_of_In, in_map_iff in Hy as (m0 & <- & Hm0).
    rewrite <- list_elem_of_In in Hm0. apply Hb in Hm0. lia.
  - intros m0 [Hm0| ->%list_elem_of_singleton]%elem_of_app; [apply Hb in Hm0|]; lia.
  - lia.
  - rewrite map_app. apply NoDup_app. repeat split; [done| |apply NoDup_singleton].
    intros x Hx. simpl. rewrite list_elem_of_singleton. intros ->.
    apply list_elem_of_In, in_map_iff in Hx as (m0 & E & Hm0).
    rewrite <- list_elem_of_In in Hm0. by apply (Hu m0).
  - intros m0 r [Hm0| ->%list_elem_of_singleton]%elem_of_app Hr0.
    + destruct (Hr m0 r Hm0 Hr0) as (? & m1 & ? & ? & ?). split; [done|]. exists m1. set_solver.
    + destruct (Hrep r Hr0) as (? & m1 & Hm1 & ?). split; [done|]. exists m1. pose proof (Hb m1 Hm1).
      split; [set_solver|]. split; [done|lia].
  - intros m0 [Hm0| ->%list_elem_of_singleton]%elem_of_app; [auto|]. by eapply fresh_row_ok.
Qed.

Lemma shape_delete_wf d d' p :
  fk_blocked p (db_messages d) = false ->
  db_messages d' = sql_delete p (db_messages d) -> db_seq d' = db_seq d ->
  messages_wf d -> messages_wf d'.
Proof.
  intros Hfk E Es [Hs Hb Hq Hp Hr Hro].
  split; rewrite ?E, ?Es; auto.
  - by apply sorted_where.
  - intros m [Hm _]%sql_delete_elem. auto.
  - by apply NoDup_map_where.
  - intros m r [Hm Hpm]%sql_delete_elem Hrm. destruct (Hr m r Hm Hrm) as (Hne & m1 & Hm1 & <- & Hlt).
    split; [done|]. exists m1. split; [|done]. apply sql_delete_elem. split; [done|].
    destruct (p m1) eqn:Ep; [|done]. by destruct (fk_unblocked p _ m1 m Hfk Hm1 Ep Hm Hpm).
  - intros m [Hm _]%sql_delete_elem. auto.
Qed.

Lemma shapes_wf d d' : msg_shapes d d' -> messages_wf d -> messages_wf d'.
Proof.
  induction 1 as [|x y z Hs _ IH]; [done|]. intros Hw. apply IH.
  destruct Hs as [x y E1 E2|x y p f|x y m|x y p].
  - destruct Hw as [? ? ? ? ? ?]. split; rewrite ?E1, ?E2; auto.
  - by eapply shape_update_wf.
  - by eapply shape_insert_wf.
  - by eapply shape_delete_wf.
Qed.

(** ** Preservation for the agent registry *)

(** A row rewrite that leaves the primary key and the pane alone. *)
Definition keeps_identity (f : Agent -> Agent) : Prop :=
  forall a, a_name (f a) = a_name a /\ a_pane_id (f a) = a_pane_id a.

Lemma agents_wf_alter f (k : string) (ags : gmap string Agent) :
  keeps_identity f -> agents_wf ags -> agents_wf (alter f k ags).
Proof.
  intros Hf [Hk Hp]. split.
  - intros k' a Ha. destruct (decide (k' = k)) as [->|Hne].
    + rewrite lookup_alter_eq in Ha. destruct (ags !! k) as [a0|] eqn:E; [|done].
      injection Ha as <-. destruct (Hf a0) as [-> _]. by apply Hk.
    + rewrite lookup_alter_ne in Ha by done. by apply Hk.
  - intros k1 k2 a1 a2 p H1 H2 Hp1 Hp2.
    assert (Hinv : forall k' a, alter f k ags !! k' = Some a ->
      exists a0, ags !! k' = Some a0 /\ a_pane_id a = a_pane_id a0).
    { intros k' a Ha. destruct (decide (k' = k)) as [->|Hne].
      - rewrite lookup_alter_eq in Ha. destruct (ags !! k) as [a0|]; [|done].
        injection Ha as <-. exists a0. split; [done|]. apply Hf.
      - rewrite lookup_alter_ne in Ha by done. eauto. }
    apply Hinv in H1 as (b1 & H1 & E1), H2 as (b2 & H2 & E2).
    apply (Hp k1 k2 b1 b2 p); congruence.
Qed.

Lemma insert_as_alter (f : Agent -> Agent) (k : string) a (ags : gmap string Agent) :
  ags !! k = Some a -> <[k := f a]> ags = alter f k ags.
Proof.
  intros H. apply map_eq. intros k'. destruct (decide (k' = k)) as [->|Hne].
  - by rewrite lookup_insert_eq, lookup_alter_eq, H.
  - by rewrite lookup_insert_ne, lookup_alter_ne.
Qed.

Lemma agents_wf_fmap f (ags : gmap string Agent) :
  keeps_identity f -> agents_wf ags -> agents_wf (f <$> ags).
Proof.
  intros Hf [Hk Hp]. split.
  - intros k a Ha. apply lookup_fmap_Some in Ha as (a0 & <- & Ha).
    destruct (Hf a0) as [-> _]. by apply Hk.
  - intros k1 k2 a1 a2 p H1 H2 Hp1 Hp2.
    apply lookup_fmap_Some in H1 as (b1 & <- & H1), H2 as (b2 & <- & H2).
    destruct (Hf b1) as [_ E1], (Hf b2) as [_ E2].
    apply (Hp k1 k2 b1 b2 p); congruence.
Qed.

Lemma agents_wf_delete k ags : agents_wf ags -> agents_wf (delete k ags).
Proof.
  intros [Hk Hp]. split.
  - intros k' a [_ Ha]%lookup_delete_Some. by apply Hk.
  - intros k1 k2 a1 a2 p [_ H1]%lookup_delete_Some [_ H2]%lookup_delete_Some.
    by apply (Hp k1 k2 a1 a2 p).
Qed.

(** Clearing the pane from its other holders leaves at most [name] on it. *)
Lemma clear_lookup pane name now ags k a :
  agents_wf ags -> clear_other_holders pane name now ags !! k = Some a ->
  exists a0, ags !! k = Some a0 /\ a_name a = a_name a0 /\
    (a_pane_id a = a_pane_id a0 \/ a_pane_id a = None) /\
    (a_pane_id a = Some pane -> k = name).
Proof.
  intros [Hk Hp] Ha. unfold clear_other_holders in Ha.
  apply lookup_fmap_Some in Ha as (a0 & <- & Ha). exists a0.
  destruct (Hk k a0 Ha) as [En _]. unfold holds_pane.
  destruct (bool_decide (a_pane_id a0 = Some pane)) eqn:E1; simpl;
    [destruct (bool_decide (a_name a0 = name)) eqn:E2; simpl|]; bsimp; auto;
    repeat split; auto; congruence.
Qed.

Lemma clear_pane_free pane name now ags :
  agents_wf ags -> pane_free pane name (clear_other_holders pane name now ags) = true.
Proof.
  intros Hw. unfold pane_free. apply forallb_forall. intros [k a] Hin.
  rewrite <- list_elem_of_In, elem_of_map_to_list in Hin. simpl. unfold holds_pane.
  apply (clear_lookup pane name now ags k a Hw) in Hin as (a0 & _ & _ & _ & H).
  destruct (bool_decide (a_pane_id a = Some pane)) eqn:E; [|done]. bsimp. simpl.
  apply bool_decide_eq_true. auto.
Qed.

Lemma agents_wf_clear pane name now ags :
  agents_wf ags -> agents_wf (clear_other_holders pane name now ags).
Proof.
  intros Hw. pose proof Hw as [Hk Hp]. split.
  - intros k a Ha. apply (clear_lookup _ _ _ _ _ _ Hw) in Ha as (a0 & Ha & -> & _). by apply Hk.
  - intros k1 k2 a1 a2 p H1 H2 Hp1 Hp2.
    apply (clear_lookup _ _ _ _ _ _ Hw) in H1 as (b1 & H1 & _ & [E1|E1] & _),
      H2 as (b2 & H2 & _ & [E2|E2] & _); try congruence.
    apply (Hp k1 k2 b1 b2 p); congruence.
Qed.

Lemma agents_wf_upsert name pane now ags :
  CanonicalName name = name -> name <> EmptyString -> ReservedRoutingName name = false ->
  (forall p k a, pane = Some p -> ags !! k = Some a -> a_pane_id a = Some p -> k = name) ->
  agents_wf ags -> agents_wf (upsert_row name pane now ags).
Proof.
  intros Hc Hne Hr Hfree [Hk Hp]. unfold upsert_row.
  set (a' := match ags !! name with
             | None => new_agent name pane now
             | Some a => match pane with
                         | None => set_a_updated_at now a
                         | Some _ => set_a_pane_id pane (set_a_updated_at now a)
                         end
             end).
  assert (E : match ags !! name with
              | None => <[name := new_agent name pane now]> ags
              | Some a => <[name := match pane with
                                    | None => set_a_updated_at now a
                                    | Some _ => set_a_pane_id pane (set_a_updated_at now a)
                                    end]> ags
              end = <[name := a']> ags) by (unfold a'; by destruct (ags !! name)).
  rewrite E. clear E.
  assert (Hn : a_name a' = name).
  { unfold a'. destruct (ags !! name) as [a|] eqn:E; [|done]. apply Hk in E as [? _].
    by destruct pane. }
  assert (Hpn : forall k a p, a_pane_id a' = Some p -> ags !! k = Some a ->
            a_pane_id a = Some p -> k = name).
  { unfold a'. intros k a p Hp' Ha Hpa. destruct (ags !! name) as [b|] eqn:E;
      destruct pane as [q|]; simpl in Hp'; try discriminate Hp'.
    - injection Hp' as ->. by apply (Hfree p k a).
    - by apply (Hp k name a b p).
    - injection Hp' as ->. by apply (Hfree p k a). }
  split.
  - intros k a [[<- <-]|[? Ha]]%lookup_insert_Some; [done|by apply Hk].
  - intros k1 k2 a1 a2 p [[<- <-]|[? H1]]%lookup_insert_Some [[<- <-]|[? H2]]%lookup_insert_Some
      P1 P2; [done| | |by apply (Hp k1 k2 a1 a2 p)].
    + symmetry. by apply (Hpn k2 a2 p).
    + by apply (Hpn k1 a1 p).
Qed.

Lemma UpsertAgent_wf name pane now d :
  agents_wf (db_agents d) -> agents_wf (db_agents (snd (UpsertAgent name pane now d))).
Proof.
  intros Hw. unfold UpsertAgent. cbv zeta.
  destruct (bool_decide (CanonicalName name = EmptyString)) eqn:E1; [done|].
  destruct (ReservedRoutingName (CanonicalName name)) eqn:E2; [done|]. bsimp.
  destruct (bool_decide (pane = EmptyString)).
  - simpl. apply agents_wf_upsert; auto using CanonicalName_idem_aux. by intros p k a [=].
  - rewrite clear_pane_free by done. simpl.
    apply agents_wf_upsert; auto using CanonicalName_idem_aux, agents_wf_clear.
    intros p k a [= <-] Ha Hp.
    apply (clear_lookup _ _ _ _ _ _ Hw) in Ha as (a0 & _ & _ & _ & H). auto.
Qed.

(** ** The other operations *)

Lemma update_agent_wf name f d :
  keeps_identity f -> agents_wf (db_agents d) ->
  agents_wf (db_agents (snd (update_agent name f d))).
Proof.
  intros Hf Hw. unfold update_agent. destruct (_ !! _) as [a|] eqn:E; [|done].
  simpl. rewrite insert_as_alter by done. by apply agents_wf_alter.
Qed.

Lemma insertOneInTx_agents p rnd now d res d' :
  insertOneInTx p rnd now d = Ok (res, d') -> db_agents d' = db_agents d.
Proof.
  unfold insertOneInTx. destruct (insert_attempts _ _ _ _ _ _) as [[id d1]|] eqn:E; [|done].
  intros [= _ <-]. by apply insert_attempts_shape, exec_insert_Inserted in E as (-> & _).
Qed.

Lemma insertRefusedRow_agents p reason rnd now d :
  db_agents (snd (insertRefusedRow p reason rnd now d)) = db_agents d.
Proof.
  unfold insertRefusedRow.
  destruct (refused_attempts_shape publicIDRetryAttempts 0 p reason rnd now d)
    as [->|(id & d' & -> & Hi)]; [done|].
  by apply exec_insert_Inserted in Hi as (-> & _).
Qed.

Lemma InsertMessage_agents p rnd rndR now d :
  db_agents (snd (InsertMessage p rnd rndR now d)) = db_agents d.
Proof.
  unfold InsertMessage. cbv zeta. destruct (validateInsertParams _); [|done].
  destruct (validateReplyTo _ _); [|done]. set (p' := if str_empty _ then _ else _).
  destruct (checkCapsInTx p' 1 d) as [|e].
  - destruct (insertOneInTx p' rnd now d) as [[res d']|] eqn:E; [|done].
    apply insertOneInTx_agents in E. simpl. case_match; by autorewrite with sqldb.
  - pose proof (insertRefusedRow_agents p' (error_text e) rndR now d) as H.
    by destruct (insertRefusedRow _ _ _ _ _).
Qed.

Lemma InsertNotice_agents p rnd now d :
  db_agents (snd (InsertNotice p rnd now d)) = db_agents d.
Proof.
  unfold InsertNotice. cbv zeta. destruct (validateInsertParams _); [|done].
  destruct (validateReplyTo _ _); [|done].
  destruct (insertOneInTx _ _ _ _) as [[res d']|] eqn:E; [|done].
  apply insertOneInTx_agents in E. simpl. by autorewrite with sqldb.
Qed.

Lemma InsertMessagePair_agents p q link r1 r2 r3 r4 now d :
  db_agents (snd (InsertMessagePair p q link r1 r2 r3 r4 now d)) = db_agents d.
Proof.
  unfold InsertMessagePair. cbv zeta. destruct (pair_checks _ _ _ _); [|done].
  destruct (checkCapsInTx _ 2 d) as [|e].
  - destruct (insertOneInTx _ r1 now d) as [[res1 d1]|] eqn:E1; [|done].
    destruct (insertOneInTx _ r2 now d1) as [[res2 d2]|] eqn:E2; [|done].
    apply insertOneInTx_agents in E1, E2. simpl.
    case_match; autorewrite with sqldb; congruence.
  - destruct (insertRefusedRow _ _ r3 _ _) as [id1 d1] eqn:E1.
    destruct (insertRefusedRow _ _ r4 _ d1) as [id2 d2] eqn:E2.
    apply (f_equal snd) in E1, E2. simpl in *. subst.
    by rewrite !insertRefusedRow_agents.
Qed.

Lemma PromoteDeferred_agents agent trigger d :
  db_agents (snd (PromoteDeferred agent trigger d)) = db_agents d.
Proof. unfold PromoteDeferred. simpl. case_match; by autorewrite with sqldb. Qed.

Lemma SetAliases_wf name aliases now d :
  agents_wf (db_agents d) -> agents_wf (db_agents (snd (SetAliases name aliases now d))).
Proof.
  intros Hw. unfold SetAliases. cbv zeta. destruct (checkAliasCollisions _ _ _); [|done].
  by apply update_agent_wf.
Qed.

Lemma self_compact_wf name d :
  agents_wf (db_agents d) -> agents_wf (db_agents (snd (CountSelfCompactIfNew name d))).
Proof.
  intros Hw. unfold CountSelfCompactIfNew. cbv zeta.
  destruct (_ !! _) as [a|] eqn:E; [|done]. destruct (unseen_signal _ _); [|done]. simpl.
  rewrite (insert_as_alter (fun a => set_a_self_compact_counted_at
    (a_last_self_compact_at a) (bump_shrinks a))) by done.
  by apply agents_wf_alter.
Qed.

Lemma promote_resume_wf name trigger d :
  agents_wf (db_agents d) ->
  agents_wf (db_agents (snd (PromoteResumeOnSelfCompactIfNew name trigger d))).
Proof.
  intros Hw. unfold PromoteResumeOnSelfCompactIfNew. cbv zeta.
  destruct (_ !! _) as [a|] eqn:E; [|done]. destruct (unseen_signal _ _); [|done].
  set (d1 := set_agents _ d). pose proof (PromoteDeferred_agents (CanonicalName name) trigger d1) as H.
  destruct (PromoteDeferred _ trigger d1) as [n d2]. simpl in *. rewrite H. unfold d1. simpl.
  rewrite (insert_as_alter (fun a => set_a_resume_promoted_at (a_last_self_compact_at a) a)) by done.
  by apply agents_wf_alter.
Qed.

Lemma update_agent_quiet_wf name f d :
  keeps_identity f -> agents_wf (db_agents d) ->
  agents_wf (db_agents (update_agent_quiet name f d)).
Proof. intros Hf Hw. by apply agents_wf_alter. Qed.

(** Column writes keep the identity of a row. *)
Ltac keeps := intros ?a; repeat case_match; split; reflexivity.

Lemma store_step_agents d d' :
  store_step d d' -> agents_wf (db_agents d) -> agents_wf (db_agents d').
Proof.
  intros Hs Hw. destruct Hs;
    try (rewrite ?InsertMessage_agents, ?InsertNotice_agents, ?InsertMessagePair_agents,
           ?PromoteDeferred_agents; exact Hw);
    try exact Hw;
    try solve [apply update_agent_wf; [keeps|exact Hw]
              | apply update_agent_quiet_wf; [keeps|exact Hw]].
  - unfold ClaimNextWithStrategy. cbv zeta. repeat case_match; exact Hw.
  - unfold MarkAcknowledged, update_count. cbv zeta. repeat case_match; simplify_eq; exact Hw.
  - unfold MarkAcknowledgedBatch. cbv zeta. case_match; exact Hw.
  - unfold DeleteMessages, exec_delete. cbv zeta. repeat case_match; exact Hw.
  - unfold DeleteMessagesBefore, exec_delete. cbv zeta. repeat case_match; exact Hw.
  - unfold DeleteStrandedDraftsBefore, exec_delete. cbv zeta. repeat case_match; exact Hw.
  - by apply UpsertAgent_wf.
  - unfold DeleteAgent. cbv zeta. case_match; [by apply agents_wf_delete|exact Hw].
  - apply agents_wf_fmap; [keeps|exact Hw].
  - unfold SetDeliveryMode. case_match; [exact Hw|apply update_agent_wf; [keeps|exact Hw]].
  - unfold SetAttentionState. case_match; [exact Hw|apply update_agent_wf; [keeps|exact Hw]].
  - unfold SetMetabolism. case_match; [exact Hw|].
    apply update_agent_wf; [case_match; keeps|exact Hw].
  - unfold SetRespawnAfterShrinks. case_match; [exact Hw|apply update_agent_wf; [keeps|exact Hw]].
  - assert (H : agents_wf (db_agents (snd (update_agent (CanonicalName name) bump_shrinks d))))
      by (apply update_agent_wf; [keeps|exact Hw]).
    unfold IncrementRespawnShrinkCount. destruct (update_agent _ _ d) as [[|] d1]; simpl in *;
      [destruct (_ !! _)|]; exact H.
  - by apply self_compact_wf.
  - by apply promote_resume_wf.
  - unfold SetStuck, setStuckReason. case_match; [exact Hw|apply update_agent_wf; [keeps|exact Hw]].
  - by apply SetAliases_wf.
  - unfold AddAlias. repeat case_match; try exact Hw. by apply SetAliases_wf.
  - unfold ChargeBudget. cbv zeta. case_match; exact Hw.
  - unfold RefundBudget. cbv zeta. repeat case_match; exact Hw.
  - unfold SetPresence. case_match; exact Hw.
Qed.

Lemma store_step_wf d d' : store_step d d' -> store_wf d -> store_wf d'.
Proof.
  intros Hs [Hm Ha]. split; [|by eapply store_step_agents].
  eapply shapes_wf; [|exact Hm]. apply store_step_shapes; [by apply ids_NoDup|done].
Qed.

Lemma store_steps_wf d d' : store_steps d d' -> store_wf d -> store_wf d'.
Proof. induction 1; eauto using store_step_wf. Qed.

Lemma empty_db_wf : store_wf empty_db.
Proof.
  split; split; simpl; try done; try constructor; intros; by apply elem_of_nil in H || done.
Qed.

(** ** Histories of a row *)

(** What any sequence of operations keeps of the rows they leave behind. *)
Definition aged (d d' : DB) : Prop :=
  db_seq d <= db_seq d' /\
  forall m', m' ∈ db_messages d' ->
    (exists m, m ∈ db_messages d /\ rtc row_step m m') \/ db_seq d < m_ID m'.

Lemma aged_refl d : aged d d.
Proof. split; [lia|]. intros m Hm. left. exists m. split; [done|apply rtc_refl]. Qed.

Lemma rtc_row_same_letter m m' : rtc row_step m m' -> same_letter m m'.
Proof.
  induction 1 as [|a b c H _ IH]; [repeat split|].
  eapply same_letter_trans; [by apply row_step_same_letter|done].
Qed.

Lemma aged_trans a b c : aged a b -> aged b c -> aged a c.
Proof.
  intros [Hs1 H1] [Hs2 H2]. split; [lia|]. intros m3 Hm3.
  destruct (H2 m3 Hm3) as [(m2 & Hm2 & H23)|Hlt]; [|right; lia].
  destruct (H1 m2 Hm2) as [(m1 & Hm1 & H12)|Hlt].
  - left. exists m1. split; [done|]. by etrans.
  - right. apply rtc_row_same_letter in H23 as [-> _]. lia.
Qed.

Lemma shape_aged d d' : msg_shape d d' -> aged d d'.
Proof.
  intros [x y E1 E2|x y p f H E1 E2|x y m Hf Hi|x y p _ E1 E2].
  - split; [lia|]. rewrite E1. intros m Hm. left. exists m. split; [done|apply rtc_refl].
  - split; [lia|]. rewrite E1. intros m (m0 & Hm0 & Hs)%update_origin; [|done].
    left. exists m0. split; [done|by apply rtc_once].
  - apply exec_insert_Inserted in Hi as (-> & _ & _). destruct Hf as [Hid _].
    split; simpl; [lia|]. intros m0 [Hm0| ->%list_elem_of_singleton]%elem_of_app.
    + left. exists m0. split; [done|apply rtc_refl].
    + right. lia.
  - split; [lia|]. rewrite E1. intros m [Hm _]%sql_delete_elem.
    left. exists m. split; [done|apply rtc_refl].
Qed.

Lemma shapes_aged d d' : msg_shapes d d' -> aged d d'.
Proof.
  induction 1; [apply aged_refl|]. eapply aged_trans; [by apply shape_aged|done].
Qed.

Lemma steps_aged d d' : store_steps d d' -> store_wf d -> aged d d'.
Proof.
  induction 1 as [|x y z Hs _ IH]; intros Hw; [apply aged_refl|].
  eapply aged_trans; [|apply IH; by eapply store_step_wf].
  apply shapes_aged, store_step_shapes; [apply ids_NoDup, Hw|done].
Qed.

(** A terminal row only ever gets its paste verified. *)
Lemma terminal_rows m m' :
  rtc row_step m m' -> terminal (m_State m) = true ->
  m' = m \/ (m_State m = StateDelivered /\ m_Verified m = Some 0 /\
             m' = set_m_Verified (Some 1) m).
Proof.
  induction 1 as [|a b c H _ IH]; [by left|]. intros Ht.
  destruct H; try (rewrite H in Ht; done); [by apply IH|]. simpl in IH.
  destruct (IH Ht) as [->|(_ & ? & _)]; [by right|done].
Qed.

(** A row that is or was deferred reaches the queue only by promotion. *)
Lemma refused_stays m m' : rtc row_step m m' -> m_State m = StateRefused -> m' = m.
Proof.
  intros H E. destruct (terminal_rows m m' H) as [|(? & _)]; [by rewrite E|done|congruence].
Qed.

(** ** Properties *)

(** C4: in every database the store's operations can produce, in any order and
    with any arguments, ids grow in rowid order and never exceed the AUTOINCREMENT
    counter, public ids are unique, every [reply_to] names an older row, the NULLable
    columns agree with the lifecycle state, every agent is filed under its
    canonical, non-reserved name, and no two agents hold the same pane. *)
Theorem store_invariant d : reachable d -> store_wf d.
Proof. intros H. eapply store_steps_wf; [exact H|apply empty_db_wf]. Qed.

(** C5: delivery states are absorbing.  Whatever the store does later, a row that
    was delivered, failed, acknowledged or refused is either deleted or still the
    same row; the only thing that can happen to it is that dedupe verifies an
    unverified delivery.  And a row's letter (sender, recipient, body, kind,
    reply_to, timestamps of creation and deferral) never changes. *)
Theorem message_lifecycle d d' m m' :
  store_wf d -> store_steps d d' -> m ∈ db_messages d -> m' ∈ db_messages d' ->
  m_ID m' = m_ID m ->
  same_letter m m' /\
  (terminal (m_State m) = true ->
     m' = m \/ (m_State m = StateDelivered /\ m_Verified m = Some 0 /\
                m' = set_m_Verified (Some 1) m)).
Proof.
  intros Hw Hs Hm Hm' Hid. destruct (steps_aged d d' Hs Hw) as [_ H].
  destruct Hw as [Hw _].
  destruct (H m' Hm') as [(m0 & Hm0 & Hr)|Hlt].
  - assert (m0 = m) as ->.
    { apply (inj_on_NoDup m_ID (db_messages d)); auto using ids_NoDup.
      apply rtc_row_same_letter in Hr as [E _]. congruence. }
    split; [by apply rtc_row_same_letter|]. by apply terminal_rows.
  - apply (mw_bound d Hw) in Hm. lia.
Qed.

(** ** Witnesses *)



(** One queued message, then claimed, then delivered. *)
Definition db_one : DB :=
  snd (InsertMessage (simple_params "Alice" "bob" "hello" None) (entropy 1) (entropy 9) t0 empty_db).
Definition db_claimed : DB := snd (ClaimNextWithStrategy "bob" StrategyMaxPriority db_one).
Definition db_done : DB := snd (MarkDeliveredInInputBox "0001" t1 db_claimed).
Definition db_verified : DB := snd (MarkVerifiedByDedupe "0001" db_done).

Lemma store_invariant_witness : reachable db_done /\ store_wf db_done.
Proof.
  assert (H : reachable db_done).
  { eapply rtc_l; [apply (step_InsertMessage empty_db)|]. eapply rtc_l; [apply step_Claim|].
    eapply rtc_l; [apply step_MarkDeliveredInInputBox|]. apply rtc_refl. }
  split; [exact H|]. exact (store_invariant db_done H).
Defined.

Definition row_done : Message :=
  mkMessage 1 "0001" "alice" "bob" None "hello" KindMessage false false StateDelivered
    t0 (Some t1) None None None None (Some 0) false 20 false.

Lemma db_done_rows : db_messages db_done = [row_done].
Proof. vm_compute. reflexivity. Qed.

Lemma db_verified_rows : db_messages db_verified = [set_m_Verified (Some 1) row_done].
Proof. vm_compute. reflexivity. Qed.

Lemma db_done_wf : store_wf db_done.
Proof.
  eapply store_steps_wf; [|apply empty_db_wf].
  eapply rtc_l; [apply (step_InsertMessage empty_db)|]. eapply rtc_l; [apply step_Claim|].
  eapply rtc_l; [apply step_MarkDeliveredInInputBox|]. apply rtc_refl.
Qed.

Lemma message_lifecycle_witness :
  store_steps db_done db_verified /\ same_letter row_done (set_m_Verified (Some 1) row_done).
Proof.
  assert (Hs : store_steps db_done db_verified) by (apply rtc_once, step_MarkVerifiedByDedupe).
  split; [exact Hs|].
  apply (message_lifecycle db_done db_verified row_done (set_m_Verified (Some 1) row_done) db_done_wf Hs).
  - rewrite db_done_rows. apply list_elem_of_here.
  - rewrite db_verified_rows. apply list_elem_of_here.
  - reflexivity.
Defined.
