(* ===== verification/QueueProps.v ===== *)
(** * Correctness of the queue: admission, claiming, recovery, floors

    What an insert admits and refuses under the caps, what a claim returns, and
    that recovery, backlog floors and acknowledgement do what the mailman needs. *)

From stdpp Require Import sorting.
From S2P Require Import Prelude GoStd StoreTypes Priority Messages Queue Agents Queries Lifecycle Invariants.

Open Scope Z_scope.

(** ** Admission *)

Lemma sql_count_snoc {R} p (rows : list R) r :
  sql_count p (rows ++ [r]) = sql_count p rows + (if p r then 1 else 0).
Proof. rewrite sql_count_app. unfold sql_count. simpl. by destruct (p r). Qed.

Lemma caps_recipient p n d u :
  checkCapsInTx p n d = Ok u -> 0 < p_MaxRecipientQueue p ->
  queue_depth (p_ToAgent p) d + n <= effective_cap p d.
Proof.
  unfold checkCapsInTx. cbv zeta. intros H Hp.
  destruct (0 <? p_MaxRecipientQueue p) eqn:E; bsimp; [|lia].
  destruct (effective_cap p d <? _) eqn:E2; [done|]. by bsimp.
Qed.

Lemma caps_sender p n d u :
  checkCapsInTx p n d = Ok u -> 0 < p_MaxSenderBacklog p ->
  pair_backlog (p_FromAgent p) (p_ToAgent p) d + n <= p_MaxSenderBacklog p.
Proof.
  unfold checkCapsInTx. cbv zeta. intros H Hp.
  destruct (if 0 <? p_MaxRecipientQueue p then _ else _); [|done].
  destruct (0 <? p_MaxSenderBacklog p) eqn:E; bsimp; [|lia].
  destruct (p_MaxSenderBacklog p <? _) eqn:E2; [done|]. by bsimp.
Qed.

(** The error of a full queue is one of the two cap sentinels. *)
Lemma caps_error p n d e :
  checkCapsInTx p n d = Err e ->
  errors_Is e ErrRecipientQueueFull = true \/ errors_Is e ErrSenderBacklogFull = true.
Proof.
  unfold checkCapsInTx. cbv zeta.
  destruct (0 <? p_MaxRecipientQueue p).
  - destruct (effective_cap p d <? _); [intros [= <-]; by left|].
    destruct (0 <? p_MaxSenderBacklog p); [|done]. case_match; [intros [= <-]; by right|done].
  - destruct (0 <? p_MaxSenderBacklog p); [|done]. case_match; [intros [= <-]; by right|done].
Qed.

(** Wrapping a cap error keeps the sentinel reachable. *)
Lemma cap_rejection_Is id p n d e :
  checkCapsInTx p n d = Err e ->
  errors_Is (cap_rejection id e) ErrRecipientQueueFull = true \/
  errors_Is (cap_rejection id e) ErrSenderBacklogFull = true.
Proof.
  unfold checkCapsInTx. cbv zeta.
  destruct (0 <? p_MaxRecipientQueue p).
  - destruct (effective_cap p d <? _); [intros [= <-]; by left|].
    destruct (0 <? p_MaxSenderBacklog p); [|done]. case_match; [intros [= <-]; by right|done].
  - destruct (0 <? p_MaxSenderBacklog p); [|done]. case_match; [intros [= <-]; by right|done].
Qed.

(** The refused record: appended or not, never a queued row. *)
Lemma insertRefusedRow_row p reason rnd now d :
  insertRefusedRow p reason rnd now d = (EmptyString, d) \/
  exists id, insertRefusedRow p reason rnd now d =
    (id, mkDB (db_messages d ++ [refused_row p reason id now d]) (db_seq d + 1)
           (db_agents d) (db_budgets d) (db_presence d) (db_rings d)).
Proof.
  unfold insertRefusedRow.
  destruct (refused_attempts_shape publicIDRetryAttempts 0 p reason rnd now d)
    as [?|(id & d' & -> & Hi)]; [by left|right].
  apply exec_insert_Inserted in Hi as (-> & _). by exists id.
Qed.

(** What the caller of [InsertMessage] sees of the row it asked for. *)
Definition admitted (p : InsertParams) (res : InsertResult) (now : string) (d d' : DB) : Prop :=
  let to := p_ToAgent p in
  let row := new_row p (ir_PublicID res) now d in
  db_messages d' = db_messages d ++ [row] /\ db_agents d' = db_agents d /\
  ir_Queued res = queue_depth to d' /\
  (p_DeliverAfter p = EmptyString ->
     m_State row = StateQueued /\ queue_depth to d' = queue_depth to d + 1 /\
     (0 < p_MaxRecipientQueue p -> queue_depth to d' <= effective_cap p d) /\
     (0 < p_MaxSenderBacklog p ->
        pair_backlog (p_FromAgent p) to d' <= p_MaxSenderBacklog p) /\
     db_rings d' = db_rings d ++ [to]) /\
  (p_DeliverAfter p <> EmptyString ->
     m_State row = StateDeferred /\ queue_depth to d' = queue_depth to d /\
     db_rings d' = db_rings d).

(** What a failed insert leaves behind: nothing, or one refused row. *)
Definition refused (p : InsertParams) (e : error) (now : string) (d d' : DB) : Prop :=
  (forall to, queue_depth to d' = queue_depth to d) /\
  db_agents d' = db_agents d /\ db_rings d' = db_rings d /\
  (d' = d \/
   exists id reason,
     db_messages d' = db_messages d ++ [refused_row p reason id now d] /\
     exists cause, e = CapRejectionError id reason cause /\
       (errors_Is e ErrRecipientQueueFull = true \/ errors_Is e ErrSenderBacklogFull = true)).

Lemma queue_depth_snoc to rows r d' :
  db_messages d' = rows ++ [r] ->
  queue_depth to d' = sql_count (to_in_state to StateQueued) rows +
    (if to_in_state to StateQueued r then 1 else 0).
Proof. unfold queue_depth. intros ->. apply sql_count_snoc. Qed.

Lemma new_row_admitted p rnd now d res d1 u :
  insertOneInTx p rnd now d = Ok (res, d1) -> p_ToAgent p <> EmptyString ->
  (p_DeliverAfter p = EmptyString -> checkCapsInTx p 1 d = Ok u) ->
  admitted p res now d
    (if bool_decide (p_DeliverAfter p = EmptyString) then fireNotify (p_ToAgent p) d1 else d1).
Proof.
  intros (E & Hq & Hu)%insertOneInTx_row Hto Hcap. unfold admitted. cbv zeta.
  assert (Em : db_messages d1 = db_messages d ++ [new_row p (ir_PublicID res) now d])
    by (by rewrite E).
  assert (Ea : db_agents d1 = db_agents d) by (by rewrite E).
  assert (Er : db_rings d1 = db_rings d) by (by rewrite E).
  clear E. case_bool_decide as Hd.
  - unfold queue_depth, pair_backlog in *. autorewrite with sqldb.
    repeat (split; [done|]). split; [|done]. intros _. simpl. rewrite bool_decide_true by done.
    assert (Hin : to_in_state (p_ToAgent p) StateQueued (new_row p (ir_PublicID res) now d) = true).
    { apply to_in_state_true. simpl. by rewrite bool_decide_true. }
    assert (Hft : from_to_in_state (p_FromAgent p) (p_ToAgent p) StateQueued
                    (new_row p (ir_PublicID res) now d) = true).
    { unfold from_to_in_state. rewrite Hin. simpl. by rewrite bool_decide_true. }
    split; [done|]. rewrite Em, !sql_count_snoc, Hin, Hft.
    split; [done|]. split; [|split].
    + intros Hp. by apply (caps_recipient p 1 d u); [apply Hcap|].
    + intros Hp. by apply (caps_sender p 1 d u); [apply Hcap|].
    + unfold fireNotify. rewrite bool_decide_false by done. simpl. by rewrite Er.
  - repeat (split; [done|]). intros _. simpl. rewrite bool_decide_false by done.
    split; [done|]. split; [|done]. unfold queue_depth. rewrite Em, sql_count_snoc.
    unfold to_in_state. simpl. rewrite (bool_decide_false _ Hd), andb_false_r. lia.
Qed.

Lemma refused_row_refused p n rnd now d id d' e :
  checkCapsInTx p n d = Err e ->
  insertRefusedRow p (error_text e) rnd now d = (id, d') ->
  refused p (cap_rejection id e) now d d'.
Proof.
  intros Hc Hi. pose proof (cap_rejection_Is id _ _ _ _ Hc) as His.
  destruct (insertRefusedRow_row p (error_text e) rnd now d) as [E|(id2 & E)];
    rewrite E in Hi; injection Hi as <- <-; split; try done; auto.
  - intros to. rewrite (queue_depth_snoc to (db_messages d) (refused_row p (error_text e) id2 now d))
      by done. unfold to_in_state at 2. simpl. rewrite andb_false_r. unfold queue_depth. lia.
  - repeat (split; [done|]). right. exists id2, (error_text e). split; [done|].
    exists (default e (errors_Unwrap e)). split; [done|exact His].
Qed.

Lemma validate_names p u :
  validateInsertParams p = Ok u -> p_ToAgent p <> EmptyString.
Proof.
  unfold validateInsertParams. case_bool_decide; [done|].
  destruct (str_empty (p_FromAgent p) || _) eqn:E; [done|]. by bsimp.
Qed.

(** The parameters the transaction sees: canonical names, no caps on deferrals. *)
Definition effective_params (p : InsertParams) : InsertParams :=
  if str_empty (p_DeliverAfter p) then canonical_params p else with_caps 0 0 (canonical_params p).

(** The collision-retry loop finds the first unused id. *)
Lemma insert_attempts_total p rnd now d :
  reply_known p d ->
  forall n i k id, (k < n)%nat ->
  (forall j, (j < k)%nat -> is_Some (generatePublicID (rnd (i + j)%nat))) ->
  generatePublicID (rnd (i + k)%nat) = Some id ->
  (forall m, m ∈ db_messages d -> m_PublicID m <> id) ->
  exists id' d', insert_attempts n i p rnd now d = Ok (id', d').
Proof.
  intros Hr. induction n as [|n IH]; intros i k id Hk Hj Hid Hfree; [lia|]. simpl.
  assert (Hg : is_Some (generatePublicID (rnd i))).
  { destruct k as [|k]; [rewrite Nat.add_0_r in Hid; by eexists|].
    specialize (Hj 0%nat). rewrite Nat.add_0_r in Hj. apply Hj. lia. }
  destruct Hg as [c Hc]. rewrite Hc.
  destruct (exec_insert (new_row p c now d) d) as [d'| |] eqn:E; [eauto| |].
  - destruct k as [|k].
    + rewrite Nat.add_0_r, Hc in Hid. injection Hid as ->. unfold exec_insert in E.
      destruct (sql_exists _ _) eqn:Ex; [|simpl in E; repeat case_match; congruence].
      apply sql_exists_true in Ex as (m & Hm & Hm'). unfold has_public_id in Hm'. bsimp.
      by destruct (Hfree m Hm).
    + apply (IH (S i) k id); [lia| |by replace (S i + k)%nat with (i + S k)%nat by lia|done].
      intros j Hlt. replace (S i + j)%nat with (i + S j)%nat by lia. apply Hj. lia.
  - exfalso. unfold exec_insert in E. destruct (sql_exists _ _); [done|].
    destruct (m_ReplyTo (new_row p c now d)) as [r|] eqn:Er; [|done].
    unfold new_row, null_if_empty in Er. simpl in Er. case_bool_decide; [done|].
    injection Er as <-. destruct (Hr ltac:(done)) as (m & Hm & Hid').
    destruct (sql_exists (has_public_id _) _) eqn:Ex; [done|].
    rewrite sql_exists_false in Ex. specialize (Ex m ltac:(set_solver)).
    unfold has_public_id in Ex. by bsimp.
Qed.

(** ** Properties of inserts *)

(** What an insert does, seen by everything built on it. *)
Lemma InsertMessage_outcome p rnd rndR now d :
  match InsertMessage p rnd rndR now d with
  | (Ok res, d') => admitted (effective_params p) res now d d'
  | (Err e, d') => refused (effective_params p) e now d d'
  end.
Proof.
  assert (Hsame : forall q e, refused q e now d d) by (repeat split; auto).
  unfold InsertMessage. cbv zeta.
  destruct (validateInsertParams _) eqn:Ev; [|done].
  destruct (validateReplyTo _ _); [|done].
  change (if str_empty (p_DeliverAfter (canonical_params p)) then canonical_params p
          else with_caps 0 0 (canonical_params p)) with (effective_params p).
  assert (Hto : p_ToAgent (effective_params p) <> EmptyString).
  { apply validate_names in Ev. unfold effective_params. by case_bool_decide. }
  destruct (checkCapsInTx (effective_params p) 1 d) eqn:Ec.
  - destruct (insertOneInTx _ rnd now d) as [[res d1]|] eqn:E; [|done].
    eapply new_row_admitted; eauto.
  - destruct (insertRefusedRow _ _ _ _ _) as [id d'] eqn:Er. by eapply refused_row_refused.
Qed.

Lemma InsertMessage_budgets p rnd rndR now d :
  db_budgets (snd (InsertMessage p rnd rndR now d)) = db_budgets d.
Proof.
  unfold InsertMessage. cbv zeta. destruct (validateInsertParams _); [|done].
  destruct (validateReplyTo _ _); [|done]. set (p' := if str_empty _ then _ else _).
  destruct (checkCapsInTx p' 1 d).
  - destruct (insertOneInTx p' rnd now d) as [[res d1]|] eqn:E; [|done].
    apply insertOneInTx_row in E as (-> & _). simpl. unfold fireNotify. by repeat case_match.
  - destruct (insertRefusedRow_row p' (error_text e) rndR now d) as [->|(id & ->)]; done.
Qed.

(** C8: the cap discipline of [InsertMessage].  An accepted message is exactly one
    new row for the canonical sender and recipient; unless deferred it is queued,
    rings the recipient, raises the recipient's depth by one, and leaves the
    depth within the (provider-floored) recipient cap and the pair's backlog
    within the sender cap.  A rejected one queues nothing for anybody: it leaves
    the database alone or keeps one refused row, whose handle and reason the
    returned error carries together with the cap sentinel. *)
Theorem InsertMessage_caps p rnd rndR now d :
  match InsertMessage p rnd rndR now d with
  | (Ok res, d') => admitted (effective_params p) res now d d'
  | (Err e, d') => refused (effective_params p) e now d d'
  end.
Proof. apply InsertMessage_outcome. Qed.

(** Admission is total.  A message with a body, non-empty names and an
    existing reply target that fits both caps is inserted as soon as one of the
    twenty random public ids is unused; the retry loop never gives up early. *)
Theorem InsertMessage_accepts p rnd rndR now d k id :
  validateInsertParams (canonical_params p) = Ok tt ->
  validateReplyTo (p_ReplyTo p) d = Ok tt ->
  checkCapsInTx (effective_params p) 1 d = Ok tt ->
  (k < publicIDRetryAttempts)%nat ->
  (forall j, (j <= k)%nat -> is_Some (rnd j)) ->
  generatePublicID (rnd k) = Some id ->
  (forall m, m ∈ db_messages d -> m_PublicID m <> id) ->
  exists res d', InsertMessage p rnd rndR now d = (Ok res, d').
Proof.
  intros Hv Hr Hc Hk Hj Hid Hfree.
  assert (Hrk : reply_known (effective_params p) d).
  { apply validateReplyTo_Ok in Hr. unfold effective_params. by case_bool_decide. }
  destruct (insert_attempts_total (effective_params p) rnd now d Hrk
              publicIDRetryAttempts 0 k id) as (id' & d' & E); auto.
  { intros j Hlt. destruct (Hj j ltac:(lia)) as [[b0 b1] E]. simpl. rewrite E. by eexists. }
  unfold InsertMessage. cbv zeta. rewrite Hv. simpl p_ReplyTo. rewrite Hr.
  change (if str_empty (p_DeliverAfter (canonical_params p)) then canonical_params p
          else with_caps 0 0 (canonical_params p)) with (effective_params p).
  rewrite Hc. unfold insertOneInTx. rewrite E. eauto.
Qed.

(** The first id collides, the second is free. *)
Lemma InsertMessage_accepts_witness :
  exists res d', InsertMessage (simple_params "bob" "alice" "re" None)
    (fun j => Some (0, Z.of_nat j + 1)) (entropy 7) t1 db_one = (Ok res, d').
Proof.
  assert (E : db_messages db_one = [mkMessage 1 "0001" "alice" "bob" None "hello" KindMessage
    false false StateQueued t0 None None None None None None false 20 false])
    by (vm_compute; reflexivity).
  apply (InsertMessage_accepts (simple_params "bob" "alice" "re" None)
           (fun j => Some (0, Z.of_nat j + 1)) (entropy 7) t1 db_one 1 "0002").
  - vm_compute. reflexivity.
  - vm_compute. reflexivity.
  - vm_compute. reflexivity.
  - unfold publicIDRetryAttempts. lia.
  - intros j _. by eexists.
  - vm_compute. reflexivity.
  - rewrite E. intros m Hm. apply list_elem_of_singleton in Hm as ->. done.
Defined.

(** ** Claiming *)

(** Candidates of a recipient. *)
Definition candidates (agent : string) (d : DB) : list Message :=
  sql_where (claimable (CanonicalName agent) d) (db_messages d).

(** The whole outcome of a claim on a well-formed database. *)
Inductive claim_spec (agent : string) (strategy : SchedulerStrategy) (d : DB)
    : result (option Message) -> DB -> Prop :=
  | claim_nothing :
      candidates agent d = [] -> claim_spec agent strategy d (Ok None) d
  | claim_row m :
      m ∈ candidates agent d ->
      (forall m', m' ∈ candidates agent d -> m_FromAgent m' = m_FromAgent m ->
         m_ID m <= m_ID m') ->
      wins strategy (map candidate_of (candidates agent d)) (candidate_of m) ->
      claim_spec agent strategy d (Ok (Some (set_m_State StateDelivering m)))
        (set_messages (sql_update (with_id (m_ID m)) (set_m_State StateDelivering)
                         (db_messages d)) d).

Lemma find_by_id rows m :
  NoDup (map m_ID rows) -> m ∈ rows -> List.find (with_id (m_ID m)) rows = Some m.
Proof.
  intros Hnd Hm. destruct (List.find (with_id (m_ID m)) rows) as [m'|] eqn:E.
  - f_equal. apply List.find_some in E as [Hm' Hid]. rowsimp.
    apply (inj_on_NoDup m_ID rows); auto. by rewrite list_elem_of_In.
  - exfalso. apply (List.find_none _ _) with (x := m) in E; [|by apply list_elem_of_In].
    unfold with_id in E. bsimp. done.
Qed.

Lemma Claim_cases agent strategy d :
  NoDup (map m_ID (db_messages d)) ->
  let (r, d') := ClaimNextWithStrategy agent strategy d in claim_spec agent strategy d r d'.
Proof.
  intros Hnd. unfold ClaimNextWithStrategy. cbv zeta.
  change (sql_where (claimable (CanonicalName agent) d) (db_messages d)) with (candidates agent d).
  pose proof (selectScheduled_cases strategy (map candidate_of (candidates agent d))) as H.
  destruct (selectScheduled _ _) as [id|].
  - destruct H as (c & Hw & ->). pose proof Hw as [[Hc Hhead] _].
    apply list_elem_of_In, in_map_iff in Hc as (m & <- & Hm). rewrite <- list_elem_of_In in Hm.
    assert (Hin : m ∈ db_messages d) by (by apply sql_where_elem in Hm as [? _]).
    simpl c_ID. rewrite find_by_id by done. apply claim_row; auto.
    intros m' Hm' Hf. apply (Hhead (candidate_of m')); [|done].
    apply list_elem_of_In, in_map. by rewrite <- list_elem_of_In.
  - apply claim_nothing. by destruct (candidates agent d).
Qed.

(** C6: on a well-formed database a claim never fails.  It returns nothing exactly
    when the recipient has no claimable row (queued, and above the backlog floor
    or a promoted deferral); otherwise it returns one claimable row, the oldest
    its sender has there, from a channel the strategy ranks first, flips that one
    row to delivering and touches nothing else. *)
Theorem ClaimNext_correct agent strategy d r d' :
  store_wf d -> ClaimNextWithStrategy agent strategy d = (r, d') ->
  claim_spec agent strategy d r d'.
Proof.
  intros [Hw _] E. pose proof (Claim_cases agent strategy d (ids_NoDup d Hw)) as H.
  by rewrite E in H.
Qed.

Lemma ClaimNext_correct_witness :
  claim_spec "Bob" StrategyMaxPriority db_one
    (fst (ClaimNextWithStrategy "Bob" StrategyMaxPriority db_one))
    (snd (ClaimNextWithStrategy "Bob" StrategyMaxPriority db_one)).
Proof.
  apply ClaimNext_correct.
  - eapply store_steps_wf; [|apply empty_db_wf].
    eapply rtc_l; [apply (step_InsertMessage empty_db)|apply rtc_refl].
  - apply surjective_pairing.
Defined.

(** ** Crash recovery *)

Lemma sql_update_eq {R} (p : R -> bool) f rows g :
  (forall r, r ∈ rows -> (if p r then f r else r) = g r) -> sql_update p f rows = map g rows.
Proof.
  intros H. unfold sql_update. induction rows as [|r rows IH]; [done|]. simpl.
  rewrite (H r) by set_solver. f_equal. apply IH. intros r' Hr'. apply H. set_solver.
Qed.

Lemma set_state_back m s : m_State m = s -> set_m_State s (set_m_State StateDelivering m) = m.
Proof. destruct m; simpl. by intros ->. Qed.

Lemma set_messages_same d : set_messages (db_messages d) d = d.
Proof. by destruct d. Qed.

(** No row of the recipient is in flight. *)
Definition nothing_in_flight (agent : string) (d : DB) : Prop :=
  forall m, m ∈ db_messages d -> to_in_state (CanonicalName agent) StateDelivering m = false.

(** A crash between claim and delivery loses nothing.  If a mailman with no row
    in flight claims and dies, the recovery at its next start puts the database
    back exactly as it was before the claim, whatever was claimed. *)
Theorem claim_recover_roundtrip agent strategy d :
  store_wf d -> nothing_in_flight agent d ->
  snd (RecoverDelivering agent (snd (ClaimNextWithStrategy agent strategy d))) = d.
Proof.
  intros [Hw _] Hfree. pose proof (ids_NoDup d Hw) as Hnd.
  pose proof (Claim_cases agent strategy d Hnd) as H.
  destruct (ClaimNextWithStrategy agent strategy d) as [r d']. simpl.
  destruct H as [_|m Hm _ _]; unfold RecoverDelivering, update_count; simpl.
  - rewrite sql_update_none by done. apply set_messages_same.
  - apply sql_where_elem in Hm as [Hin Hcl]. unfold claimable in Hcl. rowsimp.
    assert (E : sql_update (to_in_state (CanonicalName agent) StateDelivering)
                  (set_m_State StateQueued)
                  (sql_update (with_id (m_ID m)) (set_m_State StateDelivering) (db_messages d))
                = db_messages d).
    { unfold sql_update at 2. unfold sql_update. rewrite map_map.
      rewrite <- (map_id (db_messages d)) at 2. apply map_ext_in. intros m0 Hm0.
      rewrite <- list_elem_of_In in Hm0. destruct (with_id (m_ID m) m0) eqn:Eid.
      - rowsimp. assert (m0 = m) as -> by (by apply (inj_on_NoDup m_ID (db_messages d))).
        unfold to_in_state. simpl. rewrite bool_decide_true by done. simpl.
        by apply set_state_back.
      - by rewrite Hfree. }
    rewrite E. by destruct d.
Qed.

Lemma claim_recover_roundtrip_witness :
  db_claimed <> db_one /\ snd (RecoverDelivering "BOB" (snd (ClaimNextWithStrategy "BOB" StrategyAged db_one))) = db_one.
Proof.
  split; [intros E; apply (f_equal (fun d => map m_State (db_messages d))) in E;
          vm_compute in E; discriminate|].
  apply (claim_recover_roundtrip "BOB" StrategyAged db_one).
  - eapply store_steps_wf; [|apply empty_db_wf].
    eapply rtc_l; [apply (step_InsertMessage empty_db)|apply rtc_refl].
  - assert (E : db_messages db_one = [mkMessage 1 "0001" "alice" "bob" None "hello" KindMessage
      false false StateQueued t0 None None None None None None false 20 false])
      by (vm_compute; reflexivity).
    unfold nothing_in_flight. rewrite E. intros m Hm. apply list_elem_of_singleton in Hm as ->. vm_compute. reflexivity.
Defined.

(** ** Backlog floors *)

Lemma queued_ids_sorted to d :
  messages_wf d ->
  StronglySorted Z.lt (map m_ID (sql_where (to_in_state to StateQueued) (db_messages d))).
Proof. intros Hw. apply sorted_where, Hw. Qed.

(** In an increasing list, the entries above the one with [k] larger ones are those [k]. *)
Lemma sorted_above l (k : nat) x :
  StronglySorted Z.lt l -> rev l !! k = Some x ->
  Z.of_nat (length (List.filter (fun y => x <? y) l)) = Z.of_nat k.
Proof.
  intros Hs. revert k x. induction l as [|y l IH] using rev_ind; intros k x; simpl; [done|].
  rewrite rev_app_distr. simpl. rewrite List.filter_app, length_app. simpl.
  assert (Hl : StronglySorted Z.lt l /\ forall z, z ∈ l -> z < y).
  { clear -Hs. induction l as [|z l IH]; [split; [constructor|set_solver]|].
    simpl in Hs. inversion Hs as [|? ? Hs' Hall]; subst. destruct (IH Hs') as [H1 H2].
    rewrite Forall_app, Forall_singleton in Hall. destruct Hall as [Ha Hy].
    split; [by constructor|]. intros w [->|Hw]%elem_of_cons; auto. }
  destruct Hl as [Hsl Hlt]. destruct k as [|k]; simpl.
  - intros [= <-]. rewrite Z.ltb_irrefl. simpl.
    assert (E : List.filter (fun w => y <? w) l = []).
    { clear -Hlt. induction l as [|w l IH]; [done|]. simpl.
      assert (y <? w = false) as ->; [apply Z.ltb_ge; specialize (Hlt w ltac:(set_solver)); lia|].
      apply IH. set_solver. }
    rewrite E. done.
  - intros Hx. assert (Hin : x ∈ l).
    { apply list_elem_of_lookup_2 in Hx. by rewrite list_elem_of_In, <- in_rev, <- list_elem_of_In in Hx. }
    assert (x <? y = true) as ->; [apply Z.ltb_lt; auto|]. simpl.
    specialize (IH Hsl k x Hx). lia.
Qed.

Lemma RecipientQueueDepth_canonical agent d :
  RecipientQueueDepth (CanonicalName agent) d = RecipientQueueDepth agent d.
Proof. unfold RecipientQueueDepth. by autorewrite with canon. Qed.

Lemma count_above p floor rows :
  sql_count (fun m => p m && (floor <? m_ID m)) rows =
  Z.of_nat (length (List.filter (fun y => floor <? y) (map m_ID (sql_where p rows)))).
Proof.
  unfold sql_count. induction rows as [|r rows IH]; [done|]. simpl.
  destruct (p r); simpl; [destruct (floor <? m_ID r); simpl; lia|lia].
Qed.

(** What [--replay-last N] computes: nothing to skip, or the id that leaves exactly
    the newest [keep] queued rows above it. *)
Definition floor_spec (agent : string) (keep : Z) (d : DB) (floor skipped : Z) : Prop :=
  let queued := to_in_state (CanonicalName agent) StateQueued in
  let depth := RecipientQueueDepth agent d in
  (depth <= keep /\ floor = 0 /\ skipped = 0) \/
  (keep < depth /\ skipped = depth - keep /\
   (exists m, m ∈ db_messages d /\ queued m = true /\ m_ID m = floor) /\
   sql_count (fun m => queued m && (floor <? m_ID m)) (db_messages d) = keep /\
   forall d', SetBacklogEpoch agent floor d = (Ok tt, d') ->
     candidates agent d' = sql_where (fun m => queued m &&
       (match m_DeliverAfter m with Some _ => true | None => false end || (floor <? m_ID m)))
       (db_messages d)).

(** The backlog floor keeps the newest messages.  On a well-formed database the
    query always succeeds; with more than [keep] rows queued it returns the id of
    a queued row that leaves exactly [keep] queued rows above it, reports the
    others as skipped, and once recorded it hides exactly the skipped rows from
    the claim (promoted deferrals excepted). *)
Theorem QueuedBacklogFloor_keeps_newest agent keepNewest d :
  store_wf d ->
  exists floor skipped, QueuedBacklogFloor agent keepNewest d = Ok (floor, skipped) /\
    floor_spec agent (Z.max 0 keepNewest) d floor skipped.
Proof.
  intros [Hw _]. unfold QueuedBacklogFloor. cbv zeta. rewrite RecipientQueueDepth_canonical.
  replace (if keepNewest <? 0 then 0 else keepNewest) with (Z.max 0 keepNewest)
    by (destruct (keepNewest <? 0) eqn:E; bsimp; lia).
  set (keep := Z.max 0 keepNewest). assert (Hk : 0 <= keep) by (unfold keep; lia).
  unfold floor_spec. cbv zeta.
  set (rows := sql_where (to_in_state (CanonicalName agent) StateQueued) (db_messages d)).
  assert (Hd : RecipientQueueDepth agent d = Z.of_nat (length rows)) by done.
  destruct ((_ =? 0) || _) eqn:E.
  - exists 0, 0. split; [done|]. left. apply orb_true_iff in E as [E|E]; bsimp; lia.
  - bsimp. destruct (rev (map m_ID rows) !! Z.to_nat keep) as [floor|] eqn:El.
    + exists floor, (RecipientQueueDepth agent d - keep). split; [done|]. right.
      split; [lia|]. split; [done|]. split; [|split].
      * apply list_elem_of_lookup_2 in El.
        rewrite list_elem_of_In, <- in_rev, in_map_iff in El. destruct El as (m & Hid & Hm).
        rewrite <- list_elem_of_In in Hm. apply sql_where_elem in Hm as [? ?]. eauto.
      * rewrite count_above. rewrite (sorted_above _ (Z.to_nat keep)); [lia| |done].
        by apply queued_ids_sorted.
      * intros d' Hs. unfold SetBacklogEpoch, update_agent in Hs.
        destruct (db_agents d !! _) as [a|]; [|done]. injection Hs as <-.
        unfold candidates, claimable, backlog_floor. simpl. by rewrite lookup_insert_eq.
    + apply lookup_ge_None in El. rewrite length_rev, length_map in El. lia.
Qed.

(** Three queued rows, keep two: the floor is the oldest. *)
Definition send_plain (n : Z) (d : DB) : DB :=
  snd (InsertMessage (simple_params "alice" "bob" "m" None) (entropy n) (entropy 9) t0 d).

Lemma send_plain_wf n d : store_wf d -> store_wf (send_plain n d).
Proof. apply store_step_wf. exact (step_InsertMessage d _ _ _ _). Qed.

Definition db_three : DB := send_plain 3 (send_plain 2 (send_plain 1 empty_db)).

Lemma db_three_wf : store_wf db_three.
Proof. apply send_plain_wf, send_plain_wf, send_plain_wf, empty_db_wf. Qed.

Lemma QueuedBacklogFloor_keeps_newest_witness :
  QueuedBacklogFloor "bob" 2 db_three = Ok (1, 1) /\
  exists floor skipped, QueuedBacklogFloor "bob" 2 db_three = Ok (floor, skipped) /\
    floor_spec "bob" 2 db_three floor skipped.
Proof.
  split; [vm_compute; reflexivity|].
  apply (QueuedBacklogFloor_keeps_newest "bob" 2 db_three db_three_wf).
Defined.

(** ** Pairs *)

(** Two inserts in one transaction. *)
Lemma pair_rows p1 p2 r1 r2 now d d1 d2 res1 res2 :
  insertOneInTx p1 r1 now d = Ok (res1, d1) ->
  insertOneInTx p2 r2 now d1 = Ok (res2, d2) ->
  db_messages d2 = db_messages d ++ [new_row p1 (ir_PublicID res1) now d;
                                     new_row p2 (ir_PublicID res2) now d1] /\
  db_seq d1 = db_seq d + 1.
Proof.
  intros (-> & _ & _)%insertOneInTx_row (-> & _ & _)%insertOneInTx_row. simpl.
  by rewrite <- app_assoc.
Qed.

Lemma count_two {R} (p : R -> bool) rows r1 r2 n :
  sql_count p rows + 2 <= n -> sql_count p (rows ++ [r1; r2]) <= n.
Proof.
  rewrite sql_count_app. unfold sql_count at 3. simpl. destruct (p r1), (p r2); simpl; lia.
Qed.

Lemma refused_pair p1 p2 e r3 r4 now d id1 id2 d1 d2 n :
  checkCapsInTx p1 n d = Err e ->
  insertRefusedRow p1 (error_text e) r3 now d = (id1, d1) ->
  insertRefusedRow p2 (error_text e) r4 now d1 = (id2, d2) ->
  (forall to, queue_depth to d2 = queue_depth to d) /\ db_rings d2 = db_rings d.
Proof.
  intros Ek E1 E2.
  pose proof (refused_row_refused _ _ _ _ _ _ _ _ Ek E1) as (Hq1 & _ & Hr1 & _).
  destruct (insertRefusedRow_row p2 (error_text e) r4 now d1) as [E|(id & E)];
    rewrite E in E2; injection E2 as <- <-; [done|].
  split; [|done]. intros to. rewrite <- Hq1. unfold queue_depth. simpl.
  rewrite sql_count_snoc. unfold to_in_state at 2. simpl. rewrite andb_false_r. lia.
Qed.

(** Both rows of a pair are in, in order, and within the recipient cap. *)
Definition pair_inserted (p q : InsertParams) (link : bool) (res1 res2 : InsertResult)
    (d d' : DB) : Prop :=
  let p1 := canonical_params p in
  let p2 := canonical_params q in
  p_ToAgent p1 = p_ToAgent p2 /\ p_FromAgent p1 = p_FromAgent p2 /\
  exists row1 row2,
    db_messages d' = db_messages d ++ [row1; row2] /\
    m_PublicID row1 = ir_PublicID res1 /\ m_PublicID row2 = ir_PublicID res2 /\
    m_Body row1 = p_Body p /\ m_Body row2 = p_Body q /\
    m_ToAgent row1 = p_ToAgent p1 /\ m_ToAgent row2 = p_ToAgent p1 /\
    m_ID row2 = m_ID row1 + 1 /\
    (link = true -> ir_PublicID res1 <> EmptyString -> m_ReplyTo row2 = Some (m_PublicID row1)) /\
    (0 < p_MaxRecipientQueue p -> queue_depth (p_ToAgent p1) d' <= effective_cap p1 d).

(** A note and its control are inserted together or not at all.  On success both
    rows are there, consecutive, the second replying to the first when linked; on
    failure no queue is any deeper and no doorbell rang. *)
Theorem InsertMessagePair_atomic p q link r1 r2 r3 r4 now d :
  match InsertMessagePair p q link r1 r2 r3 r4 now d with
  | (Ok (res1, res2), d') => pair_inserted p q link res1 res2 d d'
  | (Err e, d') => (forall to, queue_depth to d' = queue_depth to d) /\ db_rings d' = db_rings d
  end.
Proof.
  unfold pair_inserted, InsertMessagePair. cbv zeta.
  set (p1 := canonical_params p). set (p2 := canonical_params q).
  destruct (pair_checks p1 p2 link d) eqn:Ec; [|done].
  apply pair_checks_Ok in Ec as (Hf & Ht & _ & _).
  destruct (checkCapsInTx p1 2 d) as [u|e] eqn:Ek.
  - destruct (insertOneInTx p1 r1 now d) as [[res1 d1]|] eqn:E1; [|done].
    set (p2' := if link then with_reply_to (ir_PublicID res1) p2 else p2).
    assert (Hp2 : p_ToAgent p2' = p_ToAgent p1 /\ p_Body p2' = p_Body q /\
              (link = true -> p_ReplyTo p2' = ir_PublicID res1))
      by (unfold p2'; destruct link; done).
    clearbody p2'. destruct Hp2 as (Hto & Hb & Hlink).
    destruct (insertOneInTx p2' r2 now d1) as [[res2 d2]|] eqn:E2; [|done].
    destruct (pair_rows _ _ _ _ _ _ _ _ _ _ E1 E2) as [Hm Hs]. clear E1 E2.
    split; [by rewrite Ht|]. split; [by rewrite Hf|].
    eexists _, _. split; [case_match; rewrite ?fireNotify_messages; exact Hm|].
    cbn [new_row m_PublicID m_Body m_ToAgent m_ID m_ReplyTo].
    repeat (split; [done || lia|]).
    split.
    + intros Hl Hne. rewrite (Hlink Hl). unfold null_if_empty. by rewrite bool_decide_false.
    + intros Hmax. unfold queue_depth.
      pose proof (caps_recipient p1 2 d u Ek Hmax) as Hcap. unfold queue_depth in Hcap.
      assert (E : forall b : bool, db_messages (if b then fireNotify (p_ToAgent p1) d2 else d2)
                  = db_messages d2) by (intros []; [apply fireNotify_messages|done]).
      rewrite E, Hm. by apply count_two.
  - destruct (insertRefusedRow p1 _ r3 now d) as [id1 d1] eqn:E1.
    destruct (insertRefusedRow p2 _ r4 now d1) as [id2 d2] eqn:E2.
    by eapply refused_pair.
Qed.
