(* ===== verification/RegistryProps.v ===== *)
(** * Correctness of the registry, of reaping and of the compaction watermarks *)

From stdpp Require Import sorting.
From S2P Require Import Prelude GoStd StoreTypes Priority Messages Queue Agents Queries Lifecycle Invariants.

Open Scope Z_scope.

(** ** Registration *)

(** What a registration owes: the caller holds the pane, every other agent keeps
    all its columns except that it lets go of this pane. *)
Definition registered (name pane now : string) (d d' : DB) : Prop :=
  (exists a, db_agents d' !! name = Some a /\ a_name a = name /\
     (pane <> EmptyString -> a_pane_id a = Some pane) /\
     match db_agents d !! name with
     | None => a = new_agent name (if str_empty pane then None else Some pane) now
     | Some old => pane = EmptyString -> a_pane_id a = a_pane_id old
     end) /\
  (forall k a, k <> name -> db_agents d !! k = Some a ->
     db_agents d' !! k = Some
       (if bool_decide (pane <> EmptyString /\ a_pane_id a = Some pane)
        then set_a_pane_id None (set_a_updated_at now a) else a)) /\
  (forall k, k <> name -> db_agents d !! k = None -> db_agents d' !! k = None) /\
  db_messages d' = db_messages d.

Lemma upsert_row_ne name pane now ags k :
  k <> name -> upsert_row name pane now ags !! k = ags !! k.
Proof. intros Hne. unfold upsert_row. case_match; by rewrite lookup_insert_ne. Qed.

Lemma upsert_row_eq name pane now ags :
  upsert_row name pane now ags !! name = Some
    match ags !! name with
    | None => new_agent name pane now
    | Some a => match pane with
                | None => set_a_updated_at now a
                | Some _ => set_a_pane_id pane (set_a_updated_at now a)
                end
    end.
Proof. unfold upsert_row. case_match; by rewrite lookup_insert_eq. Qed.

Lemma clear_ne pane name now (ags : gmap string Agent) k a :
  agents_wf ags -> k <> name -> ags !! k = Some a ->
  clear_other_holders pane name now ags !! k = Some
    (if bool_decide (a_pane_id a = Some pane)
     then set_a_pane_id None (set_a_updated_at now a) else a).
Proof.
  intros [Hk _] Hne Ha. unfold clear_other_holders. rewrite lookup_fmap, Ha. simpl.
  destruct (Hk k a Ha) as [En _]. unfold holds_pane.
  rewrite (bool_decide_false (a_name a = name)) by congruence. by rewrite andb_true_r.
Qed.

Lemma clear_eq pane name now (ags : gmap string Agent) :
  agents_wf ags -> clear_other_holders pane name now ags !! name = ags !! name.
Proof.
  intros [Hk _]. unfold clear_other_holders. rewrite lookup_fmap.
  destruct (ags !! name) as [a|] eqn:Ha; [|done]. simpl. destruct (Hk name a Ha) as [En _].
  rewrite (bool_decide_true (a_name a = name)) by done. by rewrite andb_false_r.
Qed.

(** One pane, one identity.  On a well-formed registry, registering a
    non-empty, non-reserved name never fails on the pane's UNIQUE index: the name
    ends up holding the pane, any other holder is released, every other row and
    every other column stays as it was; without a pane the old pane is kept. *)
Theorem UpsertAgent_takes_pane name0 pane now d :
  store_wf d -> CanonicalName name0 <> EmptyString -> ReservedRoutingName name0 = false ->
  exists d', UpsertAgent name0 pane now d = (Ok tt, d') /\
    registered (CanonicalName name0) pane now d d'.
Proof.
  intros [_ Hw] Hne Hr. unfold UpsertAgent. cbv zeta.
  assert (Hr' : ReservedRoutingName (CanonicalName name0) = false)
    by (unfold ReservedRoutingName; by autorewrite with canon).
  rewrite (bool_decide_false _ Hne), Hr'. set (name := CanonicalName name0) in *.
  case_bool_decide as Hp.
  - eexists. split; [done|]. subst pane. unfold registered. cbn [set_agents db_agents db_messages]. repeat split.
    + exists match db_agents d !! name with
             | None => new_agent name None now | Some a => set_a_updated_at now a end.
      split; [by rewrite upsert_row_eq; destruct (db_agents d !! name)|].
      destruct (db_agents d !! name) as [a|] eqn:E; [|done].
      apply (aw_key _ Hw) in E as [E _]. simpl. by rewrite E.
    + intros k a Hk Ha. rewrite upsert_row_ne by done.
      rewrite bool_decide_false by naive_solver. done.
    + intros k Hk Ha. by rewrite upsert_row_ne.
  - rewrite clear_pane_free by done. eexists. split; [done|]. unfold registered. cbn [set_agents db_agents db_messages].
    repeat split.
    + exists match db_agents d !! name with
             | None => new_agent name (Some pane) now
             | Some a => set_a_pane_id (Some pane) (set_a_updated_at now a) end.
      split; [by rewrite upsert_row_eq, clear_eq; [destruct (db_agents d !! name)|]|].
      destruct (db_agents d !! name) as [a|] eqn:E; [|by rewrite (bool_decide_false _ Hp)].
      apply (aw_key _ Hw) in E as [E _]. simpl. rewrite E.
      split; [done|]. by split.
    + intros k a Hk Ha. rewrite upsert_row_ne, (clear_ne _ _ _ _ _ a) by done. f_equal.
      repeat case_bool_decide; naive_solver.
    + intros k Hk Ha. rewrite upsert_row_ne by done. unfold clear_other_holders.
      by rewrite lookup_fmap, Ha.
Qed.

Lemma UpsertAgent_takes_pane_witness :
  exists d', UpsertAgent "Bob" "%1" t1 (snd (UpsertAgent "alice" "%1" t0 empty_db)) = (Ok tt, d') /\
    registered "bob" "%1" t1 (snd (UpsertAgent "alice" "%1" t0 empty_db)) d'.
Proof.
  apply (UpsertAgent_takes_pane "Bob" "%1" t1).
  - apply (store_step_wf empty_db); [apply step_UpsertAgent|apply empty_db_wf].
  - vm_compute. discriminate.
  - vm_compute. reflexivity.
Defined.

(** ** The self-compaction edge *)

(** The signal a reader has not consumed, as two independent readers see it. *)
Definition compact_pending (name : string) (d : DB) : bool :=
  match db_agents d !! CanonicalName name with
  | Some a => unseen_signal (a_last_self_compact_at a) (a_self_compact_counted_at a)
  | None => false
  end.

Definition resume_pending (name : string) (d : DB) : bool :=
  match db_agents d !! CanonicalName name with
  | Some a => unseen_signal (a_last_self_compact_at a) (a_resume_promoted_at a)
  | None => false
  end.

Definition shrink_count (name : string) (d : DB) : option Z :=
  a_respawn_shrink_count <$> db_agents d !! CanonicalName name.

Lemma str_ltb_irrefl s : Str.ltb s s = false.
Proof.
  unfold Str.ltb, String.ltb. destruct (s ?= s)%string eqn:E; try done.
  exfalso. pose proof (String.compare_antisym s s) as H. rewrite E in H. done.
Qed.

Lemma unseen_consumed l : unseen_signal l l = false.
Proof.
  destruct l as [l|]; [|done]. simpl. case_bool_decide; [done|]. simpl. apply str_ltb_irrefl.
Qed.

(** A self-compaction is counted exactly once.  The counter moves only when the
    signal is newer than the counted mark; it then rises by one and the signal
    stops being pending, so a second call does nothing.  The mark that promotes
    the resume message is separate: neither reader consumes the other's edge, in
    whichever order the two mailman hooks run. *)
Theorem CountSelfCompact_exactly_once name trigger d :
  let (r, d') := CountSelfCompactIfNew name d in
  (if compact_pending name d
   then exists n, shrink_count name d = Some n /\ r = Ok (true, n + 1) /\
          shrink_count name d' = Some (n + 1) /\ compact_pending name d' = false
   else r = Ok (false, 0) /\ d' = d) /\
  CountSelfCompactIfNew name d' = (Ok (false, 0), d') /\
  resume_pending name d' = resume_pending name d /\
  compact_pending name (snd (PromoteResumeOnSelfCompactIfNew name trigger d))
    = compact_pending name d /\
  resume_pending name (snd (PromoteResumeOnSelfCompactIfNew name trigger d)) = false.
Proof.
  assert (Hp : compact_pending name (snd (PromoteResumeOnSelfCompactIfNew name trigger d))
                 = compact_pending name d /\
               resume_pending name (snd (PromoteResumeOnSelfCompactIfNew name trigger d)) = false).
  { unfold PromoteResumeOnSelfCompactIfNew, compact_pending, resume_pending. cbv zeta.
    destruct (db_agents d !! CanonicalName name) as [a|] eqn:E; [|simpl; by rewrite E].
    destruct (unseen_signal _ _) eqn:Eu; [|simpl; by rewrite E].
    set (d1 := set_agents _ d).
    pose proof (PromoteDeferred_agents (CanonicalName name) trigger d1) as Ha.
    destruct (PromoteDeferred _ _ d1) as [n d2]. simpl in *. rewrite Ha. unfold d1. simpl.
    rewrite lookup_insert_eq. simpl. split; [done|]. apply unseen_consumed. }
  unfold CountSelfCompactIfNew. cbv zeta. unfold compact_pending, resume_pending, shrink_count in *.
  destruct (db_agents d !! CanonicalName name) as [a|] eqn:E; [|by rewrite E].
  destruct (unseen_signal (a_last_self_compact_at a) (a_self_compact_counted_at a)) eqn:Eu.
  - simpl. rewrite lookup_insert_eq. simpl. rewrite unseen_consumed. repeat split; try apply Hp.
    exists (a_respawn_shrink_count a). done.
  - rewrite E, Eu. repeat split; try apply Hp.
Qed.

(** ** Aliases *)

(** The names an agent answers to, canonically. *)
Definition answers_to (a : Agent) (c : string) : Prop :=
  a_name a = c \/ exists al, al ∈ a_aliases a /\ CanonicalName al = c.

Lemma collides_with_spec name c a :
  collides_with name c a = true <-> a_name a <> name /\ answers_to a c.
Proof.
  unfold collides_with, answers_to. rewrite andb_true_iff, negb_true_iff, orb_true_iff.
  rewrite bool_decide_eq_false, bool_decide_eq_true, existsb_exists.
  split.
  - intros [Hn [?|(al & Hin & Hb)]]; split; auto. bsimp. right. exists al.
    by rewrite list_elem_of_In.
  - intros [Hn [?|(al & Hin & Hb)]]; split; auto. right. exists al.
    rewrite <- list_elem_of_In. split; [done|]. by apply bool_decide_eq_true.
Qed.

Lemma ListAgents_elem d k a : db_agents d !! k = Some a -> a ∈ ListAgents d.
Proof.
  intros Ha. unfold ListAgents. rewrite merge_sort_Permutation.
  apply list_elem_of_In, in_map_iff. exists (k, a). split; [done|].
  by apply list_elem_of_In, elem_of_map_to_list.
Qed.

Lemma ListAgents_elem_inv d a : a ∈ ListAgents d -> exists k, db_agents d !! k = Some a.
Proof.
  unfold ListAgents. rewrite merge_sort_Permutation.
  rewrite list_elem_of_In, in_map_iff. intros ([k a'] & <- & Hin).
  exists k. by rewrite <- elem_of_map_to_list, list_elem_of_In.
Qed.

(** Why an alias list is turned away. *)
Definition alias_conflict (name : string) (aliases : list string) (d : DB) : Prop :=
  exists c, c ∈ aliases /\
    (ReservedRoutingName c = true \/
     exists k a, db_agents d !! k = Some a /\ a_name a <> name /\ answers_to a (CanonicalName c)).

Lemma checkAliasCollisions_spec name aliases d :
  match checkAliasCollisions name aliases d with
  | Ok _ => ~ alias_conflict (CanonicalName name) aliases d
  | Err e => alias_conflict (CanonicalName name) aliases d /\
      (errors_Is e ErrReservedRoutingName = true \/ errors_Is e ErrAliasCollision = true)
  end.
Proof.
  unfold checkAliasCollisions. case_bool_decide as Hnil.
  { intros (c & Hc & _). subst. by apply elem_of_nil in Hc. }
  cbv zeta. destruct (List.find ReservedRoutingName aliases) as [c|] eqn:E1.
  - apply List.find_some in E1 as [Hin Hr]. split; [|by left].
    exists c. rewrite list_elem_of_In. auto.
  - destruct (List.find (fun c => existsb _ _) aliases) as [c|] eqn:E2.
    + apply List.find_some in E2 as [Hin Hc]. split; [|by right].
      apply existsb_exists in Hc as (a & Ha & Hcol). rewrite <- list_elem_of_In in Ha.
      apply ListAgents_elem_inv in Ha as [k Ha]. apply collides_with_spec in Hcol as [? ?].
      exists c. rewrite list_elem_of_In. eauto 8.
    + intros (c & Hin & Hbad). rewrite list_elem_of_In in Hin. destruct Hbad as [Hr|Hbad].
      * rewrite (List.find_none _ _ E1 c Hin) in Hr. done.
      * destruct Hbad as (k & a & Ha & Hne & Hans).
        pose proof (List.find_none _ _ E2 c Hin) as Hf. simpl in Hf.
        apply not_true_iff_false in Hf. apply Hf, existsb_exists. exists a.
        split; [by apply list_elem_of_In, (ListAgents_elem d k)|]. by apply collides_with_spec.
Qed.

(** Aliases never shadow anybody.  [SetAliases] on a registered agent stores the
    list exactly when no alias is reserved and no other agent answers to it, by
    name or by alias, up to case and surrounding blanks; otherwise it returns the
    matching sentinel and changes nothing. *)
Theorem SetAliases_collision_free name aliases now d :
  is_Some (db_agents d !! CanonicalName name) ->
  match SetAliases name aliases now d with
  | (Ok _, d') =>
      ~ alias_conflict (CanonicalName name) aliases d /\
      exists a, db_agents d' !! CanonicalName name = Some a /\ a_aliases a = aliases
  | (Err e, d') =>
      alias_conflict (CanonicalName name) aliases d /\ d' = d /\
      (errors_Is e ErrReservedRoutingName = true \/ errors_Is e ErrAliasCollision = true)
  end.
Proof.
  intros [a Ha]. unfold SetAliases. cbv zeta.
  pose proof (checkAliasCollisions_spec (CanonicalName name) aliases d) as H.
  rewrite CanonicalName_idem_aux in H.
  destruct (checkAliasCollisions _ aliases d); [|naive_solver].
  unfold update_agent. rewrite Ha. split; [done|]. eexists. simpl. by rewrite lookup_insert_eq.
Qed.

Definition db_two_agents : DB :=
  snd (UpsertAgent "bob" "%2" t0 (snd (UpsertAgent "alice" "%1" t0 empty_db))).

Lemma SetAliases_collision_free_witness :
  alias_conflict "alice" ["BOB "] db_two_agents.
Proof.
  pose proof (SetAliases_collision_free "Alice" ["BOB "] t1 db_two_agents) as H.
  assert (E : exists e, fst (SetAliases "Alice" ["BOB "] t1 db_two_agents) = Err e)
    by (eexists; vm_compute; reflexivity).
  destruct E as [e E]. destruct (SetAliases "Alice" ["BOB "] t1 db_two_agents) as [[u|e'] d'].
  - discriminate E.
  - apply H. vm_compute. by eexists.
Defined.

(** ** Reaping *)

(** What the sweep owes one row. *)
Definition swept (agent cutoff reason now : string) (d d' : DB) (m : Message) : Prop :=
  if reapPredicate agent cutoff d m
  then failed_row reason now m ∈ db_messages d' /\
       (exists rc, rc ∈ ListReapableUndeliverable agent cutoff d /\ rc_PublicID rc = m_PublicID m) /\
       m_DeliverAfter m = None /\ m_State m = StateQueued /\
       (forall a, db_agents d !! m_ToAgent m = Some a -> has_live_pane a = false)
  else m ∈ db_messages d'.

(** Reaping is exactly its dry run, once.  The sweep fails with the given reason
    precisely the rows the preview lists, never a row whose recipient has a live
    pane, never a promoted deferral, and a second sweep with the same cutoff finds
    nothing. *)
Theorem ReapUndeliverable_is_preview agent cutoff reason now d :
  let (n, d') := ReapUndeliverable agent cutoff reason now d in
  n = Z.of_nat (length (ListReapableUndeliverable agent cutoff d)) /\
  (forall m, m ∈ db_messages d -> swept agent cutoff reason now d d' m) /\
  ReapUndeliverable agent cutoff reason now d' = (0, d').
Proof.
  unfold ReapUndeliverable at 1, update_count. unfold swept, ListReapableUndeliverable.
  split; [|split].
  - by rewrite length_map, merge_sort_Permutation.
  - intros m Hm. destruct (reapPredicate agent cutoff d m) eqn:E; simpl.
    + split; [apply sql_update_elem; exists m; by rewrite E|]. split; [|].
      * exists (mkReap (m_PublicID m) (m_FromAgent m) (m_ToAgent m) (m_CreatedAt m) (m_Kind m)).
        split; [|done]. apply list_elem_of_In, in_map_iff. exists m. split; [done|].
        rewrite <- list_elem_of_In, merge_sort_Permutation. by apply sql_where_elem.
      * rowsimp. destruct (m_DeliverAfter m); [done|]. split; [done|]. split; [done|].
        intros a Ha. by rewrite Ha in *.
    + apply sql_update_elem. exists m. by rewrite E.
  - unfold ReapUndeliverable, update_count. simpl.
    assert (Hno : forall m, m ∈ sql_update (reapPredicate agent cutoff d) (failed_row reason now)
                     (db_messages d) ->
              reapPredicate agent cutoff (set_messages (sql_update (reapPredicate agent cutoff d)
                (failed_row reason now) (db_messages d)) d) m = false).
    { intros m (m0 & Hm0 & ->)%sql_update_elem.
      destruct (reapPredicate agent cutoff d m0) eqn:E; [done|exact E]. }
    unfold sql_affected. f_equal; [by apply sql_count_zero|].
    rewrite sql_update_none by done. done.
Qed.
