(* ===== verification/ThreadProps.v ===== *)
(** * Correctness of threads, reply paging and retention *)

From stdpp Require Import sorting.
From S2P Require Import Prelude GoStd StoreTypes Priority Messages Queue Agents Queries Lifecycle Invariants.

Open Scope Z_scope.

(** ** The reply relation *)

(** [c] answers [m]. *)
Definition replies (d : DB) (c m : Message) : Prop :=
  c ∈ db_messages d /\ m ∈ db_messages d /\ m_ReplyTo c = Some (m_PublicID m).

Lemma find_by_public_id rows m :
  NoDup (map m_PublicID rows) -> m ∈ rows ->
  List.find (has_public_id (m_PublicID m)) rows = Some m.
Proof.
  intros Hnd Hm. destruct (List.find (has_public_id (m_PublicID m)) rows) as [m'|] eqn:E.
  - f_equal. apply List.find_some in E as [Hm' Hid]. unfold has_public_id in Hid. bsimp.
    apply (inj_on_NoDup m_PublicID rows); auto. by rewrite list_elem_of_In.
  - exfalso. apply (List.find_none _ _) with (x := m) in E; [|by apply list_elem_of_In].
    unfold has_public_id in E. by bsimp.
Qed.

Lemma ids_bounded (rows : list Message) (l : list string) :
  NoDup l -> (forall x, x ∈ l -> x ∈ map m_PublicID rows) -> (length l <= length rows)%nat.
Proof.
  intros Hnd Hin. rewrite <- (length_map m_PublicID rows).
  by apply submseteq_length, NoDup_submseteq.
Qed.

Lemma public_id_in d m : m ∈ db_messages d -> m_PublicID m ∈ map m_PublicID (db_messages d).
Proof. intros Hm. apply list_elem_of_In, in_map. by rewrite <- list_elem_of_In. Qed.

(** Ids decrease along replies, so the walk up never meets a row twice. *)
Lemma findThreadRoot_total d :
  messages_wf d -> forall fuel visited m,
  m ∈ db_messages d -> NoDup visited ->
  (forall v, v ∈ visited -> exists x, x ∈ db_messages d /\ m_PublicID x = v /\ m_ID m < m_ID x) ->
  (length (db_messages d) < length visited + fuel)%nat ->
  exists root, rtc (replies d) m root /\ m_ReplyTo root = None /\ root ∈ db_messages d /\
    findThreadRoot fuel visited (m_PublicID m) d = Ok (thread_scanned root).
Proof.
  intros Hw. induction fuel as [|fuel IH]; intros visited m Hm Hnd Hv Hlen.
  - exfalso. enough (length visited <= length (db_messages d))%nat by lia.
    apply ids_bounded; [done|]. intros v (x & Hx & <- & _)%Hv. by apply public_id_in.
  - simpl. assert (Hnew : m_PublicID m ∉ visited).
    { intros (x & Hx & E & Hlt)%Hv. assert (x = m) as ->; [|lia].
      apply (inj_on_NoDup m_PublicID (db_messages d)); auto. apply Hw. }
    rewrite (bool_decide_false _ Hnew), find_by_public_id by (done || apply Hw).
    destruct (m_ReplyTo m) as [r|] eqn:Er.
    + destruct (mw_reply d Hw m r Hm Er) as (Hne & p & Hp & <- & Hlt).
      rewrite (bool_decide_false _ Hne).
      destruct (IH (m_PublicID m :: visited) p) as (root & Hr & H); auto.
      * by apply NoDup_cons.
      * intros v [->|(x & Hx & Ex & Hlx)%Hv]%elem_of_cons; [eauto|].
        exists x. split; [done|]. split; [done|lia].
      * simpl. lia.
      * exists root. split; [|exact H]. by apply (rtc_l _ m p).
    + exists m. split; [apply rtc_refl|]. done.
Qed.

(** ** The breadth-first walk *)

(** The rows a visit adds. *)
Definition unvisited (visited : list string) (cs : list Message) : list Message :=
  sql_where (fun c => negb (bool_decide (m_PublicID c ∈ visited))) cs.

Lemma unvisited_cons visited v cs :
  v ∉ map m_PublicID cs -> unvisited (v :: visited) cs = unvisited visited cs.
Proof.
  intros Hv. apply sql_where_ext. intros c Hc. f_equal. apply bool_decide_ext.
  rewrite elem_of_cons. split; [|by right]. intros [E|]; [|done]. destruct Hv.
  apply list_elem_of_In, in_map_iff. exists c. by rewrite <- list_elem_of_In.
Qed.

Lemma visit_children_spec cs visited out queue :
  NoDup (map m_PublicID cs) ->
  visit_children (map thread_scanned cs) visited out queue =
    (rev (map m_PublicID (unvisited visited cs)) ++ visited,
     out ++ map thread_scanned (unvisited visited cs),
     queue ++ map m_PublicID (unvisited visited cs)).
Proof.
  revert visited out queue. induction cs as [|c cs IH]; intros visited out queue.
  - simpl. by rewrite !app_nil_r.
  - intros [Hc Hnd]%NoDup_cons. simpl map at 1. cbn [visit_children].
    change (m_PublicID (thread_scanned c)) with (m_PublicID c).
    unfold unvisited at 1 2 3. simpl.
    destruct (bool_decide (m_PublicID c ∈ visited)) eqn:E; simpl; rewrite IH by done; [done|].
    rewrite unvisited_cons by done. fold (unvisited visited cs).
    by rewrite <- !app_assoc.
Qed.

(** The loop invariant: the rows collected so far. *)
Record walk_inv (d : DB) (root : Message) (visited : list string) (O : list Message)
    (queue : list string) : Prop := {
  wi_nodup : NoDup (map m_PublicID O);
  wi_rows : forall x, x ∈ O -> x ∈ db_messages d /\ rtc (replies d) x root;
  wi_root : root ∈ O;
  wi_visited : forall v, v ∈ visited <-> v ∈ map m_PublicID O;
  wi_queue : forall q, q ∈ queue -> q ∈ map m_PublicID O;
  wi_closed : forall x c, x ∈ O -> m_PublicID x ∉ queue -> replies d c x -> c ∈ O
}.

Definition children (id : string) (d : DB) : list Message :=
  sql_where (fun m => bool_decide (m_ReplyTo m = Some id)) (db_messages d).

Lemma children_elem d x c :
  messages_wf d -> x ∈ db_messages d -> c ∈ children (m_PublicID x) d <-> replies d c x.
Proof.
  intros Hw Hx. unfold children, replies. rewrite sql_where_elem, bool_decide_eq_true. naive_solver.
Qed.

Lemma elem_of_map_id (O : list Message) v :
  v ∈ map m_PublicID O <-> exists x, x ∈ O /\ m_PublicID x = v.
Proof.
  rewrite list_elem_of_In, in_map_iff. split; intros (x & ? & ?); exists x;
    rewrite list_elem_of_In in *; done.
Qed.

Lemma walk_step d root visited O current queue :
  messages_wf d -> walk_inv d root visited O (current :: queue) ->
  let new := unvisited visited (children current d) in
  walk_inv d root (rev (map m_PublicID new) ++ visited) (O ++ new) (queue ++ map m_PublicID new).
Proof.
  intros Hw [Hnd Hrows Hroot Hvis Hq Hcl] new.
  assert (Hnew : forall c, c ∈ new <-> c ∈ children current d /\ m_PublicID c ∉ visited).
  { intros c. unfold new, unvisited. by rewrite sql_where_elem, negb_true_iff, bool_decide_eq_false. }
  assert (Hcur : current ∈ map m_PublicID O) by (apply Hq; set_solver).
  apply elem_of_map_id in Hcur as (x & Hx & Ex). subst current.
  assert (Hxr := Hrows x Hx). destruct Hxr as [Hxd Hxroot].
  split.
  - rewrite map_app. apply NoDup_app. split; [done|]. split.
    + intros v Hv (c & Hc & <-)%elem_of_map_id. apply Hnew in Hc as [_ Hc]. by apply Hc, Hvis.
    + unfold new, unvisited, children. by apply NoDup_map_where, NoDup_map_where, Hw.
  - intros c [Hc|Hc]%elem_of_app; [by apply Hrows|]. apply Hnew in Hc as [Hc _].
    apply children_elem in Hc as Hr; [|done..]. split; [apply Hr|]. by apply (rtc_l _ c x).
  - set_solver.
  - intros v. rewrite elem_of_app, Hvis, map_app, elem_of_app, !list_elem_of_In, <- in_rev.
    tauto.
  - intros q. rewrite map_app, !elem_of_app. intros [?|?]; [left; apply Hq; set_solver|by right].
  - intros y c Hy Hyq Hr. rewrite elem_of_app in Hyq.
    destruct (decide (c ∈ O)) as [HcO|HcO]; [set_solver|].
    assert (Hcd : c ∈ db_messages d) by apply Hr.
    assert (Hcv : m_PublicID c ∉ visited).
    { rewrite Hvis. intros (z & Hz & Ez)%elem_of_map_id. apply HcO.
      assert (z = c) as <-; [|done]. apply (inj_on_NoDup m_PublicID (db_messages d)); auto.
      - apply Hw.
      - by apply Hrows. }
    apply elem_of_app in Hy as [Hy|Hy].
    + destruct (decide (m_PublicID y = m_PublicID x)) as [E|E].
      * apply elem_of_app. right. apply Hnew. split; [|done].
        apply sql_where_elem. split; [done|]. apply bool_decide_eq_true. rewrite <- E. apply Hr.
      * apply elem_of_app. left. apply (Hcl y); auto. rewrite elem_of_cons. tauto.
    + exfalso. apply Hyq. right. apply elem_of_map_id. eauto.
Qed.

Lemma thread_bfs_total d root :
  messages_wf d -> forall fuel visited O queue,
  walk_inv d root visited O queue ->
  (length (db_messages d) + length queue <= fuel + length O)%nat ->
  exists O' visited', walk_inv d root visited' O' [] /\
    thread_bfs fuel visited (map thread_scanned O) queue d = Some (map thread_scanned O').
Proof.
  intros Hw. induction fuel as [|fuel IH]; intros visited O queue Hi Hlen;
    destruct queue as [|current queue]; simpl; eauto.
  - exfalso. assert (length (map m_PublicID O) <= length (db_messages d))%nat.
    { apply ids_bounded; [apply Hi|]. intros v (x & Hx & <-)%elem_of_map_id.
      by apply public_id_in, (wi_rows _ _ _ _ _ Hi). }
    rewrite length_map in H. simpl in Hlen. lia.
  - unfold children_of. fold (children current d).
    rewrite visit_children_spec by (apply NoDup_map_where, Hw).
    rewrite <- map_app. apply (IH _ _ _ (walk_step _ _ _ _ _ _ Hw Hi)).
    rewrite !length_app, length_map. simpl in Hlen. lia.
Qed.

Lemma walk_complete d root visited O :
  walk_inv d root visited O [] -> forall x, x ∈ O <-> x ∈ db_messages d /\ rtc (replies d) x root.
Proof.
  intros Hi x. split; [apply Hi|]. intros [_ Hr].
  remember root as r eqn:E in Hr. revert E. induction Hr as [x|x y z Hxy _ IH]; intros ->.
  - apply Hi.
  - apply (wi_closed _ _ _ _ _ Hi y); [by apply IH|apply not_elem_of_nil|done].
Qed.

Lemma ids_from_public d (O : list Message) :
  messages_wf d -> (forall x, x ∈ O -> x ∈ db_messages d) ->
  NoDup (map m_PublicID O) -> NoDup (map m_ID O).
Proof.
  intros Hw. induction O as [|x O IH]; simpl; intros Hsub Hnd; [constructor|].
  apply NoDup_cons in Hnd as [Hx Hnd]. apply NoDup_cons.
  split; [|apply IH; auto; intros; apply Hsub; set_solver].
  rewrite list_elem_of_In, in_map_iff. intros (y & Ey & Hy). apply Hx, elem_of_map_id.
  rewrite <- list_elem_of_In in Hy. exists y. split; [done|].
  assert (y = x) as ->; [|done].
  apply (inj_on_NoDup m_ID (db_messages d)); [by apply ids_NoDup|..|done]; apply Hsub; set_solver.
Qed.

(** ** Properties *)

#[global] Instance id_le_total : Total id_le.
Proof. intros a b. unfold id_le. lia. Qed.
#[global] Instance id_le_trans : Transitive id_le.
Proof. intros a b c. unfold id_le. lia. Qed.

(** What [GetThread] returns for an id. *)
Definition thread_of (d : DB) (m : Message) (out : list Message) : Prop :=
  exists root, root ∈ db_messages d /\ rtc (replies d) m root /\ m_ReplyTo root = None /\
    StronglySorted id_le out /\ NoDup (map m_ID out) /\
    forall x, x ∈ out <->
      exists y, y ∈ db_messages d /\ rtc (replies d) y root /\ x = thread_scanned y.

(** The thread of a message is the whole conversation.  On a well-formed
    database, looking up any existing id succeeds (no cycle is ever reported and
    both walks terminate) and returns, in id order and without repetition, exactly
    the rows whose chain of replies leads to the root of the given message; an
    unknown id is [ErrNotFound]. *)
Theorem GetThread_complete id d :
  store_wf d ->
  (GetThread id d = Err ErrNotFound /\ forall m, m ∈ db_messages d -> m_PublicID m <> id) \/
  exists m out, m ∈ db_messages d /\ m_PublicID m = id /\
    GetThread id d = Ok out /\ thread_of d m out.
Proof.
  intros [Hw _]. unfold GetThread, thread_fuel.
  destruct (sql_exists (has_public_id id) (db_messages d)) eqn:E.
  - right. apply sql_exists_true in E as (m & Hm & Hid). unfold has_public_id in Hid. bsimp.
    subst id. exists m.
    destruct (findThreadRoot_total d Hw (S (S (length (db_messages d)))) [] m)
      as (root & Hr & Hn & Hrd & ->); [done|constructor|set_solver|simpl; lia|].
    change (m_PublicID (thread_scanned root)) with (m_PublicID root).
    change [thread_scanned root] with (map thread_scanned [root]).
    destruct (thread_bfs_total d root Hw (S (S (length (db_messages d)))) [m_PublicID root] [root]
                [m_PublicID root]) as (O & vis & Hi & ->).
    + split; simpl; try set_solver; try apply NoDup_singleton;
      intros x ->%list_elem_of_singleton; (split; [done|apply rtc_refl]).
    + simpl. lia.
    + eexists. do 3 (split; [done|]). exists root.
      do 3 (split; [done|]). split; [apply StronglySorted_merge_sort; apply _|].
      assert (HO : NoDup (map m_ID (map thread_scanned O))).
      { rewrite map_map. apply (ids_from_public d); [done| |apply Hi]. intros x Hx. by apply Hi. }
      split.
      * rewrite (Permutation_map m_ID (merge_sort_Permutation id_le _)). exact HO.
      * intros x. rewrite merge_sort_Permutation, list_elem_of_In, in_map_iff.
        pose proof (walk_complete _ _ _ _ Hi) as Hc.
        split; [intros (y & <- & Hy)|intros (y & Hy & Hry & ->)]; exists y;
          rewrite <- ?list_elem_of_In in *; naive_solver.
  - left. rewrite sql_exists_false in E.
    assert (Hno : forall m, m ∈ db_messages d -> m_PublicID m <> id).
    { intros m Hm Hid. specialize (E m Hm). unfold has_public_id in E. by bsimp. }
    split; [|done]. cbn [findThreadRoot]. rewrite bool_decide_false by set_solver.
    destruct (List.find _ _) as [m|] eqn:F; [|done].
    apply List.find_some in F as [Hm Hid]. unfold has_public_id in Hid. bsimp.
    rewrite <- list_elem_of_In in Hm. by destruct (Hno m Hm).
Qed.

(** A reply to a reply: asking for the leaf returns the whole chain. *)
Definition reply_params (from to body re : string) : InsertParams :=
  with_reply_to re (simple_params from to body None).

Definition db_chain : DB :=
  snd (InsertMessage (reply_params "alice" "bob" "third" "0002") (entropy 3) (entropy 9) t1
    (snd (InsertMessage (reply_params "bob" "alice" "second" "0001") (entropy 2) (entropy 9) t1 db_one))).

Lemma db_chain_wf : store_wf db_chain.
Proof.
  apply (store_step_wf (snd (InsertMessage (reply_params "bob" "alice" "second" "0001")
           (entropy 2) (entropy 9) t1 db_one))); [exact (step_InsertMessage _ _ _ _ _)|].
  apply (store_step_wf db_one); [exact (step_InsertMessage _ _ _ _ _)|].
  apply (store_step_wf empty_db); [exact (step_InsertMessage _ _ _ _ _)|apply empty_db_wf].
Qed.

Lemma GetThread_complete_witness :
  (map m_ID <$> (match GetThread "0003" db_chain with Ok l => Some l | Err _ => None end))
    = Some [1; 2; 3] /\
  ((GetThread "0003" db_chain = Err ErrNotFound /\
     forall m, m ∈ db_messages db_chain -> m_PublicID m <> "0003") \/
   exists m out, m ∈ db_messages db_chain /\ m_PublicID m = "0003" /\
     GetThread "0003" db_chain = Ok out /\ thread_of db_chain m out).
Proof.
  split; [vm_compute; reflexivity|]. exact (GetThread_complete "0003" db_chain db_chain_wf).
Defined.

(** ** Reply paging *)

(** The replies to an ask, oldest first, in any state but deferred. *)
Definition all_replies (caller askID : string) (d : DB) : list Message :=
  sql_where (list_where (canonical_filter (reply_filter caller askID)) (db_messages d))
    (db_messages d).

Lemma ListReplies_eq caller askID sinceID d :
  ListReplies caller askID sinceID d =
    Ok (if sinceID <=? 0 then map scanned (take 1000 (all_replies caller askID d))
        else List.filter (fun m => sinceID <? m_ID m)
               (map scanned (take 1000 (all_replies caller askID d)))).
Proof. unfold ListReplies, ListMessages. simpl. by destruct (sinceID <=? 0). Qed.

Lemma take_prefix_le {A} (f : A -> Z) (l : list A) n x y :
  StronglySorted Z.lt (map f l) -> x ∈ take n l -> y ∈ drop n l -> f x < f y.
Proof.
  revert n. induction l as [|a l IH]; intros [|n]; simpl; intros Hs Hx Hy;
    try (by apply elem_of_nil in Hx); try (by apply elem_of_nil in Hy).
  inversion Hs as [|? ? Hs' Hall]; subst.
  apply elem_of_cons in Hx as [->|Hx]; [|by apply (IH n)].
  rewrite Forall_forall in Hall. apply Hall. apply list_elem_of_In, in_map.
  rewrite <- list_elem_of_In. rewrite <- (take_drop n l). set_solver.
Qed.

(** Reply polling is exact up to the cap and blind past it.  While an ask has at
    most a thousand replies, polling with a high-water id returns exactly the
    replies above it, oldest first.  But the cap is applied before the
    high-water id: once the thousand oldest replies are at or below it, polling
    returns nothing however many newer replies are stored, so the id cannot page
    past the cap. *)
Theorem ListReplies_paging caller askID sinceID d :
  store_wf d -> 0 < sinceID ->
  ((length (all_replies caller askID d) <= 1000)%nat ->
     ListReplies caller askID sinceID d =
       Ok (map scanned (sql_where (fun m => sinceID <? m_ID m) (all_replies caller askID d)))) /\
  ((forall m, m ∈ take 1000 (all_replies caller askID d) -> m_ID m <= sinceID) ->
     ListReplies caller askID sinceID d = Ok []).
Proof.
  intros [Hw _] Hs. rewrite ListReplies_eq.
  assert (sinceID <=? 0 = false) as -> by (apply Z.leb_gt; lia).
  assert (Hf : forall l, List.filter (fun m => sinceID <? m_ID m) (map scanned l) =
                 map scanned (sql_where (fun m => sinceID <? m_ID m) l)).
  { induction l as [|m l IH]; [done|]. simpl. destruct (sinceID <? m_ID m); simpl; by rewrite IH. }
  rewrite Hf. split; intros H.
  - by rewrite take_ge.
  - rewrite sql_where_none; [done|]. intros m Hm. apply Z.ltb_ge. by apply H.
Qed.

(** 1,001 replies to one ask: the last one is never returned past the cap. *)
Definition flood_row (i : Z) : Message :=
  mkMessage i (Str.itoa i) "bob" "alice" (if i =? 1 then None else Some "1") "re" KindMessage
    false false StateQueued t0 None None None None None None false 20 false.

Definition db_flood : DB :=
  mkDB (map flood_row (seqZ 1 1002)) 1002 ∅ ∅ ∅ [].

Lemma seqZ_sorted n m : StronglySorted Z.lt (seqZ m (Z.of_nat n)).
Proof.
  revert m. induction n as [|n IH]; intros m; [constructor|].
  rewrite seqZ_cons by lia. constructor.
  - replace (Z.pred (Z.of_nat (S n))) with (Z.of_nat n) by lia. apply IH.
  - apply Forall_forall. intros x Hx%elem_of_seqZ. lia.
Qed.

Lemma flood_elem m : m ∈ db_messages db_flood <-> exists i, 1 <= i <= 1002 /\ m = flood_row i.
Proof.
  unfold db_flood. cbn [db_messages]. rewrite list_elem_of_In, in_map_iff.
  split; intros (i & H1 & H2); exists i.
  - rewrite <- list_elem_of_In, elem_of_seqZ in H2. split; [lia|done].
  - split; [done|]. rewrite <- list_elem_of_In, elem_of_seqZ. lia.
Qed.

Lemma itoa_inj i j : Str.itoa i = Str.itoa j -> i = j.
Proof. apply (inj (pretty (A := Z))). Qed.

Lemma db_flood_wf : store_wf db_flood.
Proof.
  split; [|split; intros *; rewrite ?lookup_empty; done]. split.
  - unfold db_flood. cbn [db_messages].
    assert (E : map m_ID (map flood_row (seqZ 1 1002)) = seqZ 1 1002)
      by (rewrite map_map; apply map_id).
    rewrite E. apply (seqZ_sorted 1002).
  - intros m (i & Hi & ->)%flood_elem. simpl. lia.
  - simpl. lia.
  - unfold db_flood. cbn [db_messages].
    assert (E : map m_PublicID (map flood_row (seqZ 1 1002)) = Str.itoa <$> seqZ 1 1002)
      by apply map_map.
    rewrite E. apply (NoDup_fmap_2 Str.itoa). apply NoDup_seqZ.
  - intros m r (i & Hi & ->)%flood_elem. cbn [m_ReplyTo flood_row].
    destruct (i =? 1) eqn:E; [discriminate|]. apply Z.eqb_neq in E.
    intros H. injection H as <-. split; [discriminate|]. exists (flood_row 1).
    split; [apply flood_elem; exists 1; split; [lia|reflexivity]|].
    split; [reflexivity|cbn [m_ID flood_row]; lia].
  - intros m (i & Hi & ->)%flood_elem. split; simpl; done || (intuition congruence).
Qed.

Lemma ListReplies_paging_witness :
  length (all_replies "alice" "1" db_flood) = 1001%nat /\
  ListReplies "alice" "1" 1001 db_flood = Ok [].
Proof.
  split; [vm_compute; reflexivity|].
  destruct (ListReplies_paging "alice" "1" 1001 db_flood db_flood_wf) as [_ H]; [lia|].
  apply H. intros m Hm.
  assert (E : forallb (fun m => m_ID m <=? 1001) (take 1000 (all_replies "alice" "1" db_flood)) = true)
    by (vm_compute; reflexivity).
  revert E Hm. generalize (take 1000 (all_replies "alice" "1" db_flood)). intros l E Hm.
  rewrite forallb_forall in E. apply Z.leb_le, E. apply list_elem_of_In. exact Hm.
Defined.

(** ** Retention and foreign keys *)

(** The rows a sweep is meant to delete. *)
Definition expired (agent cutoff : string) (states : list State) (m : Message) : bool :=
  Str.ltb (m_CreatedAt m) cutoff && in_states states m && to_scope (CanonicalName agent) m.

(** A row that would survive the deletion replies to one that would not. *)
Definition answered_by_survivor (p : Message -> bool) (d : DB) : Prop :=
  exists m c, m ∈ db_messages d /\ c ∈ db_messages d /\ p m = true /\ p c = false /\
    m_ReplyTo c = Some (m_PublicID m).

(** A retention sweep deletes all its expired rows or none.  It succeeds exactly
    when no surviving row replies to an expired one; a single surviving reply, for
    instance one addressed to the other agent, makes the whole sweep fail with a
    foreign-key error and keep every row. *)
Theorem DeleteMessagesBefore_all_or_nothing agent cutoff states d :
  cutoff <> EmptyString -> states <> [] ->
  let (r, d') := DeleteMessagesBefore agent cutoff states d in
  (answered_by_survivor (expired agent cutoff states) d /\
   r = Err (ErrWrap "store: delete messages" ErrForeignKey) /\ d' = d) \/
  (r = Ok (sql_count (expired agent cutoff states) (db_messages d)) /\
   forall m, m ∈ db_messages d' <-> m ∈ db_messages d /\ expired agent cutoff states m = false).
Proof.
  intros Hc Hs. unfold DeleteMessagesBefore. cbv zeta.
  rewrite (bool_decide_false _ Hc), (bool_decide_false _ Hs).
  change (fun m => Str.ltb (m_CreatedAt m) cutoff && in_states states m && to_scope (CanonicalName agent) m)
    with (expired agent cutoff states).
  unfold exec_delete. destruct (fk_blocked (expired agent cutoff states) (db_messages d)) eqn:E.
  - left. split; [|done]. unfold fk_blocked in E.
    apply existsb_exists in E as (m & Hm & E). apply andb_true_iff in E as [Hp E].
    apply existsb_exists in E as (c & Hcin & E). bsimp.
    exists m, c. by rewrite !list_elem_of_In.
  - right. split; [done|]. intros m. apply sql_delete_elem.
Qed.

(** Bob's row expired, his answer to it is still there. *)
Definition db_answered : DB :=
  snd (InsertMessage (reply_params "bob" "alice" "answer" "0001") (entropy 2) (entropy 9) t1 db_done).

Lemma DeleteMessagesBefore_all_or_nothing_witness :
  DeleteMessagesBefore "bob" t1 [StateDelivered] db_answered
    = (Err (ErrWrap "store: delete messages" ErrForeignKey), db_answered).
Proof.
  pose proof (DeleteMessagesBefore_all_or_nothing "bob" t1 [StateDelivered] db_answered) as H.
  specialize (H ltac:(discriminate) ltac:(discriminate)).
  assert (E : is_ok (fst (DeleteMessagesBefore "bob" t1 [StateDelivered] db_answered)) = false)
    by (vm_compute; reflexivity).
  destruct (DeleteMessagesBefore "bob" t1 [StateDelivered] db_answered) as [r d'].
  destruct H as [(_ & -> & ->)|[-> _]]; [reflexivity|discriminate E].
Defined.
