(* ===== verification/PrefixProps.v ===== *)
(** * Correctness of the lookup by id prefix (internal/store/messages.go) *)

From S2P Require Import Prelude GoStd StoreTypes Messages Queue Queries.

Open Scope Z_scope.

Lemma ReplaceByte_app c r s t :
  Str.ReplaceByte c r (s +:+ t) = Str.ReplaceByte c r s +:+ Str.ReplaceByte c r t.
Proof.
  induction s as [|a s IH]; [done|]. simpl. rewrite IH.
  case_bool_decide; [by rewrite StrFacts.string_app_assoc|done].
Qed.

(** The escape of one byte. *)
Definition escape1 (c : ascii) : string :=
  if bool_decide (c = backslash) || bool_decide (c = percent) || bool_decide (c = underscore)
  then escaped_by c else String c EmptyString.

Lemma escape_cons c s : escapeLikePrefix (String c s) = escape1 c +:+ escapeLikePrefix s.
Proof.
  unfold escapeLikePrefix, escape1. cbv zeta.
  change (String c s) with (String c EmptyString +:+ s). rewrite !ReplaceByte_app. f_equal.
  simpl. destruct (decide (c = backslash)) as [->|H1]; [by vm_compute|].
  rewrite (bool_decide_false _ H1). simpl.
  destruct (decide (c = percent)) as [->|H2]; [by vm_compute|].
  rewrite (bool_decide_false _ H2). simpl.
  destruct (decide (c = underscore)) as [->|H3]; [by vm_compute|].
  by rewrite (bool_decide_false _ H3).
Qed.

Lemma like_percent fuel s :
  (String.length s < fuel)%nat -> sql_like (S fuel) (String percent EmptyString) s = true.
Proof.
  revert fuel. induction s as [|a s IH]; intros fuel Hlen.
  - destruct fuel as [|fuel]; [simpl in Hlen; lia|]. done.
  - destruct fuel as [|fuel]; [simpl in Hlen; lia|].
    change (sql_like (S (S fuel)) (String percent EmptyString) (String a s)) with
      (sql_like (S fuel) EmptyString (String a s) || sql_like (S fuel) (String percent EmptyString) s).
    simpl in Hlen. rewrite IH by lia. apply orb_true_r.
Qed.

Lemma lower_cons a s : Str.ToLower (String a s) = String (Str.lower_byte a) (Str.ToLower s).
Proof. done. Qed.

Lemma prefix_cons a p b s :
  String.prefix (String a p) (String b s) = bool_decide (a = b) && String.prefix p s.
Proof. simpl. destruct (ascii_dec a b) as [E|E]; case_bool_decide; done. Qed.

Lemma like_escaped p s fuel :
  (String.length (escapeLikePrefix p) + String.length s + 2 <= fuel)%nat ->
  sql_like fuel (escapeLikePrefix p +:+ String percent EmptyString) s =
  String.prefix (Str.ToLower p) (Str.ToLower s).
Proof.
  revert s fuel. induction p as [|c p IH]; intros s fuel Hlen.
  - destruct fuel as [|fuel]; [lia|]. simpl (escapeLikePrefix _ +:+ _).
    rewrite like_percent by (simpl in Hlen; lia). by destruct (Str.ToLower s).
  - rewrite escape_cons in Hlen |- *. unfold escape1 in *.
    destruct (bool_decide (c = backslash) || bool_decide (c = percent) ||
              bool_decide (c = underscore)) eqn:E.
    + destruct fuel as [|fuel]; [simpl in Hlen; lia|].
      destruct s as [|b s]; [done|].
      rewrite lower_cons, (lower_cons b), prefix_cons.
      simpl in Hlen. rewrite <- IH with (fuel := fuel) by lia. done.
    + apply orb_false_iff in E as [E E3]. apply orb_false_iff in E as [E1 E2].
      destruct fuel as [|fuel]; [simpl in Hlen; lia|].
      destruct s as [|b s]; cbn [sql_like String.append]; rewrite E1, E2; [done|].
      rewrite E3, lower_cons, (lower_cons b), prefix_cons.
      simpl in Hlen. by rewrite <- IH with (fuel := fuel) by lia.
Qed.

(** The row's public id starts with the bytes of [prefix], up to ASCII case. *)
Definition id_starts_with (prefix : string) (m : Message) : bool :=
  Str.HasPrefix (Str.ToLower (m_PublicID m)) (Str.ToLower prefix).

(** A prefix lookup cannot be turned into an enumeration.  Whatever bytes the
    prefix holds, wildcards and backslashes included, it matches exactly the rows
    whose public id starts with those bytes up to ASCII case; the empty prefix is
    an error. *)
Theorem FindMessagesByPrefix_literal prefix d :
  FindMessagesByPrefix prefix d =
  if str_empty prefix then Err (ErrMsg "store: prefix required")
  else Ok (map scanned (sql_where (id_starts_with prefix) (db_messages d))).
Proof.
  unfold FindMessagesByPrefix. cbv zeta. case_bool_decide; [done|]. do 2 f_equal.
  apply sql_where_ext. intros m _. unfold sql_LIKE, id_starts_with, Str.HasPrefix. apply like_escaped.
  rewrite StrFacts.string_length_app. simpl. lia.
Qed.
