(* ===== verification/BudgetProps.v ===== *)
(** * Correctness of the communication budget

    The refill is a flow, balances stay between the overdraft floor and the capacity
    whatever is charged and refunded, splitting a send does not make it cheaper, and
    what the advised waiting time is worth. *)

From Stdlib Require Import QArith.QArith Lqa.
From S2P Require Import Prelude GoStd Clock StoreTypes Messages QueueProps Budget.

Open Scope Z_scope.
Open Scope Q_scope.

(** ** Rationals as floats *)

Lemma Qlt_bool_iff a b : Qlt_bool a b = true <-> a < b.
Proof. unfold Qlt_bool, Qlt. apply Z.ltb_lt. Qed.

Lemma Qlt_bool_false a b : Qlt_bool a b = false <-> b <= a.
Proof. unfold Qlt_bool, Qle. rewrite Z.ltb_ge. done. Qed.

Lemma Qle_bool_false a b : Qle_bool a b = false <-> b < a.
Proof.
  split; intros H.
  - apply Qnot_le_lt. intros H1%Qle_bool_iff. congruence.
  - destruct (Qle_bool a b) eqn:E; [|done]. apply Qle_bool_iff in E. lra.
Qed.

(** Turn every float comparison of the goal into an inequality, inner ones first. *)
Ltac no_test a :=
  lazymatch a with
  | context [Qle_bool _ _] => fail
  | context [Qlt_bool _ _] => fail
  | _ => idtac
  end.

Ltac qcases :=
  repeat match goal with
  | |- context [Qle_bool ?a ?b] =>
      no_test a; no_test b; let E := fresh "E" in destruct (Qle_bool a b) eqn:E;
      [apply Qle_bool_iff in E|apply Qle_bool_false in E]
  | |- context [Qlt_bool ?a ?b] =>
      no_test a; no_test b; let E := fresh "E" in destruct (Qlt_bool a b) eqn:E;
      [apply Qlt_bool_iff in E|apply Qlt_bool_false in E]
  end.

#[export] Instance Qlt_bool_proper : Proper (Qeq ==> Qeq ==> eq) Qlt_bool.
Proof. intros a a' Ha b b' Hb. qcases; try done; rewrite ?Ha, ?Hb in *; lra. Qed.

#[export] Instance Qle_bool_proper : Proper (Qeq ==> Qeq ==> eq) Qle_bool.
Proof. intros a a' Ha b b' Hb. qcases; try done; lra. Qed.

Lemma float_nonneg n : (0 <= n)%Z -> 0 <= float n.
Proof. unfold float, Qle. simpl. lia. Qed.

Lemma float_le a b : (a <= b)%Z -> float a <= float b.
Proof. unfold float, Qle. simpl. lia. Qed.

Lemma float_add a b : float (a + b) == float a + float b.
Proof. unfold float, Qeq, Qplus. simpl. lia. Qed.

Lemma Hours_add a b : Hours (a + b) == Hours a + Hours b.
Proof. unfold Hours, Qeq, Qplus. simpl. lia. Qed.

Lemma Hours_pos a : (0 < a)%Z -> 0 < Hours a.
Proof. unfold Hours, Qlt. simpl. lia. Qed.

(** ** The refill as a flow *)

(** The refill by an amount [x] of full-rate recovery. *)
Definition refill (b c x : Q) : Q :=
  if Qle_bool 0 b then fmin (b + x) c
  else if Qle_bool (b + x * RecoveryFactor) 0 then b + x * RecoveryFactor
  else fmin (x + 2 * b) c.

#[export] Instance fmin_proper : Proper (Qeq ==> Qeq ==> Qeq) fmin.
Proof. intros a a' Ha b b' Hb. unfold fmin. qcases; lra. Qed.

#[export] Instance refill_proper : Proper (Qeq ==> Qeq ==> Qeq ==> Qeq) refill.
Proof.
  intros b b' Hb c c' Hc x x' Hx. unfold refill, RecoveryFactor.
  assert (Qle_bool 0 b = Qle_bool 0 b') as -> by (by rewrite Hb).
  assert (Qle_bool (b + x * (1 # 2)) 0 = Qle_bool (b' + x' * (1 # 2)) 0) as -> by (by rewrite Hb, Hx).
  repeat (case_match); try apply fmin_proper; lra.
Qed.

Lemma Refilled_refill b c r t :
  (0 < t)%Z -> 0 < r -> Refilled b c r t == refill b c (r * Hours t).
Proof.
  intros Ht Hr. unfold Refilled. rewrite (proj2 (Z.leb_gt _ _)) by done.
  rewrite (proj2 (Qle_bool_false _ _)) by done. simpl. unfold refill, RecoveryFactor.
  destruct (Qle_bool 0 b) eqn:Eb; [reflexivity|]. apply Qle_bool_false in Eb.
  assert (r * (- b / (r * (1 # 2))) == - 2 * b) as Hz by (field; lra).
  set (z := - b / (r * (1 # 2))) in *. set (h := Hours t).
  assert (Qle_bool h z = Qle_bool (b + r * h * (1 # 2)) 0) as ->.
  { assert (r * (h - z) == r * h + 2 * b) as Hd by lra. qcases; try done; exfalso.
    - assert (r * (z - h) >= 0) by nra. lra.
    - assert (r * (h - z) > 0) by nra. lra. }
  destruct (Qle_bool (b + r * h * (1 # 2)) 0); [ring|].
  apply fmin_proper; [lra|reflexivity].
Qed.

Lemma fmin_spec a b : fmin a b <= a /\ fmin a b <= b /\ (fmin a b == a \/ fmin a b == b).
Proof. unfold fmin. qcases; repeat split; try lra; auto with qarith. Qed.

(** Case analysis of a refill. *)
Ltac refill_cases :=
  unfold refill, fmin, RecoveryFactor; qcases; try done; try lra.

Lemma refill_range b c x : 0 <= x -> b <= c -> 0 <= c -> b <= refill b c x <= c.
Proof. intros. refill_cases. Qed.

Lemma refill_flow b c x y :
  0 <= x -> 0 <= y -> 0 <= c -> b <= c -> refill (refill b c x) c y == refill b c (x + y).
Proof. intros. refill_cases. Qed.

(** Without a positive rate or elapsed time a balance under the cap stays. *)
Lemma Refilled_still b c r t : b <= c -> (t <= 0)%Z \/ r <= 0 -> Refilled b c r t == b.
Proof.
  intros Hb H. unfold Refilled.
  assert ((t <=? 0)%Z || Qle_bool r 0 = true) as ->.
  { destruct H; [by rewrite (proj2 (Z.leb_le _ _))|]. rewrite (proj2 (Qle_bool_iff _ _)) by done. apply orb_true_r. }
  unfold fmin. qcases; lra.
Qed.

Lemma Refilled_cases b c r t :
  b <= c -> (Refilled b c r t == b /\ ((t <= 0)%Z \/ r <= 0)) \/
            ((0 < t)%Z /\ 0 < r /\ Refilled b c r t == refill b c (r * Hours t)).
Proof.
  intros Hb. destruct (Z.leb_spec t 0) as [Ht|Ht]; [left; split; [by apply Refilled_still; auto|auto]|].
  destruct (Qlt_le_dec 0 r) as [Hr|Hr]; [right; split; [done|]; split; [done|by apply Refilled_refill]|].
  left. split; [apply Refilled_still; auto|auto].
Qed.

Lemma Refilled_range b c r t : 0 <= c -> b <= c -> b <= Refilled b c r t <= c.
Proof.
  intros Hc Hb. destruct (Refilled_cases b c r t Hb) as [[-> _]|(Ht & Hr & ->)]; [lra|].
  apply refill_range; [|done|done]. pose proof (Hours_pos t Ht). nra.
Qed.

#[export] Instance Refilled_proper : Proper (Qeq ==> Qeq ==> Qeq ==> eq ==> Qeq) Refilled.
Proof.
  intros b b' Hb c c' Hc r r' Hr t t' <-. unfold Refilled, RecoveryFactor.
  assert (Qle_bool r 0 = Qle_bool r' 0) as -> by (by rewrite Hr).
  assert (Qle_bool 0 b = Qle_bool 0 b') as -> by (by rewrite Hb).
  assert (Qle_bool (Hours t) (- b / (r * (1 # 2))) = Qle_bool (Hours t) (- b' / (r' * (1 # 2)))) as ->
    by (by rewrite Hb, Hr).
  repeat case_match; try apply fmin_proper; rewrite ?Hb, ?Hc, ?Hr; reflexivity.
Qed.

(** Refilling on read is refilling continuously.  Reading a balance at any
    instants in between changes nothing: refilling for one span and then for another
    is refilling for their sum, in debt or not, across the end of the debt and the
    capacity.  The balance never shrinks and never exceeds the capacity. *)
Theorem Refilled_continuous b c r t1 t2 :
  (0 <= t1)%Z -> (0 <= t2)%Z -> 0 <= c -> b <= c ->
  Refilled (Refilled b c r t1) c r t2 == Refilled b c r (t1 + t2) /\
  b <= Refilled b c r t1 <= c.
Proof.
  intros H1 H2 Hc Hb. pose proof (Refilled_range b c r t1 Hc Hb) as Hr1. split; [|done].
  destruct (Refilled_cases b c r t1 Hb) as [[E1 D1]|(T1 & R1 & E1)].
  - rewrite E1. destruct D1 as [D1|D1]; [replace t1 with 0%Z by lia; by rewrite Z.add_0_l|].
    rewrite !Refilled_still by auto. reflexivity.
  - destruct (Refilled_cases (Refilled b c r t1) c r t2) as [[E2 [D2|D2]]|(T2 & R2 & E2)]; [lra| |lra|].
    + rewrite E2. replace t2 with 0%Z by lia. by rewrite Z.add_0_r.
    + rewrite E2, E1, (Refilled_refill b c r (t1 + t2)) by (done || lia).
      pose proof (Hours_pos t1 T1). pose proof (Hours_pos t2 T2).
      rewrite refill_flow by (done || nra). apply refill_proper; [reflexivity|reflexivity|].
      rewrite Hours_add. lra.
Qed.

Lemma Refilled_continuous_witness :
  Refilled (Refilled (-4) 120 16 Time.Hour) 120 16 Time.Hour == Refilled (-4) 120 16 (Time.Hour + Time.Hour) /\
  Refilled (-4) 120 16 (Time.Hour + Time.Hour) == 24.
Proof.
  split; [|vm_compute; reflexivity].
  apply (Refilled_continuous (-4) 120 16 Time.Hour Time.Hour); [done|done|done|done].
Defined.

(** ** Balances stay between the floor and the capacity *)

Section Priced.
Context (math_Pow : Q -> Q -> Q).

Lemma Cost_nonneg prior new deliveries bytes alpha :
  0 <= alpha -> (0 <= bytes)%Z -> 0 <= Cost math_Pow prior new deliveries bytes alpha.
Proof.
  intros Ha Hb. unfold Cost. destruct (Z.leb_spec deliveries 0) as [H|H]; [lra|].
  pose proof (float_nonneg deliveries ltac:(lia)). pose proof (float_nonneg bytes Hb).
  assert (0 <= float bytes / LengthDivisor) by (apply Qle_shift_div_l; [reflexivity|unfold LengthDivisor; lra]).
  assert (0 <= alpha * float deliveries) by (by apply Qmult_le_0_compat).
  cbv zeta. apply Qmult_le_0_compat; [qcases; lra|lra].
Qed.

(** The tunables a deployment charges and refunds under. *)
Record tuned (c : Q) (p : BudgetParams) : Prop := {
  tn_cap : bp_Capacity p == c;
  tn_alpha : 0 <= bp_Alpha p;
  tn_bytes : (0 <= bp_Bytes p)%Z
}.

Definition in_bounds (c : Q) (d : DB) : Prop :=
  map_Forall (fun _ e => Overdraft c <= fst e <= c) (db_budgets d).

Lemma Overdraft_neg c : 0 <= c -> Overdraft c <= 0.
Proof. unfold Overdraft, DefaultOverdraftRatio. lra. Qed.

Lemma current_balance_bounds c now p d :
  0 <= c -> bp_Capacity p == c -> in_bounds c d -> Overdraft c <= current_balance now p d <= c.
Proof.
  intros Hc Hp Hd. pose proof (Overdraft_neg c Hc). unfold current_balance.
  destruct (db_budgets d !! bp_Agent p) as [[b at_]|] eqn:E; [|lra].
  apply Hd in E. simpl in E. destruct (parseISO at_); [|done].
  rewrite Hp. pose proof (Refilled_range b c (bp_RefillPerHour p) (now - z) Hc ltac:(lra)). lra.
Qed.

(** One charge or refund. *)
Inductive budget_step (c : Q) : DB -> DB -> Prop :=
  | step_charge now p d : tuned c p -> budget_step c d (snd (ChargeBudget math_Pow now p d))
  | step_refund now agent amount cap d : cap == c -> budget_step c d (RefundBudget now agent amount cap d).

Lemma budget_step_bounds c d d' : 0 <= c -> in_bounds c d -> budget_step c d d' -> in_bounds c d'.
Proof.
  intros Hc Hd Hs. destruct Hs as [now p d [Hcap Ha Hb]|now agent amount cap d Hcap].
  - unfold ChargeBudget. destruct (negb _) eqn:En; [done|]. simpl.
    apply map_Forall_insert_2; [|done]. simpl. apply negb_false_iff in En. simpl in En.
    unfold Affordable in En. apply Qle_bool_iff in En. revert En.
    unfold Overdraft. rewrite Hcap. pose proof (current_balance_bounds c now p d Hc Hcap Hd).
    match goal with |- context [Cost ?f ?a ?b ?n ?y ?al] => pose proof (Cost_nonneg a b n y al Ha Hb) end. lra.
  - unfold RefundBudget. destruct (Qle_bool amount 0) eqn:Ea; [done|]. apply Qle_bool_false in Ea.
    destruct (db_budgets d !! agent) as [[b at_]|] eqn:E; [|done].
    apply map_Forall_insert_2; [|done]. simpl. apply Hd in E. simpl in E.
    pose proof (Overdraft_neg c Hc). qcases; lra.
Qed.

(** What a charge did. *)
Definition charge_outcome (c : Q) (now : Z) (p : BudgetParams) (d : DB) : Prop :=
  let q := QuoteBudget math_Pow now p d in
  let '((st, err), d') := ChargeBudget math_Pow now p d in
  match err with
  | None =>
      bs_Balance st = bs_Remaining q /\ bs_Remaining q = bs_Balance q - bs_Cost q /\
      0 <= bs_Cost q /\ Overdraft c <= bs_Remaining q /\
      d' = set_budgets (<[bp_Agent p := (bs_Remaining q, Time.formatISO now)]> (db_budgets d)) d
  | Some e =>
      errors_Is e ErrBudgetExhausted = true /\ st = q /\ bs_Balance q - bs_Cost q < Overdraft c /\ d' = d
  end.

Lemma charge_outcome_ok c now p d : tuned c p -> charge_outcome c now p d.
Proof.
  intros [Hcap Ha Hb]. unfold charge_outcome, QuoteBudget, ChargeBudget.
  destruct (bs_Affordable (quoteBudgetInTx math_Pow now p d)) eqn:E; simpl negb; cbv iota; simpl in E;
    unfold Affordable, Overdraft in *; rewrite Hcap in E.
  - apply Qle_bool_iff in E. split_and!; try done. by apply Cost_nonneg.
  - apply Qle_bool_false in E. by split_and!.
Qed.

(** A balance never leaves its range, and money is conserved.  Whatever sequence
    of charges and refunds, every stored balance stays between the overdraft floor
    and the capacity.  A charge in such a database either debits exactly the quoted
    cost, from the sender only and not below the floor, or reports exhaustion with
    the quote it refused on and changes nothing; it refuses only what would cross the
    floor. *)
Theorem budget_stays_in_bounds c d0 d :
  0 <= c -> in_bounds c d0 -> rtc (budget_step c) d0 d ->
  in_bounds c d /\ forall now p, tuned c p -> charge_outcome c now p d.
Proof.
  intros Hc H0 Hr. split; [|intros; by apply charge_outcome_ok].
  induction Hr as [|d0 d1 d Hs Hr IH]; [done|]. apply IH. by eapply budget_step_bounds.
Qed.

(** ** Splitting a send *)

(** [math.Pow(x, 1.5)] does not decrease. *)
Definition pow_grows : Prop :=
  forall a b, 0 <= a -> a <= b -> 0 <= math_Pow a BreadthExponent <= math_Pow b BreadthExponent.

Lemma breadth_mono a b : pow_grows -> (a <= b)%Z -> breadth math_Pow a <= breadth math_Pow b.
Proof.
  intros Hp Hab. unfold breadth.
  destruct (Z.leb_spec a 0), (Z.leb_spec b 0); try lia; try lra.
  - apply (Hp (float b) (float b)); [apply float_nonneg; lia|lra].
  - apply Hp; [apply float_nonneg; lia|by apply float_le].
Qed.

(** The price where the recipients reached grow from [a] to [b]. *)
Lemma Cost_marginal a b n y alpha :
  pow_grows -> (a <= b)%Z -> (0 <= n)%Z -> (n = 0 -> a = b)%Z ->
  Cost math_Pow a b n y alpha
    == (breadth math_Pow b - breadth math_Pow a + alpha * float n) * (1 + float y / LengthDivisor).
Proof.
  intros Hp Hab Hn H0. pose proof (breadth_mono a b Hp Hab). unfold Cost.
  destruct (Z.leb_spec n 0) as [H1|H1].
  - assert (n = 0)%Z as -> by lia. rewrite (H0 eq_refl). unfold float at 1. ring.
  - cbv zeta. qcases; [lra|reflexivity].
Qed.

Definition for_recipients (rs : list string) (p : BudgetParams) : BudgetParams :=
  mkBudgetParams (bp_Agent p) rs (bp_Bytes p) (bp_Capacity p) (bp_RefillPerHour p) (bp_Alpha p) (bp_Window p).

(** The messages of one send all land. *)
Inductive lands (agent now : string) : list string -> DB -> DB -> Prop :=
  | lands_none d : lands agent now [] d d
  | lands_one to tos q rnd rndR res d d1 d2 :
      p_FromAgent q = agent -> p_ToAgent q = to ->
      InsertMessage q rnd rndR now d = (Ok res, d1) ->
      lands agent now tos d1 d2 -> lands agent now (to :: tos) d d2.

(** Several sends, each charged and then delivered to the store; the total charged. *)
Inductive paid_sends (now : Z) (p : BudgetParams) : list (list string) -> DB -> DB -> Q -> Prop :=
  | paid_none d : paid_sends now p [] d d 0
  | paid_one g gs st d d1 d2 d3 total :
      ChargeBudget math_Pow now (for_recipients g p) d = ((st, None), d1) ->
      lands (bp_Agent p) (Time.formatISO now) g d1 d2 ->
      paid_sends now p gs d2 d3 total ->
      paid_sends now p (g :: gs) d d3 (bs_Cost st + total).

Lemma insert_window agent cutoff q rnd rndR now d res d1 :
  InsertMessage q rnd rndR now d = (Ok res, d1) ->
  p_FromAgent q = agent -> CanonicalName agent = agent -> CanonicalName (p_ToAgent q) = p_ToAgent q ->
  Str.ltb cutoff now = true ->
  budget_window agent cutoff d1 = budget_window agent cutoff d ∪ {[ p_ToAgent q ]}.
Proof.
  intros E Hf Hc Ht Hlt. pose proof (InsertMessage_outcome q rnd rndR now d) as H. rewrite E in H.
  destruct H as (Hrows & _). unfold budget_window. rewrite Hrows, sql_where_app, map_app, list_to_set_app_L.
  f_equal. unfold sql_where. simpl.
  assert (in_window agent cutoff (new_row (effective_params q) (ir_PublicID res) now d) = true) as ->.
  { unfold in_window, effective_params. simpl. rewrite Hlt.
    destruct (str_empty (p_DeliverAfter q)) eqn:Ed; simpl; rewrite Hf, Hc, ?Ed, bool_decide_true by done; simpl;
      by rewrite ?bool_decide_false. }
  simpl. rewrite union_empty_r_L. unfold effective_params. by case_match; simpl; rewrite Ht.
Qed.

Lemma lands_window agent cutoff now tos d d' :
  lands agent now tos d d' -> CanonicalName agent = agent ->
  Forall (fun to => CanonicalName to = to) tos -> Str.ltb cutoff now = true ->
  budget_window agent cutoff d' = budget_window agent cutoff d ∪ list_to_set tos.
Proof.
  intros H Hc Ht Hlt. induction H as [d|to tos q rnd rndR res d d1 d2 Hf Hto Hi _ IH]; [set_solver|].
  apply Forall_cons in Ht as [Ht1 Ht]. rewrite IH by done. subst to.
  rewrite (insert_window agent cutoff q rnd rndR now d res d1) by done. set_solver.
Qed.

(** What a quote charges, from the sizes of the window before and after. *)
Lemma quote_cost now p g d :
  pow_grows ->
  let W := budget_window (bp_Agent p) (Time.formatISO (now - bp_Window p)) d in
  let size_of (X : gset string) := Z.of_nat (size X) in
  bs_Cost (QuoteBudget math_Pow now (for_recipients g p) d)
    == (breadth math_Pow (size_of (W ∪ list_to_set g)) - breadth math_Pow (size_of W)
        + bp_Alpha p * float (Z.of_nat (length g))) * (1 + float (bp_Bytes p) / LengthDivisor).
Proof.
  intros Hp W size_of. simpl. fold W. apply Cost_marginal; [done| |lia|].
  - unfold size_of. apply Nat2Z.inj_le, subseteq_size. set_solver.
  - intros Hg. assert (g = []) as -> by (destruct g; [done|simpl in Hg; lia]).
    unfold size_of. by rewrite list_to_set_nil, union_empty_r_L.
Qed.

Lemma charge_keeps_messages now p st e d d1 :
  ChargeBudget math_Pow now p d = ((st, e), d1) ->
  db_messages d1 = db_messages d /\ bs_Cost st = bs_Cost (QuoteBudget math_Pow now p d).
Proof. unfold ChargeBudget. destruct (negb _); intros [= <- _ <-]; done. Qed.

(** A row written now is inside a window of at least a millisecond. *)
Lemma window_open now w :
  instant now -> instant (now - w) -> (Time.Millisecond <= w)%Z ->
  Str.ltb (Time.formatISO (now - w)) (Time.formatISO now) = true.
Proof.
  intros H1 H2 Hw. unfold Str.ltb, String.ltb. rewrite compare_formatISO by done.
  assert (ms_of (now - w) < ms_of now)%Z as Hlt.
  { unfold ms_of, Time.Millisecond in *. apply Z.lt_le_trans with ((now - w) / 1000000 + 1)%Z; [lia|].
    rewrite <- Z.div_add by lia. apply Z.div_le_mono; lia. }
  by rewrite (proj2 (Z.compare_lt_iff _ _) Hlt).
Qed.

(** Splitting a send does not make it cheaper.  A sender that reaches recipients
    with any number of sends of one body, at one instant, each charged and landed
    before the next is priced, is charged in total exactly what one fan-out to all of
    them would have cost, whatever it had sent before. *)
Theorem splitting_is_neutral now p gs d d' total :
  pow_grows -> CanonicalName (bp_Agent p) = bp_Agent p ->
  Forall (Forall (fun to => CanonicalName to = to)) gs ->
  instant now -> instant (now - bp_Window p) -> (Time.Millisecond <= bp_Window p)%Z ->
  paid_sends now p gs d d' total ->
  total == bs_Cost (QuoteBudget math_Pow now (for_recipients (concat gs) p) d).
Proof.
  intros Hp Hc Hg Hn Hn' Hw H. pose proof (window_open now (bp_Window p) Hn Hn' Hw) as Hlt.
  induction H as [d|g gs st d d1 d2 d3 total Hch Hl _ IH]; [simpl; unfold Cost; simpl; reflexivity|].
  apply Forall_cons in Hg as [Hg1 Hg]. rewrite (IH Hg). clear IH.
  apply charge_keeps_messages in Hch as [Hm ->].
  apply (lands_window _ (Time.formatISO (now - bp_Window p))) in Hl; [|done..].
  rewrite !quote_cost by done. rewrite Hl.
  assert (budget_window (bp_Agent p) (Time.formatISO (now - bp_Window p)) d1
          = budget_window (bp_Agent p) (Time.formatISO (now - bp_Window p)) d) as ->
    by (unfold budget_window; by rewrite Hm).
  simpl concat. rewrite length_app, Nat2Z.inj_add, float_add, list_to_set_app_L, union_assoc_L. ring.
Qed.
End Priced.

(** A concrete [math.Pow] on the exponent in use: squaring. *)
Definition square (x _ : Q) : Q := x * x.

Definition demo_budget : BudgetParams :=
  mkBudgetParams "alice" ["bob"; "carol"] 100 120 16 (1 # 4) (15 * Time.Minute).

Definition demo_now : Z := 1750000000000000000.

Lemma budget_stays_in_bounds_witness :
  in_bounds 120 (snd (ChargeBudget square demo_now demo_budget empty_db)) /\
  charge_outcome square 120 demo_now demo_budget
    (snd (ChargeBudget square demo_now demo_budget empty_db)).
Proof.
  assert (tuned 120 demo_budget) as Ht by (split; simpl; [reflexivity|lra|lia]).
  destruct (budget_stays_in_bounds square 120 empty_db
              (snd (ChargeBudget square demo_now demo_budget empty_db))) as [H1 H2].
  - lra.
  - apply map_Forall_empty.
  - apply rtc_once. by constructor.
  - split; [exact H1|by apply H2].
Defined.

(** [alice] pays for a message to [bob] and then for one to [carol]. *)
Lemma splitting_is_neutral_witness : exists d total,
  paid_sends square demo_now demo_budget [["bob"]; ["carol"]] empty_db d total /\
  total == bs_Cost (QuoteBudget square demo_now (for_recipients ["bob"; "carol"] demo_budget) empty_db).
Proof.
  assert (exists d total,
    paid_sends square demo_now demo_budget [["bob"]; ["carol"]] empty_db d total) as (d & total & H).
  { do 2 eexists.
    eapply paid_one; [vm_compute; reflexivity| |].
    { eapply (lands_one _ _ _ _ (simple_params "alice" "bob" "hi" None) (entropy 1) (entropy 1));
        [reflexivity..|vm_compute; reflexivity|apply lands_none]. }
    eapply paid_one; [vm_compute; reflexivity| |apply paid_none].
    eapply (lands_one _ _ _ _ (simple_params "alice" "carol" "hi" None) (entropy 2) (entropy 2));
      [reflexivity..|vm_compute; reflexivity|apply lands_none]. }
  exists d, total. split; [exact H|].
  apply (splitting_is_neutral square demo_now demo_budget [["bob"]; ["carol"]] empty_db d total).
  - intros a b Ha Hab. unfold square. split; nra.
  - reflexivity.
  - repeat constructor.
  - done.
  - done.
  - done.
  - exact H.
Defined.

(** ** The advised wait *)

Lemma Qtrunc_bounds q : 0 <= q -> float (Qtrunc q) <= q /\ q < float (Qtrunc q + 1) /\ (0 <= Qtrunc q)%Z.
Proof.
  destruct q as [n d]. unfold float, Qtrunc, Qle, Qlt. simpl. intros H.
  rewrite Z.quot_div_nonneg by lia. pose proof (Z.mul_div_le n (Zpos d) ltac:(lia)).
  pose proof (Z.mul_succ_div_gt n (Zpos d) ltac:(lia)). pose proof (Z.div_pos n (Zpos d) ltac:(lia) ltac:(lia)).
  lia.
Qed.

Lemma Hours_float t : Hours t == float t / float Time.Hour.
Proof. unfold Hours. rewrite Qmake_Qdiv. reflexivity. Qed.

(** The wait in hours, before it is rounded down to a nanosecond. *)
Lemma TimeToAfford_hours b cost c r :
  0 < r -> Affordable b cost c = false ->
  let rate := if Qlt_bool b 0 then r * RecoveryFactor else r in
  let need := cost + Overdraft c - b in
  let t := TimeToAfford b cost c r in
  (0 <= t)%Z /\ 0 < need /\ rate * Hours t <= need /\ need < rate * Hours (t + 1).
Proof.
  intros Hr Ha. unfold TimeToAfford. rewrite Ha, (proj2 (Qle_bool_false _ _)) by done. cbv zeta.
  set (rate := if Qlt_bool b 0 then r * RecoveryFactor else r).
  assert (0 < rate) as Hrate by (unfold rate, RecoveryFactor; qcases; lra).
  set (need := cost + Overdraft c - b).
  assert (0 < need) as Hneed by (unfold Affordable in Ha; apply Qle_bool_false in Ha; unfold need; lra).
  assert (0 < float Time.Hour) as Hh by reflexivity.
  set (q := need / rate * float Time.Hour).
  assert (rate * (q / float Time.Hour) == need) as Eq by (unfold q; field; lra).
  assert (0 <= q) as Hq.
  { unfold q. apply Qmult_le_0_compat; [|lra]. apply Qle_shift_div_l; [done|lra]. }
  destruct (Qtrunc_bounds q Hq) as (H1 & H2 & H0). split; [done|]. split; [done|].
  rewrite !Hours_float, <- Eq.
  assert (forall x y, x <= y -> rate * (x / float Time.Hour) <= rate * (y / float Time.Hour)) as Hle.
  { intros x y Hxy. apply Qmult_le_l; [done|]. apply Qle_shift_div_l; [done|].
    assert (x / float Time.Hour * float Time.Hour == x) as -> by (field; lra). done. }
  split; [by apply Hle|]. apply Qmult_lt_l; [done|]. apply Qlt_shift_div_l; [done|].
  assert (q / float Time.Hour * float Time.Hour == q) as -> by (field; lra). done.
Qed.

(** What the advised wait is worth.  For a send that is refused now: if its price
    fits under the capacity, it is affordable one nanosecond after the advised wait;
    from a balance that is not negative, not any earlier; and if the price does not
    fit, it is never affordable, whatever is advised. *)
Theorem TimeToAfford_sound b cost c r :
  0 <= c -> b <= c -> 0 < r -> Affordable b cost c = false ->
  (cost + Overdraft c <= c ->
     Affordable (Refilled b c r (TimeToAfford b cost c r + 1)) cost c = true) /\
  (0 <= b -> forall t, (t < TimeToAfford b cost c r)%Z ->
     Affordable (Refilled b c r t) cost c = false) /\
  (c < cost + Overdraft c -> forall t, Affordable (Refilled b c r t) cost c = false).
Proof.
  intros Hc Hb Hr Ha. destruct (TimeToAfford_hours b cost c r Hr Ha) as (H0 & Hneed & Hlo & Hhi).
  set (t := TimeToAfford b cost c r) in *. set (goal := cost + Overdraft c) in *. unfold Affordable. split_and!.
  - intros Hfit. apply Qle_bool_iff. rewrite Refilled_refill by (done || lia). revert Hhi.
    unfold RecoveryFactor. set (x := Hours (t + 1)). intros Hhi.
    enough (goal <= refill b c (r * x)) by (unfold goal in *; lra).
    revert Hhi. destruct (Qlt_bool b 0) eqn:Eb; [apply Qlt_bool_iff in Eb|apply Qlt_bool_false in Eb];
      intros Hhi; refill_cases.
  - intros Hb0 t' Ht'. apply Qle_bool_false.
    enough (Refilled b c r t' < goal) by (unfold goal in *; lra).
    destruct (Refilled_cases b c r t' Hb) as [[-> _]|(Ht & _ & ->)]; [lra|].
    rewrite (proj2 (Qlt_bool_false b 0) Hb0) in Hlo.
    assert (Hours t' < Hours t) by (unfold Hours, Qlt; simpl; lia).
    assert (r * Hours t' < r * Hours t) by (by apply Qmult_lt_l). refill_cases.
  - intros Hun t'. apply Qle_bool_false. pose proof (Refilled_range b c r t' Hc Hb).
    unfold goal in *. lra.
Qed.

Lemma TimeToAfford_sound_witness :
  Affordable (Refilled 0 120 16 (TimeToAfford 0 62 120 16 + 1)) 62 120 = true.
Proof.
  destruct (TimeToAfford_sound 0 62 120 16) as [H _]; [lra|lra|lra|reflexivity|].
  apply H. unfold Overdraft, DefaultOverdraftRatio. lra.
Defined.

(** A price above the capacity is never affordable and still gets a finite wait. *)
Lemma wait_for_the_unaffordable :
  TimeToAfford 0 200 120 16 = 38250000000000%Z /\
  forall t, Affordable (Refilled 0 120 16 t) 200 120 = false.
Proof.
  split; [reflexivity|]. destruct (TimeToAfford_sound 0 200 120 16) as (_ & _ & H);
    [lra|lra|lra|reflexivity|]. apply H. unfold Overdraft, DefaultOverdraftRatio. lra.
Qed.

(** From a debt the advised wait prices the whole climb at the recovery rate, although
    the rate doubles at zero: here the send is affordable six hours earlier. *)
Lemma wait_from_debt_overestimates :
  TimeToAfford (-16) 126 120 16 = 50400000000000%Z /\
  Affordable (Refilled (-16) 120 16 (8 * Time.Hour)) 126 120 = true.
Proof. split; vm_compute; reflexivity. Qed.

(** A refund stamps the balance with its own instant but does not bring it forward
    first: what was refilled since the charge is lost.  An hour after the charge the
    credited balance is the one from before the charge, sixteen short. *)
Lemma refund_forgets_refill :
  let d0 := set_budgets {[ "alice" := (50, Time.formatISO demo_now) ]} empty_db in
  let r := ChargeBudget square demo_now demo_budget d0 in
  let later := (demo_now + Time.Hour)%Z in
  let d2 := RefundBudget later "alice" (bs_Cost (fst (fst r))) 120 (snd r) in
  current_balance later demo_budget d2 == 50 /\ current_balance later demo_budget d0 == 66.
Proof. vm_compute. done. Qed.
