(* ===== verification/Window.v ===== *)
(** * Durations and look-back windows as text (internal/cli/window.go)

    [time.ParseDuration], byte by byte and with its overflow checks, and the window
    specifications of the commands and of the retention setting.  The local midnights
    (the time-zone data of the host) are a parameter. *)

From S2P Require Import Prelude GoStd Clock.

Open Scope Z_scope.
Open Scope tell_scope.

(** ** [time.ParseDuration] *)

Module GoDuration.

Definition max63 : Z := 2 ^ 63.

(** The digits at the start, as a number ([None] when it passes 2^63), and the rest. *)
Fixpoint leadingInt (x : Z) (s : string) : option (Z * string) :=
  match s with
  | String a s' =>
      if Str.is_digit a then
        if max63 / 10 <? x then None
        else let y := 10 * x + (Str.byte_val a - 48) in
             if max63 <? y then None else leadingInt y s'
      else Some (x, s)
  | EmptyString => Some (x, s)
  end.

(** The digits of a fraction: those that fit, the power of ten they are divided by,
    and the rest; digits past the int64 range are skipped. *)
Fixpoint leadingFraction (x scale : Z) (overflow : bool) (s : string) : Z * Z * string :=
  match s with
  | String a s' =>
      if Str.is_digit a then
        if overflow || ((max63 - 1) / 10 <? x) then leadingFraction x scale true s'
        else let y := 10 * x + (Str.byte_val a - 48) in
             if max63 <? y then leadingFraction x scale true s'
             else leadingFraction y (10 * scale) false s'
      else (x, scale, s)
  | EmptyString => (x, scale, s)
  end.

(** The unit: everything before the next digit or point. *)
Fixpoint unit_text (s : string) : string * string :=
  match s with
  | String a s' =>
      if bool_decide (a = Ascii.ascii_of_nat 46) || Str.is_digit a then (EmptyString, s)
      else let '(u, r) := unit_text s' in (String a u, r)
  | EmptyString => (EmptyString, s)
  end.

(** "µ" is U+00B5, "μ" is U+03BC. *)
Definition unitMap (u : string) : option Z :=
  if bool_decide (u = "ns") then Some 1
  else if bool_decide (u ∈ ["us"; "µs"; "μs"]) then Some 1000
  else if bool_decide (u = "ms") then Some Time.Millisecond
  else if bool_decide (u = "s") then Some Time.Second
  else if bool_decide (u = "m") then Some Time.Minute
  else if bool_decide (u = "h") then Some Time.Hour
  else None.

Definition invalid (orig : string) : error := ErrMsg ("time: invalid duration " +:+ Str.Quote orig).
Definition missing_unit (orig : string) : error :=
  ErrMsg ("time: missing unit in duration " +:+ Str.Quote orig).
Definition unknown_unit (u orig : string) : error :=
  ErrMsg ("time: unknown unit " +:+ Str.Quote u +:+ " in duration " +:+ Str.Quote orig).

(** One "number unit" at the start of the text: its value and the rest. *)
Definition term (orig s : string) : result (Z * string) :=
  match leadingInt 0 s with
  | None => Err (invalid orig)
  | Some (v, s1) =>
      let pre := negb (bool_decide (s1 = s)) in
      let '(f, scale, s2, post) :=
        match s1 with
        | String a s1' =>
            if bool_decide (a = Ascii.ascii_of_nat 46) then
              let '(f, scale, s2) := leadingFraction 0 1 false s1' in
              (f, scale, s2, negb (bool_decide (s2 = s1')))
            else (0, 1, s1, false)
        | EmptyString => (0, 1, s1, false)
        end in
      if negb pre && negb post then Err (invalid orig)
      else
        let '(u, s3) := unit_text s2 in
        if str_empty u then Err (missing_unit orig)
        else match unitMap u with
             | None => Err (unknown_unit u orig)
             | Some unit =>
                 if max63 / unit <? v then Err (invalid orig)
                 else let w := v * unit + (if 0 <? f then f * unit / scale else 0) in
                      if (0 <? f) && (max63 <? w) then Err (invalid orig) else Ok (w, s3)
             end
  end.

(** Every round takes at least one byte. *)
Fixpoint terms (fuel : nat) (orig : string) (d : Z) (s : string) : result Z :=
  match fuel, s with
  | O, _ => Err (invalid orig)
  | _, EmptyString => Ok d
  | S fuel, _ =>
      ws <-? term orig s ;;
      let '(w, s') := ws in
      if max63 <? d + w then Err (invalid orig) else terms fuel orig (d + w) s'
  end.

Definition ParseDuration (orig : string) : result Z :=
  let '(neg, s) := match orig with
                   | String a s' =>
                       if bool_decide (a = Ascii.ascii_of_nat 45) then (true, s')
                       else if bool_decide (a = Ascii.ascii_of_nat 43) then (false, s')
                       else (false, orig)
                   | EmptyString => (false, orig)
                   end in
  if bool_decide (s = "0") then Ok 0
  else if str_empty s then Err (invalid orig)
  else
    d <-? terms (S (String.length s)) orig 0 s ;;
    if neg : bool then Ok (- d) else if max63 - 1 <? d then Err (invalid orig) else Ok d.

End GoDuration.

(** ** Windows *)

(** [store.StatsWindow]: no bound, or an instant. *)
Inductive StatsWindow : Type :=
  | All
  | Since (t : Z).

#[global] Instance StatsWindow_eq_dec : EqDecision StatsWindow.
Proof. solve_decision. Defined.

Section Window.
(** Local midnight of the day [back] days before that of the instant. *)
Context (midnight : Z -> Z -> Z).

Definition calendarSince (spec : string) (now : Z) : option Z :=
  if bool_decide (spec ∈ ["today"; "morning"]) then Some (midnight now 0)
  else if bool_decide (spec = "yesterday") then Some (midnight now 1)
  else if bool_decide (spec = "week") then Some (midnight now 7)
  else None.

(** The text before the suffix, or nothing. *)
Definition CutSuffix (s p : string) : option string :=
  if Str.HasSuffix s p then Some (Str.TrimSuffix s p) else None.

(** The length of a window given as "Nd" or as a duration. *)
Definition window_length (spec s : string) : result Z :=
  match CutSuffix s "d" with
  | Some days =>
      match Str.Atoi days with
      | None => Err (ErrMsg ("invalid window " +:+ Str.Quote spec))
      | Some n => Ok (Time.wrap64 (Time.wrap64 (n * 24) * Time.Hour))
      end
  | None =>
      match GoDuration.ParseDuration s with
      | Err e => Err (ErrWrap ("invalid window " +:+ Str.Quote spec) e)
      | Ok d => Ok d
      end
  end.

Definition parseWindow (spec : string) (now : Z) : result StatsWindow :=
  let s0 := Str.TrimSpace (Str.ToLower spec) in
  let s := if str_empty s0 then "24h" else s0 in
  if bool_decide (s = "all") then Ok All
  else if bool_decide (s = "now") then Ok (Since now)
  else match calendarSince s now with
       | Some t => Ok (Since t)
       | None =>
           d <-? window_length spec s ;;
           if d <=? 0 then Err (ErrMsg ("invalid window " +:+ Str.Quote spec +:+ ": must be a positive duration"))
           else Ok (Since (now - d))
       end.

End Window.
