(* ===== verification/TmuxIO.v ===== *)
(** * Talking to tmux (internal/tmuxio/deliver.go, panes.go, session.go, title.go)

    The tmux server, the clock and the context are the [World]: what each returns
    may depend on everything done so far.  A computation threads the [history] of
    its effects (tmux commands, sleeps, clock reads, callbacks), newest first, so a
    theorem can speak about exactly which commands were issued and in which order. *)

From Stdlib Require Import SpecFloat.
From S2P Require Import Prelude GoStd.

Open Scope Z_scope.
Open Scope tell_scope.

(** ** Effects *)

(** [EvCall] is a call into another part: the store, the pane walker, systemd. *)
Inductive event : Type :=
  | EvRun (stdin : option string) (args : list string)
  | EvSleep (ns : Z)
  | EvNow
  | EvPing
  | EvTyping
  | EvVerify (elapsed : Z) (verified : bool)
  | EvCall (what : string).

#[global] Instance event_eq_dec : EqDecision event.
Proof. solve_decision. Defined.

Definition history : Type := list event.

(** A compiled regular expression: the leftmost match, and the text of its
    [retry_seconds] group when it has one. *)
Record Regexp : Type := mkRegexp {
  re_find : string -> option string;
  re_retry_seconds : string -> option string
}.

(** The errors of a done context. *)
Inductive ctx_error : Type :=
  | Canceled
  | DeadlineExceeded.

Definition context_error (e : ctx_error) : error :=
  match e with
  | Canceled => ErrMsg "context canceled"
  | DeadlineExceeded => ErrMsg "context deadline exceeded"
  end.

(** What the program cannot see into: the tmux server's answers (output and
    failure text), the context, the wall clock, the regexp engine, [strconv.ParseFloat],
    the buffer-name entropy, the content hash, and whether the
    deadline of the running [context.WithTimeout] has passed. *)
Record World : Type := mkWorld {
  w_tmux : history -> string * option string;
  w_ctx : history -> option ctx_error;
  w_clock : history -> Z;
  w_regexp_Compile : string -> option Regexp;
  w_ParseFloat : string -> result spec_float;
  w_buffer_name : history -> string;
  w_hashContent : string -> string;
  w_late : history -> bool
}.

Definition T (A : Type) : Type := World -> history -> A * history.

Definition ret {A} (a : A) : T A := fun _ h => (a, h).

Definition bind {A B} (c : T A) (k : A -> T B) : T B :=
  fun w h => let (a, h') := c w h in k a w h'.

Notation "x <~ c ;; k" := (bind c (fun x => k))
  (at level 100, c at next level, right associativity) : tell_scope.

(** Do [ev]. *)
Definition emit (ev : event) : T unit := fun _ h => (tt, ev :: h).

(** [tmuxRun]: issue the command, read its combined output and error. *)
Definition tmuxRun (stdin : option string) (args : list string) : T (string * option error) :=
  fun w h =>
    let h' := EvRun stdin args :: h in
    let (out, err) := w_tmux w h' in
    ((out, match err with Some msg => Some (ExecError msg) | None => None end), h').

(** [ctx.Err()]. *)
Definition ctx_Err : T (option error) := fun w h =>
  (match w_ctx w h with Some e => Some (context_error e) | None => None end, h).

(** [select { case <-time.After(d): case <-ctx.Done(): }]: the error of a context
    cancelled by the time the sleep ends. *)
Definition wait (d : Z) : T (option error) :=
  _ <~ emit (EvSleep d) ;; ctx_Err.

(** Run under another context: the same world with its own [ctx.Err()]. *)
Definition with_ctx (f : World -> history -> option ctx_error) (w : World) : World :=
  mkWorld (w_tmux w) (f w) (w_clock w) (w_regexp_Compile w) (w_ParseFloat w)
    (w_buffer_name w) (w_hashContent w) (w_late w).

(** [context.WithTimeout(ctx, ...)]. *)
Definition late_ctx (w : World) (h : history) : option ctx_error :=
  match w_ctx w h with
  | Some e => Some e
  | None => if w_late w h then Some DeadlineExceeded else None
  end.

Definition with_timeout {A} (c : T A) : T A := fun w h => c (with_ctx late_ctx w) h.

(** [context.Background()]: never done. *)
Definition background {A} (c : T A) : T A := fun w h => c (with_ctx (fun _ _ => None) w) h.

(** A background context with a timeout. *)
Definition op_timeout {A} (c : T A) : T A := background (with_timeout c).

(** [time.Now()]: reading the clock is itself an instant. *)
Definition time_Now : T Z := fun w h => (w_clock w (EvNow :: h), EvNow :: h).

(** [fmt.Errorf("what: %w: %s", err, strings.TrimSpace(out))]. *)
Definition wrap_out (what : string) (e : error) (out : string) : error :=
  ErrWrap (what +:+ ": " +:+ error_text e +:+ ": " +:+ Str.TrimSpace out) e.

Definition wrap_err (what : string) (e : error) : error :=
  ErrWrap (what +:+ ": " +:+ error_text e) e.

Definition pane_required : error := ErrMsg "tmuxio: pane required".

(** One command whose only result is its error. *)
Definition tmux_do (what : string) (stdin : option string) (args : list string)
    : T (result unit) :=
  r <~ tmuxRun stdin args ;;
  ret (match r with
       | (out, Some e) => Err (wrap_out what e out)
       | (_, None) => Ok tt
       end).

(** ** Commands *)

Definition cmd_capture (pane : string) : list string := ["capture-pane"; "-p"; "-t"; pane].
Definition cmd_enter (pane : string) : list string := ["send-keys"; "-t"; pane; "Enter"].
Definition cmd_copy_mode (pane : string) : list string :=
  ["display-message"; "-p"; "-t"; pane; "#{pane_in_mode}"].
Definition cmd_cursor (pane : string) : list string :=
  ["display-message"; "-p"; "-t"; pane; "#{cursor_x}/#{cursor_y}"].
Definition cmd_load (buf : string) : list string := ["load-buffer"; "-b"; buf; "-"].
Definition cmd_paste (buf pane : string) : list string :=
  ["paste-buffer"; "-p"; "-r"; "-b"; buf; "-t"; pane; "-d"].

Definition PaneInCopyMode (pane : string) : T (result bool) :=
  if str_empty pane then ret (Err pane_required)
  else
    r <~ tmuxRun None (cmd_copy_mode pane) ;;
    ret (match r with
         | (out, Some e) => Err (wrap_out "tmuxio: pane-in-mode query" e out)
         | (out, None) => Ok (bool_decide (Str.TrimSpace out = "1"))
         end).

Definition slash : ascii := Ascii.ascii_of_nat 47.

Definition agentCursor (pane : string) : T (result (Z * Z)) :=
  r <~ tmuxRun None (cmd_cursor pane) ;;
  ret (match r with
       | (out, Some e) => Err (wrap_out "tmuxio: agent-state cursor query" e out)
       | (out, None) =>
           match Str.Cut slash (Str.TrimSpace out) with
           | None => Err (ErrMsg "tmuxio: agent-state cursor parse: unexpected format")
           | Some (sx, sy) =>
               match Str.Atoi sx, Str.Atoi sy with
               | Some x, Some y => Ok (x, y)
               | _, _ => Err (ErrMsg "tmuxio: agent-state cursor parse")
               end
           end
       end).

Definition SendKeys (pane text : string) : T (result unit) :=
  if str_empty pane then ret (Err pane_required)
  else if str_empty text then ret (Err (ErrMsg "tmuxio: text required"))
  else
    r <~ tmux_do "tmuxio: send-keys literal" None ["send-keys"; "-t"; pane; "-l"; text] ;;
    match r with
    | Err e => ret (Err e)
    | Ok _ => tmux_do "tmuxio: send-keys Enter" None (cmd_enter pane)
    end.

(** Load the text in a buffer and paste it; the buffer is dropped on failure. *)
Definition pasteChunk (pane content : string) : T (result unit) :=
  bufName <~ (fun w h => (w_buffer_name w h, h)) ;;
  r <~ tmux_do "tmuxio: load-buffer" (Some content) (cmd_load bufName) ;;
  match r with
  | Err e => ret (Err e)
  | Ok _ =>
      r2 <~ tmuxRun None (cmd_paste bufName pane) ;;
      match r2 with
      | (out, Some e) =>
          _ <~ tmuxRun None ["delete-buffer"; "-b"; bufName] ;;
          ret (Err (wrap_out "tmuxio: paste-buffer" e out))
      | (_, None) => ret (Ok tt)
      end
  end.

Definition CheckTokenVisible (pane token : string) : T (result bool) :=
  r <~ tmuxRun None ["capture-pane"; "-p"; "-S"; "-500"; "-t"; pane] ;;
  ret (match r with
       | (_, Some e) => Err (wrap_err "tmuxio: capture-pane" e)
       | (out, None) => Ok (Str.Contains out token)
       end).

Definition clearPressesPerLine : Z := 2.

Definition sendCtrlU (pane : string) : T (result unit) :=
  tmux_do "tmuxio: send-keys C-u" None ["send-keys"; "-t"; pane; "C-u"].

Fixpoint clear_presses (n : nat) (i total : Z) (pane : string) : T (result unit) :=
  match n with
  | O => ret (Ok tt)
  | S n' =>
      r <~ sendCtrlU pane ;;
      match r with
      | Err e => ret (Err (wrap_err ("tmuxio: clear-input (" +:+ Str.itoa (i + 1) +:+ "/"
                                       +:+ Str.itoa total +:+ ")") e))
      | Ok _ => clear_presses n' (i + 1) total pane
      end
  end.

Definition ClearInput (pane : string) (lineCount0 : Z) : T (result unit) :=
  if str_empty pane then ret (Err pane_required)
  else
    let lineCount := if lineCount0 <? 1 then 1 else lineCount0 in
    let presses := lineCount * clearPressesPerLine in
    clear_presses (Z.to_nat presses) 0 presses pane.

Definition SendCtrlU (pane : string) : T (result unit) :=
  if str_empty pane then ret (Err pane_required) else sendCtrlU pane.

Definition PendingMessageMarker : string := "📫".
Definition pendingNotifyDurationMs : string := "3000".

Definition NotifyPendingMessage (pane : string) : T (result unit) :=
  if str_empty pane then ret (Err pane_required)
  else tmux_do "tmuxio: display-message notify-pending" None
         ["display-message"; "-d"; pendingNotifyDurationMs; "-t"; pane;
          PendingMessageMarker +:+ " bus message pending"].

(** ** Sessions and titles *)

Definition crlf : list string := [Str.of_bytes [13%nat]; Str.of_bytes [10%nat]].

Definition PaneCurrentPath (pane : string) : T (result string) :=
  if str_empty pane then ret (Err pane_required)
  else
    r <~ tmuxRun None ["display-message"; "-p"; "-t"; pane; "#{pane_current_path}"] ;;
    ret (match r with
         | (out, Some e) => Err (wrap_out "tmuxio: display-message pane_current_path" e out)
         | (out, None) =>
             let path := Str.TrimRight out crlf in
             if str_empty path then Err (ErrMsg "tmuxio: pane current path empty") else Ok path
         end).

Definition PaneCurrentCommand (pane : string) : T (result string) :=
  if str_empty pane then ret (Err pane_required)
  else
    r <~ tmuxRun None ["display-message"; "-p"; "-t"; pane; "#{pane_current_command}"] ;;
    ret (match r with
         | (out, Some e) => Err (wrap_out "tmuxio: display-message pane_current_command" e out)
         | (out, None) => Ok (Str.TrimRight out crlf)
         end).

Definition shellProcessNames : list string :=
  ["bash"; "sh"; "zsh"; "fish"; "dash"; "ksh"; "ash"; "tcsh"; "csh"].

Definition IsShellProcess (cmd : string) : bool :=
  bool_decide (Str.TrimPrefix cmd "-" ∈ shellProcessNames).

Definition RespawnPane (pane command : string) : T (result unit) :=
  if str_empty pane then ret (Err pane_required)
  else if str_empty command then ret (Err (ErrMsg "tmuxio: respawn command required"))
  else tmux_do "tmuxio: respawn-pane" None ["respawn-pane"; "-k"; "-t"; pane; command].

Definition SetPaneTitle (pane title : string) : T (result unit) :=
  if str_empty pane then ret (Err pane_required)
  else if str_empty title then ret (Err (ErrMsg "tmuxio: title required"))
  else tmux_do "tmuxio: select-pane -T" None ["select-pane"; "-t"; pane; "-T"; title].

(** ** Listing panes and clients *)

Record PaneInfo : Type := mkPaneInfo {
  pi_ID : string;
  pi_PID : Z;
  pi_Title : string;
  pi_WindowName : string
}.

(** [strings.SplitN(s, "\t", 4)]. *)
Definition split4 (s : string) : list string :=
  match Str.Cut Str.tab s with
  | None => [s]
  | Some (a, s1) =>
      match Str.Cut Str.tab s1 with
      | None => [a; s1]
      | Some (b, s2) =>
          match Str.Cut Str.tab s2 with
          | None => [a; b; s2]
          | Some (c, s3) => [a; b; c; s3]
          end
      end
  end.

Definition pane_info (line : string) : option PaneInfo :=
  let s := Str.TrimRight line crlf in
  if str_empty (Str.TrimSpace s) then None
  else
    match split4 s with
    | id :: pid :: rest =>
        match Str.Atoi (Str.TrimSpace pid) with
        | None => None
        | Some n => Some (mkPaneInfo (Str.TrimSpace id) n (nth 0 rest EmptyString)
                            (nth 1 rest EmptyString))
        end
    | _ => None
    end.

(** How [exec] failed: an exit status or a missing binary means no server. *)
Inductive exec_failure : Type :=
  | ExitError
  | ExecNotFound
  | OtherFailure (e : error).

Definition parse_panes (out : string) : list PaneInfo :=
  omap pane_info (Str.Lines (Str.TrimSpace out)).

Definition ListPanesWithPID (run : string + exec_failure) : result (list PaneInfo) :=
  match run with
  | inl out => Ok (parse_panes out)
  | inr (OtherFailure e) => Err e
  | inr _ => Ok []
  end.

Definition nonblank_lines (out : string) : list string :=
  List.filter (fun s => negb (str_empty s)) (map Str.TrimSpace (Str.Lines (Str.TrimSpace out))).

Definition LivePanes (run : string + exec_failure) : result (gset string) :=
  match run with
  | inl out => Ok (list_to_set (nonblank_lines out))
  | inr (OtherFailure e) => Err e
  | inr _ => Ok ∅
  end.

Definition ActiveClientPanes (run : string + exec_failure) : result (list string) :=
  match run with
  | inl out => Ok (nonblank_lines out)
  | inr (OtherFailure e) => Err e
  | inr _ => Ok []
  end.

(** ** Reasoning about computations

    [does P c]: every event [c] adds satisfies [P], in every world.  [yields P c]:
    every result of [c] satisfies [P]. *)

Definition adds (P : event -> Prop) (h h' : history) : Prop :=
  exists new, h' = new ++ h /\ Forall P new.

Definition does {A} (P : event -> Prop) (c : T A) : Prop :=
  forall w h, adds P h (snd (c w h)).

Definition yields {A} (P : A -> Prop) (c : T A) : Prop :=
  forall w h, P (fst (c w h)).

Lemma adds_refl P h : adds P h h.
Proof. by exists []. Qed.

Lemma adds_cons (P : event -> Prop) ev h : P ev -> adds P h (ev :: h).
Proof. intros H. exists [ev]. by rewrite Forall_singleton. Qed.

Lemma adds_trans P h1 h2 h3 : adds P h1 h2 -> adds P h2 h3 -> adds P h1 h3.
Proof.
  intros (n1 & -> & H1) (n2 & -> & H2). exists (n2 ++ n1).
  rewrite <- app_assoc, Forall_app. done.
Qed.

Lemma adds_mono (P Q : event -> Prop) h h' :
  (forall ev, P ev -> Q ev) -> adds P h h' -> adds Q h h'.
Proof.
  intros H (new & -> & Hn). exists new. split; [done|]. eapply Forall_impl; [exact Hn|done].
Qed.

Lemma does_ret {A} P (a : A) : does P (ret a).
Proof. intros w h. apply adds_refl. Qed.

Lemma does_read {A} P (f : World -> history -> A) : does P (fun w h => (f w h, h)).
Proof. intros w h. apply adds_refl. Qed.

Lemma does_bind {A B} P (c : T A) (k : A -> T B) :
  does P c -> (forall a, does P (k a)) -> does P (bind c k).
Proof.
  intros Hc Hk w h. unfold bind. specialize (Hc w h). destruct (c w h) as [a h'].
  eapply adds_trans; [exact Hc|apply Hk].
Qed.

Lemma does_emit (P : event -> Prop) ev : P ev -> does P (emit ev).
Proof. intros H w h. by apply adds_cons. Qed.

Lemma does_run (P : event -> Prop) stdin args :
  P (EvRun stdin args) -> does P (tmuxRun stdin args).
Proof.
  intros H w h. unfold tmuxRun. destruct (w_tmux w _). by apply adds_cons.
Qed.

Lemma does_ctx {A} P f (c : T A) : does P c -> does P (fun w h => c (with_ctx f w) h).
Proof. intros H w h. apply H. Qed.

Lemma does_op_timeout {A} P (c : T A) : does P c -> does P (op_timeout c).
Proof. intros H. by apply does_ctx, does_ctx. Qed.

Lemma does_now (P : event -> Prop) : P EvNow -> does P time_Now.
Proof. intros H w h. by apply adds_cons. Qed.

Lemma does_wait (P : event -> Prop) d : P (EvSleep d) -> does P (wait d).
Proof. intros H. apply does_bind; [by apply does_emit|intros _; apply does_read]. Qed.

Lemma yields_ret {A} (P : A -> Prop) a : P a -> yields P (ret a).
Proof. by intros H w h. Qed.

Lemma yields_bind {A B} (P : B -> Prop) (c : T A) (k : A -> T B) :
  (forall a, yields P (k a)) -> yields P (bind c k).
Proof. intros Hk w h. unfold bind. destruct (c w h) as [a h']. apply Hk. Qed.

Lemma yields_bind' {A B} (P : A -> Prop) (Q : B -> Prop) (c : T A) (k : A -> T B) :
  yields P c -> (forall a, P a -> yields Q (k a)) -> yields Q (bind c k).
Proof.
  intros Hc Hk w h. unfold bind. specialize (Hc w h). destruct (c w h) as [a h'].
  by apply Hk.
Qed.

Lemma does_if {A} P (b : bool) (c1 c2 : T A) :
  does P c1 -> does P c2 -> does P (if b then c1 else c2).
Proof. by destruct b. Qed.

Create HintDb iodb.
#[export] Hint Resolve does_ret does_read does_bind does_emit does_run does_now does_wait : iodb.
#[export] Hint Resolve yields_ret : iodb.

(** ** A clock that behaves

    Documented of [time.Now] and [time.After]: time does not go back, a timer does
    not fire early; and spawning a tmux process takes some time. *)
Record steady_clock (w : World) : Prop := {
  sc_mono : forall ev h, w_clock w h <= w_clock w (ev :: h);
  sc_sleep : forall d h, w_clock w h + d <= w_clock w (EvSleep d :: h);
  sc_run : forall stdin args h, w_clock w h + 1 <= w_clock w (EvRun stdin args :: h)
}.

Lemma adds_clock w P h h' : steady_clock w -> adds P h h' -> w_clock w h <= w_clock w h'.
Proof.
  intros Hw (new & -> & _). induction new as [|ev new IH]; simpl; [lia|].
  pose proof (sc_mono w Hw ev (new ++ h)). lia.
Qed.
