(* ===== verification/PaneState.v ===== *)
(** * The pane-state classifier (internal/tmuxio/profile.go, state.go, classifier.go)

    Reading what an agent is doing from its terminal: the per-adapter profile, the
    predicates on a captured screen, and the ladder of [agentState]. *)

From Stdlib Require Import SpecFloat.
From S2P Require Import Prelude GoStd Window TmuxIO.

Open Scope Z_scope.
Open Scope tell_scope.

(** ** Profiles *)

Definition nbsp : string := Str.of_bytes [194; 160]%nat.

Definition PromptSentinel : string := "❯" +:+ nbsp.
Definition ASCIIPromptSentinel : string := ">" +:+ nbsp.
Definition CompactionMarker : string := "Compacting conversation…".
Definition AwaitingOperatorMarker : string := "↑/↓ to navigate ·".
Definition APIErrorMarker : string := "API Error:".
Definition ResumeModalMarker : string := "Type to Search · Enter to select · Esc to clear".
Definition StatusLineMarker : string := "⏵⏵".
Definition CodexPromptSentinel : string := "› ".
Definition CodexPasteCollapseMarker : string := "[Pasted Content".
Definition ClaudePasteEvidenceMarker : string := "[Pasted text".
Definition CodexWorkingPattern : string := "Working \(.*esc to interrupt\)".
Definition resumeModalSearchGlyph : string := "⌕".
Definition resumeModalBoxVertical : string := "│".
Definition escToInterruptHint : string := "esc to interrupt".

Record PaneProfile : Type := mkProfile {
  pp_PromptSentinel : string;
  pp_PromptSentinelVariants : list string;
  pp_CompactionMarker : string;
  pp_AwaitingOperatorMarker : string;
  pp_StatusLineMarker : string;
  pp_APIErrorMarker : string;
  pp_ResumeModalMarker : string;
  pp_PasteCollapseMarker : string;
  pp_PasteEvidenceMarker : string;
  pp_RateLimitPattern : string;
  pp_UsageLimitPattern : string;
  pp_WorkingPattern : string
}.

Definition ClaudePaneProfile : PaneProfile :=
  mkProfile PromptSentinel [ASCIIPromptSentinel] CompactionMarker AwaitingOperatorMarker
    StatusLineMarker APIErrorMarker ResumeModalMarker EmptyString ClaudePasteEvidenceMarker
    EmptyString EmptyString EmptyString.

Definition CodexPaneProfile : PaneProfile :=
  mkProfile CodexPromptSentinel [] EmptyString EmptyString EmptyString EmptyString EmptyString
    CodexPasteCollapseMarker CodexPasteCollapseMarker EmptyString EmptyString CodexWorkingPattern.

Record classifier : Type := mkClassifier {
  cl_profile : PaneProfile;
  cl_rateLimitRE : option Regexp;
  cl_usageLimitRE : option Regexp;
  cl_workingRE : option Regexp
}.

Definition compileProfilePattern (w : World) (pattern : string) : option Regexp :=
  if str_empty pattern then None else w_regexp_Compile w pattern.

Definition newClassifier (w : World) (p : PaneProfile) : classifier :=
  mkClassifier p (compileProfilePattern w (pp_RateLimitPattern p))
    (compileProfilePattern w (pp_UsageLimitPattern p))
    (compileProfilePattern w (pp_WorkingPattern p)).

(** ** States *)

Inductive PState : Type :=
  | PUnknown
  | PIdle
  | PWorking
  | PAtRestInCompaction
  | PAwaitingOperator
  | PInCopyMode
  | PRateLimited
  | PUsageLimited
  | PErrored.

#[global] Instance PState_eq_dec : EqDecision PState.
Proof. solve_decision. Defined.

Definition PState_String (s : PState) : string :=
  match s with
  | PIdle => "idle"
  | PWorking => "working"
  | PAtRestInCompaction => "at-rest-in-compaction"
  | PAwaitingOperator => "awaiting-operator"
  | PInCopyMode => "copy-mode"
  | PRateLimited => "rate-limited"
  | PUsageLimited => "usage-limited"
  | PErrored => "errored"
  | PUnknown => "unknown"
  end.

Definition IsPasteUnsafeForced (s : PState) : bool :=
  bool_decide (s = PAwaitingOperator) || bool_decide (s = PUnknown) ||
  bool_decide (s = PAtRestInCompaction) || bool_decide (s = PInCopyMode) ||
  bool_decide (s = PErrored).

Definition IsPasteUnsafe (s : PState) : bool :=
  IsPasteUnsafeForced s || bool_decide (s = PRateLimited) || bool_decide (s = PUsageLimited).

(** Which branch of the ladder decided (the [Reason] text of the evidence). *)
Inductive Reason : Type :=
  | R_pane_required
  | R_copy_mode
  | R_first_capture_failed (e : error)
  | R_cancelled (e : error)
  | R_second_capture_failed (e : error)
  | R_compaction_marker
  | R_resume_modal
  | R_usage_limit
  | R_rate_limit
  | R_working_marker
  | R_cursor_past_sentinel (x col : Z)
  | R_content_changed
  | R_api_error (line : string)
  | R_cursor_at_sentinel
  | R_ghost_text (text : string)
  | R_picker
  | R_quiet_row
  | R_unknown_with_sentinel (cursor : option error)
  | R_unknown_no_sentinel (cursor : option error).

Record Evidence : Type := mkEvidence {
  ev_Reason : Reason;
  ev_PromptEmpty : bool;
  ev_ChangedLineCount : Z;
  ev_RetryAfter : Z;
  ev_Marker : string;
  ev_CopyModeQueryFailed : bool
}.

Definition evidence (r : Reason) : Evidence := mkEvidence r false 0 0 EmptyString false.
Definition evidence_marker (r : Reason) (m : string) : Evidence := mkEvidence r false 0 0 m false.

(** ** Reading a screen *)

(** The last index at which [p] holds. *)
Definition last_index (p : string -> bool) (rows : list string) : option nat :=
  fold_left (fun acc ir => if p (snd ir) then Some (fst ir) else acc)
    (imap pair rows) None.

Definition space1 : list string := [" "].

Definition cutPromptSentinel (row sentinel : string) : option string :=
  match Str.CutPrefix row sentinel with
  | Some rest => Some rest
  | None =>
      let trimmed := Str.TrimRight sentinel space1 in
      if negb (bool_decide (trimmed = sentinel)) && bool_decide (row = trimmed)
      then Some EmptyString else None
  end.

Fixpoint match_variants (row : string) (variants : list string) : option (string * string) :=
  match variants with
  | [] => None
  | v :: vs =>
      if str_empty v then match_variants row vs
      else match cutPromptSentinel row v with
           | Some rest => Some (rest, v)
           | None => match_variants row vs
           end
  end.

Definition matchCursorRowSentinel (row primary : string) (variants : list string)
    : option (string * string) :=
  match (if str_empty primary then None else cutPromptSentinel row primary) with
  | Some rest => Some (rest, primary)
  | None => match_variants row variants
  end.

(** [(cleared, anchored)]. *)
Definition inputRowCleared (p : PaneProfile) (capture : string) (cursor : result (Z * Z))
    : bool * bool :=
  match cursor with
  | Err _ => (false, false)
  | Ok (cursorX, cursorY) =>
      if str_empty (pp_PromptSentinel p) then (false, false)
      else
        let lines := Str.Lines capture in
        if (cursorY <? 0) || (Z.of_nat (length lines) <=? cursorY) then (false, false)
        else
          match matchCursorRowSentinel (nth (Z.to_nat cursorY) lines EmptyString)
                  (pp_PromptSentinel p) (pp_PromptSentinelVariants p) with
          | None => (false, false)
          | Some (_, sentinel) => (cursorX =? Str.RuneCountInString sentinel, true)
          end
  end.

Definition starts_live (rest : string) : bool :=
  Str.HasPrefix rest " (" &&
  match Str.drop 2 rest with
  | String a _ => Str.is_digit a
  | EmptyString => false
  end.

(** The scan over the occurrences of a non-empty marker. *)
Fixpoint live_compaction (fuel : nat) (capture marker : string) : bool :=
  match fuel with
  | O => false
  | S fuel' =>
      match Str.Index capture marker with
      | None => false
      | Some j =>
          let rest := Str.drop (j + String.length marker) capture in
          if starts_live rest then true else live_compaction fuel' rest marker
      end
  end.

Definition capturedLiveCompaction (capture marker : string) : bool :=
  live_compaction (S (String.length capture)) capture marker.

(** [API Error: \d]. *)
Fixpoint apiErrorLine (s : string) : bool :=
  (Str.HasPrefix s "API Error: " &&
   match Str.drop 11 s with String a _ => Str.is_digit a | EmptyString => false end) ||
  match s with String _ s' => apiErrorLine s' | EmptyString => false end.

Definition add_glyph (glyphs : list string) (s : string) : list string :=
  if str_empty s then glyphs
  else match Str.first_rune s with
       | None => glyphs
       | Some g => if bool_decide (g ∈ glyphs) then glyphs else glyphs ++ [g]
       end.

Definition promptGlyphs (p : PaneProfile) : list string :=
  fold_left add_glyph (pp_PromptSentinelVariants p) (add_glyph [] (pp_PromptSentinel p)).

Definition leading_blanks : list string := [" "; Str.of_bytes [9%nat]; nbsp].

Definition has_glyph (glyphs : list string) (row : string) : bool :=
  existsb (Str.HasPrefix (Str.TrimLeft row leading_blanks)) glyphs.

Definition is_composer (sentinel row : string) : bool :=
  match cutPromptSentinel row sentinel with Some _ => true | None => false end.

(** The rows strictly between the last transcript turn and the composer hold the
    error line; a live interrupt hint below the composer rules it out. *)
Definition capturedLiveErrorChrome (capture : string) (p : PaneProfile) : option string :=
  let sentinel := pp_PromptSentinel p in
  if str_empty sentinel then None
  else
    let rows := Str.Lines capture in
    match last_index (is_composer sentinel) rows with
    | None => None
    | Some composer =>
        if existsb (fun r => Str.Contains r escToInterruptHint) (drop composer rows) then None
        else
          let above := take composer rows in
          let upper := match last_index (has_glyph (promptGlyphs p)) above with
                       | Some u => S u
                       | None => O
                       end in
          Str.TrimSpace <$> List.find apiErrorLine (drop upper above)
    end.

(** A row of the search widget: a box edge, blanks, the search glyph. *)
Definition search_widget (row : string) : bool :=
  match Str.Index row resumeModalBoxVertical with
  | None => false
  | Some v =>
      let after := Str.drop (v + String.length resumeModalBoxVertical) row in
      match Str.Index after resumeModalSearchGlyph with
      | None | Some O => false
      | Some g => str_empty (Str.TrimSpace (Str.take g after))
      end
  end.

(** No composer below the footer. *)
Definition nothing_below (sentinel : string) (footer : nat) (rows : list string) : bool :=
  str_empty sentinel ||
  negb (existsb (fun r => Str.Contains r sentinel) (drop (S footer) rows)).

Definition capturedResumeModal (capture : string) (p : PaneProfile) : bool :=
  let marker := pp_ResumeModalMarker p in
  if str_empty marker then false
  else
    let rows := Str.Lines capture in
    match last_index (fun r => Str.Contains r marker) rows with
    | None => false
    | Some footer =>
        existsb search_widget (take footer rows) &&
        nothing_below (pp_PromptSentinel p) footer rows
    end.

Definition capturedLiveAwaitingOperator (capture : string) (p : PaneProfile) : bool :=
  let marker := pp_AwaitingOperatorMarker p in
  if str_empty marker then false
  else
    let rows := Str.Lines capture in
    match last_index (fun r => Str.Contains r marker) rows with
    | None => false
    | Some footer => nothing_below (pp_PromptSentinel p) footer rows
    end.

Definition countChangedLines (a b : string) : Z :=
  let la := Str.Lines a in
  let lb := Str.Lines b in
  let n := Nat.max (length la) (length lb) in
  Z.of_nat (length (List.filter (fun i =>
    negb (bool_decide (nth i la EmptyString = nth i lb EmptyString))) (seq 0 n))).

(** ** The captured retry hint *)

(** [time.Duration(f)], towards zero; what does not fit is the least value, as on amd64. *)
Definition float_to_int64 (f : spec_float) : Z :=
  match f with
  | S754_zero _ => 0
  | S754_finite neg m e =>
      let v := if 0 <=? e then Z.shiftl (Zpos m) e else Z.shiftr (Zpos m) (- e) in
      let v := if neg : bool then - v else v in
      if (- 2 ^ 63 <=? v) && (v <? 2 ^ 63) then v else - 2 ^ 63
  | _ => - 2 ^ 63
  end.

(** [float64(time.Second)]. *)
Definition float_second : spec_float := S754_finite false 1000000000 0.

Definition parseRetrySeconds (ParseFloat : string -> result spec_float) (s0 : string) : result Z :=
  let s := Str.TrimSpace s0 in
  if str_empty s then Err (ErrMsg "empty retry_seconds")
  else match GoDuration.ParseDuration s with
       | Ok d => Ok d
       | Err _ =>
           match ParseFloat (Str.TrimSuffix s "s") with
           | Err e => Err e
           | Ok f => Ok (float_to_int64 (SFmul 53 1024 f float_second))
           end
       end.

(** "0.3" as a float64, times a second: the product is rounded. *)
Example retry_tenths : parseRetrySeconds (fun _ => Ok (S754_finite false 5404319552844595 (-54))) "0.3" = Ok 300000000.
Proof. reflexivity. Qed.

(** A number that is not one still counts as parsed. *)
Example not_a_number : parseRetrySeconds (fun _ => Ok S754_nan) "nan" = Ok (- 2 ^ 63).
Proof. reflexivity. Qed.

Example with_unit : parseRetrySeconds (fun _ => Err (ErrMsg "none")) " 1m30s " = Ok (90 * Time.Second).
Proof. reflexivity. Qed.

(** ** The classifier *)

Definition firstRateLimitMatch (w : World) (c : classifier) (capture : string) : string * Z :=
  match cl_rateLimitRE c with
  | None => (EmptyString, 0)
  | Some re =>
      match re_find re capture with
      | None => (EmptyString, 0)
      | Some matched =>
          match re_retry_seconds re capture with
          | None => (matched, 0)
          | Some s => match parseRetrySeconds (w_ParseFloat w) s with
                      | Ok d => (matched, d)
                      | Err _ => (matched, 0)
                      end
          end
      end
  end.

Definition firstMatch (re : option Regexp) (capture : string) : string :=
  match re with
  | None => EmptyString
  | Some re => default EmptyString (re_find re capture)
  end.

Definition firstUsageLimitMatch (c : classifier) : string -> string := firstMatch (cl_usageLimitRE c).
Definition firstWorkingMarkerMatch (c : classifier) : string -> string := firstMatch (cl_workingRE c).

(** The lowest composer row is blank past its sentinel. *)
Definition isInputRowQuiet (c : classifier) (paneContent : string) : bool :=
  let sentinel := pp_PromptSentinel (cl_profile c) in
  if str_empty sentinel then false
  else
    match List.find (is_composer sentinel) (rev (Str.Lines paneContent)) with
    | None => false
    | Some row =>
        match cutPromptSentinel row sentinel with
        | Some rest => str_empty (Str.TrimSpace rest)
        | None => false
        end
    end.

(** Where the cursor sits on a composer row: the text after the sentinel, the
    column just after it, and the cursor's column. *)
Definition cursor_row (p : PaneProfile) (capB : string) (cursor : result (Z * Z))
    : option (string * Z * Z) :=
  match cursor with
  | Err _ => None
  | Ok (cursorX, cursorY) =>
      if str_empty (pp_PromptSentinel p) then None
      else
        let lines := Str.Lines capB in
        if (cursorY <? 0) || (Z.of_nat (length lines) <=? cursorY) then None
        else
          match matchCursorRowSentinel (nth (Z.to_nat cursorY) lines EmptyString)
                  (pp_PromptSentinel p) (pp_PromptSentinelVariants p) with
          | None => None
          | Some (rest, matched) => Some (rest, Str.RuneCountInString matched, cursorX)
          end
  end.

Definition cursor_error (cursor : result (Z * Z)) : option error :=
  match cursor with Ok _ => None | Err e => Some e end.

(** The rungs that need only the second capture, in order. *)
Definition classify_markers (w : World) (c : classifier) (capB : string)
    : option (PState * Evidence) :=
  let p := cl_profile c in
  let cm := pp_CompactionMarker p in
  let rm := pp_ResumeModalMarker p in
  if negb (str_empty cm) && capturedLiveCompaction capB cm
  then Some (PAtRestInCompaction, evidence_marker R_compaction_marker cm)
  else if negb (str_empty rm) && capturedResumeModal capB p
  then Some (PAwaitingOperator, evidence_marker R_resume_modal rm)
  else
    let um := firstUsageLimitMatch c capB in
    if negb (str_empty um) then Some (PUsageLimited, evidence_marker R_usage_limit um)
    else
      let (rl, retryAfter) := firstRateLimitMatch w c capB in
      if negb (str_empty rl)
      then Some (PRateLimited, mkEvidence R_rate_limit false 0 retryAfter rl false)
      else
        let wm := firstWorkingMarkerMatch c capB in
        if negb (str_empty wm) then Some (PWorking, evidence_marker R_working_marker wm)
        else None.

(** The cursor is past the sentinel: somebody is typing. *)
Definition past_sentinel (row : option (string * Z * Z)) : option (PState * Evidence) :=
  match row with
  | Some (_, col, x) =>
      if col <? x then Some (PAwaitingOperator, evidence (R_cursor_past_sentinel x col)) else None
  | None => None
  end.

(** The cursor is right after the sentinel. *)
Definition at_sentinel (row : option (string * Z * Z)) : option (PState * Evidence) :=
  match row with
  | Some (rest, col, x) =>
      if x =? col then
        let text := Str.TrimSpace rest in
        Some (PIdle, mkEvidence (if str_empty text then R_cursor_at_sentinel else R_ghost_text text)
                       (str_empty text) 0 0 EmptyString false)
      else None
  | None => None
  end.

(** The last rungs: the picker, the cursor-less idle row, unknown. *)
Definition classify_rest (c : classifier) (capB : string) (cursor : result (Z * Z))
    : PState * Evidence :=
  let p := cl_profile c in
  let m := pp_AwaitingOperatorMarker p in
  if negb (str_empty m) && capturedLiveAwaitingOperator capB p
  then (PAwaitingOperator, evidence_marker R_picker m)
  else if isInputRowQuiet c capB
  then (PIdle, mkEvidence R_quiet_row true 0 0 EmptyString false)
  else
    let sentinel := pp_PromptSentinel p in
    if negb (str_empty sentinel) && Str.Contains capB sentinel
    then (PUnknown, evidence (R_unknown_with_sentinel (cursor_error cursor)))
    else (PUnknown, evidence (R_unknown_no_sentinel (cursor_error cursor))).

(** The rungs that need the cursor and both captures, in order. *)
Definition classify_cursor (c : classifier) (capA capB : string) (cursor : result (Z * Z))
    : PState * Evidence :=
  let p := cl_profile c in
  let row := cursor_row p capB cursor in
  match past_sentinel row with
  | Some r => r
  | None =>
      if negb (bool_decide (capA = capB))
      then (PWorking, mkEvidence R_content_changed false (countChangedLines capA capB) 0
                        EmptyString false)
      else
        match (if str_empty (pp_APIErrorMarker p) then None else capturedLiveErrorChrome capB p) with
        | Some line => (PErrored, evidence_marker (R_api_error line) (pp_APIErrorMarker p))
        | None =>
            match at_sentinel row with
            | Some r => r
            | None => classify_rest c capB cursor
            end
        end
  end.

(** The deferred assignment of [ev.CopyModeQueryFailed]. *)
Definition with_query_failed (failed : bool) (ev : Evidence) : Evidence :=
  if failed
  then mkEvidence (ev_Reason ev) (ev_PromptEmpty ev) (ev_ChangedLineCount ev)
         (ev_RetryAfter ev) (ev_Marker ev) true
  else ev.

Definition agentStateTemporalDelta : Z := 200 * Time.Millisecond.

(** After the copy-mode query: two captures around the temporal window, then the
    marker rungs, and the cursor query only when none of them decided. *)
Definition observe_pane (c : classifier) (pane : string)
    : T (PState * Evidence * option error) :=
  rA <~ tmuxRun None (cmd_capture pane) ;;
  match rA with
  | (out, Some e) =>
      ret (PUnknown, evidence (R_first_capture_failed e),
           Some (wrap_out "tmuxio: agent-state capture #1" e out))
  | (capA, None) =>
      cancelled <~ wait agentStateTemporalDelta ;;
      match cancelled with
      | Some e => ret (PUnknown, evidence (R_cancelled e), Some e)
      | None =>
          rB <~ tmuxRun None (cmd_capture pane) ;;
          match rB with
          | (out, Some e) =>
              ret (PUnknown, evidence (R_second_capture_failed e),
                   Some (wrap_out "tmuxio: agent-state capture #2" e out))
          | (capB, None) =>
              w <~ (fun w h => (w, h)) ;;
              match classify_markers w c capB with
              | Some (st, ev) => ret (st, ev, None)
              | None =>
                  cursor <~ agentCursor pane ;;
                  let (st, ev) := classify_cursor c capA capB cursor in
                  ret (st, ev, None)
              end
          end
      end
  end.

Definition agentState (c : classifier) (pane : string) : T (PState * Evidence * option error) :=
  if str_empty pane
  then ret (PUnknown, evidence R_pane_required, Some pane_required)
  else
    inMode <~ PaneInCopyMode pane ;;
    match inMode with
    | Ok true => ret (PInCopyMode, evidence R_copy_mode, None)
    | Ok false => observe_pane c pane
    | Err _ =>
        r <~ observe_pane c pane ;;
        let '(st, ev, err) := r in
        ret (st, with_query_failed true ev, err)
    end.

Definition AgentStateWithProfile (pane : string) (p : PaneProfile)
    : T (PState * Evidence * option error) :=
  w <~ (fun w h => (w, h)) ;; agentState (newClassifier w p) pane.

(** ** What the classifier promises *)

(** Everything the screen must show, and not show, for an idle verdict. *)
Record looks_idle (w : World) (c : classifier) (capA capB : string)
    (cursor : result (Z * Z)) : Prop := {
  li_stable : capA = capB;
  li_no_compaction : pp_CompactionMarker (cl_profile c) <> EmptyString ->
    capturedLiveCompaction capB (pp_CompactionMarker (cl_profile c)) = false;
  li_no_modal : capturedResumeModal capB (cl_profile c) = false;
  li_no_usage_limit : firstUsageLimitMatch c capB = EmptyString;
  li_no_rate_limit : fst (firstRateLimitMatch w c capB) = EmptyString;
  li_no_working : firstWorkingMarkerMatch c capB = EmptyString;
  li_not_typing : forall rest col x,
    cursor_row (cl_profile c) capB cursor = Some (rest, col, x) -> x <= col;
  li_no_api_error : pp_APIErrorMarker (cl_profile c) <> EmptyString ->
    capturedLiveErrorChrome capB (cl_profile c) = None;
  li_prompt :
    (exists rest col, cursor_row (cl_profile c) capB cursor = Some (rest, col, col)) \/
    (isInputRowQuiet c capB = true /\ capturedLiveAwaitingOperator capB (cl_profile c) = false)
}.

Lemma markers_none w c capB :
  classify_markers w c capB = None <->
  (pp_CompactionMarker (cl_profile c) <> EmptyString ->
     capturedLiveCompaction capB (pp_CompactionMarker (cl_profile c)) = false) /\
  capturedResumeModal capB (cl_profile c) = false /\
  firstUsageLimitMatch c capB = EmptyString /\
  fst (firstRateLimitMatch w c capB) = EmptyString /\
  firstWorkingMarkerMatch c capB = EmptyString.
Proof.
  unfold classify_markers. cbv zeta.
  assert (Hm : pp_ResumeModalMarker (cl_profile c) = EmptyString ->
               capturedResumeModal capB (cl_profile c) = false).
  { intros E. unfold capturedResumeModal. by rewrite E. }
  destruct (firstRateLimitMatch w c capB) as [rl ra]. simpl fst.
  repeat case_bool_decide; simpl; repeat case_match; naive_solver.
Qed.

Lemma markers_not_idle w c capB st ev :
  classify_markers w c capB = Some (st, ev) -> st <> PIdle.
Proof.
  unfold classify_markers. cbv zeta. destruct (firstRateLimitMatch w c capB) as [rl ra].
  intros H ->. repeat case_match; simplify_eq.
Qed.

Lemma rest_idle c capB cursor :
  fst (classify_rest c capB cursor) = PIdle <->
  isInputRowQuiet c capB = true /\ capturedLiveAwaitingOperator capB (cl_profile c) = false.
Proof.
  unfold classify_rest. cbv zeta.
  assert (Hm : pp_AwaitingOperatorMarker (cl_profile c) = EmptyString ->
               capturedLiveAwaitingOperator capB (cl_profile c) = false).
  { intros E. unfold capturedLiveAwaitingOperator. by rewrite E. }
  repeat case_bool_decide; simpl; repeat case_match; simpl; naive_solver.
Qed.

Lemma cursor_idle c capA capB cursor :
  fst (classify_cursor c capA capB cursor) = PIdle <->
  capA = capB /\
  (forall rest col x, cursor_row (cl_profile c) capB cursor = Some (rest, col, x) -> x <= col) /\
  (pp_APIErrorMarker (cl_profile c) <> EmptyString ->
     capturedLiveErrorChrome capB (cl_profile c) = None) /\
  ((exists rest col, cursor_row (cl_profile c) capB cursor = Some (rest, col, col)) \/
   (isInputRowQuiet c capB = true /\ capturedLiveAwaitingOperator capB (cl_profile c) = false)).
Proof.
  unfold classify_cursor. cbv zeta.
  destruct (cursor_row (cl_profile c) capB cursor) as [[[rest col] x]|]; simpl.
  - destruct (col <? x) eqn:E1; bsimp; simpl.
    { split; [done|]. intros (_ & H & _). specialize (H rest col x eq_refl). lia. }
    case_bool_decide as E2; simpl; [|naive_solver].
    case_bool_decide as E3; simpl.
    + destruct (x =? col) eqn:E4; bsimp; simpl.
      * subst. split; [|done]. intros _. repeat split; try done; [naive_solver lia|eauto].
      * rewrite rest_idle. naive_solver lia.
    + destruct (capturedLiveErrorChrome capB (cl_profile c)); simpl; [naive_solver|].
      destruct (x =? col) eqn:E4; bsimp; simpl.
      * subst. split; [|done]. intros _. repeat split; try done; [naive_solver lia|eauto].
      * rewrite rest_idle. naive_solver lia.
  - case_bool_decide as E2; simpl; [|naive_solver].
    case_bool_decide as E3; simpl; [rewrite rest_idle; naive_solver|].
    destruct (capturedLiveErrorChrome capB (cl_profile c)); simpl; [naive_solver|].
    rewrite rest_idle. naive_solver.
Qed.

(** The histories of the five queries of one observation. *)
Definition h_mode (pane : string) (h : history) : history := EvRun None (cmd_copy_mode pane) :: h.
Definition h_first (pane : string) (h : history) : history := EvRun None (cmd_capture pane) :: h_mode pane h.
Definition h_wait (pane : string) (h : history) : history :=
  EvSleep agentStateTemporalDelta :: h_first pane h.
Definition h_second (pane : string) (h : history) : history := EvRun None (cmd_capture pane) :: h_wait pane h.

(** The pane is not known to be in copy mode. *)
Definition not_in_copy_mode (w : World) (pane : string) (h : history) : Prop :=
  let (out, err) := w_tmux w (h_mode pane h) in
  err = None -> Str.TrimSpace out <> "1".

(** One observation saw an idle pane. *)
Definition observed_idle (w : World) (c : classifier) (pane : string) (h : history) : Prop :=
  pane <> EmptyString /\ not_in_copy_mode w pane h /\
  exists capA capB,
    w_tmux w (h_first pane h) = (capA, None) /\ w_ctx w (h_wait pane h) = None /\
    w_tmux w (h_second pane h) = (capB, None) /\
    looks_idle w c capA capB (fst (agentCursor pane w (h_second pane h))).

Lemma observe_pane_idle w c pane h st ev err h' :
  observe_pane c pane w (h_mode pane h) = ((st, ev, err), h') ->
  st = PIdle <->
  exists capA capB,
    w_tmux w (h_first pane h) = (capA, None) /\ w_ctx w (h_wait pane h) = None /\
    w_tmux w (h_second pane h) = (capB, None) /\
    looks_idle w c capA capB (fst (agentCursor pane w (h_second pane h))).
Proof.
  unfold observe_pane, bind, tmuxRun, wait, emit, ctx_Err, ret.
  fold (h_first pane h). destruct (w_tmux w (h_first pane h)) as [capA [e|]].
  { intros [= <- <- <- <-]. naive_solver. }
  cbn [bind]. fold (h_wait pane h). destruct (w_ctx w (h_wait pane h)) as [e|].
  { intros [= <- <- <- <-]. naive_solver. }
  fold (h_second pane h). destruct (w_tmux w (h_second pane h)) as [capB [e|]].
  { intros [= <- <- <- <-]. naive_solver. }
  destruct (classify_markers w c capB) as [[st0 ev0]|] eqn:Em.
  - intros [= <- <- <- <-]. split; [intros E; by destruct (markers_not_idle _ _ _ _ _ Em)|].
    intros (? & ? & [= <-] & _ & [= <-] & [? ? ? ? ? ? ? ? ?]).
    enough (classify_markers w c capB = None) by congruence. by apply markers_none.
  - apply markers_none in Em as (? & ? & ? & ? & ?).
    destruct (agentCursor pane w (h_second pane h)) as [cursor h5]. simpl fst.
    pose proof (cursor_idle c capA capB cursor) as Hc.
    destruct (classify_cursor c capA capB cursor) as [st1 ev1]. simpl in Hc.
    intros [= <- <- <- <-]. rewrite Hc. split.
    + intros (? & ? & ? & ?). exists capA, capB. do 3 (split; [done|]). by split.
    + intros (? & ? & [= <-] & _ & [= <-] & [? ? ? ? ? ? ? ? ?]). done.
Qed.

(** An idle verdict is exactly what it claims.  For every tmux server, history
    and profile, [agentState] answers idle if and only if the pane is not known to
    be in copy mode, both captures succeeded around the uncancelled wait and are
    equal, no compaction, resume modal, usage limit, rate limit, working marker or
    terminal API error shows, nobody is typing past the prompt, and either the
    cursor is at the prompt or the lowest input row is blank with no live picker. *)
Theorem agentState_idle_iff c pane w h :
  fst (fst (fst (agentState c pane w h))) = PIdle <-> observed_idle w c pane h.
Proof.
  unfold agentState, observed_idle, not_in_copy_mode. case_bool_decide as Hp; [naive_solver|].
  unfold bind at 1. unfold PaneInCopyMode. rewrite (bool_decide_false _ Hp).
  unfold bind at 1. unfold tmuxRun, ret. fold (h_mode pane h).
  destruct (w_tmux w (h_mode pane h)) as [out [e|]].
  - unfold bind, ret. destruct (observe_pane c pane w (h_mode pane h)) as [[[st ev] err] h'] eqn:E.
    simpl. rewrite (observe_pane_idle _ _ _ _ _ _ _ _ E). naive_solver.
  - case_bool_decide as Hm; simpl; [naive_solver|].
    destruct (observe_pane c pane w (h_mode pane h)) as [[[st ev] err] h'] eqn:E.
    simpl. rewrite (observe_pane_idle _ _ _ _ _ _ _ _ E). naive_solver.
Qed.

(** The commands an observation may issue. *)
Definition read_only (pane : string) (ev : event) : Prop :=
  ev = EvSleep agentStateTemporalDelta \/ ev = EvRun None (cmd_copy_mode pane) \/
  ev = EvRun None (cmd_capture pane) \/ ev = EvRun None (cmd_cursor pane).

(** What an observation may do to the history, and to its verdict. *)
Definition observes (pane : string) (n : nat) (h : history)
    (r : PState * Evidence * option error * history) : Prop :=
  let '((st, _, err), h') := r in
  (exists new, h' = new ++ h /\ (length new <= n)%nat /\ Forall (read_only pane) new) /\
  (err <> None -> st = PUnknown).

Lemma observe_pane_observes c pane w h : observes pane 4 h (observe_pane c pane w h).
Proof.
  unfold observes, observe_pane, bind, tmuxRun, wait, emit, ctx_Err, ret.
  assert (Hs : read_only pane (EvSleep agentStateTemporalDelta)) by (left; done).
  assert (Hc : read_only pane (EvRun None (cmd_capture pane))) by (right; right; left; done).
  assert (Hx : read_only pane (EvRun None (cmd_cursor pane))) by (do 3 right; done).
  destruct (w_tmux w _) as [capA [e|]].
  { split; [|done]. exists [EvRun None (cmd_capture pane)]. split; [done|]. split; [simpl; lia|]. repeat (apply Forall_cons; split; [done|]). by apply Forall_nil. }
  cbn [bind]. destruct (w_ctx w _) as [e|].
  { split; [|done]. exists [EvSleep agentStateTemporalDelta; EvRun None (cmd_capture pane)].
    split; [done|]. split; [simpl; lia|]. repeat (apply Forall_cons; split; [done|]). by apply Forall_nil. }
  destruct (w_tmux w (EvRun _ _ :: EvSleep _ :: _)) as [capB [e|]].
  { split; [|done]. exists [EvRun None (cmd_capture pane); EvSleep agentStateTemporalDelta;
      EvRun None (cmd_capture pane)]. split; [done|]. split; [simpl; lia|]. repeat (apply Forall_cons; split; [done|]). by apply Forall_nil. }
  destruct (classify_markers w c capB) as [[st0 ev0]|].
  { split; [|done]. exists [EvRun None (cmd_capture pane); EvSleep agentStateTemporalDelta;
      EvRun None (cmd_capture pane)]. split; [done|]. split; [simpl; lia|]. repeat (apply Forall_cons; split; [done|]). by apply Forall_nil. }
  unfold agentCursor, bind, tmuxRun, ret.
  destruct (w_tmux w (EvRun None (cmd_cursor pane) :: _)) as [out oe].
  destruct (classify_cursor _ _ _ _) as [st ev]. split; [|done].
  exists [EvRun None (cmd_cursor pane); EvRun None (cmd_capture pane);
    EvSleep agentStateTemporalDelta; EvRun None (cmd_capture pane)].
  split; [done|]. split; [simpl; lia|]. repeat (apply Forall_cons; split; [done|]). by apply Forall_nil.
Qed.

Lemma agentState_observes c pane w h : observes pane 5 h (agentState c pane w h).
Proof.
  assert (Hm : read_only pane (EvRun None (cmd_copy_mode pane))) by (right; left; done).
  unfold agentState. case_bool_decide as Hp.
  { split; [|done]. exists []. split; [done|]. split; [simpl; lia|apply Forall_nil; done]. }
  unfold bind, PaneInCopyMode. rewrite (bool_decide_false _ Hp). unfold bind, tmuxRun, ret.
  assert (Hext : forall r, observes pane 4 (EvRun None (cmd_copy_mode pane) :: h) r ->
                   observes pane 5 h r).
  { intros [[[st ev] err] h'] [(new & -> & Hl & Hf) He]. split; [|done].
    exists (new ++ [EvRun None (cmd_copy_mode pane)]). rewrite <- app_assoc, length_app.
    split; [done|]. split; [simpl; lia|]. apply Forall_app. split; [done|].
    by apply Forall_singleton. }
  pose proof (observe_pane_observes c pane w (EvRun None (cmd_copy_mode pane) :: h)) as Ho.
  destruct (w_tmux w _) as [out [e|]].
  - destruct (observe_pane c pane w _) as [[[st ev] err] h']. apply Hext. exact Ho.
  - case_bool_decide; [|by apply Hext]. split; [|done].
    exists [EvRun None (cmd_copy_mode pane)]. split; [done|]. split; [simpl; lia|].
    by apply Forall_singleton.
Qed.

(** Observing a pane never acts on it.  Every classification issues at most five
    events, all of them read-only queries of that pane or the temporal wait; when
    any of them fails the verdict is unknown, a state no paste path accepts, even
    a forced one. *)
Theorem agentState_observes_only c pane w h :
  let '((st, _, err), h') := agentState c pane w h in
  (exists new, h' = new ++ h /\ (length new <= 5)%nat /\ Forall (read_only pane) new) /\
  (err <> None -> IsPasteUnsafeForced st = true /\ IsPasteUnsafe st = true).
Proof.
  pose proof (agentState_observes c pane w h) as Ho.
  destruct (agentState c pane w h) as [[[st ev] err] h']. destruct Ho as [H He].
  split; [exact H|]. intros E. by rewrite (He E).
Qed.
