(* ===== verification/ObserveGate.v ===== *)
(** * The observe gate (internal/tmuxio/observe_gate.go)

    Polling a pane until a paste is safe: idle, working when opted in, or operator
    input left unchanged past its threshold; everything else waits or aborts.
    Durations are nanoseconds; the backoff factor is a rational. *)

From S2P Require Import Prelude GoStd TmuxIO PaneState.

Open Scope Z_scope.
Open Scope tell_scope.

Record ObserveGateOpts : Type := mkGateOpts {
  o_PollIntervalMin : Z;
  o_PollIntervalMax : Z;
  o_BackoffFactor : Q;
  o_InputStaleThreshold : Z;
  o_MaxWait : Z;
  o_Ping : bool;
  o_OnOperatorTyping : bool;
  o_WorkingDeliverImmediately : bool
}.


(** The defaults the gate fills in. *)
Definition gate_defaults (o : ObserveGateOpts) : ObserveGateOpts :=
  let pmin := if o_PollIntervalMin o <=? 0 then 3 * Time.Second else o_PollIntervalMin o in
  let pmax0 := if o_PollIntervalMax o <=? 0 then 15 * Time.Second else o_PollIntervalMax o in
  let pmax := if pmax0 <? pmin then pmin else pmax0 in
  mkGateOpts pmin pmax
    (if Qlt_bool (o_BackoffFactor o) 1 then (3 # 2)%Q else o_BackoffFactor o)
    (if o_InputStaleThreshold o <=? 0 then 2 * Time.Minute else o_InputStaleThreshold o)
    (if o_MaxWait o <=? 0 then 5 * Time.Minute else o_MaxWait o)
    (o_Ping o) (o_OnOperatorTyping o) (o_WorkingDeliverImmediately o).

Definition ErrMaxWaitExceeded : error := ErrMsg "tmuxio: observe-gate MaxWait exceeded".
Definition ErrCopyModeUnsafe : error :=
  ErrMsg "tmuxio: observe-gate copy-mode persisted past MaxWait".
Definition ErrCopyModeQueryFailed : error :=
  ErrMsg "tmuxio: observe-gate pane_in_mode query failed persistently".
Definition ErrRateLimited : error := ErrMsg "tmuxio: observe-gate rate-limited".
Definition ErrUsageLimited : error := ErrMsg "tmuxio: observe-gate usage-limited".

Definition copyModeQueryFailDeferThreshold : Z := 3.

(** The [Reason] text of an outcome, by the branch that wrote it. *)
Inductive GateReason : Type :=
  | G_none
  | G_agent_state_error (e : error)
  | G_query_failed (n : Z)
  | G_idle (r : Reason)
  | G_stale (stableFor : Z)
  | G_working
  | G_rate_limited (r : Reason)
  | G_usage_limited (r : Reason)
  | G_copy_mode_past_max
  | G_query_failing_at_max (n : Z)
  | G_max_wait
  | G_cancelled (e : error).

Record GateOutcome : Type := mkOutcome {
  g_Reason : GateReason;
  g_State : PState;
  g_Iterations : Z;
  g_Stale : bool;
  g_InputContent : string;
  g_CopyModeWait : Z;
  g_RetryAfter : Z;
  g_Banner : string
}.

Definition outcome (r : GateReason) (s : PState) (n wait : Z) : GateOutcome :=
  mkOutcome r s n false EmptyString wait 0 EmptyString.

(** ** The text in the input area *)

Definition isInputAreaBoundary (p : PaneProfile) (line : string) : bool :=
  let trimmed := Str.TrimSpace line in
  (negb (str_empty (pp_StatusLineMarker p)) && Str.HasPrefix trimmed (pp_StatusLineMarker p)) ||
  Str.Contains trimmed (Str.Repeat "─" 20).

(** The continuation lines, up to the boundary. *)
Fixpoint input_tail (p : PaneProfile) (lines : list string) : list string :=
  match lines with
  | [] => []
  | l :: ls => if isInputAreaBoundary p l then []
               else Str.TrimRight l space1 :: input_tail p ls
  end.

Fixpoint input_lines (p : PaneProfile) (lines : list string) : list string :=
  match lines with
  | [] => []
  | l :: ls => match Str.CutPrefix l (pp_PromptSentinel p) with
               | Some rest => Str.TrimRight rest space1 :: input_tail p ls
               | None => input_lines p ls
               end
  end.

Definition nl_str : string := String Str.nl EmptyString.

Definition extractInputContent (p : PaneProfile) (pane : string) : T (result string) :=
  r <~ tmuxRun None (cmd_capture pane) ;;
  ret (match r with
       | (out, Some e) => Err (wrap_out "tmuxio: observe-gate input-content capture" e out)
       | (out, None) =>
           if str_empty (pp_PromptSentinel p) then Ok EmptyString
           else Ok (Str.Join (input_lines p (Str.Lines out)) nl_str)
       end).

Definition ExtractInputContent := extractInputContent.

(** The live composer: from the last sentinel row down. *)
Definition liveInputContains (p : PaneProfile) (capture needle : string) : bool :=
  let sentinel := pp_PromptSentinel p in
  if str_empty sentinel || str_empty needle then false
  else
    let lines := Str.Lines capture in
    match last_index (fun l => Str.HasPrefix l sentinel) lines with
    | None => false
    | Some i => Str.Contains (Str.Join (drop i lines) nl_str) needle
    end.

Definition pasteStillInInput (p : PaneProfile) (capture : string) : bool :=
  negb (str_empty (pp_PasteCollapseMarker p)) &&
  liveInputContains p capture (pp_PasteCollapseMarker p).

(** ** The loop *)

Record gate_vars : Type := mkVars {
  v_pollInterval : Z;
  v_hashSeen : string;
  v_hashSeenAt : Z;
  v_lastContent : string;
  v_iterations : Z;
  v_notifiedOfTyping : bool;
  v_firstCopyModeAt : option Z;
  v_copyModeFailRun : Z
}.

(** [sinceIfSet]. *)
Definition sinceIfSet (t : option Z) : T Z :=
  match t with
  | None => ret 0
  | Some t0 => now <~ time_Now ;; ret (now - t0)
  end.

(** An outcome that reports how long copy mode lasted. *)
Definition with_copy_wait (first : option Z) (k : Z -> GateOutcome) (err : option error)
    : T (GateOutcome * option error) :=
  d <~ sinceIfSet first ;; ret (k d, err).

(** [time.Duration(float64(d) * factor)]: truncation towards zero. *)
Definition scale (d : Z) (f : Q) : Z := Z.quot (d * Qnum f) (Zpos (Qden f)).

Definition emit_if (b : bool) (ev : event) : T unit := if b then emit ev else ret tt.

(** One poll ends the gate or goes on with new variables. *)
Definition poll_result : Type := (GateOutcome * option error) + gate_vars.

Definition stop (c : T (GateOutcome * option error)) : T (poll_result * PState) :=
  r <~ c ;; ret (inl r, PUnknown).

(** The [StateAwaitingOperator] case: notify once, hash the input, and give up
    waiting when it has not changed for the threshold. *)
Definition poll_awaiting (p : PaneProfile) (o : ObserveGateOpts) (pane : string) (v : gate_vars)
    : T poll_result :=
  let notify := negb (v_notifiedOfTyping v) && o_OnOperatorTyping o in
  _ <~ emit_if notify EvTyping ;;
  r <~ extractInputContent p pane ;;
  let content := match r with Ok c => c | Err _ => EmptyString end in
  hash <~ (fun w h => (w_hashContent w content, h)) ;;
  now <~ time_Now ;;
  let fresh := str_empty (v_hashSeen v) || negb (bool_decide (hash = v_hashSeen v)) in
  let seenAt := if fresh then now else v_hashSeenAt v in
  let stableFor := now - seenAt in
  if o_InputStaleThreshold o <=? stableFor
  then ret (inl (mkOutcome (G_stale stableFor) PAwaitingOperator (v_iterations v) true content
                   0 0 EmptyString, None))
  else ret (inr (mkVars (if fresh then o_PollIntervalMin o else v_pollInterval v)
                   hash seenAt content (v_iterations v)
                   (notify || v_notifiedOfTyping v) (v_firstCopyModeAt v) (v_copyModeFailRun v))).

(** The switch on the classified state. *)
Definition poll_switch (p : PaneProfile) (o : ObserveGateOpts) (pane : string)
    (state : PState) (ev : Evidence) (v : gate_vars) : T poll_result :=
  let n := v_iterations v in
  match state with
  | PIdle =>
      r <~ with_copy_wait (v_firstCopyModeAt v) (outcome (G_idle (ev_Reason ev)) state n) None ;;
      ret (inl r)
  | PAwaitingOperator => poll_awaiting p o pane v
  | PWorking =>
      if o_WorkingDeliverImmediately o
      then r <~ with_copy_wait (v_firstCopyModeAt v) (outcome G_working state n) None ;; ret (inl r)
      else ret (inr v)
  | PRateLimited =>
      ret (inl (mkOutcome (G_rate_limited (ev_Reason ev)) state n false EmptyString 0
                  (ev_RetryAfter ev) (ev_Marker ev), Some ErrRateLimited))
  | PUsageLimited =>
      ret (inl (mkOutcome (G_usage_limited (ev_Reason ev)) state n false EmptyString 0 0
                  (ev_Marker ev), Some ErrUsageLimited))
  | PInCopyMode =>
      match v_firstCopyModeAt v with
      | Some _ => ret (inr v)
      | None =>
          now <~ time_Now ;;
          ret (inr (mkVars (v_pollInterval v) (v_hashSeen v) (v_hashSeenAt v) (v_lastContent v)
                      (v_iterations v) (v_notifiedOfTyping v) (Some now) (v_copyModeFailRun v)))
      end
  | PAtRestInCompaction | PUnknown | PErrored => ret (inr v)
  end.

(** The outcome at the deadline. *)
Definition at_deadline (lastState : PState) (v : gate_vars) : T (GateOutcome * option error) :=
  let n := v_iterations v in
  if bool_decide (lastState = PInCopyMode)
  then with_copy_wait (v_firstCopyModeAt v) (outcome G_copy_mode_past_max PInCopyMode n)
         (Some ErrCopyModeUnsafe)
  else if 0 <? v_copyModeFailRun v
  then with_copy_wait (v_firstCopyModeAt v)
         (outcome (G_query_failing_at_max (v_copyModeFailRun v)) PUnknown n)
         (Some ErrCopyModeQueryFailed)
  else with_copy_wait (v_firstCopyModeAt v)
         (fun d => mkOutcome G_max_wait lastState n true (v_lastContent v) d 0 EmptyString)
         (Some ErrMaxWaitExceeded).

Definition set_fail_run (n : Z) (v : gate_vars) : gate_vars :=
  mkVars (v_pollInterval v) (v_hashSeen v) (v_hashSeenAt v) (v_lastContent v) (v_iterations v)
    (v_notifiedOfTyping v) (v_firstCopyModeAt v) n.

Definition next_iteration (v : gate_vars) : gate_vars :=
  mkVars (v_pollInterval v) (v_hashSeen v) (v_hashSeenAt v) (v_lastContent v) (v_iterations v + 1)
    (v_notifiedOfTyping v) (v_firstCopyModeAt v) (v_copyModeFailRun v).

Definition set_poll (d : Z) (v : gate_vars) : gate_vars :=
  mkVars d (v_hashSeen v) (v_hashSeenAt v) (v_lastContent v) (v_iterations v)
    (v_notifiedOfTyping v) (v_firstCopyModeAt v) (v_copyModeFailRun v).

(** The classification of one poll: the copy-mode query failures are counted, and
    a state read while the query fails is untrusted. *)
Definition poll_classify (c : classifier) (o : ObserveGateOpts) (pane : string) (v0 : gate_vars)
    : T (poll_result * PState) :=
  let v := next_iteration v0 in
  let n := v_iterations v in
  _ <~ emit_if (o_Ping o) EvPing ;;
  r <~ agentState c pane ;;
  let '(state0, ev, err) := r in
  match err with
  | Some e =>
      ret (inl (outcome (G_agent_state_error e) state0 n 0,
                Some (wrap_err "tmuxio: observe-gate" e)), state0)
  | None =>
      if ev_CopyModeQueryFailed ev then
        let run := v_copyModeFailRun v + 1 in
        if copyModeQueryFailDeferThreshold <=? run
        then stop (with_copy_wait (v_firstCopyModeAt v) (outcome (G_query_failed run) PUnknown n)
                     (Some ErrCopyModeQueryFailed))
        else r <~ poll_switch (cl_profile c) o pane PUnknown ev (set_fail_run run v) ;;
             ret (r, PUnknown)
      else r <~ poll_switch (cl_profile c) o pane state0 ev (set_fail_run 0 v) ;;
           ret (r, state0)
  end.

(** After an undecided poll: the deadline, the sleep, the backoff. *)
Definition poll_sleep (o : ObserveGateOpts) (deadline : Z) (lastState : PState) (v : gate_vars)
    : T poll_result :=
  now <~ time_Now ;;
  if deadline <? now
  then r <~ at_deadline lastState v ;; ret (inl r)
  else
    now2 <~ time_Now ;;
    let remaining := deadline - now2 in
    let sleep := if remaining <? v_pollInterval v then remaining else v_pollInterval v in
    cancelled <~ wait sleep ;;
    match cancelled with
    | Some e => ret (inl (outcome (G_cancelled e) lastState (v_iterations v) 0, Some e))
    | None =>
        let next := scale (v_pollInterval v) (o_BackoffFactor o) in
        ret (inr (set_poll (if o_PollIntervalMax o <? next then o_PollIntervalMax o else next) v))
    end.

(** The [for] loop; [None] when the fuel runs out. *)
Fixpoint gate_loop (fuel : nat) (c : classifier) (o : ObserveGateOpts) (pane : string)
    (deadline : Z) (v : gate_vars) : T (option (GateOutcome * option error)) :=
  match fuel with
  | O => ret None
  | S fuel' =>
      r <~ poll_classify c o pane v ;;
      match r with
      | (inl out, _) => ret (Some out)
      | (inr v1, lastState) =>
          s <~ poll_sleep o deadline lastState v1 ;;
          match s with
          | inl out => ret (Some out)
          | inr v2 => gate_loop fuel' c o pane deadline v2
          end
      end
  end.

Definition gate_start (o : ObserveGateOpts) : gate_vars :=
  mkVars (o_PollIntervalMin o) EmptyString 0 EmptyString 0 false None 0.

Definition ObserveGate (fuel : nat) (c : classifier) (pane : string) (opts : ObserveGateOpts)
    : T (option (GateOutcome * option error)) :=
  if str_empty pane
  then ret (Some (outcome G_none PUnknown 0 0, Some pane_required))
  else
    let o := gate_defaults opts in
    started <~ time_Now ;;
    gate_loop fuel c o pane (started + o_MaxWait o) (gate_start o).

(** ** What the gate may do *)

(** The gate queries the pane, waits, reads the clock and calls its hooks. *)
Definition gate_event (pane : string) (ev : event) : Prop :=
  match ev with
  | EvRun stdin args =>
      stdin = None /\ (args = cmd_copy_mode pane \/ args = cmd_capture pane \/ args = cmd_cursor pane)
  | EvVerify _ _ => False
  | _ => True
  end.

Lemma gate_agentState c pane : does (gate_event pane) (agentState c pane).
Proof.
  intros w h. pose proof (agentState_observes c pane w h) as H.
  destruct (agentState c pane w h) as [[[st ev] err] h'].
  destruct H as [(new & -> & _ & Hn) _]. exists new. split; [done|].
  eapply Forall_impl; [exact Hn|]. intros e He. destruct He as [He|[He|[He|He]]]; subst e; simpl; auto.
Qed.

Lemma does_sinceIfSet pane t : does (gate_event pane) (sinceIfSet t).
Proof. destruct t; simpl; eauto with iodb. apply does_bind; [by apply does_now|eauto with iodb]. Qed.

Lemma does_copy_wait pane first k err : does (gate_event pane) (with_copy_wait first k err).
Proof. apply does_bind; [apply does_sinceIfSet|eauto with iodb]. Qed.

Lemma does_extract p pane : does (gate_event pane) (extractInputContent p pane).
Proof. apply does_bind; [apply does_run; simpl; auto|eauto with iodb]. Qed.

Lemma does_emit_if pane b ev : gate_event pane ev -> does (gate_event pane) (emit_if b ev).
Proof. intros H. destruct b; simpl; eauto with iodb. Qed.

Lemma does_awaiting p o pane v : does (gate_event pane) (poll_awaiting p o pane v).
Proof.
  unfold poll_awaiting. apply does_bind; [by apply does_emit_if|intros _].
  apply does_bind; [apply does_extract|intros r].
  apply does_bind; [apply does_read|intros hash].
  apply does_bind; [by apply does_now|intros now]. cbv zeta. apply does_if; apply does_ret.
Qed.

Lemma does_switch p o pane st ev v : does (gate_event pane) (poll_switch p o pane st ev v).
Proof.
  unfold poll_switch. destruct st; eauto with iodb.
  - apply does_bind; [apply does_copy_wait|eauto with iodb].
  - apply does_if; [apply does_bind; [apply does_copy_wait|]|]; eauto with iodb.
  - apply does_awaiting.
  - destruct (v_firstCopyModeAt v); [apply does_ret|].
    apply does_bind; [by apply does_now|eauto with iodb].
Qed.

Lemma does_classify c o pane v : does (gate_event pane) (poll_classify c o pane v).
Proof.
  unfold poll_classify. cbv zeta. apply does_bind; [by apply does_emit_if|intros _].
  apply does_bind; [apply gate_agentState|intros [[st ev] err]].
  destruct err; [apply does_ret|]. apply does_if; [apply does_if|].
  - apply does_bind; [apply does_copy_wait|eauto with iodb].
  - apply does_bind; [apply does_switch|eauto with iodb].
  - apply does_bind; [apply does_switch|eauto with iodb].
Qed.

Lemma does_at_deadline pane st v : does (gate_event pane) (at_deadline st v).
Proof. unfold at_deadline. repeat apply does_if; apply does_copy_wait. Qed.

Lemma does_sleep o pane deadline st v : does (gate_event pane) (poll_sleep o deadline st v).
Proof.
  unfold poll_sleep. apply does_bind; [by apply does_now|intros now]. apply does_if.
  - apply does_bind; [apply does_at_deadline|eauto with iodb].
  - apply does_bind; [by apply does_now|intros now2]. cbv zeta.
    apply does_bind; [by apply does_wait|]. intros [e|]; apply does_ret.
Qed.

Lemma does_loop fuel c o pane deadline v :
  does (gate_event pane) (gate_loop fuel c o pane deadline v).
Proof.
  revert v. induction fuel as [|fuel IH]; intros v; simpl; [apply does_ret|].
  apply does_bind; [apply does_classify|intros [[out|v1] st]]; [apply does_ret|].
  apply does_bind; [apply does_sleep|intros [out|v2]]; [apply does_ret|apply IH].
Qed.

(** ** What the gate looks at

    The history of a run is a row of looks, each one classification of the pane and
    the reading of the operator's input when somebody is typing, with pauses
    between them that do not touch the pane. *)

(** A look: when it began, and the input it read with the instant of the reading. *)
Record look : Type := mkLook {
  l_at : history;
  l_text : option (string * Z)
}.

(** What ends the input area: the status line, or a rule of twenty dashes. *)
Definition ends_input (p : PaneProfile) (line : string) : Prop :=
  (pp_StatusLineMarker p <> EmptyString /\ Str.HasPrefix (Str.TrimSpace line) (pp_StatusLineMarker p) = true) \/
  Str.Contains (Str.TrimSpace line) (Str.Repeat "─" 20) = true.

#[local] Instance ends_input_dec p line : Decision (ends_input p line).
Proof. unfold ends_input. apply _. Defined.

(** The rows of the composer: from the first with the sentinel to the end of the area. *)
Definition composer_rows (p : PaneProfile) (lines : list string) : list string :=
  match list_find (fun l => Str.HasPrefix l (pp_PromptSentinel p) = true) lines with
  | None => []
  | Some (i, l) =>
      let below := drop (S i) lines in
      let n := match list_find (ends_input p) below with Some (j, _) => j | None => length below end in
      map (fun x => Str.TrimRight x space1) (Str.TrimPrefix l (pp_PromptSentinel p) :: take n below)
  end.

Lemma boundary_ends_input p line : isInputAreaBoundary p line = bool_decide (ends_input p line).
Proof.
  unfold isInputAreaBoundary, ends_input. apply eq_true_iff_eq. rewrite bool_decide_eq_true, orb_true_iff, andb_true_iff, negb_true_iff.
  rewrite bool_decide_eq_false. done.
Qed.

Lemma tail_rows p lines :
  input_tail p lines =
    map (fun x => Str.TrimRight x space1)
      (take (match list_find (ends_input p) lines with Some (j, _) => j | None => length lines end) lines).
Proof.
  induction lines as [|l ls IH]; [done|]. cbn [input_tail list_find]. rewrite boundary_ends_input.
  destruct (decide (ends_input p l)); [by rewrite bool_decide_true by done|]. rewrite bool_decide_false by done.
  rewrite IH. by destruct (list_find (ends_input p) ls) as [[j x]|].
Qed.

Lemma lines_rows p lines : input_lines p lines = composer_rows p lines.
Proof.
  unfold composer_rows. induction lines as [|l ls IH]; [done|]. cbn [input_lines list_find].
  unfold Str.CutPrefix, Str.TrimPrefix in *. destruct (Str.HasPrefix l (pp_PromptSentinel p)) eqn:E.
  - rewrite decide_True by done. by rewrite E, tail_rows.
  - rewrite decide_False by congruence. rewrite IH. by destruct (list_find _ ls) as [[i x]|].
Qed.

Section Looks.
Context (w : World) (c : classifier) (pane : string).

(** The copy-mode query of the look got no answer. *)
Definition query_failed (hp : history) : bool :=
  match snd (w_tmux w (h_mode pane hp)) with Some _ => true | None => false end.

Definition classified (hp : history) : PState * option error :=
  let '((st, _, err), _) := agentState c pane w hp in (st, err).

(** What a look tells: nothing when the copy mode of the pane is not known. *)
Definition seen (hp : history) : PState := if query_failed hp then PUnknown else fst (classified hp).

(** The input on the screen captured after [q]. *)
Definition text_shown (q : history) : string :=
  match w_tmux w (EvRun None (cmd_capture pane) :: q) with
  | (_, Some _) => EmptyString
  | (screen, None) => if str_empty (pp_PromptSentinel (cl_profile c)) then EmptyString
                      else Str.Join (composer_rows (cl_profile c) (Str.Lines screen)) nl_str
  end.

(** Somebody is typing: the input is read, perhaps after the operator was notified. *)
Inductive looked : look -> history -> Prop :=
  | looked_typing hp q :
      snd (classified hp) = None -> seen hp = PAwaitingOperator ->
      q = snd (agentState c pane w hp) \/ q = EvTyping :: snd (agentState c pane w hp) ->
      looked (mkLook hp (Some (text_shown q, w_clock w (EvNow :: EvRun None (cmd_capture pane) :: q))))
        (EvNow :: EvRun None (cmd_capture pane) :: q)
  | looked_other hp :
      snd (classified hp) <> None \/ seen hp <> PAwaitingOperator ->
      looked (mkLook hp None) (snd (agentState c pane w hp)).

Definition pausing (ev : event) : Prop := ev = EvNow \/ ev = EvPing \/ exists d, ev = EvSleep d.

(** The looks of a run that began at [h0], the last one first. *)
Inductive looks (h0 : history) : list look -> history -> Prop :=
  | looks_none : looks h0 [] h0
  | looks_more ls h1 l h2 : looks h0 ls h1 -> adds pausing h1 (l_at l) -> looked l h2 -> looks h0 (l :: ls) h2.

(** The failed copy-mode queries the looks end with. *)
Fixpoint failing_run (ls : list look) : nat :=
  match ls with
  | [] => O
  | l :: ls' => if query_failed (l_at l) then S (failing_run ls') else O
  end.

(** The input read last. *)
Fixpoint last_text (ls : list look) : string :=
  match ls with
  | [] => EmptyString
  | mkLook _ (Some (s, _)) :: _ => s
  | _ :: ls' => last_text ls'
  end.

(** The input first read at [t] had that hash then and ever since. *)
Definition unchanged_since (ls : list look) (hash : string) (t : Z) : Prop :=
  exists newer first older s, ls = newer ++ first :: older /\ l_text first = Some (s, t) /\
    forall l s' t', l ∈ newer ++ [first] -> l_text l = Some (s', t') -> w_hashContent w s' = hash.

(** The last look answered the copy-mode query and found [st]. *)
Definition last_saw (ls : list look) (st : PState) : Prop :=
  exists l ls', ls = l :: ls' /\ query_failed (l_at l) = false /\ classified (l_at l) = (st, None).

(** ** What the gate may answer *)

(** The verdicts that let a delivery go ahead, and the ones that stop it. *)
Definition sound_outcome (o : ObserveGateOpts) (deadline : Z) (ls : list look) (h' : history)
    (r : GateOutcome * option error) : Prop :=
  let out := fst r in
  let late := exists hn, adds pausing hn h' /\ deadline < w_clock w hn in
  g_Iterations out = Z.of_nat (length ls) /\
  match snd r with
  | None =>
      (g_State out = PIdle /\ last_saw ls PIdle /\
         exists l ls', ls = l :: ls' /\ observed_idle w c pane (l_at l)) \/
      (g_State out = PWorking /\ last_saw ls PWorking /\ o_WorkingDeliverImmediately o = true) \/
      (g_State out = PAwaitingOperator /\ last_saw ls PAwaitingOperator /\ g_Stale out = true /\
         exists l ls' t0 t, ls = l :: ls' /\ l_text l = Some (g_InputContent out, t) /\
           unchanged_since ls (w_hashContent w (g_InputContent out)) t0 /\
           g_Reason out = G_stale (t - t0) /\ o_InputStaleThreshold o <= t - t0)
  | Some e =>
      (e = ErrMaxWaitExceeded ->
         late /\ g_Stale out = true /\ last_saw ls (g_State out) /\ g_InputContent out = last_text ls /\
         g_State out ∉ [PIdle; PInCopyMode; PRateLimited; PUsageLimited] /\
         (o_WorkingDeliverImmediately o = true -> g_State out <> PWorking)) /\
      (e = ErrRateLimited -> g_State out = PRateLimited /\ last_saw ls PRateLimited) /\
      (e = ErrUsageLimited -> g_State out = PUsageLimited /\ last_saw ls PUsageLimited) /\
      (e = ErrCopyModeUnsafe -> late /\ g_State out = PInCopyMode /\ last_saw ls PInCopyMode) /\
      (e = ErrCopyModeQueryFailed -> g_State out = PUnknown /\ (0 < failing_run ls)%nat /\
         (failing_run ls = 3%nat \/ late))
  end.

(** What the variables of the loop know of the looks. *)
Definition gate_inv (ls : list look) (v : gate_vars) : Prop :=
  v_iterations v = Z.of_nat (length ls) /\
  v_copyModeFailRun v = Z.of_nat (failing_run ls) /\ (failing_run ls < 3)%nat /\
  (v_hashSeen v <> EmptyString -> unchanged_since ls (v_hashSeen v) (v_hashSeenAt v)) /\
  v_lastContent v = last_text ls.

(** What a look that goes on leaves: a state that only waits. *)
Definition goes_on (o : ObserveGateOpts) (hp : history) : Prop :=
  snd (classified hp) = None /\ seen hp ∉ [PIdle; PRateLimited; PUsageLimited] /\
  (o_WorkingDeliverImmediately o = true -> seen hp <> PWorking).

Lemma adds_now h : adds pausing h (EvNow :: h).
Proof. apply adds_cons. by left. Qed.

Lemma emits_pauses b ev h : pausing ev -> adds pausing h (snd (emit_if b ev w h)).
Proof. intros H. destruct b; [by apply adds_cons|apply adds_refl]. Qed.

(** The classifier says of itself whether the query failed. *)
Lemma evidence_tells (st : PState) ev err :
  pane <> EmptyString -> forall hp h', agentState c pane w hp = ((st, ev, err), h') ->
  ev_CopyModeQueryFailed ev = query_failed hp.
Proof.
  intros Hp hp h'. assert (Ho : yields (fun r => ev_CopyModeQueryFailed (snd (fst r)) = false) (observe_pane c pane)).
  { unfold observe_pane. apply yields_bind; intros [capA [e|]]; [by apply yields_ret|].
    apply yields_bind; intros [e|]; [by apply yields_ret|].
    apply yields_bind; intros [capB [e|]]; [by apply yields_ret|].
    apply yields_bind; intros w'. destruct (classify_markers w' c capB) as [[s e]|] eqn:E.
    - apply yields_ret. revert E. unfold classify_markers. cbv zeta. repeat case_match; intros; by simplify_eq/=.
    - apply yields_bind; intros cursor. destruct (classify_cursor c capA capB cursor) as [s e] eqn:E'.
      apply yields_ret. revert E'. unfold classify_cursor, past_sentinel, at_sentinel, classify_rest. cbv zeta.
      repeat case_match; intros; by simplify_eq/=. }
  unfold agentState, query_failed. rewrite (bool_decide_false _ Hp). unfold bind at 1. unfold PaneInCopyMode.
  rewrite (bool_decide_false _ Hp). unfold bind at 1. unfold tmuxRun, ret. fold (h_mode pane hp).
  destruct (w_tmux w (h_mode pane hp)) as [out [e|]]; cbn [fst snd].
  - unfold bind. destruct (observe_pane c pane w (h_mode pane hp)) as [[[s e'] er] h1]. by intros [= <- <- <- <-].
  - case_bool_decide; [by intros [= <- <- <- <-]|]. intros E. specialize (Ho w (h_mode pane hp)). rewrite E in Ho. exact Ho.
Qed.

Lemma saw_last hp l ls st :
  l_at l = hp -> st <> PUnknown -> seen hp = st -> snd (classified hp) = None -> last_saw (l :: ls) st.
Proof.
  intros <- Hst Hs He. exists l, ls. split; [done|]. unfold seen in Hs.
  destruct (query_failed (l_at l)) eqn:E; [by subst|]. split; [done|].
  destruct (classified (l_at l)). simpl in *. by subst.
Qed.

(** Reading the input finds what the screen shows. *)
Lemma extracted q :
  (match fst (extractInputContent (cl_profile c) pane w q) with Ok s => s | Err _ => EmptyString end) = text_shown q /\
  snd (extractInputContent (cl_profile c) pane w q) = EvRun None (cmd_capture pane) :: q.
Proof.
  unfold extractInputContent, text_shown, bind, tmuxRun, ret.
  destruct (w_tmux w (EvRun None (cmd_capture pane) :: q)) as [screen [e|]]; [done|].
  rewrite lines_rows. cbn [fst snd]. by destruct (str_empty _).
Qed.

Lemma unchanged_first ls l s t : l_text l = Some (s, t) -> unchanged_since (l :: ls) (w_hashContent w s) t.
Proof.
  intros H. exists [], l, ls, s. split; [done|]. split; [done|]. intros l' s' t'.
  cbn [app]. intros ->%list_elem_of_singleton. rewrite H. by intros [= <- <-].
Qed.

Lemma unchanged_more ls l hash t :
  unchanged_since ls hash t -> (forall s t', l_text l = Some (s, t') -> w_hashContent w s = hash) ->
  unchanged_since (l :: ls) hash t.
Proof.
  intros (newer & first & older & s & -> & Hf & Hn) Hl. exists (l :: newer), first, older, s.
  split; [done|]. split; [done|]. intros l' s' t' [->|Hin]%elem_of_cons; [apply Hl|by apply Hn].
Qed.

Lemma copy_wait_pauses first k err h :
  exists d h', with_copy_wait first k err w h = ((k d, err), h') /\ adds pausing h h'.
Proof.
  unfold with_copy_wait, sinceIfSet, bind, ret. destruct first as [t0|].
  - eexists _, _. split; [reflexivity|apply adds_now].
  - eexists _, _. split; [reflexivity|apply adds_refl].
Qed.

(** What is left to show of a look that was no reading: the outcome, or the variables. *)
Definition decides (o : ObserveGateOpts) (deadline : Z) (ls : list look) (hp : history) (r : poll_result) (h' : history) : Prop :=
  exists l h2, l_at l = hp /\ looked l h2 /\ adds pausing h2 h' /\
    match r with
    | inl out => sound_outcome o deadline (l :: ls) h' out
    | inr v' => gate_inv (l :: ls) v' /\ goes_on o hp
    end.

(** The variables, the pane having been classified at [hp]. *)
Definition counted (ls : list look) (hp : history) (v : gate_vars) : Prop :=
  let here := mkLook hp None in
  v_iterations v = Z.of_nat (length (here :: ls)) /\ v_copyModeFailRun v = Z.of_nat (failing_run (here :: ls)) /\
  (failing_run (here :: ls) < 3)%nat /\
  (v_hashSeen v <> EmptyString -> unchanged_since ls (v_hashSeen v) (v_hashSeenAt v)) /\ v_lastContent v = last_text ls.

Lemma awaiting_decides o deadline ls hp v :
  snd (classified hp) = None -> 0 < o_InputStaleThreshold o -> seen hp = PAwaitingOperator -> counted ls hp v ->
  let (r, h') := poll_awaiting (cl_profile c) o pane v w (snd (agentState c pane w hp)) in decides o deadline ls hp r h'.
Proof.
  intros He Ht Es (Hn & Hr & H3 & Hu & Hc). set (h1 := snd (agentState c pane w hp)).
  unfold poll_awaiting. unfold bind at 1. set (notify := negb (v_notifiedOfTyping v) && o_OnOperatorTyping o).
  assert (exists q, emit_if notify EvTyping w h1 = (tt, q) /\ (q = h1 \/ q = EvTyping :: h1)) as (q & -> & Hq).
  { destruct notify; eexists; (split; [reflexivity|]); auto. }
  unfold bind at 1. destruct (extracted q) as [Ex Eh].
  destruct (extractInputContent (cl_profile c) pane w q) as [r h2]. cbn [fst snd] in Ex, Eh. subst h2.
  unfold bind, time_Now. cbv zeta. rewrite Ex. set (s := text_shown q).
  set (t := w_clock w (EvNow :: EvRun None (cmd_capture pane) :: q)).
  set (fresh := _ || _). set (l := mkLook hp (Some (s, t))).
  assert (looked l (EvNow :: EvRun None (cmd_capture pane) :: q)) as Hl by (by apply looked_typing).
  assert (unchanged_since (l :: ls) (w_hashContent w s) (if fresh then t else v_hashSeenAt v)) as Hun.
  { destruct fresh eqn:Ef; [by apply unchanged_first|]. unfold fresh in Ef. bsimp.
    apply unchanged_more; [|by intros ? ? [= <- <-]]. rewrite H0. apply Hu. done. }
  unfold ret. destruct (o_InputStaleThreshold o <=? _) eqn:El; bsimp; cbv beta iota; unfold decides; exists l, (EvNow :: EvRun None (cmd_capture pane) :: q);
    (split; [done|]; split; [done|]; split; [apply adds_refl|]).
  - split; [done|]. right; right. split; [done|]. split; [by apply (saw_last hp)|]. split; [done|].
    by eexists l, ls, _, t.
  - split; [|split_and!; [done|by rewrite Es; set_solver|by rewrite Es]]. split_and!; done.
Qed.

(** The decision of one look, by what it saw. *)
Lemma switch_decides o deadline ls hp v ev :
  snd (classified hp) = None -> 0 < o_InputStaleThreshold o ->
  (seen hp = PIdle -> observed_idle w c pane hp) -> counted ls hp v ->
  let (r, h') := poll_switch (cl_profile c) o pane (seen hp) ev v w (snd (agentState c pane w hp)) in decides o deadline ls hp r h'.
Proof.
  intros He Ht Hi Hv. destruct (decide (seen hp = PAwaitingOperator)) as [Es|Es].
  { rewrite Es. by apply awaiting_decides. }
  pose proof Hv as (Hn & Hr & H3 & Hu & Hc). set (h1 := snd (agentState c pane w hp)). set (here := mkLook hp None).
  assert (looked here h1) as Hl by (apply looked_other; by right).
  assert (gate_inv (here :: ls) v) as Hg.
  { split_and!; try done. intros H. apply unchanged_more; [by apply Hu|done]. }
  assert (Hgo : forall v' h', gate_inv (here :: ls) v' -> goes_on o hp -> adds pausing h1 h' -> decides o deadline ls hp (inr v') h')
    by (intros v' h' Hg' Hw Ha; by exists here, h1).
  assert (Hend : forall out h', sound_outcome o deadline (here :: ls) h' out -> adds pausing h1 h' -> decides o deadline ls hp (inl out) h')
    by (intros out h' Ho Ha; by exists here, h1).
  assert (Hs : seen hp <> PUnknown -> last_saw (here :: ls) (seen hp)) by (intros H; by apply (saw_last hp)).
  assert (Hwait : seen hp ∉ [PIdle; PRateLimited; PUsageLimited] -> (o_WorkingDeliverImmediately o = true -> seen hp <> PWorking) ->
    goes_on o hp) by done.
  unfold poll_switch. destruct (seen hp) eqn:E; try done.
  - apply Hgo; [done|by apply Hwait; [set_solver|]|apply adds_refl].
  - destruct (copy_wait_pauses (v_firstCopyModeAt v) (outcome (G_idle (ev_Reason ev)) PIdle (v_iterations v)) None h1)
      as (d & h' & Ew & Ha). unfold bind. rewrite Ew. apply Hend; [|done]. split; [done|]. left.
    split; [done|]. split; [by apply Hs|]. exists here, ls. split; [done|]. by apply Hi.
  - destruct (o_WorkingDeliverImmediately o) eqn:Eo; [|apply Hgo; [done|by apply Hwait; [set_solver|]|apply adds_refl]].
    destruct (copy_wait_pauses (v_firstCopyModeAt v) (outcome G_working PWorking (v_iterations v)) None h1) as (d & h' & Ew & Ha).
    unfold bind. rewrite Ew. apply Hend; [|done]. split; [done|]. right; left. split; [done|]. by split; [apply Hs|].
  - apply Hgo; [done|by apply Hwait; [set_solver|]|apply adds_refl].
  - destruct (v_firstCopyModeAt v); [|unfold bind, time_Now, ret];
      (apply Hgo; [done|by apply Hwait; [set_solver|]|]); [apply adds_refl|apply adds_now].
  - apply Hend; [|apply adds_refl]. split; [done|]. cbn [snd fst]. split_and!; try done. intros _. by split; [|apply Hs].
  - apply Hend; [|apply adds_refl]. split; [done|]. cbn [snd fst]. split_and!; try done. intros _. by split; [|apply Hs].
  - apply Hgo; [done|by apply Hwait; [set_solver|]|apply adds_refl].
Qed.

(** One classification. *)
Lemma classify_decides o deadline ls v h :
  pane <> EmptyString -> 0 < o_InputStaleThreshold o -> gate_inv ls v ->
  let '((r, st), h') := poll_classify c o pane v w h in
  exists hp, adds pausing h hp /\ decides o deadline ls hp r h' /\ match r with inl _ => True | inr _ => st = seen hp end.
Proof.
  intros Hp Ht (Hn & Hr & H3 & Hu & Hc). unfold poll_classify. cbv zeta. unfold bind at 1.
  pose proof (emits_pauses (o_Ping o) EvPing h) as Ha. destruct (emit_if (o_Ping o) EvPing w h) as [u hp].
  cbn [snd] in Ha. unfold bind at 1.
  destruct (agentState c pane w hp) as [[[st ev] err] h1] eqn:E.
  assert (adds pausing h hp) as Hping by (apply Ha; by right; left). clear Ha.
  assert (classified hp = (st, err)) as Ec by (unfold classified; by rewrite E).
  assert (h1 = snd (agentState c pane w hp)) as Eh by (by rewrite E).
  pose proof (evidence_tells st ev err Hp hp h1 E) as Eq.
  pose proof (agentState_idle_iff c pane w hp) as Hi. rewrite E in Hi. cbn [fst] in Hi.
  set (n := v_iterations (next_iteration v)).
  assert (n = Z.of_nat (length (mkLook hp None :: ls))) as En by (unfold n; cbn [length next_iteration v_iterations]; lia).
  destruct err as [e|].
  { cbn. exists hp. split; [done|]. split; [|done]. exists (mkLook hp None), h1. split; [done|].
    split; [rewrite Eh; apply looked_other; left; by rewrite Ec|]. split; [apply adds_refl|].
    split; [exact En|]. by split_and!. }
  assert (snd (classified hp) = None) as He by (by rewrite Ec).
  rewrite Eq. destruct (query_failed hp) eqn:Ef.
  - assert (seen hp = PUnknown) as Es by (unfold seen; by rewrite Ef).
    assert (failing_run (mkLook hp None :: ls) = S (failing_run ls)) as Efr by (cbn [failing_run l_at]; by rewrite Ef).
    unfold copyModeQueryFailDeferThreshold.
    destruct (3 <=? v_copyModeFailRun (next_iteration v) + 1) eqn:El; bsimp; cbn [next_iteration v_copyModeFailRun] in El.
    + unfold stop. edestruct (copy_wait_pauses (v_firstCopyModeAt (next_iteration v))) as (d & h' & Ew & Ha).
      unfold bind. rewrite Ew. cbn. exists hp. split; [done|]. split; [|done].
      exists (mkLook hp None), h1. split; [done|].
      split; [rewrite Eh; apply looked_other; right; by rewrite Es|]. split; [done|].
      split; [exact En|]. cbn [snd fst]. split_and!; try done. intros _. rewrite Efr. split; [done|]. split; [lia|]. left. lia.
    + unfold bind.
      pose proof (switch_decides o deadline ls hp (set_fail_run (v_copyModeFailRun (next_iteration v) + 1) (next_iteration v)) ev) as H.
      rewrite Es, <- Eh in H. destruct (poll_switch _ _ _ _ _ _ w _) as [r h']. cbn. exists hp. split; [done|]. split; [|by destruct r].
      apply H; [done|done|done|]. unfold counted. cbv zeta. rewrite Efr.
      cbn [set_fail_run next_iteration v_copyModeFailRun v_iterations v_hashSeen v_hashSeenAt v_lastContent length].
      split_and!; try done; lia.
  - assert (seen hp = st) as Es by (unfold seen; by rewrite Ef, Ec).
    assert (failing_run (mkLook hp None :: ls) = 0%nat) as Efr by (cbn [failing_run l_at]; by rewrite Ef).
    unfold bind.
    pose proof (switch_decides o deadline ls hp (set_fail_run 0 (next_iteration v)) ev) as H.
    rewrite Es, <- Eh in H. destruct (poll_switch _ _ _ _ _ _ w _) as [r h']. cbn. exists hp. split; [done|]. split; [|by destruct r].
    apply H; [done|done|apply Hi|]. unfold counted. cbv zeta. rewrite Efr.
    cbn [set_fail_run next_iteration v_copyModeFailRun v_iterations v_hashSeen v_hashSeenAt v_lastContent length].
    split_and!; try done; lia.
Qed.

(** The deadline, the sleep and the backoff after a look that goes on. *)
Lemma sleep_decides o deadline ls l v h1 h :
  gate_inv (l :: ls) v -> goes_on o (l_at l) -> adds pausing h1 h ->
  let (r, h') := poll_sleep o deadline (seen (l_at l)) v w h in
  adds pausing h1 h' /\ match r with
                        | inl out => sound_outcome o deadline (l :: ls) h' out
                        | inr v' => gate_inv (l :: ls) v'
                        end.
Proof.
  intros (Hn & Hr & H3 & Hu & Hc) (He & Hs & Hwk) Ha. unfold poll_sleep. unfold bind at 1. unfold time_Now at 1.
  assert (adds pausing h1 (EvNow :: h)) as Ha1 by (eapply adds_trans; [exact Ha|apply adds_now]).
  destruct (deadline <? w_clock w (EvNow :: h)) eqn:El; bsimp.
  - assert (forall h', adds pausing (EvNow :: h) h' -> exists hn, adds pausing hn h' /\ deadline < w_clock w hn) as Hlate
      by (intros h' Hh; by exists (EvNow :: h)).
    unfold bind, at_deadline. case_bool_decide as E; [|destruct (0 <? v_copyModeFailRun v) eqn:Ef; bsimp];
      edestruct (copy_wait_pauses (v_firstCopyModeAt v)) as (d & h' & Ew & Hh); rewrite Ew; cbn [ret];
      (split; [by eapply adds_trans|]); (split; [done|]); cbn [snd fst]; split_and!; try done; intros _.
    + split; [by apply Hlate|]. split; [done|]. by apply (saw_last (l_at l)).
    + split; [done|]. split; [lia|]. right. by apply Hlate.
    + split; [by apply Hlate|]. split; [done|]. split; [|split_and!; [done|set_solver|done]].
      exists l, ls. split; [done|]. cbn [failing_run] in Hr. unfold seen. destruct (query_failed (l_at l)); [lia|].
      split; [done|]. destruct (classified (l_at l)). simpl in *. by subst.
  - unfold wait, bind, time_Now, emit, ctx_Err, ret. cbv zeta. set (d := if _ <? v_pollInterval v then _ else _).
    assert (adds pausing h1 (EvSleep d :: EvNow :: EvNow :: h)) as Ha2.
    { eapply adds_trans; [exact Ha1|]. eapply adds_trans; [apply adds_now|]. apply adds_cons. right; right. by exists d. }
    destruct (w_ctx w _) as [[]|]; (split; [done|]); [split; [done|]; by split_and!..|]. by split_and!.
Qed.

Lemma loop_decides fuel o deadline h0 ls v h1 h :
  pane <> EmptyString -> 0 < o_InputStaleThreshold o -> looks h0 ls h1 -> adds pausing h1 h -> gate_inv ls v ->
  let (r, h') := gate_loop fuel c o pane deadline v w h in
  exists ls' h2, looks h0 ls' h2 /\ match r with
    | Some out => adds pausing h2 h' /\ sound_outcome o deadline ls' h' out
    | None => adds pausing h2 h'
    end.
Proof.
  intros Hp Ht. revert ls v h1 h. induction fuel as [|fuel IH]; intros ls v h1 h Hl Ha Hv; cbn [gate_loop].
  { by exists ls, h1. }
  unfold bind at 1. pose proof (classify_decides o deadline ls v h Hp Ht Hv) as H.
  destruct (poll_classify c o pane v w h) as [[r st] h'].
  destruct H as (hp & Hhp & (l & h2 & El & Hlk & Hh' & Hr) & Est).
  assert (looks h0 (l :: ls) h2) as Hls by (eapply looks_more; [exact Hl|rewrite El; by eapply adds_trans|exact Hlk]).
  destruct r as [out|v1]; [by exists (l :: ls), h2|]. destruct Hr as [Hv1 Hgo]. rewrite Est, <- El. rewrite <- El in Hgo.
  unfold bind. pose proof (sleep_decides o deadline ls l v1 h2 h' Hv1 Hgo Hh') as H.
  destruct (poll_sleep o deadline (seen (l_at l)) v1 w h') as [[out|v2] h3]; destruct H as [Hh3 H].
  - by exists (l :: ls), h2.
  - by apply (IH (l :: ls) v2 h2).
Qed.

Lemma gate_starts o : gate_inv [] (gate_start o).
Proof. split_and!; [done|done|cbn; lia|done|done]. Qed.
End Looks.

Lemma gate_threshold opts : 0 < o_InputStaleThreshold (gate_defaults opts).
Proof. cbn. destruct (o_InputStaleThreshold opts <=? 0) eqn:E; bsimp; [done|lia]. Qed.

(** C40: the gate opens only on a pane a paste cannot harm.  Whatever the pane does and
    however long it takes, the gate issues nothing but read-only queries, and its
    run is a row of looks at the pane with pauses between them.  A verdict without
    error is that of the last look, whose copy-mode query was answered: idle as the
    screen of that look shows it, working with the opt-in, or operator input whose
    content hash is that of every reading since one at least the staleness threshold
    earlier.  The verdict at the deadline comes after the deadline, and from a last
    look that was neither failed, idle, limited nor in copy mode; the limits and copy
    mode abort because the last look found them; and the failed query aborts after
    three looks in a row, or at the deadline when the last one failed. *)
Theorem ObserveGate_sound fuel c pane opts w h :
  let o := gate_defaults opts in
  let deadline := w_clock w (EvNow :: h) + o_MaxWait o in
  let (r, h') := ObserveGate fuel c pane opts w h in
  adds (gate_event pane) h h' /\
  if str_empty pane then r = Some (outcome G_none PUnknown 0 0, Some pane_required)
  else exists ls hl, looks w c pane (EvNow :: h) ls hl /\ adds pausing hl h' /\
    match r with
    | Some out => sound_outcome w c pane o deadline ls h' out
    | None => True
    end.
Proof.
  cbv zeta. assert (Hd : does (gate_event pane) (ObserveGate fuel c pane opts)).
  { unfold ObserveGate. apply does_if; [apply does_ret|]. cbv zeta.
    apply does_bind; [by apply does_now|intros started; apply does_loop]. }
  specialize (Hd w h). destruct (ObserveGate fuel c pane opts w h) as [r h'] eqn:E. split; [exact Hd|].
  revert E. unfold ObserveGate. destruct (str_empty pane) eqn:Ep; [by intros [= <- <-]|].
  assert (pane <> EmptyString) as Hp by (by apply bool_decide_eq_false_1 in Ep).
  cbv zeta. unfold bind, time_Now. intros E.
  pose proof (loop_decides w c pane fuel (gate_defaults opts) (w_clock w (EvNow :: h) + o_MaxWait (gate_defaults opts)) (EvNow :: h) []
    (gate_start (gate_defaults opts)) (EvNow :: h) (EvNow :: h) Hp (gate_threshold opts) (looks_none w c pane _) (adds_refl _ _)
    (gate_starts w pane _)) as H.
  rewrite E in H. destruct H as (ls & h2 & Hl & H). exists ls, h2. destruct r as [out|]; [by destruct H|by split].
Qed.

(** ** Termination *)

Lemma scale_grows d f : 0 <= d -> Qlt_bool f 1 = false -> d <= scale d f.
Proof.
  unfold Qlt_bool, scale. simpl. intros Hd Hf. bsimp.
  rewrite Z.quot_div_nonneg by nia. apply Z.div_le_lower_bound; nia.
Qed.

Lemma gate_defaults_ok opts :
  let o := gate_defaults opts in
  0 < o_PollIntervalMin o /\ o_PollIntervalMin o <= o_PollIntervalMax o /\
  Qlt_bool (o_BackoffFactor o) 1 = false /\ 0 < o_MaxWait o.
Proof.
  unfold gate_defaults. cbv zeta.
  cbn [o_PollIntervalMin o_PollIntervalMax o_BackoffFactor o_MaxWait].
  change (3 * Time.Second) with 3000000000. change (15 * Time.Second) with 15000000000.
  change (5 * Time.Minute) with 300000000000.
  destruct (o_PollIntervalMin opts <=? 0) eqn:E1, (o_PollIntervalMax opts <=? 0) eqn:E2,
    (o_MaxWait opts <=? 0) eqn:E3; bsimp;
    (split; [lia|]);
    (split; [match goal with |- context [if ?b then _ else _] => destruct b eqn:E4 end; bsimp; lia|]);
    (split; [destruct (Qlt_bool (o_BackoffFactor opts) 1) eqn:E5; done|lia]).
Qed.

(** A classification spawns at least one process. *)
Lemma agentState_clock c pane w h :
  steady_clock w -> pane <> EmptyString ->
  w_clock w h + 1 <= w_clock w (snd (agentState c pane w h)).
Proof.
  intros Hw Hp. unfold agentState. rewrite (bool_decide_false _ Hp).
  unfold bind at 1. unfold PaneInCopyMode. rewrite (bool_decide_false _ Hp).
  unfold bind at 1. unfold tmuxRun, ret.
  pose proof (sc_run w Hw None (cmd_copy_mode pane) h) as H1.
  set (h1 := EvRun None (cmd_copy_mode pane) :: h) in *.
  assert (H2 : w_clock w h1 <= w_clock w (snd (observe_pane c pane w h1))).
  { pose proof (observe_pane_observes c pane w h1) as Ho.
    destruct (observe_pane c pane w h1) as [[[st ev] err] h'].
    destruct Ho as [(new & -> & _ & Hn) _]. eapply adds_clock; [done|]. eexists. by split. }
  destruct (w_tmux w h1) as [out [e|]]; simpl.
  - unfold bind, ret. destruct (observe_pane c pane w h1) as [[[st ev] err] h']. simpl in *. lia.
  - case_bool_decide; simpl; [lia|]. lia.
Qed.

Lemma does_clock {A} P (c : T A) w h :
  steady_clock w -> does P c -> w_clock w h <= w_clock w (snd (c w h)).
Proof. intros Hw Hc. by apply (adds_clock w P). Qed.

Lemma bind_clock {A B} P (c : T A) (k : A -> T B) w h n :
  steady_clock w -> n <= w_clock w (snd (c w h)) -> (forall a, does P (k a)) ->
  n <= w_clock w (snd (bind c k w h)).
Proof.
  intros Hw Hc Hk. unfold bind. destruct (c w h) as [a h'].
  pose proof (does_clock P (k a) w h' Hw (Hk a)). simpl in *. lia.
Qed.

Lemma classify_clock c o pane v w h :
  steady_clock w -> pane <> EmptyString ->
  w_clock w h + 1 <= w_clock w (snd (poll_classify c o pane v w h)).
Proof.
  intros Hw Hp. unfold poll_classify. cbv zeta.
  unfold bind at 1. destruct (emit_if (o_Ping o) EvPing w h) as [u h1] eqn:E.
  assert (H1 : w_clock w h <= w_clock w h1).
  { pose proof (does_clock (gate_event pane) (emit_if (o_Ping o) EvPing) w h Hw) as H.
    rewrite E in H. apply H. by apply does_emit_if. }
  apply (bind_clock (gate_event pane)); [done| |].
  - pose proof (agentState_clock c pane w h1 Hw Hp). lia.
  - intros [[st ev] err]. destruct err; [apply does_ret|]. apply does_if; [apply does_if|].
    + apply does_bind; [apply does_copy_wait|eauto with iodb].
    + apply does_bind; [apply does_switch|eauto with iodb].
    + apply does_bind; [apply does_switch|eauto with iodb].
Qed.

(** The interval never shrinks below the minimum. *)
Definition poll_ok (o : ObserveGateOpts) (v : gate_vars) : Prop :=
  o_PollIntervalMin o <= v_pollInterval v.

Definition keeps_poll (o : ObserveGateOpts) (r : poll_result) : Prop :=
  match r with inl _ => True | inr v => poll_ok o v end.

Lemma keeps_switch p o pane st ev v : poll_ok o v -> yields (keeps_poll o) (poll_switch p o pane st ev v).
Proof.
  intros Hv. unfold poll_switch. destruct st; try by apply yields_ret.
  - apply yields_bind; intros r. by apply yields_ret.
  - case_match; [apply yields_bind; intros r|]; by apply yields_ret.
  - unfold poll_awaiting. do 4 (apply yields_bind; intros ?). cbv zeta.
    case_match; apply yields_ret; [done|]. unfold keeps_poll, poll_ok in *. simpl.
    case_match; simpl; lia.
  - destruct (v_firstCopyModeAt v); [by apply yields_ret|].
    apply yields_bind; intros now. by apply yields_ret.
Qed.

Lemma keeps_classify c o pane v :
  poll_ok o v -> yields (fun r => keeps_poll o (fst r)) (poll_classify c o pane v).
Proof.
  intros Hv. unfold poll_classify. cbv zeta. apply yields_bind; intros _.
  apply yields_bind; intros [[st ev] [e|]]; [by apply yields_ret|].
  case_match; [case_match|].
  - apply yields_bind; intros r. by apply yields_ret.
  - eapply yields_bind'; [by apply (keeps_switch (cl_profile c) o)|].
    intros r Hr. by apply yields_ret.
  - eapply yields_bind'; [by apply (keeps_switch (cl_profile c) o)|].
    intros r Hr. by apply yields_ret.
Qed.

(** Either the deadline has passed and the gate answers, or it sleeps a full
    interval or up to the deadline. *)
Lemma sleep_progress o deadline st v w h :
  steady_clock w -> poll_ok o v -> 0 < o_PollIntervalMin o ->
  o_PollIntervalMin o <= o_PollIntervalMax o -> Qlt_bool (o_BackoffFactor o) 1 = false ->
  match poll_sleep o deadline st v w h with
  | (inl _, _) => True
  | (inr v', h') => w_clock w h <= deadline /\ poll_ok o v' /\
      Z.min deadline (w_clock w h + o_PollIntervalMin o) <= w_clock w h'
  end.
Proof.
  intros Hw Hv Hp Hm Hb. unfold poll_sleep, bind, time_Now, ret.
  pose proof (sc_mono w Hw EvNow h) as H1. set (h1 := EvNow :: h) in *.
  destruct (deadline <? w_clock w h1) eqn:E.
  { by destruct (at_deadline st v w h1). }
  bsimp. pose proof (sc_mono w Hw EvNow h1) as H2. set (h2 := EvNow :: h1) in *.
  unfold wait, bind, emit, ctx_Err, ret.
  set (sleep := if _ <? _ then _ else _). pose proof (sc_sleep w Hw sleep h2) as H3.
  destruct (w_ctx w (EvSleep sleep :: h2)) as [e|]; [done|]. simpl.
  pose proof (scale_grows (v_pollInterval v) (o_BackoffFactor o)) as Hs.
  unfold poll_ok in *. split; [lia|]. split.
  - simpl. specialize (Hs ltac:(lia) Hb). case_match; bsimp; lia.
  - unfold sleep in H3 |- *. destruct (deadline - w_clock w h2 <? v_pollInterval v) eqn:E2; bsimp; lia.
Qed.

Lemma gate_loop_total c o pane deadline w :
  steady_clock w -> pane <> EmptyString -> 0 < o_PollIntervalMin o ->
  o_PollIntervalMin o <= o_PollIntervalMax o -> Qlt_bool (o_BackoffFactor o) 1 = false ->
  forall fuel v h, poll_ok o v -> (1 <= fuel)%nat ->
  deadline - w_clock w h + o_PollIntervalMin o <= Z.of_nat fuel * o_PollIntervalMin o ->
  exists r h', gate_loop fuel c o pane deadline v w h = (Some r, h').
Proof.
  intros Hw Hpane Hp Hm Hb. induction fuel as [|fuel IH]; intros v h Hv Hf Hlen; [lia|].
  simpl. unfold bind at 1.
  pose proof (classify_clock c o pane v w h Hw Hpane) as H1.
  pose proof (keeps_classify c o pane v Hv w h) as H2.
  destruct (poll_classify c o pane v w h) as [[[out|v1] st] h1]; simpl in H1, H2.
  { unfold ret. eauto. }
  unfold bind at 1. pose proof (sleep_progress o deadline st v1 w h1 Hw H2 Hp Hm Hb) as H3.
  destruct (poll_sleep o deadline st v1 w h1) as [[out|v2] h2].
  { unfold ret. eauto. }
  destruct H3 as (H3 & H4 & H5). rewrite Nat2Z.inj_succ, Z.mul_succ_l in Hlen.
  assert (Hf1 : (1 <= fuel)%nat) by (destruct fuel; [simpl in Hlen; lia|lia]).
  assert (Hf2 : o_PollIntervalMin o <= Z.of_nat fuel * o_PollIntervalMin o) by nia.
  apply IH; [done|done|lia].
Qed.

(** Polls enough for [MaxWait] at the shortest interval. *)
Definition gate_fuel (opts : ObserveGateOpts) : nat :=
  let o := gate_defaults opts in
  S (S (Z.to_nat (o_MaxWait o / o_PollIntervalMin o))).

(** The gate always answers.  With a clock that behaves, and whatever the pane
    shows, the loop ends with an outcome after at most [MaxWait] divided by the
    shortest poll interval, plus two, polls: no screen content can hang the
    mailman. *)
Theorem ObserveGate_terminates c pane opts w h :
  steady_clock w ->
  exists r h', ObserveGate (gate_fuel opts) c pane opts w h = (Some r, h').
Proof.
  intros Hw. unfold ObserveGate. case_bool_decide as Hp; [unfold ret; eauto|]. cbv zeta.
  destruct (gate_defaults_ok opts) as (H1 & H2 & H3 & H4).
  unfold bind, time_Now. apply gate_loop_total; auto.
  - unfold poll_ok, gate_start. simpl. lia.
  - unfold gate_fuel. lia.
  - unfold gate_fuel. cbv zeta. set (o := gate_defaults opts) in *.
    pose proof (Z.div_mod (o_MaxWait o) (o_PollIntervalMin o)) as Hdm.
    pose proof (Z.mod_pos_bound (o_MaxWait o) (o_PollIntervalMin o) H1) as Hmb.
    pose proof (Z.div_pos (o_MaxWait o) (o_PollIntervalMin o)) as Hdp. nia.
Qed.

(** A pane that stays in copy mode under a clock that only moves with sleeps. *)
Fixpoint slept (h : history) : Z :=
  match h with
  | [] => 0
  | EvSleep d :: h' => Z.max 0 d + slept h'
  | EvRun _ _ :: h' => 1 + slept h'
  | _ :: h' => slept h'
  end.

Definition copy_mode_world : World :=
  mkWorld (fun _ => ("1", None)) (fun _ => None) slept (fun _ => None)
    (fun _ => Err (ErrMsg "none")) (fun _ => "buf") (fun s => s) (fun _ => false).

Lemma copy_mode_steady : steady_clock copy_mode_world.
Proof.
  split; simpl.
  - intros ev h. destruct ev; lia.
  - intros d h. lia.
  - intros stdin args h. lia.
Qed.

Definition fast_opts : ObserveGateOpts :=
  mkGateOpts Time.Second (2 * Time.Second) (3 # 2)%Q 0 (5 * Time.Second) true true false.

Lemma ObserveGate_terminates_witness :
  (exists out, fst (ObserveGate (gate_fuel fast_opts) (newClassifier copy_mode_world ClaudePaneProfile)
     "%1" fast_opts copy_mode_world []) = Some (out, Some ErrCopyModeUnsafe)) /\
  exists r h', ObserveGate (gate_fuel fast_opts) (newClassifier copy_mode_world ClaudePaneProfile)
     "%1" fast_opts copy_mode_world [] = (Some r, h').
Proof.
  split; [eexists; vm_compute; reflexivity|].
  exact (ObserveGate_terminates (newClassifier copy_mode_world ClaudePaneProfile) "%1" fast_opts
           copy_mode_world [] copy_mode_steady).
Defined.

(** Half-typed input that nobody touches is delivered over, and not before its threshold. *)
Definition typing_world : World :=
  mkWorld (fun h => match h with
                    | EvRun _ args :: _ =>
                        if bool_decide (args = cmd_capture "%1") then (PromptSentinel +:+ "half a thought", None)
                        else if bool_decide (args = cmd_cursor "%1") then ("16/0", None) else ("0", None)
                    | _ => (EmptyString, None)
                    end) (fun _ => None) slept
    (fun _ => None) (fun _ => Err (ErrMsg "none")) (fun _ => "buf") (fun s => s) (fun _ => false).

Example stale_input_passes :
  let opts := mkGateOpts Time.Second Time.Second 1 (3 * Time.Second) Time.Minute true true false in
  match fst (ObserveGate 9 (newClassifier typing_world ClaudePaneProfile) "%1" opts typing_world []) with
  | Some (out, None) => g_State out = PAwaitingOperator /\ g_InputContent out = "half a thought" /\
      3 * Time.Second <= match g_Reason out with G_stale d => d | _ => 0 end /\ g_Iterations out = 4
  | _ => False
  end.
Proof. vm_compute. by split_and!. Qed.
