(* ===== verification/Deliver.v ===== *)
(** * Delivering a message (internal/tmuxio/deliver.go)

    Paste, submit, and watch the pane until the message is seen to be submitted:
    the pre-paste race check, the settle, the verify loop with its resubmits and
    its load-adaptive ceiling.  The package variables are the [DeliverCfg]. *)

From S2P Require Import Prelude GoStd TmuxIO PaneState ObserveGate.

Open Scope Z_scope.
Open Scope tell_scope.

Record DeliverCfg : Type := mkDeliverCfg {
  activeProfile : PaneProfile;
  settleDelay : Z;
  retryDelays : list Z;
  postCompactExtraAttempts : nat
}.

Definition DefaultSettleDelay : Z := 500 * Time.Millisecond.
Definition DefaultRetryBudget : Z := 5 * Time.Second.

Definition defaultRetryDelays : list Z :=
  [100 * Time.Millisecond; 250 * Time.Millisecond; 500 * Time.Millisecond;
   1 * Time.Second; 1500 * Time.Millisecond; 1650 * Time.Millisecond].

Definition maxLoadAdaptiveExtraAttempts : nat := 6.

Definition default_cfg (p : PaneProfile) : DeliverCfg :=
  mkDeliverCfg p DefaultSettleDelay defaultRetryDelays 60.

(** The default schedule scaled to a budget (as a rational, truncated). *)
Definition DeriveRetrySchedule (budget0 : Z) : list Z :=
  let budget := if budget0 <=? 0 then DefaultRetryBudget else budget0 in
  map (fun d => Z.quot (d * budget) DefaultRetryBudget) defaultRetryDelays.

Definition MaxVerifySpan (cfg : DeliverCfg) : Z * Z :=
  match last (retryDelays cfg) with
  | None => (0, 0)
  | Some tail =>
      let base := foldr Z.add 0 (retryDelays cfg) in
      (base + Z.of_nat maxLoadAdaptiveExtraAttempts * tail,
       base + Z.of_nat (postCompactExtraAttempts cfg) * tail)
  end.

Record DeliverParams : Type := mkDeliverParams {
  dp_Pane : string;
  dp_Body : string;
  dp_VerifyToken : string;
  dp_OnVerify : bool;
  dp_PrePasteRaceCheckDisabled : bool;
  dp_PostCompactSettle : bool;
  dp_Ping : bool
}.

Definition ErrUnverifiedDelivery : error := ErrMsg "tmuxio: delivery unverified".
Definition ErrInputRaced : error := ErrMsg "tmuxio: operator input raced the paste".
Definition ErrPriorPasteStuck : error :=
  ErrMsg "tmuxio: prior collapsed paste still unsubmitted in input".
Definition ErrDeliveredExternally : error :=
  ErrMsg "tmuxio: delivery submitted externally, not by the mailman".

(** ** Predicates on a capture *)

Definition nl2 : string := nl_str +:+ nl_str.

Definition normalizeCollapsePaste (content0 : string) : string :=
  let content := Str.TrimRight content0 [nl_str] in
  match Str.LastIndex content nl2 with
  | None => content
  | Some i =>
      let tail := Str.drop (i + 2) content in
      if negb (str_empty tail) && negb (Str.Contains tail nl_str)
      then Str.take i content +:+ nl_str +:+ tail
      else content
  end.

Definition pasteUnsubmitted (p : PaneProfile) (capture verifyToken : string) : bool :=
  negb (str_empty (pp_PasteEvidenceMarker p)) &&
  (liveInputContains p capture (pp_PasteEvidenceMarker p) ||
   liveInputContains p capture verifyToken).

Definition deliverySubmitted (p : PaneProfile) (capture : string) (cursor : result (Z * Z))
    (verifyToken : string) : bool :=
  if pasteUnsubmitted p capture verifyToken then false
  else
    let (cleared, anchored) := inputRowCleared p capture cursor in
    if anchored : bool then cleared else Str.Contains capture verifyToken.

Definition live_compacting (p : PaneProfile) (capture : string) : bool :=
  negb (str_empty (pp_CompactionMarker p)) &&
  capturedLiveCompaction capture (pp_CompactionMarker p).

(** ** The race check before the paste *)

(** [Some e] stops the delivery before anything is pasted. *)
Definition pre_paste (p : PaneProfile) (pane : string) : T (option error) :=
  r <~ tmuxRun None (cmd_capture pane) ;;
  match r with
  | (_, Some _) => ret None
  | (pre, None) =>
      if pasteStillInInput p pre then
        d <~ tmux_do "tmuxio: send-keys Enter (pre-paste drain)" None (cmd_enter pane) ;;
        ret (match d with Err e => Some e | Ok _ => Some ErrPriorPasteStuck end)
      else
        cursor <~ agentCursor pane ;;
        let (cleared, anchored) := inputRowCleared p pre cursor in
        ret (if anchored && negb cleared then Some ErrInputRaced else None)
  end.

(** ** The verify loop *)

Record verify_vars : Type := mkVerify {
  vv_lastCapture : string;
  vv_firedAnyResubmit : bool;
  vv_sawStuckPasteWhileSettling : bool;
  vv_sawPastePresent : bool;
  vv_polls : Z
}.

(** One poll: return the delivery's result, leave the loop, or go round again. *)
Inductive verify_step : Type :=
  | VReturn (r : result unit)
  | VBreak (v : verify_vars)
  | VNext (v : verify_vars).

(** The sleep before attempt [attempt]; [None] when the schedule is empty. *)
Definition retry_delay (cfg : DeliverCfg) (attempt : nat) : option Z :=
  let n := length (retryDelays cfg) in
  let idx := (attempt - 1)%nat in
  if (n <=? idx)%nat then last (retryDelays cfg) else retryDelays cfg !! idx.

Definition verify_success (dp : DeliverParams) (started : Z) (v : verify_vars) : T verify_step :=
  _ <~ (if dp_OnVerify dp then now <~ time_Now ;; emit (EvVerify (now - started) true)
        else ret tt) ;;
  ret (VReturn (if dp_PostCompactSettle dp && vv_sawStuckPasteWhileSettling v &&
                   negb (vv_firedAnyResubmit v)
                then Err ErrDeliveredExternally else Ok tt)).

(** From the capture of this attempt on. *)
Definition verify_judge (cfg : DeliverCfg) (dp : DeliverParams) (started : Z) (attempt : nat)
    (v : verify_vars) (lastCapture : string) (cursor : result (Z * Z)) : T verify_step :=
  let p := activeProfile cfg in
  let prevCapture := vv_lastCapture v in
  let anchored := snd (inputRowCleared p lastCapture cursor) in
  if deliverySubmitted p lastCapture cursor (dp_VerifyToken dp) &&
     negb (live_compacting p lastCapture) &&
     (negb (dp_PostCompactSettle dp) || negb anchored || vv_sawPastePresent v)
  then verify_success dp started v
  else
    let pastePresent := pasteUnsubmitted p lastCapture (dp_VerifyToken dp) in
    let frameChanging := (attempt =? 0)%nat || negb (bool_decide (lastCapture = prevCapture)) in
    let stuck := vv_sawStuckPasteWhileSettling v ||
      (pastePresent && (1 <=? attempt)%nat && negb (str_empty prevCapture) &&
       negb (bool_decide (lastCapture = prevCapture))) in
    let resubmit := pastePresent && negb frameChanging in
    d <~ (if resubmit
          then tmux_do "tmuxio: send-keys Enter (resubmit)" None (cmd_enter (dp_Pane dp))
          else ret (Ok tt)) ;;
    ret (match d with
         | Err e => VReturn (Err e)
         | Ok _ =>
             let v' := mkVerify lastCapture (vv_firedAnyResubmit v || resubmit) stuck
                         (vv_sawPastePresent v || pastePresent) (vv_polls v + 1) in
             let progressing := (pastePresent && frameChanging) || resubmit in
             if (length (retryDelays cfg) <=? attempt)%nat && negb progressing
             then VBreak v' else VNext v'
         end).

(** Sleep, capture, ping, read the cursor, judge. *)
Definition verify_attempt (cfg : DeliverCfg) (dp : DeliverParams) (started : Z) (attempt : nat)
    (v : verify_vars) : T verify_step :=
  slept <~ (match attempt with
            | O => ret (Ok true)
            | S _ => match retry_delay cfg attempt with
                     | None => ret (Ok false)
                     | Some d => c <~ wait d ;;
                                 ret (match c with Some e => Err e | None => Ok true end)
                     end
            end) ;;
  match slept with
  | Err e => ret (VReturn (Err e))
  | Ok false => ret (VBreak v)
  | Ok true =>
      r <~ tmuxRun None (cmd_capture (dp_Pane dp)) ;;
      match r with
      | (_, Some e) => ret (VReturn (Err (wrap_err "tmuxio: capture-pane" e)))
      | (lastCapture, None) =>
          _ <~ emit_if (dp_Ping dp) EvPing ;;
          cursor <~ agentCursor (dp_Pane dp) ;;
          verify_judge cfg dp started attempt v lastCapture cursor
      end
  end.

(** The loop over [attempt = ceiling + 1 - n, ..., ceiling]. *)
Fixpoint verify_loop (n attempt : nat) (cfg : DeliverCfg) (dp : DeliverParams) (started : Z)
    (v : verify_vars) : T (result unit + verify_vars) :=
  match n with
  | O => ret (inr v)
  | S n' =>
      s <~ verify_attempt cfg dp started attempt v ;;
      match s with
      | VReturn r => ret (inl r)
      | VBreak v' => ret (inr v')
      | VNext v' => verify_loop n' (S attempt) cfg dp started v'
      end
  end.

(** The last nudge and the unverified verdict. *)
Definition verify_give_up (cfg : DeliverCfg) (dp : DeliverParams) (started : Z) (v : verify_vars)
    : T (result unit) :=
  _ <~ (if pasteUnsubmitted (activeProfile cfg) (vv_lastCapture v) (dp_VerifyToken dp) &&
           negb (vv_firedAnyResubmit v)
        then _ <~ tmuxRun None (cmd_enter (dp_Pane dp)) ;; ret tt else ret tt) ;;
  _ <~ (if dp_OnVerify dp then now <~ time_Now ;; emit (EvVerify (now - started) false)
        else ret tt) ;;
  ret (Err (ErrWrap ("tmuxio: delivery unverified: input not cleared and token not surfaced after "
                       +:+ Str.itoa (vv_polls v) +:+ " attempts") ErrUnverifiedDelivery)).

Definition verify_ceiling (cfg : DeliverCfg) (dp : DeliverParams) : nat :=
  (length (retryDelays cfg) +
   (if dp_PostCompactSettle dp then postCompactExtraAttempts cfg
    else maxLoadAdaptiveExtraAttempts))%nat.

Definition verify (cfg : DeliverCfg) (dp : DeliverParams) : T (result unit) :=
  started <~ time_Now ;;
  r <~ verify_loop (S (verify_ceiling cfg dp)) 0 cfg dp started
         (mkVerify EmptyString false false false 0) ;;
  match r with
  | inl res => ret res
  | inr v => verify_give_up cfg dp started v
  end.

(** Paste, settle, submit. *)
Definition paste_and_submit (cfg : DeliverCfg) (dp : DeliverParams) (body : string)
    : T (result unit) :=
  r <~ pasteChunk (dp_Pane dp) body ;;
  match r with
  | Err e => ret (Err e)
  | Ok _ =>
      c <~ (if 0 <? settleDelay cfg then wait (settleDelay cfg) else ret None) ;;
      match c with
      | Some e => ret (Err e)
      | None => tmux_do "tmuxio: send-keys Enter" None (cmd_enter (dp_Pane dp))
      end
  end.

Definition delivered_body (cfg : DeliverCfg) (dp : DeliverParams) : string :=
  if negb (str_empty (pp_PasteCollapseMarker (activeProfile cfg)))
  then normalizeCollapsePaste (dp_Body dp) else dp_Body dp.

Definition Deliver (cfg : DeliverCfg) (dp : DeliverParams) : T (result unit) :=
  if str_empty (dp_Pane dp) then ret (Err pane_required)
  else if str_empty (dp_Body dp) then ret (Err (ErrMsg "tmuxio: body required"))
  else
    raced <~ (if negb (str_empty (dp_VerifyToken dp)) && negb (dp_PrePasteRaceCheckDisabled dp)
              then pre_paste (activeProfile cfg) (dp_Pane dp) else ret None) ;;
    match raced with
    | Some e => ret (Err e)
    | None =>
        r <~ paste_and_submit cfg dp (delivered_body cfg dp) ;;
        match r with
        | Err e => ret (Err e)
        | Ok _ => if str_empty (dp_VerifyToken dp) then ret (Ok tt) else verify cfg dp
        end
    end.
