(* ===== verification/DeliverProps.v ===== *)
(** * Correctness of delivery

    What a delivery types into a pane: one paste at most, no paste after a lost race,
    Enter only to submit its own paste or one it can see, and success only on
    evidence. *)

From S2P Require Import Prelude GoStd TmuxIO PaneState ObserveGate Deliver.

Open Scope Z_scope.

(** ** Pastes *)

Definition is_paste (ev : event) : bool :=
  match ev with
  | EvRun _ (c :: _) => bool_decide (c = "paste-buffer") || bool_decide (c = "load-buffer")
  | _ => false
  end.

Definition no_paste (ev : event) : Prop := is_paste ev = false.

(** Adding only events that are not pastes. *)
Lemma np_tmux_do what stdin args :
  no_paste (EvRun stdin args) -> does no_paste (tmux_do what stdin args).
Proof. intros H. apply does_bind; [by apply does_run|intros [out [e|]]; apply does_ret]. Qed.

Lemma np_cursor pane : does no_paste (agentCursor pane).
Proof. apply does_bind; [by apply does_run|intros [out [e|]]; apply does_ret]. Qed.

Lemma np_pre_paste p pane : does no_paste (pre_paste p pane).
Proof.
  apply does_bind; [by apply does_run|intros [pre [e|]]]; [apply does_ret|]. apply does_if.
  - apply does_bind; [by apply np_tmux_do|intros d; apply does_ret].
  - apply does_bind; [apply np_cursor|intros cursor].
    destruct (inputRowCleared p pre cursor). apply does_ret.
Qed.

Lemma np_judge cfg dp started attempt v cap cursor :
  does no_paste (verify_judge cfg dp started attempt v cap cursor).
Proof.
  unfold verify_judge. cbv zeta. apply does_if.
  - unfold verify_success. apply does_bind; [|intros _; apply does_ret]. apply does_if; [|apply does_ret].
    apply does_bind; [by apply does_now|intros now; by apply does_emit].
  - apply does_bind; [|intros d; destruct d; apply does_ret].
    apply does_if; [by apply np_tmux_do|apply does_ret].
Qed.

Lemma np_attempt cfg dp started attempt v : does no_paste (verify_attempt cfg dp started attempt v).
Proof.
  unfold verify_attempt. apply does_bind.
  - destruct attempt; [apply does_ret|]. destruct (retry_delay cfg _); [|apply does_ret].
    apply does_bind; [by apply does_wait|intros c; apply does_ret].
  - intros [[|]|e]; [|apply does_ret|apply does_ret].
    apply does_bind; [by apply does_run|intros [cap [e|]]]; [apply does_ret|].
    apply does_bind; [destruct (dp_Ping dp); [by apply does_emit|apply does_ret]|intros _].
    apply does_bind; [apply np_cursor|intros cursor]. apply np_judge.
Qed.

Lemma np_loop n attempt cfg dp started v : does no_paste (verify_loop n attempt cfg dp started v).
Proof.
  revert attempt v. induction n as [|n IH]; intros attempt v; simpl; [apply does_ret|].
  apply does_bind; [apply np_attempt|intros []]; [apply does_ret|apply does_ret|apply IH].
Qed.

Lemma np_verify cfg dp : does no_paste (verify cfg dp).
Proof.
  apply does_bind; [by apply does_now|intros started].
  apply does_bind; [apply np_loop|intros [r|v]]; [apply does_ret|].
  unfold verify_give_up. apply does_bind.
  { apply does_if; [|apply does_ret].
    apply does_bind; [by apply does_run|intros x; apply does_ret]. }
  intros _. apply does_bind; [|intros _; apply does_ret]. apply does_if; [|apply does_ret].
  apply does_bind; [by apply does_now|intros now; by apply does_emit].
Qed.

(** The paste of [body] in its buffer: load, then paste. *)
Definition paste_of (pane body buf : string) : list event :=
  [EvRun None (cmd_paste buf pane); EvRun (Some body) (cmd_load buf)].

(** [new] holds at most the paste of [body], and exactly it when [done]. *)
Definition pastes_body (pane body : string) (done : Prop) (new : list event) : Prop :=
  exists buf, List.filter is_paste new `suffix_of` paste_of pane body buf /\
    (done -> List.filter is_paste new = paste_of pane body buf).

Lemma np_filter new : Forall no_paste new -> List.filter is_paste new = [].
Proof. induction 1 as [|ev new H _ IH]; [done|]. simpl. by rewrite H. Qed.

Lemma pasteChunk_pastes pane body w h :
  let (r, h') := pasteChunk pane body w h in
  exists new, h' = new ++ h /\ pastes_body pane body (r = Ok tt) new.
Proof.
  unfold pasteChunk, bind, tmux_do, tmuxRun, ret. set (buf := w_buffer_name w h).
  unfold bind, tmuxRun, ret.
  destruct (w_tmux w (EvRun (Some body) (cmd_load buf) :: h)) as [o1 [e|]].
  { cbv beta iota. exists [EvRun (Some body) (cmd_load buf)]. split; [done|]. exists buf.
    split; [|done]. exists [EvRun None (cmd_paste buf pane)]. done. }
  destruct (w_tmux w (EvRun None (cmd_paste buf pane) :: _)) as [o2 [e|]].
  - unfold bind, tmuxRun, ret. cbv beta iota.
    destruct (w_tmux w (EvRun None ["delete-buffer"; "-b"; buf] :: _)) as [o3 e3].
    exists [EvRun None ["delete-buffer"; "-b"; buf]; EvRun None (cmd_paste buf pane);
      EvRun (Some body) (cmd_load buf)]. split; [done|]. exists buf. split; [|done]. by exists [].
  - exists [EvRun None (cmd_paste buf pane); EvRun (Some body) (cmd_load buf)].
    split; [done|]. exists buf. split; [by exists []|done].
Qed.

Lemma pastes_more pane body (P Q : Prop) new1 new2 :
  Forall no_paste new2 -> (Q -> P) -> pastes_body pane body P new1 ->
  pastes_body pane body Q (new2 ++ new1).
Proof.
  intros Hn HQ (buf & Hs & Hd). exists buf. rewrite List.filter_app, np_filter by done.
  simpl. auto.
Qed.

Lemma pastes_before pane body P new1 new2 :
  Forall no_paste new2 -> pastes_body pane body P new1 -> pastes_body pane body P (new1 ++ new2).
Proof.
  intros Hn (buf & Hs & Hd). exists buf. by rewrite List.filter_app, (np_filter new2), app_nil_r.
Qed.

(** The errors that mean nothing was pasted. *)
Definition race_abort (r : result unit) : Prop :=
  r = Err ErrInputRaced \/ r = Err ErrPriorPasteStuck.

(** The results of a delivery that pasted and submitted. *)
Definition submitted (r : result unit) : Prop :=
  r = Ok tt \/ r = Err ErrDeliveredExternally \/
  exists e, r = Err e /\ errors_Is e ErrUnverifiedDelivery = true.

Definition not_race (r : result unit) : Prop := ~ race_abort r.

Lemma nr_tmux_do what stdin args : yields not_race (tmux_do what stdin args).
Proof. apply yields_bind. intros [out [e|]]; apply yields_ret; by intros [|]. Qed.

Lemma nr_context e : not_race (Err (context_error e)).
Proof. by destruct e; intros [|]. Qed.

(** A wait reports nothing but the context's errors. *)
Lemma wait_results d : yields (fun c => c = None \/ exists e, c = Some (context_error e)) (wait d).
Proof.
  intros w h. unfold wait, bind, emit, ctx_Err. simpl.
  destruct (w_ctx w (EvSleep d :: h)); eauto.
Qed.

Lemma nr_pasteChunk pane body : yields not_race (pasteChunk pane body).
Proof.
  apply yields_bind; intros buf. eapply yields_bind'; [apply nr_tmux_do|].
  intros [u|e] Hr; [|by apply yields_ret].
  apply yields_bind; intros [out [e|]]; [apply yields_bind; intros x|]; apply yields_ret; by intros [|].
Qed.

Lemma nr_paste_and_submit cfg dp body : yields not_race (paste_and_submit cfg dp body).
Proof.
  eapply yields_bind'; [apply nr_pasteChunk|]. intros [u|e] Hr; [|by apply yields_ret].
  eapply (yields_bind' (fun c => c = None \/ exists e, c = Some (context_error e))).
  - case_match; [apply wait_results|apply yields_ret; by left].
  - intros c [->|[e ->]]; [apply nr_tmux_do|]. apply yields_ret, nr_context.
Qed.

Definition nr_step (s : verify_step) : Prop :=
  match s with VReturn r => not_race r | _ => True end.

Lemma nr_judge cfg dp started attempt v cap cursor :
  yields nr_step (verify_judge cfg dp started attempt v cap cursor).
Proof.
  unfold verify_judge. cbv zeta. case_match.
  - apply yields_bind; intros u. apply yields_ret. simpl. case_match; by intros [|].
  - eapply (yields_bind' not_race).
    + case_match; [apply nr_tmux_do|apply yields_ret; by intros [|]].
    + intros [u|e] Hr; apply yields_ret; [by case_match|done].
Qed.

Lemma nr_attempt cfg dp started attempt v :
  yields nr_step (verify_attempt cfg dp started attempt v).
Proof.
  unfold verify_attempt.
  eapply (yields_bind' (fun r => match r with Err e => not_race (Err e) | Ok _ => True end)).
  - destruct attempt; [by apply yields_ret|]. destruct (retry_delay cfg _); [|by apply yields_ret].
    eapply yields_bind'; [apply wait_results|]. intros c [->|[e ->]]; [by apply yields_ret|].
    apply yields_ret, nr_context.
  - intros [[|]|e] Hr; [|by apply yields_ret|by apply yields_ret].
    apply yields_bind; intros [cap [e|]]; [apply yields_ret; by intros [|]|].
    do 2 (apply yields_bind; intros ?). apply nr_judge.
Qed.

Lemma nr_loop n attempt cfg dp started v :
  yields (fun r => match r with inl res => not_race res | inr _ => True end)
    (verify_loop n attempt cfg dp started v).
Proof.
  revert attempt v. induction n as [|n IH]; intros attempt v; simpl; [by apply yields_ret|].
  eapply yields_bind'; [apply nr_attempt|]. intros [r|v'|v'] Hr; [by apply yields_ret..|apply IH].
Qed.

Lemma nr_verify cfg dp : yields not_race (verify cfg dp).
Proof.
  apply yields_bind; intros started. eapply yields_bind'; [apply nr_loop|].
  intros [r|v] Hr; [by apply yields_ret|]. unfold verify_give_up.
  do 2 (apply yields_bind; intros ?). apply yields_ret. by intros [|].
Qed.

(** After the paste went through, nothing else is pasted. *)
Lemma paste_and_submit_pastes cfg dp body w h :
  let (r, h') := paste_and_submit cfg dp body w h in
  exists new, h' = new ++ h /\ pastes_body (dp_Pane dp) body (r = Ok tt) new.
Proof.
  unfold paste_and_submit, bind at 1.
  pose proof (pasteChunk_pastes (dp_Pane dp) body w h) as Hp.
  destruct (pasteChunk (dp_Pane dp) body w h) as [[u|e] h1]; destruct Hp as (new1 & -> & Hp).
  - assert (Hd : does no_paste
      (c <~ (if 0 <? settleDelay cfg then wait (settleDelay cfg) else ret None) ;;
       match c with
       | Some e => ret (Err e)
       | None => tmux_do "tmuxio: send-keys Enter" None (cmd_enter (dp_Pane dp))
       end)%tell).
    { apply does_bind; [apply does_if; [by apply does_wait|apply does_ret]|].
      intros [e|]; [apply does_ret|by apply np_tmux_do]. }
    specialize (Hd w (new1 ++ h)). destruct (bind _ _ w _) as [r h2]. simpl in Hd.
    destruct Hd as (new2 & -> & Hn). exists (new2 ++ new1). rewrite app_assoc. split; [done|].
    eapply pastes_more; [done| |exact Hp]. intros _. by destruct u.
  - simpl. exists new1. split; [done|]. destruct Hp as (buf & ? & ?). exists buf. by split.
Qed.

Lemma not_submitted_msg msg :
  ErrMsg msg <> ErrUnverifiedDelivery -> ErrMsg msg <> ErrDeliveredExternally ->
  ~ submitted (Err (ErrMsg msg)).
Proof.
  intros H1 H2 [?|[[= E]|(e & [= <-] & H)]]; [done| |].
  - apply H2. unfold ErrDeliveredExternally. by rewrite E.
  - simpl in H. rewrite orb_false_r in H. by bsimp.
Qed.

(** Two sentinels with different texts. *)
Ltac err_neq := let E := fresh in intros E; vm_compute in E; discriminate E.

(** Only a failed subprocess is wrapped. *)
Lemma not_submitted_exec what out msg : ~ submitted (Err (wrap_out what (ExecError msg) out)).
Proof. intros [?|[?|(e & [= <-] & H)]]; done. Qed.

Lemma tmux_do_not_submitted what stdin args :
  yields (fun r => match r with Err e => ~ submitted (Err e) | Ok _ => True end)
    (tmux_do what stdin args).
Proof.
  intros w h. unfold tmux_do, bind, tmuxRun, ret. destruct (w_tmux w _) as [out [msg|]]; simpl; [|done].
  apply not_submitted_exec.
Qed.

Lemma pre_paste_results p pane :
  yields (fun o => match o with Some e => ~ submitted (Err e) | None => True end) (pre_paste p pane).
Proof.
  assert (H1 : ~ submitted (Err ErrPriorPasteStuck)) by (apply not_submitted_msg; err_neq).
  assert (H2 : ~ submitted (Err ErrInputRaced)) by (apply not_submitted_msg; err_neq).
  apply yields_bind; intros [pre [e|]]; [by apply yields_ret|]. case_match.
  - eapply yields_bind'; [apply tmux_do_not_submitted|]. intros [u|e] Hr; by apply yields_ret.
  - apply yields_bind; intros cursor. destruct (inputRowCleared p pre cursor) as [cl an].
    apply yields_ret. destruct (an && negb cl); [exact H2|done].
Qed.

Lemma paste_not_submitted cfg dp body :
  yields (fun r => match r with Err e => ~ submitted (Err e) | Ok _ => True end)
    (paste_and_submit cfg dp body).
Proof.
  unfold paste_and_submit.
  eapply (yields_bind' (fun r => match r with Err e => ~ submitted (Err e) | Ok _ => True end)).
  - apply yields_bind; intros buf. eapply yields_bind'; [apply tmux_do_not_submitted|].
    intros [u|e] Hr; [|by apply yields_ret].
    intros w h. unfold bind, tmuxRun, ret. destruct (w_tmux w _) as [out [msg|]]; simpl; [|done].
    unfold bind, tmuxRun, ret. destruct (w_tmux w _). apply not_submitted_exec.
  - intros [u|e] Hr; [|by apply yields_ret].
    eapply (yields_bind' (fun c => c = None \/ exists e, c = Some (context_error e))).
    + case_match; [apply wait_results|apply yields_ret; by left].
    + intros c [->|[e ->]]; [apply tmux_do_not_submitted|].
      apply yields_ret. destruct e; apply not_submitted_msg; err_neq.
Qed.

(** C39: one paste, and none after a lost race.  A delivery loads and pastes the body
    (its line structure normalised for a collapsing composer) at most once and
    pastes nothing else, for every behaviour of tmux; it pasted exactly once when
    it reports success, an external submission or an unverified delivery; and when
    it reports that the operator raced it or that a prior paste is stuck, it
    pasted nothing at all, so the message can be retried without duplication. *)
Theorem Deliver_pastes_once cfg dp w h :
  let (r, h') := Deliver cfg dp w h in
  exists new, h' = new ++ h /\
    pastes_body (dp_Pane dp) (delivered_body cfg dp) (submitted r) new /\
    (race_abort r -> List.filter is_paste new = []).
Proof.
  assert (Hnone : forall r new, ~ submitted r -> Forall no_paste new ->
    pastes_body (dp_Pane dp) (delivered_body cfg dp) (submitted r) new /\
    (race_abort r -> List.filter is_paste new = [])).
  { intros r new Hr Hn. rewrite (np_filter new Hn). split; [|done]. exists EmptyString.
    rewrite (np_filter new Hn). split; [apply suffix_nil|done]. }
  unfold Deliver. case_bool_decide.
  { exists []. split; [done|]. apply Hnone; [|by apply Forall_nil]. apply not_submitted_msg; err_neq. }
  case_bool_decide.
  { exists []. split; [done|]. apply Hnone; [|by apply Forall_nil]. apply not_submitted_msg; err_neq. }
  set (pre := if negb _ && negb _ then _ else _).
  assert (Hpre : does no_paste pre) by (apply does_if; [apply np_pre_paste|apply does_ret]).
  assert (Hres : yields (fun o => match o with Some e => ~ submitted (Err e) | None => True end) pre).
  { unfold pre. case_match; [apply pre_paste_results|by apply yields_ret]. }
  clearbody pre. unfold bind at 1. specialize (Hpre w h). specialize (Hres w h).
  destruct (pre w h) as [[e|] h1]; simpl in Hpre, Hres; destruct Hpre as (new0 & -> & Hn0).
  { exists new0. split; [done|]. by apply Hnone. }
  unfold bind at 1. pose proof (paste_and_submit_pastes cfg dp (delivered_body cfg dp) w (new0 ++ h)) as Hp.
  pose proof (nr_paste_and_submit cfg dp (delivered_body cfg dp) w (new0 ++ h)) as Hnr.
  pose proof (paste_not_submitted cfg dp (delivered_body cfg dp) w (new0 ++ h)) as Hns.
  destruct (paste_and_submit cfg dp (delivered_body cfg dp) w (new0 ++ h)) as [[u|e] h2];
    simpl in Hnr, Hns; destruct Hp as (new1 & -> & Hp).
  - assert (Hv : does no_paste (if str_empty (dp_VerifyToken dp) then ret (Ok tt) else verify cfg dp))
      by (apply does_if; [apply does_ret|apply np_verify]).
    assert (Hvr : yields not_race (if str_empty (dp_VerifyToken dp) then ret (Ok tt) else verify cfg dp))
      by (case_match; [apply yields_ret; by intros [|]|apply nr_verify]).
    specialize (Hv w (new1 ++ new0 ++ h)). specialize (Hvr w (new1 ++ new0 ++ h)).
    destruct (_ w (new1 ++ new0 ++ h)) as [r h3]. simpl in Hv, Hvr. destruct Hv as (new2 & -> & Hn2).
    exists (new2 ++ new1 ++ new0). rewrite <- !app_assoc. split; [done|]. split; [|done].
    eapply pastes_more; [done| |by apply pastes_before]. intros _. by destruct u.
  - exists (new1 ++ new0). rewrite <- app_assoc. split; [done|]. split; [|done].
    apply pastes_before; [done|]. destruct Hp as (buf & ? & ?). exists buf. by split.
Qed.

(** ** Evidence *)

(** The output of the last capture of the pane, when it succeeded. *)
Fixpoint last_capture (w : World) (pane : string) (h : history) : option string :=
  match h with
  | [] => None
  | ev :: h' =>
      if bool_decide (ev = EvRun None (cmd_capture pane))
      then match w_tmux w h with (out, None) => Some out | (_, Some _) => None end
      else last_capture w pane h'
  end.

(** [h'] extends [h] by events that satisfied [P] when they happened. *)
Inductive grows (P : event -> history -> Prop) (h : history) : history -> Prop :=
  | grows_refl : grows P h h
  | grows_ev ev h' : grows P h h' -> P ev h' -> grows P h (ev :: h').

Lemma grows_trans P h1 h2 h3 : grows P h1 h2 -> grows P h2 h3 -> grows P h1 h3.
Proof. intros H1 H2. induction H2; [done|]. by apply grows_ev. Qed.

(** Split the first [if] of the goal. *)
Ltac split_if := match goal with |- context [if ?b then _ else _] => destruct b end.

Section Evidence.
Context (cfg : DeliverCfg) (dp : DeliverParams) (w : World).

Notation pane := (dp_Pane dp).
Notation p := (activeProfile cfg).
Notation token := (dp_VerifyToken dp).

(** A resubmitting Enter is pressed only while the last capture shows a paste
    sitting unsubmitted in the composer. *)
Definition justified (ev : event) (h : history) : Prop :=
  ev = EvRun None (cmd_enter pane) ->
  exists cap, last_capture w pane h = Some cap /\ pasteUnsubmitted p cap token = true.

(** The pane was seen with the message submitted. *)
Definition seen_submitted (h : history) : Prop :=
  exists cap cursor, last_capture w pane h = Some cap /\
    deliverySubmitted p cap cursor token = true /\ live_compacting p cap = false.

(** The loop's memory of the last capture is right (or there was none yet). *)
Definition remembers (v : verify_vars) (h : history) : Prop :=
  vv_lastCapture v = EmptyString \/ last_capture w pane h = Some (vv_lastCapture v).

Lemma last_capture_other ev h :
  ev <> EvRun None (cmd_capture pane) -> last_capture w pane (ev :: h) = last_capture w pane h.
Proof. intros H. simpl. by rewrite bool_decide_false. Qed.

Lemma no_evidence_in_nothing : pasteUnsubmitted p EmptyString token = false.
Proof.
  assert (H : forall needle, liveInputContains p EmptyString needle = false).
  { intros needle. unfold liveInputContains. case_bool_decide as Hs; [done|].
    case_bool_decide; [done|]. simpl. destruct (pp_PromptSentinel p); done. }
  unfold pasteUnsubmitted. rewrite !H. by rewrite andb_false_r.
Qed.

Lemma calm ev h : ev <> EvRun None (cmd_enter pane) -> justified ev h.
Proof. intros H E. done. Qed.

Definition good_step (h : history) (s : verify_step) (h' : history) : Prop :=
  grows justified h h' /\
  match s with
  | VReturn (Ok _) => seen_submitted h'
  | VReturn (Err _) => True
  | VBreak v | VNext v => remembers v h'
  end.

Lemma judge_good started attempt v cap cursor h :
  last_capture w pane h = Some cap ->
  let (s, h') := verify_judge cfg dp started attempt v cap cursor w h in good_step h s h'.
Proof.
  intros Hcap. unfold verify_judge. cbv zeta.
  destruct (deliverySubmitted p cap cursor token && _ && _) eqn:E.
  - bsimp. assert (Hs : forall h', last_capture w pane h' = Some cap -> seen_submitted h')
      by (intros h' Hh; exists cap, cursor; done).
    unfold verify_success. destruct (dp_OnVerify dp).
    + unfold bind, time_Now, emit, ret. split.
      * apply grows_ev; [apply grows_ev; [apply grows_refl|]|]; apply calm; done.
      * split_if; [|done]. apply Hs. by rewrite !last_capture_other.
    + unfold bind, ret. split; [apply grows_refl|]. split_if; [|done]. by apply Hs.
  - clear E. destruct (pasteUnsubmitted p cap token && negb _) eqn:Er; unfold bind at 1.
    + unfold tmux_do, bind, tmuxRun, ret.
      assert (Hg : grows justified h (EvRun None (cmd_enter pane) :: h)).
      { apply grows_ev; [apply grows_refl|]. intros _. exists cap. bsimp. done. }
      destruct (w_tmux w (EvRun None (cmd_enter pane) :: h)) as [out [e|]]; [by split|].
      cbv beta iota. split; [done|]. split_if; right; simpl vv_lastCapture;
        by rewrite last_capture_other.
    + unfold ret. split; [apply grows_refl|]. split_if; by right.
Qed.

Lemma attempt_good started attempt v h :
  remembers v h ->
  let (s, h') := verify_attempt cfg dp started attempt v w h in good_step h s h'.
Proof.
  intros Hv. unfold verify_attempt, bind at 1.
  set (sl := match attempt with O => _ | S _ => _ end).
  assert (Hsl : let (r, h1) := sl w h in grows justified h h1 /\ remembers v h1 ).
  { unfold sl. destruct attempt; [split; [apply grows_refl|done]|].
    destruct (retry_delay cfg _) as [d|]; [|split; [apply grows_refl|done]].
    unfold wait, bind, emit, ctx_Err, ret. split.
    - apply grows_ev; [apply grows_refl|by apply calm].
    - destruct Hv as [?|?]; [by left|right]. by rewrite last_capture_other. }
  clearbody sl. destruct (sl w h) as [[[|]|e] h1]; destruct Hsl as [Hg Hv1]; [|by split..].
  unfold bind at 1, tmuxRun.
  assert (Hg2 : grows justified h (EvRun None (cmd_capture pane) :: h1))
    by (apply grows_ev; [done|by apply calm]).
  destruct (w_tmux w (EvRun None (cmd_capture pane) :: h1)) as [cap [e|]] eqn:Et; [by split|].
  assert (Hc : last_capture w pane (EvRun None (cmd_capture pane) :: h1) = Some cap)
    by (simpl; by rewrite bool_decide_true, Et).
  revert Hg2 Hc. generalize (EvRun None (cmd_capture pane) :: h1). intros h2 Hg2 Hc.
  cbv beta iota. unfold bind at 1.
  assert (Hp : let (u, h3) := emit_if (dp_Ping dp) EvPing w h2 in
            grows justified h h3 /\ last_capture w pane h3 = Some cap).
  { unfold emit_if, emit, ret. destruct (dp_Ping dp); [|by split].
    rewrite last_capture_other by done. split; [apply grows_ev; [done|by apply calm]|done]. }
  destruct (emit_if (dp_Ping dp) EvPing w h2) as [u h3]. destruct Hp as [Hg3 Hc3].
  unfold bind at 1.
  assert (Hx : let (cur, h4) := agentCursor pane w h3 in
            grows justified h h4 /\ last_capture w pane h4 = Some cap).
  { unfold agentCursor, bind, tmuxRun, ret. cbv beta zeta.
    destruct (w_tmux w (EvRun None (cmd_cursor pane) :: h3)) as [o e]. cbv beta iota.
    rewrite last_capture_other by done. split; [apply grows_ev; [done|by apply calm]|done]. }
  destruct (agentCursor pane w h3) as [cursor h4]. destruct Hx as [Hg4 Hc4].
  pose proof (judge_good started attempt v cap cursor h4 Hc4) as Hj.
  destruct (verify_judge cfg dp started attempt v cap cursor w h4) as [s h5].
  destruct Hj as [Hg5 Hj]. split; [by eapply grows_trans|done].
Qed.

Lemma loop_good n attempt started v h :
  remembers v h ->
  let (r, h') := verify_loop n attempt cfg dp started v w h in
  grows justified h h' /\
  match r with
  | inl (Ok _) => seen_submitted h'
  | inl (Err _) => True
  | inr v' => remembers v' h'
  end.
Proof.
  revert attempt v h. induction n as [|n IH]; intros attempt v h Hv; simpl.
  - split; [apply grows_refl|done].
  - unfold bind. pose proof (attempt_good started attempt v h Hv) as Ha.
    destruct (verify_attempt cfg dp started attempt v w h) as [[r|v'|v'] h1];
      destruct Ha as [Hg Ha]; [by split..|].
    specialize (IH (S attempt) v' h1 Ha). destruct (verify_loop n _ _ _ _ _ w h1) as [r h2].
    destruct IH as [Hg2 ?]. split; [by eapply grows_trans|done].
Qed.

Lemma give_up_good started v h :
  remembers v h ->
  let (r, h') := verify_give_up cfg dp started v w h in
  grows justified h h' /\ exists e, r = Err e.
Proof.
  intros Hv. unfold verify_give_up. unfold bind at 1.
  set (nudge := if pasteUnsubmitted p (vv_lastCapture v) token && _ then _ else _).
  assert (Hn : let (u, h1) := nudge w h in grows justified h h1).
  { unfold nudge. destruct (pasteUnsubmitted p (vv_lastCapture v) token && _) eqn:E;
      [|apply grows_refl]. unfold bind, tmuxRun, ret. destruct (w_tmux w _).
    apply grows_ev; [apply grows_refl|]. intros _. bsimp.
    destruct Hv as [Hv|Hv]; [|eauto]. by rewrite Hv, no_evidence_in_nothing in *. }
  clearbody nudge. destruct (nudge w h) as [u h1]. unfold bind.
  destruct (dp_OnVerify dp); unfold time_Now, emit, ret.
  - split; [|eauto]. repeat (apply grows_ev; [|by apply calm]). done.
  - split; [done|eauto].
Qed.

Lemma verify_good h :
  let (r, h') := verify cfg dp w h in
  grows justified h h' /\ (r = Ok tt -> seen_submitted h').
Proof.
  unfold verify. unfold bind at 1, time_Now.
  assert (Hr : remembers (mkVerify EmptyString false false false 0) (EvNow :: h)) by (by left).
  unfold bind. pose proof (loop_good (S (verify_ceiling cfg dp)) 0 (w_clock w (EvNow :: h)) _ _ Hr) as Hl.
  assert (Hg0 : grows justified h (EvNow :: h)) by (apply grows_ev; [apply grows_refl|by apply calm]).
  destruct (verify_loop _ _ _ _ _ _ w (EvNow :: h)) as [[[u|e]|v] h1]; destruct Hl as [Hg Hl].
  - unfold ret. split; [by eapply grows_trans|done].
  - unfold ret. split; [by eapply grows_trans|done].
  - pose proof (give_up_good (w_clock w (EvNow :: h)) v h1 Hl) as Hu.
    destruct (verify_give_up cfg dp _ v w h1) as [r h2]. destruct Hu as [Hg2 [e ->]].
    split; [|done]. eapply grows_trans; [done|]. by eapply grows_trans.
Qed.
End Evidence.

(** ** How often the pane is captured *)

Definition is_capture (pane : string) (ev : event) : bool :=
  bool_decide (ev = EvRun None (cmd_capture pane)).

Definition captures (pane : string) (h : history) : nat := length (List.filter (is_capture pane) h).

Lemma captures_adds pane h h' :
  adds (fun ev => is_capture pane ev = false) h h' -> captures pane h' = captures pane h.
Proof.
  intros (new & -> & Hn). unfold captures. rewrite List.filter_app, length_app.
  induction Hn as [|ev new Hev _ IH]; [done|]. simpl. by rewrite Hev.
Qed.

Lemma does_captures {A} pane (c : T A) w h :
  does (fun ev => is_capture pane ev = false) c -> captures pane (snd (c w h)) = captures pane h.
Proof. intros Hc. by apply captures_adds. Qed.

Lemma attempt_captures cfg dp started attempt v w h :
  (captures (dp_Pane dp) (snd (verify_attempt cfg dp started attempt v w h))
     <= S (captures (dp_Pane dp) h))%nat.
Proof.
  unfold verify_attempt, bind at 1. set (sl := match attempt with O => _ | S _ => _ end).
  assert (Hsl : does (fun ev => is_capture (dp_Pane dp) ev = false) sl).
  { unfold sl. destruct attempt; [apply does_ret|].
    destruct (retry_delay cfg _); [|apply does_ret].
    apply does_bind; [by apply does_wait|intros c; apply does_ret]. }
  clearbody sl. pose proof (does_captures (dp_Pane dp) sl w h Hsl) as H1.
  destruct (sl w h) as [[[|]|e] h1]; simpl in H1; [|simpl; lia|simpl; lia].
  unfold bind at 1, tmuxRun. cbv beta zeta.
  destruct (w_tmux w (EvRun None (cmd_capture (dp_Pane dp)) :: h1)) as [cap [e|]].
  { unfold captures in *. simpl. case_match; simpl; lia. }
  cbv beta iota. match goal with |- (captures _ (snd (?c w ?h2)) <= _)%nat =>
    rewrite (does_captures (dp_Pane dp) c w h2) end.
  { unfold captures in *. simpl. case_match; simpl; lia. }
  apply does_bind; [destruct (dp_Ping dp); [by apply does_emit|apply does_ret]|intros _].
  apply does_bind; [apply does_bind; [by apply does_run|intros r; apply does_ret]|intros cursor].
  unfold verify_judge. cbv zeta. apply does_if.
  - apply does_bind; [|intros _; apply does_ret]. apply does_if; [|apply does_ret].
    apply does_bind; [by apply does_now|intros now; by apply does_emit].
  - apply does_bind; [|intros d; apply does_ret]. apply does_if; [|apply does_ret].
    apply does_bind; [apply does_run; by apply bool_decide_eq_false|intros r; apply does_ret].
Qed.

Lemma loop_captures n attempt cfg dp started v w h :
  (captures (dp_Pane dp) (snd (verify_loop n attempt cfg dp started v w h))
     <= n + captures (dp_Pane dp) h)%nat.
Proof.
  revert attempt v h. induction n as [|n IH]; intros attempt v h; simpl; [lia|]. unfold bind.
  pose proof (attempt_captures cfg dp started attempt v w h) as H1.
  destruct (verify_attempt cfg dp started attempt v w h) as [[r|v'|v'] h1]; simpl in *; [lia|lia|].
  specialize (IH (S attempt) v' h1). lia.
Qed.

Lemma verify_captures cfg dp w h :
  (captures (dp_Pane dp) (snd (verify cfg dp w h))
     <= S (verify_ceiling cfg dp) + captures (dp_Pane dp) h)%nat.
Proof.
  unfold verify. unfold bind at 1, time_Now. unfold bind.
  pose proof (loop_captures (S (verify_ceiling cfg dp)) 0 cfg dp (w_clock w (EvNow :: h))
    (mkVerify EmptyString false false false 0) w (EvNow :: h)) as H1.
  change (captures (dp_Pane dp) (EvNow :: h)) with (captures (dp_Pane dp) h) in H1.
  destruct (verify_loop _ _ _ _ _ _ w (EvNow :: h)) as [[r|v] h1]; simpl snd in H1; [exact H1|].
  rewrite (does_captures (dp_Pane dp) (verify_give_up cfg dp (w_clock w (EvNow :: h)) v)); [exact H1|].
  unfold verify_give_up. apply does_bind.
  { apply does_if; [|apply does_ret].
    apply does_bind; [apply does_run; by apply bool_decide_eq_false|intros x; apply does_ret]. }
  intros _. apply does_bind; [|intros _; apply does_ret]. apply does_if; [|apply does_ret].
  apply does_bind; [by apply does_now|intros now; by apply does_emit].
Qed.

(** Success is never assumed.  Once the message is pasted and submitted, the
    verify loop presses Enter again only while its last capture shows a paste
    still sitting in the composer, so it never submits text the operator is
    typing; it captures the pane at most once per attempt of its fixed ceiling;
    and it reports delivered only when its last capture shows the input cleared
    (or the token on screen) with no paste left and no compaction running. *)
Theorem verify_needs_evidence cfg dp w h :
  let (r, h') := verify cfg dp w h in
  grows (justified cfg dp w) h h' /\
  (captures (dp_Pane dp) h' <= captures (dp_Pane dp) h + S (verify_ceiling cfg dp))%nat /\
  (r = Ok tt -> seen_submitted cfg dp w h').
Proof.
  pose proof (verify_good cfg dp w h) as H1. pose proof (verify_captures cfg dp w h) as H2.
  destruct (verify cfg dp w h) as [r h']. simpl in H2. destruct H1 as [Hg Hs].
  split; [exact Hg|]. split; [lia|exact Hs].
Qed.
