(* ===== verification/Throttle.v ===== *)
(** * Pacing (internal/cli/fanoutthrottle.go, spinguard.go and the pure parts of serve.go)

    The decisions that say how long to wait: the stagger of a fan-out, the guard
    against a spinning loop, the retry backoffs, the wake delay after a rate limit
    and the state machine that resumes a rate-limited chamber.  Durations are int64
    nanoseconds and wrap where the code computes on them. *)

From S2P Require Import Prelude GoStd StoreTypes Priority Messages Agents TmuxIO PaneState.

Open Scope Z_scope.
Open Scope tell_scope.

(** ** Fan-out stagger *)

Record poolThrottle : Type := mkThrottle { threshold : Z; delay : Z }.

Definition poolThrottles : gmap string poolThrottle :=
  {[ Anthropic := mkThrottle 5 (400 * Time.Millisecond);
     OpenAI := mkThrottle 2 (1500 * Time.Millisecond) ]}.

Definition unknownPool : string := "unknown".
Definition unknownThrottle : poolThrottle := mkThrottle 1 (1500 * Time.Millisecond).
Definition noThrottlePools : gset string := {[ "ollama" ]}.
Definition maxFanoutStagger : Z := 10 * Time.Second.

Definition normPool (provider : string) : string :=
  if str_empty provider then unknownPool else provider.

Definition throttleForPool (pool : string) : option poolThrottle :=
  if bool_decide (pool ∈ noThrottlePools) then None
  else match poolThrottles !! pool with
       | Some t => Some t
       | None => Some unknownThrottle
       end.

(** The offset of the recipient that comes after [k] others of its pool. *)
Definition pool_offset (pool : string) (k : Z) : Z :=
  match throttleForPool pool with
  | None => 0
  | Some t =>
      let excess := k - threshold t + 1 in
      if excess <=? 0 then 0
      else
        let off := Time.wrap64 (excess * delay t) in
        if maxFanoutStagger <? off then maxFanoutStagger else off
  end.

(** The loop over the recipients with its counter per pool. *)
Fixpoint stagger_loop (pools : list string) (seen : gmap string Z) : list Z :=
  match pools with
  | [] => []
  | p :: ps =>
      let pool := normPool p in
      let k := default 0 (seen !! pool) in
      pool_offset pool k :: stagger_loop ps (<[pool := k + 1]> seen)
  end.

Definition fanoutStaggerOffsets (pools : list string) : list Z := stagger_loop pools ∅.

Definition resolveFanoutOffsets (recipients : list string) (d : DB) : list Z :=
  fanoutStaggerOffsets (map (fun to => fst (ProviderCapConfig to d)) recipients).

Definition fanoutStaggerWait (start offset : Z) : T unit :=
  now <~ time_Now ;;
  let d := offset - (now - start) in
  if d <=? 0 then ret tt else _ <~ wait d ;; ret tt.

(** ** The spin guard *)

Record spinGuard : Type := mkGuard {
  g_threshold : Z;
  g_window : Z;
  g_count : Z;
  g_windowStart : Z
}.

Definition set_run (count start : Z) (g : spinGuard) : spinGuard :=
  mkGuard (g_threshold g) (g_window g) count start.

Definition record (g : spinGuard) (progress : bool) (now : Z) : bool * spinGuard :=
  if g_threshold g <=? 0 then (false, g)
  else if progress then (false, set_run 0 (g_windowStart g) g)
  else if (g_count g =? 0) || (g_window g <? now - g_windowStart g)
       then (false, set_run 1 now g)
       else (g_threshold g <? g_count g + 1, set_run (g_count g + 1) (g_windowStart g) g).

(** ** Backoffs *)

Definition stuckBackoffBase : Z := Time.Second.
Definition stuckBackoffCap : Z := 60 * Time.Second.
Definition rateLimitBackoffCap : Z := 60 * Time.Second.

Definition paneNotFoundBackoff (consecutive0 : Z) : Z :=
  let consecutive := if consecutive0 <? 1 then 1 else consecutive0 in
  let shift := consecutive - 1 in
  if 63 <=? shift then stuckBackoffCap
  else
    let d := Time.wrap64 (Z.shiftl stuckBackoffBase shift) in
    if (d <? 0) || (stuckBackoffCap <? d) then stuckBackoffCap else d.

Definition rateLimitBackoff (consecutive0 : Z) : Z :=
  let consecutive := if consecutive0 <? 1 then 1 else consecutive0 in
  let shift := consecutive - 1 in
  if 63 <=? shift then rateLimitBackoffCap
  else
    let d := Time.wrap64 (Z.shiftl Time.Second shift) in
    if (d <? 0) || (rateLimitBackoffCap <? d) then rateLimitBackoffCap else d.

(** ** The wake delay after a rate limit *)

(** A fraction in quarters: 0.25, 0.5 and 1.0. *)
Definition jitterFractionForPriority (priority : Z) : Q :=
  if PriorityHigh <=? priority then Qmake 1 4
  else if priority <=? PriorityLow then Qmake 4 4
  else Qmake 2 4.

(** [time.Duration(sample * frac * float64(base))], truncated towards zero. *)
Definition rateLimitWakeJitter (sample : Q) (base priority : Z) : Z :=
  if base <=? 0 then 0
  else
    let q := Qmult (Qmult sample (jitterFractionForPriority priority)) (Qmake base 1) in
    Qtrunc q.

Definition rateLimitWakeDelay (sample : Q) (base priority : Z) (provider : string)
    (providerCap ttl recheck now : Z) (d : DB) : Z :=
  let backoff := Time.wrap64 (base + rateLimitWakeJitter sample base priority) in
  if (0 <? providerCap) && (providerCap <=? CountWorkingOnProvider provider ttl now d)
  then Time.wrap64 (backoff + recheck) else backoff.

Definition postDeliverDelay (delivered : bool) (interMsg cooldown : Z) : Z :=
  if delivered && (interMsg <? cooldown) then cooldown else interMsg.

(** ** Resuming a rate-limited chamber *)

Record rateLimitResumeState : Type := mkResume {
  rs_active : bool;
  rs_since : Z;
  rs_attempts : Z;
  rs_nextPasteAt : Z;
  rs_gaveUp : bool
}.

Definition no_episode : rateLimitResumeState := mkResume false 0 0 0 false.

Inductive rateLimitResumeAction : Type :=
  | resumeNoop
  | resumeWait
  | resumePaste
  | resumeGiveUp
  | resumeRecovered.

#[global] Instance resume_action_eq : EqDecision rateLimitResumeAction.
Proof. solve_decision. Defined.

Section Resume.
Context (maxAttempts : Z) (backoff : Z -> Z -> Z).

Definition planRateLimitResume (observed : PState) (hint : Z) (rs : rateLimitResumeState) (now : Z)
    : rateLimitResumeAction * rateLimitResumeState :=
  if negb (bool_decide (observed = PRateLimited)) then
    if rs_active rs then (resumeRecovered, no_episode) else (resumeNoop, rs)
  else if negb (rs_active rs) then
    (resumeWait, mkResume true now 0 (now + backoff 1 hint) false)
  else if rs_gaveUp rs then (resumeNoop, rs)
  else if now <? rs_nextPasteAt rs then (resumeWait, rs)
  else if maxAttempts <=? rs_attempts rs then
    (resumeGiveUp, mkResume true (rs_since rs) (rs_attempts rs) (rs_nextPasteAt rs) true)
  else
    (resumePaste, mkResume true (rs_since rs) (rs_attempts rs + 1)
                    (now + backoff (rs_attempts rs + 1 + 1) hint) false).

(** A run over observations [(state, hint, instant)], with the action of each. *)
Fixpoint plan_run (obs : list (PState * Z * Z)) (rs : rateLimitResumeState)
    : list (rateLimitResumeAction * Z) * rateLimitResumeState :=
  match obs with
  | [] => ([], rs)
  | (st, hint, now) :: obs' =>
      let (a, rs1) := planRateLimitResume st hint rs now in
      let (acts, rs2) := plan_run obs' rs1 in
      ((a, now) :: acts, rs2)
  end.
End Resume.

(** ** Int64 lemmas *)

(** ** The stagger of a fan-out *)

(** How many of the first [i] recipients share [pool]. *)
Definition earlier_in_pool (pools : list string) (i : nat) (pool : string) : Z :=
  Z.of_nat (length (List.filter (fun p => bool_decide (normPool p = pool)) (take i pools))).

(** The offset the policy of the pool gives to its [k]-th recipient. *)
Definition policy_offset (pool : string) (k : Z) : Z :=
  match throttleForPool pool with
  | None => 0
  | Some t => Z.min maxFanoutStagger (Z.max 0 ((k - threshold t + 1) * delay t))
  end.

Lemma throttle_cases pool t :
  throttleForPool pool = Some t ->
  1 <= threshold t <= 5 /\ 0 < delay t <= 1500 * Time.Millisecond.
Proof.
  unfold throttleForPool. case_bool_decide; [done|].
  unfold poolThrottles. destruct (_ !! pool) as [t'|] eqn:E; intros [= <-].
  - apply lookup_insert_Some in E as [[_ <-]|[_ E]]; [simpl; unfold Time.Millisecond; lia|].
    apply lookup_singleton_Some in E as [_ <-]. simpl. unfold Time.Millisecond. lia.
  - simpl. unfold Time.Millisecond. lia.
Qed.

Lemma pool_offset_policy pool k :
  0 <= k < 2 ^ 32 -> pool_offset pool k = policy_offset pool k.
Proof.
  intros Hk. unfold pool_offset, policy_offset.
  destruct (throttleForPool pool) as [t|] eqn:E; [|done].
  pose proof (throttle_cases _ _ E) as [Ht Hd].
  unfold maxFanoutStagger, Time.Second, Time.Millisecond in *.
  destruct (Z.leb_spec (k - threshold t + 1) 0) as [Hx|Hx];
    [assert ((k - threshold t + 1) * delay t <= 0) by (apply Z.mul_nonpos_nonneg; lia); lia|].
  assert (0 < (k - threshold t + 1) * delay t <= 2 ^ 32 * 1500000000).
  { split; [apply Z.mul_pos_pos; lia|apply Z.mul_le_mono_nonneg; lia]. }
  rewrite wrap64_id by lia. destruct (Z.ltb_spec (10 * 1000000000) ((k - threshold t + 1) * delay t)); lia.
Qed.

Lemma stagger_loop_lookup pools seen i p :
  pools !! i = Some p ->
  stagger_loop pools seen !! i =
    Some (pool_offset (normPool p)
            (default 0 (seen !! normPool p) + earlier_in_pool pools i (normPool p))).
Proof.
  revert seen i. induction pools as [|q pools IH]; intros seen [|i]; simpl; try done.
  - intros [= ->]. f_equal. f_equal. unfold earlier_in_pool. simpl. lia.
  - intros Hi. rewrite (IH _ _ Hi). unfold earlier_in_pool. simpl.
    do 2 f_equal. case_bool_decide as E.
    + rewrite E, lookup_insert_eq. simpl. lia.
    + rewrite lookup_insert_ne by done. done.
Qed.

Lemma earlier_bound pools i pool :
  (i <= length pools)%nat -> 0 <= earlier_in_pool pools i pool <= Z.of_nat i.
Proof.
  intros Hi. unfold earlier_in_pool. split; [lia|].
  apply inj_le. etransitivity; [apply filter_length_le|]. rewrite length_take. lia.
Qed.

Lemma stagger_length pools seen : length (stagger_loop pools seen) = length pools.
Proof. revert seen. induction pools; intros seen; simpl; auto. Qed.

(** A fan-out gets one offset per recipient, in order; each is the offset its
    pool's policy gives to the number of earlier recipients of that pool (whatever
    the other pools), never above the ten-second cap; and at most the pool's
    threshold of recipients of a throttled pool start at once.  The int64 product
    does not wrap for fewer than 2^32 recipients. *)
Theorem fanoutStaggerOffsets_policy pools :
  Z.of_nat (length pools) < 2 ^ 32 ->
  length (fanoutStaggerOffsets pools) = length pools /\
  (forall i p, pools !! i = Some p ->
     fanoutStaggerOffsets pools !! i
       = Some (policy_offset (normPool p) (earlier_in_pool pools i (normPool p)))) /\
  (forall off, off ∈ fanoutStaggerOffsets pools -> 0 <= off <= maxFanoutStagger) /\
  (forall i p t, pools !! i = Some p -> throttleForPool (normPool p) = Some t ->
     fanoutStaggerOffsets pools !! i = Some 0 ->
     earlier_in_pool pools i (normPool p) < threshold t).
Proof.
  intros Hlen.
  assert (Hex : forall i p, pools !! i = Some p -> fanoutStaggerOffsets pools !! i
       = Some (policy_offset (normPool p) (earlier_in_pool pools i (normPool p)))).
  { intros i p Hi. unfold fanoutStaggerOffsets. rewrite (stagger_loop_lookup _ _ _ _ Hi).
    rewrite lookup_empty. simpl. rewrite pool_offset_policy; [done|].
    apply lookup_lt_Some in Hi. pose proof (earlier_bound pools i (normPool p)). lia. }
  split; [apply stagger_length|]. split; [done|]. split.
  - intros off [i Hi]%list_elem_of_lookup.
    assert (exists p, pools !! i = Some p) as [p Hp].
    { apply lookup_lt_is_Some. apply lookup_lt_Some in Hi. unfold fanoutStaggerOffsets in Hi.
      by rewrite stagger_length in Hi. }
    rewrite (Hex _ _ Hp) in Hi. injection Hi as <-. unfold policy_offset.
    destruct (throttleForPool _); unfold maxFanoutStagger, Time.Second; lia.
  - intros i p t Hi Ht Hz. rewrite (Hex _ _ Hi) in Hz. injection Hz as Hz.
    unfold policy_offset in Hz. rewrite Ht in Hz. pose proof (throttle_cases _ _ Ht).
    unfold maxFanoutStagger, Time.Second in Hz. nia.
Qed.

Lemma fanoutStaggerOffsets_policy_witness :
  fanoutStaggerOffsets [OpenAI; ""; OpenAI; Anthropic; OpenAI; "ollama"; ""]
    = [0; 0; 0; 0; 1500000000; 0; 1500000000] /\
  length (fanoutStaggerOffsets [OpenAI; ""; OpenAI; Anthropic; OpenAI; "ollama"; ""]) = 7%nat.
Proof.
  split; [vm_compute; reflexivity|].
  apply (fanoutStaggerOffsets_policy [OpenAI; ""; OpenAI; Anthropic; OpenAI; "ollama"; ""]).
  vm_compute. reflexivity.
Defined.

(** ** The spin guard *)

(** A run of the guard over iterations [(progress, instant)]; [true] when the last
    one trips it. *)
Fixpoint guard_run (its : list (bool * Z)) (g : spinGuard) : bool * spinGuard :=
  match its with
  | [] => (false, g)
  | (progress, now) :: [] => record g progress now
  | (progress, now) :: its' => guard_run its' (snd (record g progress now))
  end.

(** What the guard remembers: its last [count] iterations made no progress, the
    first of them opened the window and all of them fell inside it. *)
Definition guard_inv (g : spinGuard) (past : list (bool * Z)) : Prop :=
  exists (rest win : list (bool * Z)), past = rest ++ win /\ Z.of_nat (length win) = g_count g /\
    (forall it, it ∈ win -> fst it = false /\ snd it - g_windowStart g <= g_window g) /\
    (g_count g = 0 \/ exists it, head win = Some it /\ snd it = g_windowStart g).

Definition run_of (n : Z) (window : Z) (its : list (bool * Z)) : Prop :=
  exists rest first win, its = rest ++ (false, first) :: win /\
    n <= Z.of_nat (length win) /\
    forall it, it ∈ win -> fst it = false /\ snd it - first <= window.

Lemma record_inv g progress now past :
  0 <= g_window g -> guard_inv g past ->
  guard_inv (snd (record g progress now)) (past ++ [(progress, now)]) \/ g_threshold g <= 0.
Proof.
  intros Hw (rest & win & -> & Hlen & Hin & Hst). unfold record.
  destruct (Z.leb_spec (g_threshold g) 0); [by right|left].
  destruct progress; simpl.
  - exists ((rest ++ win) ++ [(true, now)]), []. rewrite app_nil_r. simpl.
    split; [done|]. split; [done|]. split; [intros it Hit; by apply elem_of_nil in Hit|by left].
  - destruct (_ || _) eqn:E; simpl.
    + exists (rest ++ win), [(false, now)]. simpl. split; [done|]. split; [done|].
      split; [|right; eauto]. intros it ->%list_elem_of_singleton. simpl. split; [done|lia].
    + bsimp. exists rest, (win ++ [(false, now)]). rewrite app_assoc. split; [done|].
      rewrite length_app. simpl. split; [lia|]. split.
      * intros it [Hit|Hit%list_elem_of_singleton]%elem_of_app; [auto|subst; simpl; split; [done|lia]].
      * right. destruct Hst as [|(it & Hh & Hs)]; [lia|]. exists it. split; [|done].
        by destruct win.
Qed.

Lemma record_trips g progress now past :
  guard_inv g past -> fst (record g progress now) = true ->
  run_of (g_threshold g) (g_window g) (past ++ [(progress, now)]).
Proof.
  intros (rest & win & -> & Hlen & Hin & Hst). unfold record.
  destruct (Z.leb_spec (g_threshold g) 0); [done|]. destruct progress; [done|].
  destruct (_ || _) eqn:E; [done|]. simpl. intros Ht. bsimp.
  destruct Hst as [|([pr first] & Hh & Hs)]; [lia|]. simpl in Hs. subst first.
  destruct win as [|it win]; [done|]. injection Hh as ->.
  assert (pr = false) as -> by (apply (Hin (pr, g_windowStart g)); set_solver).
  exists rest, (g_windowStart g), (win ++ [(false, now)]). rewrite <- app_assoc. split; [done|].
  rewrite length_app. simpl in *. split; [lia|].
  intros it [Hit|Hit%list_elem_of_singleton]%elem_of_app; [apply Hin; set_solver|].
  subst. simpl. split; [done|lia].
Qed.

Lemma guard_run_trips its : forall past g,
  0 <= g_window g -> guard_inv g past -> fst (guard_run its g) = true ->
  run_of (g_threshold g) (g_window g) (past ++ its).
Proof.
  induction its as [|[progress now] its IH]; intros past g Hw Hinv Ht; [done|].
  destruct its as [|it its]; [by apply record_trips|].
  assert (Hcfg : g_threshold (snd (record g progress now)) = g_threshold g /\
                 g_window (snd (record g progress now)) = g_window g).
  { unfold record. by repeat case_code. }
  destruct Hcfg as [Hth Hwi].
  destruct (record_inv g progress now past Hw Hinv) as [Hinv'|Hoff].
  - change (fst (guard_run (it :: its) (snd (record g progress now))) = true) in Ht.
    apply (IH (past ++ [(progress, now)])) in Ht; [|by rewrite Hwi|done].
    rewrite Hth, Hwi, <- app_assoc in Ht. exact Ht.
  - exfalso. clear -Ht Hoff.
    assert (Hnever : forall l g', g_threshold g' <= 0 -> fst (guard_run l g') = false).
    { induction l as [|[p n] l IHl]; intros g' Hg; [done|].
      assert (Hr : record g' p n = (false, g')).
      { unfold record. by destruct (Z.leb_spec (g_threshold g') 0); [|lia]. }
      simpl. destruct l; rewrite Hr; [done|]. by apply IHl. }
    rewrite Hnever in Ht; [done|lia].
Qed.

Lemma guard_burst win : forall g,
  0 < g_threshold g -> 0 < g_count g ->
  (forall it, it ∈ win -> fst it = false /\ snd it - g_windowStart g <= g_window g) ->
  win <> [] -> g_count g + Z.of_nat (length win) = g_threshold g + 1 ->
  fst (guard_run win g) = true.
Proof.
  induction win as [|[pr now] win IH]; intros g Ht Hc Hin Hne Hlen; [done|].
  assert (pr = false /\ now - g_windowStart g <= g_window g) as [-> Hn].
  { apply (Hin (pr, now)). set_solver. }
  assert (Hr : record g false now
               = (g_threshold g <? g_count g + 1, set_run (g_count g + 1) (g_windowStart g) g)).
  { unfold record. destruct (Z.leb_spec (g_threshold g) 0); [lia|].
    destruct (Z.eqb_spec (g_count g) 0); [lia|]. simpl.
    by destruct (Z.ltb_spec (g_window g) (now - g_windowStart g)); [lia|]. }
  destruct win as [|it win].
  - simpl. rewrite Hr. simpl in *. apply Z.ltb_lt. lia.
  - change (fst (guard_run (it :: win) (snd (record g false now))) = true). rewrite Hr.
    apply IH; simpl in *; try done; try lia. intros it' Hit'. apply Hin. set_solver.
Qed.

(** The spin guard trips exactly on a spin.  When an iteration of a run from a
    fresh guard trips it, that iteration ends a block of more than [threshold]
    consecutive iterations without progress, all within one window of the block's
    first; and such a block coming right after an iteration that made progress does
    trip it. *)
Theorem spinGuard_trips_on_spin g its :
  0 <= g_window g -> g_count g = 0 ->
  (fst (guard_run its g) = true -> run_of (g_threshold g) (g_window g) its) /\
  (forall first win, 0 < g_threshold g -> its = (false, first) :: win ->
     Z.of_nat (length win) = g_threshold g ->
     (forall it, it ∈ win -> fst it = false /\ snd it - first <= g_window g) ->
     fst (guard_run its g) = true).
Proof.
  intros Hw Hc. split.
  - intros Ht. apply (guard_run_trips its [] g Hw); [|done].
    exists [], []. split; [done|]. split; [done|].
    split; [intros it Hit; by apply elem_of_nil in Hit|by left].
  - intros first win Ht -> Hlen Hin.
    assert (Hr : record g false first = (false, set_run 1 first g)).
    { unfold record. destruct (Z.leb_spec (g_threshold g) 0); [lia|]. by rewrite Hc. }
    destruct win as [|it win]; [simpl in *; lia|].
    change (fst (guard_run (it :: win) (snd (record g false first))) = true). rewrite Hr.
    apply guard_burst; simpl in *; try done; lia.
Qed.

Definition tight_guard : spinGuard := mkGuard 2 100 0 0.

Lemma spinGuard_trips_on_spin_witness :
  run_of 2 100 [(true, 0); (false, 7); (false, 9); (false, 12)] /\
  fst (guard_run [(false, 7); (false, 9); (false, 12)] tight_guard) = true.
Proof.
  split.
  - apply (spinGuard_trips_on_spin tight_guard); [simpl; lia|done|reflexivity].
  - destruct (spinGuard_trips_on_spin tight_guard [(false, 7); (false, 9); (false, 12)]) as [_ H];
      [simpl; lia|done|].
    apply (H 7 [(false, 9); (false, 12)]); [simpl; lia|done|done|].
    intros it Hit. simpl. repeat (apply elem_of_cons in Hit as [->|Hit]; [simpl; split; [done|lia]|]).
    by apply elem_of_nil in Hit.
Defined.

(** ** The backoff schedules *)

(** One second doubling up to a minute; the shift loses every bit of the second
    from the 56th failure to the 63rd, where the delay drops to nothing. *)
Definition backoff_schedule (c : Z) : Z :=
  if c <=? 1 then Time.Second
  else if c <=? 6 then 2 ^ (c - 1) * Time.Second
  else if (56 <=? c) && (c <=? 63) then 0
  else 60 * Time.Second.

Lemma schedule_upto (f : Z -> Z) :
  forallb (fun n => f (Z.of_nat n) =? backoff_schedule (Z.of_nat n)) (seq 0 64) = true ->
  (forall c, c < 1 -> f c = f 1) -> (forall c, 64 <= c -> f c = 60 * Time.Second) ->
  forall c, f c = backoff_schedule c.
Proof.
  intros Hfin Hlow Hhigh c. rewrite forallb_forall in Hfin.
  assert (Hmid : forall z, 0 <= z < 64 -> f z = backoff_schedule z).
  { intros z Hz. specialize (Hfin (Z.to_nat z)). rewrite Z2Nat.id in Hfin by lia.
    apply Z.eqb_eq, Hfin, in_seq. lia. }
  destruct (Z.ltb_spec c 1).
  - rewrite Hlow, Hmid by lia. unfold backoff_schedule.
    destruct (Z.leb_spec c 1); [done|lia].
  - destruct (Z.leb_spec 64 c); [|by apply Hmid; lia].
    rewrite Hhigh by lia. unfold backoff_schedule.
    destruct (Z.leb_spec c 1); [lia|]. destruct (Z.leb_spec c 6); [lia|].
    destruct (Z.leb_spec c 63); [lia|]. by rewrite andb_false_r.
Qed.

(** Both retry backoffs compute the same schedule: one second, doubling to the
    cap of a minute at the seventh consecutive failure and staying there, except
    that the wrapped shift yields no delay at all from the 56th to the 63rd. *)
Theorem backoffs_follow_schedule c :
  paneNotFoundBackoff c = backoff_schedule c /\ rateLimitBackoff c = backoff_schedule c.
Proof.
  split; (apply schedule_upto; [vm_compute; reflexivity|intros z Hc|intros z Hc]).
  - unfold paneNotFoundBackoff. by destruct (Z.ltb_spec z 1); [|lia].
  - unfold paneNotFoundBackoff. destruct (Z.ltb_spec z 1); [lia|].
    by destruct (Z.leb_spec 63 (z - 1)); [|lia].
  - unfold rateLimitBackoff. by destruct (Z.ltb_spec z 1); [|lia].
  - unfold rateLimitBackoff. destruct (Z.ltb_spec z 1); [lia|].
    by destruct (Z.leb_spec 63 (z - 1)); [|lia].
Qed.

(** ** The wake delay *)

(** How far a wake of priority [p] may be spread over [base]. *)
Definition jitter_window (base priority : Z) : Z :=
  if PriorityHigh <=? priority then base / 4
  else if priority <=? PriorityLow then base
  else base / 2.

Lemma scaled_quot n d k base :
  0 <= n <= d -> 0 < d -> 0 < k -> 0 <= base ->
  0 <= Z.quot (n * k * base) (d * 4) <= k * base / 4.
Proof.
  intros Hn Hd Hk Hb. assert (Hkb : 0 <= k * base) by (apply Z.mul_nonneg_nonneg; lia).
  rewrite Z.quot_div_nonneg, <- Z.mul_assoc by nia. split; [apply Z.div_pos; nia|].
  rewrite <- (Z.div_mul_cancel_l (k * base) 4 d) by lia.
  apply Z.div_le_mono; [lia|]. apply Z.mul_le_mono_nonneg_r; lia.
Qed.

Lemma jitter_range sample base priority :
  (0 <= sample <= 1)%Q -> 0 <= base ->
  0 <= rateLimitWakeJitter sample base priority <= jitter_window base priority.
Proof.
  destruct sample as [n d]. unfold Qle. simpl. intros Hs Hb.
  assert (Hn : 0 <= n <= Zpos d) by lia.
  unfold rateLimitWakeJitter, jitter_window, Qtrunc.
  assert (Hw : 0 <= base / 4 /\ 0 <= base / 2) by (split; apply Z.div_pos; lia).
  destruct (Z.leb_spec base 0); [repeat case_code; lia|].
  unfold jitterFractionForPriority. repeat case_code; unfold Qmult; simpl Qnum; simpl Qden;
    rewrite Pos.mul_1_r, Pos2Z.inj_mul.
  - pose proof (scaled_quot n (Zpos d) 1 base ltac:(lia) ltac:(lia) ltac:(lia) ltac:(lia)).
    by rewrite Z.mul_1_l in *.
  - pose proof (scaled_quot n (Zpos d) 4 base ltac:(lia) ltac:(lia) ltac:(lia) ltac:(lia)) as Hq.
    by rewrite (Z.mul_comm 4 base), Z.div_mul in Hq by lia.
  - pose proof (scaled_quot n (Zpos d) 2 base ltac:(lia) ltac:(lia) ltac:(lia) ltac:(lia)) as Hq.
    by rewrite (Z.div_mul_cancel_l base 2 2 ltac:(lia) ltac:(lia) : 2 * base / 4 = base / 2) in Hq.
Qed.

(** A rate-limited chamber never wakes before its base backoff, nor later than
    the jitter window of the message's priority (a quarter, half or all of the
    base) plus one recheck; the recheck is added exactly when the cap is on and the
    provider's working chambers fill it. *)
Theorem rateLimitWakeDelay_bounds sample base priority provider cap ttl recheck now d :
  (0 <= sample <= 1)%Q -> 0 <= base < 2 ^ 61 -> 0 <= recheck < 2 ^ 61 ->
  exists jitter, 0 <= jitter <= jitter_window base priority /\
    rateLimitWakeDelay sample base priority provider cap ttl recheck now d
      = base + jitter +
        (if bool_decide (0 < cap /\ cap <= CountWorkingOnProvider provider ttl now d)
         then recheck else 0).
Proof.
  intros Hs Hb Hr. exists (rateLimitWakeJitter sample base priority).
  pose proof (jitter_range sample base priority Hs ltac:(lia)) as Hj. split; [done|].
  assert (jitter_window base priority <= base).
  { unfold jitter_window. repeat case_code; try lia; apply Z.div_le_upper_bound; lia. }
  unfold rateLimitWakeDelay. rewrite (wrap64_id (base + _)) by lia.
  destruct (0 <? cap) eqn:E1, (cap <=? _) eqn:E2; simpl; bsimp;
    case_bool_decide; try lia; rewrite ?wrap64_id by lia; lia.
Qed.

Lemma rateLimitWakeDelay_bounds_witness :
  exists jitter, 0 <= jitter <= 250 /\
    rateLimitWakeDelay (Qmake 1 2) 1000 PriorityHigh "" 0 0 0 0 empty_db = 1000 + jitter + 0.
Proof.
  apply (rateLimitWakeDelay_bounds (Qmake 1 2) 1000 PriorityHigh "" 0 0 0 0 empty_db);
    [split; done|lia|lia].
Defined.

(** ** Auto-resume *)

Section ResumeProps.
Context (maxAttempts : Z) (backoff : Z -> Z -> Z).

Definition action_count (a : rateLimitResumeAction) (acts : list (rateLimitResumeAction * Z)) : Z :=
  Z.of_nat (length (List.filter (fun x => bool_decide (fst x = a)) acts)).

(** Where an episode stands: pastes spent, and whether it has been given up. *)
Definition episode_wf (rs : rateLimitResumeState) : Prop :=
  0 <= rs_attempts rs <= Z.max 0 maxAttempts.

Definition budget_left (rs : rateLimitResumeState) : Z :=
  if rs_gaveUp rs then 0 else Z.max 0 maxAttempts - rs_attempts rs.

Definition throttled (obs : list (PState * Z * Z)) : Prop :=
  Forall (fun o => fst (fst o) = PRateLimited) obs.

(** Within an episode. *)
Lemma episode_run obs : forall rs,
  throttled obs -> rs_active rs = true -> episode_wf rs ->
  let (acts, rs') := plan_run maxAttempts backoff obs rs in
  action_count resumePaste acts <= budget_left rs /\
  action_count resumeGiveUp acts <= (if rs_gaveUp rs then 0 else 1) /\
  action_count resumeRecovered acts = 0 /\ rs_active rs' = true.
Proof.
  induction obs as [|[[st hint] now] obs IH]; intros rs Hobs Hact Hwf.
  - unfold action_count, budget_left, episode_wf in *. simpl.
    destruct (rs_gaveUp rs); split_and!; try done; lia.
  - inversion_clear Hobs as [|? ? Hst Hobs']. simpl in Hst. subst st.
    cbn [plan_run]. unfold planRateLimitResume. rewrite bool_decide_true by done. simpl negb.
    cbv iota. rewrite Hact. simpl negb. cbv iota.
    destruct (rs_gaveUp rs) eqn:Hg; [|destruct (now <? rs_nextPasteAt rs) eqn:Hn;
      [|destruct (maxAttempts <=? rs_attempts rs) eqn:Hm]].
    all: match goal with |- context [plan_run _ _ ?l ?r] =>
           specialize (IH r Hobs'); destruct (plan_run _ _ l r) as [acts rs'] end.
    all: unfold budget_left, episode_wf, action_count in *; simpl in *; rewrite ?Hg in *.
    all: bsimp; destruct IH as (H1 & H2 & H3 & H4); try done; try lia.
    all: split_and!; try done; lia.
Qed.

(** One rate-limit episode, from a chamber that was not rate-limited: the first
    observation only starts the cooldown, at most [maxAttempts] continue-pastes
    follow however long the limit lasts, the machine gives up at most once, and the
    episode never ends by itself. *)
Theorem resume_episode_bounded hint0 now0 obs rs :
  rs_active rs = false -> throttled obs ->
  let (acts, rs') := plan_run maxAttempts backoff ((PRateLimited, hint0, now0) :: obs) rs in
  head acts = Some (resumeWait, now0) /\
  action_count resumePaste acts <= Z.max 0 maxAttempts /\
  action_count resumeGiveUp acts <= 1 /\
  action_count resumeRecovered acts = 0 /\ rs_active rs' = true.
Proof.
  intros Hact Hobs. cbn [plan_run]. unfold planRateLimitResume at 1.
  rewrite bool_decide_true by done. simpl negb. cbv iota. rewrite Hact. simpl negb. cbv iota.
  pose proof (episode_run obs (mkResume true now0 0 (now0 + backoff 1 hint0) false) Hobs eq_refl) as H.
  destruct (plan_run _ _ obs _) as [acts rs'].
  destruct H as (H1 & H2 & H3 & H4); [unfold episode_wf; simpl; lia|].
  unfold budget_left, action_count in *. simpl in *. split_and!; try done; lia.
Qed.

(** Pastes wait out their cooldown.  A paste happens only inside an episode, with
    attempts left and not before the instant the last wait allowed; it spends one
    attempt and postpones the next by the escalated backoff.  Leaving the limited
    state ends the episode and forgets it. *)
Theorem resume_step st hint rs now :
  let (a, rs') := planRateLimitResume maxAttempts backoff st hint rs now in
  (a = resumePaste <->
     st = PRateLimited /\ rs_active rs = true /\ rs_gaveUp rs = false /\
     rs_nextPasteAt rs <= now /\ rs_attempts rs < maxAttempts) /\
  (a = resumePaste -> rs_attempts rs' = rs_attempts rs + 1 /\
     rs_nextPasteAt rs' = now + backoff (rs_attempts rs + 2) hint) /\
  (a = resumeRecovered <-> st <> PRateLimited /\ rs_active rs = true) /\
  (a = resumeRecovered -> rs' = no_episode).
Proof.
  unfold planRateLimitResume. destruct (decide (st = PRateLimited)) as [->|Hne].
  - rewrite bool_decide_true by done. simpl negb. cbv iota.
    destruct (rs_active rs) eqn:Ha; simpl; [|by split_and!; naive_solver].
    destruct (rs_gaveUp rs) eqn:Hg; [by split_and!; naive_solver|].
    destruct (Z.ltb_spec now (rs_nextPasteAt rs)); [by split_and!; naive_solver lia|].
    destruct (Z.leb_spec maxAttempts (rs_attempts rs)); simpl; [by split_and!; naive_solver lia|].
    replace (rs_attempts rs + 1 + 1) with (rs_attempts rs + 2) by lia.
    split_and!; naive_solver.
  - rewrite bool_decide_false by done. simpl negb. cbv iota.
    destruct (rs_active rs) eqn:Ha; by split_and!; naive_solver.
Qed.
End ResumeProps.

Definition limited_for (n : nat) : list (PState * Z * Z) :=
  map (fun i => (PRateLimited, 0, Z.of_nat i * 100 * Time.Second)) (seq 1 n).

Lemma resume_episode_bounded_witness :
  action_count resumePaste
    (fst (plan_run 5 (fun n _ => rateLimitBackoff n) ((PRateLimited, 0, 0) :: limited_for 9) no_episode))
    = 5 /\
  action_count resumePaste
    (fst (plan_run 5 (fun n _ => rateLimitBackoff n) ((PRateLimited, 0, 0) :: limited_for 9) no_episode))
    <= 5.
Proof.
  split; [vm_compute; reflexivity|].
  assert (Hl : throttled (limited_for 9)) by (unfold throttled, limited_for; apply Forall_forall;
    intros o Ho; apply list_elem_of_fmap in Ho as (i & -> & _); done).
  pose proof (resume_episode_bounded 5 (fun n _ => rateLimitBackoff n) 0 0 (limited_for 9) no_episode
                eq_refl Hl) as H.
  destruct (plan_run _ _ _ _) as [acts rs']. simpl. by destruct H as (_ & H & _).
Defined.
