(* ===== verification/Mailman.v ===== *)
(** * The mailman's machine (internal/cli/serve.go, profile.go)

    What the serve loop runs on: its configuration, the variables that live across
    iterations, the environment it cannot see into, and the monad of its steps.  A
    step ends normally, with a [continue] of the loop, with an exit code, or with
    the panic of the spin guard.

    The store is shared with the other processes of the host: before each access
    the environment may have changed it ([sw_others]), and the access itself may
    fail ([sw_fault]). *)

From S2P Require Import Prelude GoStd StoreTypes Priority Messages Queue Agents TmuxIO PaneState ObserveGate Deliver Throttle.

Open Scope Z_scope.
Open Scope tell_scope.

(** ** Configuration *)

(** The adapter the process was built for ([active]). *)
Record Profile : Type := mkAdapter {
  pf_BinaryName : string;
  pf_Provider : string;
  pf_PasteCapable : bool;
  pf_SupportedControlCommands : option (gset string)
}.

Record serveOpts : Type := mkServeOpts {
  so_Agent : string;
  so_InterMessageDelay : Z;
  so_IdlePollInterval : Z;
  so_PauseCheckInterval : Z;
  so_PostCompactPause : Z;
  so_DeliverTimeout : Z;
  so_ObserveGateOpts : ObserveGateOpts;
  so_GateDisabled : bool;
  so_NotifyEmojiDisabled : bool;
  so_DriftCheckDisabled : bool;
  so_PrePasteSafetyDisabled : bool;
  so_DriftSoftFail : bool;
  so_NotifyOnFailed : bool;
  so_NotifyOnDeliveredInInputBox : bool;
  so_ConfigDeliveryMode : string;
  so_ByteMarkerThreshold : Z;
  so_DedupeWindow : Z;
  so_StuckThreshold : Z;
  so_SessionStaleThreshold : Z;
  so_MailmanStaleThreshold : Z;
  so_AlertTo : string;
  so_StuckPollInterval : Z;
  so_SpinGuardThreshold : Z;
  so_SpinGuardWindow : Z;
  so_MaxConcurrentPerProvider : Z;
  so_ProviderCapTTL : Z;
  so_ProviderCapRecheckInterval : Z;
  so_ObservedStateInterval : Z;
  so_ProviderCapDisabled : bool;
  so_PriorityStrategy : SchedulerStrategy;
  so_PostDeliverCooldown : Z;
  so_RateLimitResumeDisabled : bool;
  so_RateLimitResumeMaxAttempts : Z;
  so_watchdogPing : Z
}.

Definition sessionStaleRetryInterval : Z := 90 * Time.Second.
Definition freshnessCheckInterval : Z := 30 * Time.Second.
Definition usageLimitRecheckInterval : Z := 30 * Time.Second.
Definition defaultRateLimitResumeMaxAttempts : Z := 5.
Definition rateLimitResumeText : string := "continue".
Definition deferTriggerResume : string := "resume".
Definition exitOK : Z := 0.
Definition exitInternal : Z := 70.

(** ** Variables of the loop *)

(** The local variables of [runServeWithStore] that survive an iteration; [None] is
    the zero [time.Time].  Those that only feed metrics are left out. *)
Record loop_vars : Type := mkLoop {
  lv_paneFails : Z;
  lv_paneFailMsg : string;
  lv_settleUntil : option Z;
  lv_sessionStale : Z;
  lv_lastFresh : option Z;
  lv_freshAlerted : bool;
  lv_guard : spinGuard;
  lv_progressed : bool;
  lv_lastObserved : option Z;
  lv_rateMsg : string;
  lv_rateAttempts : Z;
  lv_usageMsg : string;
  lv_resume : rateLimitResumeState
}.

Definition set_pane_streak (n : Z) (msg : string) (v : loop_vars) : loop_vars :=
  mkLoop n msg (lv_settleUntil v) (lv_sessionStale v) (lv_lastFresh v) (lv_freshAlerted v)
    (lv_guard v) (lv_progressed v) (lv_lastObserved v) (lv_rateMsg v) (lv_rateAttempts v)
    (lv_usageMsg v) (lv_resume v).
Definition set_settle (t : option Z) (v : loop_vars) : loop_vars :=
  mkLoop (lv_paneFails v) (lv_paneFailMsg v) t (lv_sessionStale v) (lv_lastFresh v)
    (lv_freshAlerted v) (lv_guard v) (lv_progressed v) (lv_lastObserved v) (lv_rateMsg v)
    (lv_rateAttempts v) (lv_usageMsg v) (lv_resume v).
Definition set_session_stale (n : Z) (v : loop_vars) : loop_vars :=
  mkLoop (lv_paneFails v) (lv_paneFailMsg v) (lv_settleUntil v) n (lv_lastFresh v)
    (lv_freshAlerted v) (lv_guard v) (lv_progressed v) (lv_lastObserved v) (lv_rateMsg v)
    (lv_rateAttempts v) (lv_usageMsg v) (lv_resume v).
Definition set_last_fresh (t : option Z) (v : loop_vars) : loop_vars :=
  mkLoop (lv_paneFails v) (lv_paneFailMsg v) (lv_settleUntil v) (lv_sessionStale v) t
    (lv_freshAlerted v) (lv_guard v) (lv_progressed v) (lv_lastObserved v) (lv_rateMsg v)
    (lv_rateAttempts v) (lv_usageMsg v) (lv_resume v).
Definition set_fresh_alerted (b : bool) (v : loop_vars) : loop_vars :=
  mkLoop (lv_paneFails v) (lv_paneFailMsg v) (lv_settleUntil v) (lv_sessionStale v)
    (lv_lastFresh v) b (lv_guard v) (lv_progressed v) (lv_lastObserved v) (lv_rateMsg v)
    (lv_rateAttempts v) (lv_usageMsg v) (lv_resume v).
Definition set_guard (g : spinGuard) (progressed : bool) (v : loop_vars) : loop_vars :=
  mkLoop (lv_paneFails v) (lv_paneFailMsg v) (lv_settleUntil v) (lv_sessionStale v)
    (lv_lastFresh v) (lv_freshAlerted v) g progressed (lv_lastObserved v) (lv_rateMsg v)
    (lv_rateAttempts v) (lv_usageMsg v) (lv_resume v).
Definition set_progressed (b : bool) (v : loop_vars) : loop_vars := set_guard (lv_guard v) b v.
Definition set_last_observed (t : option Z) (v : loop_vars) : loop_vars :=
  mkLoop (lv_paneFails v) (lv_paneFailMsg v) (lv_settleUntil v) (lv_sessionStale v)
    (lv_lastFresh v) (lv_freshAlerted v) (lv_guard v) (lv_progressed v) t (lv_rateMsg v)
    (lv_rateAttempts v) (lv_usageMsg v) (lv_resume v).
Definition set_rate (msg : string) (n : Z) (v : loop_vars) : loop_vars :=
  mkLoop (lv_paneFails v) (lv_paneFailMsg v) (lv_settleUntil v) (lv_sessionStale v)
    (lv_lastFresh v) (lv_freshAlerted v) (lv_guard v) (lv_progressed v) (lv_lastObserved v) msg n
    (lv_usageMsg v) (lv_resume v).
Definition set_usage (msg : string) (v : loop_vars) : loop_vars :=
  mkLoop (lv_paneFails v) (lv_paneFailMsg v) (lv_settleUntil v) (lv_sessionStale v)
    (lv_lastFresh v) (lv_freshAlerted v) (lv_guard v) (lv_progressed v) (lv_lastObserved v)
    (lv_rateMsg v) (lv_rateAttempts v) msg (lv_resume v).
Definition set_resume (r : rateLimitResumeState) (v : loop_vars) : loop_vars :=
  mkLoop (lv_paneFails v) (lv_paneFailMsg v) (lv_settleUntil v) (lv_sessionStale v)
    (lv_lastFresh v) (lv_freshAlerted v) (lv_guard v) (lv_progressed v) (lv_lastObserved v)
    (lv_rateMsg v) (lv_rateAttempts v) (lv_usageMsg v) r.

(** The variables before the first iteration. *)
Definition initial_vars (o : serveOpts) : loop_vars :=
  mkLoop 0 EmptyString None 0 None false
    (mkGuard (so_SpinGuardThreshold o) (so_SpinGuardWindow o) 0 0) true None EmptyString 0
    EmptyString no_episode.

(** ** The environment *)

Record CanonicalAgent : Type := mkCanonical { ca_Name : string; ca_Aliases : list string }.

(** The pane walker (internal/discover), as the mailman uses it: which pane hosts a
    session or an agent, which agent a pane runs (name and ambiguity), whether a
    paste into it would reach an agent, and the session it hosts.  An empty pane is
    "nowhere". *)
Record Walker : Type := mkWalker {
  LookupBySessionID : history -> string -> result string;
  PaneAgentNameWithCanonicals : history -> string -> list CanonicalAgent -> result (string * bool);
  LookupByNameWithCanonicals : history -> string -> list CanonicalAgent -> result (string * bool);
  LookupByName : history -> string -> result string;
  PaneAcceptsPaste : history -> string -> bool;
  SessionIDForPane : history -> string -> option string
}.

(** [sw_io] is the terminal side, its context the stop context.  [sw_Message] is the
    renderer (internal/render), [sw_parse_time] is [time.Parse(time.RFC3339Nano, _)]. *)
Record SWorld : Type := mkSWorld {
  sw_io : World;
  sw_walker : Walker;
  sw_others : history -> DB -> DB;
  sw_fault : history -> option error;
  sw_entropy : history -> nat -> option (Z * Z);
  sw_sample : history -> Q;
  sw_live_panes : history -> string + exec_failure;
  sw_Message : Message -> Z -> Z -> string;
  sw_parse_time : string -> option Z
}.

(** ** Steps *)

Inductive flow (A : Type) : Type :=
  | Go (a : A)
  | Continue
  | Exit (code : Z)
  | Panic
  | OutOfFuel.
Arguments Go {A} a.
Arguments Continue {A}.
Arguments Exit {A} code.
Arguments Panic {A}.
Arguments OutOfFuel {A}.

Record sstate : Type := mkS {
  s_db : DB;
  s_vars : loop_vars;
  s_hist : history
}.

Definition M (A : Type) : Type := SWorld -> sstate -> flow A * sstate.

Definition go {A} (a : A) : M A := fun _ st => (Go a, st).
Definition continue {A} : M A := fun _ st => (Continue, st).
Definition exit {A} (code : Z) : M A := fun _ st => (Exit code, st).
Definition panic {A} : M A := fun _ st => (Panic, st).
Definition out_of_fuel {A} : M A := fun _ st => (OutOfFuel, st).

(** Whatever is not a normal end stops the rest of the iteration. *)
Definition andthen {A B} (c : M A) (k : A -> M B) : M B := fun sw st =>
  match c sw st with
  | (Go a, st') => k a sw st'
  | (Continue, st') => (Continue, st')
  | (Exit code, st') => (Exit code, st')
  | (Panic, st') => (Panic, st')
  | (OutOfFuel, st') => (OutOfFuel, st')
  end.

Notation "x <! c ;; k" := (andthen c (fun x => k))
  (at level 100, c at next level, right associativity) : tell_scope.

Definition skip : M unit := go tt.
Definition when (b : bool) (c : M unit) : M unit := if b then c else skip.

(** The terminal side of a step. *)
Definition lift {A} (c : T A) : M A := fun sw st =>
  let (a, h) := c (sw_io sw) (s_hist st) in (Go a, mkS (s_db st) (s_vars st) h).

(** A terminal computation with fuel. *)
Definition lift_fuel {A} (c : T (option A)) : M A :=
  r <! lift c ;; match r with Some a => go a | None => out_of_fuel end.

(** A question to the environment. *)
Definition ask {A} (what : string) (f : SWorld -> history -> A) : M A := fun sw st =>
  let h := EvCall what :: s_hist st in (Go (f sw h), mkS (s_db st) (s_vars st) h).

(** One access to the store: what the others did meanwhile, then the operation at the
    current instant, unless it fails. *)
Definition access {A} (what : string)
    (op : SWorld -> history -> string -> DB -> result A * DB) : M (result A) := fun sw st =>
  let h := EvCall what :: s_hist st in
  let d := sw_others sw h (s_db st) in
  match sw_fault sw h with
  | Some e => (Go (Err e), mkS d (s_vars st) h)
  | None => let (r, d') := op sw h (Time.formatISO (w_clock (sw_io sw) h)) d in
            (Go r, mkS d' (s_vars st) h)
  end.

Definition store {A} (what : string) (op : string -> DB -> result A * DB) : M (result A) :=
  access what (fun _ _ now d => op now d).

(** An operation that cannot fail by itself. *)
Definition store_ok {A} (what : string) (op : string -> DB -> A * DB) : M (result A) :=
  access what (fun _ _ now d => let (a, d') := op now d in (Ok a, d')).

Definition store_read {A} (what : string) (f : DB -> A) : M (result A) :=
  access what (fun _ _ _ d => (Ok (f d), d)).

Definition insert_notice (p : InsertParams) : M (result InsertResult) :=
  access "InsertNotice" (fun sw h now d => InsertNotice p (sw_entropy sw h) now d).

Definition vars : M loop_vars := fun _ st => (Go (s_vars st), st).
Definition update (f : loop_vars -> loop_vars) : M unit := fun _ st =>
  (Go tt, mkS (s_db st) (f (s_vars st)) (s_hist st)).

(** ** Waiting *)

(** [stopCtx.Err() != nil]. *)
Definition stopped : T bool :=
  e <~ ctx_Err ;; ret (match e with Some _ => true | None => false end).

Definition stopOrSleep (d : Z) : T bool :=
  if d <=? 0 then stopped
  else e <~ wait d ;; ret (match e with Some _ => true | None => false end).

(** A doorbell can only end the sleep early. *)
Definition stopSleepOrNotify (d : Z) : T bool := stopOrSleep d.

(** [if stopOrSleep(stopCtx, d) { return exitOK }]. *)
Definition pause (d : Z) : M unit :=
  b <! lift (stopOrSleep d) ;; if b then exit exitOK else skip.

(** ... followed by [continue]. *)
Definition retry_after {A} (d : Z) : M A := _ <! pause d ;; continue.

(** ** Errors and control messages *)

Definition isCantFindPaneError (e : error) : bool :=
  Str.Contains (error_text e) "can't find pane".

Definition trimmed_body (m : Message) : string := Str.TrimSpace (m_Body m).

Definition is_control (m : Message) : bool := bool_decide (m_Kind m = KindControl).

Definition isSessionResetControl (m : Message) : bool :=
  is_control m && (bool_decide (trimmed_body m = "/compact") || bool_decide (trimmed_body m = "/clear")).

Definition isClearControl (m : Message) : bool :=
  is_control m && bool_decide (trimmed_body m = "/clear").

Definition isCompactControl (m : Message) : bool :=
  is_control m && bool_decide (trimmed_body m = "/compact").

(** [strings.Fields(body)[0]]. *)
Fixpoint until_space (s : string) : string :=
  match s with
  | EmptyString => EmptyString
  | String a s' =>
      if existsb (fun r => Str.HasPrefix s r) Str.space_runes then EmptyString
      else String a (until_space s')
  end.

Definition controlCommandToken (body : string) : string :=
  until_space (Str.TrimLeft body Str.space_runes).

Definition adapterSupportsControl (active : Profile) (body : string) : bool :=
  match pf_SupportedControlCommands active with
  | None => true
  | Some s => bool_decide (controlCommandToken body ∈ s)
  end.

Definition errControlUnsupported : error :=
  ErrMsg "cli: control command unsupported by this adapter".
