(* ===== verification/Respawn.v ===== *)
(** * Waiting for a chamber and relaunching it (internal/cli/respawn.go, serve.go)

    The polling loops with a deadline (stable idle after a compaction, a shell after
    [/exit], an idle prompt after a relaunch) and the respawn pathway built on
    them.  A loop's fuel bounds its polls; with the clock of [steady_clock] the fuel
    of [poll_fuel] is never exhausted. *)

From S2P Require Import Prelude GoStd StoreTypes Priority Agents TmuxIO PaneState ObserveGate Throttle Mailman.

Open Scope Z_scope.
Open Scope tell_scope.

Definition respawnExitGrace : Z := 8 * Time.Second.
Definition respawnReadyTimeout : Z := 90 * Time.Second.
Definition respawnPollEvery : Z := 1 * Time.Second.
Definition autoRestartExitWindow : Z := 5 * Time.Second.
Definition postCompactPollEvery : Z := 1 * Time.Second.
Definition postCompactStableDebounce : Z := 2.

(** [if every > 0 && time.Since(lastPing) >= every { ping; lastPing = time.Now() }]. *)
Definition maybe_ping (every lastPing : Z) : T Z :=
  if every <=? 0 then ret lastPing
  else
    now <~ time_Now ;;
    if every <=? now - lastPing then _ <~ emit EvPing ;; time_Now else ret lastPing.

(** ** Stable idle after a reset *)

(** [(settled, stopped)]. *)
Fixpoint stable_idle_loop (fuel : nat) (c : classifier) (pane : string)
    (deadline pollEvery pingEvery debounce lastPing consecutive : Z) : T (option (bool * bool)) :=
  match fuel with
  | O => ret None
  | S n =>
      r <~ with_timeout (agentState c pane) ;;
      let '(state, _, err) := r in
      let idle := bool_decide (err = None) && bool_decide (state = PIdle) in
      let consecutive' := if idle then consecutive + 1 else 0 in
      if idle && (debounce <=? consecutive') then ret (Some (true, false))
      else
        now <~ time_Now ;;
        if deadline <=? now then ret (Some (false, false))
        else
          stop <~ wait pollEvery ;;
          match stop with
          | Some _ => ret (Some (false, true))
          | None =>
              lastPing' <~ maybe_ping pingEvery lastPing ;;
              stable_idle_loop n c pane deadline pollEvery pingEvery debounce lastPing' consecutive'
          end
  end.

Definition waitForStableIdle (fuel : nat) (c : classifier) (pane : string)
    (maxWait pollEvery pingEvery debounce : Z) : T (option (bool * bool)) :=
  if (maxWait <=? 0) || (debounce <=? 0) then b <~ stopped ;; ret (Some (false, b))
  else
    start <~ time_Now ;;
    lastPing <~ time_Now ;;
    stable_idle_loop fuel c pane (start + maxWait) pollEvery pingEvery debounce lastPing 0.

(** ** A bare shell after [/exit] *)

Fixpoint await_exit_loop (fuel : nat) (pane : string) (deadline : Z) : T (option bool) :=
  match fuel with
  | O => ret None
  | S n =>
      cmd <~ with_timeout (PaneCurrentCommand pane) ;;
      if match cmd with Ok c => IsShellProcess c | Err _ => false end then ret (Some true)
      else
        now <~ time_Now ;;
        if deadline <=? now then ret (Some false)
        else
          stop <~ wait respawnPollEvery ;;
          match stop with
          | Some _ => ret (Some false)
          | None => _ <~ emit EvPing ;; await_exit_loop n pane deadline
          end
  end.

Definition awaitAdapterExit (fuel : nat) (pane : string) (window : Z) : T (option bool) :=
  now <~ time_Now ;; await_exit_loop fuel pane (now + window).

(** ** An idle prompt after a relaunch *)

Inductive respawnReadyResult : Type :=
  | respawnReady
  | respawnTimedOut
  | respawnStopped.

Fixpoint wait_ready_loop (fuel : nat) (c : classifier) (pane : string)
    (deadline watchdogPing lastPing : Z) : T (option respawnReadyResult) :=
  match fuel with
  | O => ret None
  | S n =>
      r <~ with_timeout (agentState c pane) ;;
      let '(state, _, err) := r in
      if bool_decide (err = None) && bool_decide (state = PIdle) then ret (Some respawnReady)
      else
        now <~ time_Now ;;
        if deadline <=? now then ret (Some respawnTimedOut)
        else
          stop <~ wait respawnPollEvery ;;
          match stop with
          | Some _ => ret (Some respawnStopped)
          | None =>
              lastPing' <~ maybe_ping watchdogPing lastPing ;;
              wait_ready_loop n c pane deadline watchdogPing lastPing'
          end
  end.

Definition respawnWaitReady (fuel : nat) (c : classifier) (pane : string) (watchdogPing : Z)
    : T (option respawnReadyResult) :=
  start <~ time_Now ;;
  lastPing <~ time_Now ;;
  wait_ready_loop fuel c pane (start + respawnReadyTimeout) watchdogPing lastPing.

(** ** The pathway *)

Section Pathway.
Context (fuel : nat) (c : classifier) (agent : string) (watchdogPing : Z).

(** [(relaunched, stopped)]. *)
Definition relaunchAfterExit (pane relaunchCmd : string) (window : Z) : M (bool * bool) :=
  exited <! lift_fuel (awaitAdapterExit fuel pane window) ;;
  if negb exited then b <! lift stopped ;; go (false, b)
  else
    sent <! lift (SendKeys pane relaunchCmd) ;;
    match sent with
    | Err _ => b <! lift stopped ;; go (false, b)
    | Ok _ =>
        _ <! store "SetSessionID" (fun _ d => SetSessionID agent EmptyString d) ;;
        ready <! lift_fuel (respawnWaitReady fuel c pane watchdogPing) ;;
        match ready with
        | respawnStopped => go (true, true)
        | _ =>
            live <! ask "SessionIDForPane" (fun sw h => SessionIDForPane (sw_walker sw) h pane) ;;
            match live with
            | Some _ => go (true, false)
            | None =>
                _ <! store_ok "DeleteAgent" (fun _ d => DeleteAgent agent d) ;;
                b <! lift stopped ;; go (false, b)
            end
        end
    end.

(** [stopped]. *)
Definition respawnChamber (pane relaunchCmd : string) : M bool :=
  r <! lift (with_timeout (agentState c pane)) ;;
  let '(state, _, err) := r in
  if negb (bool_decide (err = None) && bool_decide (state = PIdle)) then lift stopped
  else if str_empty relaunchCmd then lift stopped
  else
    _ <! lift (SendKeys pane "/exit") ;;
    r2 <! relaunchAfterExit pane relaunchCmd respawnExitGrace ;;
    let (relaunched, stop) := r2 : bool * bool in
    if stop then go true
    else if negb relaunched then go false
    else
      _ <! store_ok "ResetRespawnShrinkCount" (fun _ d => (tt, ResetRespawnShrinkCount agent d)) ;;
      go false.

Definition respawnIfThresholdReached (pane relaunchCmd : string) (count threshold : Z) : M bool :=
  if threshold <=? count then respawnChamber pane relaunchCmd else go false.
End Pathway.
