(* ===== verification/Serve.v ===== *)
(** * The serve loop (internal/cli/serve.go)

    [runServeWithStore]: the startup and one definition per phase of an iteration,
    composed in the order of the code.  Logging and metrics are left out; the systemd
    watchdog, the doorbell, the pane walker and every store access are events of the
    history. *)

From S2P Require Import Prelude GoStd Clock StoreTypes Priority Messages Queue Agents TmuxIO PaneState ObserveGate Deliver Throttle Mailman Respawn.

Open Scope Z_scope.
Open Scope tell_scope.

(** ** Notices *)

Definition renderFailureNoticeBody (msg : Message) (failureKind reason : string) : string :=
  let headline := if bool_decide (failureKind = "delivered_in_input_box") then "unverified"
                  else failureKind in
  ":warning: " +:+ m_PublicID msg +:+ " → " +:+ m_ToAgent msg +:+ " " +:+ headline +:+ ": "
    +:+ reason +:+ " — resend " +:+ m_PublicID msg.

Definition maybeInsertFailureNotice (enabled : bool) (this : string) (msg : Message)
    (failureKind reason : string) : M unit :=
  if negb enabled then skip
  else if bool_decide (m_Kind msg = KindDeliveryFailureNotice) then skip
  else
    _ <! insert_notice (simple_params this (m_FromAgent msg)
                          (renderFailureNoticeBody msg failureKind reason)
                          (Some KindDeliveryFailureNotice)) ;;
    skip.

Definition strandedBodyIndent : string := "    ".

Definition indentForBody (s : string) : string :=
  if str_empty s then strandedBodyIndent +:+ "(empty)"
  else Str.Join (map (fun line => strandedBodyIndent +:+ line) (Str.Split Str.nl s)) nl_str.

Definition renderStrandedDraftBody (active : Profile) (pane triggerMsgID content : string) : string :=
  Str.Join [":bookmark: Stranded draft snapshot";
            "  Pane: " +:+ pane;
            "  Triggered by delivery of: " +:+ triggerMsgID;
            "  Recover: " +:+ pf_BinaryName active +:+ " stranded list  →  "
              +:+ pf_BinaryName active +:+ " stranded show <id>";
            "  Note: content is the visible terminal area at capture time — text scrolled above the screen may not appear.";
            "  Cleared content:";
            indentForBody content] nl_str.

Definition archiveStrandedDraft (active : Profile) (receiver pane triggerMsgID content : string)
    : M (result InsertResult) :=
  insert_notice (simple_params receiver receiver
                   (renderStrandedDraftBody active pane triggerMsgID content)
                   (Some KindStrandedDraft)).

Definition insertDedupeNotice (this : string) (replay : Message) (originalID : string) : M unit :=
  if negb (bool_decide (m_Kind replay = KindMessage)) then skip
  else
    let body := Str.Join [":white_check_mark: Dedupe resolved";
                          "  Replay id: " +:+ m_PublicID replay;
                          "  Original id: " +:+ originalID
                            +:+ " (now confirmed delivered via scrollback re-verify)";
                          "  Replay dropped; no further action needed."] nl_str in
    _ <! insert_notice (simple_params this (m_FromAgent replay) body (Some KindDedupeNotice)) ;;
    skip.

Definition freshnessStateLabel (st : PState) (err : option error) : string :=
  match err with
  | Some e => "probe failed (" +:+ error_text e +:+ ")"
  | None => PState_String st
  end.

Definition renderStuckChamberNoticeBody (self oldestAt : string) (age : Z) (st : PState)
    (err : option error) : string :=
  Str.Join [":warning: Chamber " +:+ self +:+ " looks frozen — delivery has stalled";
            "  Oldest undelivered message queued at " +:+ oldestAt +:+ " (" +:+ seconds_text age
              +:+ " ago)";
            "  Pane state at detection: " +:+ freshnessStateLabel st err;
            "  The mailman is live but this chamber's inbound queue is not draining. Check the pane for a modal / restart-mode prompt / hang, then clear it or `register --force`."]
           nl_str.

Definition sendStuckChamberNotice (self conductor oldestAt : string) (age : Z) (st : PState)
    (err : option error) : M unit :=
  _ <! insert_notice (simple_params self conductor
                        (renderStuckChamberNoticeBody self oldestAt age st err)
                        (Some KindStuckChamberNotice)) ;;
  skip.

Section Serve.
Context (o : serveOpts) (active : Profile) (cfg : DeliverCfg) (cls : classifier) (fuel : nat).

Notation me := (so_Agent o).
Notation profile := (activeProfile cfg).

Definition capOn : bool := negb (so_ProviderCapDisabled o) && negb (str_empty (pf_Provider active)).

(** A two-second probe outside the stop context. *)
Definition probe (pane : string) : M (PState * Evidence * option error) :=
  lift (op_timeout (agentState cls pane)).

Definition recover : M unit :=
  _ <! store_ok "RecoverDelivering" (fun _ d => RecoverDelivering me d) ;; skip.

Definition mark_failed (msg : Message) (reason : string) : M unit :=
  _ <! store "MarkFailed" (fun now d => MarkFailed (m_PublicID msg) reason now d) ;; skip.

Definition mark_delivered (msg : Message) : M unit :=
  _ <! store "MarkDelivered" (fun now d => MarkDelivered (m_PublicID msg) now d) ;; skip.

(** Fail the message, tell its sender, and go round again. *)
Definition fail_and_notify {A} (msg : Message) (reason : string) : M A :=
  _ <! mark_failed msg reason ;;
  _ <! maybeInsertFailureNotice (so_NotifyOnFailed o) me msg "failed" reason ;;
  retry_after (so_InterMessageDelay o).

(** ** Startup *)

Definition start_agent : M Agent :=
  r <! store "GetAgent" (fun _ d => (GetAgent me d, d)) ;;
  match r with
  | Err e => exit (if errors_Is e ErrNotFound then exitOK else exitInternal)
  | Ok a =>
      if str_empty (PaneID a) then exit exitOK
      else
        let mode := so_ConfigDeliveryMode o in
        go (if negb (str_empty mode) && negb (bool_decide (mode = a_delivery_mode a)) &&
               ValidDeliveryMode mode
            then set_a_delivery_mode mode a else a)
  end.

Definition startup : M unit :=
  a <! start_agent ;;
  _ <! recover ;;
  if negb (pf_PasteCapable active) && bool_decide (a_delivery_mode a = DeliveryModePasteAndEnter)
  then exit exitOK
  else if bool_decide (a_delivery_mode a = DeliveryModeMailboxOnly) ||
          bool_decide (a_delivery_mode a = DeliveryModeHookContext)
  then exit exitOK
  else
    when capOn
      (_ <! store_ok "SetProvider" (fun _ d => (tt, SetProvider me (pf_Provider active) d)) ;;
       _ <! store_ok "SetProviderCap"
              (fun _ d => (tt, SetProviderCap me (so_MaxConcurrentPerProvider o) d)) ;;
       skip).

(** ** Top of an iteration *)

Definition loop_top : M unit :=
  stop <! lift stopped ;;
  if stop then exit exitOK
  else
    now <! lift time_Now ;;
    v <! vars ;;
    let (trip, g) := record (lv_guard v) (lv_progressed v) now in
    _ <! update (set_guard g false) ;;
    if trip : bool then panic
    else when (0 <? so_watchdogPing o) (lift (emit EvPing)).

(** The agent's row; a paused or parked mailman goes no further. *)
Definition read_agent : M Agent :=
  r <! store "GetAgent" (fun _ d => (GetAgent me d, d)) ;;
  match r with
  | Err _ => retry_after (so_PauseCheckInterval o)
  | Ok a =>
      if a_paused a then retry_after (so_PauseCheckInterval o)
      else if negb (str_empty (a_stuck_reason a)) then retry_after (so_StuckPollInterval o)
      else go a
  end.

(** ** Self-observation *)

Definition resume_max_attempts : Z :=
  if so_RateLimitResumeMaxAttempts o <=? 0 then defaultRateLimitResumeMaxAttempts
  else so_RateLimitResumeMaxAttempts o.

Definition rateLimitResumeBackoff (sample : Q) (attempt hint : Z) : Z :=
  let base := if hint <=? 0 then rateLimitBackoff attempt else hint in
  Time.wrap64 (base + rateLimitWakeJitter sample base PriorityNormal).

Definition maybeAutoResumeRateLimited (pane : string) (st : PState) (ev : Evidence) : M unit :=
  now <! lift time_Now ;;
  sample <! ask "rand.Float64" sw_sample ;;
  v <! vars ;;
  let (action, rs) := planRateLimitResume resume_max_attempts (rateLimitResumeBackoff sample) st
                        (ev_RetryAfter ev) (lv_resume v) now in
  _ <! update (set_resume rs) ;;
  when (bool_decide (action = resumePaste))
    (_ <! lift (op_timeout (SendKeys pane rateLimitResumeText)) ;; skip).

Definition maybeAutoClearMetabolism (st : PState) : M unit :=
  when (bool_decide (st = PAtRestInCompaction))
    (_ <! store_ok "ClearMetabolismIfPending" (fun _ d => (tt, ClearMetabolismIfPending me d)) ;; skip).

(** [time.Since(t) >= every], true on the zero time. *)
Definition due (last : option Z) (every : Z) : T bool :=
  now <~ time_Now ;;
  ret (match last with None => true | Some t => every <=? now - t end).

Definition self_observe (a : Agent) : M unit :=
  if negb capOn || str_empty (PaneID a) then skip
  else
    v <! vars ;;
    due_now <! lift (due (lv_lastObserved v) (so_ObservedStateInterval o)) ;;
    if negb due_now then skip
    else
      r <! probe (PaneID a) ;;
      match r with
      | (_, _, Some _) => skip
      | (st, ev, None) =>
          _ <! store_ok "SetObservedState"
                 (fun now d => (tt, SetObservedState me (PState_String st) now d)) ;;
          _ <! maybeAutoClearMetabolism st ;;
          _ <! (if so_RateLimitResumeDisabled o then skip
                else maybeAutoResumeRateLimited (PaneID a) st ev) ;;
          now <! lift time_Now ;;
          update (set_last_observed (Some now))
      end.

(** ** Freshness *)

(** A stale queue: probe the pane once and alert unless it is a legitimate hold. *)
Definition freshness_alert (a : Agent) (oldestAt : string) (age : Z) : M unit :=
  r <! probe (PaneID a) ;;
  let '(st, _, err) := r in
  if bool_decide (err = None) && IsPasteUnsafe st && negb (bool_decide (st = PUnknown)) then skip
  else
    _ <! sendStuckChamberNotice me (so_AlertTo o) oldestAt age st err ;;
    update (set_fresh_alerted true).

Definition freshness_check (a : Agent) : M unit :=
  if negb (0 <? so_MailmanStaleThreshold o) || str_empty (so_AlertTo o) ||
     bool_decide (so_AlertTo o = me)
  then skip
  else
    v <! vars ;;
    due_now <! lift (due (lv_lastFresh v) freshnessCheckInterval) ;;
    if negb due_now then skip
    else
      now <! lift time_Now ;;
      _ <! update (set_last_fresh (Some now)) ;;
      r <! store_read "RecipientOldestPendingAt" (RecipientOldestPendingAt me) ;;
      match r with
      | Err _ => skip
      | Ok None => update (set_fresh_alerted false)
      | Ok (Some oldestAt) =>
          t <! ask "time.Parse" (fun sw _ => sw_parse_time sw oldestAt) ;;
          match t with
          | None => skip
          | Some created =>
              let age := now - created in
              if age <=? so_MailmanStaleThreshold o then update (set_fresh_alerted false)
              else if negb (lv_freshAlerted v) && negb (str_empty (PaneID a))
              then freshness_alert a oldestAt age else skip
          end
      end.

(** ** Self-compaction *)

Definition respawn_if_reached (pane relaunchCmd : string) (count threshold : Z) : M unit :=
  stop <! respawnIfThresholdReached fuel cls me (so_watchdogPing o) pane relaunchCmd count threshold ;;
  if stop then exit exitOK else skip.

Definition self_compact (a : Agent) : M unit :=
  let last := null_string (a_last_self_compact_at a) in
  if (0 <? a_respawn_after_shrinks a) && negb (str_empty (PaneID a)) && negb (str_empty last) &&
     Str.ltb (null_string (a_self_compact_counted_at a)) last
  then
    r <! store "CountSelfCompactIfNew" (fun _ d => CountSelfCompactIfNew me d) ;;
    match r with
    | Ok (true, count) =>
        respawn_if_reached (PaneID a) (a_relaunch_cmd a) count (a_respawn_after_shrinks a)
    | _ => skip
    end
  else skip.

Definition resume_promote (a : Agent) : M unit :=
  let last := null_string (a_last_self_compact_at a) in
  if negb (str_empty (PaneID a)) && negb (str_empty last) &&
     Str.ltb (null_string (a_resume_promoted_at a)) last
  then _ <! store "PromoteResumeOnSelfCompactIfNew"
              (fun _ d => PromoteResumeOnSelfCompactIfNew me deferTriggerResume d) ;; skip
  else skip.

(** ** Claiming *)

Definition clearRateLimitState : M unit :=
  v <! vars ;; when (negb (str_empty (lv_rateMsg v))) (update (set_rate EmptyString 0)).
Definition clearUsageLimitState : M unit := update (set_usage EmptyString).

Definition claim : M Message :=
  r <! store "ClaimNext" (fun _ d => ClaimNextWithStrategy me (so_PriorityStrategy o) d) ;;
  match r with
  | Ok (Some msg) =>
      _ <! update (set_progressed true) ;;
      v <! vars ;;
      _ <! when (negb (bool_decide (lv_rateMsg v = m_PublicID msg))) clearRateLimitState ;;
      _ <! when (negb (bool_decide (lv_usageMsg v = m_PublicID msg))) clearUsageLimitState ;;
      go msg
  | _ => b <! lift (stopSleepOrNotify (so_IdlePollInterval o)) ;;
         if b then exit exitOK else continue
  end.

(** ** Pings *)

Definition pingHealthy (pane : string) : M (option string) :=
  if str_empty pane
  then go (Some ("agent registered but has no pane_id (run '" +:+ pf_BinaryName active
                   +:+ " discover')"))
  else
    r <! ask "LivePanes" (fun sw h => LivePanes (sw_live_panes sw h)) ;;
    go (match r with
        | Err e => Some ("pane-liveness probe failed: " +:+ error_text e)
        | Ok live =>
            if bool_decide (pane ∈ live) then None
            else Some ("registered pane " +:+ pane +:+ " is not live (agent unreachable)")
        end).

Definition handlePing (pane : string) (msg : Message) : M unit :=
  r <! pingHealthy pane ;;
  match r with
  | None => mark_delivered msg
  | Some reason => mark_failed msg reason
  end.

Definition doorbell : M unit := lift (emit (EvCall "notify.Notify")).

Definition ping_phase (a : Agent) (msg : Message) : M unit :=
  when (bool_decide (m_Kind msg = KindPing))
    (_ <! handlePing (PaneID a) msg ;;
     _ <! doorbell ;;
     retry_after (so_InterMessageDelay o)).

(** ** The provider cap *)

Definition cap_gate : M unit :=
  when (capOn && (0 <? so_MaxConcurrentPerProvider o))
    (now <! lift time_Now ;;
     r <! store_read "CountWorkingOnProvider"
            (CountWorkingOnProvider (pf_Provider active) (so_ProviderCapTTL o) now) ;;
     match r with
     | Ok working =>
         when (so_MaxConcurrentPerProvider o <=? working)
           (_ <! recover ;; retry_after (so_ProviderCapRecheckInterval o))
     | Err _ => skip
     end).

(** ** Where the agent is *)

(** Move the registration to a rediscovered pane; stay when the store refuses. *)
Definition heal_to (pane newPane : string) : M string :=
  r <! store "UpsertAgent" (fun now d => UpsertAgent me newPane now d) ;;
  go (match r with Ok _ => newPane | Err _ => pane end).

(** [(paneForDelivery, sessionResolved, sessionStale)]. *)
Definition resolve_session (a : Agent) : M (string * bool * bool) :=
  let pane := PaneID a in
  if so_DriftCheckDisabled o || str_empty (a_session_id a) then go (pane, false, false)
  else
    r <! ask "LookupBySessionID" (fun sw h => LookupBySessionID (sw_walker sw) h (a_session_id a)) ;;
    match r with
    | Err _ => go (pane, false, false)
    | Ok sidPane =>
        if str_empty sidPane then go (pane, false, true)
        else if bool_decide (sidPane = pane) then go (pane, true, false)
        else p <! heal_to pane sidPane ;; go (p, true, false)
    end.

(** A stale session in an unreadable pane: back off, and park at the threshold. *)
Definition session_stale_exit (pane : string) (stale : bool) : M unit :=
  if negb stale then update (set_session_stale 0)
  else if (0 <? so_SessionStaleThreshold o) && negb (so_PrePasteSafetyDisabled o) then
    r <! probe pane ;;
    let '(st, _, err) := r in
    if bool_decide (err = None) && bool_decide (st = PUnknown) then
      v <! vars ;;
      let n := lv_sessionStale v + 1 in
      _ <! update (set_session_stale n) ;;
      _ <! recover ;;
      if so_SessionStaleThreshold o <=? n then
        _ <! store "SetStuck" (fun _ d => SetStuck me StuckReasonSessionStale d) ;;
        _ <! update (set_session_stale 0) ;;
        continue
      else retry_after sessionStaleRetryInterval
    else update (set_session_stale 0)
  else skip.

(** ** Drift *)

Inductive drift_verdict : Type :=
  | DriftPane (pane : string)
  | DriftFail (reason : string)
  | NoLiveSession.

Definition buildCanonicals : M (list CanonicalAgent) :=
  r <! store_read "ListAgents" ListAgents ;;
  go (match r with
      | Ok ags => map (fun a => mkCanonical (a_name a) (a_aliases a)) ags
      | Err _ => []
      end).

Definition lookup_name (canonicals : list CanonicalAgent) : M (result (string * bool)) :=
  ask "LookupByNameWithCanonicals"
    (fun sw h => LookupByNameWithCanonicals (sw_walker sw) h me canonicals).

(** The pane runs another agent: find ours elsewhere, or give up on the message. *)
Definition drift_elsewhere (pane : string) (canonicals : list CanonicalAgent) : M drift_verdict :=
  r <! lookup_name canonicals ;;
  match r with
  | Err _ => go (DriftPane pane)
  | Ok (_, true) => go (DriftFail "drift_lookup_ambiguous")
  | Ok (newPane, false) =>
      if negb (str_empty newPane) && negb (bool_decide (newPane = pane))
      then p <! heal_to pane newPane ;; go (DriftPane p)
      else go (DriftFail "drift_detected_unrecoverable")
  end.

(** The pane runs no agent: deliver only where ours is positively found. *)
Definition drift_bare (pane : string) (canonicals : list CanonicalAgent) : M drift_verdict :=
  r <! lookup_name canonicals ;;
  match r with
  | Ok (newPane, false) =>
      if negb (str_empty newPane) && negb (bool_decide (newPane = pane))
      then p <! heal_to pane newPane ;; go (DriftPane p)
      else if bool_decide (newPane = pane) then go (DriftPane pane)
      else go NoLiveSession
  | _ => go NoLiveSession
  end.

Definition drift_verdict_of (pane : string) : M drift_verdict :=
  canonicals <! buildCanonicals ;;
  r <! ask "PaneAgentNameWithCanonicals"
         (fun sw h => PaneAgentNameWithCanonicals (sw_walker sw) h pane canonicals) ;;
  match r with
  | Err _ => go (DriftPane pane)
  | Ok (_, true) => go (DriftFail "drift_check_ambiguous")
  | Ok (running, false) =>
      if str_empty running then drift_bare pane canonicals
      else if bool_decide (running = me) then go (DriftPane pane)
      else drift_elsewhere pane canonicals
  end.

Definition no_live_session_reason : string :=
  "no_live_session: addressed session not present in any pane; delivery blocked to prevent bare-shell paste (#626)".

Definition drift_check (pane : string) (sessionResolved : bool) (msg : Message) : M string :=
  if so_DriftCheckDisabled o || sessionResolved then go pane
  else
    v <! drift_verdict_of pane ;;
    match v with
    | DriftPane p => go p
    | NoLiveSession => fail_and_notify msg no_live_session_reason
    | DriftFail what =>
        if so_DriftSoftFail o then go pane
        else fail_and_notify msg
               (what +:+ ": delivery aborted under fail-loud default; set --drift-soft-fail to deliver-anyway")
    end.

Definition liveness_reason : string :=
  "no_live_session: target pane hosts no live agent process (bare shell / stale title); delivery blocked to prevent bare-shell paste (#761)".

(** Never paste into a bare shell. *)
Definition liveness_gate (pane : string) (sessionResolved : bool) (msg : Message) : M unit :=
  if so_DriftCheckDisabled o || sessionResolved then skip
  else
    accepts <! ask "PaneAcceptsPaste" (fun sw h => PaneAcceptsPaste (sw_walker sw) h pane) ;;
    if accepts then skip else fail_and_notify msg liveness_reason.

(** ** Dedupe *)

Definition verify_token (id : string) : string := "id " +:+ id.

(** The original is visible: confirm it and absorb the replay. *)
Definition dedupe_absorb {A} (msg : Message) (originalID : string) : M A :=
  _ <! store "MarkVerifiedByDedupe" (fun _ d => MarkVerifiedByDedupe originalID d) ;;
  _ <! mark_failed msg ("dedupe_absorbed: original " +:+ originalID
                          +:+ " confirmed via scrollback re-verify") ;;
  _ <! insertDedupeNotice me msg originalID ;;
  retry_after (so_InterMessageDelay o).

Definition dedupe (pane : string) (msg : Message) : M unit :=
  if negb (0 <? so_DedupeWindow o) then skip
  else
    now <! lift time_Now ;;
    let cutoff := Time.formatISO (now - so_DedupeWindow o) in
    r <! store_read "FindDedupeMatch"
           (FindDedupeMatch (m_FromAgent msg) (m_ToAgent msg) (m_Body msg) cutoff) ;;
    match r with
    | Ok (Some prior) =>
        visible <! lift (background (CheckTokenVisible pane (verify_token (m_PublicID prior)))) ;;
        match visible with
        | Ok true => dedupe_absorb msg (m_PublicID prior)
        | _ => skip
        end
    | _ => skip
    end.

(** ** The observe gate *)

Definition gate_usage_limited (msg : Message) : M unit :=
  if m_ForceRateLimited msg then skip
  else
    _ <! recover ;;
    _ <! update (set_usage (m_PublicID msg)) ;;
    retry_after usageLimitRecheckInterval.

(** [rateLimitWakeDelay]; without a cap, or when the count fails, no extension. *)
Definition wake_delay (sample : Q) (base priority : Z) : M Z :=
  let plain := Time.wrap64 (base + rateLimitWakeJitter sample base priority) in
  let cap := if capOn then so_MaxConcurrentPerProvider o else 0 in
  if cap <=? 0 then go plain
  else
    now <! lift time_Now ;;
    r <! store_read "CountWorkingOnProvider"
           (rateLimitWakeDelay sample base priority (pf_Provider active) cap
              (so_ProviderCapTTL o) (so_ProviderCapRecheckInterval o) now) ;;
    go (match r with Ok d => d | Err _ => plain end).

Definition gate_rate_limited (msg : Message) (hint : Z) : M unit :=
  if m_ForceRateLimited msg then skip
  else
    _ <! recover ;;
    v <! vars ;;
    let attempts := (if bool_decide (lv_rateMsg v = m_PublicID msg) then lv_rateAttempts v else 0) + 1 in
    _ <! update (set_rate (m_PublicID msg) attempts) ;;
    let base := if hint <=? 0 then rateLimitBackoff attempts else hint in
    sample <! ask "rand.Float64" sw_sample ;;
    delay <! wake_delay sample base (m_Priority msg) ;;
    retry_after delay.

(** What the gate's error means for the delivery; normal end: deliver anyway. *)
Definition gate_error (msg : Message) (out : GateOutcome) (e : error) : M unit :=
  if errors_Is e (context_error Canceled) then exit exitOK
  else if errors_Is e ErrUsageLimited then gate_usage_limited msg
  else if errors_Is e ErrRateLimited then gate_rate_limited msg (g_RetryAfter out)
  else if errors_Is e ErrCopyModeUnsafe || errors_Is e ErrCopyModeQueryFailed
  then _ <! recover ;; retry_after (so_InterMessageDelay o)
  else skip.

(** The operator's stale draft: archive it first, then clear the input. *)
Definition clear_draft (pane content : string) : M unit :=
  _ <! lift (with_timeout (ClearInput pane (Str.Count Str.nl content + 1))) ;; skip.

Definition stranded_draft (pane : string) (msg : Message) (out : GateOutcome) : M unit :=
  if negb (g_Stale out) || str_empty (g_InputContent out) ||
     bool_decide (m_Kind msg = KindStrandedDraft)
  then skip
  else
    fresh <! lift (background (ExtractInputContent profile pane)) ;;
    match fresh with
    | Ok EmptyString => clear_draft pane (g_InputContent out)
    | _ =>
        let content := match fresh with Ok c => c | Err _ => g_InputContent out end in
        r <! archiveStrandedDraft active me pane (m_PublicID msg) content ;;
        match r with
        | Ok _ => clear_draft pane content
        | Err _ => skip
        end
    end.

Definition gate_opts : ObserveGateOpts :=
  let g := so_ObserveGateOpts o in
  mkGateOpts (o_PollIntervalMin g) (o_PollIntervalMax g) (o_BackoffFactor g)
    (o_InputStaleThreshold g) (o_MaxWait g) true
    (negb (so_NotifyEmojiDisabled o) || o_OnOperatorTyping g) (o_WorkingDeliverImmediately g).

Definition gate_phase (pane : string) (msg : Message) : M unit :=
  if so_GateDisabled o then skip
  else
    r <! lift_fuel (with_timeout (ObserveGate fuel cls pane gate_opts)) ;;
    let (out, gerr) := r : GateOutcome * option error in
    _ <! match gerr with Some e => gate_error msg out e | None => skip end ;;
    v <! vars ;;
    _ <! when (bool_decide (lv_rateMsg v = m_PublicID msg)) clearRateLimitState ;;
    _ <! when (bool_decide (lv_usageMsg v = m_PublicID msg)) clearUsageLimitState ;;
    stranded_draft pane msg out.

(** ** The last look before the paste *)

Definition paste_unsafe (msg : Message) (st : PState) : bool :=
  if m_ForceRateLimited msg then IsPasteUnsafeForced st else IsPasteUnsafe st.

(** A missing pane: back off, and park at the threshold. *)
Definition pane_not_found {A} (msg : Message) : M A :=
  v <! vars ;;
  let n := (if bool_decide (m_PublicID msg = lv_paneFailMsg v) then lv_paneFails v else 0) + 1 in
  _ <! update (set_pane_streak n (m_PublicID msg)) ;;
  if (0 <? so_StuckThreshold o) && (so_StuckThreshold o <=? n) then
    _ <! store "SetStuck" (fun _ d => SetStuck me StuckReasonPaneNotFound d) ;;
    _ <! update (set_pane_streak 0 EmptyString) ;;
    continue
  else retry_after (paneNotFoundBackoff n).

Definition pre_paste_safety (pane : string) (msg : Message) : M unit :=
  if so_PrePasteSafetyDisabled o then skip
  else
    r <! probe pane ;;
    let '(st, _, perr) := r in
    if negb (bool_decide (perr = None)) || paste_unsafe msg st then
      _ <! recover ;;
      match perr with
      | Some e =>
          if isCantFindPaneError e then pane_not_found msg
          else _ <! update (set_pane_streak 0 EmptyString) ;; continue
      | None => _ <! update (set_pane_streak 0 EmptyString) ;; continue
      end
    else update (set_pane_streak 0 EmptyString).

(** ** Delivering *)

Definition deliverOne (pane : string) (msg : Message) (settle : bool)
    (body : string) : T (result unit) :=
  if is_control msg then
    if adapterSupportsControl active (m_Body msg) then SendKeys pane (m_Body msg)
    else ret (Err errControlUnsupported)
  else
    Deliver cfg (mkDeliverParams pane body (verify_token (m_PublicID msg)) true false settle true).

(** The rendered message at the current instant. *)
Definition rendered (msg : Message) : M string :=
  now <! lift time_Now ;;
  ask "render.Message" (fun sw _ => sw_Message sw msg (so_ByteMarkerThreshold o) now).

Definition deliver_to (pane : string) (msg : Message) (settle : bool) : M (result unit) :=
  body <! (if is_control msg then go EmptyString else rendered msg) ;;
  lift (op_timeout (deliverOne pane msg settle body)).

Definition consume_settle : M bool :=
  v <! vars ;;
  match lv_settleUntil v with
  | None => go false
  | Some t =>
      now <! lift time_Now ;;
      if now <? t then _ <! update (set_settle None) ;; go true else go false
  end.

(** The pane is gone: look the agent up and retry once on its new pane. *)
Definition auto_heal (pane : string) (msg : Message) (settle : bool) (derr : result unit)
    : M (result unit) :=
  match derr with
  | Ok _ => go derr
  | Err e =>
      if negb (isCantFindPaneError e) then go derr
      else
        r <! ask "LookupByName" (fun sw h => LookupByName (sw_walker sw) h me) ;;
        match r with
        | Ok newPane =>
            if str_empty newPane || bool_decide (newPane = pane) then go derr
            else
              u <! store "UpsertAgent" (fun now d => UpsertAgent me newPane now d) ;;
              match u with
              | Err _ => go derr
              | Ok _ => deliver_to newPane msg settle
              end
        | Err _ => go derr
        end
  end.

Definition deliver_phase (pane : string) (msg : Message) : M (result unit) :=
  settle <! consume_settle ;;
  derr <! deliver_to pane msg settle ;;
  auto_heal pane msg settle derr.

(** ** After a delivery *)

(** The wait after a session reset, and the relaunch of a chamber it killed. *)
Definition settle_after_reset (pane : string) (a : Agent) (msg : Message) : M unit :=
  when (isSessionResetControl msg && (0 <? so_PostCompactPause o))
    (r <! lift_fuel (waitForStableIdle fuel cls pane (so_PostCompactPause o) postCompactPollEvery
                       (so_watchdogPing o) postCompactStableDebounce) ;;
     let (settled, stop) := r : bool * bool in
     if stop then exit exitOK
     else if settled then skip
     else
       now <! lift time_Now ;;
       _ <! update (set_settle (Some (now + so_PostCompactPause o))) ;;
       if isCompactControl msg && a_auto_restart a && negb (str_empty (a_relaunch_cmd a)) then
         r2 <! relaunchAfterExit fuel cls me (so_watchdogPing o) pane (a_relaunch_cmd a)
                 autoRestartExitWindow ;;
         if snd r2 : bool then exit exitOK else skip
       else skip).

Definition promote_after_reset (msg : Message) : M unit :=
  when (isSessionResetControl msg)
    (_ <! store_ok "PromoteDeferred" (fun _ d => PromoteDeferred me deferTriggerResume d) ;; skip).

Definition count_clear (pane : string) (a : Agent) (msg : Message) : M unit :=
  when (isClearControl msg && (0 <? a_respawn_after_shrinks a))
    (r <! store "IncrementRespawnShrinkCount" (fun _ d => IncrementRespawnShrinkCount me d) ;;
     match r with
     | Err _ => skip
     | Ok count => respawn_if_reached pane (a_relaunch_cmd a) count (a_respawn_after_shrinks a)
     end).

Definition unverified_reason : string :=
  "paste+Enter completed but verify token didn't surface in time".

(** What the delivery's result makes of the row; whether it was delivered. *)
Definition finish (pane : string) (a : Agent) (msg : Message) (derr : result unit) : M bool :=
  match derr with
  | Ok _ =>
      _ <! mark_delivered msg ;;
      _ <! settle_after_reset pane a msg ;;
      _ <! promote_after_reset msg ;;
      _ <! count_clear pane a msg ;;
      go true
  | Err e =>
      if errors_Is e ErrDeliveredExternally then _ <! mark_delivered msg ;; go true
      else if errors_Is e ErrUnverifiedDelivery then
        _ <! store "MarkDeliveredInInputBox"
               (fun now d => MarkDeliveredInInputBox (m_PublicID msg) now d) ;;
        _ <! maybeInsertFailureNotice (so_NotifyOnDeliveredInInputBox o) me msg
               "delivered_in_input_box" unverified_reason ;;
        go true
      else if errors_Is e errControlUnsupported then _ <! mark_delivered msg ;; go false
      else if errors_Is e ErrInputRaced || errors_Is e ErrPriorPasteStuck
      then _ <! recover ;; go false
      else
        _ <! mark_failed msg (error_text e) ;;
        _ <! maybeInsertFailureNotice (so_NotifyOnFailed o) me msg "failed" (error_text e) ;;
        go false
  end.

(** ** One iteration *)

(** Everything that happens before a row is claimed. *)
Definition before_claim : M Agent :=
  _ <! loop_top ;;
  a <! read_agent ;;
  _ <! self_observe a ;;
  _ <! freshness_check a ;;
  _ <! self_compact a ;;
  _ <! resume_promote a ;;
  go a.

(** From the claimed row to the pane it may be pasted into. *)
Definition route (a : Agent) (msg : Message) : M string :=
  _ <! ping_phase a msg ;;
  _ <! cap_gate ;;
  r <! resolve_session a ;;
  let '(pane0, sessionResolved, stale) := r in
  _ <! session_stale_exit pane0 stale ;;
  pane <! drift_check pane0 sessionResolved msg ;;
  _ <! liveness_gate pane sessionResolved msg ;;
  _ <! dedupe pane msg ;;
  go pane.

Definition after_claim (a : Agent) (msg : Message) : M unit :=
  pane <! route a msg ;;
  _ <! gate_phase pane msg ;;
  _ <! pre_paste_safety pane msg ;;
  derr <! deliver_phase pane msg ;;
  delivered <! finish pane a msg derr ;;
  _ <! doorbell ;;
  pause (postDeliverDelay delivered (so_InterMessageDelay o) (so_PostDeliverCooldown o)).

Definition iteration : M unit :=
  a <! before_claim ;;
  msg <! claim ;;
  after_claim a msg.

(** The loop, for as many iterations as [n]: [Continue] is its next round. *)
Fixpoint serve_loop (n : nat) : M unit := fun sw st =>
  match n with
  | O => (Go tt, st)
  | S n' =>
      match iteration sw st with
      | (Go _, st') | (Continue, st') => serve_loop n' sw st'
      | r => r
      end
  end.

Definition runServeWithStore (n : nat) : M unit :=
  _ <! startup ;;
  _ <! update (fun _ => initial_vars o) ;;
  serve_loop n.
End Serve.
