(* ===== verification/ServeDemo.v ===== *)
(** * A concrete mailman

    A small world in which the definitions of the serve loop evaluate: two panes, one
    agent, one control message.  The theorems about the loop are instantiated on it. *)

From S2P Require Import Prelude GoStd Clock StoreTypes Priority Messages Queue Agents TmuxIO PaneState ObserveGate Deliver Throttle Mailman Respawn Serve.

Open Scope Z_scope.
Open Scope tell_scope.

Definition demo_screen : string := PromptSentinel +:+ nl_str.

(** Pane %1 answers queries with an idle prompt but refuses keys: it is gone by the
    time of the delivery; pane %2 takes anything. *)
Definition demo_tmux (lost : bool) (h : history) : string * option string :=
  match h with
  | EvRun _ ["display-message"; _; _; _; what] :: _ =>
      (if bool_decide (what = "#{pane_in_mode}") then "0" else "2/0", None)
  | EvRun _ ("capture-pane" :: _) :: _ => (demo_screen, None)
  | EvRun _ ("send-keys" :: "-t" :: "%1" :: _) :: _ =>
      if lost then ("can't find pane: %1", Some "exit status 1") else (EmptyString, None)
  | _ => (EmptyString, None)
  end.

Definition demo_world (lost : bool) : World :=
  mkWorld (demo_tmux lost) (fun _ => None) (fun _ => 0) (fun _ => None)
    (fun _ => Err (ErrMsg "none")) (fun _ => "buf") (fun s => s) (fun _ => false).

(** The agent's session, when asked for, is in %2; a name lookup finds %2, whose
    foreground process is a shell. *)
Definition demo_walker : Walker :=
  mkWalker (fun _ _ => Ok "%2") (fun _ _ _ => Ok ("bob", false)) (fun _ _ _ => Ok ("%1", false))
    (fun _ _ => Ok "%2") (fun _ pane => bool_decide (pane = "%1")) (fun _ _ => None).

Definition demo_env (lost : bool) (fault : history -> option error) : SWorld :=
  mkSWorld (demo_world lost) demo_walker (fun _ d => d) fault (fun _ _ => None) (fun _ => Qmake 0 1)
    (fun _ => inl "%1") (fun m _ _ => m_Body m) (fun _ => None).

Definition no_faults (h : history) : option error := None.

Definition demo_opts : serveOpts :=
  mkServeOpts "bob" 0 0 0 0 0 (mkGateOpts 0 0 (Qmake 1 1) 0 0 false false false) true true false false
    false true true EmptyString 512 0 10 3 0 EmptyString 0 1000 0 0 0 0 0 true StrategyMaxPriority 0
    true 5 0.

Definition demo_adapter : Profile := mkAdapter "tmux-tell-claude" Anthropic true None.
Definition demo_classifier : classifier := mkClassifier ClaudePaneProfile None None None.

Definition demo_agent (session : string) : Agent :=
  set_a_session_id session (new_agent "bob" (Some "%1") t0).

Definition demo_msg : Message :=
  mkMessage 1 "00aa" "alice" "bob" None "/cost" KindControl false false StateDelivering t0 None None
    None None None None false PriorityNormal false.

Definition demo_start : sstate := mkS empty_db (initial_vars demo_opts) [].

Definition demo_end (lost : bool) (fault : history -> option error) (session : string) : sstate :=
  snd (after_claim demo_opts demo_adapter (default_cfg ClaudePaneProfile) demo_classifier 5
         (demo_agent session) demo_msg (demo_env lost fault) demo_start).

(** A store with the agent registered in %1 and the message queued for it. *)
Definition demo_store : DB :=
  snd (InsertMessage (simple_params "alice" "bob" "/cost" (Some KindControl)) (entropy 170) (entropy 171) t0
         (snd (UpsertAgent "bob" "%1" t0 empty_db))).

Definition demo_rounds (n : nat) : flow unit * sstate :=
  runServeWithStore demo_opts demo_adapter (default_cfg ClaudePaneProfile) demo_classifier 5 n
    (demo_env false no_faults) (mkS demo_store (initial_vars demo_opts) []).

(** Two rounds: the message is claimed, typed into %1 and marked. *)
Example demo_delivers :
  map (fun m => (m_PublicID m, m_State m)) (db_messages (s_db (snd (demo_rounds 2))))
    = [("00aa", StateDelivered)].
Proof. vm_compute. reflexivity. Qed.
