(* ===== verification/ServeLogic.v ===== *)
(** * What each phase of the serve loop may do

    A phase is a computation of [M].  [acts P c]: in every environment whose other
    processes go through the store's operations, [c] changes the database by store
    operations only and adds events of [P] to the history.  The lemmas give this for
    each phase, with [P] the calm events (nothing typed into a pane) wherever the
    code does not deliver. *)

From S2P Require Import Prelude GoStd StoreTypes Priority Messages Queue Agents Lifecycle Invariants TmuxIO PaneState ObserveGate Deliver Throttle Mailman Respawn Serve.

Open Scope Z_scope.
Open Scope tell_scope.

(** Text put into a pane: a buffer pasted or keys sent literally. *)
Definition injects (ev : event) : bool :=
  match ev with
  | EvRun _ ("paste-buffer" :: _) => true
  | EvRun _ ["send-keys"; "-t"; _; "-l"; _] => true
  | _ => false
  end.

Definition calm (ev : event) : Prop := injects ev = false.

(** ** Terminal computations that inject nothing *)

Section Calm.
Context (P : event -> Prop) (Hcalm : forall ev, calm ev -> P ev).

Lemma calm_adds h h' : adds calm h h' -> adds P h h'.
Proof. by apply adds_mono. Qed.

Lemma calm_does {A} (c : T A) : does calm c -> does P c.
Proof. intros H w h. apply calm_adds, H. Qed.
End Calm.

Lemma gate_event_calm pane ev : gate_event pane ev -> calm ev.
Proof. destruct ev; simpl; try done. by intros [-> [-> | [-> | -> ]]]. Qed.

Lemma calm_agentState c pane : does calm (agentState c pane).
Proof. intros w h. eapply adds_mono; [apply gate_event_calm|]. apply gate_agentState. Qed.

Lemma calm_tmux_do what stdin args :
  calm (EvRun stdin args) -> does calm (tmux_do what stdin args).
Proof. intros H. apply does_bind; [by apply does_run|intros [out [e|]]; apply does_ret]. Qed.

Lemma calm_extract p pane : does calm (extractInputContent p pane).
Proof. intros w h. eapply adds_mono; [apply gate_event_calm|]. apply does_extract. Qed.

Lemma calm_presses n i total pane : does calm (clear_presses n i total pane).
Proof.
  revert i. induction n as [|n IH]; intros i; simpl; [apply does_ret|].
  apply does_bind; [by apply calm_tmux_do|intros [u|e]]; [apply IH|apply does_ret].
Qed.

Lemma calm_ClearInput pane n : does calm (ClearInput pane n).
Proof. unfold ClearInput. apply does_if; [apply does_ret|apply calm_presses]. Qed.

Lemma calm_token pane token : does calm (CheckTokenVisible pane token).
Proof. apply does_bind; [by apply does_run|intros [out [e|]]; apply does_ret]. Qed.

Lemma calm_stopped : does calm stopped.
Proof. apply does_bind; [apply does_read|intros e; apply does_ret]. Qed.

Lemma calm_stopOrSleep d : does calm (stopOrSleep d).
Proof.
  unfold stopOrSleep. apply does_if; [apply calm_stopped|].
  apply does_bind; [by apply does_wait|intros e; apply does_ret].
Qed.

Lemma calm_due last every : does calm (due last every).
Proof. apply does_bind; [by apply does_now|intros now; apply does_ret]. Qed.

Lemma calm_command pane : does calm (PaneCurrentCommand pane).
Proof.
  unfold PaneCurrentCommand. apply does_if; [apply does_ret|].
  apply does_bind; [by apply does_run|intros [out [e|]]; apply does_ret].
Qed.

Lemma calm_gate n c pane opts : does calm (ObserveGate n c pane opts).
Proof.
  unfold ObserveGate. apply does_if; [apply does_ret|]. cbv zeta.
  apply does_bind; [by apply does_now|intros started].
  intros w h. eapply adds_mono; [apply gate_event_calm|]. apply does_loop.
Qed.

Lemma calm_ping every last : does calm (maybe_ping every last).
Proof.
  unfold maybe_ping. apply does_if; [apply does_ret|].
  apply does_bind; [by apply does_now|intros now]. apply does_if; [|apply does_ret].
  apply does_bind; [by apply does_emit|intros _; by apply does_now].
Qed.

#[export] Hint Resolve calm_agentState calm_extract calm_ClearInput calm_token calm_stopped
  calm_stopOrSleep calm_due calm_command calm_gate calm_ping : iodb.

Lemma calm_stable n c pane dl pe pi db lp cons :
  does calm (stable_idle_loop n c pane dl pe pi db lp cons).
Proof.
  revert lp cons. induction n as [|n IH]; intros lp cons; simpl; [apply does_ret|].
  apply does_bind; [by apply does_ctx, calm_agentState|intros [[st ev] err]].
  apply does_if; [apply does_ret|].
  apply does_bind; [by apply does_now|intros now]. apply does_if; [apply does_ret|].
  apply does_bind; [by apply does_wait|intros [e|]]; [apply does_ret|].
  apply does_bind; [apply calm_ping|intros lp'; apply IH].
Qed.

Lemma calm_waitForStableIdle n c pane mw pe pi db : does calm (waitForStableIdle n c pane mw pe pi db).
Proof.
  unfold waitForStableIdle. apply does_if.
  - apply does_bind; [apply calm_stopped|intros b; apply does_ret].
  - apply does_bind; [by apply does_now|intros s]. apply does_bind; [by apply does_now|intros l].
    apply calm_stable.
Qed.

Lemma calm_await n pane dl : does calm (await_exit_loop n pane dl).
Proof.
  induction n as [|n IH]; simpl; [apply does_ret|].
  apply does_bind; [by apply does_ctx, calm_command|intros r]. apply does_if; [apply does_ret|].
  apply does_bind; [by apply does_now|intros now]. apply does_if; [apply does_ret|].
  apply does_bind; [by apply does_wait|intros [e|]]; [apply does_ret|].
  apply does_bind; [by apply does_emit|intros _; apply IH].
Qed.

Lemma calm_awaitAdapterExit n pane win : does calm (awaitAdapterExit n pane win).
Proof. apply does_bind; [by apply does_now|intros now; apply calm_await]. Qed.

Lemma calm_ready n c pane dl wp lp : does calm (wait_ready_loop n c pane dl wp lp).
Proof.
  revert lp. induction n as [|n IH]; intros lp; simpl; [apply does_ret|].
  apply does_bind; [by apply does_ctx, calm_agentState|intros [[st ev] err]].
  apply does_if; [apply does_ret|].
  apply does_bind; [by apply does_now|intros now]. apply does_if; [apply does_ret|].
  apply does_bind; [by apply does_wait|intros [e|]]; [apply does_ret|].
  apply does_bind; [apply calm_ping|intros lp'; apply IH].
Qed.

Lemma calm_respawnWaitReady n c pane wp : does calm (respawnWaitReady n c pane wp).
Proof.
  apply does_bind; [by apply does_now|intros s]. apply does_bind; [by apply does_now|intros l].
  apply calm_ready.
Qed.

#[export] Hint Resolve calm_waitForStableIdle calm_awaitAdapterExit calm_respawnWaitReady : iodb.

(** ** Computations of the machine *)

Section Acts.
Context (sw : SWorld) (Hothers : forall h d, store_steps d (sw_others sw h d)).
Context (P : event -> Prop) (Hcalm : forall ev, calm ev -> P ev).

Definition acts {A} (c : M A) : Prop := forall st,
  let st' := snd (c sw st) in
  store_steps (s_db st) (s_db st') /\ adds P (s_hist st) (s_hist st').

Lemma acts_here {A} (r : flow A) : acts (fun _ st => (r, st)).
Proof. intros st. split; [apply rtc_refl|apply adds_refl]. Qed.

Lemma acts_go {A} (a : A) : acts (go a). Proof. apply acts_here. Qed.
Lemma acts_continue {A} : acts (A := A) continue. Proof. apply acts_here. Qed.
Lemma acts_exit {A} code : acts (exit (A := A) code). Proof. apply acts_here. Qed.
Lemma acts_panic {A} : acts (A := A) panic. Proof. apply acts_here. Qed.
Lemma acts_skip : acts skip. Proof. apply acts_here. Qed.

Lemma acts_when b c : acts c -> acts (when b c).
Proof. intros H. destruct b; [done|apply acts_here]. Qed.

Lemma acts_andthen {A B} (c : M A) (k : A -> M B) :
  acts c -> (forall a, acts (k a)) -> acts (andthen c k).
Proof.
  intros Hc Hk st. specialize (Hc st). unfold andthen.
  destruct (c sw st) as [[a| |code| |] st']; simpl in *; try done.
  destruct Hc as [Hd Hh], (Hk a st') as [Hd' Hh']. split; [by etrans|by eapply adds_trans].
Qed.

Lemma acts_lift {A} (c : T A) : does P c -> acts (lift c).
Proof.
  intros Hc st. specialize (Hc (sw_io sw) (s_hist st)). unfold lift.
  destruct (c _ _) as [a h]. split; [apply rtc_refl|exact Hc].
Qed.

Lemma acts_ask {A} what (f : SWorld -> history -> A) : acts (ask what f).
Proof. intros st. split; [apply rtc_refl|]. apply adds_cons. by apply Hcalm. Qed.

Lemma acts_access {A} what (op : SWorld -> history -> string -> DB -> result A * DB) :
  (forall h now d, store_steps d (snd (op sw h now d))) -> acts (access what op).
Proof.
  intros Hop st. unfold access. cbv zeta. split.
  - destruct (sw_fault sw _); simpl; [apply Hothers|].
    specialize (Hop (EvCall what :: s_hist st) (Time.formatISO (w_clock (sw_io sw) (EvCall what :: s_hist st)))
                  (sw_others sw (EvCall what :: s_hist st) (s_db st))).
    destruct (op _ _ _ _) as [r d']. simpl in *. etrans; [apply Hothers|exact Hop].
  - assert (adds P (s_hist st) (EvCall what :: s_hist st)) by (apply adds_cons; by apply Hcalm).
    destruct (sw_fault sw _); [done|]. by destruct (op _ _ _ _).
Qed.

Lemma acts_store {A} what (op : string -> DB -> result A * DB) :
  (forall now d, store_step d (snd (op now d))) -> acts (store what op).
Proof. intros H. apply acts_access. intros h now d. apply rtc_once, H. Qed.

Lemma acts_store_ok {A} what (op : string -> DB -> A * DB) :
  (forall now d, store_step d (snd (op now d))) -> acts (store_ok what op).
Proof.
  intros H. apply acts_access. intros h now d. specialize (H now d).
  destruct (op now d) as [a d']. by apply rtc_once.
Qed.

Lemma acts_store_get {A} what (f : DB -> result A) : acts (store what (fun _ d => (f d, d))).
Proof. apply acts_access. intros h now d. apply rtc_refl. Qed.

Lemma acts_read {A} what (f : DB -> A) : acts (store_read what f).
Proof. apply acts_access. intros h now d. apply rtc_refl. Qed.

Lemma acts_notice p : acts (insert_notice p).
Proof. apply acts_access. intros h now d. apply rtc_once, step_InsertNotice. Qed.

Lemma acts_update f : acts (update f).
Proof. intros st. split; [apply rtc_refl|apply adds_refl]. Qed.

Lemma acts_vars : acts vars.
Proof. intros st. split; [apply rtc_refl|apply adds_refl]. Qed.

Lemma acts_if {A} (b : bool) (c1 c2 : M A) : acts c1 -> acts c2 -> acts (if b then c1 else c2).
Proof. by destruct b. Qed.

Lemma acts_lift_fuel {A} (c : T (option A)) : does P c -> acts (lift_fuel c).
Proof. intros H. apply acts_andthen; [by apply acts_lift|intros [a|]; apply acts_here]. Qed.
End Acts.

#[export] Hint Resolve acts_go acts_continue acts_exit acts_panic acts_skip acts_ask acts_store_get acts_read acts_notice acts_update acts_vars : actdb.
#[export] Hint Constructors store_step : storedb.

Ltac calm_leaf :=
  first
    [ solve [auto with iodb nocore]
    | solve [by apply does_now]
    | solve [by apply does_emit]
    | unfold op_timeout, background, with_timeout; repeat apply does_ctx;
      solve [auto with iodb nocore] ].

(** Decompose a phase, bind by bind and branch by branch. *)
Ltac acts_leaf :=
  first
    [ assumption
    | solve [auto with actdb nocore]
    | solve [apply acts_store_get; assumption]
    | solve [apply acts_store; [assumption|assumption|intros; cbv beta; auto with storedb nocore]]
    | solve [apply acts_store_ok;
             [assumption|assumption|intros; cbv beta; cbn [snd]; auto with storedb nocore]]
    | solve [apply acts_lift_fuel; apply calm_does; [assumption|]; calm_leaf]
    | solve [apply acts_lift; apply calm_does; [assumption|]; calm_leaf] ].

Ltac acts_tac :=
  repeat (cbv beta zeta;
    first
      [ acts_leaf
      | apply acts_andthen; [|intros ?]
      | apply acts_if
      | apply acts_when
      | match goal with |- acts _ _ (match ?x with _ => _ end) => destruct x end ]).

(** ** The phases that inject nothing *)

Section CalmPhases.
Context (sw : SWorld) (Hothers : forall h d, store_steps d (sw_others sw h d)).
Context (P : event -> Prop) (Hcalm : forall ev, calm ev -> P ev).
Context (o : serveOpts) (active : Profile) (cfg : DeliverCfg) (cls : classifier) (fuel : nat).

Notation acts := (acts sw P).

Lemma acts_stop : acts (lift stopped). Proof. acts_tac. Qed.
Lemma acts_pause d : acts (pause d). Proof. unfold pause. acts_tac. Qed.
Lemma acts_retry {A} d : acts (retry_after (A := A) d).
Proof. unfold retry_after. apply acts_andthen; [apply acts_pause|intros _; apply acts_here]. Qed.
Lemma acts_now : acts (lift time_Now).
Proof. apply acts_lift, calm_does; [done|]. by apply does_now. Qed.
Lemma acts_emit ev : calm ev -> acts (lift (emit ev)).
Proof. intros H. apply acts_lift, calm_does; [done|]. by apply does_emit. Qed.

Hint Resolve acts_stop acts_pause acts_retry acts_now acts_emit : actdb.

Lemma acts_probe pane : acts (probe cls pane). Proof. unfold probe. acts_tac. Qed.
Lemma acts_recover : acts (recover o). Proof. unfold recover. acts_tac. Qed.
Lemma acts_mark_failed msg reason : acts (mark_failed msg reason).
Proof. unfold mark_failed. acts_tac. Qed.
Lemma acts_mark_delivered msg : acts (mark_delivered msg).
Proof. unfold mark_delivered. acts_tac. Qed.
Lemma acts_failure_notice b this msg k r : acts (maybeInsertFailureNotice b this msg k r).
Proof. unfold maybeInsertFailureNotice. acts_tac. Qed.
Hint Resolve acts_probe acts_recover acts_mark_failed acts_mark_delivered acts_failure_notice : actdb.

Lemma acts_fail {A} msg reason : acts (fail_and_notify o (A := A) msg reason).
Proof. unfold fail_and_notify. acts_tac. Qed.
Lemma acts_dedupe_notice this m id : acts (insertDedupeNotice this m id).
Proof. unfold insertDedupeNotice. acts_tac. Qed.
Lemma acts_stuck_notice self c at_ age st err : acts (sendStuckChamberNotice self c at_ age st err).
Proof. unfold sendStuckChamberNotice. acts_tac. Qed.
Hint Resolve acts_fail acts_dedupe_notice acts_stuck_notice : actdb.

Lemma acts_startup : acts (startup o active).
Proof. unfold startup, start_agent. acts_tac. Qed.

Lemma acts_loop_top : acts (loop_top o).
Proof. unfold loop_top. acts_tac. Qed.

Lemma acts_read_agent : acts (read_agent o). Proof. unfold read_agent. acts_tac. Qed.

Lemma acts_freshness a : acts (freshness_check o cls a).
Proof. unfold freshness_check, freshness_alert. acts_tac. Qed.

Lemma acts_resume_promote a : acts (resume_promote o a).
Proof. unfold resume_promote. acts_tac. Qed.

Lemma acts_clear_rate : acts clearRateLimitState.
Proof. unfold clearRateLimitState. acts_tac. Qed.
Lemma acts_clear_usage : acts clearUsageLimitState. Proof. apply acts_update. Qed.
Hint Resolve acts_clear_rate acts_clear_usage : actdb.

Lemma acts_claim : acts (claim o). Proof. unfold claim, stopSleepOrNotify. acts_tac. Qed.

Lemma acts_doorbell : acts doorbell. Proof. by apply acts_emit. Qed.
Hint Resolve acts_doorbell : actdb.

Lemma acts_ping_phase a msg : acts (ping_phase o active a msg).
Proof. unfold ping_phase. apply acts_when. unfold handlePing, pingHealthy. acts_tac. Qed.

Lemma acts_cap_gate : acts (cap_gate o active).
Proof. unfold cap_gate. apply acts_when. acts_tac. Qed.

Lemma acts_heal_to pane p2 : acts (heal_to o pane p2). Proof. unfold heal_to. acts_tac. Qed.
Hint Resolve acts_heal_to : actdb.

Lemma acts_resolve a : acts (resolve_session o a). Proof. unfold resolve_session. acts_tac. Qed.

Lemma acts_stale_exit pane b : acts (session_stale_exit o cls pane b).
Proof. unfold session_stale_exit. acts_tac. Qed.

Lemma acts_canonicals : acts buildCanonicals. Proof. unfold buildCanonicals. acts_tac. Qed.
Lemma acts_lookup cs : acts (lookup_name o cs). Proof. unfold lookup_name. acts_tac. Qed.
Hint Resolve acts_canonicals acts_lookup : actdb.

Lemma acts_elsewhere pane cs : acts (drift_elsewhere o pane cs).
Proof. unfold drift_elsewhere. acts_tac. Qed.
Lemma acts_bare pane cs : acts (drift_bare o pane cs). Proof. unfold drift_bare. acts_tac. Qed.
Hint Resolve acts_elsewhere acts_bare : actdb.

Lemma acts_drift pane b msg : acts (drift_check o pane b msg).
Proof. unfold drift_check, drift_verdict_of. acts_tac. Qed.

Lemma acts_liveness pane b msg : acts (liveness_gate o pane b msg).
Proof. unfold liveness_gate. acts_tac. Qed.

Lemma acts_dedupe pane msg : acts (dedupe o pane msg).
Proof. unfold dedupe, dedupe_absorb. acts_tac. Qed.

Lemma acts_wake sample base prio : acts (wake_delay o active sample base prio).
Proof. unfold wake_delay. acts_tac. Qed.
Hint Resolve acts_wake : actdb.

Lemma acts_gate_error msg out e : acts (gate_error o active msg out e).
Proof. unfold gate_error, gate_usage_limited, gate_rate_limited. acts_tac. Qed.
Hint Resolve acts_gate_error : actdb.

Lemma acts_stranded pane msg out : acts (stranded_draft o active cfg pane msg out).
Proof. unfold stranded_draft, clear_draft, archiveStrandedDraft, ExtractInputContent. acts_tac. Qed.
Hint Resolve acts_stranded : actdb.

Lemma acts_gate pane msg : acts (gate_phase o active cfg cls fuel pane msg).
Proof. unfold gate_phase, with_timeout. acts_tac. Qed.

Lemma acts_pane_not_found {A} msg : acts (pane_not_found o (A := A) msg).
Proof. unfold pane_not_found. acts_tac. Qed.
Hint Resolve acts_pane_not_found : actdb.

Lemma acts_safety pane msg : acts (pre_paste_safety o cls pane msg).
Proof. unfold pre_paste_safety. acts_tac. Qed.

Lemma acts_consume : acts consume_settle. Proof. unfold consume_settle. acts_tac. Qed.

Lemma acts_rendered msg : acts (rendered o msg). Proof. unfold rendered. acts_tac. Qed.

Lemma acts_promote msg : acts (promote_after_reset o msg).
Proof. unfold promote_after_reset. apply acts_when. acts_tac. Qed.

Hint Resolve acts_ping_phase acts_cap_gate acts_resolve acts_stale_exit acts_drift acts_liveness
  acts_dedupe : actdb.

Lemma acts_route a msg : acts (route o active cls a msg).
Proof. unfold route. acts_tac. Qed.
End CalmPhases.

(** ** The phases that may inject *)

Definition anything (ev : event) : Prop := True.

(** The pane an event injects text into. *)
Definition target (ev : event) : option string :=
  match ev with
  | EvRun _ ["paste-buffer"; _; _; _; _; _; pane; _] => Some pane
  | EvRun _ ["send-keys"; "-t"; pane; "-l"; _] => Some pane
  | _ => None
  end.

(** Whatever the event injects goes into a pane of [Q]. *)
Definition typed_into (Q : string -> Prop) (ev : event) : Prop :=
  injects ev = true -> exists pane, target ev = Some pane /\ Q pane.

Section Typed.
Context (Q : string -> Prop).

Lemma calm_typed ev : calm ev -> typed_into Q ev.
Proof. unfold calm, typed_into. by intros ->. Qed.

Lemma typed_of {A} (c : T A) : does calm c -> does (typed_into Q) c.
Proof. apply calm_does, calm_typed. Qed.

Lemma typed_tmux_do what stdin args :
  typed_into Q (EvRun stdin args) -> does (typed_into Q) (tmux_do what stdin args).
Proof. intros H. apply does_bind; [by apply does_run|intros [out [e|]]; apply does_ret]. Qed.

Lemma typed_SendKeys pane text : Q pane -> does (typed_into Q) (SendKeys pane text).
Proof.
  intros HQ. unfold SendKeys. repeat (apply does_if; [apply does_ret|]).
  apply does_bind; [apply typed_tmux_do; intros _; by exists pane|intros [u|e]]; [|apply does_ret].
  apply typed_tmux_do. by apply calm_typed.
Qed.

Lemma typed_pasteChunk pane body : Q pane -> does (typed_into Q) (pasteChunk pane body).
Proof.
  intros HQ. apply does_bind; [apply does_read|intros buf].
  apply does_bind; [by apply typed_tmux_do, calm_typed|intros [u|e]]; [|apply does_ret].
  apply does_bind; [apply does_run; intros _; by exists pane|intros [out [e|]]]; [|apply does_ret].
  apply does_bind; [by apply does_run, calm_typed|intros r; apply does_ret].
Qed.

(** Outside the paste a delivery only presses Enter and looks. *)
Lemma calm_cursor pane : does calm (agentCursor pane).
Proof. apply does_bind; [by apply does_run|intros [out [e|]]; apply does_ret]. Qed.

Lemma calm_pre_paste p pane : does calm (pre_paste p pane).
Proof.
  apply does_bind; [by apply does_run|intros [pre [e|]]]; [apply does_ret|]. apply does_if.
  - apply does_bind; [by apply calm_tmux_do|intros d; apply does_ret].
  - apply does_bind; [apply calm_cursor|intros c]. destruct (inputRowCleared _ _ _). apply does_ret.
Qed.

Lemma calm_attempt cfg dp started attempt v : does calm (verify_attempt cfg dp started attempt v).
Proof.
  unfold verify_attempt. apply does_bind.
  { destruct attempt; [apply does_ret|]. destruct (retry_delay _ _); [|apply does_ret].
    apply does_bind; [by apply does_wait|intros c; apply does_ret]. }
  intros [[]|e]; try apply does_ret.
  apply does_bind; [by apply does_run|intros [cap [e|]]]; [apply does_ret|].
  apply does_bind; [unfold emit_if; apply does_if; [by apply does_emit|apply does_ret]|intros _].
  apply does_bind; [apply calm_cursor|intros c]. unfold verify_judge. cbv zeta. apply does_if.
  - apply does_bind; [|intros _; apply does_ret]. apply does_if; [|apply does_ret].
    apply does_bind; [by apply does_now|intros now; by apply does_emit].
  - apply does_bind; [apply does_if; [by apply calm_tmux_do|apply does_ret]|intros d; apply does_ret].
Qed.

Lemma calm_loop n attempt cfg dp started v : does calm (verify_loop n attempt cfg dp started v).
Proof.
  revert attempt v. induction n as [|n IH]; intros attempt v; simpl; [apply does_ret|].
  apply does_bind; [apply calm_attempt|intros [r|v'|v']]; try apply does_ret. apply IH.
Qed.

Lemma calm_verify cfg dp : does calm (verify cfg dp).
Proof.
  apply does_bind; [by apply does_now|intros started].
  apply does_bind; [apply calm_loop|intros [r|v]]; [apply does_ret|].
  apply does_bind.
  { apply does_if; [|apply does_ret]. apply does_bind; [by apply does_run|intros r; apply does_ret]. }
  intros _. apply does_bind; [|intros _; apply does_ret]. apply does_if; [|apply does_ret].
  apply does_bind; [by apply does_now|intros now; by apply does_emit].
Qed.

Lemma typed_Deliver cfg dp : Q (dp_Pane dp) -> does (typed_into Q) (Deliver cfg dp).
Proof.
  intros HQ. unfold Deliver. repeat (apply does_if; [apply does_ret|]).
  apply does_bind.
  { apply does_if; [|apply does_ret]. apply typed_of, calm_pre_paste. }
  intros [e|]; [apply does_ret|]. apply does_bind.
  - unfold paste_and_submit. apply does_bind; [by apply typed_pasteChunk|intros [u|e]]; [|apply does_ret].
    apply does_bind.
    { apply does_if; [|apply does_ret]. by apply does_wait, calm_typed. }
    intros [e|]; [apply does_ret|]. by apply typed_tmux_do, calm_typed.
  - intros [u|e]; [|apply does_ret]. apply does_if; [apply does_ret|]. apply typed_of, calm_verify.
Qed.

Lemma typed_deliverOne active cfg pane msg settle body :
  Q pane -> does (typed_into Q) (deliverOne active cfg pane msg settle body).
Proof.
  intros HQ. unfold deliverOne. apply does_if; [|by apply typed_Deliver].
  apply does_if; [by apply typed_SendKeys|apply does_ret].
Qed.
End Typed.

Section TypedPhases.
Context (sw : SWorld) (Hothers : forall h d, store_steps d (sw_others sw h d)).
Context (o : serveOpts) (active : Profile) (cfg : DeliverCfg) (cls : classifier) (fuel : nat).
Context (Q : string -> Prop).

Notation acts := (acts sw (typed_into Q)).

Let Hcalm : forall ev, calm ev -> typed_into Q ev := calm_typed Q.

Lemma acts_ask_then {A B} what (f : SWorld -> history -> A) (k : A -> M B) :
  (forall h, acts (k (f sw h))) -> acts (andthen (ask what f) k).
Proof.
  intros H st. unfold andthen, ask. cbv zeta.
  destruct (H (EvCall what :: s_hist st) (mkS (s_db st) (s_vars st) (EvCall what :: s_hist st))) as [Hd Hh].
  simpl in *. split; [exact Hd|]. eapply adds_trans; [|exact Hh]. apply adds_cons. by apply Hcalm.
Qed.

Hint Resolve acts_pause acts_retry acts_now
  acts_probe acts_recover acts_mark_failed acts_mark_delivered acts_failure_notice acts_stop
  acts_loop_top acts_read_agent acts_freshness acts_resume_promote acts_claim acts_doorbell
  acts_route acts_gate acts_safety acts_consume acts_rendered acts_promote : actdb.

Lemma acts_send pane text : Q pane -> acts (lift (SendKeys pane text)).
Proof. intros H. by apply acts_lift, typed_SendKeys. Qed.
Lemma acts_send_timeout pane text : Q pane -> acts (lift (op_timeout (SendKeys pane text))).
Proof. intros H. apply acts_lift. do 2 apply does_ctx. by apply typed_SendKeys. Qed.
Lemma acts_deliverOne pane msg settle body :
  Q pane -> acts (lift (op_timeout (deliverOne active cfg pane msg settle body))).
Proof. intros H. apply acts_lift. do 2 apply does_ctx. by apply typed_deliverOne. Qed.
Hint Resolve acts_send acts_send_timeout acts_deliverOne : actdb.

Lemma acts_relaunch agent wp pane cmd win :
  Q pane -> acts (relaunchAfterExit fuel cls agent wp pane cmd win).
Proof. intros HQ. unfold relaunchAfterExit. acts_tac. Qed.
Hint Resolve acts_relaunch : actdb.

Lemma acts_respawn agent wp pane cmd : Q pane -> acts (respawnChamber fuel cls agent wp pane cmd).
Proof. intros HQ. unfold respawnChamber, with_timeout. acts_tac. Qed.
Hint Resolve acts_respawn : actdb.

Lemma acts_respawn_if pane cmd n m : Q pane -> acts (respawn_if_reached o cls fuel pane cmd n m).
Proof. intros HQ. unfold respawn_if_reached, respawnIfThresholdReached. acts_tac. Qed.
Hint Resolve acts_respawn_if : actdb.

Lemma acts_self_compact a : Q (PaneID a) -> acts (self_compact o cls fuel a).
Proof. intros HQ. unfold self_compact. acts_tac. Qed.

Lemma acts_self_observe a : Q (PaneID a) -> acts (self_observe o active cls a).
Proof. intros HQ. unfold self_observe, maybeAutoClearMetabolism, maybeAutoResumeRateLimited. acts_tac. Qed.

Lemma acts_deliver_to pane msg b : Q pane -> acts (deliver_to o active cfg pane msg b).
Proof. intros HQ. unfold deliver_to. acts_tac. Qed.
Hint Resolve acts_deliver_to acts_self_compact acts_self_observe : actdb.

Lemma acts_settle pane a msg : Q pane -> acts (settle_after_reset o cls fuel pane a msg).
Proof. intros HQ. unfold settle_after_reset. acts_tac. Qed.

Lemma acts_count_clear pane a msg : Q pane -> acts (count_clear o cls fuel pane a msg).
Proof. intros HQ. unfold count_clear. acts_tac. Qed.
Hint Resolve acts_settle acts_count_clear : actdb.

Lemma acts_finish pane a msg r : Q pane -> acts (finish o cls fuel pane a msg r).
Proof. intros HQ. unfold finish. acts_tac. Qed.
Hint Resolve acts_finish : actdb.

(** A delivery types into its pane, or into the one the walker names when the pane
    is gone. *)
Section Healing.
Context (Hheal : forall h p, LookupByName (sw_walker sw) h (so_Agent o) = Ok p -> Q p).

Lemma acts_auto_heal pane msg b r : Q pane -> acts (auto_heal o active cfg pane msg b r).
Proof.
  intros HQ. unfold auto_heal. destruct r as [u|e]; [apply acts_go|].
  destruct (isCantFindPaneError e); [|apply acts_go]. simpl negb. cbv iota.
  apply acts_ask_then. intros h. destruct (LookupByName _ h _) as [p|] eqn:E; [|apply acts_go].
  apply Hheal in E. acts_tac.
Qed.
Hint Resolve acts_auto_heal : actdb.

Lemma acts_deliver_phase pane msg : Q pane -> acts (deliver_phase o active cfg pane msg).
Proof. intros HQ. unfold deliver_phase. acts_tac. Qed.
End Healing.
End TypedPhases.

(** ** The whole loop *)

Section Loop.
Context (sw : SWorld) (Hothers : forall h d, store_steps d (sw_others sw h d)).
Context (o : serveOpts) (active : Profile) (cfg : DeliverCfg) (cls : classifier) (fuel : nat).

Definition anywhere (pane : string) : Prop := True.

Notation acts := (acts sw (typed_into anywhere)).

Let Hcalm : forall ev, calm ev -> typed_into anywhere ev := calm_typed anywhere.

Lemma somewhere pane : anywhere pane.
Proof. done. Qed.

Hint Resolve somewhere acts_pause acts_loop_top acts_read_agent acts_freshness acts_resume_promote
  acts_claim acts_doorbell acts_route acts_gate acts_safety acts_self_observe acts_self_compact
  acts_deliver_phase acts_finish : actdb.

Lemma acts_after_claim a msg : acts (after_claim o active cfg cls fuel a msg).
Proof. unfold after_claim. acts_tac. Qed.

Lemma acts_iteration : acts (iteration o active cfg cls fuel).
Proof. unfold iteration, before_claim. acts_tac. Qed.

Lemma acts_serve_loop n : acts (serve_loop o active cfg cls fuel n).
Proof.
  induction n as [|n IH]; intros st; simpl;
    [split; [apply rtc_refl|apply adds_refl]|].
  pose proof (acts_iteration st) as Hi. cbv zeta in Hi.
  destruct (iteration o active cfg cls fuel sw st) as [[u| |c| |] st'];
    cbn [snd] in Hi; try exact Hi;
    destruct Hi as [H1 H2], (IH st') as [H3 H4]; (split; [by etrans|by eapply adds_trans]).
Qed.

Lemma acts_run n : acts (runServeWithStore o active cfg cls fuel n).
Proof.
  unfold runServeWithStore. apply acts_andthen; [by apply acts_startup|intros _].
  apply acts_andthen; [apply acts_update|intros _]. apply acts_serve_loop.
Qed.
End Loop.
