(* ===== verification/RespawnProps.v ===== *)
(** * The post-reset stability wait

    [waitForStableIdle] settles only on a run of idle polls and always answers within
    its ceiling. *)

From S2P Require Import Prelude GoStd StoreTypes TmuxIO PaneState ObserveGate Throttle Mailman Respawn Serve ServeDemo ServeLogic.

Open Scope Z_scope.
Open Scope tell_scope.

Section Stable.
Context (w : World) (c : classifier) (pane : string).

(** One poll of the pane that found it idle. *)
Definition idle_poll (h h' : history) : Prop :=
  exists ev, with_timeout (agentState c pane) w h = ((PIdle, ev, None), h').

(** Between two polls the loop only waits. *)
Definition waiting (ev : event) : Prop :=
  match ev with EvSleep _ | EvNow | EvPing => True | _ => False end.

(** [n] consecutive polls, the last ending at the second history, all idle. *)
Inductive idle_streak : Z -> history -> history -> Prop :=
  | streak_one h h' : idle_poll h h' -> idle_streak 1 h h'
  | streak_more n h0 h1 h2 h3 :
      idle_streak n h0 h1 -> adds waiting h1 h2 -> idle_poll h2 h3 -> idle_streak (n + 1) h0 h3.

Lemma waiting_ping every last : does waiting (maybe_ping every last).
Proof.
  unfold maybe_ping. apply does_if; [apply does_ret|].
  apply does_bind; [by apply does_now|intros now]. apply does_if; [|apply does_ret].
  apply does_bind; [by apply does_emit|intros _; by apply does_now].
Qed.

Lemma probe_grows h r h' :
  with_timeout (agentState c pane) w h = (r, h') -> adds calm h h'.
Proof.
  intros E. pose proof (does_ctx calm late_ctx _ (calm_agentState c pane) w h) as H. cbv beta in H.
  unfold with_timeout in E. by rewrite E in H.
Qed.

(** Where the loop stands at its head, its last poll ending at [h1]. *)
Definition streak_at (n : Z) (h0 h1 : history) : Prop :=
  n = 0 \/ 0 < n /\ exists hs, adds anything h0 hs /\ idle_streak n hs h1.

Lemma any_adds P h h' : adds P h h' -> adds anything h h'.
Proof. by apply adds_mono. Qed.

Lemma poll_step h0 n h1 h2 state ev err h3 :
  streak_at n h0 h1 -> adds anything h0 h1 -> adds waiting h1 h2 ->
  with_timeout (agentState c pane) w h2 = ((state, ev, err), h3) ->
  streak_at (if bool_decide (err = None) && bool_decide (state = PIdle) then n + 1 else 0) h0 h3.
Proof.
  intros Hn H01 H12 E. destruct (_ && _) eqn:Eb; [|by left]. bsimp. subst.
  assert (Hp : idle_poll h2 h3) by (by exists ev).
  destruct Hn as [->|(Hpos & hs & Hs & Hst)].
  - right. split; [lia|]. exists h2. split; [|by apply streak_one].
    eapply adds_trans; [exact H01|by eapply any_adds].
  - right. split; [lia|]. exists hs. split; [done|]. by eapply streak_more.
Qed.

(** The loop's steps, run. *)
Lemma run_bind {A B} (m : T A) (k : A -> T B) h :
  bind m k w h = (let (a, h') := m w h in k a w h').
Proof. done. Qed.

Lemma run_now {B} (k : Z -> T B) h : bind time_Now k w h = k (w_clock w (EvNow :: h)) w (EvNow :: h).
Proof. done. Qed.

Lemma run_wait {B} d (k : option error -> T B) h :
  bind (wait d) k w h = k (option_map context_error (w_ctx w (EvSleep d :: h))) w (EvSleep d :: h).
Proof. done. Qed.

(** What follows a poll that did not settle: the deadline, a sleep, a ping. *)
Lemma stable_rest (P : option (bool * bool) * history -> Prop) deadline pe pi lp k h2 :
  let ht := EvNow :: h2 in
  (deadline <= w_clock w ht -> P (Some (false, false), ht)) ->
  P (Some (false, true), EvSleep pe :: ht) ->
  (w_clock w ht < deadline -> forall lp' h3, adds waiting (EvSleep pe :: ht) h3 -> P (k lp' w h3)) ->
  P ((now <~ time_Now ;;
      if deadline <=? now then ret (Some (false, false))
      else stop <~ wait pe ;;
           match stop with
           | Some _ => ret (Some (false, true))
           | None => lp' <~ maybe_ping pi lp ;; k lp'
           end) w h2).
Proof.
  intros ht Hd Hs Hk. rewrite run_now. fold ht.
  destruct (Z.leb_spec deadline (w_clock w ht)) as [Hle|Hlt]; [by apply Hd|].
  rewrite run_wait. destruct (w_ctx w _); simpl; [exact Hs|]. rewrite run_bind.
  pose proof (waiting_ping pi lp w (EvSleep pe :: ht)) as Hp.
  destruct (maybe_ping pi lp w _) as [lp' h3]. by apply Hk.
Qed.

Lemma stable_loop_sound n : forall deadline pe pi db lp cons h0 h1 h,
  0 < db -> streak_at cons h0 h1 -> adds anything h0 h1 -> adds waiting h1 h ->
  let (r, h') := stable_idle_loop n c pane deadline pe pi db lp cons w h in
  forall stop, r = Some (true, stop) -> stop = false /\
    exists k hs, db <= k /\ adds anything h0 hs /\ idle_streak k hs h'.
Proof.
  induction n as [|n IH]; intros deadline pe pi db lp cons h0 h1 h Hdb Hn H01 H1; [done|].
  cbn [stable_idle_loop]. rewrite run_bind.
  destruct (with_timeout (agentState c pane) w h) as [[[state ev] err] h2] eqn:E.
  pose proof (poll_step h0 cons h1 h state ev err h2 Hn H01 H1 E) as Hn'.
  assert (H02 : adds anything h0 h2).
  { eapply adds_trans; [exact H01|]. eapply adds_trans; [by eapply any_adds|].
    eapply any_adds, probe_grows, E. }
  cbv beta iota zeta. destruct (_ && (db <=? _)) eqn:Ei.
  - bsimp. intros stop [= <-]. split; [done|]. subst; simpl in *.
    destruct Hn' as [?|(_ & hs & Hs & Hst)]; [lia|]. by exists (cons + 1), hs.
  - apply (stable_rest (fun x => let (r, h') := x in _)); [by intros _ stop [=]|by intros stop [=]|].
    intros _ lp' h3 Hp. eapply IH; [done|exact Hn'|done|].
    eapply adds_trans; [|exact Hp]. exists [EvSleep pe; EvNow]. split; [done|]. by repeat constructor.
Qed.

(** Each round sleeps one poll interval, so the deadline comes. *)
Lemma stable_loop_total n : forall deadline pe pi db lp cons h,
  steady_clock w -> 0 < pe -> deadline <= w_clock w h + Z.of_nat n * pe ->
  fst (stable_idle_loop (S n) c pane deadline pe pi db lp cons w h) <> None.
Proof.
  induction n as [|n IH]; intros deadline pe pi db lp cons h Hw Hpe Hd;
    cbn [stable_idle_loop]; rewrite run_bind;
    destruct (with_timeout (agentState c pane) w h) as [[[state ev] err] h2] eqn:E;
    apply probe_grows, (adds_clock w _ _ _ Hw) in E; pose proof (sc_mono w Hw EvNow h2);
    cbv beta iota zeta; (destruct (_ && (db <=? _)); [done|]);
    apply (stable_rest (fun x => fst x <> None)); try done; intros Hlt lp' h3 Hp.
  - lia.
  - apply (adds_clock w _ _ _ Hw) in Hp. pose proof (sc_sleep w Hw pe (EvNow :: h2)).
    apply IH; try done. lia.
Qed.
End Stable.

(** Enough polls for a ceiling. *)
Definition poll_fuel (maxWait pollEvery : Z) : nat := S (S (Z.to_nat (maxWait / pollEvery))).

(** The wait after a compaction or a clear.  With a well-behaved clock it answers
    within the ceiling's number of polls; and it reports the pane settled only after
    [debounce] consecutive polls, nothing but waiting between them, each of which
    found the pane idle. *)
Theorem stable_idle_correct w c pane maxWait pollEvery pingEvery debounce h :
  steady_clock w -> 0 < pollEvery ->
  let (r, h') := waitForStableIdle (poll_fuel maxWait pollEvery) c pane maxWait pollEvery pingEvery
                   debounce w h in
  r <> None /\
  (forall stop, r = Some (true, stop) ->
     stop = false /\ 0 < debounce /\
     exists k hs, debounce <= k /\ adds anything h hs /\ idle_streak w c pane k hs h').
Proof.
  intros Hw Hpe. unfold waitForStableIdle.
  destruct ((maxWait <=? 0) || (debounce <=? 0)) eqn:E.
  { unfold bind, stopped, ctx_Err, bind, ret. destruct (w_ctx w h); (split; [done|]); by intros stop [=]. }
  bsimp. unfold bind, time_Now. set (h1 := EvNow :: EvNow :: h).
  set (dl := w_clock w (EvNow :: h) + maxWait). set (lp := w_clock w h1).
  pose proof (stable_loop_sound w c pane (poll_fuel maxWait pollEvery) dl pollEvery pingEvery debounce
    lp 0 h h1 h1 ltac:(lia) (or_introl eq_refl)) as Hs.
  pose proof (stable_loop_total w c pane (S (Z.to_nat (maxWait / pollEvery))) dl pollEvery pingEvery
    debounce lp 0 h1 Hw Hpe) as Ht.
  fold (poll_fuel maxWait pollEvery) in Ht.
  destruct (stable_idle_loop _ _ _ _ _ _ _ _ _ w h1) as [r h'].
  split.
  - apply Ht. pose proof (sc_mono w Hw EvNow (EvNow :: h)). fold h1 in H.
    rewrite Nat2Z.inj_succ, Z2Nat.id by (apply Z.div_pos; lia).
    pose proof (Z.mul_succ_div_gt maxWait pollEvery Hpe). subst dl lp h1. lia.
  - intros stop Hr.
    destruct (Hs ltac:(exists [EvNow; EvNow]; split; [done|]; by repeat constructor)
                 (adds_refl _ _) stop Hr) as (H2 & k & hs & Hk & H3 & H4).
    split; [done|]. split; [lia|]. eauto.
Qed.

(** Time passes: one unit per command and the slept time. *)
Fixpoint elapsed (h : history) : Z :=
  match h with
  | [] => 0
  | EvSleep d :: h' => Z.max 0 d + elapsed h'
  | EvRun _ _ :: h' => 1 + elapsed h'
  | _ :: h' => elapsed h'
  end.

Definition ticking_world : World :=
  mkWorld (demo_tmux false) (fun _ => None) elapsed (fun _ => None)
    (fun _ => Err (ErrMsg "none")) (fun _ => "buf") (fun s => s) (fun _ => false).

Lemma ticking_steady : steady_clock ticking_world.
Proof. constructor; simpl; intros; [destruct ev; lia|lia|lia]. Qed.

Lemma stable_idle_correct_witness :
  exists k hs h', 2 <= k /\
    fst (waitForStableIdle (poll_fuel (5 * Time.Second) postCompactPollEvery) demo_classifier "%2"
      (5 * Time.Second) postCompactPollEvery 0 2 ticking_world []) = Some (true, false) /\
    idle_streak ticking_world demo_classifier "%2" k hs h'.
Proof.
  pose proof (stable_idle_correct ticking_world demo_classifier "%2" (5 * Time.Second)
    postCompactPollEvery 0 2 [] ticking_steady ltac:(unfold postCompactPollEvery, Time.Second; lia)) as H.
  assert (E : fst (waitForStableIdle (poll_fuel (5 * Time.Second) postCompactPollEvery) demo_classifier
    "%2" (5 * Time.Second) postCompactPollEvery 0 2 ticking_world []) = Some (true, false))
    by (vm_compute; reflexivity).
  destruct (waitForStableIdle _ _ _ _ _ _ _ _ _) as [r h'] eqn:Er. simpl in E.
  destruct H as [_ H]. destruct (H false E) as (_ & _ & k & hs & Hk & _ & Hst).
  exists k, hs, h'. split; [exact Hk|]. split; [exact E|exact Hst].
Defined.
