(* ===== verification/SingleFlight.v ===== *)
(** * One delivery at a time (internal/cli/serve.go)

    The serve loop reverts claims with [RecoverDelivering], which resets every
    [delivering] row of the agent; its comments rest on the single-flight assumption
    that there is at most one.  Here the assumption is proved, for an environment
    whose other processes do not claim this agent's rows and whose store accesses
    succeed.

    [tri X c Y]: started with no rows in flight but those of the public ids [X], [c]
    ends with none but those of [Y]; a [continue] of the loop always happens with
    nothing in flight. *)

From S2P Require Import Prelude GoStd StoreTypes Priority Messages Queue Agents Lifecycle Invariants TmuxIO PaneState ObserveGate Deliver Throttle Mailman Respawn Serve ServeDemo ServeLogic.

Open Scope Z_scope.
Open Scope tell_scope.

(** ** What is in flight *)

Definition delivering_to (agent : string) (m : Message) : bool :=
  to_in_state (CanonicalName agent) StateDelivering m.

Definition in_flight (agent : string) (X : string -> Prop) (d : DB) : Prop :=
  forall m, m ∈ db_messages d -> delivering_to agent m = true -> X (m_PublicID m).

Definition nothing : string -> Prop := fun _ => False.
Definition only (id : string) : string -> Prop := fun x => x = id.
Definition whatever : string -> Prop := fun _ => True.

Section Flight.
Context (agent : string).

(** An operation that claims nothing for the agent. *)
Definition no_claim (d d' : DB) : Prop :=
  forall m', m' ∈ db_messages d' -> delivering_to agent m' = true ->
  exists m, m ∈ db_messages d /\ delivering_to agent m = true /\ m_PublicID m = m_PublicID m'.

Lemma no_claim_flight d d' X : no_claim d d' -> in_flight agent X d -> in_flight agent X d'.
Proof. intros H Hd m' Hm' Hf. destruct (H _ Hm' Hf) as (m & Hm & Hf' & <-). by apply Hd. Qed.

Lemma no_claim_same d d' : db_messages d' = db_messages d -> no_claim d d'.
Proof. intros E m' Hm' Hf. rewrite E in Hm'. eauto. Qed.

Lemma no_claim_sub d d' : (forall m, m ∈ db_messages d' -> m ∈ db_messages d) -> no_claim d d'.
Proof. intros H m' Hm' Hf. eauto. Qed.

Lemma no_claim_update p f d d' :
  db_messages d' = sql_update p f (db_messages d) ->
  (forall m, p m = true -> delivering_to agent (f m) = true ->
     delivering_to agent m = true /\ m_PublicID m = m_PublicID (f m)) ->
  no_claim d d'.
Proof.
  intros E Hf m' Hm' Hd. rewrite E in Hm'. apply sql_update_elem in Hm' as (m & Hm & ->).
  exists m. destruct (p m) eqn:Ep; [|done]. destruct (Hf m Ep Hd). done.
Qed.

Lemma no_claim_insert d d' m :
  m_State m <> StateDelivering -> exec_insert m d = Inserted d' -> no_claim d d'.
Proof.
  intros Hs Hi. apply exec_insert_Inserted in Hi as [-> _]. intros m' Hm' Hf. simpl in Hm'.
  apply elem_of_app in Hm' as [Hm'|Hm'%list_elem_of_singleton]; [eauto|subst m'].
  unfold delivering_to in Hf. by apply to_in_state_true in Hf as [_ Hf].
Qed.

Lemma no_claim_trans a b c : no_claim a b -> no_claim b c -> no_claim a c.
Proof.
  intros H1 H2 m Hm Hf. destruct (H2 m Hm Hf) as (m1 & Hm1 & Hf1 & E1).
  destruct (H1 m1 Hm1 Hf1) as (m2 & Hm2 & Hf2 & E2). exists m2. by rewrite E2.
Qed.

(** ** The operations the mailman uses *)

Lemma nc_notice p rnd now d : no_claim d (snd (InsertNotice p rnd now d)).
Proof.
  unfold InsertNotice. cbv zeta. destruct (validateInsertParams _); [|by apply no_claim_same].
  destruct (validateReplyTo _ _); [|by apply no_claim_same].
  unfold insertOneInTx. destruct (insert_attempts _ _ _ _ _ _) as [[id d1]|] eqn:E;
    [|by apply no_claim_same].
  apply insert_attempts_shape in E. apply (no_claim_trans _ d1);
    [|apply no_claim_same; simpl; unfold fireNotify; by case_bool_decide].
  eapply no_claim_insert; [|exact E]. unfold new_row. cbn [m_State]. by case_bool_decide.
Qed.

Lemma nc_agent name f d : no_claim d (snd (update_agent name f d)).
Proof. apply no_claim_same. unfold update_agent. by destruct (_ !! _). Qed.

Lemma nc_promote name trigger d : no_claim d (snd (PromoteDeferred name trigger d)).
Proof.
  apply (no_claim_update (deferred_on (CanonicalName name) trigger) (set_m_State StateQueued)).
  - unfold PromoteDeferred, update_count. cbv zeta. simpl.
    destruct (0 <? _); [|done]. unfold fireNotify. by case_bool_decide.
  - intros m _ Hf. unfold delivering_to in Hf. by apply to_in_state_true in Hf as [_ Hf].
Qed.

Lemma nc_upsert name pane now d : no_claim d (snd (UpsertAgent name pane now d)).
Proof. apply no_claim_same. unfold UpsertAgent. cbv zeta. by repeat case_code. Qed.

Lemma nc_count_compact name d : no_claim d (snd (CountSelfCompactIfNew name d)).
Proof. apply no_claim_same. unfold CountSelfCompactIfNew. cbv zeta. by repeat case_code. Qed.

Lemma nc_promote_compact name trigger d :
  no_claim d (snd (PromoteResumeOnSelfCompactIfNew name trigger d)).
Proof.
  unfold PromoteResumeOnSelfCompactIfNew. cbv zeta.
  destruct (_ !! _) as [a|]; [|by apply no_claim_same].
  destruct (unseen_signal _ _); [|by apply no_claim_same].
  match goal with |- context [PromoteDeferred ?n ?t ?d1] =>
    pose proof (nc_promote n t d1) as H; destruct (PromoteDeferred n t d1) as [k d2] end.
  simpl in *. eapply no_claim_trans; [|exact H]. by apply no_claim_same.
Qed.

Lemma nc_increment name d : no_claim d (snd (IncrementRespawnShrinkCount name d)).
Proof.
  apply no_claim_same. unfold IncrementRespawnShrinkCount, update_agent.
  destruct (_ !! _); [|done]. by destruct (_ !! _).
Qed.

Lemma nc_set_stuck name reason d : no_claim d (snd (SetStuck name reason d)).
Proof. unfold SetStuck. case_bool_decide; [by apply no_claim_same|apply nc_agent]. Qed.

Lemma nc_delete name d : no_claim d (snd (DeleteAgent name d)).
Proof. apply no_claim_same. unfold DeleteAgent. cbv zeta. by destruct (_ !! _). Qed.

Lemma nc_verified id d : no_claim d (snd (MarkVerifiedByDedupe id d)).
Proof.
  eapply no_claim_update; [done|]. intros m Hp Hf. split; [exact Hf|done].
Qed.

(** Marking and recovering land the rows. *)
Lemma landed_mark p f d :
  (forall m, delivering_to agent (f m) = false) ->
  (forall m, m ∈ db_messages d -> delivering_to agent m = true -> p m = true) ->
  in_flight agent nothing (set_messages (sql_update p f (db_messages d)) d).
Proof.
  intros Hf Hp m' Hm' Hd. simpl in Hm'. apply sql_update_elem in Hm' as (m & Hm & ->).
  destruct (p m) eqn:E; [by rewrite Hf in Hd|]. by rewrite Hp in E.
Qed.

Lemma not_delivering m : m_State m <> StateDelivering -> delivering_to agent m = false.
Proof. intros H. apply not_true_is_false. intros Hd. by apply to_in_state_true in Hd as [_ Hd]. Qed.

Lemma flight_id id d m :
  in_flight agent (only id) d -> m ∈ db_messages d -> delivering_to agent m = true ->
  id_in_state id StateDelivering m = true.
Proof.
  intros H Hm Hf. apply id_in_state_true. apply to_in_state_true in Hf as Hf'.
  split; [by apply H|apply Hf'].
Qed.

Lemma landed_failed id reason now d :
  in_flight agent (only id) d -> in_flight agent nothing (snd (MarkFailed id reason now d)).
Proof.
  intros H. apply landed_mark; [intros m; by apply not_delivering|].
  intros m. by apply flight_id.
Qed.

Lemma landed_delivered id v now d :
  in_flight agent (only id) d -> in_flight agent nothing (snd (markDelivered id v now d)).
Proof.
  intros H. apply landed_mark; [intros m; by apply not_delivering|].
  intros m. by apply flight_id.
Qed.

Lemma landed_recover d : in_flight agent nothing (snd (RecoverDelivering agent d)).
Proof. apply landed_mark; [intros m; by apply not_delivering|done]. Qed.

(** A claim from an idle state puts exactly its row in flight. *)
Lemma claim_flight strategy d :
  store_wf d -> in_flight agent nothing d ->
  let (r, d') := ClaimNextWithStrategy agent strategy d in
  in_flight agent (match r with Ok (Some msg) => only (m_PublicID msg) | _ => nothing end) d'.
Proof.
  intros [Hwf _] Hfree. unfold ClaimNextWithStrategy. cbv zeta.
  destruct (selectScheduled _ _) as [id|]; [|exact Hfree].
  destruct (List.find _ _) as [m|] eqn:F; [|exact Hfree].
  apply List.find_some in F as [Hm _]. rewrite <- list_elem_of_In in Hm.
  intros m' Hm' Hf. simpl in Hm'. apply sql_update_elem in Hm' as (m0 & Hm0 & ->).
  destruct (with_id (m_ID m) m0) eqn:E.
  - apply with_id_true in E. unfold only. simpl. f_equal.
    by rewrite (inj_on_NoDup m_ID (db_messages d) m0 m (ids_NoDup d Hwf) Hm0 Hm E).
  - by apply Hfree in Hf.
Qed.

(** The row of public id [id] is being delivered. *)
Definition flies (id : string) (d : DB) : Prop :=
  exists m, m ∈ db_messages d /\ delivering_to agent m = true /\ m_PublicID m = id.

Lemma claim_flies strategy d msg d' :
  store_wf d -> ClaimNextWithStrategy agent strategy d = (Ok (Some msg), d') ->
  flies (m_PublicID msg) d'.
Proof.
  intros [Hwf _]. unfold ClaimNextWithStrategy. cbv zeta.
  pose proof (selectScheduled_cases strategy
    (map candidate_of (sql_where (claimable (CanonicalName agent) d) (db_messages d)))) as H.
  destruct (selectScheduled _ _) as [id|]; [|done]. destruct H as (c & [[Hc _] _] & ->).
  apply list_elem_of_In, in_map_iff in Hc as (r & <- & Hr). rewrite <- list_elem_of_In in Hr.
  apply sql_where_elem in Hr as [Hr Hcl].
  destruct (List.find _ _) as [m|] eqn:F; [|done]. intros [= <- <-].
  apply List.find_some in F as [Hm Hid]. rewrite <- list_elem_of_In in Hm.
  apply with_id_true in Hid. simpl in Hid.
  assert (m = r) as -> by (by apply (inj_on_NoDup m_ID (db_messages d) m r (ids_NoDup d Hwf))).
  exists (set_m_State StateDelivering r). split; [|split; [|done]].
  - simpl. apply sql_update_elem. exists r. split; [done|].
    by rewrite (proj2 (with_id_true (m_ID r) r) eq_refl).
  - apply to_in_state_true. unfold claimable in Hcl. apply andb_true_iff in Hcl as [Hto _].
    by apply to_in_state_true in Hto as [Hto _].
Qed.
End Flight.

#[export] Hint Resolve nc_notice nc_agent nc_promote nc_upsert nc_count_compact nc_promote_compact
  nc_increment nc_set_stuck nc_delete nc_verified : flightdb.

(** ** Triples *)

Section Triples.
Context (sw : SWorld) (o : serveOpts).

Notation me := (so_Agent o).

(** What the proof relies on: the other processes use the store's operations and
    never claim this agent's rows; store accesses succeed. *)
Context (Hothers : forall h d, store_steps d (sw_others sw h d)).
Context (Hclaims : forall h d, no_claim me d (sw_others sw h d)).
Context (Hfault : forall h, sw_fault sw h = None).

Definition stands (X : string -> Prop) (st : sstate) : Prop :=
  store_wf (s_db st) /\ in_flight me X (s_db st).

Definition tri {A} (X : string -> Prop) (c : M A) (Y : A -> string -> Prop) : Prop :=
  forall st, stands X st ->
  match c sw st with
  | (Go a, st') => stands (Y a) st'
  | (Continue, st') => stands nothing st'
  | _ => True
  end.

Lemma tri_go {A} X (a : A) : tri X (go a) (fun _ => X).
Proof. by intros st H. Qed.

Lemma tri_skip X : tri X skip (fun _ => X).
Proof. by intros st H. Qed.

Lemma tri_continue {A} (Y : A -> string -> Prop) : tri nothing continue Y.
Proof. by intros st H. Qed.

Lemma tri_exit {A} X code (Y : A -> string -> Prop) : tri X (exit code) Y.
Proof. by intros st H. Qed.

Lemma tri_panic {A} X (Y : A -> string -> Prop) : tri X panic Y.
Proof. by intros st H. Qed.

Lemma tri_andthen {A B} X Z Y (c : M A) (k : A -> M B) :
  tri X c Z -> (forall a, tri (Z a) (k a) Y) -> tri X (andthen c k) Y.
Proof.
  intros Hc Hk st H. specialize (Hc st H). unfold andthen.
  destruct (c sw st) as [[a| |code| |] st']; try done. by apply Hk.
Qed.

Lemma tri_if {A} X (b : bool) (c1 c2 : M A) Y : tri X c1 Y -> tri X c2 Y -> tri X (if b then c1 else c2) Y.
Proof. by destruct b. Qed.

Lemma tri_when X b c : tri X c (fun _ => X) -> tri X (when b c) (fun _ => X).
Proof. intros H. destruct b; [done|apply tri_go]. Qed.

Lemma tri_lift {A} X (c : T A) : tri X (lift c) (fun _ => X).
Proof. intros st H. unfold lift. destruct (c _ _). exact H. Qed.

Lemma tri_lift_fuel {A} X (c : T (option A)) : tri X (lift_fuel c) (fun _ => X).
Proof.
  eapply tri_andthen; [apply tri_lift|]. intros [a|]; [apply tri_go|by intros st H].
Qed.

Lemma tri_ask {A} X what (f : SWorld -> history -> A) : tri X (ask what f) (fun _ => X).
Proof. intros st H. exact H. Qed.

Lemma tri_update X f : tri X (update f) (fun _ => X).
Proof. intros st H. exact H. Qed.

Lemma tri_vars X : tri X vars (fun _ => X).
Proof. intros st H. exact H. Qed.

Lemma stands_others X st h : stands X st -> store_wf (sw_others sw h (s_db st)) /\
  in_flight me X (sw_others sw h (s_db st)).
Proof.
  intros [Hwf Hf]. split; [eapply store_steps_wf; [apply Hothers|done]|].
  eapply no_claim_flight; [apply Hclaims|done].
Qed.

(** An access whose operation takes what is in flight from [X] to [Y]. *)
Lemma tri_access {A} X Y what (op : SWorld -> history -> string -> DB -> result A * DB) :
  (forall h now d, store_steps d (snd (op sw h now d))) ->
  (forall h now d, store_wf d -> in_flight me X d ->
     let (r, d') := op sw h now d in in_flight me (Y r) d') ->
  tri X (access what op) Y.
Proof.
  intros Hst Hop st H. unfold access. cbv zeta. rewrite Hfault.
  apply (stands_others X st (EvCall what :: s_hist st)) in H as [Hwf Hf].
  set (d := sw_others sw _ _) in *. set (now := Time.formatISO _). set (h := EvCall what :: _) in *.
  specialize (Hst h now d). specialize (Hop h now d Hwf Hf).
  destruct (op sw h now d) as [r d']. split; [eapply store_steps_wf; [exact Hst|done]|done].
Qed.

Lemma tri_frame {A} X what (op : SWorld -> history -> string -> DB -> result A * DB) :
  (forall h now d, store_steps d (snd (op sw h now d))) ->
  (forall h now d, no_claim me d (snd (op sw h now d))) ->
  tri X (access what op) (fun _ => X).
Proof.
  intros Hst Hnc. apply tri_access; [done|]. intros h now d _ Hf. specialize (Hnc h now d).
  destruct (op sw h now d) as [r d']. eapply no_claim_flight; [exact Hnc|done].
Qed.

Lemma tri_store {A} X what (op : string -> DB -> result A * DB) :
  (forall now d, store_step d (snd (op now d))) ->
  (forall now d, no_claim me d (snd (op now d))) -> tri X (store what op) (fun _ => X).
Proof. intros Hst Hnc. apply tri_frame; intros h now d; [apply rtc_once, Hst|apply Hnc]. Qed.

Lemma tri_store_ok {A} X what (op : string -> DB -> A * DB) :
  (forall now d, store_step d (snd (op now d))) ->
  (forall now d, no_claim me d (snd (op now d))) -> tri X (store_ok what op) (fun _ => X).
Proof.
  intros Hst Hnc. apply tri_frame; intros h now d; specialize (Hst now d); specialize (Hnc now d);
    destruct (op now d); [apply rtc_once; exact Hst|exact Hnc].
Qed.

Lemma tri_store_get {A} X what (f : DB -> result A) :
  tri X (store what (fun _ d => (f d, d))) (fun _ => X).
Proof. apply tri_frame; intros h now d; [apply rtc_refl|by apply no_claim_same]. Qed.

Lemma tri_read {A} X what (f : DB -> A) : tri X (store_read what f) (fun _ => X).
Proof. apply tri_frame; intros h now d; [apply rtc_refl|by apply no_claim_same]. Qed.

Lemma tri_notice X p : tri X (insert_notice p) (fun _ => X).
Proof. apply tri_frame; intros h now d; [apply rtc_once, step_InsertNotice|apply nc_notice]. Qed.
End Triples.

#[export] Hint Resolve tri_go tri_skip tri_continue tri_exit tri_panic tri_lift tri_lift_fuel tri_ask
  tri_update tri_vars : tridb.

Ltac tri_leaf :=
  first
    [ assumption
    | solve [auto with tridb nocore]
    | solve [apply tri_notice; assumption]
    | solve [apply tri_store_get; assumption]
    | solve [apply tri_read; assumption]
    | solve [apply tri_store; [assumption|assumption|assumption|
               intros; cbv beta; auto with storedb nocore
              |intros; cbv beta; first [solve [auto with flightdb nocore]|apply nc_agent]]]
    | solve [apply tri_store_ok; [assumption|assumption|assumption|
               intros; cbv beta; cbn [snd]; auto with storedb nocore
              |intros; cbv beta; cbn [snd]; first [solve [auto with flightdb nocore]|by apply no_claim_same]]] ].

Ltac tri_tac :=
  repeat (cbv beta zeta;
    first
      [ tri_leaf
      | eapply tri_andthen; [|intros ?]
      | apply tri_if
      | apply tri_when
      | match goal with |- tri _ _ _ (match ?x with _ => _ end) _ => destruct x end ]).

(** ** The phases *)

Section Phases.
Context (sw : SWorld) (o : serveOpts) (active : Profile) (cfg : DeliverCfg) (cls : classifier) (fuel : nat).

Notation me := (so_Agent o).

Context (Hothers : forall h d, store_steps d (sw_others sw h d)).
Context (Hclaims : forall h d, no_claim me d (sw_others sw h d)).
Context (Hfault : forall h, sw_fault sw h = None).

Notation tri := (tri sw o).

Lemma tri_recover X : tri X (recover o) (fun _ => nothing).
Proof.
  unfold recover. eapply tri_andthen; [|intros ?; apply tri_go]. cbv beta.
  apply (tri_access sw o Hothers Hclaims Hfault X (fun _ => nothing)).
  - intros h now d. pose proof (step_RecoverDelivering d me) as H.
    destruct (RecoverDelivering me d). by apply rtc_once.
  - intros h now d _ _. pose proof (landed_recover me d) as H. by destruct (RecoverDelivering me d).
Qed.

Lemma tri_mark_failed msg reason :
  tri (only (m_PublicID msg)) (mark_failed msg reason) (fun _ => nothing).
Proof.
  unfold mark_failed. eapply tri_andthen; [|intros ?; apply tri_go]. cbv beta.
  apply (tri_access sw o Hothers Hclaims Hfault _ (fun _ => nothing)).
  - intros h now d. apply rtc_once, step_MarkFailed.
  - intros h now d _ Hf. pose proof (landed_failed me _ reason now d Hf) as H.
    by destruct (MarkFailed _ _ _ _).
Qed.

Lemma tri_mark_delivered msg :
  tri (only (m_PublicID msg)) (mark_delivered msg) (fun _ => nothing).
Proof.
  unfold mark_delivered. eapply tri_andthen; [|intros ?; apply tri_go]. cbv beta.
  apply (tri_access sw o Hothers Hclaims Hfault _ (fun _ => nothing)).
  - intros h now d. apply rtc_once, step_MarkDelivered.
  - intros h now d _ Hf. pose proof (landed_delivered me _ 1 now d Hf) as H.
    unfold MarkDelivered. by destruct (markDelivered _ _ _ _).
Qed.

Lemma tri_mark_input_box msg :
  tri (only (m_PublicID msg))
    (store "MarkDeliveredInInputBox" (fun now d => MarkDeliveredInInputBox (m_PublicID msg) now d))
    (fun _ => nothing).
Proof.
  apply (tri_access sw o Hothers Hclaims Hfault _ (fun _ => nothing)).
  - intros h now d. apply rtc_once, step_MarkDeliveredInInputBox.
  - intros h now d _ Hf. pose proof (landed_delivered me _ 0 now d Hf) as H.
    unfold MarkDeliveredInInputBox. by destruct (markDelivered _ _ _ _).
Qed.

Hint Resolve tri_recover tri_mark_failed tri_mark_delivered tri_mark_input_box : tridb.

Lemma tri_pause X d : tri X (pause d) (fun _ => X). Proof. unfold pause. tri_tac. Qed.
Hint Resolve tri_pause : tridb.

Lemma tri_retry {A} d (Y : A -> string -> Prop) : tri nothing (retry_after d) Y.
Proof. unfold retry_after. eapply tri_andthen; [apply tri_pause|intros ?; apply tri_continue]. Qed.
Hint Resolve tri_retry : tridb.

Lemma tri_probe X pane : tri X (probe cls pane) (fun _ => X). Proof. apply tri_lift. Qed.
Lemma tri_failure_notice X b this msg k r :
  tri X (maybeInsertFailureNotice b this msg k r) (fun _ => X).
Proof. unfold maybeInsertFailureNotice. tri_tac. Qed.
Hint Resolve tri_probe tri_failure_notice : tridb.

Lemma tri_fail {A} msg reason (Y : A -> string -> Prop) :
  tri (only (m_PublicID msg)) (fail_and_notify o msg reason) Y.
Proof. unfold fail_and_notify. tri_tac. Qed.
Hint Resolve tri_fail : tridb.

(** Before a claim nothing is in flight. *)

Lemma tri_startup : tri whatever (startup o active) (fun _ => nothing).
Proof.
  unfold startup. eapply tri_andthen; [unfold start_agent; tri_tac|intros a].
  tri_tac.
Qed.

Lemma tri_loop_top : tri nothing (loop_top o) (fun _ => nothing).
Proof. unfold loop_top. tri_tac. Qed.

Lemma tri_read_agent : tri nothing (read_agent o) (fun _ => nothing).
Proof. unfold read_agent. tri_tac. Qed.

Lemma tri_observe a : tri nothing (self_observe o active cls a) (fun _ => nothing).
Proof.
  unfold self_observe, maybeAutoClearMetabolism, maybeAutoResumeRateLimited. tri_tac.
Qed.

Lemma tri_freshness a : tri nothing (freshness_check o cls a) (fun _ => nothing).
Proof. unfold freshness_check, freshness_alert, sendStuckChamberNotice. tri_tac. Qed.

Lemma tri_relaunch agent wp pane cmd win :
  tri nothing (relaunchAfterExit fuel cls agent wp pane cmd win) (fun _ => nothing).
Proof. unfold relaunchAfterExit. tri_tac. Qed.
Hint Resolve tri_relaunch : tridb.

Lemma tri_respawn_if pane cmd n m :
  tri nothing (respawn_if_reached o cls fuel pane cmd n m) (fun _ => nothing).
Proof. unfold respawn_if_reached, respawnIfThresholdReached, respawnChamber. tri_tac. Qed.
Hint Resolve tri_respawn_if : tridb.

Lemma tri_self_compact a : tri nothing (self_compact o cls fuel a) (fun _ => nothing).
Proof. unfold self_compact. tri_tac. Qed.

Lemma tri_resume_promote a : tri nothing (resume_promote o a) (fun _ => nothing).
Proof. unfold resume_promote. tri_tac. Qed.

Lemma tri_clear_rate X : tri X clearRateLimitState (fun _ => X).
Proof. unfold clearRateLimitState. tri_tac. Qed.
Lemma tri_clear_usage X : tri X clearUsageLimitState (fun _ => X).
Proof. apply tri_update. Qed.
Hint Resolve tri_clear_rate tri_clear_usage tri_loop_top tri_read_agent tri_observe tri_freshness
  tri_self_compact tri_resume_promote : tridb.

Lemma tri_before_claim : tri nothing (before_claim o active cls fuel) (fun _ => nothing).
Proof. unfold before_claim. tri_tac. Qed.

(** A claim puts its row in flight, and only it. *)
Lemma tri_claim : tri nothing (claim o) (fun msg => only (m_PublicID msg)).
Proof.
  unfold claim. eapply tri_andthen.
  - apply (tri_access sw o Hothers Hclaims Hfault nothing
             (fun r => match r with Ok (Some msg) => only (m_PublicID msg) | _ => nothing end)).
    + intros h now d. apply rtc_once, step_Claim.
    + intros h now d Hwf Hf. exact (claim_flight me (so_PriorityStrategy o) d Hwf Hf).
  - cbv beta. intros [[msg|]|e]; unfold stopSleepOrNotify; tri_tac.
    intros st Hst. exact Hst.
Qed.

(** ... and the row is there. *)
Lemma claim_holds st msg st' :
  store_wf (s_db st) -> claim o sw st = (Go msg, st') -> flies me (m_PublicID msg) (s_db st').
Proof.
  intros Hwf. unfold claim, andthen at 1, store, access. cbv zeta. rewrite Hfault.
  set (h := EvCall "ClaimNext" :: s_hist st).
  assert (Hw : store_wf (sw_others sw h (s_db st))) by (eapply store_steps_wf; [apply Hothers|done]).
  set (d := sw_others sw h (s_db st)) in *.
  destruct (ClaimNextWithStrategy me (so_PriorityStrategy o) d) as [r d'] eqn:E.
  destruct r as [[m|]|e].
  - apply claim_flies in E; [|done].
    unfold clearRateLimitState, clearUsageLimitState, when, andthen, update, vars, skip, go.
    cbv beta iota zeta. cbn [s_vars lv_rateMsg lv_usageMsg set_progressed].
    repeat match goal with
    | |- context [negb (bool_decide ?P)] => destruct (negb (bool_decide P))
    | |- context [negb (str_empty ?s)] => destruct (negb (str_empty s))
    end; cbv beta iota; intros [= <- <-]; exact E.
  - unfold andthen, lift. repeat case_match; simplify_eq; done.
  - unfold andthen, lift. repeat case_match; simplify_eq; done.
Qed.

(** After it, the message stays in flight until it is marked or reverted. *)
Section Claimed.
Context (msg : Message).
Notation held := (only (m_PublicID msg)).

Lemma tri_doorbell X : tri X doorbell (fun _ => X).
Proof. apply tri_lift. Qed.
Hint Resolve tri_doorbell : tridb.

Lemma tri_handlePing pane : tri held (handlePing active pane msg) (fun _ => nothing).
Proof.
  unfold handlePing. apply tri_andthen with (fun _ => held); [unfold pingHealthy; tri_tac|].
  intros [reason|]; tri_tac.
Qed.
Hint Resolve tri_handlePing : tridb.

Lemma tri_ping_phase a : tri held (ping_phase o active a msg) (fun _ => held).
Proof. unfold ping_phase. tri_tac. Qed.

Lemma tri_cap_gate : tri held (cap_gate o active) (fun _ => held).
Proof. unfold cap_gate. tri_tac. Qed.

Lemma tri_heal X pane p2 : tri X (heal_to o pane p2) (fun _ => X).
Proof. unfold heal_to. tri_tac. Qed.
Hint Resolve tri_heal : tridb.

Lemma tri_resolve X a : tri X (resolve_session o a) (fun _ => X).
Proof. unfold resolve_session. tri_tac. Qed.

Lemma tri_stale_exit pane b : tri held (session_stale_exit o cls pane b) (fun _ => held).
Proof. unfold session_stale_exit. tri_tac. Qed.

Lemma tri_verdict X pane : tri X (drift_verdict_of o pane) (fun _ => X).
Proof.
  unfold drift_verdict_of, buildCanonicals, drift_bare, drift_elsewhere, lookup_name. tri_tac.
Qed.
Hint Resolve tri_verdict : tridb.

Lemma tri_drift pane b : tri held (drift_check o pane b msg) (fun _ => held).
Proof. unfold drift_check. tri_tac. Qed.

Lemma tri_liveness pane b : tri held (liveness_gate o pane b msg) (fun _ => held).
Proof. unfold liveness_gate. tri_tac. Qed.

Lemma tri_dedupe pane : tri held (dedupe o pane msg) (fun _ => held).
Proof. unfold dedupe, dedupe_absorb, insertDedupeNotice. tri_tac. Qed.

Hint Resolve tri_ping_phase tri_cap_gate tri_resolve tri_stale_exit tri_drift tri_liveness
  tri_dedupe : tridb.

Lemma tri_route a : tri held (route o active cls a msg) (fun _ => held).
Proof. unfold route. tri_tac. Qed.

Lemma tri_gate_error out e : tri held (gate_error o active msg out e) (fun _ => held).
Proof. unfold gate_error, gate_usage_limited, gate_rate_limited, wake_delay. tri_tac. Qed.
Hint Resolve tri_gate_error : tridb.

Lemma tri_stranded pane out : tri held (stranded_draft o active cfg pane msg out) (fun _ => held).
Proof. unfold stranded_draft, clear_draft, archiveStrandedDraft. tri_tac. Qed.
Hint Resolve tri_stranded : tridb.

Lemma tri_gate pane : tri held (gate_phase o active cfg cls fuel pane msg) (fun _ => held).
Proof. unfold gate_phase. tri_tac. Qed.

Lemma tri_pane_not_found {A} (Y : A -> string -> Prop) : tri nothing (pane_not_found o msg) Y.
Proof. unfold pane_not_found. tri_tac. Qed.
Hint Resolve tri_pane_not_found : tridb.

Lemma tri_safety pane : tri held (pre_paste_safety o cls pane msg) (fun _ => held).
Proof. unfold pre_paste_safety. tri_tac. Qed.

Lemma tri_deliver pane : tri held (deliver_phase o active cfg pane msg) (fun _ => held).
Proof. unfold deliver_phase, consume_settle, auto_heal, deliver_to, rendered. tri_tac. Qed.

Lemma tri_settle pane a : tri nothing (settle_after_reset o cls fuel pane a msg) (fun _ => nothing).
Proof. unfold settle_after_reset. tri_tac. Qed.

Lemma tri_promote : tri nothing (promote_after_reset o msg) (fun _ => nothing).
Proof. unfold promote_after_reset. tri_tac. Qed.

Lemma tri_count_clear pane a : tri nothing (count_clear o cls fuel pane a msg) (fun _ => nothing).
Proof. unfold count_clear. tri_tac. Qed.

Hint Resolve tri_settle tri_promote tri_count_clear tri_route tri_gate tri_safety tri_deliver : tridb.

Lemma tri_finish pane a r : tri held (finish o cls fuel pane a msg r) (fun _ => nothing).
Proof. unfold finish. tri_tac. Qed.
Hint Resolve tri_finish : tridb.

(** The part of the round up to the end of the delivery. *)
Definition to_delivery (a : Agent) (msg : Message) : M (result unit) :=
  pane <! route o active cls a msg ;;
  _ <! gate_phase o active cfg cls fuel pane msg ;;
  _ <! pre_paste_safety o cls pane msg ;;
  deliver_phase o active cfg pane msg.

Lemma tri_to_delivery a : tri held (to_delivery a msg) (fun _ => held).
Proof. unfold to_delivery. tri_tac. Qed.

Lemma tri_after_claim a : tri held (after_claim o active cfg cls fuel a msg) (fun _ => nothing).
Proof. unfold after_claim. tri_tac. Qed.
End Claimed.

Lemma tri_iteration : tri nothing (iteration o active cfg cls fuel) (fun _ => nothing).
Proof.
  unfold iteration. eapply tri_andthen; [apply tri_before_claim|intros a].
  eapply tri_andthen; [apply tri_claim|intros msg; apply tri_after_claim].
Qed.

Lemma tri_serve_loop n : tri nothing (serve_loop o active cfg cls fuel n) (fun _ => nothing).
Proof.
  induction n as [|n IH]; intros st H; simpl; [exact H|].
  pose proof (tri_iteration st H) as Hi.
  destruct (iteration o active cfg cls fuel sw st) as [[u| |c| |] st']; try done; by apply IH.
Qed.

Lemma tri_run n : tri whatever (runServeWithStore o active cfg cls fuel n) (fun _ => nothing).
Proof.
  unfold runServeWithStore. eapply tri_andthen; [apply tri_startup|intros u].
  eapply tri_andthen; [apply tri_update|intros v]. apply tri_serve_loop.
Qed.
End Phases.

(** ** The assumption of the comments *)

(** The only mailman of the agent, with working store accesses. *)
Record lone_mailman (sw : SWorld) (agent : string) : Prop := {
  lm_others : forall h d, store_steps d (sw_others sw h d);
  lm_claims : forall h d, no_claim agent d (sw_others sw h d);
  lm_fault : forall h, sw_fault sw h = None
}.

Definition idle_queue (agent : string) (d : DB) : Prop :=
  forall m, m ∈ db_messages d -> delivering_to agent m = false.

Lemma idle_nothing agent d : in_flight agent nothing d <-> idle_queue agent d.
Proof.
  split; intros H m Hm.
  - apply not_true_is_false. intros Hf. by apply H in Hf.
  - intros Hf. by rewrite H in Hf.
Qed.

(** C2: at most one message of the agent is being delivered.  Assumed is the lone
    mailman: the other processes go through the store's operations and do not claim
    this agent's rows, and no store access of the mailman fails.  Whatever a previous
    run left behind, after startup and any number of rounds no row of the agent is in
    [delivering]; a claim puts exactly the claimed row there; up to the end of the
    delivery no other row is there; and a round that goes on, whichever way it went,
    has marked that row or put it back: reverting by agent reverts that message and no
    other. *)
Theorem single_flight sw o active cfg cls fuel n st :
  lone_mailman sw (so_Agent o) -> store_wf (s_db st) ->
  match runServeWithStore o active cfg cls fuel n sw st with
  | (Go _, st') => idle_queue (so_Agent o) (s_db st')
  | _ => True
  end /\
  (forall st1, store_wf (s_db st1) -> idle_queue (so_Agent o) (s_db st1) ->
     match claim o sw st1 with
     | (Go msg, st2) => in_flight (so_Agent o) (only (m_PublicID msg)) (s_db st2) /\
                        flies (so_Agent o) (m_PublicID msg) (s_db st2)
     | (Continue, st2) => idle_queue (so_Agent o) (s_db st2)
     | _ => True
     end) /\
  (forall a msg st1, store_wf (s_db st1) -> in_flight (so_Agent o) (only (m_PublicID msg)) (s_db st1) ->
     match to_delivery o active cfg cls fuel a msg sw st1 with
     | (Go _, st2) => in_flight (so_Agent o) (only (m_PublicID msg)) (s_db st2)
     | (Continue, st2) => idle_queue (so_Agent o) (s_db st2)
     | _ => True
     end /\
     match after_claim o active cfg cls fuel a msg sw st1 with
     | (Go _, st2) | (Continue, st2) => idle_queue (so_Agent o) (s_db st2)
     | _ => True
     end).
Proof.
  intros [Ho Hc Hf] Hwf. split; [|split].
  - pose proof (tri_run sw o active cfg cls fuel Ho Hc Hf n st (conj Hwf (fun _ _ _ => I))) as H.
    destruct (runServeWithStore _ _ _ _ _ _ sw st) as [[u| |c| |] st']; try done.
    by apply idle_nothing, H.
  - intros st1 Hw Hi. pose proof (tri_claim sw o Ho Hc Hf st1 (conj Hw (proj2 (idle_nothing _ _) Hi))) as H.
    destruct (claim o sw st1) as [[msg| |c| |] st2] eqn:E; try done; [|by apply idle_nothing, H].
    split; [apply H|]. by eapply (claim_holds sw o Ho Hf).
  - intros a msg st1 Hw Hi. split.
    + pose proof (tri_to_delivery sw o active cfg cls fuel Ho Hc Hf msg a st1 (conj Hw Hi)) as H.
      destruct (to_delivery _ _ _ _ _ _ _ sw st1) as [[u| |c| |] st2]; try done;
        [apply H|by apply idle_nothing, H].
    + pose proof (tri_after_claim sw o active cfg cls fuel Ho Hc Hf msg a st1 (conj Hw Hi)) as H.
      destruct (after_claim _ _ _ _ _ _ _ sw st1) as [[u| |c| |] st2]; try done; by apply idle_nothing, H.
Qed.

Lemma demo_lone : lone_mailman (demo_env false no_faults) "bob".
Proof. constructor; [intros h d; apply rtc_refl|intros h d; by apply no_claim_same|done]. Qed.

Lemma demo_store_wf : store_wf demo_store.
Proof.
  apply (store_steps_wf empty_db); [|apply empty_db_wf].
  apply (rtc_l _ _ (snd (UpsertAgent "bob" "%1" t0 empty_db))); [apply step_UpsertAgent|].
  apply rtc_once. exact (step_InsertMessage _ _ _ _ _).
Qed.

Lemma single_flight_witness :
  fst (demo_rounds 2) = Go tt /\ idle_queue "bob" (s_db (snd (demo_rounds 2))).
Proof.
  assert (Hgo : fst (demo_rounds 2) = Go tt) by (vm_compute; reflexivity).
  split; [exact Hgo|].
  destruct (single_flight (demo_env false no_faults) demo_opts demo_adapter
              (default_cfg ClaudePaneProfile) demo_classifier 5 2
              (mkS demo_store (initial_vars demo_opts) []) demo_lone demo_store_wf) as [H _].
  fold (demo_rounds 2) in H. destruct (demo_rounds 2) as [r st']. simpl in Hgo. subst r. exact H.
Defined.
