(* ===== verification/ServeProps.v ===== *)
(** * Properties of the serve loop

    The mailman changes the store by store operations only; a parked mailman leaves
    tmux alone; nothing is typed into a pane that was not just probed safe and shown
    to host the agent; a missing pane is retried with backoff and then parks the
    mailman. *)

From S2P Require Import Prelude GoStd StoreTypes Priority Messages Queue Agents Lifecycle Invariants TmuxIO PaneState ObserveGate Deliver Throttle Mailman Respawn Serve ServeDemo ServeLogic.

Open Scope Z_scope.
Open Scope tell_scope.

(** ** Composition *)

Lemma andthen_inv {A B} (c : M A) (k : A -> M B) sw st r st' :
  andthen c k sw st = (r, st') ->
  (exists a st1, c sw st = (Go a, st1) /\ k a sw st1 = (r, st')) \/
  ((forall a, fst (c sw st) <> Go a) /\ snd (c sw st) = st' /\ (forall b, r <> Go b)).
Proof.
  unfold andthen. destruct (c sw st) as [[a| |code| |] st1].
  - left. eauto.
  - intros [= <- <-]. by right.
  - intros [= <- <-]. by right.
  - intros [= <- <-]. by right.
  - intros [= <- <-]. by right.
Qed.

Lemma andthen_go {A B} (c : M A) (k : A -> M B) sw st b st' :
  andthen c k sw st = (Go b, st') ->
  exists a st1, c sw st = (Go a, st1) /\ k a sw st1 = (Go b, st').
Proof. intros H. apply andthen_inv in H as [H|(_ & _ & H)]; [done|]. by destruct (H b). Qed.

(** ** The store *)

(** A mailman run in an environment of store operations. *)
Definition serves (o : serveOpts) (active : Profile) (cfg : DeliverCfg) (cls : classifier)
    (fuel n : nat) (sw : SWorld) (st st' : sstate) : Prop :=
  (forall h d, store_steps d (sw_others sw h d)) /\
  snd (runServeWithStore o active cfg cls fuel n sw st) = st'.

(** C3: the mailman only ever changes the database through the operations of the
    store, whatever tmux, the walker, the clock and failing accesses answer, and
    whatever the other processes do through those operations in between: every
    invariant of the store and the life cycle of its rows carry over to the loop. *)
Theorem serve_refines_store o active cfg cls fuel n sw st st' :
  serves o active cfg cls fuel n sw st st' ->
  store_steps (s_db st) (s_db st') /\
  (store_wf (s_db st) -> store_wf (s_db st')) /\
  (reachable (s_db st) -> reachable (s_db st')).
Proof.
  intros [Hothers <-].
  destruct (acts_run sw Hothers o active cfg cls fuel n st) as [Hs _].
  split; [exact Hs|]. split; [by apply store_steps_wf|]. intros H. unfold reachable in *. by etrans.
Qed.

(** ** A parked mailman *)

Definition parked (a : Agent) : bool := a_paused a || negb (str_empty (a_stuck_reason a)).

(** No command to tmux, no access to the store but the read of the agent's row. *)
Definition silent (ev : event) : Prop :=
  match ev with
  | EvRun _ _ | EvTyping | EvVerify _ _ => False
  | EvCall what => what = "GetAgent"
  | EvSleep _ | EvNow | EvPing => True
  end.

Definition only_reads (st : sstate) (st' : sstate) : Prop :=
  adds silent (s_hist st) (s_hist st') /\
  (s_db st' = s_db st).

Lemma silent_stopOrSleep d : does silent (stopOrSleep d).
Proof.
  unfold stopOrSleep, stopped, ctx_Err. apply does_if.
  - apply does_bind; [apply does_read|intros e; apply does_ret].
  - apply does_bind; [by apply does_wait|intros e; apply does_ret].
Qed.

Lemma silent_lift {A} (c : T A) sw st :
  does silent c -> only_reads st (snd (lift c sw st)).
Proof.
  intros Hc. specialize (Hc (sw_io sw) (s_hist st)). unfold lift.
  destruct (c _ _) as [a h]. by split.
Qed.

Lemma only_reads_trans st1 st2 st3 : only_reads st1 st2 -> only_reads st2 st3 -> only_reads st1 st3.
Proof. intros [H1 E1] [H2 E2]. split; [by eapply adds_trans|by rewrite E2]. Qed.

Lemma silent_andthen {A B} (c : M A) (k : A -> M B) sw st :
  only_reads st (snd (c sw st)) ->
  (forall a st1, c sw st = (Go a, st1) -> only_reads st1 (snd (k a sw st1))) ->
  only_reads st (snd (andthen c k sw st)).
Proof.
  intros Hc Hk. unfold andthen. destruct (c sw st) as [[a| |code| |] st1] eqn:E; simpl in *; try done.
  eapply only_reads_trans; [exact Hc|by apply Hk].
Qed.

Lemma only_reads_refl st : only_reads st st.
Proof. split; [apply adds_refl|done]. Qed.

Lemma silent_retry {A} d sw st : only_reads st (snd (retry_after (A := A) d sw st)).
Proof.
  apply silent_andthen; [|intros; apply only_reads_refl].
  apply silent_andthen; [apply silent_lift, silent_stopOrSleep|].
  intros b st1 _. destruct b; apply only_reads_refl.
Qed.

Lemma silent_loop_top o sw st : only_reads st (snd (loop_top o sw st)).
Proof.
  apply silent_andthen.
  { apply silent_lift. apply does_bind; [apply does_read|intros e; apply does_ret]. }
  intros stop st1 _. destruct stop; [apply only_reads_refl|].
  apply silent_andthen; [apply silent_lift; by apply does_now|intros now st2 _].
  apply silent_andthen; [apply only_reads_refl|intros v st3 _].
  destruct (record _ _ _) as [trip g].
  apply silent_andthen; [by split; [apply adds_refl|]|intros u st4 _].
  destruct trip; [apply only_reads_refl|]. unfold when.
  destruct (0 <? _); [|apply only_reads_refl]. apply silent_lift. by apply does_emit.
Qed.

(** Reading a parked agent ends the iteration. *)
Lemma parked_read_agent o sw st :
  (forall h a, GetAgent (so_Agent o) (sw_others sw h (s_db st)) = Ok a -> parked a = true) ->
  let (r, st') := read_agent o sw st in
  (forall a, r <> Go a) /\ adds silent (s_hist st) (s_hist st') /\
  exists h, s_db st' = sw_others sw h (s_db st).
Proof.
  intros Hpark. unfold read_agent, store, access, andthen. cbv zeta.
  set (h := EvCall "GetAgent" :: s_hist st).
  assert (Hh : adds silent (s_hist st) h) by (by apply adds_cons).
  assert (Hret : forall d st1, s_hist st1 = h -> s_db st1 = sw_others sw h (s_db st) ->
    let (r, st') := retry_after (A := Agent) d sw st1 in
    (forall a, r <> Go a) /\ adds silent (s_hist st) (s_hist st') /\
    exists h, s_db st' = sw_others sw h (s_db st)).
  { intros d st1 E1 E2. pose proof (silent_retry (A := Agent) d sw st1) as [Hs Hd].
    assert (Hng : forall a, fst (retry_after (A := Agent) d sw st1) <> Go a).
    { intros a. unfold retry_after, andthen. by destruct (pause d sw st1) as [[]]. }
    destruct (retry_after d sw st1) as [r st']. simpl in *. split; [exact Hng|].
    split; [rewrite E1 in Hs; by eapply adds_trans|]. exists h. congruence. }
  destruct (sw_fault sw h) as [e|]; [by apply Hret|].
  destruct (GetAgent _ _) as [a|e] eqn:E; [|by apply Hret].
  specialize (Hpark h a E). unfold parked in Hpark.
  destruct (a_paused a); [by apply Hret|]. simpl in Hpark. rewrite Hpark. by apply Hret.
Qed.

Definition quiet_round (o : serveOpts) (active : Profile) (cfg : DeliverCfg) (cls : classifier)
    (fuel : nat) (sw : SWorld) (st : sstate) : Prop :=
  let (r, st') := iteration o active cfg cls fuel sw st in
  (forall u, r <> Go u) /\ adds silent (s_hist st) (s_hist st') /\
  (s_db st' = s_db st \/ exists h, s_db st' = sw_others sw h (s_db st)).

(** While its agent is paused or parked, a round of the mailman claims nothing,
    sends no command to tmux, writes nothing to the store and calls nobody: it reads
    the agent's row once, sleeps and goes round again. *)
Theorem parked_mailman_is_quiet o active cfg cls fuel sw st :
  (forall h a, GetAgent (so_Agent o) (sw_others sw h (s_db st)) = Ok a -> parked a = true) ->
  quiet_round o active cfg cls fuel sw st.
Proof.
  intros Hpark. unfold quiet_round.
  destruct (iteration o active cfg cls fuel sw st) as [r st'] eqn:E.
  pose proof (silent_loop_top o sw st) as [Htop Hdb].
  unfold iteration in E. apply andthen_inv in E as [(a & sta & Ha & _)|(Hng & Hst & Hr)].
  - exfalso. unfold before_claim in Ha. apply andthen_go in Ha as (u & st1 & H1 & Ha).
    rewrite H1 in Hdb. simpl in Hdb.
    apply andthen_go in Ha as (ag & st2 & H2 & _).
    pose proof (parked_read_agent o sw st1) as Hp. rewrite Hdb, H2 in Hp.
    destruct (Hp Hpark) as [Hgo _]. by destruct (Hgo ag).
  - split; [exact Hr|]. destruct (before_claim o active cls fuel sw st) as [r0 st0] eqn:Eb.
    simpl in Hst. subst st0. unfold before_claim in Eb.
    apply andthen_inv in Eb as [(u & st1 & H1 & Eb)|(_ & <- & _)]; [|split; [done|by left]].
    rewrite H1 in Htop, Hdb. simpl in Htop, Hdb.
    pose proof (parked_read_agent o sw st1) as Hp. rewrite Hdb in Hp. specialize (Hp Hpark).
    apply andthen_inv in Eb as [(ag & st2 & H2 & _)|(_ & <- & _)].
    + exfalso. rewrite H2 in Hp. destruct Hp as [Hgo _]. by destruct (Hgo ag).
    + destruct (read_agent o sw st1) as [r1 st1']. simpl.
      destruct Hp as (_ & Hh & Hd). split; [by eapply adds_trans|by right].
Qed.

(** ** A missing pane *)

(** The length of the streak this failure makes. *)
Definition streak (msg : Message) (v : loop_vars) : Z :=
  (if bool_decide (m_PublicID msg = lv_paneFailMsg v) then lv_paneFails v else 0) + 1.

Definition parks (o : serveOpts) (msg : Message) (v : loop_vars) : bool :=
  (0 <? so_StuckThreshold o) && (so_StuckThreshold o <=? streak msg v).

Lemma pause_sleeps d sw st :
  exists r h, pause d sw st = (r, mkS (s_db st) (s_vars st) h) /\
    h = (if d <=? 0 then s_hist st else EvSleep d :: s_hist st) /\ (r = Go tt \/ r = Exit exitOK).
Proof.
  unfold pause, andthen, lift, stopOrSleep. destruct (d <=? 0).
  - unfold stopped, ctx_Err, bind, ret. destruct (w_ctx _ _); eauto 6.
  - unfold wait, bind, emit, ctx_Err, ret. destruct (w_ctx _ _); eauto 6.
Qed.

(** A pane tmux cannot find.  Below the threshold the mailman changes nothing in
    the store, counts the failure against the message and sleeps exactly the backoff
    of the streak; at the threshold it parks the agent, so that later rounds are
    silent until someone clears the mark, and starts the count anew. *)
Theorem pane_not_found_parks o msg sw st :
  (forall h, sw_fault sw h = None) ->
  let (r, st') := pane_not_found o (A := unit) msg sw st in
  if parks o msg (s_vars st) then
    r = Continue /\ lv_paneFails (s_vars st') = 0 /\
    s_hist st' = EvCall "SetStuck" :: s_hist st /\
    (forall a, db_agents (sw_others sw (EvCall "SetStuck" :: s_hist st) (s_db st))
                 !! CanonicalName (so_Agent o) = Some a ->
       exists a', GetAgent (so_Agent o) (s_db st') = Ok a' /\ parked a' = true /\
         a_stuck_reason a' = StuckReasonPaneNotFound)
  else
    s_db st' = s_db st /\ lv_paneFails (s_vars st') = streak msg (s_vars st) /\
    lv_paneFailMsg (s_vars st') = m_PublicID msg /\
    s_hist st' = (let d := paneNotFoundBackoff (streak msg (s_vars st)) in
                  if d <=? 0 then s_hist st else EvSleep d :: s_hist st) /\
    (r = Continue \/ r = Exit exitOK).
Proof.
  intros Hfault. unfold pane_not_found, parks.
  cbn [andthen vars]. cbv zeta. fold (streak msg (s_vars st)).
  unfold andthen at 1. cbn [update s_db s_vars s_hist].
  destruct ((0 <? so_StuckThreshold o) && _) eqn:Ep.
  - unfold andthen, store, access, update, continue. cbn [s_db s_vars s_hist]. rewrite Hfault.
    set (h := EvCall "SetStuck" :: s_hist st). set (d := sw_others sw h (s_db st)).
    unfold SetStuck. rewrite bool_decide_false by done. unfold setStuckReason, update_agent.
    destruct (db_agents d !! _) as [a|] eqn:E; cbn [s_db s_vars s_hist]; split_and!; try done.
    intros a0 [= <-]. exists (set_a_stuck_reason StuckReasonPaneNotFound a).
    unfold GetAgent. cbn [s_db set_agents db_agents]. rewrite lookup_insert_eq.
    split; [done|]. split; [|done]. unfold parked. cbn [a_stuck_reason set_a_stuck_reason].
    by rewrite bool_decide_false, orb_true_r by done.
  - unfold retry_after.
    destruct (pause_sleeps (paneNotFoundBackoff (streak msg (s_vars st))) sw
      (mkS (s_db st) (set_pane_streak (streak msg (s_vars st)) (m_PublicID msg) (s_vars st)) (s_hist st)))
      as (r & h & E & Eh & Hr).
    unfold andthen. rewrite E. cbn [s_db s_vars s_hist] in *.
    destruct Hr as [-> | ->]; cbn [s_db s_vars s_hist continue]; split_and!; auto.
Qed.

(** ** The concrete mailman *)

Lemma serve_refines_store_witness :
  serves demo_opts demo_adapter (default_cfg ClaudePaneProfile) demo_classifier 5 2
    (demo_env false no_faults) (mkS demo_store (initial_vars demo_opts) []) (snd (demo_rounds 2)) /\
  store_steps demo_store (s_db (snd (demo_rounds 2))).
Proof.
  assert (Hs : serves demo_opts demo_adapter (default_cfg ClaudePaneProfile) demo_classifier 5 2
    (demo_env false no_faults) (mkS demo_store (initial_vars demo_opts) []) (snd (demo_rounds 2))).
  { split; [intros h d; apply rtc_refl|reflexivity]. }
  split; [exact Hs|].
  exact (proj1 (serve_refines_store _ _ _ _ _ _ _ _ _ Hs)).
Defined.

Definition paused_store : DB := snd (SetPaused "bob" true t0 demo_store).

Lemma parked_mailman_is_quiet_witness :
  quiet_round demo_opts demo_adapter (default_cfg ClaudePaneProfile) demo_classifier 5
    (demo_env false no_faults) (mkS paused_store (initial_vars demo_opts) []).
Proof.
  apply parked_mailman_is_quiet. intros h a H.
  assert (Hp : forall a', GetAgent "bob" paused_store = Ok a' -> parked a' = true).
  { intros a'. vm_compute. by intros [= <-]. }
  exact (Hp a H).
Defined.

Definition nine_strikes : loop_vars := set_pane_streak 9 "00aa" (initial_vars demo_opts).

Lemma pane_not_found_parks_witness :
  let (r, st') := pane_not_found demo_opts (A := unit) demo_msg (demo_env false no_faults)
                    (mkS demo_store nine_strikes []) in
  r = Continue /\ lv_paneFails (s_vars st') = 0.
Proof.
  pose proof (pane_not_found_parks demo_opts demo_msg (demo_env false no_faults)
    (mkS demo_store nine_strikes []) (fun _ => eq_refl)) as H.
  destruct (pane_not_found _ _ _ _) as [r st'].
  assert (E : parks demo_opts demo_msg nine_strikes = true)
    by (vm_compute; reflexivity).
  cbn [s_vars] in H. rewrite E in H. split; apply H.
Defined.
