(* ===== verification/PasteSafety.v ===== *)
(** * Nothing is typed into a pane that was not checked (internal/cli/serve.go)

    From a claimed row to the paste: the routing phases establish that the pane hosts
    the agent (its session resolves there, or its foreground process is not a shell),
    the last probe that a paste is safe in it, and no phase before the delivery
    injects anything.  The one exception, the retry of the auto-heal on a pane the
    walker names, is in the statement, and [auto_heal_unchecked] shows it happen. *)

From S2P Require Import Prelude GoStd StoreTypes Priority Messages Queue Agents Lifecycle Invariants TmuxIO PaneState ObserveGate Deliver Throttle Mailman Respawn Serve ServeDemo ServeLogic ServeProps.

Open Scope Z_scope.
Open Scope tell_scope.

(** ** Moments of a run *)

(** [F] held at some moment between two histories. *)
Definition seen (h0 h1 : history) (F : history -> Prop) : Prop :=
  exists h, adds anything h0 h /\ adds anything h h1 /\ F h.

Lemma adds_any P h h' : adds P h h' -> adds anything h h'.
Proof. by apply adds_mono. Qed.

Lemma seen_later h0 h1 h2 F : adds anything h1 h2 -> seen h0 h1 F -> seen h0 h2 F.
Proof. intros H (h & H0 & H1 & HF). exists h. split; [done|]. split; [by eapply adds_trans|done]. Qed.

Lemma seen_earlier h0 h1 h2 F : adds anything h0 h1 -> seen h1 h2 F -> seen h0 h2 F.
Proof. intros H (h & H0 & H1 & HF). exists h. split; [by eapply adds_trans|done]. Qed.

Section Safety.
Context (sw : SWorld) (o : serveOpts) (active : Profile) (cfg : DeliverCfg) (cls : classifier) (fuel : nat).

Notation me := (so_Agent o).
Notation wk := (sw_walker sw).

(** The environment: other processes go through the store; accesses succeed; the
    agent has a name an agent may have. *)
Record sound_env : Prop := {
  se_others : forall h d, store_steps d (sw_others sw h d);
  se_fault : forall h, sw_fault sw h = None;
  se_name : CanonicalName me <> EmptyString;
  se_unreserved : ReservedRoutingName (CanonicalName me) = false
}.

(** The walker answered that the agent's session lives in [pane], or that the pane's
    foreground process is not a shell. *)
Definition hosts (a : Agent) (pane : string) (h0 h1 : history) : Prop :=
  seen h0 h1 (fun h => a_session_id a <> EmptyString /\
                       LookupBySessionID wk h (a_session_id a) = Ok pane) \/
  seen h0 h1 (fun h => PaneAcceptsPaste wk h pane = true).

(** The verdict of a two-second probe of [pane] that took the history from [h] to
    [h']: a state this message may be pasted in. *)
Definition probed_safe (msg : Message) (pane : string) (h h' : history) : Prop :=
  exists st ev, op_timeout (agentState cls pane) (sw_io sw) h = ((st, ev, None), h') /\
    paste_unsafe msg st = false.

(** From [h] to [h'] the delivery of [msg] to [pane] ran and tmux answered that it
    cannot find the pane; the walker, asked right after it, names [p]. *)
Definition lost (msg : Message) (pane p : string) (h h' : history) : Prop :=
  exists settle body h0 e,
    adds calm h h0 /\
    op_timeout (deliverOne active cfg pane msg settle body) (sw_io sw) h0 = (Err e, h') /\
    isCantFindPaneError e = true /\
    LookupByName wk (EvCall "LookupByName" :: h') me = Ok p /\ p <> EmptyString /\ p <> pane.

(** Where the text goes: into the checked pane alone, unless tmux lost that pane;
    then into it up to the failed delivery, and into it or the pane the walker named
    after that. *)
Definition typed_from (msg : Message) (pane : string) (h h' : history) : Prop :=
  adds (typed_into (eq pane)) h h' \/
  exists h1 p, adds (typed_into (eq pane)) h h1 /\ lost msg pane p h h1 /\
    adds (typed_into (fun q => q = pane \/ q = p)) h1 h'.

Definition checked_paste (a : Agent) (msg : Message) (h0 h3 : history) : Prop :=
  exists pane h1 h2,
    adds calm h0 h1 /\ hosts a pane h0 h1 /\ probed_safe msg pane h1 h2 /\
    adds calm h1 h2 /\ typed_from msg pane h2 h3.

Context (Henv : sound_env).
Context (Hdrift : so_DriftCheckDisabled o = false) (Hsafe : so_PrePasteSafetyDisabled o = false).

Notation calmly := (acts sw calm).

Let Hcalm : forall ev, calm ev -> calm ev := fun ev H => H.
Let Hothers := se_others Henv.

Lemma calm_grows {A} (c : M A) st r st' :
  calmly c -> c sw st = (r, st') -> adds calm (s_hist st) (s_hist st').
Proof. intros Hc E. specialize (Hc st). rewrite E in Hc. apply Hc. Qed.

Lemma calm_wf {A} (c : M A) st r st' :
  calmly c -> c sw st = (r, st') -> store_wf (s_db st) -> store_wf (s_db st').
Proof. intros Hc E. specialize (Hc st). rewrite E in Hc. apply store_steps_wf, Hc. Qed.

(** Moving the registration works. *)
Lemma heal_to_moves pane p2 st p st' :
  store_wf (s_db st) -> heal_to o pane p2 sw st = (Go p, st') -> p = p2.
Proof.
  intros Hwf E. unfold heal_to in E. apply andthen_go in E as (r & st1 & E1 & E2).
  unfold go in E2. injection E2 as E2 _. unfold store, access in E1. cbv zeta in E1.
  rewrite (se_fault Henv) in E1.
  match type of E1 with context [UpsertAgent ?m ?q ?n ?d] =>
    assert (Hok : exists d', UpsertAgent m q n d = (Ok tt, d')) end.
  { unfold UpsertAgent. cbv zeta. rewrite (bool_decide_false _ (se_name Henv)), (se_unreserved Henv).
    case_bool_decide; [eauto|]. rewrite clear_pane_free; [eauto|].
    eapply store_steps_wf; [apply Hothers|done]. }
  destruct Hok as [d' Hok]. rewrite Hok in E1. by injection E1 as <- _.
Qed.

(** What the session lookup establishes. *)
Lemma resolve_hosts a st pane stale st' :
  store_wf (s_db st) -> resolve_session o a sw st = (Go (pane, true, stale), st') ->
  hosts a pane (s_hist st) (s_hist st').
Proof.
  intros Hwf E. unfold resolve_session in E. rewrite Hdrift in E. simpl orb in E.
  destruct (bool_decide (a_session_id a = EmptyString)) eqn:Es; [by injection E|].
  apply bool_decide_eq_false_1 in Es.
  apply andthen_go in E as (r & st1 & E1 & E).
  unfold ask in E1. cbv zeta in E1. injection E1 as Er <-.
  set (h := EvCall "LookupBySessionID" :: s_hist st) in *.
  destruct r as [sid|e]; [|by injection E].
  assert (Hh : adds calm (s_hist st) h) by (by apply adds_cons).
  destruct (bool_decide (sid = EmptyString)) eqn:En; [by injection E|].
  destruct (bool_decide (sid = PaneID a)) eqn:Ep.
  - apply bool_decide_eq_true_1 in Ep. unfold go in E. injection E as <- _ <-. left.
    exists h. split; [by eapply adds_any|]. split; [apply adds_refl|]. split; [done|]. by rewrite Er, Ep.
  - apply andthen_go in E as (p & st2 & E2 & E). unfold go in E. injection E as <- _ <-.
    pose proof (calm_grows _ _ _ _ (acts_heal_to sw Hothers calm Hcalm o _ _) E2) as Hg.
    apply heal_to_moves in E2 as ->; [|done]. left. exists h.
    split; [by eapply adds_any|]. split; [by eapply adds_any|]. split; [done|]. by rewrite Er.
Qed.

(** What the foreground check establishes. *)
Lemma liveness_hosts a pane msg st u st' :
  liveness_gate o pane false msg sw st = (Go u, st') -> hosts a pane (s_hist st) (s_hist st').
Proof.
  intros E. unfold liveness_gate in E. rewrite Hdrift in E. simpl orb in E. cbv iota in E.
  apply andthen_go in E as (b & st1 & E1 & E).
  unfold ask in E1. cbv zeta in E1. injection E1 as Eb <-.
  destruct b.
  - unfold skip, go in E. injection E as _ <-. right. eexists.
    split; [by apply adds_cons|]. split; [apply adds_refl|exact Eb].
  - exfalso. unfold fail_and_notify, retry_after in E.
    apply andthen_go in E as (? & ? & _ & E). apply andthen_go in E as (? & ? & _ & E).
    by apply andthen_go in E as (? & ? & _ & E).
Qed.

Lemma hosts_within a pane h0 h1 h2 h3 :
  adds calm h0 h1 -> adds calm h2 h3 -> hosts a pane h1 h2 -> hosts a pane h0 h3.
Proof.
  intros H1 H2 [H|H]; [left|right];
    eapply seen_earlier; try (by eapply adds_any); eapply seen_later; try (by eapply adds_any); done.
Qed.

Lemma route_hosts a msg st pane st' :
  store_wf (s_db st) -> route o active cls a msg sw st = (Go pane, st') ->
  hosts a pane (s_hist st) (s_hist st').
Proof.
  intros Hwf E. unfold route in E.
  apply andthen_go in E as (u1 & st1 & E1 & E). apply andthen_go in E as (u2 & st2 & E2 & E).
  apply andthen_go in E as ([[pane0 res] stale] & st3 & E3 & E).
  apply andthen_go in E as (u4 & st4 & E4 & E). apply andthen_go in E as (p & st5 & E5 & E).
  apply andthen_go in E as (u6 & st6 & E6 & E). apply andthen_go in E as (u7 & st7 & E7 & E).
  unfold go in E. injection E as <- <-.
  pose proof (calm_grows _ _ _ _ (acts_ping_phase sw Hothers calm Hcalm o active a msg) E1) as G1.
  pose proof (calm_grows _ _ _ _ (acts_cap_gate sw Hothers calm Hcalm o active) E2) as G2.
  pose proof (calm_grows _ _ _ _ (acts_resolve sw Hothers calm Hcalm o a) E3) as G3.
  pose proof (calm_grows _ _ _ _ (acts_stale_exit sw Hothers calm Hcalm o cls _ _) E4) as G4.
  pose proof (calm_grows _ _ _ _ (acts_drift sw Hothers calm Hcalm o _ _ _) E5) as G5.
  pose proof (calm_grows _ _ _ _ (acts_liveness sw Hothers calm Hcalm o _ _ _) E6) as G6.
  pose proof (calm_grows _ _ _ _ (acts_dedupe sw Hothers calm Hcalm o _ _) E7) as G7.
  pose proof (adds_trans _ _ _ _ G1 G2) as G12. pose proof (adds_trans _ _ _ _ G4 G5) as G45.
  pose proof (adds_trans _ _ _ _ G6 G7) as G67.
  assert (Hwf2 : store_wf (s_db st2)).
  { eapply calm_wf; [by apply acts_cap_gate|exact E2|].
    eapply calm_wf; [by apply acts_ping_phase|exact E1|done]. }
  destruct res.
  - assert (p = pane0) as ->.
    { unfold drift_check in E5. rewrite orb_true_r in E5. by injection E5 as ->. }
    apply (resolve_hosts a st2 pane0 stale st3 Hwf2) in E3.
    eapply hosts_within; [exact G12| |exact E3]. exact (adds_trans _ _ _ _ G45 G67).
  - apply (liveness_hosts a) in E6.
    eapply hosts_within; [|exact G7|exact E6].
    exact (adds_trans _ _ _ _ G12 (adds_trans _ _ _ _ G3 G45)).
Qed.

(** What the last look establishes. *)
Lemma safety_probes pane msg st u st' :
  pre_paste_safety o cls pane msg sw st = (Go u, st') ->
  probed_safe msg pane (s_hist st) (s_hist st').
Proof.
  intros E. unfold pre_paste_safety in E. rewrite Hsafe in E.
  apply andthen_go in E as ([[ps ev] perr] & st1 & E1 & E).
  unfold probe, lift in E1.
  destruct (op_timeout (agentState cls pane) (sw_io sw) (s_hist st)) as [r h1] eqn:Er.
  injection E1 as -> <-.
  destruct (negb (bool_decide (perr = None)) || paste_unsafe msg ps) eqn:Eb.
  - exfalso. apply andthen_go in E as (? & st2 & _ & E).
    assert (Hreset : forall st3, andthen (update (set_pane_streak 0 EmptyString)) (fun _ => continue)
                                  sw st3 <> (Go u, st')) by (by intros st3).
    destruct perr as [e|]; [|by apply Hreset in E].
    destruct (isCantFindPaneError e); [|by apply Hreset in E].
    unfold pane_not_found in E. apply andthen_go in E as (v & st3 & _ & E). cbv zeta in E.
    apply andthen_go in E as (? & st4 & _ & E).
    destruct (_ && _).
    + apply andthen_go in E as (? & ? & _ & E). by apply andthen_go in E as (? & ? & _ & E).
    + unfold retry_after in E. by apply andthen_go in E as (? & ? & _ & E).
  - apply orb_false_iff in Eb as [Ep Eu]. apply negb_false_iff, bool_decide_eq_true_1 in Ep. subst perr.
    exists ps, ev. unfold update in E. injection E as _ <-. simpl. by rewrite Er.
Qed.

Lemma grows_typed {A} (c : M A) Q st r st' :
  acts sw (typed_into Q) c -> c sw st = (r, st') -> adds (typed_into Q) (s_hist st) (s_hist st').
Proof. intros Hc E. specialize (Hc st). rewrite E in Hc. apply Hc. Qed.

Notation rest a pane msg := (fun derr : result unit =>
  delivered <! finish o cls fuel pane a msg derr ;;
  _ <! doorbell ;;
  pause (postDeliverDelay delivered (so_InterMessageDelay o) (so_PostDeliverCooldown o))).

(** After the delivery, text goes into the pane of the delivery only. *)
Lemma acts_rest (Q : string -> Prop) a pane msg derr : Q pane -> acts sw (typed_into Q) (rest a pane msg derr).
Proof.
  intros HQ. pose proof (calm_typed Q) as Hc.
  apply acts_andthen; [by apply acts_finish|intros delivered].
  apply acts_andthen; [by apply acts_doorbell|intros u]. by apply acts_pause.
Qed.

(** The heal does nothing, unless tmux lost the pane and the walker names another. *)
Lemma auto_heal_cases pane msg settle derr st :
  auto_heal o active cfg pane msg settle derr sw st = (Go derr, st) \/
  (exists e, derr = Err e /\ isCantFindPaneError e = true) /\
  (adds calm (s_hist st) (s_hist (snd (auto_heal o active cfg pane msg settle derr sw st))) \/
   exists p, LookupByName wk (EvCall "LookupByName" :: s_hist st) me = Ok p /\
     p <> EmptyString /\ p <> pane /\
     adds (typed_into (eq p)) (s_hist st)
       (s_hist (snd (auto_heal o active cfg pane msg settle derr sw st)))).
Proof.
  unfold auto_heal. destruct derr as [u|e]; [by left|].
  destruct (isCantFindPaneError e) eqn:Ee; [|by left]. right. split; [by eauto|].
  cbn [negb]. cbv beta iota. unfold andthen at 1 3, ask. cbv beta iota zeta. set (h := EvCall "LookupByName" :: s_hist st).
  assert (Hh : adds calm (s_hist st) h) by (by apply adds_cons).
  destruct (LookupByName wk h me) as [p|e'] eqn:El; [|left; exact Hh].
  destruct (str_empty p || bool_decide (p = pane)) eqn:Ep; [left; exact Hh|].
  apply orb_false_iff in Ep as [E1 E2]. apply bool_decide_eq_false_1 in E1, E2.
  right. exists p. split; [done|]. split; [done|]. split; [done|].
  eapply adds_trans; [eapply adds_mono; [|exact Hh]; apply calm_typed|].
  match goal with |- adds _ _ (s_hist (snd (?c sw ?s))) =>
    assert (Ha : acts sw (typed_into (eq p)) c); [|by apply (Ha s)] end.
  pose proof (calm_typed (eq p)) as Hc.
  apply acts_andthen; [apply acts_store; [done|done|intros; apply step_UpsertAgent]|intros [u|e']; [|apply acts_go]]. by apply acts_deliver_to.
Qed.

(** The delivery: its first attempt, and the history it leaves. *)
Lemma deliver_to_runs pane msg settle st derr st' :
  deliver_to o active cfg pane msg settle sw st = (Go derr, st') ->
  exists body h0, adds calm (s_hist st) h0 /\
    op_timeout (deliverOne active cfg pane msg settle body) (sw_io sw) h0 = (derr, s_hist st').
Proof.
  intros E. unfold deliver_to in E. apply andthen_go in E as (body & st1 & E1 & E).
  exists body, (s_hist st1). split.
  - revert E1. destruct (is_control msg); [intros [= <- <-]; apply adds_refl|].
    intros E1. eapply calm_grows; [|exact E1]. by apply acts_rendered.
  - unfold lift in E. destruct (op_timeout _ _ _) as [r h1]. injection E as -> <-. done.
Qed.

Lemma delivery_typed pane msg st r st' :
  deliver_phase o active cfg pane msg sw st = (r, st') -> typed_from msg pane (s_hist st) (s_hist st').
Proof.
  intros E. unfold deliver_phase in E. pose proof (calm_typed (eq pane)) as Hc.
  apply andthen_inv in E as [(settle & st1 & E1 & E)|(_ & <- & _)]; [|left; by apply acts_consume].
  pose proof (calm_grows _ _ _ _ (acts_consume sw calm Hcalm) E1) as G1.
  apply (grows_typed _ (eq pane)) in E1; [|by apply acts_consume].
  apply andthen_inv in E as [(derr & st2 & E2 & E)|(_ & <- & _)].
  2:{ left. eapply adds_trans; [exact E1|]. by apply acts_deliver_to. }
  pose proof (deliver_to_runs pane msg settle st1 derr st2 E2) as (body & h0 & Hcalm0 & Hrun).
  apply (grows_typed _ (eq pane)) in E2; [|by apply acts_deliver_to].
  pose proof (adds_trans _ _ _ _ E1 E2) as E12.
  pose proof (auto_heal_cases pane msg settle derr st2) as H. rewrite E in H. simpl in H.
  destruct H as [[= -> ->]|[(e & -> & He) [H|(p & Hl & Hne & Hp & H)]]]; [by left| |].
  - left. eapply adds_trans; [exact E12|]. eapply adds_mono; [|exact H]. apply Hc.
  - right. exists (s_hist st2), p. split; [exact E12|]. split.
    + exists settle, body, h0, e. by repeat split; [eapply adds_trans; [exact G1|exact Hcalm0]|..].
    + eapply adds_mono; [|exact H]. intros ev Hev Hi. destruct (Hev Hi) as (q & Hq & <-). eauto.
Qed.

(** What follows the delivery stays where the text already went. *)
Lemma typed_from_rest pane msg h h' h'' :
  typed_from msg pane h h' -> (forall Q : string -> Prop, Q pane -> adds (typed_into Q) h' h'') ->
  typed_from msg pane h h''.
Proof.
  intros [H|(h1 & p & H1 & Hl & H2)] Hrest.
  - left. eapply adds_trans; [exact H|by apply Hrest].
  - right. exists h1, p. split; [done|]. split; [done|].
    eapply adds_trans; [exact H2|]. apply Hrest. by left.
Qed.
End Safety.

(** C1: nothing is typed into a pane that was not checked.  After a claim, when both
    the drift check and the pre-paste check are enabled and no store access fails,
    either nothing is typed anywhere, or: the walker answered that the agent's own
    session lives in the pane or that its foreground process is not a shell, the last
    probe of that pane found a state the message may be pasted in, nothing was typed
    before it, and everything typed after it went into that pane.  The one exception:
    once the delivery to the checked pane has failed with tmux's answer that the pane
    cannot be found, and not before, the text may also go into the other pane the
    walker, asked at that moment, names for the agent. *)
Theorem paste_only_where_checked sw o active cfg cls fuel a msg st :
  sound_env sw o -> so_DriftCheckDisabled o = false -> so_PrePasteSafetyDisabled o = false ->
  store_wf (s_db st) ->
  let st' := snd (after_claim o active cfg cls fuel a msg sw st) in
  adds calm (s_hist st) (s_hist st') \/
  checked_paste sw o active cfg cls a msg (s_hist st) (s_hist st').
Proof.
  intros Henv Hdrift Hsafe Hwf. cbv zeta.
  destruct (after_claim o active cfg cls fuel a msg sw st) as [r st'] eqn:E. simpl.
  pose proof (se_others sw o Henv) as Hothers.
  assert (Hcalm : forall ev, calm ev -> calm ev) by done.
  unfold after_claim in E.
  apply andthen_inv in E as [(pane & st1 & E1 & E)|(_ & <- & _)]; [|left; by apply acts_route].
  pose proof (calm_grows sw _ _ _ _ (acts_route sw Hothers calm Hcalm o active cls a msg) E1) as G1.
  apply andthen_inv in E as [(u2 & st2 & E2 & E)|(_ & <- & _)];
    [|left; eapply adds_trans; [exact G1|by apply acts_gate]].
  pose proof (calm_grows sw _ _ _ _ (acts_gate sw Hothers calm Hcalm o active cfg cls fuel pane msg) E2) as G2.
  apply andthen_inv in E as [(u3 & st3 & E3 & E)|(_ & <- & _)];
    [|left; eapply adds_trans; [exact G1|eapply adds_trans; [exact G2|by apply acts_safety]]].
  pose proof (calm_grows sw _ _ _ _ (acts_safety sw Hothers calm Hcalm o cls pane msg) E3) as G3.
  right. exists pane, (s_hist st2), (s_hist st3).
  split; [by eapply adds_trans|]. split.
  { apply (route_hosts sw o active cls Henv Hdrift) in E1; [|done].
    eapply hosts_within; [apply adds_refl|exact G2|exact E1]. }
  split; [by apply (safety_probes sw o cls Hsafe) in E3|]. split; [exact G3|].
  apply andthen_inv in E as [(derr & st4 & E4 & E)|(_ & <- & _)].
  - eapply typed_from_rest; [by eapply (delivery_typed sw o active cfg Henv)|]. intros Q HQ.
    eapply (grows_typed sw); [|exact E]. by apply acts_rest.
  - destruct (deliver_phase o active cfg pane msg sw st3) as [r' st'] eqn:E4.
    by eapply (delivery_typed sw o active cfg Henv).
Qed.

(** ** A concrete run *)

(** The keys of the message, typed into a pane. *)
Definition typed (pane : string) : event := EvRun None ["send-keys"; "-t"; pane; "-l"; "/cost"].

Lemma demo_sound lost : sound_env (demo_env lost no_faults) demo_opts.
Proof. constructor; [intros h d; apply rtc_refl|done|by vm_compute|by vm_compute]. Qed.

Lemma paste_only_where_checked_witness :
  typed "%1" ∈ s_hist (demo_end false no_faults EmptyString) /\
  checked_paste (demo_env false no_faults) demo_opts demo_adapter (default_cfg ClaudePaneProfile)
    demo_classifier (demo_agent EmptyString) demo_msg
    [] (s_hist (demo_end false no_faults EmptyString)).
Proof.
  assert (Hin : typed "%1" ∈ s_hist (demo_end false no_faults EmptyString)).
  { apply (bool_decide_eq_true_1 _). vm_compute. reflexivity. }
  split; [exact Hin|].
  destruct (paste_only_where_checked (demo_env false no_faults) demo_opts demo_adapter
              (default_cfg ClaudePaneProfile) demo_classifier 5 (demo_agent EmptyString) demo_msg
              demo_start (demo_sound false) eq_refl eq_refl empty_db_wf) as [H|H]; [|exact H].
  exfalso. destruct H as (new & Hnew & Hall). rewrite app_nil_r in Hnew.
  fold (demo_end false no_faults EmptyString) in Hnew. rewrite Hnew in Hin.
  rewrite Forall_forall in Hall. by specialize (Hall _ Hin).
Defined.

(** The retry of the auto-heal is the exception: the pane the walker names gets the
    message although it is never probed and its foreground process is a shell. *)
Lemma auto_heal_unchecked :
  typed "%2" ∈ s_hist (demo_end true no_faults EmptyString) /\
  (forall h, PaneAcceptsPaste demo_walker h "%2" = false) /\
  Forall (fun ev => ev <> EvRun None (cmd_capture "%2")) (s_hist (demo_end true no_faults EmptyString)).
Proof.
  split; [|split; [done|]].
  - apply (bool_decide_eq_true_1 _). vm_compute. reflexivity.
  - apply (bool_decide_eq_true_1 _). vm_compute. reflexivity.
Qed.

(** The registration of the pane the session lives in fails. *)
Definition upsert_fails (h : history) : option error :=
  match h with
  | EvCall "UpsertAgent" :: _ => Some (ErrMsg "database is locked")
  | _ => None
  end.

(** When the store refuses to move the registration to the session's pane, the
    message goes to the registered pane, and the foreground check is skipped. *)
Lemma failed_heal_skips_checks :
  typed "%1" ∈ s_hist (demo_end false upsert_fails "sid") /\
  Forall (fun ev => ev <> EvCall "PaneAcceptsPaste") (s_hist (demo_end false upsert_fails "sid")).
Proof.
  split; apply (bool_decide_eq_true_1 _); vm_compute; reflexivity.
Qed.
