(* ===== verification/Discover.v ===== *)
(** * Which pane runs which agent (internal/discover/discover.go)

    The walk over a pane's process tree for the name or the session of the agent it
    hosts, the fall-back on its title and window name, and the lookups built on it.
    [/proc] and [tmux list-panes] are read through functions; a lookup reads them as
    they are when it runs. *)

From S2P Require Import Prelude GoStd TmuxIO Mailman.

Open Scope Z_scope.
Open Scope tell_scope.

(** ** Readers *)

Definition NeutralSessionIDEnv : string := "TMUX_TELL_SESSION_ID".

Definition nul : ascii := Ascii.ascii_of_nat 0.
Definition nul_str : string := String nul EmptyString.

(** The text of [/proc/<pid>/environ] for a key. *)
Fixpoint environ_item (items : list string) (prefix : string) : option string :=
  match items with
  | [] => None
  | item :: rest =>
      match Str.CutPrefix item prefix with Some v => Some v | None => environ_item rest prefix end
  end.

Definition environ_value (data key : string) : option string :=
  environ_item (Str.Split nul data) (key +:+ "=").

(** [fmt.Sscanf(tok, "%d", &n)]: the leading decimal integer of a token. *)
Fixpoint leading_digits (s : string) : string :=
  match s with
  | EmptyString => EmptyString
  | String a s' => if Str.is_digit a then String a (leading_digits s') else EmptyString
  end.

Definition scan_int (tok : string) : option Z :=
  match tok with
  | String "-" s => Str.Atoi (String "-" (leading_digits s))
  | String "+" s => Str.Atoi (String "+" (leading_digits s))
  | s => Str.Atoi (leading_digits s)
  end.

(** The text of [/proc/<pid>/task/<pid>/children]. *)
Definition children_pids (data : string) : list Z := omap scan_int (Str.Fields data).

(** [None] is a file that cannot be read. *)
Record Readers : Type := mkReaders {
  CmdlineReader : Z -> option string;
  ChildrenReader : Z -> list Z;
  EnvironReader : option (Z -> string -> option string);
  MaxDepth : Z
}.

(** The production readers over the files of [/proc]. *)
Definition New (cmdline children environ : Z -> option string) : Readers :=
  mkReaders cmdline
    (fun pid => match children pid with Some data => children_pids data | None => [] end)
    (Some (fun pid key => match environ pid with Some data => environ_value data key | None => None end))
    3.

(** ** Names *)

Definition parseCmdline (raw : string) : list string :=
  let s := Str.TrimRight raw [nul_str] in
  if str_empty s then [] else Str.Split nul s.

Fixpoint until_flag (argv : list string) : list string :=
  match argv with
  | [] => []
  | a :: rest => if Str.HasPrefix a "-" then [] else a :: until_flag rest
  end.

Fixpoint extractResumeName (argv : list string) : string :=
  match argv with
  | [] => EmptyString
  | a :: rest =>
      if Str.HasPrefix a "--resume=" then Str.TrimPrefix a "--resume="
      else if bool_decide (a = "--resume") then Str.Join (until_flag rest) " "
      else extractResumeName rest
  end.

(** A rune outside ASCII is made of bytes outside ASCII, so the scan by runes is a
    scan by bytes. *)
Definition starts_name (a : ascii) : bool :=
  let n := Ascii.nat_of_ascii a in
  ((65 <=? n) && (n <=? 90) || (97 <=? n) && (n <=? 122) || (48 <=? n) && (n <=? 57)
   || (n =? 95) || (n =? 45))%nat.

Fixpoint stripTitleIndicators (s : string) : string :=
  match s with
  | EmptyString => EmptyString
  | String a s' =>
      if starts_name a then Str.TrimSpace s
      else if negb (Str.is_blank a) && (Ascii.nat_of_ascii a <? 128)%nat then EmptyString
      else stripTitleIndicators s'
  end.

Definition isGenericWindowName (s : string) : bool :=
  bool_decide (Str.ToLower (Str.TrimSpace s) ∈ [""; "bash"; "sh"; "zsh"; "fish"; "claude"; "tmux"]).

(** ** The walk *)

Section Find.
Context {A B : Type} (f : A -> option B).

(** The first answer of a loop with an early return. *)
Fixpoint first_some (l : list A) : option B :=
  match l with
  | [] => None
  | x :: l' => match f x with Some y => Some y | None => first_some l' end
  end.
End Find.

Section Walk.
Context (r : Readers).

(** Ask a process and its descendants, down to [left] levels below it. *)
Fixpoint descendant_search {B} (visit : Z -> option B) (left : nat) (pid : Z) : option B :=
  if pid <=? 0 then None
  else
    match visit pid with
    | Some v => Some v
    | None =>
        match left with
        | O => None
        | S n => first_some (descendant_search visit n) (ChildrenReader r pid)
        end
    end.

(** Levels still below [depth]. *)
Definition levels (depth : Z) : nat := Z.to_nat (MaxDepth r - depth).

Definition resume_name (pid : Z) : option string :=
  match CmdlineReader r pid with
  | None => None
  | Some cmdline =>
      let name := extractResumeName (parseCmdline cmdline) in
      if str_empty name then None else Some name
  end.

Definition cmdlineDescendantSearch (pid depth : Z) : option string :=
  descendant_search resume_name (levels depth) pid.

Definition session_id (read : Z -> string -> option string) (pid : Z) : option string :=
  match read pid NeutralSessionIDEnv with
  | Some v => if str_empty v then None else Some v
  | None => None
  end.

Definition sessionIDDescendantSearch (pid depth : Z) : option string :=
  match EnvironReader r with
  | None => None
  | Some read => descendant_search (session_id read) (levels depth) pid
  end.

Inductive Source : Type :=
  | SourceCmdline
  | SourceTitle
  | SourceWindowName.

Record Resolved : Type := mkResolved {
  rv_PaneID : string;
  rv_AgentName : string;
  rv_Source : Source
}.

Definition Walker_Resolve (p : PaneInfo) : option Resolved :=
  match cmdlineDescendantSearch (pi_PID p) 0 with
  | Some name => Some (mkResolved (pi_ID p) name SourceCmdline)
  | None =>
      let title := stripTitleIndicators (pi_Title p) in
      if negb (str_empty title) then Some (mkResolved (pi_ID p) title SourceTitle)
      else
        let window := stripTitleIndicators (pi_WindowName p) in
        if negb (str_empty window) && negb (isGenericWindowName window)
        then Some (mkResolved (pi_ID p) window SourceWindowName) else None
  end.

Definition WalkAll (run : string + exec_failure) : result (list Resolved) :=
  match ListPanesWithPID run with
  | Err e => Err e
  | Ok panes => Ok (omap Walker_Resolve panes)
  end.

(** ** Lookups *)

Definition Walker_LookupByName (run : string + exec_failure) (name : string) : result string :=
  match WalkAll run with
  | Err e => Err e
  | Ok all =>
      Ok (match List.find (fun v => bool_decide (rv_AgentName v = name)) all with
          | Some v => rv_PaneID v
          | None => EmptyString
          end)
  end.

Definition exactMatches (running : string) (canonicals : list CanonicalAgent) : list string :=
  map ca_Name (List.filter (fun c =>
    bool_decide (ca_Name c = running) || bool_decide (running ∈ ca_Aliases c)) canonicals).

Definition substringMatches (running : string) (canonicals : list CanonicalAgent) : list string :=
  map ca_Name (List.filter (fun c =>
    Str.Contains (Str.ToLower running) (Str.ToLower (ca_Name c))) canonicals).

(** One pass over the panes: the first one that only [name] claims, unless one that
    several claim comes before it. *)
Fixpoint claim_pass (claims : string -> list string) (name : string) (all : list Resolved)
    : option (string * bool) :=
  match all with
  | [] => None
  | v :: rest =>
      match claims (rv_AgentName v) with
      | [] => claim_pass claims name rest
      | [who] => if bool_decide (who = name) then Some (rv_PaneID v, false) else claim_pass claims name rest
      | _ => Some (EmptyString, true)
      end
  end.

Definition Walker_LookupByNameWithCanonicals (run : string + exec_failure) (name : string)
    (canonicals : list CanonicalAgent) : result (string * bool) :=
  match WalkAll run with
  | Err e => Err e
  | Ok all =>
      Ok (match claim_pass (fun s => exactMatches s canonicals) name all with
          | Some answer => answer
          | None =>
              match claim_pass (fun s => substringMatches s canonicals) name all with
              | Some answer => answer
              | None => (EmptyString, false)
              end
          end)
  end.

(** The canonical name of what a pane runs. *)
Definition canonical_name (running : string) (canonicals : list CanonicalAgent) : string * bool :=
  match exactMatches running canonicals with
  | [who] => (who, false)
  | _ :: _ :: _ => (EmptyString, true)
  | [] =>
      match substringMatches running canonicals with
      | [] => (running, false)
      | [who] => (who, false)
      | _ => (EmptyString, true)
      end
  end.

Definition Walker_PaneAgentNameWithCanonicals (run : string + exec_failure) (paneID : string)
    (canonicals : list CanonicalAgent) : result (string * bool) :=
  match WalkAll run with
  | Err e => Err e
  | Ok all =>
      Ok (match List.find (fun v => bool_decide (rv_PaneID v = paneID)) all with
          | Some v => canonical_name (rv_AgentName v) canonicals
          | None => (EmptyString, false)
          end)
  end.

Definition PaneAgentName (run : string + exec_failure) (paneID : string) : result string :=
  match WalkAll run with
  | Err e => Err e
  | Ok all =>
      Ok (match List.find (fun v => bool_decide (rv_PaneID v = paneID)) all with
          | Some v => rv_AgentName v
          | None => EmptyString
          end)
  end.

Definition Walker_SessionIDForPane (run : string + exec_failure) (paneID : string) : option string :=
  match ListPanesWithPID run with
  | Err _ => None
  | Ok panes =>
      match List.find (fun p => bool_decide (pi_ID p = paneID)) panes with
      | Some p => sessionIDDescendantSearch (pi_PID p) 0
      | None => None
      end
  end.

Definition Walker_LookupBySessionID (run : string + exec_failure) (sessionID : string) : result string :=
  if str_empty sessionID then Ok EmptyString
  else
    match ListPanesWithPID run with
    | Err e => Err e
    | Ok panes =>
        Ok (match List.find (fun p => bool_decide (sessionIDDescendantSearch (pi_PID p) 0 = Some sessionID)) panes with
            | Some p => pi_ID p
            | None => EmptyString
            end)
    end.
End Walk.

Definition Walker_PaneAcceptsPaste (paneID : string) : T bool :=
  r <~ PaneCurrentCommand paneID ;;
  ret (match r with
       | Err _ => false
       | Ok cmd => negb (str_empty cmd) && negb (IsShellProcess cmd)
       end).

(** ** The walker of the mailman *)

(** What the mailman's loop asks, answered by the walk over the processes and panes of
    the moment. *)
Definition discover_walker (w : World) (proc : history -> Readers)
    (panes : history -> string + exec_failure) : Walker :=
  mkWalker
    (fun h sid => Walker_LookupBySessionID (proc h) (panes h) sid)
    (fun h pane cs => Walker_PaneAgentNameWithCanonicals (proc h) (panes h) pane cs)
    (fun h name cs => Walker_LookupByNameWithCanonicals (proc h) (panes h) name cs)
    (fun h name => Walker_LookupByName (proc h) (panes h) name)
    (fun h pane => fst (Walker_PaneAcceptsPaste pane w h))
    (fun h pane => Walker_SessionIDForPane (proc h) (panes h) pane).
