(* ===== verification/DiscoverProps.v ===== *)
(** * Correctness of the pane lookups

    The walk over a process tree against the list of the processes it visits; which
    pane a session and a name resolve to; and the mailman on top of it, which types
    only into panes that run no shell or host the session. *)

From S2P Require Import Prelude GoStd StoreTypes TmuxIO Mailman PasteSafety Discover.

Open Scope Z_scope.
Open Scope tell_scope.

(** ** The walk *)

Section Search.
Context {A B : Type} (f : A -> option B).

Lemma first_some_app l1 l2 :
  first_some f (l1 ++ l2) = match first_some f l1 with Some y => Some y | None => first_some f l2 end.
Proof. induction l1 as [|x l1 IH]; simpl; [done|]. by destruct (f x). Qed.

(** The first answer comes from the first element that has one. *)
Lemma first_some_Some l y :
  first_some f l = Some y <->
  exists l1 x l2, l = l1 ++ x :: l2 /\ f x = Some y /\ Forall (fun x' => f x' = None) l1.
Proof.
  split.
  - induction l as [|x l IH]; simpl; [done|]. destruct (f x) as [y'|] eqn:E.
    + intros [= ->]. exists [], x, l. repeat split; [done|constructor].
    + intros (l1 & x' & l2 & -> & Hx & Hl1)%IH. exists (x :: l1), x', l2. split; [done|].
      split; [done|]. by constructor.
  - intros (l1 & x & l2 & -> & Hx & Hl1). rewrite first_some_app.
    assert (first_some f l1 = None) as -> by (induction Hl1 as [|? ? E _ IH]; simpl; by rewrite ?E).
    simpl. by rewrite Hx.
Qed.

Lemma first_some_None l : first_some f l = None <-> Forall (fun x => f x = None) l.
Proof.
  split.
  - induction l as [|x l IH]; simpl; [constructor|]. destruct (f x) eqn:E; [done|]. intros. constructor; auto.
  - induction 1 as [|x l E _ IH]; simpl; [done|]. by rewrite E.
Qed.
End Search.

Lemma first_some_flat {A B C} (f : B -> option C) (g : A -> list B) l :
  first_some f (flat_map g l) = first_some (fun x => first_some f (g x)) l.
Proof. induction l as [|x l IH]; simpl; [done|]. rewrite first_some_app, IH. done. Qed.

Lemma first_some_ext {A B} (f g : A -> option B) l :
  (forall x, f x = g x) -> first_some f l = first_some g l.
Proof. intros H. induction l as [|x l IH]; simpl; [done|]. by rewrite H, IH. Qed.

Section Tree.
Context (r : Readers).

(** The processes of a tree in the order of the walk. *)
Fixpoint preorder (left : nat) (pid : Z) : list Z :=
  if pid <=? 0 then []
  else pid :: match left with O => [] | S n => flat_map (preorder n) (ChildrenReader r pid) end.

(** Reachable from [root] over at most [left] children. *)
Inductive below : nat -> Z -> Z -> Prop :=
  | below_here left pid : 0 < pid -> below left pid pid
  | below_child left pid child q :
      0 < pid -> child ∈ ChildrenReader r pid -> below left child q -> below (S left) pid q.

Lemma preorder_below left pid q : q ∈ preorder left pid <-> below left pid q.
Proof.
  split.
  - revert pid. induction left as [|n IH]; intros pid; simpl; destruct (Z.leb_spec pid 0) as [Hp|Hp];
      rewrite ?elem_of_cons, ?elem_of_nil; try done.
    + intros [->|[]]. by constructor.
    + intros [->|Hq]; [by constructor|]. apply list_elem_of_In, in_flat_map in Hq as (c & Hc & Hq).
      rewrite <- list_elem_of_In in Hc, Hq. eapply below_child; eauto.
  - induction 1 as [left pid Hp|left pid c q Hp Hc _ IH].
    + destruct left; simpl; rewrite (proj2 (Z.leb_gt _ _)) by done; by apply elem_of_cons; left.
    + simpl. rewrite (proj2 (Z.leb_gt _ _)) by done. apply elem_of_cons. right.
      apply list_elem_of_In, in_flat_map. exists c. by rewrite <- !list_elem_of_In.
Qed.

Lemma search_preorder {B} (visit : Z -> option B) left pid :
  descendant_search r visit left pid = first_some visit (preorder left pid).
Proof.
  revert pid. induction left as [|n IH]; intros pid; simpl; destruct (pid <=? 0); try done; simpl.
  destruct (visit pid); [done|]. rewrite first_some_flat. by apply first_some_ext.
Qed.

(** The processes the walk of a pane looks at. *)
Definition tree (pid : Z) : list Z := preorder (levels r 0) pid.

(** The pane hosts the session: of the processes of its tree that carry a session id,
    the first carries this one. *)
Definition hosts_session (p : PaneInfo) (sid : string) : Prop :=
  exists read l1 q l2, EnvironReader r = Some read /\ tree (pi_PID p) = l1 ++ q :: l2 /\
    read q NeutralSessionIDEnv = Some sid /\ sid <> EmptyString /\
    forall q', q' ∈ l1 -> read q' NeutralSessionIDEnv = None \/ read q' NeutralSessionIDEnv = Some EmptyString.

Lemma session_id_Some read q sid :
  session_id read q = Some sid <-> read q NeutralSessionIDEnv = Some sid /\ sid <> EmptyString.
Proof.
  unfold session_id. destruct (read q _) as [v|]; [|naive_solver]. case_bool_decide; naive_solver.
Qed.

Lemma session_id_None read q :
  session_id read q = None <-> read q NeutralSessionIDEnv = None \/ read q NeutralSessionIDEnv = Some EmptyString.
Proof.
  unfold session_id. destruct (read q _) as [v|]; [|naive_solver]. case_bool_decide; naive_solver.
Qed.

Lemma search_hosts p sid : sessionIDDescendantSearch r (pi_PID p) 0 = Some sid <-> hosts_session p sid.
Proof.
  unfold sessionIDDescendantSearch, hosts_session. destruct (EnvironReader r) as [read|]; [|naive_solver].
  rewrite search_preorder, first_some_Some. unfold tree. split.
  - intros (l1 & q & l2 & E & [Hq Hne]%session_id_Some & Hl1). exists read, l1, q, l2. split_and!; try done.
    intros q' Hq'. rewrite Forall_forall in Hl1. by apply session_id_None, Hl1.
  - intros (read' & l1 & q & l2 & [= <-] & E & Hq & Hne & Hl1). exists l1, q, l2. split; [done|].
    split; [by apply session_id_Some|]. rewrite Forall_forall. intros q' Hq'. by apply session_id_None, Hl1.
Qed.
End Tree.

(** ** Finding a pane by its session *)

Lemma find_Some_split {A} (f : A -> bool) l x :
  List.find f l = Some x -> exists l1 l2, l = l1 ++ x :: l2 /\ f x = true /\ Forall (fun y => f y = false) l1.
Proof.
  induction l as [|y l IH]; simpl; [done|]. destruct (f y) eqn:E.
  - intros [= ->]. by exists [], l.
  - intros (l1 & l2 & -> & Hx & Hl)%IH. exists (y :: l1), l2. split; [done|]. split; [done|]. by constructor.
Qed.

Lemma find_None_all {A} (f : A -> bool) l : List.find f l = None -> Forall (fun y => f y = false) l.
Proof.
  induction l as [|y l IH]; simpl; [constructor|]. destruct (f y) eqn:E; [done|]. intros. constructor; auto.
Qed.

(** The first of a keyed list, when the keys are distinct. *)
Lemma find_by_key {A} (key : A -> string) l x :
  NoDup (map key l) -> x ∈ l -> List.find (fun y => bool_decide (key y = key x)) l = Some x.
Proof.
  induction l as [|y l IH]; simpl; intros Hnd Hx; [by apply elem_of_nil in Hx|].
  apply NoDup_cons in Hnd as [Hy Hnd]. case_bool_decide as E.
  - apply elem_of_cons in Hx as [->|Hx]; [done|]. exfalso. apply Hy. rewrite E.
    apply list_elem_of_In, in_map. by rewrite <- list_elem_of_In.
  - apply elem_of_cons in Hx as [->|Hx]; [done|]. by apply IH.
Qed.

(** A session resolves to the pane that hosts it.  The walk looks at exactly the
    processes at most [MaxDepth] children below a pane's own, each after its parent;
    the lookup answers with the first listed pane whose tree names the session before
    any other, and with no pane exactly when there is none.  Asking that pane for its
    session, as a registration does, gives the same session back. *)
Theorem session_lookup_exact r run sid panes :
  sid <> EmptyString -> ListPanesWithPID run = Ok panes -> NoDup (map pi_ID panes) ->
  (forall pid q, q ∈ tree r pid <-> below r (levels r 0) pid q) /\
  exists found, Walker_LookupBySessionID r run sid = Ok found /\
    ((exists before p after, panes = before ++ p :: after /\ found = pi_ID p /\ hosts_session r p sid /\
        (forall p', p' ∈ before -> ~ hosts_session r p' sid) /\
        Walker_SessionIDForPane r run found = Some sid) \/
     (found = EmptyString /\ forall p, p ∈ panes -> ~ hosts_session r p sid)).
Proof.
  intros Hs Hl Hnd. split; [intros pid q; apply preorder_below|].
  unfold Walker_LookupBySessionID, Walker_SessionIDForPane. rewrite bool_decide_false, Hl by done.
  destruct (List.find _ panes) as [p|] eqn:E; eexists; (split; [done|]).
  - left. apply find_Some_split in E as (l1 & l2 & -> & Hp & Hl1). apply bool_decide_eq_true in Hp.
    exists l1, p, l2. split; [done|]. split; [done|]. split; [by apply search_hosts|]. split.
    + intros p' Hp' Hh%search_hosts. rewrite Forall_forall in Hl1. apply Hl1, bool_decide_eq_false in Hp'. done.
    + rewrite (find_by_key pi_ID) by (done || set_solver). done.
  - right. split; [done|]. apply find_None_all in E. rewrite Forall_forall in E.
    intros p Hp Hh%search_hosts. apply E, bool_decide_eq_false in Hp. done.
Qed.

(** ** Finding a pane by its name *)

Section Names.
Context (name : string) (cs : list CanonicalAgent).

(** Nobody claims what the pane runs, or one agent other than [name] does. *)
Definition others_pane (claims : string -> list string) (v : Resolved) : Prop :=
  claims (rv_AgentName v) = [] \/ exists who, who <> name /\ claims (rv_AgentName v) = [who].

Inductive pass_spec (claims : string -> list string) (all : list Resolved) : option (string * bool) -> Prop :=
  | pass_found v :
      v ∈ all -> claims (rv_AgentName v) = [name] -> pass_spec claims all (Some (rv_PaneID v, false))
  | pass_torn v :
      v ∈ all -> (2 <= length (claims (rv_AgentName v)))%nat -> pass_spec claims all (Some (EmptyString, true))
  | pass_none : Forall (others_pane claims) all -> pass_spec claims all None.

Lemma claim_pass_ok claims all : pass_spec claims all (claim_pass claims name all).
Proof.
  induction all as [|v all IH]; simpl; [by apply pass_none|].
  assert (others_pane claims v -> pass_spec claims (v :: all) (claim_pass claims name all)) as Hskip.
  { intros Hv. destruct IH as [v' Hv' Hc|v' Hv' Hc|Hall].
    - apply pass_found; [by apply elem_of_cons; right|done].
    - eapply pass_torn; [by apply elem_of_cons; right|done].
    - apply pass_none. by constructor. }
  destruct (claims (rv_AgentName v)) as [|who [|who' l]] eqn:E.
  - apply Hskip. by left.
  - case_bool_decide as Ew.
    + subst who. apply pass_found; [by apply elem_of_cons; left|done].
    + apply Hskip. right. by exists who.
  - apply (pass_torn _ _ v); [by apply elem_of_cons; left|]. rewrite E. simpl. lia.
Qed.

Lemma exact_registered : name ∈ map ca_Name cs -> exactMatches name cs <> [].
Proof.
  intros (c & En & Hc)%list_elem_of_fmap E. apply map_eq_nil in E.
  assert (c ∈ List.filter (fun c0 => bool_decide (ca_Name c0 = name) || bool_decide (name ∈ ca_Aliases c0)) cs) as H.
  { apply list_elem_of_In, filter_In. rewrite <- list_elem_of_In. split; [done|]. by rewrite bool_decide_true. }
  rewrite E in H. by apply elem_of_nil in H.
Qed.

(** What a lookup of [name] may answer: the pane of [v], or none. *)
Definition found_pane (r : Readers) (run : string + exec_failure) (v : Resolved) : Prop :=
  Walker_PaneAgentNameWithCanonicals r run (rv_PaneID v) cs = Ok (name, false) \/
  exists other, other <> name /\ exactMatches (rv_AgentName v) cs = [other] /\
    substringMatches (rv_AgentName v) cs = [name] /\
    Walker_PaneAgentNameWithCanonicals r run (rv_PaneID v) cs = Ok (other, false).
End Names.

(** C12: what a name lookup finds.  For a registered agent and panes with distinct ids:
    when the lookup names a pane, asking that pane for its agent gives the agent back,
    except in one case, a pane that is another agent's by an exact name or alias and
    merely contains the name looked up; when it answers ambiguous it names no pane,
    and some pane is claimed by two agents; when it finds nothing, no pane answers to
    the name. *)
Theorem name_lookup_correct r run name cs all :
  WalkAll r run = Ok all -> NoDup (map rv_PaneID all) -> name ∈ map ca_Name cs ->
  match Walker_LookupByNameWithCanonicals r run name cs with
  | Err _ => False
  | Ok (pane, true) =>
      pane = EmptyString /\ exists v, v ∈ all /\
        (2 <= length (exactMatches (rv_AgentName v) cs) \/ 2 <= length (substringMatches (rv_AgentName v) cs))%nat
  | Ok (pane, false) =>
      (exists v, v ∈ all /\ pane = rv_PaneID v /\ found_pane name cs r run v) \/
      (pane = EmptyString /\ forall v, v ∈ all -> canonical_name (rv_AgentName v) cs <> (name, false))
  end.
Proof.
  intros Hw Hnd Hn. unfold Walker_LookupByNameWithCanonicals. rewrite Hw.
  assert (forall v, v ∈ all -> Walker_PaneAgentNameWithCanonicals r run (rv_PaneID v) cs
                               = Ok (canonical_name (rv_AgentName v) cs)) as Hask.
  { intros v Hv. unfold Walker_PaneAgentNameWithCanonicals. rewrite Hw, (find_by_key rv_PaneID) by done. done. }
  pose proof (claim_pass_ok name (fun s => exactMatches s cs) all) as H1.
  destruct (claim_pass _ name all) as [[p b]|]; [|].
  - inversion H1 as [v Hv Hc|v Hv Hc|]; subst; [left|eauto]. exists v. split; [done|]. split; [done|].
    left. rewrite Hask by done. unfold canonical_name. by rewrite Hc.
  - inversion H1 as [| |Hex]; subst. rewrite Forall_forall in Hex.
    pose proof (claim_pass_ok name (fun s => substringMatches s cs) all) as H2.
    destruct (claim_pass _ name all) as [[p b]|]; inversion H2 as [v Hv Hc|v Hv Hc|Hsub]; subst.
    + left. exists v. split; [done|]. split; [done|]. unfold found_pane. rewrite Hask by done.
      unfold canonical_name. destruct (Hex v Hv) as [He|(who & Hne & He)]; rewrite He.
      * left. by rewrite Hc.
      * right. exists who. auto.
    + eauto.
    + right. split; [done|]. rewrite Forall_forall in Hsub. intros v Hv. unfold canonical_name.
      destruct (Hex v Hv) as [He|(who & Hne & He)]; rewrite He; [|congruence].
      destruct (Hsub v Hv) as [Hs|(who & Hne & Hs)]; rewrite Hs; [|congruence].
      intros [= E]. rewrite E in He. by eapply exact_registered.
Qed.

(** ** A concrete host *)

(** Three panes: a shell with a titled corpse, a [claude] two levels down, and a chamber
    launched under an alias. *)
Definition host_cmdline (pid : Z) : option string :=
  if pid =? 12 then Some (Str.Join ["claude"; "--resume"; "bosun"; EmptyString] nul_str)
  else if pid =? 30 then Some (Str.Join ["claude"; "--resume=admin console"] nul_str) else Some "bash".

Definition host_children (pid : Z) : option string :=
  if pid =? 10 then Some "11 " else if pid =? 11 then Some "12 13" else None.

Definition host_environ (pid : Z) : option string :=
  if pid =? 12 then Some (Str.Join ["HOME=/root"; "TMUX_TELL_SESSION_ID=u-1"] nul_str) else None.

Definition host : Readers := New host_cmdline host_children host_environ.

Definition tab_str : string := String Str.tab EmptyString.

Definition host_panes : string + exec_failure :=
  inl (Str.Join [Str.Join ["%1"; "9"; "bosun"; "bash"] tab_str;
                 Str.Join ["%2"; "10"; "x"; "bash"] tab_str;
                 Str.Join ["%3"; "30"; "y"; "bash"] tab_str] (String Str.nl EmptyString)).

Definition host_infos : list PaneInfo :=
  [mkPaneInfo "%1" 9 "bosun" "bash"; mkPaneInfo "%2" 10 "x" "bash"; mkPaneInfo "%3" 30 "y" "bash"].

Definition host_agents : list CanonicalAgent :=
  [mkCanonical "bosun" []; mkCanonical "pilot" ["admin console"]; mkCanonical "admin" []].

Lemma session_lookup_exact_witness :
  ListPanesWithPID host_panes = Ok host_infos /\
  Walker_LookupBySessionID host host_panes "u-1" = Ok "%2" /\
  exists found, Walker_LookupBySessionID host host_panes "u-1" = Ok found /\
    ((exists before p after, host_infos = before ++ p :: after /\ found = pi_ID p /\ hosts_session host p "u-1" /\
        (forall p', p' ∈ before -> ~ hosts_session host p' "u-1") /\
        Walker_SessionIDForPane host host_panes found = Some "u-1") \/
     (found = EmptyString /\ forall p, p ∈ host_infos -> ~ hosts_session host p "u-1")).
Proof.
  split; [vm_compute; reflexivity|]. split; [vm_compute; reflexivity|].
  apply (session_lookup_exact host host_panes "u-1" host_infos); [done|vm_compute; reflexivity|].
  apply (bool_decide_unpack _); vm_compute; exact I.
Defined.

(** What the panes resolve to: the corpse still answers to its title. *)
Definition host_resolved : list Resolved :=
  [mkResolved "%1" "bosun" SourceTitle; mkResolved "%2" "bosun" SourceCmdline;
   mkResolved "%3" "admin console" SourceCmdline].

Lemma name_lookup_correct_witness :
  Walker_LookupByNameWithCanonicals host host_panes "pilot" host_agents = Ok ("%3", false) /\
  exists v, v ∈ host_resolved /\ "%3" = rv_PaneID v /\ found_pane "pilot" host_agents host host_panes v.
Proof.
  assert (Walker_LookupByNameWithCanonicals host host_panes "pilot" host_agents = Ok ("%3", false)) as E
    by (vm_compute; reflexivity).
  split; [exact E|].
  pose proof (name_lookup_correct host host_panes "pilot" host_agents host_resolved) as H. rewrite E in H.
  destruct H as [H|[H _]]; [vm_compute; reflexivity|apply (bool_decide_unpack _); vm_compute; exact I|apply (bool_decide_unpack _); vm_compute; exact I|exact H|discriminate H].
Defined.

(** The exception is real: [admin] is found in the pane that runs [pilot], because
    the alias [pilot] runs under contains its name. *)
Lemma lookup_names_anothers_pane :
  Walker_LookupByNameWithCanonicals host host_panes "admin" host_agents = Ok ("%3", false) /\
  Walker_PaneAgentNameWithCanonicals host host_panes "%3" host_agents = Ok ("pilot", false).
Proof. split; vm_compute; reflexivity. Qed.

(** A name lookup is satisfied by a stale title: a pane that runs only a shell. *)
Lemma lookup_names_a_titled_shell :
  Walker_LookupByName host host_panes "bosun" = Ok "%1" /\
  Walker_SessionIDForPane host host_panes "%1" = None.
Proof. split; vm_compute; reflexivity. Qed.

(** tmux's numeric window names are taken for agents. *)
Lemma numeric_window_is_an_agent :
  Walker_Resolve host (mkPaneInfo "%7" 99 "~" "0") = Some (mkResolved "%7" "0" SourceWindowName).
Proof. vm_compute. reflexivity. Qed.

(** ** Under the mailman *)

(** With this walker, the check before a paste read a foreground command that is not a
    shell. *)
Lemma accepts_paste_not_a_shell w proc panes h pane :
  PaneAcceptsPaste (discover_walker w proc panes) h pane = true <->
  exists cmd, fst (PaneCurrentCommand pane w h) = Ok cmd /\ cmd <> EmptyString /\ IsShellProcess cmd = false.
Proof.
  simpl. unfold Walker_PaneAcceptsPaste, bind, ret. destruct (PaneCurrentCommand pane w h) as [[cmd|e] h'];
    simpl; [|naive_solver]. rewrite andb_true_iff, !negb_true_iff, bool_decide_eq_false. naive_solver.
Qed.

(** What hosting means there: the pane carries the agent's session, or runs no shell. *)
Lemma hosts_concretely sw w proc panes a pane h0 h1 :
  sw_walker sw = discover_walker w proc panes -> pane <> EmptyString -> hosts sw a pane h0 h1 ->
  seen h0 h1 (fun h => exists p, pi_ID p = pane /\ hosts_session (proc h) p (a_session_id a)) \/
  seen h0 h1 (fun h => exists cmd, fst (PaneCurrentCommand pane w h) = Ok cmd /\ cmd <> EmptyString /\
                                   IsShellProcess cmd = false).
Proof.
  intros Hw Hp [(h & H0 & H1 & Hs & Hl)|(h & H0 & H1 & Ha)]; [left|right]; exists h; (split; [done|]); (split; [done|]).
  - rewrite Hw in Hl. simpl in Hl. unfold Walker_LookupBySessionID in Hl. rewrite bool_decide_false in Hl by done.
    destruct (ListPanesWithPID (panes h)) as [ps|e]; [|done].
    destruct (List.find _ ps) as [p|] eqn:E; injection Hl as Hl; [|by subst pane].
    apply find_Some_split in E as (l1 & l2 & _ & Hf & _). apply bool_decide_eq_true in Hf.
    exists p. split; [done|]. by apply search_hosts.
  - rewrite Hw in Ha. by apply accepts_paste_not_a_shell in Ha.
Qed.
