(* ===== verification/Runs.v ===== *)
(** * Runs of a command

    A run of a command over the shared store is read as the list of its own writes,
    interleaved with whatever the other processes do.  What counts as a write is a
    parameter: a type of operations and the relation each performs on the database. *)

From S2P Require Import Prelude GoStd StoreTypes TmuxIO Mailman.

Open Scope Z_scope.
Open Scope tell_scope.

Section Runs.
Context {Op : Type} (perform : Op -> DB -> DB -> Prop) (sw : SWorld).

(** From [d] to [d'] by the writes [ops], the other processes acting in between. *)
Inductive interleaved : DB -> list Op -> DB -> Prop :=
  | il_done d : interleaved d [] d
  | il_others h d ops d' : interleaved (sw_others sw h d) ops d' -> interleaved d ops d'
  | il_own op ops d d1 d' : perform op d d1 -> interleaved d1 ops d' -> interleaved d (op :: ops) d'.

Lemma interleaved_app d1 ops1 d2 ops2 d3 :
  interleaved d1 ops1 d2 -> interleaved d2 ops2 d3 -> interleaved d1 (ops1 ++ ops2) d3.
Proof. induction 1; intros H3; simpl; [done|eapply il_others|eapply il_own]; eauto. Qed.

(** From every start, [c] ends normally, with result and own writes in [Q]. *)
Definition runs {A} (c : M A) (Q : A -> list Op -> Prop) : Prop := forall st,
  exists a st' ops, c sw st = (Go a, st') /\ interleaved (s_db st) ops (s_db st') /\ Q a ops.

Lemma runs_go {A} (a : A) (Q : A -> list Op -> Prop) : Q a [] -> runs (go a) Q.
Proof. intros H st. exists a, st, []. repeat split; [constructor|done]. Qed.

Lemma runs_weaken {A} (c : M A) (Q Q' : A -> list Op -> Prop) :
  runs c Q -> (forall a ops, Q a ops -> Q' a ops) -> runs c Q'.
Proof. intros H HQ st. destruct (H st) as (a & st' & ops & E & Hi & Ha). exists a, st', ops. eauto. Qed.

Lemma runs_bind {A B} (c : M A) (k : A -> M B) (Q : A -> list Op -> Prop) (R : B -> list Op -> Prop) :
  runs c Q -> (forall a ops, Q a ops -> runs (k a) (fun b ops' => R b (ops ++ ops'))) ->
  runs (andthen c k) R.
Proof.
  intros Hc Hk st. destruct (Hc st) as (a & st1 & ops & E & Hi & Ha).
  destruct (Hk a ops Ha st1) as (b & st2 & ops' & E' & Hi' & Hb).
  exists b, st2, (ops ++ ops'). unfold andthen. rewrite E. split; [done|]. split; [by eapply interleaved_app|done].
Qed.

(** A first computation that writes nothing. *)
Definition silent {A} (c : M A) : Prop := runs c (fun _ ops => ops = []).

Lemma runs_silent {A B} (c : M A) (k : A -> M B) (R : B -> list Op -> Prop) :
  silent c -> (forall a, runs (k a) R) -> runs (andthen c k) R.
Proof. intros Hc Hk. eapply runs_bind; [exact Hc|]. intros a ops ->. apply Hk. Qed.

Lemma silent_bind {A B} (c : M A) (k : A -> M B) : silent c -> (forall a, silent (k a)) -> silent (andthen c k).
Proof. apply runs_silent. Qed.

Lemma silent_go {A} (a : A) : silent (go a). Proof. by apply runs_go. Qed.

Lemma stays_lift {A} (c : T A) : silent (lift c).
Proof.
  intros st. unfold lift. destruct (c _ _) as [a h]. exists a, (mkS (s_db st) (s_vars st) h), [].
  repeat split. constructor.
Qed.

Lemma silent_ask {A} what (f : SWorld -> history -> A) : silent (ask what f).
Proof. intros st. eexists _, _, []. repeat split. constructor. Qed.

(** One access: it may fail, and otherwise performs one write or none. *)
Lemma runs_access {A} what (op : SWorld -> history -> string -> DB -> result A * DB)
    (Q : result A -> list Op -> Prop) :
  (forall e, Q (Err e) []) ->
  (forall h now d, exists ops, Q (fst (op sw h now d)) ops /\
     interleaved d ops (snd (op sw h now d))) ->
  runs (access what op) Q.
Proof.
  intros He Hop st. unfold access. cbv zeta. set (h := EvCall what :: s_hist st).
  destruct (sw_fault sw h) as [e|].
  - eexists _, _, []. split; [done|]. split; [eapply il_others; constructor|apply He].
  - set (now := Time.formatISO (w_clock (sw_io sw) h)).
    destruct (Hop h now (sw_others sw h (s_db st))) as (ops & HQ & Hi).
    destruct (op sw h now _) as [r d']. exists r, (mkS d' (s_vars st) h), ops.
    split; [done|]. split; [by eapply il_others|done].
Qed.

Lemma silent_get {A} what (f : DB -> result A) : silent (store what (fun _ d => (f d, d))).
Proof. apply runs_access; [done|]. intros h now d. exists []. split; [done|constructor]. Qed.

Lemma silent_read {A} what (f : DB -> A) : silent (store_read what f).
Proof. apply runs_access; [done|]. intros h now d. exists []. split; [done|constructor]. Qed.

Lemma silent_if {A} (b : bool) (c1 c2 : M A) : silent c1 -> silent c2 -> silent (if b then c1 else c2).
Proof. by destruct b. Qed.

Lemma runs_write {A} what (op : SWorld -> history -> string -> DB -> result A * DB)
    (Q : result A -> list Op -> Prop) :
  (forall h now d r d', op sw h now d = (r, d') -> exists o, perform o d d' /\ Q r [o]) ->
  (forall e, Q (Err e) []) ->
  runs (access what op) Q.
Proof.
  intros Hop He. apply runs_access; [done|]. intros h now d.
  destruct (op sw h now d) as [r d'] eqn:E. destruct (Hop h now d r d' E) as (o & Ho & HQ).
  exists [o]. split; [done|]. eapply il_own; [done|constructor].
Qed.
End Runs.

Create HintDb outcomedb.

#[export] Hint Resolve silent_go stays_lift silent_ask silent_get silent_read : outcomedb.

Ltac silent_tac :=
  repeat (cbv beta zeta; first
    [ solve [auto with outcomedb nocore]
    | apply silent_bind; [|intros ?]
    | apply silent_if
    | match goal with |- silent _ _ (match ?x with _ => _ end) => destruct x end ]).
