(* ===== verification/Alone.v ===== *)
(** * A command that runs alone

    Total correctness of the commands when no other process writes meanwhile and no
    access to the store fails: from a database in the precondition the command ends
    normally, in the postcondition.  What the terminal, the clock, the environment and
    the entropy answer stays arbitrary. *)

From S2P Require Import Prelude GoStd StoreTypes Messages TmuxIO Mailman.

Open Scope Z_scope.
Open Scope tell_scope.

Definition alone (sw : SWorld) : Prop :=
  (forall h d, sw_others sw h d = d) /\ (forall h, sw_fault sw h = None).

Section Alone.
Context (sw : SWorld) (Halone : alone sw).

Definition ends_in {A} (c : M A) (d : DB) (Q : A -> DB -> Prop) : Prop := forall st,
  s_db st = d -> exists a st', c sw st = (Go a, st') /\ Q a (s_db st').

Lemma ends_go {A} (a : A) d (Q : A -> DB -> Prop) : Q a d -> ends_in (go a) d Q.
Proof. intros H st <-. by exists a, st. Qed.

Lemma ends_weaken {A} (c : M A) d (Q Q' : A -> DB -> Prop) :
  ends_in c d Q -> (forall a d', Q a d' -> Q' a d') -> ends_in c d Q'.
Proof. intros H HQ st E. destruct (H st E) as (a & st' & E' & Ha). eauto. Qed.

Lemma ends_bind {A B} (c : M A) (k : A -> M B) d (Q : A -> DB -> Prop) (R : B -> DB -> Prop) :
  ends_in c d Q -> (forall a d', Q a d' -> ends_in (k a) d' R) -> ends_in (andthen c k) d R.
Proof.
  intros Hc Hk st E. destruct (Hc st E) as (a & st1 & E1 & Ha).
  destruct (Hk a (s_db st1) Ha st1 eq_refl) as (b & st2 & E2 & Hb).
  exists b, st2. unfold andthen. by rewrite E1.
Qed.

(** One access: the operation, at some instant. *)
Lemma ends_access {A} what (op : SWorld -> history -> string -> DB -> result A * DB) d
    (Q : result A -> DB -> Prop) :
  (forall h now, Q (fst (op sw h now d)) (snd (op sw h now d))) -> ends_in (access what op) d Q.
Proof.
  intros H st E. destruct Halone as [Ho Hf]. unfold access. cbv zeta. rewrite Hf, Ho, E.
  specialize (H (EvCall what :: s_hist st) (Time.formatISO (w_clock (sw_io sw) (EvCall what :: s_hist st)))).
  destruct (op sw _ _ d) as [r d']. by eexists _, _.
Qed.

Lemma ends_store {A} what (op : string -> DB -> result A * DB) d (Q : result A -> DB -> Prop) :
  (forall now, Q (fst (op now d)) (snd (op now d))) -> ends_in (store what op) d Q.
Proof. intros H. by apply ends_access. Qed.

Lemma ends_store_ok {A} what (op : string -> DB -> A * DB) d (Q : result A -> DB -> Prop) :
  (forall now, Q (Ok (fst (op now d))) (snd (op now d))) -> ends_in (store_ok what op) d Q.
Proof. intros H. apply ends_access. intros h now. specialize (H now). by destruct (op now d). Qed.

Lemma ends_read {A} what (f : DB -> A) d (Q : result A -> DB -> Prop) :
  Q (Ok (f d)) d -> ends_in (store_read what f) d Q.
Proof. intros H. by apply ends_access. Qed.

Lemma ends_notice p d (Q : result InsertResult -> DB -> Prop) :
  (forall rnd now, Q (fst (InsertNotice p rnd now d)) (snd (InsertNotice p rnd now d))) ->
  ends_in (insert_notice p) d Q.
Proof. intros H. apply ends_access. intros h now. apply H. Qed.

(** What does not touch the store. *)
Lemma ends_lift {A} (c : T A) d (Q : A -> DB -> Prop) : (forall a, Q a d) -> ends_in (lift c) d Q.
Proof.
  intros H st <-. unfold lift. destruct (c _ _) as [a h]. eexists _, _. split; [done|]. apply H.
Qed.

Lemma ends_ask {A} what (f : SWorld -> history -> A) d (Q : A -> DB -> Prop) :
  (forall a, Q a d) -> ends_in (ask what f) d Q.
Proof. intros H st <-. eexists _, _. split; [done|]. apply H. Qed.

(** A first part that leaves the store alone. *)
Lemma ends_aside {A B} (c : M A) (k : A -> M B) d (R : B -> DB -> Prop) :
  ends_in c d (fun _ d' => d' = d) -> (forall a, ends_in (k a) d R) -> ends_in (andthen c k) d R.
Proof. intros Hc Hk. eapply ends_bind; [exact Hc|]. intros a d' ->. apply Hk. Qed.

(** The run from a given start. *)
Lemma ends_from {A} (c : M A) d (Q : A -> DB -> Prop) v h :
  ends_in c d Q -> exists a st', c sw (mkS d v h) = (Go a, st') /\ Q a (s_db st').
Proof. intros H. by apply H. Qed.
End Alone.
