(* ===== verification/Identity.v ===== *)
(** * Who is calling (internal/identity/identity.go, internal/cli/mcp.go)

    The name a command acts under: an explicit one, the agent registered for the
    caller's pane, or a name pinned in the environment; and the MCP server's version,
    which also climbs the process tree for the pane of an ancestor.  The environment
    and the files of [/proc] are functions; they stay as they are during one
    resolution.  Warnings about stale pins are left out. *)

From S2P Require Import Prelude GoStd StoreTypes Agents TmuxIO Mailman Discover Runs.

Open Scope Z_scope.
Open Scope tell_scope.

Inductive IdentitySource : Type := SourceExplicit | SourceEnv | SourcePane | SourceNone.

Definition envAgentName : string := "TMUX_AGENT_NAME".
Definition legacyEnvAgentName : string := "CLAUDE_AGENT_NAME".
Definition maxAncestorWalkDepth : nat := 16.

(** ** The process tree *)

Definition realProcEnvForPID (environ : Z -> option string) (pid : Z) (key : string) : option string :=
  match environ pid with Some data => environ_value data key | None => None end.

(** [strings.LastIndexByte(data, ')')] and what follows it. *)
Fixpoint after_last (c : ascii) (s : string) : option string :=
  match s with
  | EmptyString => None
  | String a s' =>
      match after_last c s' with
      | Some rest => Some rest
      | None => if bool_decide (a = c) then Some s' else None
      end
  end.

Definition realProcPPIDForPID (stat : Z -> option string) (pid : Z) : option Z :=
  match stat pid with
  | None => None
  | Some data =>
      match after_last (Ascii.ascii_of_nat 41) data with
      | None => None
      | Some rest => match Str.Fields rest with _ :: ppid :: _ => Str.Atoi ppid | _ => None end
      end
  end.

Section Identity.
Context (getenv : string -> string) (getppid : Z) (environ stat : Z -> option string).
Context (BinaryName : string).

Section Walk.
Context {A : Type} (look : Z -> option A).

(** The climb both walks make: the first answer of [look] on the way up. *)
Fixpoint ancestor_walk (depth : nat) (visited : list Z) (pid : Z) : option A :=
  match depth with
  | O => None
  | S depth' =>
      if (pid <=? 1) || bool_decide (pid ∈ visited) then None
      else match look pid with
           | Some a => Some a
           | None =>
               match realProcPPIDForPID stat pid with
               | None => None
               | Some ppid => ancestor_walk depth' (pid :: visited) ppid
               end
           end
  end.
End Walk.

(** A variable that is set and not empty. *)
Definition nonempty_env (key : string) (pid : Z) : option string :=
  match realProcEnvForPID environ pid key with
  | Some v => if str_empty v then None else Some v
  | None => None
  end.

Definition pin_env (pid : Z) : option string :=
  match nonempty_env envAgentName pid with Some v => Some v | None => nonempty_env legacyEnvAgentName pid end.

Definition ancestorNamePin : string :=
  default EmptyString (ancestor_walk pin_env maxAncestorWalkDepth [] getppid).

(** ** Resolution *)

Definition envAgentNameValue : string :=
  if negb (str_empty (getenv envAgentName)) then getenv envAgentName
  else if negb (str_empty (getenv legacyEnvAgentName)) then getenv legacyEnvAgentName
  else EmptyString.

Definition pane_agent (pane : string) (agents : list Agent) : option string :=
  option_map a_name (List.find (fun a => bool_decide (PaneID a = pane)) agents).

Definition pinned : string * IdentitySource :=
  if negb (str_empty envAgentNameValue) then (envAgentNameValue, SourceEnv) else (EmptyString, SourceNone).

Definition ResolveIdentity (override : string) : M (result (string * IdentitySource)) :=
  if negb (str_empty override) then go (Ok (override, SourceExplicit))
  else
    let pane := getenv "TMUX_PANE" in
    if str_empty pane then go (Ok pinned)
    else
      r <! store_read "ListAgents" ListAgents ;;
      go (match r with
          | Err e => Err e
          | Ok agents =>
              Ok (match pane_agent pane agents with Some name => (name, SourcePane) | None => pinned end)
          end).

(** The agent of the nearest ancestor with a pane, or that pane if it has none. *)
Definition resolveAncestorPaneIdentity : M (result (string * string)) :=
  r <! store_read "ListAgents" ListAgents ;;
  go (match r with
      | Err e => Err e
      | Ok agents =>
          Ok (match ancestor_walk (nonempty_env "TMUX_PANE") maxAncestorWalkDepth [] getppid with
              | None => (EmptyString, EmptyString)
              | Some pane => match pane_agent pane agents with
                             | Some name => (name, EmptyString)
                             | None => (EmptyString, pane)
                             end
              end)
      end).

Definition unregistered_pane_text (which pane : string) : string :=
  "cannot resolve identity: " +:+ which +:+ "$TMUX_PANE=" +:+ pane
    +:+ " is not in the agent registry — run `" +:+ BinaryName
    +:+ " register --name <name>` to register this pane".

Definition no_pane_text : string :=
  "cannot resolve identity: $TMUX_AGENT_NAME is unset and $TMUX_PANE is empty in the MCP child and parent process — launch Codex from a registered tmux pane, or inspect the MCP server spawn environment".

Definition mcpIdentityError : error :=
  let pane := getenv "TMUX_PANE" in
  ErrMsg (if str_empty pane then no_pane_text else unregistered_pane_text EmptyString pane).

Definition resolveMCPIdentity (injected : string) : M (result string) :=
  if negb (str_empty injected) then
    r <! ResolveIdentity injected ;;
    go (match r with Ok (name, _) => Ok name | Err e => Err e end)
  else
    r <! ResolveIdentity EmptyString ;;
    match r with
    | Err e => go (Err e)
    | Ok (name, SourcePane) | Ok (name, SourceExplicit) => go (Ok name)
    | Ok (name, _) =>
        r <! resolveAncestorPaneIdentity ;;
        go (match r with
            | Err e => Err e
            | Ok (ancestor, unregistered) =>
                if negb (str_empty ancestor) then Ok ancestor
                else if negb (str_empty name) then Ok name
                else if negb (str_empty unregistered)
                then Err (ErrMsg (unregistered_pane_text "ancestor " unregistered))
                else if negb (str_empty ancestorNamePin) then Ok ancestorNamePin
                else Err mcpIdentityError
            end)
    end.
End Identity.
