(* ===== verification/Send.v ===== *)
(** * Sending (internal/cli/send.go, sendbudget.go, sendstatus.go, operator_routing.go, mcp.go)

    The two surfaces of a send, the command line and the MCP tool, each for one
    recipient and for a fan-out: operator routing, the budget gate, recipient status,
    thread freshness, the insert, the optional wait for the delivery and the receipt.
    A computation runs in the machine of Mailman.v, whose loop variables it does not
    use, so that other processes may change the store between any two accesses.
    Encoding the answer as JSON and the text rendering are left out. *)

From S2P Require Import Prelude GoStd Clock StoreTypes Messages Queue Agents Queries Budget TmuxIO ObserveGate Throttle Mailman.

Open Scope Z_scope.
Open Scope tell_scope.

(** ** Data *)

Definition exitUsage : Z := 64.
Definition exitDataErr : Z := 65.
Definition exitUnavailable : Z := 69.
Definition exitTempFail : Z := 75.

Definition defaultDeliveredWaitTimeout : Z := 10 * Time.Second.
Definition pingPollInterval : Z := 100 * Time.Millisecond.
Definition pingStateTimeout : string := "timeout".
Definition displayStateDeliveredInInputBox : string := "delivered_in_input_box".
Definition OperatorRecipient : string := "operator".

Record budgetTunables : Type := mkTunables {
  bt_Enabled : bool;
  bt_Capacity : Q;
  bt_RefillPerHour : Q;
  bt_Alpha : Q;
  bt_Window : Z
}.

Record sendParams : Type := mkSend {
  sp_From : string;
  sp_To : string;
  sp_ToRecipients : list string;
  sp_ReplyTo : string;
  sp_Body : string;
  sp_NoReplyExpected : bool;
  sp_Quick : bool;
  sp_DeliverAfter : string;
  sp_ExpectsReply : bool;
  sp_Priority : Z;
  sp_ForceRateLimited : bool;
  sp_MaxRecipient : Z;
  sp_MaxSender : Z;
  sp_MaxBody : Z;
  sp_MaxRecipientsPerSend : Z;
  sp_Budget : budgetTunables;
  sp_ConfigWarning : string;
  sp_DryRun : bool;
  sp_Strict : bool;
  sp_WaitForDelivered : bool;
  sp_Timeout : Z;
  sp_BlockOnStale : bool
}.

Definition set_To (to : string) (rs : list string) (p : sendParams) : sendParams :=
  mkSend (sp_From p) to rs (sp_ReplyTo p) (sp_Body p) (sp_NoReplyExpected p) (sp_Quick p)
    (sp_DeliverAfter p) (sp_ExpectsReply p) (sp_Priority p) (sp_ForceRateLimited p) (sp_MaxRecipient p)
    (sp_MaxSender p) (sp_MaxBody p) (sp_MaxRecipientsPerSend p) (sp_Budget p) (sp_ConfigWarning p)
    (sp_DryRun p) (sp_Strict p) (sp_WaitForDelivered p) (sp_Timeout p) (sp_BlockOnStale p).

Record RecipientStatus : Type := mkStatus {
  rs_Registered : bool;
  rs_Alive : bool;
  rs_DeliveryMode : string;
  rs_MailmanRunning : bool;
  rs_PaneStatus : string;
  rs_StuckReason : string
}.

Record DeliveryStatus : Type := mkDelivery {
  ds_State : string;
  ds_DeliveredAt : string;
  ds_VerifyMs : Z
}.

Record ReceiptLayer : Type := mkLayer {
  rl_State : string;
  rl_At : string;
  rl_Evidence : string
}.

Record SendReceipt : Type := mkReceipt {
  sr_Enqueue : ReceiptLayer;
  sr_Dispatch : ReceiptLayer;
  sr_PasteConfirmed : ReceiptLayer
}.

Record ThreadFreshness : Type := mkFreshness {
  tf_Stale : bool;
  tf_YouRepliedTo : string;
  tf_NewerInThread : list string;
  tf_LatestInThread : string
}.

Record SendResponse : Type := mkResponse {
  sn_OK : bool;
  sn_ID : string;
  sn_Queued : Z;
  sn_Recipient : option RecipientStatus;
  sn_Delivery : option DeliveryStatus;
  sn_Receipt : option SendReceipt;
  sn_Freshness : option ThreadFreshness;
  sn_DeliverAfter : string;
  sn_RefusedID : string;
  sn_Warnings : list string;
  sn_Error : string
}.

(** A response that only reports a failure. *)
Definition failure (rs : option RecipientStatus) (tf : option ThreadFreshness) (refused err : string)
    : SendResponse :=
  mkResponse false EmptyString 0 rs None None tf EmptyString refused [] err.

Record MultiSendResult : Type := mkLeg {
  ms_To : string;
  ms_OK : bool;
  ms_ID : string;
  ms_Queued : Z;
  ms_Recipient : option RecipientStatus;
  ms_Delivery : option DeliveryStatus;
  ms_Receipt : option SendReceipt;
  ms_Freshness : option ThreadFreshness;
  ms_RefusedID : string;
  ms_Error : string
}.

Record MultiSendResponse : Type := mkMulti {
  mr_OK : bool;
  mr_Messages : list MultiSendResult;
  mr_Warnings : list string
}.

Record BudgetQuote : Type := mkQuote {
  bq_Agent : string;
  bq_DryRun : bool;
  bq_Enabled : bool;
  bq_Balance : Q;
  bq_Capacity : Q;
  bq_Overdraft : Q;
  bq_Recipients : list string;
  bq_Deliveries : Z;
  bq_Bytes : Z;
  bq_PriorRecipients : Z;
  bq_NewRecipients : Z;
  bq_CostWindowed : Q;
  bq_CostStatic : Q;
  bq_Affordable : bool;
  bq_Remaining : Q;
  bq_TimeToAfford : string;
  bq_Note : string
}.

(** What a command leaves: the JSON object it writes and its exit code. *)
Inductive answer : Type :=
  | JSONError (msg : string) (code : Z)
  | SendResult (r : SendResponse) (code : Z)
  | MultiResult (r : MultiSendResponse) (code : Z)
  | QuoteResult (q : BudgetQuote) (code : Z).

(** What the MCP tool returns besides an error. *)
Inductive reply : Type :=
  | ReplySend (r : SendResponse)
  | ReplyMulti (r : MultiSendResponse).

(** ** Parameters *)

Definition splitRecipients (s : string) : list string :=
  List.filter (fun t => negb (str_empty t)) (map Str.TrimSpace (Str.Split (Ascii.ascii_of_nat 44) s)).

Definition resolveBudgetTunables (resolveInt : string -> Z -> Z) (enabled : bool) : budgetTunables :=
  mkTunables enabled
    (float (resolveInt "budget-cap" 120)) (float (resolveInt "budget-refill-per-hour" 16))
    (float (resolveInt "budget-alpha-hundredths" 25) / 100)
    (resolveInt "budget-window-minutes" 15 * Time.Minute).

Definition paramsFor (b : budgetTunables) (from : string) (recipients : list string) (body : string)
    : BudgetParams :=
  mkBudgetParams from recipients (Z.of_nat (String.length body)) (bt_Capacity b) (bt_RefillPerHour b)
    (bt_Alpha b) (bt_Window b).

Definition warningsFor (configWarning : string) : list string :=
  if str_empty configWarning then [] else [configWarning].

Definition too_large (p : sendParams) : bool :=
  (0 <? sp_MaxBody p) && (sp_MaxBody p <? Z.of_nat (String.length (sp_Body p))).

Definition too_large_text (p : sendParams) : string :=
  "body too large (" +:+ Str.itoa (Z.of_nat (String.length (sp_Body p))) +:+ " > "
    +:+ Str.itoa (sp_MaxBody p) +:+ " bytes)".

Definition too_many (p : sendParams) : bool :=
  (0 <? sp_MaxRecipientsPerSend p) &&
  (sp_MaxRecipientsPerSend p <? Z.of_nat (length (sp_ToRecipients p))).

Definition too_many_text (p : sendParams) : string :=
  "too many recipients: " +:+ Str.itoa (Z.of_nat (length (sp_ToRecipients p))) +:+ " (max "
    +:+ Str.itoa (sp_MaxRecipientsPerSend p) +:+ " per send)".

Definition no_sender_text : string :=
  "cannot resolve sender: pass --from, set $TMUX_AGENT_NAME, or register this pane".

Definition unknown_recipient (to : string) : string := "unknown recipient: " +:+ to.
Definition unknown_sender (from : string) : string := "unknown sender: " +:+ from.
Definition unknown_reply_to (id : string) : string := "unknown reply-to id: " +:+ id.

Definition unreachable_text (to : string) (rs : RecipientStatus) : string :=
  "recipient " +:+ Str.Quote to +:+ " registered but not reachable (pane " +:+ rs_PaneStatus rs +:+ ")".

Definition stale_text (tf : ThreadFreshness) : string :=
  "thread has " +:+ Str.itoa (Z.of_nat (length (tf_NewerInThread tf)))
    +:+ " newer message(s) addressed to you since you last spoke".

Definition validDeferTriggers : gset string := {[ "resume"; "register" ]}.

Definition validateDeferTrigger (trigger : string) : option error :=
  if bool_decide (trigger ∈ validDeferTriggers) then None
  else Some (ErrMsg ("unsupported deliver-after trigger " +:+ Str.Quote trigger
         +:+ " (accepts: register, resume). timestamp scheduling and OR-composition are a #295 follow-up")).

(** ** Receipts *)

Definition displayState (m : Message) : string :=
  if bool_decide (m_State m = StateDelivered) && bool_decide (m_Verified m = Some 0)
  then displayStateDeliveredInInputBox else State_string (m_State m).

Definition receiptLayersFromDelivery (d : DeliveryStatus) : ReceiptLayer * ReceiptLayer :=
  let st := ds_State d in let at_ := ds_DeliveredAt d in
  if bool_decide (st = State_string StateDelivered) then
    (mkLayer st at_ "message reached delivered state",
     mkLayer "confirmed" at_ "delivery verification confirmed paste")
  else if bool_decide (st = displayStateDeliveredInInputBox) then
    (mkLayer (State_string StateDelivered) at_ "message reached delivered state",
     mkLayer "unconfirmed" at_ "paste entered input box but verification token was not observed")
  else if bool_decide (st = State_string StateFailed) then
    (mkLayer st at_ "mailman marked delivery failed",
     mkLayer "failed" at_ "delivery failed before paste confirmation")
  else if bool_decide (st = pingStateTimeout) then
    (mkLayer st at_ "wait_for_delivered timed out before terminal delivery",
     mkLayer "timeout" at_ "wait_for_delivered timed out before paste confirmation")
  else
    (mkLayer st at_ "wait_for_delivered observed delivery state",
     mkLayer "unconfirmed" at_ "delivery state did not confirm paste").

Definition newSendReceipt (createdAt deliverAfter : string) (delivery : option DeliveryStatus)
    : SendReceipt :=
  let enqueue :=
    if str_empty deliverAfter then mkLayer "accepted" createdAt "messages row persisted"
    else mkLayer "staged" createdAt "messages row persisted in deferred state" in
  let none := mkLayer "not_requested" EmptyString EmptyString in
  match delivery with
  | None => mkReceipt enqueue none none
  | Some d => let (dispatch, paste) := receiptLayersFromDelivery d in mkReceipt enqueue dispatch paste
  end.

(** ** Operator routing *)

(** The last agent of the registry in each pane. *)
Definition byPane (agents : list Agent) : gmap string string :=
  fold_left (fun m a => if str_empty (PaneID a) then m else <[PaneID a := a_name a]> m) agents ∅.

Fixpoint first_registered (panes : list string) (m : gmap string string) : string :=
  match panes with
  | [] => EmptyString
  | pane :: panes' => match m !! pane with Some name => name | None => first_registered panes' m end
  end.

Section Send.
Context (math_Pow : Q -> Q -> Q).
(** The outputs of [systemctl --user] and of [tmux list-clients]. *)
Context (systemctl : history -> list string -> string) (list_clients : history -> string + exec_failure).
(** The bound on the polls of a wait for a delivery. *)
Context (fuel : nat).

Definition observeOperatorAtChamber : M string :=
  panes <! ask "list-clients" (fun _ h => ActiveClientPanes (list_clients h)) ;;
  match panes with
  | Err _ | Ok [] => go EmptyString
  | Ok panes =>
      r <! store_read "ListAgents" ListAgents ;;
      go (match r with Ok agents => first_registered panes (byPane agents) | Err _ => EmptyString end)
  end.

Definition not_observed_text : string :=
  "operator presence not observed yet — no `last seen in` slot recorded. Substrate observes the operator the first time they're attached to a registered chamber pane (via `tmux list-clients`); until that observation lands, the `operator` recipient cannot be resolved".

Definition unregistered_slot (last : string) : string :=
  "operator presence slot points at unregistered chamber " +:+ Str.Quote last
    +:+ " — re-attach to a registered chamber pane to re-seed the slot".

Definition resolveOperatorTarget : M (result string) :=
  target <! observeOperatorAtChamber ;;
  if negb (str_empty target) then
    _ <! store "SetPresence" (fun _ d => SetPresence PresenceKeyOperatorLastSeenIn target d) ;;
    go (Ok target)
  else
    last <! store "GetPresence" (fun _ d => (GetPresence PresenceKeyOperatorLastSeenIn d, d)) ;;
    match last with
    | Ok last =>
        a <! store "GetAgent" (fun _ d => (GetAgent last d, d)) ;;
        go (match a with Ok _ => Ok last | Err _ => Err (ErrMsg (unregistered_slot last)) end)
    | Err e =>
        go (Err (if errors_Is e ErrNotFound then ErrMsg not_observed_text
                 else ErrWrap ("operator presence lookup: " +:+ error_text e) e))
    end.

Definition names_operator (p : sendParams) : bool :=
  bool_decide (sp_To p = OperatorRecipient) || bool_decide (OperatorRecipient ∈ sp_ToRecipients p).

Definition substitute (target name : string) : string :=
  if bool_decide (name = OperatorRecipient) then target else name.

Definition resolveOperatorInSendParams (p : sendParams) : M (result sendParams) :=
  if negb (names_operator p) then go (Ok p)
  else
    r <! resolveOperatorTarget ;;
    go (match r with
        | Err e => Err e
        | Ok target =>
            Ok (set_To (substitute target (sp_To p)) (map (substitute target) (sp_ToRecipients p)) p)
        end).

(** ** The budget gate *)

Definition chargeSend (b : budgetTunables) (from : string) (recipients : list string) (body : string)
    : M (result Q) :=
  if negb (bt_Enabled b) || bool_decide (recipients = []) then go (Ok 0%Q)
  else
    now <! lift time_Now ;;
    r <! store "ChargeBudget" (fun _ d =>
      let '((st, e), d') := ChargeBudget math_Pow now (paramsFor b from recipients body) d in
      (match e with Some e => Err e | None => Ok st end, d')) ;;
    go (match r with Err e => Err e | Ok st => Ok (bs_Cost st) end).

Definition budgetRefusalText (e : error) : string :=
  Str.Join [error_text e;
    "  splitting this into separate sends does NOT help — breadth is charged once per";
    "  distinct recipient per window, so N sends to N people cost the same as one send";
    "  to N people. Shortening the body and dropping recipients both do.";
    "  This does NOT check whether the recipients are reachable or their queues have";
    "  room; those are separate refusals you may still hit after this one clears."] nl_str.

(** The amount charged, or the answer of the refused send. *)
Definition chargeForSend (b : budgetTunables) (from : string) (recipients : list string) (body : string)
    : M (Q + answer) :=
  r <! chargeSend b from recipients body ;;
  go (match r with
      | Ok charged => inl charged
      | Err e => if errors_Is e ErrBudgetExhausted then inr (JSONError (budgetRefusalText e) exitUnavailable)
                 else inr (JSONError (error_text e) exitInternal)
      end).

(** The warning of a credit that did not land. *)
Definition refundSend (p : sendParams) (amount : Q) : M string :=
  now <! lift time_Now ;;
  r <! store "RefundBudget" (fun _ d =>
    (Ok tt, RefundBudget now (sp_From p) amount (bt_Capacity (sp_Budget p)) d)) ;;
  go (match r with
      | Ok _ => EmptyString
      | Err e => "budget refund failed (" +:+ fmt1 amount +:+ " not credited back to " +:+ sp_From p
                   +:+ "): " +:+ error_text e
      end).

(** [math.Round(f*10) / 10]: halves away from zero. *)
Definition round1 (f : Q) : Q :=
  let n := Qnum f * 10 in let d := Zpos (Qden f) in
  Qmake (Z.sgn n * ((2 * Z.abs n + d) / (2 * d))) 10.

Definition whenAffordableCLI (d : Z) (ratePerHour : Q) : string :=
  if Qle_bool ratePerHour 0 then "never — refill is disabled"
  else if d <=? 0 then "now"
  else if d <? Time.Minute then "in " +:+ seconds_text d
  else "in " +:+ minutes_text d.

Definition disabled_note : string :=
  "the communication budget is DISABLED (budget-enabled=0); nothing was priced and nothing will be refused. The zeros below are unmeasured, not measured-as-zero.".

Definition quote_of (p : sendParams) (recipients : list string) (st : BudgetState) : BudgetQuote :=
  let b := sp_Budget p in
  let n := Z.of_nat (length recipients) in
  let static := Cost math_Pow 0 n n (Z.of_nat (String.length (sp_Body p))) (bt_Alpha b) in
  mkQuote (sp_From p) (sp_DryRun p) true (round1 (bs_Balance st)) (bs_Capacity st)
    (round1 (Overdraft (bs_Capacity st))) recipients (bs_Deliveries st) (bs_Bytes st)
    (bs_PriorRecipients st) (bs_NewRecipients st) (round1 (bs_Cost st)) (round1 static)
    (bs_Affordable st) (round1 (bs_Remaining st))
    (whenAffordableCLI (bs_TimeToAfford st) (bt_RefillPerHour b)) EmptyString.

Definition writeBudgetQuote (p : sendParams) (recipients : list string) : M answer :=
  let b := sp_Budget p in
  if negb (bt_Enabled b) then
    go (QuoteResult (mkQuote (sp_From p) true false 0 0 0 recipients (Z.of_nat (length recipients))
          (Z.of_nat (String.length (sp_Body p))) 0 0 0 0 true 0 "now" disabled_note) exitOK)
  else
    now <! lift time_Now ;;
    r <! store_read "QuoteBudget" (QuoteBudget math_Pow now (paramsFor b (sp_From p) recipients (sp_Body p))) ;;
    go (match r with
        | Err e => JSONError (error_text e) exitInternal
        | Ok st => QuoteResult (quote_of p recipients st) exitOK
        end).

(** ** Recipient status and thread freshness *)

Definition mailmanUnit (provider name : string) : string :=
  let adapter := if bool_decide (provider = OpenAI) then "codex" else "claude" in
  "tmux-tell-" +:+ adapter +:+ "-mailman@" +:+ name +:+ ".service".

Definition mailmanActive (agent : string) : M bool :=
  r <! store_read "ProviderCapConfig" (ProviderCapConfig agent) ;;
  let provider := match r with Ok (provider, _) => provider | Err _ => EmptyString end in
  out <! ask "systemctl" (fun _ h => systemctl h ["is-active"; mailmanUnit provider agent]) ;;
  go (bool_decide (Str.TrimSpace out = "active")).

Definition resolveRecipientStatus (agent : string) : M (result RecipientStatus) :=
  r <! store "GetAgent" (fun _ d => (GetAgent agent d, d)) ;;
  match r with
  | Err e =>
      go (if errors_Is e ErrNotFound
          then Ok (mkStatus false false EmptyString false "unknown" EmptyString) else Err e)
  | Ok a =>
      let mode := if str_empty (a_delivery_mode a) then DeliveryModePasteAndEnter else a_delivery_mode a in
      live <! ask "list-panes" (fun sw h => LivePanes (sw_live_panes sw h)) ;;
      let panes := match live with Ok s => s | Err _ => ∅ end in
      let alive := negb (str_empty (PaneID a)) && bool_decide (PaneID a ∈ panes) in
      running <! (if bool_decide (mode = DeliveryModePasteAndEnter) then mailmanActive agent else go false) ;;
      let pane := if a_paused a then "paused" else if alive then "live" else "unknown" in
      go (Ok (mkStatus true alive mode running pane (a_stuck_reason a)))
  end.

Definition thread_freshness (replyTo sender : string) (thread : list Message) : ThreadFreshness :=
  let latest := match last thread with Some m => m_PublicID m | None => EmptyString end in
  let baseline := fold_left (fun b m =>
    if (bool_decide (m_PublicID m = replyTo) || bool_decide (m_FromAgent m = sender)) && (b <? m_ID m)
    then m_ID m else b) thread 0 in
  let newer := map m_PublicID (List.filter (fun m =>
    bool_decide (m_ToAgent m = sender) && (baseline <? m_ID m)) thread) in
  mkFreshness (negb (bool_decide (newer = []))) replyTo newer latest.

Definition resolveThreadFreshness (replyTo sender : string) : M (result ThreadFreshness) :=
  r <! store "GetThread" (fun _ d => (GetThread replyTo d, d)) ;;
  go (match r with Err e => Err e | Ok thread => Ok (thread_freshness replyTo sender thread) end).

(** ** Waiting for the delivery *)

Definition timed_out (start : Z) : M DeliveryStatus :=
  now <! lift time_Now ;;
  go (mkDelivery pingStateTimeout EmptyString (Z.quot (now - start) Time.Millisecond)).

Definition delivery_of (m : Message) (ms : Z) : DeliveryStatus :=
  mkDelivery (displayState m) (default EmptyString (m_DeliveredAt m)) ms.

Definition delivery_over (m : Message) : bool :=
  bool_decide (m_State m = StateDelivered) || bool_decide (m_State m = StateFailed).

Fixpoint delivery_loop (n : nat) (id : string) (start deadline pollInterval : Z) : M DeliveryStatus :=
  match n with
  | O => out_of_fuel
  | S n' =>
      r <! store "GetMessage" (fun _ d => (GetMessage id d, d)) ;;
      let over := match r with Ok m => if delivery_over m then Some m else None | Err _ => None end in
      now <! lift time_Now ;;
      match over with
      | Some m => go (delivery_of m (Z.quot (now - start) Time.Millisecond))
      | None =>
          if deadline <=? now then timed_out start
          else
            e <! lift (wait pollInterval) ;;
            match e with
            | Some _ => timed_out start
            | None => delivery_loop n' id start deadline pollInterval
            end
      end
  end.

Definition waitForDelivery (id recipient : string) (timeout pollInterval : Z) : M DeliveryStatus :=
  let poll := if pollInterval <=? 0 then pingPollInterval else pollInterval in
  _ <! ask ("WatchOrNil " +:+ recipient) (fun _ _ => tt) ;;
  start <! lift time_Now ;;
  delivery_loop fuel id start (start + timeout) poll.

Definition wait_bound (p : sendParams) : Z :=
  if sp_Timeout p <=? 0 then defaultDeliveredWaitTimeout else sp_Timeout p.

Definition sendCreatedAt (id : string) : M string :=
  r <! store "GetMessage" (fun _ d => (GetMessage id d, d)) ;;
  go (match r with Ok m => m_CreatedAt m | Err _ => EmptyString end).

(** The tail of an accepted send: the wait, when there is one, and the receipt. *)
Definition finish_send (p : sendParams) (wanted : bool) (to id : string) (deliverAfter : string)
    : M (option DeliveryStatus * SendReceipt) :=
  delivery <! (if wanted then
                 d <! waitForDelivery id to (wait_bound p) pingPollInterval ;; go (Some d)
               else go None) ;;
  createdAt <! sendCreatedAt id ;;
  go (delivery, newSendReceipt createdAt deliverAfter delivery).

(** ** The insert *)

(** What a single send inserts. *)
Definition single_insert (p : sendParams) (forced : bool) : InsertParams :=
  mkParams (sp_From p) (sp_To p) (sp_ReplyTo p) (sp_Body p) None (sp_NoReplyExpected p) (sp_Quick p)
    EmptyString EmptyString (sp_DeliverAfter p) (sp_ExpectsReply p) (sp_Priority p) forced
    (sp_MaxRecipient p) (sp_MaxSender p).

(** What one leg of a fan-out inserts. *)
Definition leg_insert (p : sendParams) : InsertParams :=
  mkParams (sp_From p) (sp_To p) (sp_ReplyTo p) (sp_Body p) None (sp_NoReplyExpected p) (sp_Quick p)
    EmptyString EmptyString EmptyString false 0 false (sp_MaxRecipient p) (sp_MaxSender p).

Definition insert_message (q : InsertParams) : M (result InsertResult) :=
  access "InsertMessage" (fun sw h now d =>
    InsertMessage q (sw_entropy sw (EvCall "id" :: h)) (sw_entropy sw (EvCall "refused id" :: h)) now d).

Definition is_cap_error (e : error) : bool :=
  errors_Is e ErrRecipientQueueFull || errors_Is e ErrSenderBacklogFull.

(** [errors.As(err, &capErr)]. *)
Fixpoint refused_id (e : error) : string :=
  match e with
  | CapRejectionError id _ _ => id
  | ErrWrap _ e' => refused_id e'
  | _ => EmptyString
  end.

Definition sent_response (p : sendParams) (res : InsertResult) (rs : RecipientStatus)
    (tf : option ThreadFreshness) (tail : option DeliveryStatus * SendReceipt) : SendResponse :=
  mkResponse true (ir_PublicID res) (ir_Queued res) (Some rs) (fst tail) (Some (snd tail)) tf
    (sp_DeliverAfter p) EmptyString (warningsFor (sp_ConfigWarning p)) EmptyString.

(** ** One recipient of a fan-out *)

Definition sendOneRecipient (p : sendParams) : M (result SendResponse) :=
  r <! resolveRecipientStatus (sp_To p) ;;
  match r with
  | Err e => go (Err e)
  | Ok rs =>
      if negb (rs_Registered rs) then
        go (Ok (failure (Some rs) None EmptyString (unknown_recipient (sp_To p))))
      else if sp_Strict p && negb (rs_Alive rs) then
        go (Ok (failure (Some rs) None EmptyString (unreachable_text (sp_To p) rs)))
      else
        ins <! insert_message (leg_insert p) ;;
        match ins with
        | Err e =>
            go (if is_cap_error e then Ok (failure (Some rs) None (refused_id e) (error_text e))
                else if errors_Is e ErrNotFound then Err (ErrMsg (unknown_reply_to (sp_ReplyTo p)))
                else Err e)
        | Ok res =>
            tail <! finish_send p (sp_WaitForDelivered p) (sp_To p) (ir_PublicID res) (sp_DeliverAfter p) ;;
            go (Ok (mkResponse true (ir_PublicID res) (ir_Queued res) (Some rs) (fst tail) (Some (snd tail))
                      None EmptyString EmptyString [] EmptyString))
        end
  end.

Definition leg_of (to : string) (tf : option ThreadFreshness) (r : SendResponse) : MultiSendResult :=
  mkLeg to (sn_OK r) (sn_ID r) (sn_Queued r) (sn_Recipient r) (sn_Delivery r) (sn_Receipt r) tf
    EmptyString (sn_Error r).

(** The loop over the recipients; both surfaces have the same one. *)
Fixpoint fanout_loop (p : sendParams) (tf : option ThreadFreshness) (start : Z) (l : list (string * Z))
    : M (result (list MultiSendResult)) :=
  match l with
  | [] => go (Ok [])
  | (to, offset) :: l' =>
      _ <! lift (fanoutStaggerWait start offset) ;;
      r <! sendOneRecipient (set_To to (sp_ToRecipients p) p) ;;
      match r with
      | Err e => go (Err e)
      | Ok resp =>
          rest <! fanout_loop p tf start l' ;;
          go (match rest with Err e => Err e | Ok rs => Ok (leg_of to tf resp :: rs) end)
      end
  end.

(** Read each recipient's pool; one that cannot be read is the unknown pool. *)
Fixpoint read_pools (recipients : list string) : M (list string) :=
  match recipients with
  | [] => go []
  | to :: rest =>
      r <! store_read "ProviderCapConfig" (ProviderCapConfig to) ;;
      pools <! read_pools rest ;;
      go ((match r with Ok (provider, _) => provider | Err _ => EmptyString end) :: pools)
  end.

(** Deliver to each recipient, then give the charge back when nobody was reached. *)
Definition fan_out (p : sendParams) (tf : option ThreadFreshness) (charged : Q)
    : M (result MultiSendResponse) :=
  start <! lift time_Now ;;
  pools <! read_pools (sp_ToRecipients p) ;;
  results <! fanout_loop p tf start (combine (sp_ToRecipients p) (fanoutStaggerOffsets pools)) ;;
  match results with
  | Err e => go (Err e)
  | Ok rs =>
      let warnings := warningsFor (sp_ConfigWarning p) in
      refund <! (if negb (existsb ms_OK rs) && negb (Qle_bool charged 0) then refundSend p charged
                 else go EmptyString) ;;
      go (Ok (mkMulti (forallb ms_OK rs) rs
                (warnings ++ (if str_empty refund then [] else [refund]))))
  end.

(** [p.BlockOnStale && tf.Stale]. *)
Definition blocked (p : sendParams) (tf : option ThreadFreshness) : bool :=
  sp_BlockOnStale p && match tf with Some tf => tf_Stale tf | None => false end.

(** The freshness of a send that threads under an earlier message. *)
Definition reply_freshness (p : sendParams) : M (result (option ThreadFreshness)) :=
  if str_empty (sp_ReplyTo p) then go (Ok None)
  else
    r <! resolveThreadFreshness (sp_ReplyTo p) (sp_From p) ;;
    go (match r with Ok tf => Ok (Some tf) | Err e => Err e end).

(** ** The command line *)

Definition json_error (msg : string) (code : Z) : M answer := go (JSONError msg code).

Definition runMultiSendWithStore (p : sendParams) : M answer :=
  if str_empty (sp_From p) then json_error no_sender_text exitUsage
  else if str_empty (sp_Body p) then json_error "body required" exitDataErr
  else if too_large p then json_error (too_large_text p) exitDataErr
  else if too_many p then json_error (too_many_text p) exitDataErr
  else if negb (str_empty (sp_DeliverAfter p)) then
    json_error "--deliver-after is single-recipient only (v1, #227): cannot defer a multi-recipient send" exitUsage
  else if sp_ForceRateLimited p then
    json_error "--force-rate-limited is single-recipient only (#558): cannot force a multi-recipient send" exitUsage
  else
    sender <! store "GetAgent" (fun _ d => (GetAgent (sp_From p) d, d)) ;;
    match sender with
    | Err e => if errors_Is e ErrNotFound then json_error (unknown_sender (sp_From p)) exitUnavailable
               else json_error (error_text e) exitInternal
    | Ok _ =>
        fresh <! reply_freshness p ;;
        match fresh with
        | Err e => if errors_Is e ErrNotFound then json_error (unknown_reply_to (sp_ReplyTo p)) exitDataErr
                   else json_error (error_text e) exitInternal
        | Ok tf =>
            if blocked p tf then json_error (default EmptyString (stale_text <$> tf)) exitUnavailable
            else if sp_DryRun p then writeBudgetQuote p (sp_ToRecipients p)
            else
              c <! chargeForSend (sp_Budget p) (sp_From p) (sp_ToRecipients p) (sp_Body p) ;;
              match c with
              | inr a => go a
              | inl charged =>
                  out <! fan_out p tf charged ;;
                  go (match out with
                      | Err e => JSONError (error_text e) exitInternal
                      | Ok out => MultiResult out (if mr_OK out then exitOK else exitTempFail)
                      end)
              end
        end
    end.

(** After the recipient's name is known: [runSendWithStore] past the dispatch. *)
Definition run_single (p : sendParams) : M answer :=
  if str_empty (sp_From p) then json_error no_sender_text exitUsage
  else if str_empty (sp_To p) then json_error "--to required" exitUsage
  else if str_empty (sp_Body p) then json_error "body required" exitDataErr
  else if too_large p then json_error (too_large_text p) exitDataErr
  else if sp_DryRun p then writeBudgetQuote p [sp_To p]
  else
    c <! chargeForSend (sp_Budget p) (sp_From p) [sp_To p] (sp_Body p) ;;
    match c with
    | inr a => go a
    | inl _ =>
        match (if str_empty (sp_DeliverAfter p) then None else validateDeferTrigger (sp_DeliverAfter p)) with
        | Some e => json_error (error_text e) exitUsage
        | None =>
            status <! resolveRecipientStatus (sp_To p) ;;
            match status with
            | Err e => json_error (error_text e) exitInternal
            | Ok rs =>
                if negb (rs_Registered rs) then json_error (unknown_recipient (sp_To p)) exitUnavailable
                else if sp_Strict p && negb (rs_Alive rs) && str_empty (sp_DeliverAfter p) then
                  go (SendResult (failure (Some rs) None EmptyString (unreachable_text (sp_To p) rs)) exitUnavailable)
                else
                  sender <! store "GetAgent" (fun _ d => (GetAgent (sp_From p) d, d)) ;;
                  match sender with
                  | Err e => if errors_Is e ErrNotFound then json_error (unknown_sender (sp_From p)) exitUnavailable
                             else json_error (error_text e) exitInternal
                  | Ok _ =>
                      fresh <! reply_freshness p ;;
                      match fresh with
                      | Err e => if errors_Is e ErrNotFound
                                 then json_error (unknown_reply_to (sp_ReplyTo p)) exitDataErr
                                 else json_error (error_text e) exitInternal
                      | Ok tf =>
                          if blocked p tf then
                            go (SendResult (failure (Some rs) tf EmptyString
                                  (default EmptyString (stale_text <$> tf))) exitUnavailable)
                          else
                            ins <! insert_message (single_insert p (sp_ForceRateLimited p)) ;;
                            match ins with
                            | Err e =>
                                if is_cap_error e then
                                  go (SendResult (failure None None (refused_id e) (error_text e)) exitTempFail)
                                else if errors_Is e ErrNotFound then
                                  json_error (unknown_reply_to (sp_ReplyTo p)) exitDataErr
                                else json_error (error_text e) exitInternal
                            | Ok res =>
                                tail <! finish_send p (sp_WaitForDelivered p && str_empty (sp_DeliverAfter p))
                                          (sp_To p) (ir_PublicID res) (sp_DeliverAfter p) ;;
                                go (SendResult (sent_response p res rs tf tail) exitOK)
                            end
                      end
                  end
            end
        end
    end.

Definition runSendWithStore (p0 : sendParams) : M answer :=
  r <! resolveOperatorInSendParams p0 ;;
  match r with
  | Err e => json_error (error_text e) exitUnavailable
  | Ok p =>
      match sp_ToRecipients p with
      | _ :: _ :: _ => runMultiSendWithStore p
      | [to] => run_single (set_To to [to] p)
      | [] => run_single p
      end
  end.

(** ** The MCP tool *)

(** [return nil, fmt.Errorf(...)]. *)
Definition mcp_error (msg : string) : M (result reply) := go (Err (ErrMsg msg)).

(** The budget gate of both tools: the refusal carries the advice. *)
Definition mcp_refusal (e : error) : error :=
  if errors_Is e ErrBudgetExhausted then ErrMsg (budgetRefusalText e) else e.

Definition doMultiSendMCP (p0 : sendParams) : M (result reply) :=
  r <! resolveOperatorInSendParams p0 ;;
  match r with
  | Err e => go (Err e)
  | Ok p =>
      if str_empty (sp_Body p) then mcp_error "body required"
      else if too_large p then mcp_error (too_large_text p)
      else if too_many p then mcp_error (too_many_text p)
      else
        sender <! store "GetAgent" (fun _ d => (GetAgent (sp_From p) d, d)) ;;
        match sender with
        | Err e => if errors_Is e ErrNotFound then mcp_error (unknown_sender (sp_From p)) else go (Err e)
        | Ok _ =>
            fresh <! reply_freshness p ;;
            match fresh with
            | Err e => if errors_Is e ErrNotFound then mcp_error (unknown_reply_to (sp_ReplyTo p))
                       else go (Err e)
            | Ok tf =>
                if blocked p tf then mcp_error (default EmptyString (stale_text <$> tf))
                else
                  c <! chargeSend (sp_Budget p) (sp_From p) (sp_ToRecipients p) (sp_Body p) ;;
                  match c with
                  | Err e => go (Err (mcp_refusal e))
                  | Ok charged =>
                      out <! fan_out p tf charged ;;
                      go (match out with Err e => Err e | Ok out => Ok (ReplyMulti out) end)
                  end
            end
        end
  end.

Definition doSendMCP (p0 : sendParams) : M (result reply) :=
  r <! resolveOperatorInSendParams p0 ;;
  match r with
  | Err e => go (Err e)
  | Ok p =>
      if str_empty (sp_To p) then mcp_error "to required"
      else if str_empty (sp_Body p) then mcp_error "body required"
      else if too_large p then mcp_error (too_large_text p)
      else
        c <! chargeSend (sp_Budget p) (sp_From p) [sp_To p] (sp_Body p) ;;
        match c with
        | Err e => go (Err (mcp_refusal e))
        | Ok _ =>
            match (if str_empty (sp_DeliverAfter p) then None else validateDeferTrigger (sp_DeliverAfter p)) with
            | Some e => go (Err e)
            | None =>
                status <! resolveRecipientStatus (sp_To p) ;;
                match status with
                | Err e => go (Err e)
                | Ok rs =>
                    if negb (rs_Registered rs) then mcp_error (unknown_recipient (sp_To p))
                    else if sp_Strict p && negb (rs_Alive rs) && str_empty (sp_DeliverAfter p) then
                      go (Ok (ReplySend (failure (Some rs) None EmptyString (unreachable_text (sp_To p) rs))))
                    else
                      sender <! store "GetAgent" (fun _ d => (GetAgent (sp_From p) d, d)) ;;
                      match sender with
                      | Err e => if errors_Is e ErrNotFound then mcp_error (unknown_sender (sp_From p))
                                 else go (Err e)
                      | Ok _ =>
                          fresh <! reply_freshness p ;;
                          match fresh with
                          | Err e => if errors_Is e ErrNotFound then mcp_error (unknown_reply_to (sp_ReplyTo p))
                                     else go (Err e)
                          | Ok tf =>
                              if blocked p tf then
                                go (Ok (ReplySend (failure (Some rs) tf EmptyString
                                      (default EmptyString (stale_text <$> tf)))))
                              else
                                ins <! insert_message (single_insert p false) ;;
                                match ins with
                                | Err e => if errors_Is e ErrNotFound
                                           then mcp_error (unknown_reply_to (sp_ReplyTo p)) else go (Err e)
                                | Ok res =>
                                    tail <! finish_send p (sp_WaitForDelivered p && str_empty (sp_DeliverAfter p))
                                              (sp_To p) (ir_PublicID res) (sp_DeliverAfter p) ;;
                                    go (Ok (ReplySend (sent_response p res rs tf tail)))
                                end
                          end
                      end
                end
            end
        end
  end.

(** The dispatch at the end of [mcpSendHandler]. *)
Definition mcp_dispatch (toList : list string) (p : sendParams) : M (result reply) :=
  match toList with
  | _ :: _ :: _ => doMultiSendMCP (set_To EmptyString toList p)
  | [to] => doSendMCP (set_To to [] p)
  | [] => doSendMCP (set_To EmptyString [] p)
  end.

(** The dispatch at the end of [runSendCLI]. *)
Definition cli_dispatch (to : string) (p : sendParams) : M answer :=
  match splitRecipients to with
  | _ :: _ :: _ as toList => runSendWithStore (set_To EmptyString toList p)
  | _ => runSendWithStore (set_To to [] p)
  end.

(** The same dispatch on a list of names. *)
Definition cli_call (toList : list string) (p : sendParams) : M answer :=
  match toList with
  | _ :: _ :: _ => runSendWithStore (set_To EmptyString toList p)
  | [to] => runSendWithStore (set_To to [] p)
  | [] => runSendWithStore (set_To EmptyString [] p)
  end.

(** ** Deferred and operator-flagged messages *)

Record flushResult : Type := mkFlush { fl_Trigger : string; fl_Promoted : Z }.

Definition doFlushDeferred (agent trigger : string) : M (result flushResult) :=
  match validateDeferTrigger trigger with
  | Some e => go (Err e)
  | None =>
      r <! store_ok "PromoteDeferred" (fun _ d => PromoteDeferred agent trigger d) ;;
      go (match r with Err e => Err e | Ok n => Ok (mkFlush trigger n) end)
  end.

Definition operatorAttentionRecipient : string := "operator-attention".
Definition capBodyBytes : Z := 16 * 1024.

(** The result map: an error, or the id and the error of the flag, when it failed. *)
Inductive flag_result : Type :=
  | FlagError (msg : string)
  | Flagged (id : string) (state_error : option string).

Definition not_set_up (binary : string) : string :=
  "recipient " +:+ Str.Quote operatorAttentionRecipient
    +:+ " not registered — operator needs to set it up via `" +:+ binary +:+ " register --name "
    +:+ operatorAttentionRecipient +:+ " --delivery-mode mailbox-only` before chambers can flag for attention".

Definition doFlagOperator (binary sender body : string) : M (flag_result * Z) :=
  a <! store "GetAgent" (fun _ d => (GetAgent operatorAttentionRecipient d, d)) ;;
  match a with
  | Err e =>
      go (if errors_Is e ErrNotFound then (FlagError (not_set_up binary), exitDataErr)
          else (FlagError ("get " +:+ Str.Quote operatorAttentionRecipient +:+ ": " +:+ error_text e), exitInternal))
  | Ok _ =>
      let n := Z.of_nat (String.length body) in
      if capBodyBytes <? n then
        go (FlagError ("body too large (" +:+ Str.itoa n +:+ " > " +:+ Str.itoa capBodyBytes +:+ " bytes)"), exitDataErr)
      else
        row <! insert_message (simple_params sender operatorAttentionRecipient body None) ;;
        match row with
        | Err e => go (FlagError ("insert: " +:+ error_text e), exitInternal)
        | Ok row =>
            r <! store "SetAttentionState" (fun _ d => SetAttentionState sender AttentionStateAwaitingOperator d) ;;
            go (Flagged (ir_PublicID row)
                  (match r with
                   | Ok _ => None
                   | Err e => Some ("set attention_state: " +:+ error_text e)
                   end), exitOK)
        end
  end.
End Send.
