(* ===== verification/Control.v ===== *)
(** * Control commands (internal/control/control.go, internal/cli/control.go, mcp.go)

    The whitelist of slash-commands an agent may have typed into a pane, who may aim
    which at whom, the label that a clear carries, and the command that queues them:
    one control row, or two rows inserted together.  The help texts of the whitelist
    and the flag parsing of the command are left out. *)

From stdpp Require Import sorting.
From S2P Require Import Prelude GoStd StoreTypes Messages Agents TmuxIO Mailman Send Identity.

Open Scope Z_scope.
Open Scope tell_scope.

(** ** The whitelist *)

Inductive Scope_ : Type := ScopeSelf | ScopePeer.

#[global] Instance Scope_eq_dec : EqDecision Scope_.
Proof. solve_decision. Defined.

Definition Scope_String (s : Scope_) : string :=
  match s with ScopeSelf => "self" | ScopePeer => "peer" end.

Record Command : Type := mkCommand { cm_Text : string; cm_Self : bool; cm_Peer : bool }.

Definition Allowed : list (string * Command) :=
  [("compact", mkCommand "/compact" true false);
   ("rename", mkCommand "/rename" true true);
   ("cost", mkCommand "/cost" true false);
   ("help", mkCommand "/help" true true);
   ("clear", mkCommand "/clear" false false);
   ("mcp-disable-tmux-tell", mkCommand "/mcp disable tmux-tell" true false);
   ("mcp-enable-tmux-tell", mkCommand "/mcp enable tmux-tell" true true);
   ("mcp-restart-tmux-tell", mkCommand "/mcp restart tmux-tell" true true)].

Definition aliasOf : list (string * string) :=
  [("mcp-disable-tmux-msg", "mcp-disable-tmux-tell");
   ("mcp-enable-tmux-msg", "mcp-enable-tmux-tell");
   ("mcp-restart-tmux-msg", "mcp-restart-tmux-tell");
   ("sleep", "compact")].

Record Edge : Type := mkEdge { eg_From : string; eg_To : string }.

#[global] Instance Edge_eq_dec : EqDecision Edge.
Proof. solve_decision. Defined.

Definition PeerEdges : list (string * list Edge) :=
  [("clear", [mkEdge "bosun" "pilot"; mkEdge "quartermaster" "pilot"])].

(** Reading a key of a map. *)
Definition at_key {A} (m : list (string * A)) (k : string) : option A :=
  option_map snd (List.find (fun e => bool_decide (fst e = k)) m).

Definition edges_of (n : string) : list Edge := default [] (at_key PeerEdges n).

Definition Canonicalize (name : string) : string * bool :=
  let n := Str.ToLower (Str.TrimPrefix (Str.TrimSpace name) "/") in
  match at_key aliasOf n with Some c => (c, true) | None => (n, false) end.

(** ** The label of a clear *)

Definition maxForTaskLen : Z := 80.

Definition ErrForTaskInvalid : error := ErrMsg "control: invalid for_task label".

Definition alnum (a : ascii) : bool :=
  let n := Ascii.nat_of_ascii a in
  ((65 <=? n) && (n <=? 90) || (97 <=? n) && (n <=? 122) || (48 <=? n) && (n <=? 57))%nat.

(** [A-Za-z0-9 #/._-] *)
Definition label_byte (a : ascii) : bool :=
  alnum a || existsb (fun n => (Ascii.nat_of_ascii a =? n)%nat) [32; 35; 47; 46; 95; 45]%nat.

Fixpoint all_bytes (p : ascii -> bool) (s : string) : bool :=
  match s with EmptyString => true | String a s' => p a && all_bytes p s' end.

(** [^[A-Za-z0-9][A-Za-z0-9 #/._-]*$] *)
Definition forTaskRe (s : string) : bool :=
  match s with EmptyString => false | String a s' => alnum a && all_bytes label_byte s' end.

Definition forTask_error (reason : string) : error :=
  ErrWrap (error_text ErrForTaskInvalid +:+ ": " +:+ reason) ErrForTaskInvalid.

Definition ValidateForTask (s : string) : option error :=
  if str_empty s then Some (forTask_error "empty")
  else if maxForTaskLen <? Z.of_nat (String.length s) then
    Some (forTask_error (Str.itoa (Z.of_nat (String.length s)) +:+ " bytes exceeds the "
            +:+ Str.itoa maxForTaskLen +:+ "-byte cap"))
  else if negb (forTaskRe s) then
    Some (forTask_error "must be a single line of [A-Za-z0-9 #/._-] starting with an alphanumeric (no leading slash, no newlines/tabs/control chars)")
  else None.

(** ** Who may aim what at whom *)

Definition ErrNotAllowed : error := ErrMsg "control: command not on whitelist".
Definition ErrScopeDenied : error := ErrMsg "control: command not allowed in this scope".

Definition denied (text : string) : error :=
  ErrWrap (error_text ErrScopeDenied +:+ ": " +:+ text) ErrScopeDenied.

Definition on_edge (n sender recipient : string) : bool :=
  existsb (fun e => bool_decide (eg_From e = sender) && bool_decide (eg_To e = recipient)) (edges_of n).

Definition ResolveControl (name : string) (scope : Scope_) (sender recipient : string) : result string :=
  let n := fst (Canonicalize name) in
  if str_empty n then Err ErrNotAllowed
  else
    match at_key Allowed n with
    | None => Err ErrNotAllowed
    | Some cmd =>
        match scope with
        | ScopeSelf =>
            if negb (cm_Self cmd) then
              if cm_Peer cmd then Err (denied (Str.Quote n +:+ " is peer-only"))
              else if negb (bool_decide (edges_of n = [])) then
                Err (denied (Str.Quote n +:+ " is restricted to specific peer (sender, recipient) edges; not self-invokable"))
              else Err (denied (Str.Quote n +:+ " is not invokable in any scope"))
            else Ok (cm_Text cmd)
        | ScopePeer =>
            if cm_Peer cmd then Ok (cm_Text cmd)
            else if on_edge n sender recipient then Ok (cm_Text cmd)
            else if bool_decide (edges_of n = []) then Err (denied (Str.Quote n +:+ " is self-only"))
            else Err (denied (Str.Quote n +:+ " not invokable from " +:+ Str.Quote sender +:+ " to "
                        +:+ Str.Quote recipient))
        end
    end.

Definition sort_strings (l : list string) : list string := merge_sort String.le l.

Definition Names : list string := sort_strings (map fst Allowed).

Definition invokable (scope : Scope_) (sender recipient : string) (e : string * Command) : bool :=
  match scope with
  | ScopeSelf => cm_Self (snd e)
  | ScopePeer => cm_Peer (snd e) || on_edge (fst e) sender recipient
  end.

Definition NamesForScope (scope : Scope_) (sender recipient : string) : list string :=
  sort_strings (map fst (List.filter (invokable scope sender recipient) Allowed)).

(** [%v] of a slice. *)
Definition slice_text (l : list string) : string := "[" +:+ Str.Join l " " +:+ "]".

(** ** The command *)

Definition capRecipientQueue : Z := 5.
Definition capSenderBacklog : Z := 2.

Record controlParams : Type := mkControl {
  cp_From : string;
  cp_To : string;
  cp_Command : string;
  cp_ResumeWith : string;
  cp_ForceRateLimited : bool;
  cp_ForTask : string;
  cp_MaxRecipient : Z;
  cp_MaxSender : Z;
  cp_MaxBody : Z
}.

Record controlResult : Type := mkControlResult {
  cr_ID : string;
  cr_EnableID : string;
  cr_ResumeID : string;
  cr_RenameID : string;
  cr_Macro : string;
  cr_Command : string;
  cr_Queued : Z;
  cr_Deprecated : string
}.

Definition insert_pair (q1 q2 : InsertParams) : M (result (InsertResult * InsertResult)) :=
  access "InsertMessagePair" (fun sw h now d =>
    InsertMessagePair q1 q2 true (sw_entropy sw (EvCall "id" :: h)) (sw_entropy sw (EvCall "second id" :: h))
      (sw_entropy sw (EvCall "refused id" :: h)) (sw_entropy sw (EvCall "second refused id" :: h)) now d).

(** A row of the command; only the first of a pair carries the caps. *)
Definition control_row (p : controlParams) (kind : Kind) (body : string) (capped : bool) : InsertParams :=
  mkParams (cp_From p) (cp_To p) EmptyString body (Some kind) false false EmptyString EmptyString EmptyString
    false 0 (cp_ForceRateLimited p) (if capped then cp_MaxRecipient p else 0) (if capped then cp_MaxSender p else 0).

Definition capitalizeFirst (s : string) : string :=
  match s with
  | EmptyString => EmptyString
  | String a s' => Str.ToUpper (String a EmptyString) +:+ s'
  end.

Definition deprecation (p : controlParams) : string :=
  let (canonical, was_alias) := Canonicalize (cp_Command p) in
  if was_alias : bool then
    "control macro " +:+ Str.Quote (Str.ToLower (Str.TrimSpace (cp_Command p))) +:+ " is a deprecated alias for "
      +:+ Str.Quote canonical +:+ " (removed v1.0, ADR-0008 §Discretion)"
  else EmptyString.

(** Clear, then rename the fresh session after its task. *)
Definition control_clear (p : controlParams) (text forTask : string) : M (result controlResult) :=
  let label := capitalizeFirst (cp_To p) +:+ " " +:+ forTask in
  r <! insert_pair (control_row p KindControl text true) (control_row p KindControl ("/rename " +:+ label) false) ;;
  go (match r with
      | Err e => Err e
      | Ok (clear, rename) =>
          Ok (mkControlResult (ir_PublicID clear) EmptyString EmptyString (ir_PublicID rename) "clear" text
                (ir_Queued rename) (deprecation p))
      end).

Definition control_restart (p : controlParams) (text : string) : M (result controlResult) :=
  r <! insert_pair (control_row p KindControl "/mcp disable tmux-tell" true)
                   (control_row p KindControl "/mcp enable tmux-tell" false) ;;
  go (match r with
      | Err e => Err e
      | Ok (disable, enable) =>
          Ok (mkControlResult (ir_PublicID disable) (ir_PublicID enable) EmptyString EmptyString "restart" text
                (ir_Queued enable) (deprecation p))
      end).

Definition control_resume (p : controlParams) (text : string) : M (result controlResult) :=
  r <! insert_pair (control_row p KindControl text true) (control_row p KindMessage (cp_ResumeWith p) false) ;;
  go (match r with
      | Err e => Err e
      | Ok (compact, resume) =>
          Ok (mkControlResult (ir_PublicID compact) EmptyString (ir_PublicID resume) EmptyString "resume" text
                (ir_Queued resume) (deprecation p))
      end).

Definition control_plain (p : controlParams) (text : string) : M (result controlResult) :=
  r <! insert_message (control_row p KindControl text true) ;;
  go (match r with
      | Err e => Err e
      | Ok res =>
          Ok (mkControlResult (ir_PublicID res) EmptyString EmptyString EmptyString EmptyString text
                (ir_Queued res) (deprecation p))
      end).

Definition control_scope (p : controlParams) : Scope_ :=
  if bool_decide (cp_To p = cp_From p) then ScopeSelf else ScopePeer.

(** The paths of an authorised command. *)
Definition control_paths (p : controlParams) (text : string) : M (result controlResult) :=
  let canonName := fst (Canonicalize (cp_Command p)) in
  let forTask := Str.TrimSpace (cp_ForTask p) in
  let fail msg := go (Err (ErrMsg msg)) in
  if negb (str_empty forTask) && negb (bool_decide (canonName = "clear")) then
    fail ("for_task is only valid with command=clear (got command=" +:+ Str.Quote canonName +:+ ")")
  else if negb (str_empty forTask) && negb (str_empty (cp_ResumeWith p)) then
    fail "for_task and resume_with are mutually exclusive (clear-with-task vs compact-with-resume are different macros)"
  else if bool_decide (canonName = "clear") then
    if str_empty forTask then
      fail ("command=clear requires for_task: the dispatch-time task identity to rename the cleared session to (e.g. "
              +:+ Str.Quote "tmux-tell#286" +:+ ")")
    else match ValidateForTask forTask with
         | Some e => go (Err e)
         | None => control_clear p text forTask
         end
  else if bool_decide (canonName = "mcp-restart-tmux-tell") then control_restart p text
  else if negb (str_empty (cp_ResumeWith p)) then
    if negb (bool_decide (text = "/compact")) then fail "resume_with is only valid with command=compact"
    else if negb (bool_decide (control_scope p = ScopeSelf)) then fail "resume_with requires self-invocation"
    else if (0 <? cp_MaxBody p) && (cp_MaxBody p <? Z.of_nat (String.length (cp_ResumeWith p))) then
      fail ("resume_with too large (" +:+ Str.itoa (Z.of_nat (String.length (cp_ResumeWith p))) +:+ " > "
              +:+ Str.itoa (cp_MaxBody p) +:+ " bytes)")
    else control_resume p text
  else control_plain p text.

Definition scope_refusal (p : controlParams) (e : error) : error :=
  ErrWrap (error_text e +:+ "; " +:+ Scope_String (control_scope p) +:+ "-invokable: "
             +:+ slice_text (NamesForScope (control_scope p) (cp_From p) (cp_To p))) e.

Definition doControl (p : controlParams) : M (result controlResult) :=
  if str_empty (cp_From p) then go (Err (ErrMsg "cannot resolve sender identity"))
  else if str_empty (cp_To p) then go (Err (ErrMsg "to required"))
  else if str_empty (cp_Command p) then go (Err (ErrMsg "command required"))
  else
    match ResolveControl (cp_Command p) (control_scope p) (cp_From p) (cp_To p) with
    | Err e => go (Err (scope_refusal p e))
    | Ok text =>
        a <! store "GetAgent" (fun _ d => (GetAgent (cp_To p) d, d)) ;;
        match a with
        | Err e => go (Err (if errors_Is e ErrNotFound then ErrMsg (unknown_recipient (cp_To p)) else e))
        | Ok _ => control_paths p text
        end
    end.

(** ** The two surfaces *)

Inductive control_answer : Type :=
  | ControlError (msg : string) (code : Z)
  | ControlRefused (refusedID msg : string)
  | ControlDone (r : controlResult).

(** The exit code of an error that is not a cap's. *)
Definition control_code (e : error) : Z :=
  if Str.Contains (error_text e) "unknown recipient" then exitUnavailable
  else if errors_Is e ErrNotAllowed || errors_Is e ErrScopeDenied then exitUsage
  else exitDataErr.

Definition set_control (from to : string) (p : controlParams) : controlParams :=
  mkControl from to (cp_Command p) (cp_ResumeWith p) (cp_ForceRateLimited p) (cp_ForTask p) (cp_MaxRecipient p)
    (cp_MaxSender p) (cp_MaxBody p).

Section Surfaces.
Context (getenv : string -> string) (getppid : Z) (environ stat : Z -> option string) (BinaryName : string).

(** The flags as parsed, [cp_From] being [--from], and the arguments left over. *)
Definition runControlCLI (p0 : controlParams) (args : list string) : M control_answer :=
  let to := match cp_To p0, args with EmptyString, [a] => a | to, _ => to end in
  if str_empty to then go (ControlError "--to required" exitUsage)
  else if str_empty (cp_Command p0) then go (ControlError "--command required" exitUsage)
  else
    who <! ResolveIdentity getenv (cp_From p0) ;;
    match who with
    | Err e => go (ControlError (error_text e) exitInternal)
    | Ok (from, _) =>
        if str_empty from then go (ControlError no_sender_text exitUsage)
        else
          r <! doControl (set_control from to p0) ;;
          go (match r with
              | Ok res => ControlDone res
              | Err e => if is_cap_error e then ControlRefused (refused_id e) (error_text e)
                         else ControlError (error_text e) (control_code e)
              end)
    end.

Definition mcpControl (injected to command resumeWith forTask : string) (force : bool)
    : M (result controlResult) :=
  who <! resolveMCPIdentity getenv getppid environ stat BinaryName injected ;;
  match who with
  | Err e => go (Err e)
  | Ok from =>
      doControl (mkControl from to command resumeWith force forTask capRecipientQueue capSenderBacklog capBodyBytes)
  end.
End Surfaces.
