(* ===== verification/SendDemo.v ===== *)
(** * A concrete bus

    Three agents, a clock that ticks and a store that nobody else writes to: sends
    evaluate on it. *)

From S2P Require Import Prelude GoStd Clock StoreTypes Priority Messages Agents Budget Lifecycle Invariants BudgetProps TmuxIO Mailman Serve ServeDemo RespawnProps Alone Send.

Open Scope Z_scope.
Open Scope tell_scope.

(** Every access succeeds, nobody else writes, and ids come from the number of events. *)
Definition bus : SWorld :=
  mkSWorld ticking_world demo_walker (fun _ d => d) no_faults
    (fun h k => Some (Z.of_nat k, Z.of_nat (length h))) (fun _ => Qmake 0 1) (fun _ => inl "%1")
    (fun m _ _ => m_Body m) (fun _ => None).

Definition bus_db : DB :=
  snd (UpsertAgent "carol" "%3" t0 (snd (UpsertAgent "bob" "%2" t0 (snd (UpsertAgent "alice" "%1" t0 empty_db))))).

Definition bus_start : sstate := mkS bus_db (initial_vars demo_opts) [].

Definition demo_tunables : budgetTunables := resolveBudgetTunables (fun _ hardcoded => hardcoded) true.

(** A message of [alice], by default to be delivered at once. *)
Definition demo_send (to : list string) (after : string) (prio : Z) : sendParams :=
  mkSend "alice" EmptyString to EmptyString "hello" false false after false prio false 5 2 16384 10
    demo_tunables EmptyString false false false 0 false.

Definition no_systemctl (_ : history) (_ : list string) : string := "inactive".
Definition no_clients (_ : history) : string + exec_failure := inl EmptyString.

Definition demo_cli (to : list string) (after : string) (prio : Z) : flow answer * sstate :=
  runSendWithStore square no_systemctl no_clients 102 (demo_send to after prio) bus bus_start.

Definition demo_mcp (to : list string) (after : string) (prio : Z) : flow (result reply) * sstate :=
  doMultiSendMCP square no_systemctl no_clients 102 (demo_send to after prio) bus bus_start.

(** Recipients, states and priorities of the rows a run leaves. *)
Definition rows_of {A} (r : flow A * sstate) : list (string * State * Z) :=
  map (fun m => (m_ToAgent m, m_State m, m_Priority m)) (db_messages (s_db (snd r))).

Lemma bus_alone : alone bus.
Proof. by split. Qed.

Lemma bus_store_wf : store_wf bus_db.
Proof. unfold bus_db. repeat (eapply store_step_wf; [apply step_UpsertAgent|]). apply empty_db_wf. Qed.
