(* ===== verification/IdentityProps.v ===== *)
(** * Which identity is resolved

    The order of the identity sources, stated over the chain of the caller's ancestors
    and the registry, and that the MCP resolver follows it. *)

From S2P Require Import Prelude GoStd StoreTypes Priority Messages Agents Invariants RegistryProps TmuxIO Mailman Discover DiscoverProps Serve ServeDemo Runs Identity Send SendDemo.

Open Scope Z_scope.
Open Scope tell_scope.

(** ** The climb *)

(** The ancestors a climb may ask, nearest first. *)
Fixpoint ancestors (stat : Z -> option string) (depth : nat) (visited : list Z) (pid : Z) : list Z :=
  match depth with
  | O => []
  | S depth' =>
      if (pid <=? 1) || bool_decide (pid ∈ visited) then []
      else pid :: match realProcPPIDForPID stat pid with
                  | None => []
                  | Some ppid => ancestors stat depth' (pid :: visited) ppid
                  end
  end.

Lemma ancestor_walk_first {A} stat (look : Z -> option A) depth : forall visited pid,
  ancestor_walk stat look depth visited pid = first_some look (ancestors stat depth visited pid).
Proof.
  induction depth as [|depth IH]; intros visited pid; simpl; [done|].
  destruct (_ || _); simpl; [done|]. destruct (look pid); [done|].
  destruct (realProcPPIDForPID stat pid); [apply IH|done].
Qed.

(** The chain is bounded and never asks a process twice. *)
Lemma ancestors_NoDup stat depth : forall visited pid,
  NoDup (ancestors stat depth visited pid) /\ (length (ancestors stat depth visited pid) <= depth)%nat /\
  forall p, p ∈ ancestors stat depth visited pid -> p ∉ visited /\ 1 < p.
Proof.
  induction depth as [|depth IH]; intros visited pid; simpl; [split_and!; [constructor|lia|set_solver]|].
  destruct ((pid <=? 1) || bool_decide (pid ∈ visited)) eqn:E; simpl; [split_and!; [constructor|lia|set_solver]|].
  apply orb_false_iff in E as [E1%Z.leb_gt E2%bool_decide_eq_false].
  destruct (realProcPPIDForPID stat pid) as [ppid|].
  - destruct (IH (pid :: visited) ppid) as (Hnd & Hl & Hv). split_and!.
    + constructor; [|done]. intros [? _]%Hv. set_solver.
    + simpl. lia.
    + intros p [->|Hp]%elem_of_cons; [done|]. destruct (Hv p Hp). set_solver.
  - split_and!; [by apply NoDup_singleton|simpl; lia|set_solver].
Qed.

(** ** The order of the sources *)

Section Order.
Context (getenv : string -> string) (getppid : Z) (environ stat : Z -> option string) (BinaryName : string).
Context (agents : list Agent).

Definition chain : list Z := ancestors stat maxAncestorWalkDepth [] getppid.

(** The agent [name] is registered for [pane]. *)
Definition registered (pane name : string) : Prop :=
  pane <> EmptyString /\ exists a, a ∈ agents /\ PaneID a = pane /\ a_name a = name.

(** The caller's own pane says nothing. *)
Definition own_unknown : Prop := forall name, ~ registered (getenv "TMUX_PANE") name.

(** [pane] is the one of the nearest ancestor that has one. *)
Definition nearest (pane : string) : Prop :=
  exists before pid after, chain = before ++ pid :: after /\
    nonempty_env environ "TMUX_PANE" pid = Some pane /\
    Forall (fun q => nonempty_env environ "TMUX_PANE" q = None) before.

Definition nearest_unknown : Prop := forall pane name, nearest pane -> ~ registered pane name.

Inductive identified : string -> result string -> Prop :=
  | id_injected name : name <> EmptyString -> identified name (Ok name)
  | id_own name : registered (getenv "TMUX_PANE") name -> identified EmptyString (Ok name)
  | id_ancestor pane name :
      own_unknown -> nearest pane -> registered pane name -> identified EmptyString (Ok name)
  | id_pin :
      own_unknown -> nearest_unknown -> envAgentNameValue getenv <> EmptyString ->
      identified EmptyString (Ok (envAgentNameValue getenv))
  | id_stranded pane :
      own_unknown -> nearest_unknown -> envAgentNameValue getenv = EmptyString -> nearest pane ->
      identified EmptyString (Err (ErrMsg (unregistered_pane_text BinaryName "ancestor " pane)))
  | id_ancestor_pin before pid after pin :
      own_unknown -> envAgentNameValue getenv = EmptyString -> (forall pane, ~ nearest pane) ->
      chain = before ++ pid :: after -> pin_env environ pid = Some pin ->
      Forall (fun q => pin_env environ q = None) before ->
      identified EmptyString (Ok pin)
  | id_nobody :
      own_unknown -> envAgentNameValue getenv = EmptyString -> (forall pane, ~ nearest pane) ->
      Forall (fun q => pin_env environ q = None) chain ->
      identified EmptyString (Err (mcpIdentityError getenv BinaryName)).

(** The same order, computed. *)
Definition own_agent : option string :=
  if str_empty (getenv "TMUX_PANE") then None else pane_agent (getenv "TMUX_PANE") agents.

Definition resolution (injected : string) : result string :=
  if negb (str_empty injected) then Ok injected
  else
    match own_agent, first_some (nonempty_env environ "TMUX_PANE") chain with
    | Some name, _ => Ok name
    | None, Some pane =>
        match pane_agent pane agents with
        | Some name => Ok name
        | None => if negb (str_empty (envAgentNameValue getenv)) then Ok (envAgentNameValue getenv)
                  else Err (ErrMsg (unregistered_pane_text BinaryName "ancestor " pane))
        end
    | None, None =>
        if negb (str_empty (envAgentNameValue getenv)) then Ok (envAgentNameValue getenv)
        else match first_some (pin_env environ) chain with
             | Some pin => Ok pin
             | None => Err (mcpIdentityError getenv BinaryName)
             end
    end.

Context (Hunique : forall a b, a ∈ agents -> b ∈ agents -> PaneID a = PaneID b -> PaneID a <> EmptyString -> a = b).

Lemma pane_agent_Some pane name :
  pane <> EmptyString -> pane_agent pane agents = Some name <-> registered pane name.
Proof.
  intros Hp. unfold pane_agent, registered. destruct (List.find _ agents) as [a|] eqn:E; simpl.
  - apply List.find_some in E as [Hin Ha%bool_decide_eq_true]. rewrite <- list_elem_of_In in Hin. split.
    + intros [= <-]. eauto.
    + intros (_ & b & Hb & Hpb & <-). f_equal. f_equal. apply Hunique; congruence.
  - split; [done|]. intros (_ & a & Ha & Hpa & _). apply find_None_all in E.
    rewrite Forall_forall in E. specialize (E a Ha). by rewrite bool_decide_eq_false in E.
Qed.

Lemma nonempty_env_ne key pid v : nonempty_env environ key pid = Some v -> v <> EmptyString.
Proof. unfold nonempty_env. destruct (realProcEnvForPID _ _ _); [|done]. case_bool_decide; naive_solver. Qed.

Lemma own_agent_Some name : own_agent = Some name <-> registered (getenv "TMUX_PANE") name.
Proof.
  unfold own_agent. case_bool_decide as E; [|by apply pane_agent_Some].
  split; [done|]. intros [? _]. by rewrite E in *.
Qed.

Lemma own_agent_None : own_agent = None <-> own_unknown.
Proof.
  unfold own_unknown. split.
  - intros E name H. apply own_agent_Some in H. by rewrite E in H.
  - intros H. destruct own_agent as [name|] eqn:E; [|done]. by apply own_agent_Some, H in E.
Qed.

Lemma nearest_first pane : nearest pane <-> first_some (nonempty_env environ "TMUX_PANE") chain = Some pane.
Proof. unfold nearest. rewrite first_some_Some. naive_solver. Qed.

Lemma nearest_None : first_some (nonempty_env environ "TMUX_PANE") chain = None <-> forall pane, ~ nearest pane.
Proof.
  split; [intros E pane H%nearest_first; congruence|]. intros H.
  destruct (first_some _ _) as [pane|] eqn:E; [|done]. by apply nearest_first, H in E.
Qed.

Lemma nearest_ne pane : nearest pane -> pane <> EmptyString.
Proof. intros (? & pid & ? & _ & H & _). by eapply nonempty_env_ne. Qed.

Lemma identified_resolution injected r : identified injected r -> r = resolution injected.
Proof.
  unfold resolution.
  destruct 1 as [name Hi|name Ho|pane name Ho Hn Hr|Ho Hu Hp|pane Ho Hu Hp Hn|b pid a pin Ho Hp Hn Hc Hx Hb|Ho Hp Hn Hb];
    simpl; [by rewrite bool_decide_false|by apply own_agent_Some in Ho as ->|apply own_agent_None in Ho as ->..].
  - pose proof (nearest_ne _ Hn) as Hne. apply nearest_first in Hn as ->.
    by rewrite (proj2 (pane_agent_Some _ _ Hne) Hr).
  - rewrite (bool_decide_false (envAgentNameValue _ = _)) by done. simpl.
    destruct (first_some _ _) as [pane|] eqn:E; [|done]. destruct (pane_agent pane agents) as [name|] eqn:Ea; [|done].
    apply nearest_first in E. exfalso. eapply Hu; [exact E|]. by apply pane_agent_Some; [apply nearest_ne|].
  - pose proof (nearest_ne _ Hn) as Hne. pose proof Hn as ->%nearest_first. rewrite Hp. simpl.
    destruct (pane_agent pane agents) as [name|] eqn:Ea; [|done].
    exfalso. eapply Hu; [exact Hn|]. by apply pane_agent_Some.
  - apply nearest_None in Hn as ->. rewrite Hp. simpl. rewrite (proj2 (first_some_Some _ _ pin)); [done|]. by exists b, pid, a.
  - apply nearest_None in Hn as ->. rewrite Hp. simpl. by rewrite (proj2 (first_some_None _ _)) by done.
Qed.

Lemma resolution_identified injected : identified injected (resolution injected).
Proof.
  unfold resolution. destruct (decide (injected = EmptyString)) as [->|Hi]; simpl;
    [|rewrite bool_decide_false by done; by constructor].
  destruct own_agent as [name|] eqn:Eo; [by apply id_own, own_agent_Some|]. apply own_agent_None in Eo.
  destruct (first_some (nonempty_env environ "TMUX_PANE") chain) as [pane|] eqn:En.
  - apply nearest_first in En. pose proof (nearest_ne _ En) as Hne.
    destruct (pane_agent pane agents) as [name|] eqn:Ea.
    { eapply id_ancestor; [done..|]. by apply pane_agent_Some. }
    assert (nearest_unknown) as Hu.
    { intros pane' name Hn' Hr. apply nearest_first in Hn', En. rewrite En in Hn'. injection Hn' as <-.
      apply pane_agent_Some in Hr; [congruence|done]. }
    case_bool_decide as Ep; simpl; [by apply id_stranded|by apply id_pin].
  - rewrite nearest_None in En. case_bool_decide as Ep; simpl.
    + destruct (first_some (pin_env environ) chain) as [pin|] eqn:Ei.
      * apply first_some_Some in Ei as (b & x & a & Hc & Hx & Hb). by eapply id_ancestor_pin.
      * apply first_some_None in Ei. by apply id_nobody.
    + apply id_pin; [done| |done]. intros pane name Hn. by destruct (En pane).
Qed.
End Order.

(** ** The resolver *)

Section Resolver.
Context (getenv : string -> string) (getppid : Z) (environ stat : Z -> option string) (BinaryName : string).
Context (sw : SWorld).

Lemma silent_identity {Op} (perform : Op -> DB -> DB -> Prop) override :
  silent perform sw (ResolveIdentity getenv override).
Proof. unfold ResolveIdentity. silent_tac. Qed.

(** Nobody registers meanwhile and the store answers. *)
Definition registry_still : Prop :=
  (forall h d, db_agents (sw_others sw h d) = db_agents d) /\ (forall h, sw_fault sw h = None).

Lemma read_agents st :
  registry_still -> exists st', store_read "ListAgents" ListAgents sw st = (Go (Ok (ListAgents (s_db st))), st') /\
    db_agents (s_db st') = db_agents (s_db st).
Proof.
  intros [Ho Hf]. unfold store_read, access. cbv zeta. rewrite Hf. eexists. simpl.
  unfold ListAgents at 1. rewrite Ho. split; [reflexivity|]. apply Ho.
Qed.

Lemma ancestor_resolution agents st :
  registry_still -> ListAgents (s_db st) = agents -> exists st',
    resolveAncestorPaneIdentity getppid environ stat sw st
      = (Go (Ok (match first_some (nonempty_env environ "TMUX_PANE") (chain getppid stat) with
                 | None => (EmptyString, EmptyString)
                 | Some pane => match pane_agent pane agents with
                                | Some name => (name, EmptyString)
                                | None => (EmptyString, pane)
                                end
                 end)), st').
Proof.
  intros Hs <-. unfold resolveAncestorPaneIdentity, andthen. destruct (read_agents st Hs) as (st' & -> & _).
  exists st'. by rewrite ancestor_walk_first.
Qed.

Lemma own_resolution agents st :
  registry_still -> ListAgents (s_db st) = agents -> exists st',
    ResolveIdentity getenv EmptyString sw st
      = (Go (Ok (match own_agent getenv agents with
                 | Some name => (name, SourcePane)
                 | None => pinned getenv
                 end)), st') /\ ListAgents (s_db st') = agents.
Proof.
  intros Hs <-. unfold ResolveIdentity, own_agent. simpl. case_bool_decide; [by exists st|].
  unfold andthen. destruct (read_agents st Hs) as (st' & -> & Hd). exists st'. split; [done|].
  unfold ListAgents. by rewrite Hd.
Qed.

Context (d : DB) (Hnames : forall a, a ∈ ListAgents d -> a_name a <> EmptyString).

Lemma pane_agent_ne pane name : pane_agent pane (ListAgents d) = Some name -> name <> EmptyString.
Proof.
  unfold pane_agent. destruct (List.find _ _) as [a|] eqn:E; [|done]. intros [= <-].
  apply Hnames. apply List.find_some in E as [Hin _]. by apply list_elem_of_In.
Qed.

Lemma resolve_resolution injected st :
  registry_still -> s_db st = d -> exists st',
    resolveMCPIdentity getenv getppid environ stat BinaryName injected sw st
      = (Go (resolution getenv getppid environ stat BinaryName (ListAgents d) injected), st').
Proof.
  intros Hs Hd. unfold resolveMCPIdentity, resolution. destruct (decide (injected = EmptyString)) as [->|Hi].
  2: { rewrite (bool_decide_false (injected = _)) by done. simpl. exists st.
       unfold ResolveIdentity, andthen, go. by rewrite bool_decide_false. }
  simpl. unfold andthen at 1.
  destruct (own_resolution (ListAgents d) st Hs) as (st1 & -> & Hl1); [by rewrite Hd|].
  destruct (own_agent getenv (ListAgents d)) as [name|]; [by exists st1|].
  destruct (ancestor_resolution (ListAgents d) st1 Hs Hl1) as (st2 & E2).
  exists st2. unfold pinned, andthen.
  case_bool_decide as Ep; simpl; rewrite E2; clear E2;
    (destruct (first_some (nonempty_env _ _) _) as [pane|] eqn:En;
       [destruct (pane_agent pane _) as [name|] eqn:Ea; [apply pane_agent_ne in Ea|apply first_some_Some in En as (? & ? & ? & _ & En & _); apply nonempty_env_ne in En]|]);
    unfold go; simpl; rewrite ?(bool_decide_false (name = _)) by done; rewrite ?(bool_decide_false (pane = _)) by done;
    rewrite ?(bool_decide_false (envAgentNameValue _ = _)) by done; simpl; rewrite ?bool_decide_true by done; try done.
  unfold ancestorNamePin. rewrite ancestor_walk_first. fold (chain getppid stat).
  destruct (first_some (pin_env environ) _) as [pin|] eqn:Ei; simpl; [|done].
  apply first_some_Some in Ei as (? & x & ? & _ & Hx & _). rewrite bool_decide_false; [done|].
  unfold pin_env in Hx. destruct (nonempty_env environ envAgentName x) eqn:E1; [|by apply nonempty_env_ne in Hx].
  injection Hx as <-. by apply nonempty_env_ne in E1.
Qed.
End Resolver.

Lemma agents_unique d a b :
  agents_wf (db_agents d) -> a ∈ ListAgents d -> b ∈ ListAgents d -> PaneID a = PaneID b ->
  PaneID a <> EmptyString -> a = b.
Proof.
  intros [_ Hp] [k Ha]%ListAgents_elem_inv [k' Hb]%ListAgents_elem_inv E Hne.
  enough (k = k') as -> by congruence. unfold PaneID, null_string in *.
  destruct (a_pane_id a) as [p|] eqn:Ea; [|done]. destruct (a_pane_id b) as [p'|] eqn:Eb; [|by simpl in E].
  simpl in E. subst p'. by eapply Hp.
Qed.

(** The order of the identity sources.  On a well-formed registry that stands
    still, the MCP resolver always answers, and with exactly what the order says: the
    injected name; the agent of the caller's own pane; the agent of the nearest
    ancestor that has a pane, whatever name is pinned; the caller's own pin; an error
    if the nearest pane is nobody's; the pin of the nearest ancestor with one; an
    error.  The order leaves no choice, and at most sixteen ancestors are asked. *)
Theorem mcp_identity_order getenv getppid environ stat BinaryName sw st injected :
  registry_still sw -> agents_wf (db_agents (s_db st)) ->
  let spec := identified getenv getppid environ stat BinaryName (ListAgents (s_db st)) injected in
  (exists r st', resolveMCPIdentity getenv getppid environ stat BinaryName injected sw st = (Go r, st') /\
     spec r /\ forall r', spec r' -> r' = r) /\
  NoDup (chain getppid stat) /\ (length (chain getppid stat) <= 16)%nat.
Proof.
  intros Hs Hwf spec.
  assert (forall a b, a ∈ ListAgents (s_db st) -> b ∈ ListAgents (s_db st) -> PaneID a = PaneID b ->
            PaneID a <> EmptyString -> a = b) as Hu by (intros a b; by apply agents_unique).
  split.
  - destruct (resolve_resolution getenv getppid environ stat BinaryName sw (s_db st)) with (injected := injected) (st := st)
      as (st' & E); [|done..|].
    { intros a [k Ha]%ListAgents_elem_inv. destruct Hwf as [Hk _]. destruct (Hk k a Ha) as (-> & _ & ? & _). done. }
    eexists _, st'. split; [exact E|]. split; [by apply resolution_identified|].
    intros r' Hr. by apply identified_resolution.
  - destruct (ancestors_NoDup stat maxAncestorWalkDepth [] getppid) as (H1 & H2 & _). done.
Qed.

(** A server whose pane was dropped on the way down from the pane of [bob], under a
    stale pin. *)
Definition child_env (key : string) : string := if bool_decide (key = envAgentName) then "carol" else EmptyString.
Definition tree_environ (pid : Z) : option string :=
  if pid =? 30 then Some ("HOME=/" +:+ nul_str +:+ "TMUX_PANE=%2" +:+ nul_str) else Some "HOME=/".
Definition tree_stat (pid : Z) : option string :=
  if pid =? 40 then Some "40 (sh (x)) S 30 40 40" else if pid =? 30 then Some "30 (codex) S 1 30 30" else None.

Lemma mcp_identity_order_witness :
  fst (resolveMCPIdentity child_env 40 tree_environ tree_stat "tmux-tell-codex" EmptyString bus bus_start) = Go (Ok "bob") /\
  exists r st', resolveMCPIdentity child_env 40 tree_environ tree_stat "tmux-tell-codex" EmptyString bus bus_start = (Go r, st') /\
    identified child_env 40 tree_environ tree_stat "tmux-tell-codex" (ListAgents (s_db bus_start)) EmptyString r.
Proof.
  split; [vm_compute; reflexivity|].
  assert (registry_still bus) as Hs by (split; reflexivity).
  assert (agents_wf (db_agents (s_db bus_start))) as Hwf by (apply UpsertAgent_wf, UpsertAgent_wf, UpsertAgent_wf, empty_db_wf).
  destruct (mcp_identity_order child_env 40 tree_environ tree_stat "tmux-tell-codex" bus bus_start EmptyString Hs Hwf)
    as [(r & st' & E & Hr & _) _].
  exists r, st'. split; [exact E|exact Hr].
Defined.
