(* ===== verification/ControlProps.v ===== *)
(** * What the control surface can do

    The policy of the whitelist stated on its own, that a control command queues
    exactly what the policy grants its sender, as rows of the store, and that the
    listing of invokable commands is the policy itself. *)

From stdpp Require Import sorting.
From S2P Require Import Prelude GoStd StoreTypes Priority Messages Lifecycle QueueProps Agents Invariants TmuxIO Mailman Serve ServeDemo Runs Identity IdentityProps Send SendDemo Control.

Open Scope Z_scope.
Open Scope tell_scope.

(** ** The policy *)

(** What an agent may have typed into its own pane, into another's, and who may clear whom. *)
Definition self_texts : list string :=
  ["/compact"; "/rename"; "/cost"; "/help"; "/mcp disable tmux-tell"; "/mcp enable tmux-tell"].
Definition peer_texts : list string := ["/rename"; "/help"; "/mcp enable tmux-tell"].
Definition dispatches (from to : string) : Prop := (from = "bosun" \/ from = "quartermaster") /\ to = "pilot".

(** A label that reads as part of one line and as no command of its own. *)
Definition safe_label (s : string) : Prop :=
  forTaskRe s = true /\ Z.of_nat (String.length s) <= maxForTaskLen.

(** The rows a command of [from] may queue for [to]: kinds and bodies. *)
Inductive granted (from to : string) : list (Kind * string) -> Prop :=
  | gr_self text : from = to -> text ∈ self_texts -> granted from to [(KindControl, text)]
  | gr_peer text : text ∈ peer_texts -> granted from to [(KindControl, text)]
  | gr_restart : granted from to [(KindControl, "/mcp disable tmux-tell"); (KindControl, "/mcp enable tmux-tell")]
  | gr_resume prompt :
      from = to -> prompt <> EmptyString -> granted from to [(KindControl, "/compact"); (KindMessage, prompt)]
  | gr_clear task :
      dispatches from to -> safe_label task ->
      granted from to [(KindControl, "/clear"); (KindControl, "/rename Pilot " +:+ task)].

(** Nothing a control row carries is more than one line, and its command is one of
    these words. *)
Definition command_words : list string := ["/compact"; "/rename"; "/cost"; "/help"; "/mcp"; "/clear"].

(** ** The whitelist follows the policy *)

Lemma at_key_elem {A} (m : list (string * A)) k v : at_key m k = Some v -> (k, v) ∈ m.
Proof.
  unfold at_key. destruct (List.find _ m) as [[k' v']|] eqn:E; [|done]. intros [= <-].
  apply List.find_some in E as [Hin E%bool_decide_eq_true]. simpl in E. subst k'. by apply list_elem_of_In.
Qed.

Lemma at_key_first {A} (m : list (string * A)) k v : NoDup (map fst m) -> (k, v) ∈ m -> at_key m k = Some v.
Proof.
  unfold at_key. induction m as [|[k' v'] m IH]; simpl; [by intros _ ?%elem_of_nil|].
  intros [Hk Hnd]%NoDup_cons [[= <- <-]|Hin]%elem_of_cons; [by rewrite bool_decide_true|].
  rewrite bool_decide_false; [by apply IH|]. intros ->. apply Hk, list_elem_of_In, in_map_iff.
  exists (k, v). by rewrite <- list_elem_of_In.
Qed.

Lemma on_edge_true n from to : on_edge n from to = true <-> n = "clear" /\ dispatches from to.
Proof.
  unfold on_edge, edges_of, dispatches. destruct (at_key PeerEdges n) as [l|] eqn:E; simpl.
  - apply at_key_elem in E. unfold PeerEdges in E. apply list_elem_of_singleton in E as [= -> ->]. simpl.
    rewrite orb_false_r, orb_true_iff, !andb_true_iff, !bool_decide_eq_true. naive_solver.
  - split; [done|]. intros [-> _]. vm_compute in E. done.
Qed.

(** What [ResolveControl] grants, entry by entry. *)
Lemma resolve_granted name scope from to text :
  ResolveControl name scope from to = Ok text ->
  exists cmd, (fst (Canonicalize name), cmd) ∈ Allowed /\ text = cm_Text cmd /\
    match scope with
    | ScopeSelf => cm_Self cmd = true
    | ScopePeer => cm_Peer cmd = true \/ (fst (Canonicalize name) = "clear" /\ dispatches from to)
    end.
Proof.
  unfold ResolveControl. set (n := fst (Canonicalize name)). case_bool_decide as En; [done|].
  destruct (at_key Allowed n) as [cmd|] eqn:E; [|done]. apply at_key_elem in E. intros H. exists cmd. split; [done|].
  destruct scope.
  - destruct (cm_Self cmd); simpl in H; [by injection H as <-|]. by repeat case_match.
  - destruct (cm_Peer cmd); [injection H as <-; auto|]. destruct (on_edge n from to) eqn:Eo.
    + injection H as <-. apply on_edge_true in Eo. auto.
    + by case_match.
Qed.

(** ** What a run writes *)

Inductive control_op : Type :=
  | CtlOne (q : InsertParams) (r : result InsertResult)
  | CtlPair (q1 q2 : InsertParams) (r : result (InsertResult * InsertResult)).

Definition control_perform (op : control_op) (d d' : DB) : Prop :=
  match op with
  | CtlOne q r => exists rnd rndR now, InsertMessage q rnd rndR now d = (r, d')
  | CtlPair q1 q2 r => exists r1 r2 r3 r4 now, InsertMessagePair q1 q2 true r1 r2 r3 r4 now d = (r, d')
  end.

(** The id of the second row of a pair. *)
Definition second_id (r : controlResult) : string := cr_EnableID r +:+ cr_ResumeID r +:+ cr_RenameID r.

(** The write that queues [rows], and the answer it gives. *)
Inductive queues (p : controlParams) : list (Kind * string) -> result controlResult -> control_op -> Prop :=
  | qu_one k b cr res :
      cr_ID cr = ir_PublicID res -> cr_Queued cr = ir_Queued res -> second_id cr = EmptyString ->
      queues p [(k, b)] (Ok cr) (CtlOne (control_row p k b true) (Ok res))
  | qu_one_err k b e : queues p [(k, b)] (Err e) (CtlOne (control_row p k b true) (Err e))
  | qu_pair k1 b1 k2 b2 cr res1 res2 :
      cr_ID cr = ir_PublicID res1 -> second_id cr = ir_PublicID res2 -> cr_Queued cr = ir_Queued res2 ->
      queues p [(k1, b1); (k2, b2)] (Ok cr)
        (CtlPair (control_row p k1 b1 true) (control_row p k2 b2 false) (Ok (res1, res2)))
  | qu_pair_err k1 b1 k2 b2 e :
      queues p [(k1, b1); (k2, b2)] (Err e)
        (CtlPair (control_row p k1 b1 true) (control_row p k2 b2 false) (Err e)).

Definition control_outcome (p : controlParams) (r : result controlResult) (ops : list control_op) : Prop :=
  (ops = [] /\ is_ok r = false) \/
  exists rows op, granted (cp_From p) (cp_To p) rows /\ ops = [op] /\ queues p rows r op.

Section Control.
Context (sw : SWorld).
Local Notation runs := (runs control_perform sw).

Lemma control_fails p e : runs (go (Err e)) (control_outcome p).
Proof. apply runs_go. by left. Qed.

Lemma runs_insert_one p k b mk :
  granted (cp_From p) (cp_To p) [(k, b)] ->
  (forall res, cr_ID (mk res) = ir_PublicID res /\ cr_Queued (mk res) = ir_Queued res /\ second_id (mk res) = EmptyString) ->
  runs (r <! insert_message (control_row p k b true) ;; go (match r with Err e => Err e | Ok res => Ok (mk res) end))
    (control_outcome p).
Proof.
  intros Hg Hmk.
  apply runs_bind with (Q := fun r ops => ops = [] /\ is_ok r = false \/ ops = [CtlOne (control_row p k b true) r]).
  - apply runs_write; [|by left]. intros h now d r d' E. eexists. split; [|by right]. simpl. eauto.
  - intros r ops Ho. apply runs_go. rewrite app_nil_r. destruct Ho as [[-> Hr]| ->]; [left; by destruct r|].
    right. exists [(k, b)], (CtlOne (control_row p k b true) r). split; [done|]. split; [done|].
    destruct r as [res|e]; constructor; apply Hmk.
Qed.

Lemma runs_pair p k1 b1 k2 b2 mk :
  granted (cp_From p) (cp_To p) [(k1, b1); (k2, b2)] ->
  (forall res1 res2, cr_ID (mk res1 res2) = ir_PublicID res1 /\ second_id (mk res1 res2) = ir_PublicID res2 /\
                     cr_Queued (mk res1 res2) = ir_Queued res2) ->
  runs (r <! insert_pair (control_row p k1 b1 true) (control_row p k2 b2 false) ;;
        go (match r with Err e => Err e | Ok (res1, res2) => Ok (mk res1 res2) end))
    (control_outcome p).
Proof.
  intros Hg Hmk. set (q1 := control_row p k1 b1 true). set (q2 := control_row p k2 b2 false).
  apply runs_bind with (Q := fun r ops => ops = [] /\ is_ok r = false \/ ops = [CtlPair q1 q2 r]).
  - apply runs_write; [|by left]. intros h now d r d' E. eexists. split; [|by right]. simpl. do 5 eexists. exact E.
  - intros r ops Ho. apply runs_go. rewrite app_nil_r. destruct Ho as [[-> Hr]| ->]; [left; by destruct r|].
    right. exists [(k1, b1); (k2, b2)], (CtlPair q1 q2 r). split; [done|]. split; [done|].
    destruct r as [[res1 res2]|e]; constructor; apply Hmk.
Qed.

(** What the name of an entry says of its text. *)
Lemma allowed_cases n cmd :
  (n, cmd) ∈ Allowed ->
  (n = "clear" /\ cmd = mkCommand "/clear" false false) \/
  (n = "mcp-restart-tmux-tell" /\ cm_Text cmd = "/mcp restart tmux-tell") \/
  (n <> "clear" /\ n <> "mcp-restart-tmux-tell" /\ cm_Text cmd ∈ self_texts /\
   (cm_Peer cmd = true -> cm_Text cmd ∈ peer_texts)).
Proof.
  unfold Allowed. rewrite !elem_of_cons, elem_of_nil.
  intros H. destruct_or? H; injection H as -> ->; simpl;
    first [left; by split|right; left; by split|right; right];
    (split_and!; [done..|by apply (bool_decide_unpack _)|intros Hp; first [discriminate Hp|by apply (bool_decide_unpack _)]]).
Qed.
Lemma control_scope_self p : control_scope p = ScopeSelf <-> cp_From p = cp_To p.
Proof. unfold control_scope. case_bool_decide; naive_solver. Qed.

Lemma ValidateForTask_None s : ValidateForTask s = None <-> safe_label s.
Proof.
  unfold ValidateForTask, safe_label. case_bool_decide as E; [subst s; by split; [|intros [? _]]|].
  destruct (Z.ltb_spec maxForTaskLen (Z.of_nat (String.length s))); [split; [done|lia]|].
  destruct (forTaskRe s); simpl; naive_solver.
Qed.

(** An entry the caller may use, down every path. *)
Lemma runs_paths p text :
  ResolveControl (cp_Command p) (control_scope p) (cp_From p) (cp_To p) = Ok text ->
  runs (control_paths p text) (control_outcome p).
Proof.
  intros Hr. apply resolve_granted in Hr as (cmd & Hin & -> & Hscope).
  unfold control_paths. cbv zeta. set (n := fst (Canonicalize (cp_Command p))) in *.
  set (task := Str.TrimSpace (cp_ForTask p)).
  destruct (negb (str_empty task) && _); [apply control_fails|].
  destruct (negb (str_empty task) && _); [apply control_fails|].
  apply allowed_cases in Hin as [[En ->]|[[En Et]|(Hn1 & Hn2 & Hs & Hp)]].
  - rewrite (bool_decide_true _ En). destruct (str_empty task); [apply control_fails|].
    destruct (ValidateForTask task) as [e|] eqn:Ev; [apply control_fails|]. apply ValidateForTask_None in Ev.
    unfold control_clear. cbv zeta. simpl cm_Text.
    assert (dispatches (cp_From p) (cp_To p)) as Hd by (destruct (control_scope p); [done|by destruct Hscope as [|[_ ?]]]).
    assert (capitalizeFirst (cp_To p) = "Pilot") as -> by (by destruct Hd as [_ ->]).
    change ("/rename " +:+ "Pilot" +:+ " " +:+ task) with ("/rename Pilot " +:+ task).
    apply (runs_pair p KindControl "/clear" KindControl ("/rename Pilot " +:+ task)
             (fun r1 r2 => mkControlResult (ir_PublicID r1) EmptyString EmptyString (ir_PublicID r2) "clear" "/clear"
                             (ir_Queued r2) (deprecation p))); [by apply gr_clear|].
    intros res1 res2. split_and!; reflexivity.
  - rewrite (bool_decide_false (n = "clear")), (bool_decide_true _ En) by (by rewrite En).
    cbv iota. unfold control_restart.
    apply (runs_pair p KindControl "/mcp disable tmux-tell" KindControl "/mcp enable tmux-tell"
             (fun r1 r2 => mkControlResult (ir_PublicID r1) (ir_PublicID r2) EmptyString EmptyString "restart"
                             (cm_Text cmd) (ir_Queued r2) (deprecation p))); [constructor|].
    intros res1 res2. unfold second_id. simpl. rewrite StrFacts.string_app_nil_r. split_and!; reflexivity.
  - rewrite (bool_decide_false _ Hn1), (bool_decide_false _ Hn2).
    cbv iota. destruct (negb (str_empty (cp_ResumeWith p))) eqn:Er.
    + destruct (bool_decide_reflect (cm_Text cmd = "/compact")) as [Et|]; cbn [negb]; cbv iota; [|apply control_fails].
      destruct (bool_decide_reflect (control_scope p = ScopeSelf)) as [Es|]; cbn [negb]; cbv iota; [|apply control_fails]. apply control_scope_self in Es.
      destruct (_ && _); [apply control_fails|]. rewrite Et. unfold control_resume.
      apply (runs_pair p KindControl "/compact" KindMessage (cp_ResumeWith p)
               (fun r1 r2 => mkControlResult (ir_PublicID r1) EmptyString (ir_PublicID r2) EmptyString "resume" "/compact"
                               (ir_Queued r2) (deprecation p))).
      * apply gr_resume; [done|]. by bsimp.
      * intros res1 res2. unfold second_id. simpl. rewrite StrFacts.string_app_nil_r. split_and!; reflexivity.
    + unfold control_plain. apply (runs_insert_one p _ _ (fun res => mkControlResult (ir_PublicID res) EmptyString EmptyString EmptyString EmptyString
                                          (cm_Text cmd) (ir_Queued res) (deprecation p)));
        [|intros res; split_and!; reflexivity].
      destruct (control_scope p) eqn:Ec; [apply gr_self; [by apply control_scope_self|done]|].
      apply gr_peer. destruct Hscope as [|[? _]]; [by apply Hp|done].
Qed.

Lemma runs_doControl p : runs (doControl p) (control_outcome p).
Proof.
  unfold doControl. destruct (str_empty (cp_From p)); [apply control_fails|].
  destruct (str_empty (cp_To p)); [apply control_fails|]. destruct (str_empty (cp_Command p)); [apply control_fails|].
  destruct (ResolveControl _ _ _ _) as [text|e] eqn:Er; [|apply control_fails].
  apply runs_silent; [apply silent_get|]. intros [a|e]; [by apply runs_paths|apply control_fails].
Qed.
End Control.

(** ** In the store *)

(** The row [m] is what [q] asked to insert. *)
Definition stored_as (q : InsertParams) (m : Message) : Prop :=
  m_FromAgent m = CanonicalName (p_FromAgent q) /\ m_ToAgent m = CanonicalName (p_ToAgent q) /\
  m_Body m = p_Body q /\ m_Kind m = default KindMessage (p_Kind q).

Definition kind_body (m : Message) : Kind * string := (m_Kind m, m_Body m).

Lemma new_row_stored q id now d : stored_as q (new_row (canonical_params q) id now d).
Proof. repeat split. Qed.

Lemma refused_row_stored q reason id now d : stored_as q (refused_row (canonical_params q) reason id now d).
Proof. repeat split. Qed.

(** A refused row, or none. *)
Lemma refused_rows q reason rnd now d :
  exists new, db_messages (snd (insertRefusedRow (canonical_params q) reason rnd now d)) = db_messages d ++ new /\
    (new = [] \/ exists m, new = [m] /\ stored_as q m /\ m_State m = StateRefused).
Proof.
  destruct (insertRefusedRow_row (canonical_params q) reason rnd now d) as [->|(id & ->)].
  - exists []. rewrite app_nil_r. auto.
  - eexists. split; [reflexivity|]. right. eexists. split; [reflexivity|]. by split; [apply refused_row_stored|].
Qed.

(** What one write leaves: the rows asked for, queued, with the ids reported; or of
    them the refused ones. *)
Definition leaves (qs : list InsertParams) (ids : option (list string)) (new : list Message) : Prop :=
  match ids with
  | Some ids => Forall2 (fun q m => stored_as q m /\ m_State m = StateQueued) qs new /\ map m_PublicID new = ids
  | None => exists qs', qs' `sublist_of` qs /\
                        Forall2 (fun q m => stored_as q m /\ m_State m = StateRefused) qs' new
  end.

Lemma leaves_nothing qs : leaves qs None [].
Proof. exists []. split; [apply sublist_nil_l|constructor]. Qed.

Lemma refused_one q m :
  stored_as q m -> m_State m = StateRefused ->
  Forall2 (fun q m => stored_as q m /\ m_State m = StateRefused) [q] [m].
Proof. intros Hs Ht. constructor; [by split|constructor]. Qed.

Lemma one_leaves q r d d' :
  p_DeliverAfter q = EmptyString -> control_perform (CtlOne q r) d d' ->
  exists new, db_messages d' = db_messages d ++ new /\
    leaves [q] (match r with Ok res => Some [ir_PublicID res] | Err _ => None end) new.
Proof.
  intros Ha (rnd & rndR & now & E). unfold InsertMessage in E. cbv zeta in E.
  assert (p_DeliverAfter (canonical_params q) = EmptyString) as Ha' by done.
  rewrite Ha' in E. rewrite !bool_decide_true in E by done.
  assert (forall e, (Err e, d) = (r, d') -> exists new, db_messages d' = db_messages d ++ new /\
            leaves [q] (match r with Ok res => Some [ir_PublicID res] | Err _ => None end) new) as Hsame.
  { intros e [= <- <-]. exists []. rewrite app_nil_r. split; [done|apply leaves_nothing]. }
  destruct (validateInsertParams _); [|by eapply Hsame]. destruct (validateReplyTo _ _); [|by eapply Hsame].
  destruct (checkCapsInTx _ 1 d) as [u|e].
  - destruct (insertOneInTx _ rnd now d) as [[res d1]|] eqn:Ei; [|by eapply Hsame]. injection E as <- <-.
    apply insertOneInTx_row in Ei as (-> & _). rewrite fireNotify_messages. eexists. split; [reflexivity|].
    split; [|done]. constructor; [split; [by apply new_row_stored|]|constructor]. simpl. by rewrite Ha, bool_decide_true.
  - pose proof (refused_rows q (error_text e) rndR now d) as (new & Em & Hn).
    destruct (insertRefusedRow _ _ _ _ _) as [id d1]. injection E as <- <-. exists new. split; [done|].
    destruct Hn as [->|(m & -> & Hs & Hst)]; [apply leaves_nothing|]. exists [q]. split; [done|]. by apply refused_one.
Qed.

Lemma pair_leaves q1 q2 r d d' :
  p_DeliverAfter q1 = EmptyString -> p_DeliverAfter q2 = EmptyString -> control_perform (CtlPair q1 q2 r) d d' ->
  exists new, db_messages d' = db_messages d ++ new /\
    leaves [q1; q2] (match r with Ok (res1, res2) => Some [ir_PublicID res1; ir_PublicID res2] | Err _ => None end) new.
Proof.
  intros Ha1 Ha2 (r1 & r2 & r3 & r4 & now & E). unfold InsertMessagePair in E. cbv zeta in E.
  set (P := fun r d' => exists new, db_messages d' = db_messages d ++ new /\
    leaves [q1; q2] (match r with Ok (res1, res2) => Some [ir_PublicID res1; ir_PublicID res2] | Err _ => None end) new).
  change (P r d').
  assert (forall e, P (Err e) d) as Hsame by (intros e; exists []; rewrite app_nil_r; split; [done|apply leaves_nothing]).
  destruct (pair_checks _ _ _ _); [|by injection E as <- <-]. destruct (checkCapsInTx _ 2 d) as [u|e].
  - destruct (insertOneInTx (canonical_params q1) r1 now d) as [[res1 d1]|] eqn:E1; [|by injection E as <- <-].
    destruct (insertOneInTx (with_reply_to _ _) r2 now d1) as [[res2 d2]|] eqn:E2; [|by injection E as <- <-].
    injection E as <- <-. destruct (pair_rows _ _ _ _ _ _ _ _ _ _ E1 E2) as [Hm _].
    eexists. split; [case_match; rewrite ?fireNotify_messages; exact Hm|]. split; [|done].
    constructor; [split; [by apply new_row_stored|]|constructor; [split; [done|]|constructor]];
      simpl; by rewrite ?Ha1, ?Ha2, bool_decide_true.
  - pose proof (refused_rows q1 (error_text e) r3 now d) as (n1 & Em1 & H1).
    destruct (insertRefusedRow (canonical_params q1) _ _ _ _) as [id1 d1].
    pose proof (refused_rows q2 (error_text e) r4 now d1) as (n2 & Em2 & H2).
    destruct (insertRefusedRow (canonical_params q2) _ _ _ _) as [id2 d2]. injection E as <- <-.
    simpl in Em1, Em2. exists (n1 ++ n2). rewrite Em2, Em1, <- app_assoc. split; [done|].
    destruct H1 as [->|(m1 & -> & Hs1 & Ht1)], H2 as [->|(m2 & -> & Hs2 & Ht2)]; simpl.
    + apply leaves_nothing.
    + exists [q2]. split; [by apply sublist_cons|by apply refused_one].
    + exists [q1]. split; [by apply sublist_skip, sublist_nil_l|by apply refused_one].
    + exists [q1; q2]. split; [done|]. constructor; [by split|by apply refused_one].
Qed.

(** ** One line each *)

Lemma label_no_newline a : label_byte a = true -> a <> Str.nl.
Proof. intros H ->. vm_compute in H. done. Qed.

Lemma alnum_label a : alnum a = true -> label_byte a = true.
Proof. unfold label_byte. by intros ->. Qed.

Lemma lines_one s : StrFacts.has_byte Str.nl s = false -> Str.Lines s = [s].
Proof.
  unfold Str.Lines. induction s as [|a s IH]; simpl; [done|]. intros [Ha Hs]%orb_false_iff.
  rewrite bool_decide_eq_false in Ha. rewrite (IH Hs). by rewrite bool_decide_false.
Qed.

Lemma label_one_line s : forTaskRe s = true -> StrFacts.has_byte Str.nl s = false.
Proof.
  assert (forall s, all_bytes label_byte s = true -> StrFacts.has_byte Str.nl s = false) as Hall.
  { clear s. induction s as [|a s IH]; simpl; [done|]. intros [Ha Hs]%andb_true_iff.
    rewrite bool_decide_false by (by apply label_no_newline). by apply IH. }
  destruct s as [|a s]; simpl; [done|]. intros [Ha%alnum_label Hs]%andb_true_iff.
  rewrite bool_decide_false by (by apply label_no_newline). by apply Hall.
Qed.

(** A control row holds one line, whose first word is one of the commands. *)
Lemma granted_one_line from to rows b :
  granted from to rows -> (KindControl, b) ∈ rows ->
  Str.Lines b = [b] /\ controlCommandToken b ∈ command_words.
Proof.
  assert (forall l, Forall (fun b => Str.Lines b = [b] /\ controlCommandToken b ∈ command_words) l ->
            b ∈ l -> Str.Lines b = [b] /\ controlCommandToken b ∈ command_words) as Hall
    by (intros l H Hin; rewrite Forall_forall in H; exact (H b Hin)).
  assert (Forall (fun b => Str.Lines b = [b] /\ controlCommandToken b ∈ command_words)
            (self_texts ++ peer_texts ++ ["/clear"])) as Hfix
    by (apply (bool_decide_unpack _); vm_compute; exact I).
  destruct 1 as [text _ Ht|text Ht| |prompt _ _|task Hd [Hl _]];
    rewrite ?elem_of_cons, elem_of_nil; intros Hb.
  - destruct Hb as [[= ->]|[]]. apply (Hall _ Hfix), elem_of_app. by left.
  - destruct Hb as [[= ->]|[]]. apply (Hall _ Hfix), elem_of_app. right. apply elem_of_app. by left.
  - apply (Hall _ Hfix). destruct Hb as [[= ->]|[[= ->]|[]]]; by apply (bool_decide_unpack _).
  - apply (Hall _ Hfix). destruct Hb as [[= ->]|[[=]|[]]]. by apply (bool_decide_unpack _).
  - destruct Hb as [[= ->]|[[= ->]|[]]]; [apply (Hall _ Hfix); by apply (bool_decide_unpack _)|].
    split; [apply lines_one; simpl; by apply label_one_line|].
    match goal with |- ?token ∈ _ => assert (token = "/rename") as -> by reflexivity end.
    by apply (bool_decide_unpack _).
Qed.

Lemma granted_canonical from to rows :
  granted from to rows -> granted (CanonicalName from) (CanonicalName to) rows.
Proof.
  destruct 1 as [text Hn Ht|text Ht| |prompt Hn Hp|task Hd Hl]; [apply gr_self; [by rewrite Hn|done]|by apply gr_peer|apply gr_restart|
    apply gr_resume; [by rewrite Hn|done]|apply gr_clear; [|done]].
  destruct Hd as [[-> | ->] ->]; (split; [|reflexivity]); vm_compute; auto.
Qed.

(** ** The claims *)

(** Everything of a write that matters to the agents concerned. *)
Definition lands (p : controlParams) (rows : list (Kind * string)) (r : result controlResult) (d d' : DB) : Prop :=
  exists new, db_messages d' = db_messages d ++ new /\
    Forall (fun m => m_FromAgent m = CanonicalName (cp_From p) /\ m_ToAgent m = CanonicalName (cp_To p)) new /\
    match r with
    | Ok cr => map kind_body new = rows /\ Forall (fun m => m_State m = StateQueued) new /\
               map m_PublicID new = cr_ID cr :: match rows with [_] => [] | _ => [second_id cr] end
    | Err _ => map kind_body new `sublist_of` rows /\ Forall (fun m => m_State m = StateRefused) new
    end.

Lemma stored_rows p kbs (caps : list bool) st new :
  length caps = length kbs ->
  Forall2 (fun q m => stored_as q m /\ m_State m = st)
    (zip_with (fun kb c => control_row p (fst kb) (snd kb) c) kbs caps) new ->
  Forall (fun m => m_FromAgent m = CanonicalName (cp_From p) /\ m_ToAgent m = CanonicalName (cp_To p)) new /\
  map kind_body new = kbs /\ Forall (fun m => m_State m = st) new.
Proof.
  revert kbs caps. induction new as [|m new IH]; intros [|[k b] kbs] [|c caps] Hl H; try done; inversion H; subst.
  match goal with HS : stored_as _ _ /\ _ |- _ => destruct HS as [(Hf & Ht & Hb & Hk) Hst] end.
  destruct (IH kbs caps) as (I1 & I2 & I3); [by injection Hl|done|].
  split_and!; [by constructor| |by constructor]. simpl. f_equal; [|done]. unfold kind_body. by rewrite Hk, Hb.
Qed.

Lemma sublist_params (p : controlParams) kbs caps qs :
  length caps = length kbs ->
  qs `sublist_of` zip_with (fun kb c => control_row p (fst kb) (snd kb) c) kbs caps ->
  exists kbs' caps', kbs' `sublist_of` kbs /\ length caps' = length kbs' /\
    qs = zip_with (fun kb c => control_row p (fst kb) (snd kb) c) kbs' caps'.
Proof.
  revert caps qs. induction kbs as [|kb kbs IH]; intros [|c caps] qs Hl H; try done.
  - apply sublist_nil_r in H as ->. by exists [], [].
  - simpl in H. apply sublist_cons_r in H as [H|(qs' & -> & H)]; apply IH in H as (kbs' & caps' & Hs & Hl' & ->);
      try (by injection Hl).
    + exists kbs', caps'. split; [by apply sublist_cons|done].
    + exists (kb :: kbs'), (c :: caps'). split; [by apply sublist_skip|]. simpl. by rewrite Hl'.
Qed.

Lemma leaves_lands p rows caps ids new :
  length caps = length rows ->
  leaves (zip_with (fun kb c => control_row p (fst kb) (snd kb) c) rows caps) ids new ->
  Forall (fun m => m_FromAgent m = CanonicalName (cp_From p) /\ m_ToAgent m = CanonicalName (cp_To p)) new /\
  match ids with
  | Some ids => map kind_body new = rows /\ Forall (fun m => m_State m = StateQueued) new /\ map m_PublicID new = ids
  | None => map kind_body new `sublist_of` rows /\ Forall (fun m => m_State m = StateRefused) new
  end.
Proof.
  intros Hl. destruct ids as [ids|]; simpl.
  - intros [H Hi]. apply stored_rows in H as (H1 & H2 & H3); [|done]. done.
  - intros (qs' & Hs & H). apply sublist_params in Hs as (kbs' & caps' & Hs & Hl' & ->); [|done].
    apply stored_rows in H as (H1 & H2 & H3); [|done]. by rewrite H2.
Qed.

Lemma queues_lands p rows r op d d' : queues p rows r op -> control_perform op d d' -> lands p rows r d d'.
Proof.
  intros Hq Hp. destruct Hq as [k b cr res E1 E2 E3|k b e|k1 b1 k2 b2 cr res1 res2 E1 E2 E3|k1 b1 k2 b2 e].
  - apply one_leaves in Hp as (new & Em & H); [|done]. exists new. split; [done|].
    apply (leaves_lands p [(k, b)] [true]) in H as [H1 (H2 & H3 & H4)]; [|done]. by rewrite E1.
  - apply one_leaves in Hp as (new & Em & H); [|done]. exists new. split; [done|].
    by apply (leaves_lands p [(k, b)] [true]) in H.
  - apply pair_leaves in Hp as (new & Em & H); [|done..]. exists new. split; [done|].
    apply (leaves_lands p [(k1, b1); (k2, b2)] [true; false]) in H as [H1 (H2 & H3 & H4)]; [|done]. by rewrite E1, E2.
  - apply pair_leaves in Hp as (new & Em & H); [|done..]. exists new. split; [done|].
    by apply (leaves_lands p [(k1, b1); (k2, b2)] [true; false]) in H.
Qed.

(** C13: what the control surface can make the bus type.  A control command always
    answers.  Either it wrote nothing and reports an error, or it made one write whose
    rows are granted by the policy to the sender and the recipient as the store names
    them: an agent may aim the self commands only at itself (disabling its own bus
    connection, alone, is one of them), may disable that of another agent only with the
    enabling row right behind, and may clear only along
    the two dispatch edges, with the renaming row behind.  On success the rows are
    queued all together under the ids reported; on failure only refused rows remain.
    Every control row is a single line that starts with a known command. *)
Theorem control_authorised sw p :
  runs control_perform sw (doControl p) (fun r ops =>
    (ops = [] /\ is_ok r = false) \/
    exists rows op, ops = [op] /\ granted (CanonicalName (cp_From p)) (CanonicalName (cp_To p)) rows /\
      (forall b, (KindControl, b) ∈ rows -> Str.Lines b = [b] /\ controlCommandToken b ∈ command_words) /\
      forall d d', control_perform op d d' -> lands p rows r d d').
Proof.
  eapply runs_weaken; [apply runs_doControl|]. intros r ops [?|(rows & op & Hg & -> & Hq)]; [by left|right].
  exists rows, op. split; [done|]. split; [by apply granted_canonical|]. split.
  - intros b Hb. by eapply granted_one_line.
  - intros d d' Hp. by eapply queues_lands.
Qed.

Lemma Allowed_NoDup : NoDup (map fst Allowed).
Proof. apply (bool_decide_unpack _). vm_compute. exact I. Qed.

Lemma sort_strings_elem s l : s ∈ sort_strings l <-> s ∈ l.
Proof. unfold sort_strings. by rewrite merge_sort_Permutation. Qed.

(** The keys are their own canonical names. *)
Lemma key_canonical n cmd : (n, cmd) ∈ Allowed -> Canonicalize n = (n, false) /\ n <> EmptyString.
Proof.
  intros Hin. assert (Forall (fun e => Canonicalize (fst e) = (fst e, false) /\ fst e <> EmptyString) Allowed) as H
    by (apply (bool_decide_unpack _); vm_compute; exact I).
  rewrite Forall_forall in H. by apply (H (n, cmd)).
Qed.

(** The list of invokable commands is the policy.  A name is listed for a scope,
    a sender and a recipient exactly when it is a canonical command name that they
    may resolve, so that the advice of a refusal is neither short nor long; the list
    is ordered and names nothing twice. *)
Theorem NamesForScope_exact scope from to n :
  (n ∈ NamesForScope scope from to <->
     fst (Canonicalize n) = n /\ exists text, ResolveControl n scope from to = Ok text) /\
  NoDup (NamesForScope scope from to) /\ Sorted.StronglySorted String.le (NamesForScope scope from to).
Proof.
  unfold NamesForScope. split; [rewrite sort_strings_elem; split|split].
  - rewrite list_elem_of_In, in_map_iff. intros ([n' cmd] & <- & Hin). apply filter_In in Hin as [Hin Hi].
    rewrite <- list_elem_of_In in Hin.
    destruct (key_canonical _ _ Hin) as [Hc Hne]. simpl. rewrite Hc. split; [done|]. unfold ResolveControl. rewrite Hc.
    simpl fst. rewrite bool_decide_false by done. rewrite (at_key_first _ _ _ Allowed_NoDup Hin).
    destruct scope; simpl in Hi; [rewrite Hi; eauto|]. destruct (cm_Peer cmd); [eauto|]. simpl in Hi. rewrite Hi. eauto.
  - intros [Hc [text Hr]]. apply resolve_granted in Hr as (cmd & Hin & _ & Hs). rewrite Hc in Hin, Hs.
    apply list_elem_of_In, in_map_iff. exists (n, cmd). split; [done|]. apply filter_In. split; [by apply list_elem_of_In|].
    destruct scope; simpl; [done|]. apply orb_true_iff. destruct Hs as [|H%on_edge_true]; auto.
  - unfold sort_strings. rewrite merge_sort_Permutation. pose proof Allowed_NoDup as H. revert H.
    generalize Allowed. induction l as [|e l IH]; simpl; [done|]. intros [Hn Hl]%NoDup_cons.
    destruct (invokable _ _ _ e); simpl; [|by apply IH]. apply NoDup_cons. split; [|by apply IH].
    rewrite list_elem_of_In, in_map_iff. intros (e' & He & Hin). apply filter_In in Hin as [Hin _]. apply Hn, list_elem_of_In, in_map_iff. by exists e'.
  - apply (StronglySorted_merge_sort _).
Qed.

(** ** On the concrete bus *)

Definition demo_control (from to command resumeWith : string) : controlParams :=
  mkControl from to command resumeWith false EmptyString capRecipientQueue capSenderBacklog capBodyBytes.

(** A restart accepts a prompt to resume with, and drops it. *)
Lemma restart_drops_resume :
  rows_of (doControl (demo_control "alice" "alice" "mcp-restart-tmux-tell" "go on") bus bus_start)
    = [("alice", StateQueued, PriorityNormal); ("alice", StateQueued, PriorityNormal)] /\
  map kind_body (db_messages (s_db (snd (doControl (demo_control "alice" "alice" "mcp-restart-tmux-tell" "go on") bus bus_start))))
    = [(KindControl, "/mcp disable tmux-tell"); (KindControl, "/mcp enable tmux-tell")] /\
  fst (doControl (demo_control "alice" "alice" "cost" "go on") bus bus_start)
    = Go (Err (ErrMsg "resume_with is only valid with command=compact")).
Proof. split_and!; vm_compute; reflexivity. Qed.

(** Scopes and edges compare the names as typed: in another spelling an agent is not
    itself. *)
Lemma another_spelling_is_a_peer :
  CanonicalName "Alice" = CanonicalName "alice" /\
  is_ok (ResolveControl "compact" (control_scope (demo_control "alice" "Alice" "compact" EmptyString)) "alice" "Alice") = false /\
  is_ok (ResolveControl "clear" ScopePeer "bosun" "Pilot") = false.
Proof. split_and!; vm_compute; reflexivity. Qed.
