(* ===== verification/InboxWatch.v ===== *)
(** * The interactive inbox (internal/cli/inbox_watch.go, inbox_watch_reply.go)

    The model of the full-screen inbox, its [Update] function, and the replies written
    in an editor.  The event loop that runs it (bubbletea) runs commands concurrently
    and delivers their messages one at a time, in any order; [watch_step] is that loop
    over the shared store.  What is drawn is left out, the summary line apart. *)

From S2P Require Import Prelude GoStd StoreTypes Messages Queue Queries Lifecycle TmuxIO ObserveGate Mailman Send Control.

Open Scope Z_scope.
Open Scope tell_scope.

(** ** Data *)

Definition inboxWatchFetchCap : Z := 500.

Record inboxWatchModel : Type := mkInbox {
  iw_agent : string;
  iw_doorbell : bool;
  iw_msgs : list Message;
  iw_cursor : Z;
  iw_selID : string;
  iw_expanded : bool;
  iw_width : Z;
  iw_height : Z;
  iw_status : string;
  iw_loadErr : option error;
  iw_acted : Z;
  iw_quitting : bool
}.

Definition set_list (msgs : list Message) (cursor : Z) (selID : string) (expanded : bool) (m : inboxWatchModel) :=
  mkInbox (iw_agent m) (iw_doorbell m) msgs cursor selID expanded (iw_width m) (iw_height m) (iw_status m)
    (iw_loadErr m) (iw_acted m) (iw_quitting m).
Definition set_report (status : string) (loadErr : option error) (acted : Z) (m : inboxWatchModel) :=
  mkInbox (iw_agent m) (iw_doorbell m) (iw_msgs m) (iw_cursor m) (iw_selID m) (iw_expanded m) (iw_width m)
    (iw_height m) status loadErr acted (iw_quitting m).
Definition set_size (w h : Z) (m : inboxWatchModel) :=
  mkInbox (iw_agent m) (iw_doorbell m) (iw_msgs m) (iw_cursor m) (iw_selID m) (iw_expanded m) w h (iw_status m)
    (iw_loadErr m) (iw_acted m) (iw_quitting m).
Definition set_quitting (m : inboxWatchModel) :=
  mkInbox (iw_agent m) (iw_doorbell m) (iw_msgs m) (iw_cursor m) (iw_selID m) (iw_expanded m) (iw_width m)
    (iw_height m) (iw_status m) (iw_loadErr m) (iw_acted m) true.

Inductive watch_msg : Type :=
  | WindowSizeMsg (w h : Z)
  | inboxTickMsg
  | inboxNotifyMsg
  | inboxPollMsg (r : result (list Message))
  | inboxActionMsg (verb id : string) (err : option error)
  | inboxReplyMsg (replyToID sentID : string) (abandoned : bool) (err : option error)
  | KeyMsg (k : string).

(** What a [tea.Cmd] will do when it runs. *)
Inductive watch_cmd : Type :=
  | pollCmd
  | inboxTickCmd
  | notifyWaitCmd
  | ackCmd (id : string)
  | replyCmd (orig : Message)
  | quitCmd.

(** ** The model *)

Definition current (m : inboxWatchModel) : option Message :=
  if (iw_cursor m <? 0) || (Z.of_nat (length (iw_msgs m)) <=? iw_cursor m) then None
  else iw_msgs m !! Z.to_nat (iw_cursor m).

Definition selected (m : inboxWatchModel) : string :=
  match current m with Some cur => m_PublicID cur | None => EmptyString end.

Definition syncSelID (m : inboxWatchModel) : inboxWatchModel :=
  set_list (iw_msgs m) (iw_cursor m) (selected m) (iw_expanded m) m.

(** The first row with a public id, counted from [i]. *)
Fixpoint position (i : Z) (id : string) (msgs : list Message) : option Z :=
  match msgs with
  | [] => None
  | msg :: rest => if bool_decide (m_PublicID msg = id) then Some i else position (i + 1) id rest
  end.

Definition clamp (m : inboxWatchModel) (expanded : bool) : inboxWatchModel :=
  let n := Z.of_nat (length (iw_msgs m)) in
  let c := if n <=? iw_cursor m then n - 1 else iw_cursor m in
  let c := if c <? 0 then 0 else c in
  syncSelID (set_list (iw_msgs m) c (iw_selID m) expanded m).

Definition reconcileCursor (m : inboxWatchModel) : inboxWatchModel :=
  if bool_decide (iw_msgs m = []) then set_list [] 0 EmptyString false m
  else if negb (str_empty (iw_selID m)) then
    match position 0 (iw_selID m) (iw_msgs m) with
    | Some i => set_list (iw_msgs m) i (iw_selID m) (iw_expanded m) m
    | None => clamp m false
    end
  else clamp m (iw_expanded m).

Definition move (c : Z) (m : inboxWatchModel) : inboxWatchModel :=
  syncSelID (set_list (iw_msgs m) c (iw_selID m) false m).

Definition notify_wait (m : inboxWatchModel) : list watch_cmd := if iw_doorbell m then [notifyWaitCmd] else [].

Definition Init (m : inboxWatchModel) : list watch_cmd := pollCmd :: inboxTickCmd :: notify_wait m.

Definition handleKey (k : string) (m : inboxWatchModel) : inboxWatchModel * list watch_cmd :=
  if bool_decide (k ∈ ["q"; "ctrl+c"; "esc"]) then (set_quitting m, [quitCmd])
  else if bool_decide (k ∈ ["up"; "k"]) then
    ((if 0 <? iw_cursor m then move (iw_cursor m - 1) m else m), [])
  else if bool_decide (k ∈ ["down"; "j"]) then
    ((if iw_cursor m <? Z.of_nat (length (iw_msgs m)) - 1 then move (iw_cursor m + 1) m else m), [])
  else if bool_decide (k = "enter") then
    ((if 0 <? Z.of_nat (length (iw_msgs m))
      then set_list (iw_msgs m) (iw_cursor m) (iw_selID m) (negb (iw_expanded m)) m else m), [])
  else if bool_decide (k = " ") then
    (m, match current m with Some cur => [ackCmd (m_PublicID cur)] | None => [] end)
  else if bool_decide (k = "r") then
    (m, match current m with Some cur => [replyCmd cur] | None => [] end)
  else (m, []).

Definition Update (msg : watch_msg) (m : inboxWatchModel) : inboxWatchModel * list watch_cmd :=
  match msg with
  | WindowSizeMsg w h => (set_size w h m, [])
  | inboxTickMsg => (m, [pollCmd; inboxTickCmd])
  | inboxNotifyMsg => (m, pollCmd :: notify_wait m)
  | inboxPollMsg (Err e) => (set_report (iw_status m) (Some e) (iw_acted m) m, [])
  | inboxPollMsg (Ok msgs) =>
      (reconcileCursor (set_list msgs (iw_cursor m) (iw_selID m) (iw_expanded m)
         (set_report (iw_status m) None (iw_acted m) m)), [])
  | inboxActionMsg verb id (Some e) =>
      (set_report ("error: " +:+ error_text e) (Some e) (iw_acted m) m, [pollCmd])
  | inboxActionMsg verb id None =>
      (set_report (verb +:+ " " +:+ id) (iw_loadErr m) (iw_acted m + 1) m, [pollCmd])
  | inboxReplyMsg _ _ _ (Some e) => (set_report ("reply failed: " +:+ error_text e) (Some e) (iw_acted m) m, [])
  | inboxReplyMsg _ _ true None => (set_report "reply abandoned (empty body)" (iw_loadErr m) (iw_acted m) m, [])
  | inboxReplyMsg replyToID sentID false None =>
      (set_report ("replied to " +:+ replyToID +:+ " → " +:+ sentID) None (iw_acted m) m, [])
  | KeyMsg k => handleKey k m
  end.

Definition summaryLine (m : inboxWatchModel) : string :=
  "inbox --watch: " +:+ Str.itoa (iw_acted m) +:+ " drained this session, "
    +:+ Str.itoa (Z.of_nat (length (iw_msgs m))) +:+ " still queued for " +:+ Str.Quote (iw_agent m).

(** ** Replies *)

Definition replyScissors : string := "# ------------------------ >8 ------------------------".

Definition replyTemplate (orig : Message) (fromAgent : string) : string :=
  Str.of_bytes [10; 10]%nat +:+ replyScissors +:+ nl_str
    +:+ "# Reply from " +:+ fromAgent +:+ " to " +:+ m_FromAgent orig +:+ " (re " +:+ m_PublicID orig
    +:+ "). Write your reply ABOVE the scissors line." +:+ nl_str
    +:+ "# Everything below the scissors is ignored. Save an empty reply to abandon." +:+ nl_str +:+ "#" +:+ nl_str
    +:+ Str.Join (map (fun ln => "# > " +:+ ln +:+ nl_str) (Str.Lines (Str.TrimRight (m_Body orig) [nl_str]))) EmptyString.

Definition stripReplyTemplate (raw : string) : string :=
  Str.TrimSpace (match Str.Index raw replyScissors with Some i => Str.take i raw | None => raw end).

Definition reply_params (fromAgent : string) (orig : Message) (body : string) : InsertParams :=
  mkParams fromAgent (m_FromAgent orig) (m_PublicID orig) body None false false EmptyString EmptyString EmptyString
    false 0 false capRecipientQueue capSenderBacklog.

Definition composeReply (fromAgent : string) (orig : Message) (body : string) (rnd rndR : nat -> option (Z * Z))
    (now : string) (d : DB) : result string * DB :=
  let n := Z.of_nat (String.length body) in
  if capBodyBytes <? n then
    (Err (ErrMsg ("reply too large (" +:+ Str.itoa n +:+ " > " +:+ Str.itoa capBodyBytes +:+ " bytes)")), d)
  else
    let (r, d') := InsertMessage (reply_params fromAgent orig body) rnd rndR now d in
    (match r with Ok res => Ok (ir_PublicID res) | Err e => Err e end, d').

(** The way back from the editor: [edited] is the file it left, or what went wrong
    with the editor or the file. *)
Definition completeReply (fromAgent : string) (orig : Message) (edited : result string)
    (rnd rndR : nat -> option (Z * Z)) (now : string) (d : DB) : watch_msg * DB :=
  match edited with
  | Err e => (inboxReplyMsg (m_PublicID orig) EmptyString false (Some e), d)
  | Ok raw =>
      let body := stripReplyTemplate raw in
      if str_empty body then (inboxReplyMsg (m_PublicID orig) EmptyString true None, d)
      else
        match composeReply fromAgent orig body rnd rndR now d with
        | (Err e, d') => (inboxReplyMsg (m_PublicID orig) EmptyString false (Some e), d')
        | (Ok id, d') => (inboxReplyMsg (m_PublicID orig) id false None, d')
        end
  end.

(** [strings.Fields] of the first editor variable that has any. *)
Definition editorArgv (getenv : string -> string) : list string :=
  let argv env := Str.Fields (Str.TrimSpace (getenv env)) in
  match argv "VISUAL", argv "EDITOR" with
  | a :: rest, _ => a :: rest
  | [], a :: rest => a :: rest
  | [], [] => ["vi"]
  end.

(** ** The event loop *)

Definition poll_filter (agent : string) : ListFilter :=
  mkListFilter agent EmptyString EmptyString (Some StateQueued) None inboxWatchFetchCap EmptyString false false
    false false false.

(** The model, the commands that have not run, the messages that have not been
    delivered, and the store; with them, for the proofs, the ids under the cursor when
    the space bar was pressed and the ids acknowledged. *)
Record watch : Type := mkWatch {
  wt_model : inboxWatchModel;
  wt_cmds : list watch_cmd;
  wt_msgs : list watch_msg;
  wt_db : DB;
  wt_pressed : list string;
  wt_acked : list string
}.

(** The row the space bar is pressed on. *)
Definition pressed_by (msg : watch_msg) (m : inboxWatchModel) : list string :=
  match msg with
  | KeyMsg " " => match current m with Some cur => [m_PublicID cur] | None => [] end
  | _ => []
  end.

(** A message reaches [Update]. *)
Definition delivered_to (msg : watch_msg) (s : watch) (msgs : list watch_msg) : watch :=
  let (m, cmds) := Update msg (wt_model s) in
  mkWatch m (wt_cmds s ++ cmds) msgs (wt_db s) (pressed_by msg (wt_model s) ++ wt_pressed s) (wt_acked s).

(** A command ran: what it did to the store and the message it sends. *)
Inductive cmd_runs (agent : string) (d : DB) : watch_cmd -> watch_msg -> DB -> Prop :=
  | run_poll : cmd_runs agent d pollCmd (inboxPollMsg (ListMessages (poll_filter agent) d)) d
  | run_poll_fault e : cmd_runs agent d pollCmd (inboxPollMsg (Err e)) d
  | run_tick : cmd_runs agent d inboxTickCmd inboxTickMsg d
  | run_notify : cmd_runs agent d notifyWaitCmd inboxNotifyMsg d
  | run_ack id :
      cmd_runs agent d (ackCmd id)
        (inboxActionMsg "acked" id (match fst (MarkAcknowledged agent id d) with Ok _ => None | Err e => Some e end))
        (snd (MarkAcknowledged agent id d))
  | run_ack_fault id e : cmd_runs agent d (ackCmd id) (inboxActionMsg "acked" id (Some e)) d
  | run_reply orig edited rnd rndR now :
      cmd_runs agent d (replyCmd orig) (fst (completeReply agent orig edited rnd rndR now d))
        (snd (completeReply agent orig edited rnd rndR now d)).

Definition acked_by (msg : watch_msg) : list string :=
  match msg with inboxActionMsg _ id None => [id] | _ => [] end.

Inductive watch_step (s : watch) : watch -> Prop :=
  | ws_others d' :
      store_step (wt_db s) d' ->
      watch_step s (mkWatch (wt_model s) (wt_cmds s) (wt_msgs s) d' (wt_pressed s) (wt_acked s))
  | ws_run l1 c l2 msg d' :
      wt_cmds s = l1 ++ c :: l2 -> cmd_runs (iw_agent (wt_model s)) (wt_db s) c msg d' ->
      watch_step s (mkWatch (wt_model s) (l1 ++ l2) (wt_msgs s ++ [msg]) d' (wt_pressed s) (acked_by msg ++ wt_acked s))
  | ws_deliver l1 msg l2 :
      wt_msgs s = l1 ++ msg :: l2 -> watch_step s (delivered_to msg s (l1 ++ l2))
  | ws_input msg :
      (exists k, msg = KeyMsg k) \/ (exists w h, msg = WindowSizeMsg w h) ->
      watch_step s (delivered_to msg s (wt_msgs s)).

(** The first frame. *)
Definition watch_start (agent : string) (doorbell : bool) (d : DB) : watch :=
  let m := mkInbox agent doorbell [] 0 EmptyString false 0 0 EmptyString None 0 false in
  mkWatch m (Init m) [] d [] [].
