(* ===== verification/InboxProps.v ===== *)
(** * What the interactive inbox keeps

    Invariants of the inbox under its event loop, the selection across refreshes, and
    the round trip of a reply through the editor. *)

From S2P Require Import Prelude GoStd StoreTypes Priority Messages Queue Queries Lifecycle Invariants QueueProps TmuxIO ObserveGate Mailman Serve ServeDemo Send SendDemo Control InboxWatch.

Open Scope Z_scope.
Open Scope tell_scope.

(** ** The cursor *)

(** The cursor is on a row and its id is remembered, or the list is empty. *)
Definition cursor_ok (m : inboxWatchModel) : Prop :=
  match iw_msgs m with
  | [] => iw_cursor m = 0 /\ iw_selID m = EmptyString /\ iw_expanded m = false
  | _ => exists cur, current m = Some cur /\ iw_selID m = m_PublicID cur
  end.

Lemma current_at m i msg :
  iw_cursor m = Z.of_nat i -> iw_msgs m !! i = Some msg -> current m = Some msg.
Proof.
  intros Hc Hi. unfold current. rewrite Hc. pose proof (lookup_lt_Some _ _ _ Hi).
  destruct (Z.ltb_spec (Z.of_nat i) 0); [lia|]. destruct (Z.leb_spec (Z.of_nat (length (iw_msgs m))) (Z.of_nat i)); [lia|].
  simpl. by rewrite Nat2Z.id.
Qed.

Lemma current_Some m cur :
  current m = Some cur -> 0 <= iw_cursor m < Z.of_nat (length (iw_msgs m)) /\ iw_msgs m !! Z.to_nat (iw_cursor m) = Some cur.
Proof.
  unfold current. destruct (Z.ltb_spec (iw_cursor m) 0); [done|].
  destruct (Z.leb_spec (Z.of_nat (length (iw_msgs m))) (iw_cursor m)); [done|]. simpl. auto with lia.
Qed.

Lemma position_Some msgs : forall i id k,
  position i id msgs = Some k ->
  exists n msg, k = i + Z.of_nat n /\ msgs !! n = Some msg /\ m_PublicID msg = id.
Proof.
  induction msgs as [|msg msgs IH]; intros i id k; simpl; [done|]. case_bool_decide as E.
  - intros [= <-]. exists 0%nat, msg. split; [lia|done].
  - intros (n & msg' & -> & Hn & Hid)%IH. exists (S n), msg'. split; [lia|done].
Qed.

Lemma position_None msgs : forall i id, position i id msgs = None <-> forall msg, msg ∈ msgs -> m_PublicID msg <> id.
Proof.
  induction msgs as [|msg msgs IH]; intros i id; simpl; [split; [intros _ ? ?%elem_of_nil; done|done]|].
  case_bool_decide as E; [split; [done|intros H; by destruct (H msg ltac:(set_solver))]|].
  rewrite IH. split; [intros H msg' [->|Hm]%elem_of_cons; auto|intros H msg' Hm; apply H; set_solver].
Qed.

(** The row a lost selection falls to. *)
Definition fallback (c : Z) (msgs : list Message) : nat := Z.to_nat (Z.min c (Z.of_nat (length msgs) - 1)).

Lemma clamp_current m e :
  iw_msgs m <> [] -> 0 <= iw_cursor m ->
  exists cur, current (clamp m e) = Some cur /\ iw_selID (clamp m e) = m_PublicID cur /\
    iw_msgs m !! fallback (iw_cursor m) (iw_msgs m) = Some cur /\ iw_expanded (clamp m e) = e.
Proof.
  intros Hne H0. unfold clamp. cbv zeta. set (n := Z.of_nat (length (iw_msgs m))).
  assert (0 < n) as Hn by (destruct (iw_msgs m); [done|subst n; simpl; lia]).
  assert ((if (if n <=? iw_cursor m then n - 1 else iw_cursor m) <? 0 then 0 else if n <=? iw_cursor m then n - 1 else iw_cursor m)
          = Z.of_nat (fallback (iw_cursor m) (iw_msgs m))) as ->.
  { unfold fallback. fold n. destruct (Z.leb_spec n (iw_cursor m)); case_match; lia. }
  destruct (lookup_lt_is_Some_2 (iw_msgs m) (fallback (iw_cursor m) (iw_msgs m))) as [cur Hcur].
  { unfold fallback. fold n. lia. }
  exists cur. unfold syncSelID, selected. rewrite (current_at _ (fallback (iw_cursor m) (iw_msgs m)) cur) by done.
  simpl. by rewrite (current_at _ (fallback (iw_cursor m) (iw_msgs m)) cur).
Qed.

Lemma reconcile_ok m : 0 <= iw_cursor m -> cursor_ok (reconcileCursor m).
Proof.
  intros H0. unfold reconcileCursor. case_bool_decide as En; [done|].
  assert (forall e, cursor_ok (clamp m e)) as Hclamp.
  { intros e. destruct (clamp_current m e En H0) as (cur & Hc & Hs & _). unfold cursor_ok.
    assert (iw_msgs (clamp m e) = iw_msgs m) as -> by done. destruct (iw_msgs m); [done|eauto]. }
  destruct (negb _); [|apply Hclamp]. destruct (position 0 _ _) as [i|] eqn:Ep; [|apply Hclamp].
  apply position_Some in Ep as (k & msg & -> & Hk & Hid). unfold cursor_ok. simpl.
  destruct (iw_msgs m) eqn:Em; [done|]. rewrite <- Em in *. exists msg. split; [|done].
  by apply (current_at _ k).
Qed.

Lemma move_ok c m : 0 <= c < Z.of_nat (length (iw_msgs m)) -> cursor_ok (move c m).
Proof.
  intros Hc. unfold move, cursor_ok, syncSelID. simpl. destruct (iw_msgs m) eqn:Em; [simpl in Hc; lia|]. rewrite <- Em in *.
  destruct (lookup_lt_is_Some_2 (iw_msgs m) (Z.to_nat c)) as [cur Hcur]; [lia|].
  exists cur. unfold selected. rewrite !(current_at _ (Z.to_nat c) cur) by (done || (simpl; lia)). done.
Qed.

Lemma cursor_ok_range m : cursor_ok m -> 0 <= iw_cursor m.
Proof.
  unfold cursor_ok. destruct (iw_msgs m); [lia|]. intros (cur & [? _]%current_Some & _). lia.
Qed.

(** A change that keeps list, cursor and selection. *)
Lemma cursor_ok_same m m' :
  iw_msgs m' = iw_msgs m -> iw_cursor m' = iw_cursor m -> iw_selID m' = iw_selID m -> iw_expanded m' = iw_expanded m ->
  cursor_ok m -> cursor_ok m'.
Proof. intros E1 E2 E3 E4. unfold cursor_ok, current. by rewrite E1, E2, E3, E4. Qed.

Lemma handleKey_ok k m : cursor_ok m -> cursor_ok (fst (handleKey k m)).
Proof.
  intros Hm. pose proof (cursor_ok_range m Hm) as H0. unfold handleKey. repeat case_bool_decide; simpl; try done.
  - destruct (Z.ltb_spec 0 (iw_cursor m)); [|done]. apply move_ok. unfold cursor_ok in Hm.
    destruct (iw_msgs m) eqn:Em; [lia|]. rewrite <- Em in *. destruct Hm as (cur & [? _]%current_Some & _). lia.
  - destruct (Z.ltb_spec (iw_cursor m) (Z.of_nat (length (iw_msgs m)) - 1)); [|done]. apply move_ok. lia.
  - destruct (Z.ltb_spec 0 (Z.of_nat (length (iw_msgs m)))); [|done]. unfold cursor_ok in *. simpl.
    destruct (iw_msgs m) eqn:Em; [simpl in *; lia|]. rewrite <- Em in *. exact Hm.
Qed.

Lemma Update_ok msg m : cursor_ok m -> cursor_ok (fst (Update msg m)).
Proof.
  intros Hm. destruct msg as [w h| | |[msgs|e]|verb id [e|]|r id [] [e|]|k]; simpl;
    try (by apply (cursor_ok_same m)).
  - apply reconcile_ok. simpl. by apply cursor_ok_range.
  - by apply handleKey_ok.
Qed.

(** ** The two timer chains *)

Definition is_tick_cmd (c : watch_cmd) : bool := match c with inboxTickCmd => true | _ => false end.
Definition is_tick_msg (m : watch_msg) : bool := match m with inboxTickMsg => true | _ => false end.
Definition is_notify_cmd (c : watch_cmd) : bool := match c with notifyWaitCmd => true | _ => false end.
Definition is_notify_msg (m : watch_msg) : bool := match m with inboxNotifyMsg => true | _ => false end.

(** Timers armed or fired but not yet handled; waits on the doorbell likewise. *)
Definition ticks (s : watch) : Z := sql_count is_tick_cmd (wt_cmds s) + sql_count is_tick_msg (wt_msgs s).
Definition waits (s : watch) : Z := sql_count is_notify_cmd (wt_cmds s) + sql_count is_notify_msg (wt_msgs s).

Lemma sql_count_cons {R} (p : R -> bool) x l : sql_count p (x :: l) = (if p x then 1 else 0) + sql_count p l.
Proof. unfold sql_count, sql_where. simpl. destruct (p x); simpl; lia. Qed.

Lemma sql_count_middle {R} (p : R -> bool) l1 x l2 :
  sql_count p (l1 ++ x :: l2) = (if p x then 1 else 0) + sql_count p (l1 ++ l2).
Proof. rewrite !sql_count_app, sql_count_cons. lia. Qed.

Lemma sql_count_empty {R} (p : R -> bool) : sql_count p [] = 0.
Proof. done. Qed.

Hint Rewrite @sql_count_app @sql_count_cons @sql_count_empty : watchdb.

(** Handling a tick arms one tick, handling a ring one wait; nothing else arms any. *)
Lemma Update_timers msg m :
  sql_count is_tick_cmd (snd (Update msg m)) = (if is_tick_msg msg then 1 else 0) /\
  sql_count is_notify_cmd (snd (Update msg m)) = (if is_notify_msg msg && iw_doorbell m then 1 else 0).
Proof.
  destruct msg as [w h| | |[msgs|e]|verb id [e|]|r id [] [e|]|k]; simpl; autorewrite with watchdb; try done.
  - unfold notify_wait. by destruct (iw_doorbell m).
  - unfold handleKey. repeat case_bool_decide; try done; by destruct (current m).
Qed.

(** What [Update] does not touch, and what it counts. *)
Lemma Update_frame msg m :
  iw_agent (fst (Update msg m)) = iw_agent m /\ iw_doorbell (fst (Update msg m)) = iw_doorbell m /\
  iw_acted (fst (Update msg m)) = iw_acted m + Z.of_nat (length (acked_by msg)).
Proof.
  assert (forall m0, iw_agent (reconcileCursor m0) = iw_agent m0 /\ iw_doorbell (reconcileCursor m0) = iw_doorbell m0 /\
            iw_acted (reconcileCursor m0) = iw_acted m0) as Hrec.
  { intros m0. unfold reconcileCursor, clamp, syncSelID. repeat case_match; done. }
  destruct msg as [w h| | |[msgs|e]|verb id [e|]|r id [] [e|]|k]; simpl; rewrite ?Z.add_0_r; try done.
  - apply (Hrec (set_list msgs (iw_cursor m) (iw_selID m) (iw_expanded m) (set_report (iw_status m) None (iw_acted m) m))).
  - unfold handleKey. repeat case_bool_decide; simpl; try done; by case_match.
Qed.

(** ** Acknowledging *)

Definition ack_ids (cmds : list watch_cmd) : list string :=
  flat_map (fun c => match c with ackCmd id => [id] | _ => [] end) cmds.
Definition done_ids (msgs : list watch_msg) : list string := flat_map acked_by msgs.

(** [Update] asks for an acknowledgement only at the space bar, of the row under the
    cursor. *)
Lemma Update_acks msg m : ack_ids (snd (Update msg m)) = pressed_by msg m.
Proof.
  destruct msg as [w h| | |[msgs|e]|verb id [e|]|r id [] [e|]|k]; try done.
  - simpl. unfold notify_wait. by destruct (iw_doorbell m).
  - simpl. unfold handleKey. destruct (decide (k = " ")) as [->|Hk].
    + by destruct (current m).
    + transitivity (@nil string); [|by destruct k as [|[[] [] [] [] [] [] [] []] []]].
      rewrite (bool_decide_false (k = " ")) by done. repeat case_bool_decide; try done. by destruct (current m).
Qed.

Lemma flat_map_middle {A B} (f : A -> list B) l1 x l2 y :
  y ∈ flat_map f (l1 ++ x :: l2) <-> y ∈ f x \/ y ∈ flat_map f (l1 ++ l2).
Proof. rewrite !flat_map_app. simpl. rewrite !elem_of_app. tauto. Qed.

(** The acknowledgements handled so far. *)
Record watch_inv (agent : string) (doorbell : bool) (d0 : DB) (s : watch) : Prop := {
  wi_agent : iw_agent (wt_model s) = agent;
  wi_doorbell : iw_doorbell (wt_model s) = doorbell;
  wi_cursor : cursor_ok (wt_model s);
  wi_ticks : ticks s = 1;
  wi_waits : waits s = if doorbell then 1 else 0;
  wi_asked : forall id, id ∈ ack_ids (wt_cmds s) -> id ∈ wt_pressed s;
  wi_acked : forall id, id ∈ wt_acked s -> id ∈ wt_pressed s;
  wi_acted : iw_acted (wt_model s) + Z.of_nat (length (done_ids (wt_msgs s))) = Z.of_nat (length (wt_acked s));
  wi_store : store_steps d0 (wt_db s)
}.

Lemma cmd_runs_store agent d c msg d' : cmd_runs agent d c msg d' -> store_steps d d'.
Proof.
  destruct 1 as [|e| | |id|id e|orig edited rnd rndR now]; try apply rtc_refl.
  - apply rtc_once. constructor.
  - unfold completeReply. destruct edited as [raw|e]; [|apply rtc_refl]. case_bool_decide; [apply rtc_refl|].
    unfold composeReply. destruct (_ <? _); [apply rtc_refl|].
    destruct (InsertMessage _ _ _ _ _) as [[res|e] d'] eqn:E; simpl; apply rtc_once;
      replace d' with (snd (InsertMessage (reply_params agent orig (stripReplyTemplate raw)) rnd rndR now d)) by (by rewrite E);
      constructor.
Qed.

(** What a command sends back: a tick for a tick, a ring for a wait, the id it was to
    acknowledge. *)
Lemma cmd_runs_msg agent d c msg d' :
  cmd_runs agent d c msg d' ->
  is_tick_msg msg = is_tick_cmd c /\ is_notify_msg msg = is_notify_cmd c /\
  forall id, id ∈ acked_by msg -> c = ackCmd id.
Proof.
  destruct 1 as [|e| | |id|id e|orig edited rnd rndR now]; simpl;
    try (split_and!; [done|done|]; intros id' Hid; try (by apply elem_of_nil in Hid)).
  - destruct (fst _); simpl in Hid; [|by apply elem_of_nil in Hid]. by apply list_elem_of_singleton in Hid as ->.
  - unfold completeReply. destruct edited as [raw|e]; [case_bool_decide; [|destruct (composeReply _ _ _ _ _ _ _) as [[]]]|];
      (split_and!; [done|done|]; intros ? Hid; by apply elem_of_nil in Hid).
Qed.

Lemma watch_start_inv agent doorbell d : watch_inv agent doorbell d (watch_start agent doorbell d).
Proof.
  split; [done..| | | | | |apply rtc_refl]; unfold ticks, waits; simpl; unfold notify_wait; simpl; try done;
    try (intros ? H; by apply elem_of_nil in H); destruct doorbell; try done; intros ? H; by apply elem_of_nil in H.
Qed.

Lemma deliver_inv agent doorbell d0 s msg msgs :
  watch_inv agent doorbell d0 s ->
  (wt_msgs s = msgs /\ acked_by msg = [] /\ is_tick_msg msg = false /\ is_notify_msg msg = false \/
   exists l1 l2, wt_msgs s = l1 ++ msg :: l2 /\ msgs = l1 ++ l2) ->
  watch_inv agent doorbell d0 (delivered_to msg s msgs).
Proof.
  intros [Ha Hd Hc Ht Hw Hq Hk Hn Hs] Hmsg. unfold delivered_to.
  pose proof (Update_frame msg (wt_model s)) as (Fa & Fd & Fn). pose proof (Update_ok msg _ Hc) as Hc'.
  pose proof (Update_timers msg (wt_model s)) as [Tt Tn]. pose proof (Update_acks msg (wt_model s)) as Hack.
  destruct (Update msg (wt_model s)) as [m cmds]. simpl in *.
  assert (sql_count is_tick_msg (wt_msgs s) = (if is_tick_msg msg then 1 else 0) + sql_count is_tick_msg msgs /\
          sql_count is_notify_msg (wt_msgs s) = (if is_notify_msg msg then 1 else 0) + sql_count is_notify_msg msgs /\
          length (done_ids (wt_msgs s)) = (length (acked_by msg) + length (done_ids msgs))%nat) as (Mt & Mn & Md).
  { destruct Hmsg as [(-> & -> & -> & ->)|(l1 & l2 & -> & ->)]; [done|]. rewrite !sql_count_middle. split_and!; [done|done|].
    unfold done_ids. rewrite !flat_map_app. simpl. rewrite !length_app. lia. }
  split; simpl; try done.
  - congruence.
  - congruence.
  - unfold ticks in *. simpl. rewrite sql_count_app. lia.
  - unfold waits in *. simpl. rewrite sql_count_app, Tn, Hd. rewrite Mn in Hw.
    pose proof (sql_count_nonneg is_notify_cmd (wt_cmds s)). pose proof (sql_count_nonneg is_notify_msg msgs).
    destruct (is_notify_msg msg), doorbell; simpl in *; lia.
  - intros id. unfold ack_ids in *. rewrite flat_map_app, Hack, elem_of_app. intros [Hid%Hq|Hid]; apply elem_of_app; auto.
  - intros id Hid%Hk. apply elem_of_app. auto.
  - rewrite Fn. lia.
Qed.

Lemma watch_step_inv agent doorbell d0 s s' :
  watch_step s s' -> watch_inv agent doorbell d0 s -> watch_inv agent doorbell d0 s'.
Proof.
  intros Hs Hi. destruct Hs as [d' Hd'|l1 c l2 msg d' Hc Hr|l1 msg l2 Hm|msg Hin].
  - destruct Hi. split; try done. simpl. eapply rtc_r; [done|exact Hd'].
  - destruct Hi as [Ha Hd Hcur Ht Hw Hq Hk Hn Hst]. rewrite Ha in Hr.
    destruct (cmd_runs_msg _ _ _ _ _ Hr) as (Rt & Rn & Ra). split; simpl; try done.
    + unfold ticks in *. simpl. rewrite Hc in Ht. autorewrite with watchdb in *. rewrite Rt. lia.
    + unfold waits in *. simpl. rewrite Hc in Hw. autorewrite with watchdb in *. rewrite Rn. lia.
    + intros id Hid. apply Hq. rewrite Hc. unfold ack_ids in *. apply flat_map_middle. by right.
    + intros id [Hid|Hid]%elem_of_app; [|by apply Hk]. apply Hq. rewrite Hc. unfold ack_ids. apply flat_map_middle. left.
      apply Ra in Hid as ->. set_solver.
    + unfold done_ids in *. rewrite flat_map_app. simpl. rewrite app_nil_r, !length_app. lia.
    + etrans; [exact Hst|]. by eapply cmd_runs_store.
  - apply deliver_inv; [done|]. right. eauto.
  - apply deliver_inv; [done|]. left. destruct Hin as [[k ->]|(w & h & ->)]; done.
Qed.

(** ** The claims *)

(** C14: the inbox under its event loop, whatever keys are pressed, however commands
    and messages are ordered, and with other processes at work on the store.  The
    cursor is on a row and remembers its id, or the list is empty; exactly one tick
    is armed or unhandled, and one wait on the doorbell if there is one, so that no
    refresh, ring or acknowledgement multiplies the timers; only rows that were under
    the cursor when the space bar was pressed are asked for and acknowledged; the
    count of the summary and the successes not yet shown add up to the
    acknowledgements made; and the store is only changed by its own operations. *)
Theorem inbox_watch_invariant agent doorbell d s :
  rtc watch_step (watch_start agent doorbell d) s ->
  cursor_ok (wt_model s) /\ ticks s = 1 /\ waits s = (if doorbell then 1 else 0) /\
  (forall id, ackCmd id ∈ wt_cmds s \/ id ∈ wt_acked s -> id ∈ wt_pressed s) /\
  iw_acted (wt_model s) + Z.of_nat (length (done_ids (wt_msgs s))) = Z.of_nat (length (wt_acked s)) /\
  store_steps d (wt_db s).
Proof.
  intros Hs. assert (watch_inv agent doorbell d s) as [_ _ Hc Ht Hw Hq Hk Hn Hst].
  { revert Hs. generalize (watch_start_inv agent doorbell d). generalize (watch_start agent doorbell d).
    intros s0 H0 Hs. induction Hs as [|x y z Hxy _ IH]; [done|]. apply IH. by eapply watch_step_inv. }
  split_and!; try done. intros id [Hid|Hid]; [|by apply Hk]. apply Hq. unfold ack_ids.
  apply list_elem_of_In, in_flat_map. exists (ackCmd id). split; [by apply list_elem_of_In|by left].
Qed.

Lemma space_key m :
  snd (handleKey " " m) = match current m with Some cur => [ackCmd (m_PublicID cur)] | None => [] end.
Proof. reflexivity. Qed.

(** A refresh does not change what the space bar does.  When the row under the
    cursor is still queued after a refresh, wherever it has moved, the cursor is on
    it, it stays expanded or not, and the space bar acknowledges it; when it is gone,
    its expansion is closed and the cursor is on the row now at its place, or on the
    last one. *)
Theorem refresh_keeps_selection m cur msgs :
  cursor_ok m -> current m = Some cur -> m_PublicID cur <> EmptyString ->
  let m' := fst (Update (inboxPollMsg (Ok msgs)) m) in
  iw_msgs m' = msgs /\
  if existsb (has_public_id (m_PublicID cur)) msgs
  then (exists cur', current m' = Some cur' /\ m_PublicID cur' = m_PublicID cur) /\
       iw_expanded m' = iw_expanded m /\ snd (Update (KeyMsg " ") m') = [ackCmd (m_PublicID cur)]
  else iw_expanded m' = false /\ current m' = msgs !! fallback (iw_cursor m) msgs.
Proof.
  intros Hok Hcur Hne. cbv zeta. cbn [Update fst].
  set (m1 := set_list msgs (iw_cursor m) (iw_selID m) (iw_expanded m) (set_report (iw_status m) None (iw_acted m) m)).
  assert (iw_selID m = m_PublicID cur) as Hsel.
  { unfold cursor_ok in Hok. destruct (iw_msgs m) eqn:Em; [|destruct Hok as (? & E & ->); congruence].
    apply current_Some in Hcur as [Hr _]. rewrite Em in Hr. simpl in Hr. lia. }
  assert (iw_msgs (reconcileCursor m1) = msgs) as Hm.
  { unfold reconcileCursor, clamp, syncSelID. case_bool_decide as En; [simpl in *; by rewrite En|]. repeat case_match; done. }
  split; [exact Hm|]. pose proof (cursor_ok_range m Hok) as H0. destruct (existsb _ msgs) eqn:Ex.
  - apply existsb_exists in Ex as (row & Hin & Hrow%bool_decide_eq_true). rewrite <- list_elem_of_In in Hin.
    unfold reconcileCursor. rewrite bool_decide_false by (change (msgs <> []); intros ->; by apply elem_of_nil in Hin). change (iw_selID m1) with (iw_selID m).
    rewrite Hsel, bool_decide_false by done. cbn [negb].
    destruct (position 0 (m_PublicID cur) (iw_msgs m1)) as [i|] eqn:Ep; [|by destruct (proj1 (position_None _ _ _) Ep row)].
    apply position_Some in Ep as (n & msg & -> & Hn & Hid).
    assert (current (set_list (iw_msgs m1) (0 + Z.of_nat n) (m_PublicID cur) (iw_expanded m1) m1) = Some msg) as Hc
      by (by apply (current_at _ n)).
    split; [by exists msg|]. split; [done|]. by rewrite space_key, Hc, Hid.
  - assert (position 0 (m_PublicID cur) msgs = None) as Hp.
    { apply position_None. intros row Hin Hrow. apply not_true_iff_false in Ex. apply Ex, existsb_exists. exists row.
      split; [by apply list_elem_of_In|]. by apply bool_decide_eq_true. }
    unfold reconcileCursor. case_bool_decide as En; [simpl in En; by rewrite En|].
    change (iw_selID m1) with (iw_selID m). rewrite Hsel, bool_decide_false by done. cbn [negb].
    change (iw_msgs m1) with msgs. rewrite Hp.
    destruct (clamp_current m1 false En H0) as (c & Hc & _ & Hl & He). split; [done|]. by rewrite Hc, <- Hl.
Qed.

(** ** The editor *)

Lemma scissors_once : exists x, replyScissors = String "#" x /\ StrFacts.has_byte "#" x = false.
Proof. eexists. split; reflexivity. Qed.

(** What is sent from the editor is what stands above the scissors line.
    Whatever is typed there, lines that begin with a number sign included, as long as
    it does not contain the line itself, and whatever stands below: the reply is the
    typed text without surrounding blanks, it goes to the sender of the message
    replied to, under that message, from the reader of the inbox; a buffer left as it
    was opened, or blank above the line, sends nothing. *)
Theorem editor_roundtrip agent orig typed below rnd rndR now d :
  Str.Contains typed replyScissors = false ->
  let body := Str.TrimSpace typed in
  let (msg, d') := completeReply agent orig (Ok (typed +:+ replyScissors +:+ below)) rnd rndR now d in
  stripReplyTemplate (replyTemplate orig agent) = EmptyString /\
  if str_empty body then msg = inboxReplyMsg (m_PublicID orig) EmptyString true None /\ d' = d
  else
    (exists e, msg = inboxReplyMsg (m_PublicID orig) EmptyString false (Some e) /\
       forall to, queue_depth to d' = queue_depth to d) \/
    exists id row, msg = inboxReplyMsg (m_PublicID orig) id false None /\
      db_messages d' = db_messages d ++ [row] /\ m_PublicID row = id /\ m_State row = StateQueued /\
      m_Body row = body /\ m_FromAgent row = CanonicalName agent /\ m_ToAgent row = CanonicalName (m_FromAgent orig) /\
      m_ReplyTo row = null_if_empty (m_PublicID orig).
Proof.
  intros Hc. cbv zeta. destruct scissors_once as (x & Hx & Hone).
  assert (forall above below, Str.Contains above replyScissors = false ->
            stripReplyTemplate (above +:+ replyScissors +:+ below) = Str.TrimSpace above) as Hstrip.
  { intros above b Ha. unfold stripReplyTemplate. rewrite Hx in *. rewrite StrFacts.Index_first by done.
    f_equal. apply StrFacts.take_whole. }
  assert (stripReplyTemplate (replyTemplate orig agent) = EmptyString) as Hopen.
  { unfold replyTemplate. rewrite Hstrip; reflexivity. }
  unfold completeReply. rewrite Hstrip by done. case_bool_decide as Eb; cbv iota; [by split|].
  unfold composeReply. destruct (_ <? _).
  { split; [done|]. left. eexists. by split. }
  pose proof (InsertMessage_outcome (reply_params agent orig (Str.TrimSpace typed)) rnd rndR now d) as Ho.
  destruct (InsertMessage _ _ _ _ _) as [[res|e] d']; (split; [done|]); [right|left].
  - destruct Ho as (Hm & _). eexists _, _. split; [done|]. split; [exact Hm|]. repeat split.
  - eexists. split; [done|]. apply Ho.
Qed.

(** ** A session *)

(** Commands that run without a fault and without an editor. *)
Definition exec_cmd (agent : string) (c : watch_cmd) (d : DB) : watch_msg * DB :=
  match c with
  | inboxTickCmd => (inboxTickMsg, d)
  | notifyWaitCmd => (inboxNotifyMsg, d)
  | ackCmd id =>
      let (r, d') := MarkAcknowledged agent id d in
      (inboxActionMsg "acked" id (match r with Ok _ => None | Err e => Some e end), d')
  | _ => (inboxPollMsg (ListMessages (poll_filter agent) d), d)
  end.

Definition run_at (i : nat) (s : watch) : watch :=
  let (msg, d') := exec_cmd (iw_agent (wt_model s)) (default pollCmd (wt_cmds s !! i)) (wt_db s) in
  mkWatch (wt_model s) (take i (wt_cmds s) ++ drop (S i) (wt_cmds s)) (wt_msgs s ++ [msg]) d' (wt_pressed s)
    (acked_by msg ++ wt_acked s).

Definition deliver_first (s : watch) : watch :=
  match wt_msgs s with msg :: rest => delivered_to msg s rest | [] => s end.

Definition runnable (c : watch_cmd) : bool := match c with replyCmd _ | quitCmd => false | _ => true end.

Lemma run_at_step i s c : wt_cmds s !! i = Some c -> runnable c = true -> watch_step s (run_at i s).
Proof.
  intros Hc Hr. unfold run_at. rewrite Hc. simpl.
  destruct (exec_cmd _ c _) as [msg d'] eqn:E.
  apply (ws_run s (take i (wt_cmds s)) c (drop (S i) (wt_cmds s))); [by rewrite take_drop_middle|].
  destruct c as [| | |id|orig|]; simpl in E; try done; try (injection E as <- <-; constructor).
  pose proof (run_ack (iw_agent (wt_model s)) (wt_db s) id) as H.
  destruct (MarkAcknowledged _ _ _) as [r d1]. injection E as <- <-. exact H.
Qed.

Lemma deliver_first_step s : wt_msgs s <> [] -> watch_step s (deliver_first s).
Proof.
  unfold deliver_first. destruct (wt_msgs s) as [|msg rest] eqn:Hm; [done|]. intros _. by apply (ws_deliver s []).
Qed.

Definition press (k : string) (s : watch) : watch := delivered_to (KeyMsg k) s (wt_msgs s).

Lemma press_step k s : watch_step s (press k s).
Proof. apply ws_input. eauto. Qed.

(** [bob] reads his one message and hits the space bar twice before the refresh. *)
Definition session_polled : watch := run_at 0 (watch_start "bob" true db_one).
Definition session_listed : watch := deliver_first session_polled.
Definition session_pressed : watch := press " " (press " " session_listed).
Definition session_acked : watch := run_at 2 (run_at 2 session_pressed).
Definition session_end : watch := deliver_first (deliver_first session_acked).

Lemma session_runs : rtc watch_step (watch_start "bob" true db_one) session_end.
Proof.
  assert (forall s s1 s2, watch_step s s1 -> watch_step s1 s2 -> rtc watch_step s s2) as Htwo
    by (intros s s1 s2 H1 H2; eapply rtc_l; [exact H1|by apply rtc_once]).
  transitivity session_listed; [|transitivity session_pressed; [|transitivity session_acked]].
  - apply (Htwo _ session_polled); [apply (run_at_step 0 _ pollCmd); reflexivity|].
    apply deliver_first_step. vm_compute. discriminate.
  - apply (Htwo _ (press " " session_listed)); apply press_step.
  - apply (Htwo _ (run_at 2 session_pressed)); apply (run_at_step 2 _ (ackCmd "0001")); vm_compute; reflexivity.
  - apply (Htwo _ (deliver_first session_acked)); apply deliver_first_step; vm_compute; discriminate.
Qed.

Lemma inbox_watch_invariant_witness :
  map m_State (db_messages (wt_db session_end)) = [StateAcknowledged] /\ cursor_ok (wt_model session_end) /\
  ticks session_end = 1 /\ wt_acked session_end = ["0001"; "0001"] /\
  (forall id, ackCmd id ∈ wt_cmds session_end \/ id ∈ wt_acked session_end -> id ∈ wt_pressed session_end).
Proof.
  split; [vm_compute; reflexivity|].
  destruct (inbox_watch_invariant "bob" true db_one session_end session_runs) as (H1 & H2 & _ & H3 & _).
  split; [exact H1|]. split; [exact H2|]. split; [vm_compute; reflexivity|exact H3].
Defined.

(** One message, two drained: the summary counts key presses. *)
Lemma double_ack_counts_twice :
  length (db_messages db_one) = 1%nat /\
  summaryLine (wt_model session_end)
    = "inbox --watch: 2 drained this session, 1 still queued for " +:+ Str.Quote "bob".
Proof. split; vm_compute; reflexivity. Qed.

Definition listed : inboxWatchModel := wt_model session_listed.

(** A new message arrives above the row under the cursor. *)
Definition newcomer : Message := set_m_State StateQueued (mkMessage 9 "0009" "carol" "bob" None "first" KindMessage false false
  StateQueued t1 None None None None None None false 20 false).

Lemma refresh_keeps_selection_witness :
  exists cur, current listed = Some cur /\
    let m' := fst (Update (inboxPollMsg (Ok (newcomer :: iw_msgs listed))) listed) in
    iw_cursor m' = 1 /\ snd (Update (KeyMsg " ") m') = [ackCmd "0001"].
Proof.
  destruct (current listed) as [cur|] eqn:E; [|vm_compute in E; discriminate E]. exists cur. split; [reflexivity|].
  split; [vm_compute; reflexivity|].
  assert (m_PublicID cur = "0001") as Hid by (vm_compute in E; by injection E as <-).
  assert (cursor_ok listed) as Hok by (vm_compute; eexists; split; reflexivity).
  assert (m_PublicID cur <> EmptyString) as Hne by (rewrite Hid; discriminate).
  pose proof (refresh_keeps_selection listed cur (newcomer :: iw_msgs listed) Hok E Hne) as H.
  assert (existsb (has_public_id "0001") (newcomer :: iw_msgs listed) = true) as Ex by (vm_compute; reflexivity).
  cbv zeta in H. rewrite Hid, Ex in H. exact (proj2 (proj2 (proj2 H))).
Defined.

Definition opened : Message := mkMessage 1 "0001" "alice" "bob" None "hello" KindMessage false false StateQueued t0 None None
  None None None None false 20 false.

(** A line that begins like a comment, above the line and the quoted message. *)
Definition typed : string := "#12 is done" +:+ nl_str.
Definition came_back : watch_msg * DB :=
  completeReply "bob" opened (Ok (typed +:+ replyScissors +:+ "quoted")) (entropy 2) (entropy 9) t1 db_one.

Lemma editor_roundtrip_witness :
  fst came_back = inboxReplyMsg "0001" "0002" false None /\
  map m_Body (db_messages (snd came_back)) = ["hello"; "#12 is done"] /\
  stripReplyTemplate (replyTemplate opened "bob") = EmptyString.
Proof.
  assert (Str.Contains typed replyScissors = false) as Hc by (vm_compute; reflexivity).
  pose proof (editor_roundtrip "bob" opened typed "quoted" (entropy 2) (entropy 9) t1 db_one Hc) as H.
  split; [vm_compute; reflexivity|]. split; [vm_compute; reflexivity|].
  cbv zeta in H. destruct (completeReply _ _ _ _ _ _ _) as [msg d'] in H. exact (proj1 H).
Defined.
