(* ===== verification/SendProps.v ===== *)
(** * Correctness of sending

    The two surfaces of a send do the same thing, and what a send of one message or of
    a fan-out did to the store is exactly what its answer says. *)

From S2P Require Import Prelude GoStd Clock StoreTypes Messages Queue QueueProps Agents Queries Budget TmuxIO ObserveGate Throttle Mailman Send BudgetProps RespawnProps SendDemo.

Open Scope Z_scope.
Open Scope tell_scope.

(** ** Two computations side by side *)

Section Same.
Context (sw : SWorld).

(** The same effects on every start, and results related by [R]. *)
Definition same {A B} (c1 : M A) (c2 : M B) (R : A -> B -> Prop) : Prop := forall st,
  match c1 sw st, c2 sw st with
  | (Go a, st1), (Go b, st2) => st1 = st2 /\ R a b
  | (OutOfFuel, st1), (OutOfFuel, st2) => st1 = st2
  | _, _ => False
  end.

(** The steps of a send end normally or run out of fuel. *)
Definition plain {A} (c : M A) : Prop := same c c eq.

Lemma same_go {A B} (a : A) (b : B) R : (R a b : Prop) -> same (go a) (go b) R.
Proof. intros H st. by split. Qed.

Lemma same_bind {A A' B B'} (c : M A) (c' : M A') (k : A -> M B) (k' : A' -> M B') S (R : B -> B' -> Prop) :
  same c c' S -> (forall a a', S a a' -> same (k a) (k' a') R) -> same (andthen c k) (andthen c' k') R.
Proof.
  intros Hc Hk st. specialize (Hc st). unfold andthen.
  destruct (c sw st) as [[a| | | |] st1], (c' sw st) as [[a'| | | |] st1']; try done.
  destruct Hc as [-> Hs]. by apply Hk.
Qed.

Lemma same_first {A B B'} (c : M A) (k : A -> M B) (k' : A -> M B') R :
  plain c -> (forall a, same (k a) (k' a) R) -> same (andthen c k) (andthen c k') R.
Proof. intros Hc Hk. eapply same_bind; [exact Hc|]. intros a a' <-. apply Hk. Qed.

Lemma plain_bind {A B} (c : M A) (k : A -> M B) : plain c -> (forall a, plain (k a)) -> plain (andthen c k).
Proof. apply same_first. Qed.

Lemma plain_go {A} (a : A) : plain (go a). Proof. by apply same_go. Qed.
Lemma plain_fuel {A} : plain (A := A) out_of_fuel. Proof. intros st. done. Qed.

Lemma plain_lift {A} (c : T A) : plain (lift c).
Proof. intros st. unfold lift. destruct (c _ _). done. Qed.

Lemma plain_ask {A} what (f : SWorld -> history -> A) : plain (ask what f).
Proof. intros st. done. Qed.

Lemma plain_access {A} what (op : SWorld -> history -> string -> DB -> result A * DB) : plain (access what op).
Proof. intros st. unfold access. destruct (sw_fault _ _); [done|]. destruct (op _ _ _ _). done. Qed.

Lemma plain_store {A} what (op : string -> DB -> result A * DB) : plain (store what op).
Proof. apply plain_access. Qed.

Lemma plain_read {A} what (f : DB -> A) : plain (store_read what f).
Proof. apply plain_access. Qed.

Lemma plain_if {A} (b : bool) (c1 c2 : M A) : plain c1 -> plain c2 -> plain (if b then c1 else c2).
Proof. by destruct b. Qed.
End Same.

#[export] Hint Resolve plain_go plain_fuel plain_lift plain_ask plain_store plain_read plain_access : senddb.

(** Decompose a computation bind by bind and branch by branch. *)
Ltac plain_tac :=
  repeat (cbv beta zeta; first
    [ solve [auto with senddb nocore]
    | apply plain_bind; [|intros ?]
    | apply plain_if
    | match goal with |- plain _ (match ?x with _ => _ end) => destruct x end ]).

Section Surfaces.
Context (math_Pow : Q -> Q -> Q) (systemctl : history -> list string -> string)
  (list_clients : history -> string + exec_failure) (fuel : nat) (sw : SWorld).

Lemma plain_operator p : plain sw (resolveOperatorInSendParams list_clients p).
Proof. unfold resolveOperatorInSendParams, resolveOperatorTarget, observeOperatorAtChamber. plain_tac. Qed.

Lemma plain_charge b from rs body : plain sw (chargeSend math_Pow b from rs body).
Proof. unfold chargeSend. plain_tac. Qed.

Lemma plain_status agent : plain sw (resolveRecipientStatus systemctl agent).
Proof. unfold resolveRecipientStatus, mailmanActive. plain_tac. Qed.

Lemma plain_freshness p : plain sw (reply_freshness p).
Proof. unfold reply_freshness, resolveThreadFreshness. plain_tac. Qed.

Lemma plain_delivery n id start dl poll : plain sw (delivery_loop n id start dl poll).
Proof. induction n as [|n IH]; simpl; unfold timed_out; plain_tac. Qed.

Lemma plain_finish p wanted to id after : plain sw (finish_send fuel p wanted to id after).
Proof.
  pose proof plain_delivery. unfold finish_send, waitForDelivery, sendCreatedAt. plain_tac.
Qed.
Hint Resolve plain_operator plain_charge plain_status plain_freshness plain_finish : senddb.

Lemma plain_one p : plain sw (sendOneRecipient systemctl fuel p).
Proof. unfold sendOneRecipient, insert_message. plain_tac. Qed.
Hint Resolve plain_one : senddb.

Lemma plain_loop p tf start l : plain sw (fanout_loop systemctl fuel p tf start l).
Proof. induction l as [|[to offset] l IH]; simpl; plain_tac. Qed.

Lemma plain_pools rs : plain sw (read_pools rs).
Proof. induction rs as [|to rs IH]; simpl; plain_tac. Qed.
Hint Resolve plain_loop plain_pools : senddb.

Lemma plain_fan_out p tf charged : plain sw (fan_out systemctl fuel p tf charged).
Proof. unfold fan_out, refundSend. plain_tac. Qed.
Hint Resolve plain_fan_out : senddb.

(** The answer of the command line and the reply of the tool say the same. *)
Definition agree (a : answer) (r : result reply) : Prop :=
  match a, r with
  | JSONError msg code, Err e =>
      code <> exitOK /\ (error_text e = msg \/ (msg = "--to required" /\ error_text e = "to required"))
  | SendResult s code, Ok (ReplySend s') => s = s' /\ (code = exitOK <-> sn_OK s = true)
  | SendResult s code, Err e => sn_OK s = false /\ code = exitTempFail /\ error_text e = sn_Error s
  | MultiResult m code, Ok (ReplyMulti m') => m = m' /\ (code = exitOK <-> mr_OK m = true)
  | _, _ => False
  end.

Lemma agree_error msg code : code <> exitOK -> same sw (json_error msg code) (mcp_error msg) agree.
Proof. intros H. apply same_go. simpl. auto. Qed.

Lemma agree_err e msg code :
  code <> exitOK -> error_text e = msg -> same sw (json_error msg code) (go (Err e)) agree.
Proof. intros H <-. apply same_go. simpl. auto. Qed.

Lemma cap_not_missing e : is_cap_error e = true -> errors_Is e ErrNotFound = false.
Proof. induction e; simpl; try done; by rewrite ?orb_false_l. Qed.

(** The two gates: the command line renders what the tool returns. *)
Lemma same_gate {B B'} b from rs body (k : Q + answer -> M B) (k' : result Q -> M B') R :
  (forall q, same sw (k (inl q)) (k' (Ok q)) R) ->
  (forall e a, agree a (Err (mcp_refusal e)) -> same sw (k (inr a)) (k' (Err e)) R) ->
  same sw (andthen (chargeForSend math_Pow b from rs body) k)
          (andthen (chargeSend math_Pow b from rs body) k') R.
Proof.
  intros Hok Herr st. unfold chargeForSend.
  pose proof (plain_charge b from rs body st) as Hp. unfold andthen.
  destruct (chargeSend math_Pow b from rs body sw st) as [[r| | | |] st1]; try done.
  destruct r as [q|e]; simpl; [apply Hok|].
  destruct (errors_Is e ErrBudgetExhausted) eqn:E; apply Herr; unfold mcp_refusal; rewrite E; simpl; auto.
Qed.

Ltac agree_step :=
  first
    [ apply agree_error; done
    | apply agree_err; done
    | solve [apply same_go; simpl; done]
    | apply same_first; [solve [auto with senddb nocore]|intros ?]
    | match goal with
      | |- same _ (if ?b then _ else _) (if ?b then _ else _) _ => destruct b
      | |- same _ (match ?x with _ => _ end) (match ?x with _ => _ end) _ => destruct x
      end ].

(** Routing only renames recipients. *)
Lemma same_operator p :
  same sw (resolveOperatorInSendParams list_clients p) (resolveOperatorInSendParams list_clients p)
    (fun r r' => r = r' /\ forall p', r = Ok p' ->
       exists f, p' = set_To (f (sp_To p)) (map f (sp_ToRecipients p)) p).
Proof.
  unfold resolveOperatorInSendParams. destruct (negb _).
  - apply same_go. split; [done|]. intros p' [= <-]. exists (fun x => x). rewrite map_id. by destruct p.
  - eapply same_bind with (S := eq).
    + unfold resolveOperatorTarget, observeOperatorAtChamber. plain_tac.
    + intros r r' <-. apply same_go. split; [done|]. intros p' Hp'. destruct r as [t|e]; [|done].
      injection Hp' as <-. by exists (substitute t).
Qed.

Lemma agree_multi p :
  sp_From p <> EmptyString -> sp_DryRun p = false -> sp_ForceRateLimited p = false ->
  sp_DeliverAfter p = EmptyString -> (2 <= length (sp_ToRecipients p))%nat ->
  same sw (runSendWithStore math_Pow systemctl list_clients fuel p)
          (doMultiSendMCP math_Pow systemctl list_clients fuel p) agree.
Proof.
  intros Hf Hd Hforce Hafter Hlen. unfold runSendWithStore, doMultiSendMCP.
  eapply same_bind; [apply same_operator|]. intros r r' [<- Hr]. destruct r as [p'|e]; [|by apply agree_err].
  destruct (Hr p' eq_refl) as (f & ->). clear Hr.
  cbn [set_To sp_ToRecipients]. destruct (sp_ToRecipients p) as [|t1 [|t2 l]]; simpl in Hlen; [lia|lia|].
  cbn [map]. unfold runMultiSendWithStore.
  cbn [sp_From sp_Body sp_DeliverAfter sp_ForceRateLimited sp_DryRun set_To].
  rewrite Hafter, Hforce, Hd. replace (str_empty (sp_From p)) with false by (by rewrite bool_decide_false).
  cbn [negb]. change (negb (str_empty EmptyString)) with false. cbv iota.
  set (p' := set_To _ _ p). repeat agree_step.
  apply same_gate; [intros q|intros e a1 Ha; by apply same_go].
  apply same_first; [auto with senddb nocore|intros [out|e]]; apply same_go; simpl; [|by auto].
  split; [done|]. by destruct (mr_OK out).
Qed.

Lemma agree_one p :
  sp_From p <> EmptyString -> sp_DryRun p = false -> sp_ForceRateLimited p = false ->
  sp_ToRecipients p = [] ->
  same sw (runSendWithStore math_Pow systemctl list_clients fuel p)
          (doSendMCP math_Pow systemctl list_clients fuel p) agree.
Proof.
  intros Hf Hd Hforce Hto. unfold runSendWithStore, doSendMCP.
  eapply same_bind; [apply same_operator|]. intros r r' [<- Hr]. destruct r as [p'|e]; [|by apply agree_err].
  destruct (Hr p' eq_refl) as (f & ->). clear Hr.
  cbn [set_To sp_ToRecipients]. rewrite Hto. cbn [map]. unfold run_single.
  cbn [sp_From sp_To sp_Body sp_DeliverAfter sp_ForceRateLimited sp_DryRun set_To].
  rewrite Hforce, Hd. replace (str_empty (sp_From p)) with false by (by rewrite bool_decide_false).
  set (p' := set_To _ _ p).
  destruct (str_empty (f (sp_To p))); [apply same_go; simpl; auto|]. repeat agree_step.
  apply same_gate; [intros q|intros e a1 Ha; by apply same_go]. repeat agree_step.
  unfold insert_message. apply same_first; [auto with senddb nocore|intros [res|e]].
  - repeat agree_step.
  - destruct (is_cap_error e) eqn:Ec; [rewrite (cap_not_missing e Ec); by apply same_go|].
    repeat agree_step.
Qed.

(** C11: the two surfaces of a send agree.  For the same recipients and parameters, the
    MCP tool and the command line go through the same accesses, waits and questions,
    leave the same store, and give the same answer: the same response, or an error
    with the same text where the command line exits with a failure.  Excluded are the
    two options only the command line has (a dry run, the rate-limit override), an
    empty sender, and a deferred fan-out, which the command line refuses and the tool
    queues at once. *)
Theorem surfaces_agree toList p :
  sp_From p <> EmptyString -> sp_DryRun p = false -> sp_ForceRateLimited p = false ->
  (length toList <= 1)%nat \/ sp_DeliverAfter p = EmptyString ->
  same sw (cli_call math_Pow systemctl list_clients fuel toList p)
          (mcp_dispatch math_Pow systemctl list_clients fuel toList p) agree.
Proof.
  intros Hf Hd Hforce Hafter. unfold cli_call, mcp_dispatch.
  destruct toList as [|t1 [|t2 l]]; [by apply agree_one|by apply agree_one|].
  apply agree_multi; try done; simpl; [|lia]. destruct Hafter as [H|H]; [simpl in H; lia|done].
Qed.
End Surfaces.

Lemma surfaces_agree_witness :
  same bus (cli_call square no_systemctl no_clients 102 ["bob"; "carol"] (demo_send [] EmptyString 0))
           (mcp_dispatch square no_systemctl no_clients 102 ["bob"; "carol"] (demo_send [] EmptyString 0)) agree /\
  exists out, fst (mcp_dispatch square no_systemctl no_clients 102 ["bob"; "carol"] (demo_send [] EmptyString 0)
                     bus bus_start) = Go (Ok (ReplyMulti out)) /\ mr_OK out = true.
Proof.
  split; [|eexists; split; vm_compute; reflexivity].
  apply (surfaces_agree square no_systemctl no_clients 102 bus); [done|done|done|by right].
Defined.
