(* ===== verification/SendOutcome.v ===== *)
(** * What a send did to the store

    A run of a send is read as the list of its own writes, interleaved with whatever
    the other processes do; the answer of a send determines that list. *)

From S2P Require Import Prelude GoStd Clock StoreTypes Priority Messages Queue QueueProps Agents Queries Budget BudgetProps TmuxIO ObserveGate Throttle Mailman Serve ServeDemo RespawnProps Runs Send SendDemo.

Open Scope Z_scope.
Open Scope tell_scope.

(** ** Own writes *)

Inductive own_op : Type :=
  | OpPresence (target : string)
  | OpCharge (now : Z) (p : BudgetParams) (st : BudgetState) (e : option error)
  | OpInsert (q : InsertParams) (r : result InsertResult)
  | OpRefund (now : Z) (agent : string) (amount capacity : Q).

Section Outcome.
Context (math_Pow : Q -> Q -> Q) (systemctl : history -> list string -> string)
  (list_clients : history -> string + exec_failure) (fuel : nat) (sw : SWorld).

(** The transaction of a write and its result. *)
Definition perform (op : own_op) (d d' : DB) : Prop :=
  match op with
  | OpPresence target => d' = snd (SetPresence PresenceKeyOperatorLastSeenIn target d)
  | OpCharge now p st e => ChargeBudget math_Pow now p d = ((st, e), d')
  | OpInsert q r => exists rnd rndR now, InsertMessage q rnd rndR now d = (r, d')
  | OpRefund now agent amount capacity => d' = RefundBudget now agent amount capacity d
  end.

Local Notation interleaved := (interleaved perform sw).
Local Notation runs := (runs perform sw).
Local Notation silent := (silent perform sw).

(** ** Routing, the gate and the insert *)

(** [p'] is [p] with the operator replaced by the chamber recorded, if any was. *)
Definition routed (p : sendParams) (ops : list own_op) (p' : sendParams) : Prop :=
  (p' = p /\ ops = []) \/
  exists t, p' = set_To (substitute t (sp_To p)) (map (substitute t) (sp_ToRecipients p)) p /\
            names_operator p = true /\ (ops = [] \/ ops = [OpPresence t]).

Lemma runs_operator p :
  runs (resolveOperatorInSendParams list_clients p)
    (fun r ops => match r with Ok p' => routed p ops p' | Err _ => ops = [] end).
Proof.
  unfold resolveOperatorInSendParams. destruct (names_operator p) eqn:En; simpl negb; cbv iota;
    [|apply runs_go; by left].
  apply runs_bind with (Q := fun r ops => match r with
    | Ok t => ops = [] \/ ops = [OpPresence t] | Err _ => ops = [] end).
  - unfold resolveOperatorTarget. apply runs_silent.
    { unfold observeOperatorAtChamber. silent_tac. }
    intros t. destruct (negb (str_empty t)).
    + apply runs_bind with (Q := fun _ ops => ops = [] \/ ops = [OpPresence t]).
      * apply runs_write; [|by left]. intros h now d r d' E. cbv beta in E. exists (OpPresence t). unfold perform.
        rewrite E. split; [done|by right].
      * intros _ ops Ho. apply runs_go. by rewrite app_nil_r.
    + apply runs_silent; [auto with outcomedb|intros [last|e]]; [|by apply runs_go].
      apply runs_silent; [auto with outcomedb|intros [a|e]]; apply runs_go; [by left|done].
  - intros [t|e] ops Ho; apply runs_go; rewrite app_nil_r; [|done]. right. by exists t.
Qed.

(** The send is paid for: the charge quoted for it, or none when the budget is off. *)
Definition paid (p : sendParams) (rs : list string) (c : Q) (ops : list own_op) : Prop :=
  ((bt_Enabled (sp_Budget p) = false \/ rs = []) /\ c = 0%Q /\ ops = []) \/
  (exists now st, bt_Enabled (sp_Budget p) = true /\ c = bs_Cost st /\
     ops = [OpCharge now (paramsFor (sp_Budget p) (sp_From p) rs (sp_Body p)) st None]).

(** It is refused, or the store failed. *)
Definition unpaid (p : sendParams) (rs : list string) (a : answer) (ops : list own_op) : Prop :=
  exists msg code, a = JSONError msg code /\ code <> exitOK /\
    (ops = [] \/
     exists now st e, bs_Affordable st = false /\ msg = budgetRefusalText e /\ code = exitUnavailable /\
       ops = [OpCharge now (paramsFor (sp_Budget p) (sp_From p) rs (sp_Body p)) st (Some e)]).

Lemma runs_gate p rs :
  runs (chargeForSend math_Pow (sp_Budget p) (sp_From p) rs (sp_Body p))
    (fun r ops => match r with inl c => paid p rs c ops | inr a => unpaid p rs a ops end).
Proof.
  unfold chargeForSend.
  apply runs_bind with (Q := fun r ops => match r with
    | Ok c => paid p rs c ops
    | Err e => ops = [] \/ exists now st, bs_Affordable st = false /\ errors_Is e ErrBudgetExhausted = true /\
        ops = [OpCharge now (paramsFor (sp_Budget p) (sp_From p) rs (sp_Body p)) st (Some e)] end).
  - unfold chargeSend. destruct (bt_Enabled (sp_Budget p)) eqn:Eb; simpl negb; simpl orb;
      [|apply runs_go; left; auto].
    case_bool_decide as Er; [apply runs_go; left; auto|].
    apply runs_silent; [auto with outcomedb|intros now].
    set (bp := paramsFor _ _ _ _).
    apply runs_bind with (Q := fun r ops => match r with
      | Ok st => ops = [OpCharge now bp st None]
      | Err e => ops = [] \/ exists st, bs_Affordable st = false /\ errors_Is e ErrBudgetExhausted = true /\
                                       ops = [OpCharge now bp st (Some e)] end).
    + apply runs_write; [|by left]. intros h now' d r d' E.
      destruct (ChargeBudget math_Pow now bp d) as [[st e] d1] eqn:Ec. injection E as <- <-.
      exists (OpCharge now bp st e). split; [done|]. destruct e as [e|]; [|done]. right. exists st.
      unfold ChargeBudget in Ec. destruct (bs_Affordable _) eqn:Ea; simpl in Ec; [done|].
      injection Ec as <- <- <-. done.
    + intros [st|e] ops Ho; apply runs_go; rewrite app_nil_r.
      * right. exists now, st. auto.
      * destruct Ho as [->|(st & Ha & Hx & ->)]; [by left|right]. exists now, st. auto.
  - intros [c|e] ops Ho; apply runs_go; rewrite app_nil_r; [done|].
    unfold unpaid. destruct Ho as [->|(now & st & Ha & -> & ->)].
    + destruct (errors_Is e ErrBudgetExhausted); do 2 eexists; (split; [done|]); split; auto; done.
    + do 2 eexists. split; [done|]. split; [done|]. right. exists now, st, e. auto.
Qed.

Lemma runs_insert q :
  runs (insert_message q) (fun r ops => ops = [OpInsert q r] \/ (ops = [] /\ is_ok r = false)).
Proof.
  apply runs_write; [|by right]. intros h now d r d' E. exists (OpInsert q r).
  split; [|by left]. simpl. eauto.
Qed.

Lemma silent_status agent : silent (resolveRecipientStatus systemctl agent).
Proof. unfold resolveRecipientStatus, mailmanActive. silent_tac. Qed.

Lemma silent_freshness p : silent (reply_freshness p).
Proof. unfold reply_freshness, resolveThreadFreshness. silent_tac. Qed.

Lemma silent_quote p rs : silent (writeBudgetQuote math_Pow p rs).
Proof. unfold writeBudgetQuote. silent_tac. Qed.

(** ** Waiting *)

(** Enough polls for the wait of [p]. *)
Definition poll_count (p : sendParams) : nat := Z.to_nat (wait_bound p / pingPollInterval + 2).

Context (Hclock : steady_clock (sw_io sw)).

Lemma access_clock {A} what (op : SWorld -> history -> string -> DB -> result A * DB) st :
  w_clock (sw_io sw) (s_hist st) <= w_clock (sw_io sw) (s_hist (snd (access what op sw st))).
Proof.
  unfold access. cbv zeta. pose proof (sc_mono _ Hclock (EvCall what) (s_hist st)).
  destruct (sw_fault sw _); [done|]. by destruct (op _ _ _ _).
Qed.

Lemma wait_terminates id start deadline :
  forall n st, deadline - w_clock (sw_io sw) (s_hist st) + pingPollInterval <= Z.of_nat n * pingPollInterval ->
  (1 <= n)%nat ->
  exists d st', delivery_loop n id start deadline pingPollInterval sw st = (Go d, st') /\
                interleaved (s_db st) [] (s_db st').
Proof.
  induction n as [|n IH]; intros st Hn H1; [lia|]. simpl delivery_loop. unfold andthen at 1.
  destruct (silent_get perform sw "GetMessage" (GetMessage id) st) as (r & st1 & ops & E & Hi & ->).
  pose proof (access_clock "GetMessage" (fun _ _ _ d => (GetMessage id d, d)) st) as Hc1.
  unfold store in E |- *. rewrite E in Hc1 |- *. simpl in Hc1.
  set (over := match r with Ok m => _ | Err _ => _ end).
  unfold andthen at 1, lift at 1, time_Now at 1. cbv beta iota. simpl.
  pose proof (sc_mono _ Hclock EvNow (s_hist st1)) as Hc2. set (h2 := EvNow :: s_hist st1) in *.
  destruct over as [m|]; [do 2 eexists; by split|].
  destruct (Z.leb_spec deadline (w_clock (sw_io sw) h2)) as [Hd|Hd]; [do 2 eexists; by split|].
  unfold andthen at 1, lift at 1, wait, bind, emit, ctx_Err. cbv beta iota. simpl.
  pose proof (sc_sleep _ Hclock pingPollInterval h2) as Hc3. set (h3 := EvSleep _ :: h2) in *.
  destruct (w_ctx (sw_io sw) h3); [do 2 eexists; by split|].
  assert (0 < pingPollInterval) as Hp by done.
  destruct (IH (mkS (s_db st1) (s_vars st1) h3)) as (d & st' & E' & Hi'); [simpl; lia|..].
  { destruct n; [|lia]. exfalso. simpl in Hn. lia. }
  exists d, st'. split; [done|]. by eapply (interleaved_app _ _ _ [] _ []).
Qed.

Lemma silent_finish p wanted to id after :
  (poll_count p <= fuel)%nat -> silent (finish_send fuel p wanted to id after).
Proof.
  intros Hf. unfold finish_send, sendCreatedAt. apply silent_bind; [|intros d; silent_tac].
  destruct wanted; [|apply silent_go]. apply silent_bind; [|intros d; apply silent_go].
  unfold waitForDelivery. apply silent_bind; [apply silent_ask|intros _].
  intros st. unfold andthen, lift, time_Now. set (st1 := mkS _ _ _).
  set (start := w_clock (sw_io sw) (EvNow :: s_hist st)).
  assert (0 < pingPollInterval) as Hp by done. change (if pingPollInterval <=? 0 then pingPollInterval else pingPollInterval) with pingPollInterval.
  destruct (wait_terminates id start (start + wait_bound p) fuel st1) as (d & st' & E & Hi).
  - unfold poll_count in Hf. subst st1. simpl. fold start.
    pose proof (Z.div_mod (wait_bound p) pingPollInterval ltac:(done)).
    pose proof (Z.mod_pos_bound (wait_bound p) pingPollInterval ltac:(done)). nia.
  - unfold poll_count in Hf. unfold wait_bound in *. destruct (Z.leb_spec (sp_Timeout p) 0).
    + change (defaultDeliveredWaitTimeout / pingPollInterval + 2) with 102 in Hf. lia.
    + pose proof (Z.div_pos (sp_Timeout p) pingPollInterval ltac:(lia) ltac:(done)). lia.
  - exists d, st', []. by rewrite E.
Qed.

Hint Resolve silent_status silent_freshness silent_quote silent_finish : outcomedb.

(** ** One message *)

(** An answer that reports a failure. *)
Definition failing (a : answer) : Prop :=
  match a with
  | JSONError _ code => code <> exitOK
  | SendResult r code => sn_OK r = false /\ code <> exitOK
  | MultiResult _ _ | QuoteResult _ _ => False
  end.

(** What the response of an accepted send says of it. *)
Definition reports (p : sendParams) (res : InsertResult) (r : SendResponse) : Prop :=
  sn_OK r = true /\ sn_ID r = ir_PublicID res /\ sn_Queued r = ir_Queued res /\
  sn_DeliverAfter r = sp_DeliverAfter p /\
  (is_Some (sn_Delivery r) <-> sp_WaitForDelivered p = true /\ sp_DeliverAfter p = EmptyString) /\
  exists rc, sn_Receipt r = Some rc /\
    (rl_State (sr_Enqueue rc) = "staged" <-> sp_DeliverAfter p <> EmptyString).

Inductive single_spec (p : sendParams) : answer -> list own_op -> Prop :=
  | single_priced q : sp_DryRun p = true -> single_spec p (QuoteResult q exitOK) []
  | single_rejected a : failing a -> single_spec p a []
  | single_unpaid a ops : unpaid p [sp_To p] a ops -> single_spec p a ops
  | single_wasted a c ops : paid p [sp_To p] c ops -> failing a -> single_spec p a ops
  | single_full r c ops e :
      paid p [sp_To p] c ops -> is_cap_error e = true -> sn_OK r = false -> sn_Error r = error_text e ->
      sn_RefusedID r = refused_id e ->
      single_spec p (SendResult r exitTempFail) (ops ++ [OpInsert (single_insert p (sp_ForceRateLimited p)) (Err e)])
  | single_invalid msg code c ops e :
      paid p [sp_To p] c ops -> is_cap_error e = false -> code <> exitOK ->
      single_spec p (JSONError msg code) (ops ++ [OpInsert (single_insert p (sp_ForceRateLimited p)) (Err e)])
  | single_sent r c ops res :
      paid p [sp_To p] c ops -> reports p res r ->
      single_spec p (SendResult r exitOK) (ops ++ [OpInsert (single_insert p (sp_ForceRateLimited p)) (Ok res)]).

Lemma runs_quote p rs :
  runs (writeBudgetQuote math_Pow p rs) (fun a ops =>
    ops = [] /\ (failing a \/ exists q, a = QuoteResult q exitOK)).
Proof.
  unfold writeBudgetQuote. destruct (negb _); [apply runs_go; eauto|].
  apply runs_silent; [auto with outcomedb|intros now]. apply runs_silent; [auto with outcomedb|intros [st|e]];
    apply runs_go; [eauto|]. by split; [|left].
Qed.

Lemma staged_iff after d createdAt :
  rl_State (sr_Enqueue (newSendReceipt createdAt after d)) = "staged" <-> after <> EmptyString.
Proof.
  assert ("accepted" <> "staged") by done. unfold newSendReceipt.
  case_bool_decide;
    (destruct d as [d|]; [destruct (receiptLayersFromDelivery d)|]); simpl; naive_solver.
Qed.

(** The tail of an accepted send. *)
Lemma runs_finish p wanted to id after :
  (poll_count p <= fuel)%nat ->
  runs (finish_send fuel p wanted to id after) (fun r ops => ops = [] /\
    (is_Some (fst r) <-> wanted = true) /\ (rl_State (sr_Enqueue (snd r)) = "staged" <-> after <> EmptyString)).
Proof.
  intros Hf st. destruct (silent_finish p wanted to id after Hf st) as (r & st' & ops & E & Hi & ->).
  exists r, st', []. split; [done|]. split; [done|]. split; [done|].
  revert E. unfold finish_send, andthen. pose proof staged_iff as Hst.
  generalize dependent newSendReceipt. intros receipt Hst. destruct wanted; simpl.
  - destruct (waitForDelivery _ _ _ _ _ _ _) as [[d| | | |] st1]; try done. simpl.
    destruct (sendCreatedAt id sw st1) as [[t| | | |] st2]; try done. simpl. intros [= <- _]. simpl.
    split; [by split|apply Hst].
  - destruct (sendCreatedAt id sw st) as [[t| | | |] st2]; try done. simpl. intros [= <- _]. simpl.
    split; [by split; [intros []|]|apply Hst].
Qed.

Ltac fails := apply runs_go; apply single_rejected; simpl; done.

Lemma runs_insert_single p rs tf c pays :
  (poll_count p <= fuel)%nat -> paid p [sp_To p] c pays ->
  runs (ins <! insert_message (single_insert p (sp_ForceRateLimited p)) ;;
        match ins with
        | Err e =>
            if is_cap_error e then
              go (SendResult (failure None None (refused_id e) (error_text e)) exitTempFail)
            else if errors_Is e ErrNotFound then
              json_error (unknown_reply_to (sp_ReplyTo p)) exitDataErr
            else json_error (error_text e) exitInternal
        | Ok res =>
            tail <! finish_send fuel p (sp_WaitForDelivered p && str_empty (sp_DeliverAfter p))
                      (sp_To p) (ir_PublicID res) (sp_DeliverAfter p) ;;
            go (SendResult (sent_response p res rs tf tail) exitOK)
        end) (fun a ops => single_spec p a (pays ++ ops)).
Proof.
  intros Hf Hp. eapply runs_bind; [apply runs_insert|]. intros [res|e] ops Ho.
  - destruct Ho as [->|[_ Ho]]; [|done].
    eapply runs_bind; [by apply runs_finish|]. intros [d rc] ops' (-> & Hd & Hs). apply runs_go.
    rewrite app_nil_r. eapply single_sent; [exact Hp|]. split_and!; [done..| |by exists rc].
    rewrite (Hd : is_Some d <-> _), andb_true_iff, bool_decide_eq_true. done.
  - destruct Ho as [->|[-> _]].
    + destruct (is_cap_error e) eqn:Ec; [|destruct (errors_Is e ErrNotFound)]; apply runs_go; rewrite app_nil_r;
        [by eapply single_full|by eapply single_invalid..].
    + destruct (is_cap_error e); [|destruct (errors_Is e ErrNotFound)]; apply runs_go; rewrite !app_nil_r;
        by eapply single_wasted.
Qed.

Lemma runs_single p :
  (poll_count p <= fuel)%nat -> runs (run_single math_Pow systemctl fuel p) (single_spec p).
Proof.
  intros Hf. unfold run_single.
  destruct (str_empty (sp_From p)); [fails|]. destruct (str_empty (sp_To p)); [fails|].
  destruct (str_empty (sp_Body p)); [fails|]. destruct (too_large p); [fails|].
  destruct (sp_DryRun p) eqn:Ed.
  { eapply runs_weaken; [apply runs_quote|]. intros a ops [-> [Ha|[q ->]]]; [by apply single_rejected|by constructor]. }
  eapply runs_bind; [apply runs_gate|]. intros [c|a] pays Hp;
    [|apply runs_go; rewrite app_nil_r; by apply single_unpaid].
  assert (forall a, failing a -> runs (go a) (fun a ops => single_spec p a (pays ++ ops))) as Hfail.
  { intros a Ha. apply runs_go. rewrite app_nil_r. by eapply single_wasted. }
  destruct (if str_empty (sp_DeliverAfter p) then None else _) as [e|]; [by apply Hfail|].
  apply runs_silent; [auto with outcomedb|intros [rs|e]]; [|by apply Hfail].
  destruct (negb (rs_Registered rs)); [by apply Hfail|].
  destruct (sp_Strict p && _ && _); [by apply Hfail|].
  apply runs_silent; [auto with outcomedb|intros [ag|e]]; [|destruct (errors_Is e ErrNotFound); by apply Hfail].
  apply runs_silent; [auto with outcomedb|intros [tf|e]]; [|destruct (errors_Is e ErrNotFound); by apply Hfail].
  destruct (blocked p tf); [by apply Hfail|]. by eapply runs_insert_single.
Qed.

(** ** A fan-out *)

(** One recipient's result and what was written for it.  A full queue stores the
    refused row, but the result never names it. *)
Inductive leg (p : sendParams) (to : string) : MultiSendResult -> list own_op -> Prop :=
  | leg_skipped l :
      ms_To l = to -> ms_OK l = false -> ms_ID l = EmptyString -> ms_RefusedID l = EmptyString -> leg p to l []
  | leg_full l e :
      ms_To l = to -> ms_OK l = false -> ms_ID l = EmptyString -> ms_RefusedID l = EmptyString ->
      ms_Error l = error_text e ->
      is_cap_error e = true -> leg p to l [OpInsert (leg_insert (set_To to (sp_ToRecipients p) p)) (Err e)]
  | leg_sent l res :
      ms_To l = to -> ms_OK l = true -> ms_ID l = ir_PublicID res -> ms_Queued l = ir_Queued res ->
      ms_RefusedID l = EmptyString -> (is_Some (ms_Delivery l) <-> sp_WaitForDelivered p = true) ->
      leg p to l [OpInsert (leg_insert (set_To to (sp_ToRecipients p) p)) (Ok res)].

(** The results of a list of recipients, in order. *)
Inductive legs (p : sendParams) : list string -> list MultiSendResult -> list own_op -> Prop :=
  | legs_nil : legs p [] [] []
  | legs_cons to tos l ls ops ops' :
      leg p to l ops -> legs p tos ls ops' -> legs p (to :: tos) (l :: ls) (ops ++ ops').

(** A loop the store stopped at one of them. *)
Inductive legs_cut (p : sendParams) : list string -> list own_op -> Prop :=
  | cut_here to tos : legs_cut p (to :: tos) []
  | cut_insert to tos e :
      is_cap_error e = false ->
      legs_cut p (to :: tos) [OpInsert (leg_insert (set_To to (sp_ToRecipients p) p)) (Err e)]
  | cut_later to tos l ops ops' : leg p to l ops -> legs_cut p tos ops' -> legs_cut p (to :: tos) (ops ++ ops').

Lemma runs_one p to tf :
  (poll_count p <= fuel)%nat ->
  runs (sendOneRecipient systemctl fuel (set_To to (sp_ToRecipients p) p)) (fun r ops =>
    match r with
    | Ok resp => leg p to (leg_of to tf resp) ops
    | Err e => ops = [] \/ exists e', is_cap_error e' = false /\
                 ops = [OpInsert (leg_insert (set_To to (sp_ToRecipients p) p)) (Err e')]
    end).
Proof.
  intros Hf. set (q := set_To to _ p). unfold sendOneRecipient.
  apply runs_silent; [auto with outcomedb|intros [rs|e]]; [|apply runs_go; by left].
  destruct (negb (rs_Registered rs)); [apply runs_go; by apply leg_skipped|].
  destruct (sp_Strict q && _); [apply runs_go; by apply leg_skipped|].
  eapply runs_bind; [apply runs_insert|]. intros [res|e] ops Ho.
  - destruct Ho as [->|[_ Ho]]; [|done].
    eapply runs_bind; [by apply (runs_finish q)|]. intros [d rc] ops' (-> & Hd & Hs). apply runs_go.
    rewrite !app_nil_r. by apply leg_sent.
  - destruct (is_cap_error e) eqn:Ec; [|destruct (errors_Is e ErrNotFound)]; apply runs_go; rewrite app_nil_r;
      (destruct Ho as [->|[-> _]]); first [by eapply leg_full|by apply leg_skipped|by left|right; eauto].
Qed.

Lemma runs_loop p tf start l :
  (poll_count p <= fuel)%nat ->
  runs (fanout_loop systemctl fuel p tf start l) (fun r ops =>
    match r with Ok rs => legs p (map fst l) rs ops | Err _ => legs_cut p (map fst l) ops end).
Proof.
  intros Hf. induction l as [|[to offset] l IH]; simpl; [apply runs_go; constructor|].
  apply runs_silent; [auto with outcomedb|intros _].
  eapply runs_bind; [by apply (runs_one p to tf)|]. intros [resp|e] ops Ho.
  - eapply runs_bind; [exact IH|]. intros [rs|e] ops' Ho'; apply runs_go; rewrite app_nil_r.
    + by constructor.
    + by eapply cut_later.
  - apply runs_go. rewrite app_nil_r. destruct Ho as [->|(e' & He & ->)]; by constructor.
Qed.

Lemma runs_pools rs : runs (read_pools rs) (fun pools ops => length pools = length rs /\ ops = []).
Proof.
  induction rs as [|to rs IH]; simpl; [by apply runs_go|].
  apply runs_silent; [auto with outcomedb|intros r].
  eapply runs_bind; [exact IH|]. intros pools ops [Hl ->]. apply runs_go. simpl. by rewrite Hl.
Qed.

Lemma combine_fst {A B} (l : list A) (l' : list B) : length l' = length l -> map fst (combine l l') = l.
Proof.
  revert l'. induction l as [|a l IH]; intros [|b l'] H; simpl in *; try done. f_equal. apply IH. lia.
Qed.

(** The credit when nobody was reached: it lands, or a warning names it. *)
Definition credited (p : sendParams) (charged : Q) (out : MultiSendResponse) (ops : list own_op) : Prop :=
  if existsb ms_OK (mr_Messages out) || Qle_bool charged 0 then ops = []
  else (exists now, ops = [OpRefund now (sp_From p) charged (bt_Capacity (sp_Budget p))]) \/
       (ops = [] /\ exists w, w ∈ mr_Warnings out /\ Str.HasPrefix w "budget refund failed" = true).

Lemma runs_fan_out p tf charged :
  (poll_count p <= fuel)%nat ->
  runs (fan_out systemctl fuel p tf charged) (fun r ops =>
    match r with
    | Ok out => exists ops1 ops2, ops = ops1 ++ ops2 /\ mr_OK out = forallb ms_OK (mr_Messages out) /\
                  legs p (sp_ToRecipients p) (mr_Messages out) ops1 /\ credited p charged out ops2
    | Err _ => legs_cut p (sp_ToRecipients p) ops
    end).
Proof.
  intros Hf. unfold fan_out. apply runs_silent; [auto with outcomedb|intros start].
  eapply runs_bind; [apply runs_pools|]. intros pools ops [Hl ->].
  eapply runs_bind; [by apply runs_loop|]. intros r ops Ho.
  rewrite combine_fst in Ho by (unfold fanoutStaggerOffsets; by rewrite stagger_length).
  destruct r as [rs|e]; [|apply runs_go; by rewrite app_nil_r].
  unfold credited.
  destruct (existsb ms_OK rs) eqn:Ex; [|destruct (Qle_bool charged 0) eqn:Eq]; simpl negb; simpl andb; cbv iota.
  1, 2: apply runs_silent; [apply silent_go|intros refund]; apply runs_go; exists ops, []; rewrite !app_nil_r;
    simpl; rewrite ?Ex, ?Eq; by repeat split.
  eapply runs_bind with (Q := fun w ops => (w = EmptyString /\
      exists now, ops = [OpRefund now (sp_From p) charged (bt_Capacity (sp_Budget p))]) \/
      (ops = [] /\ w <> EmptyString /\ Str.HasPrefix w "budget refund failed" = true)).
  - unfold refundSend. apply runs_silent; [auto with outcomedb|intros now].
    eapply runs_bind with (Q := fun r ops => match r with
      | Ok _ => exists now, ops = [OpRefund now (sp_From p) charged (bt_Capacity (sp_Budget p))]
      | Err _ => ops = [] end).
    + apply runs_write; [|done]. intros h now' d r d' E. injection E as <- <-. eexists (OpRefund now _ _ _).
      split; [done|eauto].
    + intros [u|e] ops' Ho'; apply runs_go; rewrite app_nil_r; [left; by split|right]. by split_and!.
  - intros w ops2 Hw. apply runs_go. exists ops, ops2. rewrite app_nil_r. split; [done|].
    split; [done|]. split; [done|]. simpl. rewrite Ex. simpl.
    destruct Hw as [[-> Hn]|(-> & Hne & Hw)]; [by left|right]. split; [done|]. exists w.
    rewrite bool_decide_false by done. split; [|done]. apply elem_of_app. right. by apply list_elem_of_singleton.
Qed.

Inductive fanout_spec (p : sendParams) : answer -> list own_op -> Prop :=
  | fan_priced q : sp_DryRun p = true -> fanout_spec p (QuoteResult q exitOK) []
  | fan_rejected a : failing a -> fanout_spec p a []
  | fan_unpaid a ops : unpaid p (sp_ToRecipients p) a ops -> fanout_spec p a ops
  | fan_cut msg code c ops ops' :
      paid p (sp_ToRecipients p) c ops -> legs_cut p (sp_ToRecipients p) ops' -> code <> exitOK ->
      fanout_spec p (JSONError msg code) (ops ++ ops')
  | fan_done out c ops ops1 ops2 :
      paid p (sp_ToRecipients p) c ops -> legs p (sp_ToRecipients p) (mr_Messages out) ops1 ->
      credited p c out ops2 -> mr_OK out = forallb ms_OK (mr_Messages out) ->
      fanout_spec p (MultiResult out (if mr_OK out then exitOK else exitTempFail)) (ops ++ ops1 ++ ops2).

Lemma runs_multi p :
  (poll_count p <= fuel)%nat -> runs (runMultiSendWithStore math_Pow systemctl fuel p) (fanout_spec p).
Proof.
  intros Hf. unfold runMultiSendWithStore.
  assert (forall a, failing a -> runs (go a) (fanout_spec p)) as Hfail
    by (intros a Ha; apply runs_go; by apply fan_rejected).
  repeat match goal with |- runs (if ?b then json_error _ _ else _) _ => destruct b; [by apply Hfail|] end.
  apply runs_silent; [auto with outcomedb|intros [ag|e]]; [|destruct (errors_Is e ErrNotFound); by apply Hfail].
  apply runs_silent; [auto with outcomedb|intros [tf|e]]; [|destruct (errors_Is e ErrNotFound); by apply Hfail].
  destruct (blocked p tf); [by apply Hfail|].
  destruct (sp_DryRun p) eqn:Ed.
  { eapply runs_weaken; [apply runs_quote|]. intros a ops [-> [Ha|[q ->]]]; [by apply fan_rejected|by constructor]. }
  eapply runs_bind; [apply runs_gate|]. intros [c|a] pays Hp;
    [|apply runs_go; rewrite app_nil_r; by apply fan_unpaid].
  eapply runs_bind; [by apply runs_fan_out|]. intros [out|e] ops Ho; apply runs_go; rewrite app_nil_r.
  - destruct Ho as (ops1 & ops2 & -> & Hok & Hl & Hc). by eapply fan_done.
  - by eapply fan_cut.
Qed.

(** The parameters of a send to one name, however it was given. *)
Definition one_name (p : sendParams) : sendParams :=
  match sp_ToRecipients p with [to] => set_To to [to] p | _ => p end.

(** C9: the answer of a send tells exactly what it did.  A send to one recipient always
    ends, whatever the other processes do meanwhile and whichever accesses fail.  It
    exits with success only after inserting the message, whose id and queue depth it
    reports, marked as staged exactly when it is deferred.  Otherwise it inserted
    nothing but, on a full queue, the refused row it names.  A dry run writes nothing;
    a send refused by the budget has not been charged and inserts nothing; any other
    send has been charged the quoted cost once, before the insert. *)
Theorem send_outcome p0 :
  (poll_count p0 <= fuel)%nat -> (length (sp_ToRecipients p0) <= 1)%nat ->
  runs (runSendWithStore math_Pow systemctl list_clients fuel p0) (fun a ops =>
    (failing a /\ ops = []) \/
    exists pre ops' p, ops = pre ++ ops' /\ routed p0 pre p /\ single_spec (one_name p) a ops').
Proof.
  intros Hf Hl. unfold runSendWithStore. eapply runs_bind; [apply runs_operator|].
  intros [p|e] pre Hpre; [|apply runs_go; left; rewrite app_nil_r; by split].
  assert (length (sp_ToRecipients p) <= 1)%nat as Hl'.
  { destruct Hpre as [[-> _]|(t & -> & _)]; [done|]. simpl. by rewrite length_map. }
  assert (poll_count (one_name p) <= fuel)%nat as Hf'.
  { unfold one_name. destruct Hpre as [[-> _]|(t & -> & _)]; repeat case_match; done. }
  assert (runs (match sp_ToRecipients p with
                | _ :: _ :: _ => runMultiSendWithStore math_Pow systemctl fuel p
                | [to] => run_single math_Pow systemctl fuel (set_To to [to] p)
                | [] => run_single math_Pow systemctl fuel p
                end) (single_spec (one_name p))) as Hr.
  { unfold one_name in *. destruct (sp_ToRecipients p) as [|to [|]]; simpl in Hl'; try lia; by apply runs_single. }
  eapply runs_weaken; [exact Hr|]. intros a ops Ha. right. by exists pre, ops, p.
Qed.

(** C10: a fan-out is charged once and delivers to each recipient on its own.  It always
    ends.  When it answers with results, there is one for every recipient, in order: a
    success names the id of the message inserted for that recipient; a failure means
    that no message was queued for it, and if its queue was full the refused row that
    was stored instead is not named.  The charge comes before the first insert, so a
    budget refusal reaches nobody.  An answer with results in which nobody was reached
    has credited the charge back, or carries the warning that the credit failed; one
    in which somebody was reached has not.  A store error stops the loop with the
    recipients before it served: the answer is then an error, and nothing is credited,
    even when nobody was reached.  The exit code tells whether all succeeded. *)
Theorem fanout_outcome p0 :
  (poll_count p0 <= fuel)%nat -> (2 <= length (sp_ToRecipients p0))%nat ->
  runs (runSendWithStore math_Pow systemctl list_clients fuel p0) (fun a ops =>
    (failing a /\ ops = []) \/
    exists pre ops' p, ops = pre ++ ops' /\ routed p0 pre p /\ fanout_spec p a ops').
Proof.
  intros Hf Hl. unfold runSendWithStore. eapply runs_bind; [apply runs_operator|].
  intros [p|e] pre Hpre; [|apply runs_go; left; rewrite app_nil_r; by split].
  assert (2 <= length (sp_ToRecipients p))%nat as Hl'.
  { destruct Hpre as [[-> _]|(t & -> & _)]; [done|]. simpl. by rewrite length_map. }
  assert (poll_count p <= fuel)%nat as Hf' by (destruct Hpre as [[-> _]|(t & -> & _)]; done).
  assert (runs (match sp_ToRecipients p with
                | _ :: _ :: _ => runMultiSendWithStore math_Pow systemctl fuel p
                | [to] => run_single math_Pow systemctl fuel (set_To to [to] p)
                | [] => run_single math_Pow systemctl fuel p
                end) (fanout_spec p)) as Hr.
  { destruct (sp_ToRecipients p) as [|t1 [|t2 l]] eqn:E; simpl in Hl'; try lia. by apply runs_multi. }
  eapply runs_weaken; [exact Hr|]. intros a ops Ha. right. by exists pre, ops, p.
Qed.
End Outcome.

(** ** On the concrete bus *)

Lemma send_outcome_witness :
  rows_of (demo_cli ["bob"] EmptyString PriorityHigh) = [("bob", StateQueued, PriorityHigh)] /\
  exists a st' ops, demo_cli ["bob"] EmptyString PriorityHigh = (Go a, st') /\
    interleaved (perform square) bus bus_db ops (s_db st') /\
    ((failing a /\ ops = []) \/
     exists pre ops' p, ops = pre ++ ops' /\ routed (demo_send ["bob"] EmptyString PriorityHigh) pre p /\
       single_spec (one_name p) a ops').
Proof.
  split; [vm_compute; reflexivity|].
  apply (send_outcome square no_systemctl no_clients 102 bus ticking_steady
           (demo_send ["bob"] EmptyString PriorityHigh)); [vm_compute; lia|simpl; lia].
Defined.

Lemma fanout_outcome_witness :
  rows_of (demo_cli ["bob"; "nobody"; "carol"] EmptyString 0)
    = [("bob", StateQueued, PriorityNormal); ("carol", StateQueued, PriorityNormal)] /\
  exists a st' ops, demo_cli ["bob"; "nobody"; "carol"] EmptyString 0 = (Go a, st') /\
    interleaved (perform square) bus bus_db ops (s_db st') /\
    ((failing a /\ ops = []) \/
     exists pre ops' p, ops = pre ++ ops' /\ routed (demo_send ["bob"; "nobody"; "carol"] EmptyString 0) pre p /\
       fanout_spec p a ops').
Proof.
  split; [vm_compute; reflexivity|].
  apply (fanout_outcome square no_systemctl no_clients 102 bus ticking_steady
           (demo_send ["bob"; "nobody"; "carol"] EmptyString 0)); [vm_compute; lia|simpl; lia].
Defined.

(** ** What the two surfaces get wrong *)

(** The MCP tool accepts a deferred fan-out, queues the messages at once and reports
    them as staged. *)
Lemma mcp_fanout_ignores_deferral :
  rows_of (demo_mcp ["bob"; "carol"] "resume" 0)
    = [("bob", StateQueued, PriorityNormal); ("carol", StateQueued, PriorityNormal)] /\
  exists out, fst (demo_mcp ["bob"; "carol"] "resume" 0) = Go (Ok (ReplyMulti out)) /\
    map (fun l => option_map (fun rc => rl_State (sr_Enqueue rc)) (ms_Receipt l)) (mr_Messages out)
      = [Some "staged"; Some "staged"].
Proof. split; [vm_compute; reflexivity|]. eexists. split; vm_compute; reflexivity. Qed.

(** A fan-out forgets the priority a single send keeps. *)
Lemma fanout_drops_priority :
  rows_of (demo_cli ["bob"; "carol"] EmptyString PriorityHigh)
    = [("bob", StateQueued, PriorityNormal); ("carol", StateQueued, PriorityNormal)].
Proof. vm_compute. reflexivity. Qed.

(** A message to nobody is paid for. *)
Lemma unknown_recipient_is_charged :
  fst (demo_cli ["nobody"] EmptyString 0) = Go (JSONError "unknown recipient: nobody" exitUnavailable) /\
  rows_of (demo_cli ["nobody"] EmptyString 0) = [] /\
  exists balance at_, db_budgets (s_db (snd (demo_cli ["nobody"] EmptyString 0))) !! "alice" = Some (balance, at_) /\
    Qlt_bool balance 119 = true.
Proof. split_and!; [vm_compute; reflexivity..|]. do 2 eexists. split; vm_compute; reflexivity. Qed.

(** A single name with a trailing comma is looked up with its comma. *)
Lemma single_name_keeps_its_comma :
  splitRecipients "bob," = ["bob"] /\
  fst (cli_dispatch square no_systemctl no_clients 102 "bob," (demo_send [] EmptyString 0) bus bus_start)
    = Go (JSONError "unknown recipient: bob," exitUnavailable).
Proof. split; vm_compute; reflexivity. Qed.

(** The budget is keyed by the sender's name as typed: another spelling of it has a
    full balance and an empty window, although the messages count as one sender's. *)
Lemma another_spelling_another_budget :
  let d := s_db (snd (demo_cli ["bob"] EmptyString 0)) in
  let quote from := QuoteBudget square (365 * 24 * Time.Hour)%Z (paramsFor demo_tunables from ["bob"] "hello") d in
  CanonicalName "Alice" = "alice" /\ bs_Balance (quote "Alice") = 120%Q /\
  is_Some (db_budgets d !! "alice") /\ db_budgets d !! "Alice" = None.
Proof. split_and!; [vm_compute; reflexivity..|vm_compute; eauto|vm_compute; reflexivity]. Qed.
