(* ===== verification/Requests.v ===== *)
(** * Asking, waiting for replies, and resending (internal/store/reply.go,
    internal/cli/reply.go, resend.go, mcp.go)

    The blocking wait for a reply and the listing of replies, over a store that other
    processes write to; the replay of a message, its guard and both its surfaces.
    Flag and JSON decoding are left out, as is the warning of a deprecated force. *)

From S2P Require Import Prelude GoStd StoreTypes Messages Queue Queries Agents TmuxIO Throttle Mailman Send Identity Control.

Open Scope Z_scope.
Open Scope tell_scope.

(** ** Waiting for a reply *)

Definition defaultReplyPollInterval : Z := 150 * Time.Millisecond.

(** [context.WithTimeout(ctx, timeout)]: done with [ctx], or at the deadline. *)
Definition deadline_ctx (deadline : Z) (w : World) (h : history) : option ctx_error :=
  match w_ctx w h with
  | Some e => Some e
  | None => if deadline <=? w_clock w h then Some DeadlineExceeded else None
  end.

Definition until {A} (deadline : Z) (c : T A) : T A := fun w h => c (with_ctx (deadline_ctx deadline) w) h.

(** The loop of [WaitForReply] under a context with that deadline. *)
Fixpoint reply_loop (n : nat) (caller askID : string) (sinceID pollInterval deadline : Z) : M (result Message) :=
  match n with
  | O => out_of_fuel
  | S n' =>
      r <! store "FindReply" (fun _ d => (FindReply caller askID sinceID d, d)) ;;
      match r with
      | Err e => go (Err e)
      | Ok (Some m) => go (Ok m)
      | Ok None =>
          e <! lift (until deadline (wait pollInterval)) ;;
          match e with
          | Some e => go (Err e)
          | None => reply_loop n' caller askID sinceID pollInterval deadline
          end
      end
  end.

Definition WaitForReply (fuel : nat) (caller askID : string) (sinceID pollInterval deadline : Z)
    : M (result Message) :=
  let poll := if pollInterval <=? 0 then defaultReplyPollInterval else pollInterval in
  _ <! ask ("watchKey " +:+ caller) (fun _ _ => tt) ;;
  reply_loop fuel caller askID sinceID poll deadline.

Record replyView : Type := mkReply {
  ry_ID : string;
  ry_From : string;
  ry_Body : string;
  ry_State : string;
  ry_Unverified : bool;
  ry_CreatedAt : string
}.

Definition viewReply (m : Message) : replyView :=
  let ds := displayState m in
  mkReply (m_PublicID m) (m_FromAgent m) (m_Body m) ds (bool_decide (ds = displayStateDeliveredInInputBox))
    (m_CreatedAt m).

Record waitForReplyResult : Type := mkWait {
  wr_OK : bool;
  wr_AskID : string;
  wr_Reply : option replyView;
  wr_TimedOut : bool;
  wr_Error : string
}.

Record checkRepliesResult : Type := mkReplies {
  ch_OK : bool;
  ch_AskID : string;
  ch_Replies : list replyView
}.

(** The error of a done context, wrapped or not. *)
Definition is_ctx_error (e : error) : bool :=
  errors_Is e (context_error DeadlineExceeded) || errors_Is e (context_error Canceled).

Definition doWaitForReply (fuel : nat) (caller askID : string) (timeout : Z) : M waitForReplyResult :=
  start <! lift time_Now ;;
  r <! WaitForReply fuel caller askID 0 0 (start + timeout) ;;
  go (match r with
      | Ok m => mkWait true askID (Some (viewReply m)) false EmptyString
      | Err e => if is_ctx_error e then mkWait true askID None true EmptyString
                 else mkWait false askID None false (error_text e)
      end).

Definition doCheckReplies (caller askID : string) (since : Z) : M (result checkRepliesResult) :=
  r <! store "ListReplies" (fun _ d => (ListReplies caller askID since d, d)) ;;
  go (match r with
      | Err e => Err e
      | Ok msgs => Ok (mkReplies true askID (map viewReply msgs))
      end).

(** ** The surfaces of asking *)

Section Surfaces.
Context (math_Pow : Q -> Q -> Q) (systemctl : history -> list string -> string)
  (list_clients : history -> string + exec_failure) (fuel : nat).
Context (getenv : string -> string) (getppid : Z) (environ stat : Z -> option string) (BinaryName : string).

(** A send that expects a reply; the budget is not switched on. *)
Definition ask_params (from to replyTo body : string) : sendParams :=
  mkSend from to [] replyTo body false false EmptyString true 0 false capRecipientQueue capSenderBacklog
    capBodyBytes 0 (mkTunables false 0 0 0 0) EmptyString false false false 0 false.

Definition ask_error (msg : string) (code : Z) : M answer := go (JSONError msg code).

(** The flags as parsed, and the arguments left over. *)
Definition runAskCLI (from to replyTo body : string) (args : list string) : M answer :=
  if Str.Contains to "," then ask_error "ask is single-recipient only (v1, #250): --to takes one agent" exitUsage
  else
    who <! ResolveIdentity getenv from ;;
    match who with
    | Err e => ask_error (error_text e) exitInternal
    | Ok (name, _) =>
        let body := if str_empty body then Str.Join args " " else body in
        runSendWithStore math_Pow systemctl list_clients fuel (ask_params name to replyTo body)
    end.

Definition mcpAsk (injected to body replyTo : string) : M (result reply) :=
  who <! resolveMCPIdentity getenv getppid environ stat BinaryName injected ;;
  match who with
  | Err e => go (Err e)
  | Ok from => doSendMCP math_Pow systemctl list_clients fuel (ask_params from to replyTo body)
  end.

Inductive reply_answer : Type :=
  | ReplyError (msg : string) (code : Z)
  | WaitDone (r : waitForReplyResult) (code : Z)
  | CheckDone (r : checkRepliesResult).

Definition no_identity_text : string :=
  "cannot resolve identity: pass --from, set $TMUX_AGENT_NAME, or register this pane".

(** The caller of a command that asks about its own replies. *)
Definition as_caller (command from askID : string) (k : string -> M reply_answer) : M reply_answer :=
  if str_empty askID then
    go (ReplyError (command +:+ " requires an ask_id: " +:+ BinaryName +:+ " " +:+ command +:+ " <ask_id>") exitUsage)
  else
    who <! ResolveIdentity getenv from ;;
    match who with
    | Err e => go (ReplyError (error_text e) exitInternal)
    | Ok (caller, _) => if str_empty caller then go (ReplyError no_identity_text exitUsage) else k caller
    end.

Definition runWaitForReplyCLI (from askID : string) (timeout : Z) : M reply_answer :=
  as_caller "wait-for-reply" from askID (fun caller =>
    r <! doWaitForReply fuel caller askID timeout ;;
    go (WaitDone r (if wr_OK r then exitOK else exitInternal))).

Definition runCheckRepliesCLI (from askID : string) (since : Z) : M reply_answer :=
  as_caller "check-replies" from askID (fun caller =>
    r <! doCheckReplies caller askID since ;;
    go (match r with Err e => ReplyError (error_text e) exitInternal | Ok res => CheckDone res end)).

(** [time.Duration(in.TimeoutMs) * time.Millisecond], when it is positive. *)
Definition wait_timeout (timeoutMs : Z) : Z :=
  if 0 <? timeoutMs then Time.wrap64 (timeoutMs * Time.Millisecond) else 30 * Time.Second.

Definition mcpWaitForReply (injected askID : string) (timeoutMs : Z) : M (result waitForReplyResult) :=
  if str_empty askID then go (Err (ErrMsg "ask_id required"))
  else
    who <! resolveMCPIdentity getenv getppid environ stat BinaryName injected ;;
    match who with
    | Err e => go (Err e)
    | Ok caller => r <! doWaitForReply fuel caller askID (wait_timeout timeoutMs) ;; go (Ok r)
    end.

Definition mcpCheckReplies (injected askID : string) (since : Z) : M (result checkRepliesResult) :=
  if str_empty askID then go (Err (ErrMsg "ask_id required"))
  else
    who <! resolveMCPIdentity getenv getppid environ stat BinaryName injected ;;
    match who with Err e => go (Err e) | Ok caller => doCheckReplies caller askID since end.

(** ** Resending *)

Record resendParams : Type := mkResend { rp_OriginalID : string; rp_Force : bool }.

Record ReplayStatus : Type := mkReplay {
  ra_OriginalID : string;
  ra_OriginalSentAt : string;
  ra_OriginalState : string;
  ra_Forced : bool
}.

(** A response with its replay block. *)
Record replay_response : Type := mkReplayed { rr_Response : SendResponse; rr_Replay : option ReplayStatus }.

Inductive resend_answer : Type :=
  | ResendError (msg : string) (code : Z)
  | ResendResult (r : replay_response) (code : Z).

Definition isDeliveredUnverified (m : Message) : bool :=
  bool_decide (m_State m = StateDelivered) && bool_decide (m_Verified m = Some 0).

(** The reason to refuse, if there is one. *)
Definition resendGuard (orig : Message) (force : bool) : option string :=
  if force then None
  else
    match m_State orig with
    | StateFailed => None
    | StateDelivered =>
        if isDeliveredUnverified orig then None
        else Some ("message " +:+ m_PublicID orig
               +:+ " is already delivered; pass --force to resend anyway (may duplicate)")
    | StateQueued | StateDelivering =>
        Some ("message " +:+ m_PublicID orig +:+ " is still in flight (" +:+ State_string (m_State orig)
          +:+ "); wait for a terminal state or pass --force to resend anyway (may duplicate)")
    | _ =>
        Some ("message " +:+ m_PublicID orig +:+ " is in state " +:+ Str.Quote (State_string (m_State orig))
          +:+ "; pass --force to resend anyway")
    end.

Definition replayRefusal (orig : Message) (reason : string) : replay_response :=
  mkReplayed (failure None None EmptyString reason)
    (Some (mkReplay (m_PublicID orig) (m_CreatedAt orig) (State_string (m_State orig)) false)).

(** What a replay inserts. *)
Definition replay_params (orig : Message) : InsertParams :=
  mkParams (m_FromAgent orig) (m_ToAgent orig) (default EmptyString (m_ReplyTo orig)) (m_Body orig) None
    (m_NoReplyExpected orig) (m_Quick orig) (m_PublicID orig) (m_CreatedAt orig) EmptyString false 0 false
    capRecipientQueue capSenderBacklog.

Definition replayed (p : resendParams) (orig : Message) (res : InsertResult) (rs : RecipientStatus)
    : replay_response :=
  mkReplayed
    (mkResponse true (ir_PublicID res) (ir_Queued res) (Some rs) None None None EmptyString EmptyString []
       EmptyString)
    (Some (mkReplay (m_PublicID orig) (m_CreatedAt orig) (displayState orig) (rp_Force p))).

Definition unknown_id_text (id : string) : string := "unknown message id: " +:+ id.
Definition gone_text (orig : Message) : string :=
  "original recipient " +:+ m_ToAgent orig +:+ " is no longer registered".

Definition runResendWithStore (p : resendParams) : M resend_answer :=
  let fail msg code := go (ResendError msg code) in
  if str_empty (rp_OriginalID p) then
    fail ("resend requires a message id: " +:+ BinaryName +:+ " resend <id>") exitUsage
  else
    o <! store "GetMessage" (fun _ d => (GetMessage (rp_OriginalID p) d, d)) ;;
    match o with
    | Err e => if errors_Is e ErrNotFound then fail (unknown_id_text (rp_OriginalID p)) exitDataErr
               else fail (error_text e) exitInternal
    | Ok orig =>
        match resendGuard orig (rp_Force p) with
        | Some reason => go (ResendResult (replayRefusal orig reason) exitUnavailable)
        | None =>
            status <! resolveRecipientStatus systemctl (m_ToAgent orig) ;;
            match status with
            | Err e => fail (error_text e) exitInternal
            | Ok rs =>
                if negb (rs_Registered rs) then fail (gone_text orig) exitUnavailable
                else
                  ins <! insert_message (replay_params orig) ;;
                  match ins with
                  | Err e =>
                      if is_cap_error e then
                        go (ResendResult (mkReplayed (failure None None (refused_id e) (error_text e)) None)
                              exitTempFail)
                      else fail (error_text e) exitInternal
                  | Ok res => go (ResendResult (replayed p orig res rs) exitOK)
                  end
            end
        end
    end.

Definition doResendMCP (p : resendParams) : M (result replay_response) :=
  let fail msg := go (Err (ErrMsg msg)) in
  if str_empty (rp_OriginalID p) then fail "id required"
  else
    o <! store "GetMessage" (fun _ d => (GetMessage (rp_OriginalID p) d, d)) ;;
    match o with
    | Err e => if errors_Is e ErrNotFound then fail (unknown_id_text (rp_OriginalID p)) else go (Err e)
    | Ok orig =>
        match resendGuard orig (rp_Force p) with
        | Some reason => go (Ok (replayRefusal orig reason))
        | None =>
            status <! resolveRecipientStatus systemctl (m_ToAgent orig) ;;
            match status with
            | Err e => go (Err e)
            | Ok rs =>
                if negb (rs_Registered rs) then fail (gone_text orig)
                else
                  ins <! insert_message (replay_params orig) ;;
                  go (match ins with Err e => Err e | Ok res => Ok (replayed p orig res rs) end)
            end
        end
    end.
End Surfaces.
