(* ===== verification/Ping.v ===== *)
(** * Probing an agent (internal/cli/ping.go, state.go, mcp.go)

    The state of an agent's pane as the other processes see it, and the reachability
    probe: a row of its own kind, the wait for its end, and the classification of a
    probe that was not answered.  Both surfaces; flag and JSON decoding are left out. *)

From S2P Require Import Prelude GoStd Clock StoreTypes Messages Queue Queries Agents TmuxIO PaneState Mailman Send Identity.

Open Scope Z_scope.
Open Scope tell_scope.

(** ** Durations as text *)

(** [v] with [prec] decimals, trailing zeros dropped. *)
Definition decimal (v : Z) (prec : nat) : string :=
  let p := 10 ^ Z.of_nat prec in
  let frac := Str.TrimRight (fixed prec (v mod p)) ["0"] in
  Str.itoa (v / p) +:+ (if str_empty frac then EmptyString else "." +:+ frac).

(** [Duration.String]. *)
Definition Duration_String (d : Z) : string :=
  let u := Z.abs d in
  (if d <? 0 then "-" else EmptyString) +:+
  (if u =? 0 then "0s"
   else if u <? 1000 then Str.itoa u +:+ "ns"
   else if u <? Time.Millisecond then decimal u 3 +:+ "µs"
   else if u <? Time.Second then decimal u 6 +:+ "ms"
   else
     (if u <? 60 * Time.Minute then EmptyString else Str.itoa (u / (60 * Time.Minute)) +:+ "h") +:+
     (if u <? Time.Minute then EmptyString else Str.itoa (u / Time.Minute mod 60) +:+ "m") +:+
     decimal (u mod Time.Minute) 9 +:+ "s").

(** ** The state of an agent *)

(** The observation behind a state: a text when the pane was not looked at. *)
Inductive observation : Type :=
  | NotProbed (reason : string)
  | Probed (ev : Evidence).

Record agentStateResult : Type := mkAgentState {
  as_Agent : string;
  as_State : string;
  as_Evidence : observation;
  as_CapturedAt : string;
  as_Metabolism : string;
  as_MetabolismSetAt : string
}.

(** [time.Now().UTC().Format(time.RFC3339)]: whole seconds. *)
Definition nowRFC3339 : M string :=
  now <! lift time_Now ;; go (Str.take 19 (Time.formatISO now) +:+ "Z").

Definition paneProfileForProvider (active : PaneProfile) (p : string) : PaneProfile :=
  if bool_decide (p = "openai") then CodexPaneProfile
  else if bool_decide (p = "anthropic") then ClaudePaneProfile
  else active.

Section Ping.
Context (systemctl : history -> list string -> string) (activePane : PaneProfile) (BinaryName : string).
(** The bound on the polls of a probe. *)
Context (fuel : nat).

Definition not_observed (agent reason met met_at : string) (e : option error)
    : M (agentStateResult * option error) :=
  at_ <! nowRFC3339 ;;
  go (mkAgentState agent (PState_String PUnknown) (NotProbed reason) at_ met met_at, e).

Definition not_registered_text (agent : string) : string := "agent " +:+ Str.Quote agent +:+ " not registered".
Definition no_pane_registered (agent : string) : string := "agent " +:+ Str.Quote agent +:+ " has no pane".
Definition discover_hint : string := " — run '" +:+ BinaryName +:+ " discover'".

Definition resolveAgentState (agent : string) : M (agentStateResult * option error) :=
  r <! store "GetAgent" (fun _ d => (GetAgent agent d, d)) ;;
  match r with
  | Err e =>
      if errors_Is e ErrNotFound then
        not_observed agent (not_registered_text agent +:+ discover_hint) EmptyString EmptyString
          (Some (ErrMsg (not_registered_text agent)))
      else
        not_observed agent ("get_agent error: " +:+ error_text e) EmptyString EmptyString
          (Some (wrap_err "get_agent" e))
  | Ok a =>
      let met := a_metabolism a in
      let met_at := default EmptyString (a_metabolism_set_at a) in
      if str_empty (PaneID a) then
        not_observed agent (no_pane_registered agent +:+ " registered" +:+ discover_hint) met met_at
          (Some (ErrMsg (no_pane_registered agent)))
      else if bool_decide (a_delivery_mode a = DeliveryModeMailboxOnly) then
        at_ <! nowRFC3339 ;;
        go (mkAgentState agent (PState_String PIdle)
              (NotProbed "mailbox-only agent — no chrome to probe; idle by definition") at_ met met_at, None)
      else
        o <! lift (AgentStateWithProfile (PaneID a) (paneProfileForProvider activePane (a_provider a))) ;;
        let '(st, ev, e) := o in
        at_ <! nowRFC3339 ;;
        go (mkAgentState agent (PState_String st) (Probed ev) at_ met met_at,
            match e with Some e => Some (wrap_err "agent_state" e) | None => None end)
  end.

(** The [state] command: what it writes, in its two formats, and the exit code. *)
Inductive state_answer : Type :=
  | StateError (msg : string) (code : Z)
  | StateDone (r : agentStateResult) (code : Z).

Definition runStateWithStore (agent format : string) : M state_answer :=
  r <! resolveAgentState agent ;;
  go (if bool_decide (format ∈ ["json"; "text"; EmptyString])
      then StateDone (fst r) (match snd r with Some _ => exitInternal | None => exitOK end)
      else StateError ("unknown --format: " +:+ format) exitUsage).

Definition mcpAgentState (agent : string) : M (option agentStateResult * option error) :=
  if str_empty agent then go (None, Some (ErrMsg "agent required"))
  else r <! resolveAgentState agent ;; go (Some (fst r), snd r).

(** ** The probe *)

Definition pingBody : string := "ping".
Definition defaultPingTimeout : Z := 5 * Time.Second.

Inductive pingReason : Type :=
  | reasonPaneDead | reasonMailmanDown | reasonStuck | reasonBlockedDelivery | reasonBacklogDraining.

Inductive pingClass : Type := classReachable | classPending | classUnreachable.

#[global] Instance pingClass_eq_dec : EqDecision pingClass.
Proof. solve_decision. Defined.

Record pingEvidence : Type := mkPingEvidence {
  pe_MailmanActive : bool;
  pe_QueueDepth : Z;
  pe_CurrentState : string;
  pe_StuckReason : string
}.

Record pingResult : Type := mkPing {
  pr_OK : bool;
  pr_Agent : string;
  pr_ID : string;
  pr_State : string;
  pr_Class : option pingClass;
  pr_ElapsedMs : Z;
  pr_Reason : option pingReason;
  pr_Evidence : option pingEvidence;
  pr_Error : string
}.

Definition no_ping_sender : string :=
  "cannot resolve sender: set $TMUX_AGENT_NAME, pass --from, or register this pane".

Definition unreachable_recipient (to : string) : string :=
  "unknown recipient: " +:+ to +:+ " (not registered — ping cannot reach an unregistered agent)".

(** No caps: a probe must not be refused because an inbox is full. *)
Definition ping_params (from to : string) : InsertParams :=
  mkParams from to EmptyString pingBody (Some KindPing) false false EmptyString EmptyString EmptyString
    false 0 false 0 0.

Definition insertPing (from to : string) : M (result string) :=
  if str_empty from then go (Err (ErrMsg no_ping_sender))
  else if str_empty to then go (Err (ErrMsg "recipient agent required"))
  else
    a <! store "GetAgent" (fun _ d => (GetAgent to d, d)) ;;
    match a with
    | Err e => go (Err (if errors_Is e ErrNotFound then ErrMsg (unreachable_recipient to) else e))
    | Ok _ =>
        ins <! insert_message (ping_params from to) ;;
        go (match ins with Err e => Err e | Ok res => Ok (ir_PublicID res) end)
    end.

(** [time.Since(start).Milliseconds()]. *)
Definition since_ms (start : Z) : M Z :=
  now <! lift time_Now ;; go (Z.quot (now - start) Time.Millisecond).

Definition terminal_ping (agent id : string) (m : Message) (ms : Z) : pingResult :=
  mkPing (bool_decide (m_State m = StateDelivered)) agent id (State_string (m_State m)) None ms None None
    (default EmptyString (m_Error m)).

Definition unanswered_ping (agent id : string) (ms : Z) (e : string) : pingResult :=
  mkPing false agent id pingStateTimeout None ms None None e.

Definition no_end_text (timeout : Z) : string :=
  "no terminal state within " +:+ Duration_String timeout +:+ " (mailman down, paused, or backlogged?)".

Fixpoint ping_loop (n : nat) (id agent : string) (timeout pollInterval start deadline : Z)
    : M (result pingResult) :=
  match n with
  | O => out_of_fuel
  | S n' =>
      r <! store "GetMessage" (fun _ d => (GetMessage id d, d)) ;;
      match r with
      | Err e => go (Err e)
      | Ok m =>
          if delivery_over m then
            ms <! since_ms start ;; go (Ok (terminal_ping agent id m ms))
          else
            now <! lift time_Now ;;
            if deadline <=? now then
              ms <! since_ms start ;; go (Ok (unanswered_ping agent id ms (no_end_text timeout)))
            else
              e <! lift (wait pollInterval) ;;
              match e with
              | Some e => ms <! since_ms start ;; go (Ok (unanswered_ping agent id ms (error_text e)))
              | None => ping_loop n' id agent timeout pollInterval start deadline
              end
      end
  end.

Definition pollPingTerminal (id agent : string) (timeout pollInterval : Z) : M (result pingResult) :=
  let poll := if pollInterval <=? 0 then pingPollInterval else pollInterval in
  _ <! ask ("WatchOrNil " +:+ agent) (fun _ _ => tt) ;;
  start <! lift time_Now ;;
  ping_loop fuel id agent timeout poll start (start + timeout).

Definition gatherPingEvidence (agent : string) : M pingEvidence :=
  a <! store "GetAgent" (fun _ d => (GetAgent agent d, d)) ;;
  active <! mailmanActive systemctl agent ;;
  depth <! store_read "RecipientQueueDepth" (RecipientQueueDepth agent) ;;
  st <! resolveAgentState agent ;;
  go (mkPingEvidence active (match depth with Ok n => n | Err _ => 0 end) (as_State (fst st))
        (match a with Ok a => a_stuck_reason a | Err _ => EmptyString end)).

Definition classifyPingReason (pingState : string) (ev : pingEvidence) : pingReason :=
  if bool_decide (pingState = State_string StateFailed) then reasonPaneDead
  else if negb (str_empty (pe_StuckReason ev)) then reasonStuck
  else if negb (pe_MailmanActive ev) then reasonMailmanDown
  else if bool_decide (pe_CurrentState ev = PState_String PAwaitingOperator) then reasonBlockedDelivery
  else if 1 <? pe_QueueDepth ev then reasonBacklogDraining
  else reasonBlockedDelivery.

Definition reachabilityClass (res : pingResult) : pingClass :=
  if pr_OK res then classReachable
  else match pr_Reason res with
       | Some reasonBacklogDraining | Some reasonBlockedDelivery => classPending
       | _ => classUnreachable
       end.

Definition set_reason (reason : option pingReason) (ev : option pingEvidence) (res : pingResult) : pingResult :=
  mkPing (pr_OK res) (pr_Agent res) (pr_ID res) (pr_State res) (pr_Class res) (pr_ElapsedMs res) reason ev
    (pr_Error res).

Definition set_class (res : pingResult) : pingResult :=
  mkPing (pr_OK res) (pr_Agent res) (pr_ID res) (pr_State res) (Some (reachabilityClass res))
    (pr_ElapsedMs res) (pr_Reason res) (pr_Evidence res) (pr_Error res).

Definition pingProbe (from to : string) (timeout pollInterval : Z) : M (result pingResult) :=
  id <! insertPing from to ;;
  match id with
  | Err e => go (Err e)
  | Ok id =>
      r <! pollPingTerminal id to timeout pollInterval ;;
      match r with
      | Err e => go (Err e)
      | Ok res =>
          if pr_OK res then go (Ok (set_class res))
          else
            ev <! gatherPingEvidence to ;;
            go (Ok (set_class (set_reason (Some (classifyPingReason (pr_State res) ev)) (Some ev) res)))
      end
  end.

(** ** Answers *)

Definition pingReason_string (r : pingReason) : string :=
  match r with
  | reasonPaneDead => "pane_dead"
  | reasonMailmanDown => "mailman_down"
  | reasonStuck => "stuck"
  | reasonBlockedDelivery => "blocked_delivery"
  | reasonBacklogDraining => "backlog_draining"
  end.

Definition describe (r : pingReason) : string :=
  match r with
  | reasonPaneDead => "recipient pane is gone"
  | reasonMailmanDown => "mailman daemon not running"
  | reasonStuck => "mailman parked in the stuck state"
  | reasonBlockedDelivery => "mailman busy on a prior delivery"
  | reasonBacklogDraining => "mailman is working through a backlog"
  end.

Definition hint (c : pingClass) : string :=
  match c with
  | classPending => "retry or wait, the mailman is working"
  | classUnreachable => "won't clear on its own, operator action needed"
  | classReachable => EmptyString
  end.

Definition pingReasonSuffix (r : pingReason) (ev : option pingEvidence) : string :=
  pingReason_string r +:+ ": " +:+ describe r +:+
  match ev with
  | None => EmptyString
  | Some ev =>
      "; queue=" +:+ Str.itoa (pe_QueueDepth ev) +:+ ", state=" +:+ pe_CurrentState ev +:+
      (if str_empty (pe_StuckReason ev) then EmptyString else ", stuck=" +:+ pe_StuckReason ev)
  end.

(** The line that carries the verdict. *)
Definition ping_headline (res : pingResult) : string :=
  if pr_OK res then pr_State res +:+ " (REACHABLE)"
  else
    match pr_Class res, pr_Reason res with
    | Some classPending, r =>
        pr_State res +:+ " — PENDING (" +:+
          match r with Some r => pingReasonSuffix r (pr_Evidence res) | None => EmptyString end
          +:+ ") — " +:+ hint classPending
    | _, Some r =>
        pr_State res +:+ " — UNREACHABLE (" +:+ pingReasonSuffix r (pr_Evidence res) +:+ ") — "
          +:+ hint classUnreachable
    | _, None => pr_State res +:+ " (UNREACHABLE) — " +:+ hint classUnreachable
    end.

Definition tab_line (key value : string) : string :=
  key +:+ Str.of_bytes [9%nat] +:+ value +:+ Str.of_bytes [10%nat].

(** [renderPingResult] in its text format. *)
Definition renderPingResult (res : pingResult) : string :=
  tab_line "AGENT" (pr_Agent res) +:+ tab_line "PING" (ping_headline res) +:+
  tab_line "ELAPSED" (Str.itoa (pr_ElapsedMs res) +:+ "ms") +:+ tab_line "ID" (pr_ID res) +:+
  (if str_empty (pr_Error res) then EmptyString else tab_line "ERROR" (pr_Error res)).

Definition pingExitCode (res : pingResult) : Z :=
  match pr_Class res with
  | Some classReachable => exitOK
  | Some classPending => exitTempFail
  | _ => exitUnavailable
  end.

Inductive ping_answer : Type :=
  | PingError (msg : string) (code : Z)
  | PingJSON (r : pingResult) (code : Z)
  | PingText (text : string) (code : Z).

Definition runPingWithStore (from to : string) (timeout : Z) (format : string) : M ping_answer :=
  if negb (bool_decide (format ∈ [EmptyString; "text"; "json"])) then
    go (PingError ("unknown --format: " +:+ format) exitUsage)
  else
    r <! pingProbe from to timeout pingPollInterval ;;
    go (match r with
        | Err e => PingError (error_text e) exitUnavailable
        | Ok res => if bool_decide (format = "json") then PingJSON res (pingExitCode res)
                    else PingText (renderPingResult res) (pingExitCode res)
        end).

Definition pingSandboxMsg (e : error) : string :=
  if Str.Contains (error_text e) "readonly database" then
    "ping requires write access to the bus database, but the store is read-only (likely cause: sandbox FS scope excludes writes to the shared bus DB). Remedies: (1) use the tmux-tell.ping MCP tool — the persistent MCP process runs outside the sandbox and has write access; (2) run ping outside the sandbox with a direct path to the writable bus DB (--db <path>)."
  else "open store: " +:+ error_text e.

Section Surfaces.
Context (getenv : string -> string) (getppid : Z) (environ stat : Z -> option string).

(** The arguments left over and the flags as parsed; [opened] is the error of opening
    the database. *)
Definition runPingCLI (opened : option error) (args : list string) (from : string) (timeout : Z)
    (format : string) : M ping_answer :=
  match args with
  | [to] =>
      match opened with
      | Some e => go (PingError (pingSandboxMsg e) exitInternal)
      | None =>
          who <! ResolveIdentity getenv from ;;
          match who with
          | Err e => go (PingError (error_text e) exitInternal)
          | Ok (name, _) => runPingWithStore name to timeout format
          end
      end
  | _ => go (PingError ("usage: " +:+ BinaryName +:+ " ping <agent> [--timeout D] [--format text|json]") exitUsage)
  end.

(** [seconds] is the timeout of the call when it is positive, in nanoseconds. *)
Definition mcpPing (injected agent : string) (seconds : option Z) : M (result pingResult) :=
  if str_empty agent then go (Err (ErrMsg "agent required"))
  else
    who <! resolveMCPIdentity getenv getppid environ stat BinaryName injected ;;
    match who with
    | Err e => go (Err e)
    | Ok from => pingProbe from agent (default defaultPingTimeout seconds) pingPollInterval
    end.
End Surfaces.
End Ping.
