(* ===== verification/RequestProps.v ===== *)
(** * What waiting and resending promise

    A wait for a reply ends, and what it answers is what the store held when it last
    looked; a replay writes one copy of a message that may be replayed, or nothing,
    on both surfaces; and what an ask costs. *)

From S2P Require Import Prelude GoStd StoreTypes Priority Messages Queue QueueProps Queries Lifecycle Invariants Agents ThreadProps Budget BudgetProps TmuxIO ObserveGate Mailman Serve ServeDemo RespawnProps Runs Identity Send SendDemo SendProps Control Requests.

Open Scope Z_scope.
Open Scope tell_scope.

(** ** Looks and writes *)

(** A look at a message by its id, and an insert, with what they returned. *)
Inductive request_op : Type :=
  | Looked (id : string) (r : result Message)
  | Posted (q : InsertParams) (r : result InsertResult).

Definition request_perform (op : request_op) (d d' : DB) : Prop :=
  match op with
  | Looked id r => r = GetMessage id d /\ d' = d
  | Posted q r => exists rnd rndR now, InsertMessage q rnd rndR now d = (r, d')
  end.

Lemma runs_look sw id :
  runs request_perform sw (store "GetMessage" (fun _ d => (GetMessage id d, d)))
    (fun r ops => ops = [Looked id r] \/ (ops = [] /\ is_ok r = false)).
Proof.
  apply runs_write; [|by right]. intros h now d r d' [= <- <-]. exists (Looked id (GetMessage id d)).
  split; [done|by left].
Qed.

Lemma runs_inserted sw q :
  runs request_perform sw (insert_message q)
    (fun r ops => ops = [Posted q r] \/ (ops = [] /\ is_ok r = false)).
Proof.
  apply runs_write; [|by right]. intros h now d r d' E. exists (Posted q r). split; [|by left]. simpl. eauto.
Qed.

Lemma silent_recipient {Op} (perform : Op -> DB -> DB -> Prop) sw systemctl agent :
  silent perform sw (resolveRecipientStatus systemctl agent).
Proof. unfold resolveRecipientStatus, mailmanActive. silent_tac. Qed.

#[export] Hint Resolve silent_recipient : outcomedb.

(** ** Replies *)

(** [m] answers the ask of [caller]. *)
Definition answers_ask (caller askID : string) (m : Message) : bool :=
  bool_decide (m_ToAgent m = CanonicalName caller) && bool_decide (m_ReplyTo m = Some askID) &&
  negb (bool_decide (m_State m = StateDeferred)).

(** The oldest answer of the store. *)
Definition first_answer (caller askID : string) (d : DB) (m : Message) : Prop :=
  exists l1 l2, db_messages d = l1 ++ m :: l2 /\ answers_ask caller askID m = true /\
    forall x, x ∈ l1 -> answers_ask caller askID x = false.

Lemma all_replies_answers caller askID d :
  CanonicalName caller <> EmptyString -> askID <> EmptyString ->
  all_replies caller askID d = sql_where (answers_ask caller askID) (db_messages d).
Proof.
  intros Hc Ha. unfold all_replies. apply sql_where_ext. intros m _. unfold list_where, answers_ask, canonical_filter, reply_filter. cbn [f_ToAgent f_FromAgent f_ReplyTo f_State f_Kind f_SinceCreatedAt f_Unverified f_Unanswered f_AwaitingReply f_Deferred].
  change (CanonicalName EmptyString) with EmptyString.
  rewrite (bool_decide_false (CanonicalName caller = EmptyString)), (bool_decide_false (askID = EmptyString)) by done.
  rewrite (bool_decide_true (EmptyString = EmptyString)) by done. simpl. by rewrite !andb_true_r.
Qed.

Lemma head_where {A} (p : A -> bool) l :
  match head (sql_where p l) with
  | Some m => exists l1 l2, l = l1 ++ m :: l2 /\ p m = true /\ forall x, x ∈ l1 -> p x = false
  | None => forall x, x ∈ l -> p x = false
  end.
Proof.
  induction l as [|a l IH]; simpl; [by intros x ?%elem_of_nil|]. destruct (p a) eqn:E; simpl.
  - exists [], l. split; [done|]. split; [done|]. by intros x ?%elem_of_nil.
  - destruct (head (sql_where p l)) as [m|].
    + destruct IH as (l1 & l2 & -> & Hm & H1). exists (a :: l1), l2. split; [done|]. split; [done|].
      by intros x [->|Hx]%elem_of_cons; auto.
    + by intros x [->|Hx]%elem_of_cons; auto.
Qed.

Lemma FindReply_first caller askID d :
  CanonicalName caller <> EmptyString -> askID <> EmptyString ->
  exists r, FindReply caller askID 0 d = Ok r /\
    match r with
    | Some m => exists m0, first_answer caller askID d m0 /\ viewReply m = viewReply m0
    | None => forall m, m ∈ db_messages d -> answers_ask caller askID m = false
    end.
Proof.
  intros Hc Ha. unfold FindReply. rewrite ListReplies_eq, all_replies_answers by done. simpl. eexists. split; [done|].
  pose proof (head_where (answers_ask caller askID) (db_messages d)) as H.
  destruct (sql_where _ _) as [|m l]; simpl in *; [done|]. exists m. by split.
Qed.

(** How a wait ends. *)
Inductive wait_end (sw : SWorld) (caller askID : string) (deadline : Z) (st' : sstate) : result Message -> Prop :=
  | we_reply m m0 :
      first_answer caller askID (s_db st') m0 -> viewReply m = viewReply m0 ->
      wait_end sw caller askID deadline st' (Ok m)
  | we_fault e : sw_fault sw (s_hist st') = Some e -> wait_end sw caller askID deadline st' (Err e)
  | we_late c h :
      s_hist st' = EvSleep defaultReplyPollInterval :: h ->
      (forall m, m ∈ db_messages (s_db st') -> answers_ask caller askID m = false) ->
      w_ctx (sw_io sw) (s_hist st') = Some c \/ deadline <= w_clock (sw_io sw) (s_hist st') ->
      wait_end sw caller askID deadline st' (Err (context_error c)).

Section Waiting.
Context (sw : SWorld) (caller askID : string) (deadline : Z).
Hypothesis Hclock : steady_clock (sw_io sw).
Hypothesis Hcaller : CanonicalName caller <> EmptyString.
Hypothesis Hask : askID <> EmptyString.

Local Notation poll := defaultReplyPollInterval.

Lemma reply_loop_end : forall n st,
  deadline - w_clock (sw_io sw) (s_hist st) + poll <= Z.of_nat n * poll -> (1 <= n)%nat ->
  exists r st', reply_loop n caller askID 0 poll deadline sw st = (Go r, st') /\
    interleaved request_perform sw (s_db st) [] (s_db st') /\ wait_end sw caller askID deadline st' r.
Proof.
  assert (0 < poll) as Hp by done.
  induction n as [|n IH]; intros st Hn H1; [lia|]. simpl reply_loop. unfold andthen at 1, store at 1, access at 1.
  set (h := EvCall "FindReply" :: s_hist st). set (d := sw_others sw h (s_db st)).
  assert (interleaved request_perform sw (s_db st) [] d) as Hd by (eapply il_others; constructor).
  pose proof (sc_mono _ Hclock (EvCall "FindReply") (s_hist st)) as Hc1. fold h in Hc1.
  destruct (sw_fault sw h) as [e|] eqn:Ef.
  { do 2 eexists. split; [done|]. split; [done|]. by apply we_fault. }
  destruct (FindReply_first caller askID d Hcaller Hask) as (r & E & Hr). rewrite E. destruct r as [m|].
  { destruct Hr as (m0 & Hm & Hv). do 2 eexists. split; [done|]. split; [done|]. by eapply we_reply. }
  unfold andthen at 1, lift at 1, until, wait, bind, emit, ctx_Err, deadline_ctx. cbv beta iota. cbn [with_ctx w_ctx w_clock s_hist s_db].
  pose proof (sc_sleep _ Hclock poll h) as Hc2. set (h2 := EvSleep poll :: h) in *.
  destruct (w_ctx (sw_io sw) h2) as [c|] eqn:Ex.
  { do 2 eexists. split; [done|]. split; [done|]. eapply we_late; [done|done|by left]. }
  destruct (Z.leb_spec deadline (w_clock (sw_io sw) h2)) as [Hl|Hl].
  { do 2 eexists. split; [done|]. split; [done|]. eapply we_late; [done|done|by right]. }
  destruct (IH (mkS d (s_vars st) h2)) as (r & st' & E' & Hi & He); [simpl; lia|destruct n; simpl in *; lia|].
  exists r, st'. split; [done|]. split; [|done]. by eapply (interleaved_app _ _ _ [] _ []).
Qed.
End Waiting.

(** Polls enough for a wait. *)
Definition reply_polls (timeout : Z) : nat := Z.to_nat (Z.max 0 timeout / defaultReplyPollInterval + 2).

Definition waited (sw : SWorld) (caller askID : string) (deadline : Z) (r : waitForReplyResult) (st' : sstate) : Prop :=
  match wr_Reply r with
  | Some v =>
      wr_OK r = true /\ wr_TimedOut r = false /\ exists m, first_answer caller askID (s_db st') m /\ v = viewReply m
  | None =>
      wr_TimedOut r = wr_OK r /\
      ((exists e, sw_fault sw (s_hist st') = Some e /\ wr_OK r = is_ctx_error e) \/
       (exists h, s_hist st' = EvSleep defaultReplyPollInterval :: h /\ wr_OK r = true /\
          (forall m, m ∈ db_messages (s_db st') -> answers_ask caller askID m = false) /\
          (is_Some (w_ctx (sw_io sw) (s_hist st')) \/ deadline <= w_clock (sw_io sw) (s_hist st'))))
  end.

(** C15: the blocking wait.  With enough polls for the timeout and a clock that honours
    sleeps, waiting for a reply always ends and writes nothing.  A reply it returns is
    the oldest row of the store, as it stood at the last look, that is addressed to
    the caller under that ask; it reports a timeout only when that last look found
    none and one poll interval later the deadline had passed or the caller had been
    cancelled; and anything else is a failure of the store, reported as such. *)
Theorem wait_for_reply_correct sw fuel caller askID timeout st :
  steady_clock (sw_io sw) -> CanonicalName caller <> EmptyString -> askID <> EmptyString ->
  (reply_polls timeout <= fuel)%nat ->
  exists r st', doWaitForReply fuel caller askID timeout sw st = (Go r, st') /\
    interleaved request_perform sw (s_db st) [] (s_db st') /\ wr_AskID r = askID /\
    waited sw caller askID (w_clock (sw_io sw) (EvNow :: s_hist st) + timeout) r st'.
Proof.
  intros Hw Hc Ha Hf. unfold doWaitForReply, WaitForReply. unfold andthen at 1, lift at 1, time_Now.
  set (start := w_clock (sw_io sw) (EvNow :: s_hist st)). set (h1 := EvNow :: s_hist st).
  unfold andthen at 1. unfold andthen at 1, ask at 1. cbn [s_db s_vars s_hist].
  change (if 0 <=? 0 then defaultReplyPollInterval else 0) with defaultReplyPollInterval.
  set (h2 := EvCall _ :: h1). set (st1 := mkS (s_db st) (s_vars st) h2).
  pose proof (sc_mono _ Hw (EvCall ("watchKey " +:+ caller)) h1) as Hm. fold h2 start in Hm.
  destruct (reply_loop_end sw caller askID (start + timeout) Hw Hc Ha fuel st1) as (r & st' & E & Hi & He).
  - subst st1. simpl s_hist. unfold reply_polls in Hf. set (p := defaultReplyPollInterval) in *.
    assert (0 < p) by done. pose proof (Z.div_mod (Z.max 0 timeout) p ltac:(done)).
    pose proof (Z.mod_pos_bound (Z.max 0 timeout) p ltac:(done)). change (w_clock (sw_io sw) h1) with start in Hm. nia.
  - unfold reply_polls in Hf. pose proof (Z.div_pos (Z.max 0 timeout) defaultReplyPollInterval ltac:(lia) ltac:(done)). lia.
  - rewrite E. destruct He as [m m0 Hm0 Hv|e Hfa|c h Hh Hno Hl].
    + eexists _, st'. split; [done|]. split; [done|]. split; [done|]. simpl. split; [done|]. split; [done|]. by exists m0.
    + destruct (is_ctx_error e) eqn:Ee; eexists _, st'; (split; [done|]); (split; [done|]); (split; [done|]);
        (split; [done|]); left; by exists e.
    + assert (is_ctx_error (context_error c) = true) as -> by (by destruct c).
      eexists _, st'. split; [done|]. split; [done|]. split; [done|]. split; [done|]. right. exists h.
      split_and!; try done. destruct Hl; [left; by eexists|by right].
Qed.

(** ** Replays *)

(** A message that may be replayed: one that failed, one whose delivery was never
    confirmed, or any under force. *)
Definition may_replay (force : bool) (m : Message) : Prop :=
  force = true \/ m_State m = StateFailed \/ (m_State m = StateDelivered /\ m_Verified m = Some 0).

Lemma resendGuard_None orig force : resendGuard orig force = None <-> may_replay force orig.
Proof.
  unfold resendGuard, may_replay, isDeliveredUnverified. destruct force; [naive_solver|].
  destruct (m_State orig); simpl; try naive_solver. case_bool_decide; naive_solver.
Qed.

Definition resend_fails (a : resend_answer) : Prop :=
  match a with
  | ResendError _ code => code <> exitOK
  | ResendResult r code => sn_OK (rr_Response r) = false /\ code <> exitOK
  end.

(** [d'] is [d] with one more row, a queued copy of [orig] that says what it replays. *)
Definition copied (orig : Message) (id : string) (d d' : DB) : Prop :=
  exists row, db_messages d' = db_messages d ++ [row] /\ m_PublicID row = id /\ m_State row = StateQueued /\
    m_Body row = m_Body orig /\ m_FromAgent row = CanonicalName (m_FromAgent orig) /\
    m_ToAgent row = CanonicalName (m_ToAgent orig) /\
    default EmptyString (m_ReplyTo row) = default EmptyString (m_ReplyTo orig) /\
    default EmptyString (m_ReplayOf row) = m_PublicID orig /\
    default EmptyString (m_ReplayOfAt row) = m_CreatedAt orig /\
    m_NoReplyExpected row = m_NoReplyExpected orig /\ m_Quick row = m_Quick orig.

Lemma default_null s : default EmptyString (null_if_empty s) = s.
Proof. unfold null_if_empty. case_bool_decide; by subst. Qed.

Lemma replay_copies orig res d d' :
  request_perform (Posted (replay_params orig) (Ok res)) d d' -> copied orig (ir_PublicID res) d d'.
Proof.
  intros (rnd & rndR & now & E). pose proof (InsertMessage_outcome (replay_params orig) rnd rndR now d) as H. rewrite E in H.
  destruct H as [H _]. cbv zeta in H. eexists. split; [exact H|]. unfold replay_params, effective_params. simpl.
  rewrite !default_null. done.
Qed.

Lemma replay_refused orig e d d' to :
  request_perform (Posted (replay_params orig) (Err e)) d d' -> queue_depth to d' = queue_depth to d.
Proof.
  intros (rnd & rndR & now & E). pose proof (InsertMessage_outcome (replay_params orig) rnd rndR now d) as H. rewrite E in H.
  by destruct H as [H _].
Qed.

(** What a resend did and said. *)
Definition resend_spec (p : resendParams) (a : resend_answer) (ops : list request_op) : Prop :=
  (resend_fails a /\ forall q r, Posted q r ∉ ops) \/
  exists orig r, ops = [Looked (rp_OriginalID p) (Ok orig); Posted (replay_params orig) r] /\
    may_replay (rp_Force p) orig /\
    match r with
    | Ok res => exists rs, rs_Registered rs = true /\ a = ResendResult (replayed p orig res rs) exitOK
    | Err _ => resend_fails a
    end.

Lemma resend_nothing p msg code r : code <> exitOK -> resend_spec p (ResendError msg code) [Looked (rp_OriginalID p) r].
Proof. left. split; [done|]. by intros q r' ?%list_elem_of_singleton. Qed.

Lemma runs_resend systemctl BinaryName sw p :
  runs request_perform sw (runResendWithStore systemctl BinaryName p) (resend_spec p).
Proof.
  assert (forall msg code, code <> exitOK -> resend_spec p (ResendError msg code) []) as H0.
  { left. split; [done|]. by intros q r ?%elem_of_nil. }
  unfold runResendWithStore. cbv zeta. destruct (str_empty _); [apply runs_go; by apply H0|].
  eapply runs_bind; [apply runs_look|]. intros [orig|e] ops Ho; cbv beta.
  2:{ assert (ops = [Looked (rp_OriginalID p) (Err e)] \/ ops = []) as [-> | ->] by naive_solver;
      destruct (errors_Is e ErrNotFound); apply runs_go; rewrite ?app_nil_r; first [by apply resend_nothing|by apply H0]. }
  destruct Ho as [->|[_ Ho]]; [|done]. destruct (resendGuard orig (rp_Force p)) as [reason|] eqn:Eg.
  { apply runs_go. left. split; [done|]. by intros q r ?%list_elem_of_singleton. }
  apply resendGuard_None in Eg. apply runs_silent; [auto with outcomedb|]. intros [rs|e]; [|apply runs_go; by apply resend_nothing].
  destruct (rs_Registered rs) eqn:Er; simpl negb; cbv iota; [|apply runs_go; by apply resend_nothing].
  eapply runs_bind; [apply runs_inserted|]. intros [res|e] ops Ho.
  - destruct Ho as [->|[_ Ho]]; [|done]. apply runs_go. right. exists orig, (Ok res). split; [done|]. split; [done|]. by exists rs.
  - destruct Ho as [->|[-> _]].
    + destruct (is_cap_error e); apply runs_go; right; exists orig, (Err e); split; try done; by split.
    + destruct (is_cap_error e); apply runs_go; left; (split; [done|]); by intros q r ?%list_elem_of_singleton.
Qed.

(** The answers of the two surfaces to one resend. *)
Definition resend_agrees (a : resend_answer) (b : result replay_response) : Prop :=
  match a, b with
  | ResendResult r _, Ok r' => r = r'
  | ResendResult r _, Err e => sn_OK (rr_Response r) = false /\ sn_Error (rr_Response r) = error_text e
  | ResendError msg _, Err e => msg = error_text e
  | ResendError _ _, Ok _ => False
  end.

Lemma resend_same systemctl BinaryName sw p :
  rp_OriginalID p <> EmptyString ->
  same sw (runResendWithStore systemctl BinaryName p) (doResendMCP systemctl p) resend_agrees.
Proof.
  intros Hid. unfold runResendWithStore, doResendMCP. cbv zeta. rewrite (bool_decide_false (rp_OriginalID p = _)) by done.
  apply same_first; [apply plain_store|]. intros [orig|e].
  2:{ destruct (errors_Is e ErrNotFound); by apply same_go. }
  destruct (resendGuard _ _); [by apply same_go|]. apply same_first; [apply plain_status|].
  intros [rs|e]; [|by apply same_go]. destruct (rs_Registered rs); simpl negb; cbv iota; [|by apply same_go].
  apply same_first; [apply plain_access|]. intros [res|e]; [by apply same_go|].
  destruct (is_cap_error e); by apply same_go.
Qed.

(** C16: replaying a message.  A resend always answers, and on the command line and over
    MCP it does the same to the store and says the same.  It inserts nothing and
    reports a failure, or it looked the message up, the message failed or was never
    confirmed or force was given, its recipient is registered, and exactly one row was
    inserted: if the caps admit it, a queued copy with the same letter and the same
    body that names the message and the time it replays; otherwise no queue grew. *)
Theorem resend_outcome systemctl BinaryName sw p :
  rp_OriginalID p <> EmptyString ->
  runs request_perform sw (runResendWithStore systemctl BinaryName p) (resend_spec p) /\
  same sw (runResendWithStore systemctl BinaryName p) (doResendMCP systemctl p) resend_agrees /\
  forall orig r d d', request_perform (Posted (replay_params orig) r) d d' ->
    match r with
    | Ok res => copied orig (ir_PublicID res) d d'
    | Err _ => forall to, queue_depth to d' = queue_depth to d
    end.
Proof.
  intros Hid. split; [apply runs_resend|]. split; [by apply resend_same|].
  intros orig [res|e] d d' H; [by apply replay_copies|]. intros to. by eapply replay_refused.
Qed.

(** ** Concrete runs *)

(** A bus with an ask of alice, an answer of bob that was refused admission, and a
    control row that failed. *)
Definition ask_row : Message :=
  mkMessage 1 "a1" "alice" "bob" None "when?" KindMessage false false StateDelivered t0 (Some t0) None None None
    None (Some 1) true 20 false.
Definition refused_reply : Message :=
  mkMessage 2 "b1" "bob" "alice" (Some "a1") "now" KindMessage false false StateRefused t0 None None None None
    None None false 20 false.
Definition failed_control : Message :=
  mkMessage 3 "c1" "alice" "bob" None "/clear" KindControl false false StateFailed t0 None None None None
    None None false 20 false.

Definition asked_db (rows : list Message) : DB :=
  mkDB rows (Z.of_nat (length rows)) (db_agents bus_db) (db_budgets bus_db) (db_presence bus_db) [].
Definition asked_start (rows : list Message) : sstate := mkS (asked_db rows) (initial_vars demo_opts) [].

Definition demo_wait (rows : list Message) : flow waitForReplyResult * sstate :=
  doWaitForReply 12 "alice" "a1" (1500 * Time.Millisecond) bus (asked_start rows).

Lemma wait_for_reply_correct_witness :
  (exists r st', demo_wait [ask_row] = (Go r, st') /\
     waited bus "alice" "a1" (w_clock (sw_io bus) [EvNow] + 1500 * Time.Millisecond) r st') /\
  fst (demo_wait [ask_row]) = Go (mkWait true "a1" None true EmptyString).
Proof.
  split; [|vm_compute; reflexivity].
  destruct (wait_for_reply_correct bus 12 "alice" "a1" (1500 * Time.Millisecond) (asked_start [ask_row]))
    as (r & st' & E & _ & _ & H); [exact ticking_steady|done|done|vm_compute; lia|].
  exists r, st'. split; [exact E|exact H].
Defined.

(** The answer that was refused admission, so that its sender was told it did not go
    out, is returned to the one who waits for it. *)
Lemma refused_reply_answers_ask :
  fst (demo_wait [ask_row; refused_reply]) =
    Go (mkWait true "a1" (Some (mkReply "b1" "bob" "now" "refused" false t0)) false EmptyString).
Proof. vm_compute. reflexivity. Qed.

Definition demo_resend (id : string) (force : bool) : flow resend_answer * sstate :=
  runResendWithStore no_systemctl "tmux-tell-claude" (mkResend id force) bus
    (asked_start [ask_row; refused_reply; failed_control]).

Definition exit_of (a : flow resend_answer) : option Z :=
  match a with Go (ResendError _ code) | Go (ResendResult _ code) => Some code | _ => None end.

Lemma resend_outcome_witness :
  same bus (runResendWithStore no_systemctl "tmux-tell-claude" (mkResend "a1" false))
    (doResendMCP no_systemctl (mkResend "a1" false)) resend_agrees /\
  exit_of (fst (demo_resend "a1" false)) = Some exitUnavailable /\
  exit_of (fst (demo_resend "a1" true)) = Some exitOK.
Proof.
  split; [|split; vm_compute; reflexivity].
  apply (resend_outcome no_systemctl "tmux-tell-claude" bus (mkResend "a1" false)). done.
Defined.

(** A replayed control command is queued as a message: the slash-command is not
    typed but delivered as mail. *)
Lemma resend_drops_kind :
  map (fun m => (m_ID m, m_Kind m, m_Body m)) (db_messages (s_db (snd (demo_resend "c1" false)))) =
    [(1, KindMessage, "when?"); (2, KindMessage, "now"); (3, KindControl, "/clear"); (4, KindMessage, "/clear")].
Proof. vm_compute. reflexivity. Qed.

(** An ask is a send that nobody pays for: the sender has no budget row after it,
    and has one after the same send. *)
Lemma asks_are_free :
  db_budgets (s_db (snd (runAskCLI square no_systemctl no_clients 102 (fun _ => EmptyString) "alice" "bob"
                           EmptyString "hello" [] bus bus_start))) !! "alice" = None /\
  rows_of (runAskCLI square no_systemctl no_clients 102 (fun _ => EmptyString) "alice" "bob"
             EmptyString "hello" [] bus bus_start) = [("bob", StateQueued, 20)] /\
  is_Some (db_budgets (s_db (snd (demo_cli ["bob"] EmptyString 0))) !! "alice").
Proof. split; [vm_compute; reflexivity|]. split; [vm_compute; reflexivity|]. eexists. vm_compute. reflexivity. Qed.
