(* ===== verification/PingProps.v ===== *)
(** * What a probe tells

    A probe always ends; it inserts one row of its own kind and only looks at it
    afterwards; its verdict, its exit code and its advice follow from the last look
    and the evidence; and what the state command can never report. *)

From S2P Require Import Prelude GoStd Clock StoreTypes Priority Messages Queue QueueProps Queries Agents TmuxIO PaneState ObserveGate Mailman Serve ServeDemo RespawnProps Runs Identity Send SendDemo Requests RequestProps Ping.

Open Scope Z_scope.
Open Scope tell_scope.

Section Probe.
Context (systemctl : history -> list string -> string) (activePane : PaneProfile) (BinaryName : string).
Context (fuel : nat) (sw : SWorld).
Context (Hclock : steady_clock (sw_io sw)).

Local Notation runs := (runs request_perform sw).
Local Notation silent := (silent request_perform sw).

(** ** Looking at the row *)

(** The looks at the probe's row and what they make the poll report. *)
Inductive looks (agent id : string) : result pingResult -> list request_op -> Prop :=
  | lk_fault e : looks agent id (Err e) []
  | lk_gone e : looks agent id (Err e) [Looked id (Err e)]
  | lk_over m ms : delivery_over m = true -> looks agent id (Ok (terminal_ping agent id m ms)) [Looked id (Ok m)]
  | lk_late m ms text :
      delivery_over m = false -> looks agent id (Ok (unanswered_ping agent id ms text)) [Looked id (Ok m)]
  | lk_again m r ops : delivery_over m = false -> looks agent id r ops -> looks agent id r (Looked id (Ok m) :: ops).

Lemma ping_loop_end id agent timeout start deadline :
  forall n st, deadline - w_clock (sw_io sw) (s_hist st) + pingPollInterval <= Z.of_nat n * pingPollInterval ->
  (1 <= n)%nat ->
  exists r st' ops, ping_loop n id agent timeout pingPollInterval start deadline sw st = (Go r, st') /\
    interleaved request_perform sw (s_db st) ops (s_db st') /\ looks agent id r ops.
Proof.
  assert (0 < pingPollInterval) as Hp by done.
  induction n as [|n IH]; intros st Hn H1; [lia|]. simpl ping_loop. unfold andthen at 1, store at 1, access at 1.
  set (h := EvCall "GetMessage" :: s_hist st). set (d := sw_others sw h (s_db st)).
  assert (interleaved request_perform sw (s_db st) [] d) as Hd by (eapply il_others; constructor).
  assert (interleaved request_perform sw (s_db st) [Looked id (GetMessage id d)] d) as Hl
    by (eapply il_others, il_own; [by split|constructor]).
  pose proof (sc_mono _ Hclock (EvCall "GetMessage") (s_hist st)) as Hc1. fold h in Hc1.
  destruct (sw_fault sw h) as [e|]; [do 3 eexists; split_and!; [done|exact Hd|apply lk_fault]|].
  destruct (GetMessage id d) as [m|e] eqn:Em; [|do 3 eexists; split_and!; [done|exact Hl|apply lk_gone]].
  destruct (delivery_over m) eqn:Eo; [do 3 eexists; split_and!; [done|exact Hl|by apply lk_over]|].
  unfold andthen at 1, lift at 1, time_Now at 1. cbv beta iota. cbn [s_db s_vars s_hist].
  pose proof (sc_mono _ Hclock EvNow h) as Hc2. set (h2 := EvNow :: h) in *.
  destruct (Z.leb_spec deadline (w_clock (sw_io sw) h2)) as [Hdl|Hdl];
    [do 3 eexists; split_and!; [done|exact Hl|by apply lk_late]|].
  unfold andthen at 1, lift at 1, wait, bind, emit, ctx_Err. cbv beta iota. cbn [s_db s_vars s_hist].
  pose proof (sc_sleep _ Hclock pingPollInterval h2) as Hc3. set (h3 := EvSleep _ :: h2) in *.
  destruct (w_ctx (sw_io sw) h3); [do 3 eexists; split_and!; [done|exact Hl|by apply lk_late]|].
  destruct (IH (mkS d (s_vars st) h3)) as (r & st' & ops & E & Hi & Hr); [simpl; lia|destruct n; simpl in *; lia|].
  exists r, st', (Looked id (Ok m) :: ops). split; [done|]. split; [|by apply lk_again].
  by eapply (interleaved_app _ _ _ [_] _ ops).
Qed.

(** Polls enough for a probe. *)
Definition ping_polls (timeout : Z) : nat := Z.to_nat (Z.max 0 timeout / pingPollInterval + 2).

Lemma runs_poll id agent timeout :
  (ping_polls timeout <= fuel)%nat ->
  runs (pollPingTerminal fuel id agent timeout pingPollInterval) (looks agent id).
Proof.
  intros Hf. unfold pollPingTerminal. apply runs_silent; [apply silent_ask|intros _]. intros st.
  unfold andthen, lift, time_Now. set (st1 := mkS _ _ _). set (start := w_clock (sw_io sw) (EvNow :: s_hist st)).
  change (if pingPollInterval <=? 0 then pingPollInterval else pingPollInterval) with pingPollInterval.
  apply (ping_loop_end id agent timeout start (start + timeout) fuel st1).
  - subst st1. simpl. fold start. unfold ping_polls in Hf. set (p := pingPollInterval) in *. assert (0 < p) by done.
    pose proof (Z.div_mod (Z.max 0 timeout) p ltac:(done)). pose proof (Z.mod_pos_bound (Z.max 0 timeout) p ltac:(done)). nia.
  - unfold ping_polls in Hf. pose proof (Z.div_pos (Z.max 0 timeout) pingPollInterval ltac:(lia) ltac:(done)). lia.
Qed.

(** ** The evidence *)

Lemma silent_state agent : silent (resolveAgentState activePane BinaryName agent).
Proof. unfold resolveAgentState, not_observed, nowRFC3339. silent_tac. Qed.
Hint Resolve silent_state : outcomedb.

Lemma silent_gather agent : silent (gatherPingEvidence systemctl activePane BinaryName agent).
Proof. unfold gatherPingEvidence, mailmanActive. silent_tac. Qed.

(** ** The verdict *)

(** The agent is reachable when the row was delivered; the bus is at work on it when
    nothing came back in time although the mailman runs and is not parked. *)
Definition verdict (res : pingResult) : Prop :=
  (pr_Class res = Some classReachable <-> pr_OK res = true) /\
  (pr_Class res = Some classPending <->
     pr_OK res = false /\ pr_State res <> State_string StateFailed /\
     exists ev, pr_Evidence res = Some ev /\ pe_StuckReason ev = EmptyString /\ pe_MailmanActive ev = true) /\
  (pr_OK res = false -> exists ev r, pr_Evidence res = Some ev /\ pr_Reason res = Some r /\
     (r = reasonPaneDead <-> pr_State res = State_string StateFailed)) /\
  pingExitCode res = (if pr_OK res then exitOK
                      else if bool_decide (pr_Class res = Some classPending) then exitTempFail else exitUnavailable).

Lemma verdict_reached res : pr_OK res = true -> verdict (set_class res).
Proof.
  intros H. unfold verdict, pingExitCode, set_class, reachabilityClass. simpl. rewrite H. simpl.
  split; [done|]. split; [|done]. split; [done|]. by intros [? _].
Qed.

Lemma classify_pending st ev :
  match classifyPingReason st ev with
  | reasonBacklogDraining | reasonBlockedDelivery =>
      st <> State_string StateFailed /\ pe_StuckReason ev = EmptyString /\ pe_MailmanActive ev = true
  | reasonPaneDead => st = State_string StateFailed
  | reasonStuck => st <> State_string StateFailed /\ pe_StuckReason ev <> EmptyString
  | reasonMailmanDown => st <> State_string StateFailed /\ pe_MailmanActive ev = false
  end.
Proof.
  unfold classifyPingReason. case_bool_decide as Hf; [done|]. case_bool_decide as Hs; simpl; [|done].
  destruct (pe_MailmanActive ev) eqn:Ea; simpl; [|done]. case_bool_decide; [done|]. by destruct (1 <? _).
Qed.

Lemma verdict_missed res ev :
  pr_OK res = false ->
  verdict (set_class (set_reason (Some (classifyPingReason (pr_State res) ev)) (Some ev) res)).
Proof.
  intros H. pose proof (classify_pending (pr_State res) ev) as Hc.
  unfold verdict, pingExitCode, set_class, set_reason, reachabilityClass. simpl. rewrite H. simpl.
  split; [|split; [|split]].
  - by destruct (classifyPingReason _ _).
  - destruct (classifyPingReason _ _); naive_solver congruence.
  - intros _. exists ev, (classifyPingReason (pr_State res) ev). split; [done|]. split; [done|].
    destruct (classifyPingReason _ _); naive_solver.
  - by destruct (classifyPingReason _ _).
Qed.

(** ** The probe *)

Lemma looks_last agent id res ops :
  looks agent id (Ok res) ops ->
  exists pre m, ops = pre ++ [Looked id (Ok m)] /\
    Forall (fun op => exists m', op = Looked id (Ok m') /\ delivery_over m' = false) pre /\ pr_ID res = id /\
    (pr_OK res = true <-> m_State m = StateDelivered) /\
    (pr_State res = State_string StateFailed <-> m_State m = StateFailed).
Proof.
  remember (Ok res) as r eqn:E. intros H. revert E. induction H as [e|e|m ms Ho|m ms text Ho|m r ops Ho Hl IH]; try done.
  - intros [= <-]. exists [], m. split; [done|]. split; [done|]. split; [done|]. unfold terminal_ping. simpl.
    rewrite bool_decide_eq_true. split; [done|]. by destruct (m_State m).
  - intros [= <-]. exists [], m. split; [done|]. split; [done|]. split; [done|]. simpl.
    revert Ho. unfold delivery_over. rewrite orb_false_iff, !bool_decide_eq_false. naive_solver.
  - intros E. destruct (IH E) as (pre & m' & -> & Hp & Hrest). exists (Looked id (Ok m) :: pre), m'.
    split; [done|]. split; [|done]. constructor; [|done]. by exists m.
Qed.

(** What a probe did and what it answers. *)
Definition probed (from to : string) (r : result pingResult) (ops : list request_op) : Prop :=
  match r with
  | Err _ =>
      ops = [] \/ exists ins looked, ops = Posted (ping_params from to) ins :: looked /\
        forall q r, Posted q r ∉ looked
  | Ok res =>
      exists ins pre m, ops = Posted (ping_params from to) (Ok ins) :: pre ++ [Looked (ir_PublicID ins) (Ok m)] /\
        Forall (fun op => exists m', op = Looked (ir_PublicID ins) (Ok m') /\ delivery_over m' = false) pre /\
        pr_ID res = ir_PublicID ins /\ (pr_OK res = true <-> m_State m = StateDelivered) /\
        (pr_State res = State_string StateFailed <-> m_State m = StateFailed) /\ verdict res
  end.

Lemma looks_only agent id r ops : looks agent id r ops -> forall q s, Posted q s ∉ ops.
Proof. induction 1; intros q s; rewrite ?elem_of_cons, ?elem_of_nil; naive_solver. Qed.

Lemma runs_insertPing from to :
  runs (insertPing from to) (fun r ops =>
    match r with
    | Ok id => exists ins, ops = [Posted (ping_params from to) (Ok ins)] /\ id = ir_PublicID ins
    | Err _ => ops = [] \/ exists e, ops = [Posted (ping_params from to) (Err e)]
    end).
Proof.
  unfold insertPing. destruct (str_empty from); [apply runs_go; by left|].
  destruct (str_empty to); [apply runs_go; by left|]. apply runs_silent; [auto with outcomedb|].
  intros [a|e]; [|apply runs_go; by left]. eapply runs_bind; [apply runs_inserted|].
  intros [ins|e] ops [->|[-> He]]; apply runs_go; rewrite ?app_nil_r; try done; [by exists ins|right; by exists e|by left].
Qed.

Lemma runs_probe from to timeout :
  (ping_polls timeout <= fuel)%nat ->
  runs (pingProbe systemctl activePane BinaryName fuel from to timeout pingPollInterval) (probed from to).
Proof.
  intros Hf. unfold pingProbe. eapply runs_bind; [apply runs_insertPing|]. intros [id|e] ops Ho; cbv beta.
  2:{ apply runs_go. rewrite app_nil_r. destruct Ho as [->|(e' & ->)]; [by left|]. right. exists (Err e'), [].
      split; [done|]. by intros q r ?%elem_of_nil. }
  destruct Ho as (ins & -> & ->). eapply runs_bind; [by apply runs_poll|]. intros [res|e] looked Hl; cbv beta.
  2:{ apply runs_go. rewrite app_nil_r. right. exists (Ok ins), looked. split; [done|]. by eapply looks_only. }
  destruct (looks_last _ _ _ _ Hl) as (pre & m & -> & Hpre & Hid & Hok & Hfa).
  destruct (pr_OK res) eqn:E.
  - apply runs_go. rewrite app_nil_r. exists ins, pre, m. simpl. rewrite E. split_and!; try done. by apply verdict_reached.
  - apply runs_silent; [apply silent_gather|]. intros ev. apply runs_go. rewrite app_nil_r. exists ins, pre, m. simpl. rewrite E.
    split_and!; try done. by apply verdict_missed.
Qed.
End Probe.

(** A probe is never refused for a full queue. *)
Lemma ping_uncapped from to rnd rndR now d r d' :
  InsertMessage (ping_params from to) rnd rndR now d = (r, d') -> is_ok r = false -> d' = d.
Proof.
  unfold InsertMessage. cbv zeta. destruct (validateInsertParams _); [|by intros [= <- <-]].
  destruct (validateReplyTo _ _); [|by intros [= <- <-]]. rewrite (bool_decide_true (p_DeliverAfter _ = EmptyString)) by done.
  change (checkCapsInTx (canonical_params (ping_params from to)) 1 d) with (Ok tt : result unit).
  destruct (insertOneInTx _ _ _ _) as [[res d1]|e]; [by intros [= <- <-]|by intros [= <- <-]].
Qed.

(** C17: the probe.  With enough polls for its timeout and a clock that honours sleeps, a
    probe always ends.  It posts one row of its own kind, which no cap can refuse, and
    from then on only looks at it.  It reports the agent reachable exactly when the
    last look found the row delivered, and exits with zero exactly then; it reports
    it pending, to be retried, exactly when the row neither was delivered nor failed
    although the mailman runs and is not parked; a dead pane exactly when the row
    failed; and in every other case that somebody must act. *)
Theorem ping_outcome systemctl activePane BinaryName fuel sw from to timeout :
  steady_clock (sw_io sw) -> (ping_polls timeout <= fuel)%nat ->
  runs request_perform sw (pingProbe systemctl activePane BinaryName fuel from to timeout pingPollInterval)
    (probed from to) /\
  forall r d d', request_perform (Posted (ping_params from to) r) d d' -> is_ok r = false -> d' = d.
Proof.
  intros Hc Hf. split; [by apply runs_probe|]. intros r d d' (rnd & rndR & now & E) Hr. by eapply ping_uncapped.
Qed.

(** ** A concrete probe *)

Definition demo_ping (to : string) : flow (result pingResult) * sstate :=
  pingProbe (fun _ _ => "active") ClaudePaneProfile "tmux-tell-claude" 12 "alice" to Time.Second pingPollInterval bus bus_start.

(** Nobody serves bob on the bus: the row stays queued. *)
Lemma ping_outcome_witness :
  (exists r st' ops, demo_ping "bob" = (Go r, st') /\ probed "alice" "bob" r ops) /\
  match fst (demo_ping "bob") with
  | Go (Ok res) => (pr_OK res, pr_State res, pr_Class res, pingExitCode res) =
                     (false, "timeout", Some classPending, exitTempFail)
  | _ => False
  end.
Proof.
  split; [|vm_compute; reflexivity].
  destruct (ping_outcome (fun _ _ => "active") ClaudePaneProfile "tmux-tell-claude" 12 bus "alice" "bob" Time.Second)
    as [H _]; [exact ticking_steady|vm_compute; lia|].
  destruct (H bus_start) as (r & st' & ops & E & _ & Hp). exists r, st', ops. split; [exact E|exact Hp].
Defined.

(** ** What the state command cannot see *)

Definition limited (s : string) : Prop := s = PState_String PRateLimited \/ s = PState_String PUsageLimited.

(** No patterns for limits are installed in the profile. *)
Definition no_patterns (p : PaneProfile) : Prop :=
  pp_RateLimitPattern p = EmptyString /\ pp_UsageLimitPattern p = EmptyString.

Definition unlimited (r : PState * Evidence * option error) : Prop := ~ limited (PState_String (fst (fst r))).

Lemma not_limited st : st <> PRateLimited -> st <> PUsageLimited -> ~ limited (PState_String st).
Proof. destruct st; intros H1 H2 [H|H]; done. Qed.

Lemma markers_unlimited w c capB r :
  cl_rateLimitRE c = None -> cl_usageLimitRE c = None -> classify_markers w c capB = Some r ->
  ~ limited (PState_String (fst r)).
Proof.
  intros Hr Hu. unfold classify_markers, firstUsageLimitMatch, firstRateLimitMatch. rewrite Hr, Hu. simpl.
  repeat case_match; intros [= <-]; by apply not_limited.
Qed.

Lemma cursor_unlimited c capA capB cursor : ~ limited (PState_String (fst (classify_cursor c capA capB cursor))).
Proof.
  unfold classify_cursor, past_sentinel, at_sentinel, classify_rest. cbv zeta.
  repeat case_match; simplify_eq; by apply not_limited.
Qed.

Lemma observe_unlimited c pane :
  cl_rateLimitRE c = None -> cl_usageLimitRE c = None -> yields unlimited (observe_pane c pane).
Proof.
  intros Hr Hu. unfold observe_pane. apply yields_bind; intros [capA [e|]]; [by apply yields_ret, not_limited|].
  apply yields_bind; intros [e|]; [by apply yields_ret, not_limited|].
  apply yields_bind; intros [capB [e|]]; [by apply yields_ret, not_limited|]. apply yields_bind; intros w.
  destruct (classify_markers w c capB) as [[st ev]|] eqn:E; [apply yields_ret; exact (markers_unlimited w c capB (st, ev) Hr Hu E)|].
  apply yields_bind; intros cursor. pose proof (cursor_unlimited c capA capB cursor) as H.
  destruct (classify_cursor _ _ _ _) as [st ev]. by apply yields_ret.
Qed.

Lemma profile_unlimited pane p : no_patterns p -> yields unlimited (AgentStateWithProfile pane p).
Proof.
  intros [Hr Hu]. unfold AgentStateWithProfile. apply yields_bind. intros w.
  assert (yields unlimited (observe_pane (newClassifier w p) pane)) as Ho.
  { apply observe_unlimited; unfold newClassifier, compileProfilePattern; simpl; by rewrite ?Hr, ?Hu. }
  unfold agentState. destruct (str_empty pane); [by apply yields_ret, not_limited|].
  apply yields_bind. intros [[|]|e]; [by apply yields_ret, not_limited|done|].
  eapply yields_bind'; [exact Ho|]. intros [[st ev] er] H. by apply yields_ret.
Qed.

(** A property of the value of every run that ends normally. *)
Definition values {A} (P : A -> Prop) (c : M A) : Prop :=
  forall sw st, match fst (c sw st) with Go a => P a | _ => True end.

Lemma values_go {A} (P : A -> Prop) a : P a -> values P (go a).
Proof. by intros H sw st. Qed.

Lemma values_bind {A B} (P : B -> Prop) (c : M A) (k : A -> M B) :
  (forall a, values P (k a)) -> values P (andthen c k).
Proof. intros Hk sw st. unfold andthen. destruct (c sw st) as [[a| | | |] st1]; try done. apply Hk. Qed.

Lemma values_lift {A B} (Q : A -> Prop) (P : B -> Prop) (c : T A) (k : A -> M B) :
  yields Q c -> (forall a, Q a -> values P (k a)) -> values P (andthen (lift c) k).
Proof.
  intros Hc Hk sw st. unfold andthen, lift. specialize (Hc (sw_io sw) (s_hist st)).
  destruct (c _ _) as [a h]. by apply Hk.
Qed.

(** The state command and the MCP tool never report that an agent is limited: the
    patterns that recognise a limit are installed only in the mailman's own profile,
    not in those of the adapters that the two choose from. *)
Lemma state_blind_to_limits activePane BinaryName agent :
  no_patterns activePane ->
  values (fun r => ~ limited (as_State (fst r))) (resolveAgentState activePane BinaryName agent).
Proof.
  intros Ha. unfold resolveAgentState, not_observed. apply values_bind. intros [a|f].
  2:{ destruct (errors_Is f ErrNotFound); apply values_bind; intros t; by apply values_go, (not_limited PUnknown). }
  cbv zeta. destruct (str_empty (PaneID a)).
  { apply values_bind; intros t. by apply values_go, (not_limited PUnknown). }
  destruct (bool_decide _). { apply values_bind; intros t. by apply values_go, (not_limited PIdle). }
  eapply values_lift; [apply profile_unlimited|].
  { unfold paneProfileForProvider. repeat case_match; done. }
  intros [[ps ev] er] H. apply values_bind; intros t. by apply values_go.
Qed.
