(* ===== verification/Config.v ===== *)
(** * The host configuration (internal/config/config.go)

    The settings of a block of the file, how a value is looked up for an agent (its
    own block, then the defaults, then what the caller compiled in), the parsed file
    and where it comes from.  The TOML decoder, the file system and [strconv.ParseFloat]
    are parameters. *)

From S2P Require Import Prelude GoStd.

Open Scope Z_scope.
Open Scope tell_scope.

Module Config.

Definition DefaultPath : string := "/etc/tmux-tell/config.toml".
Definition LegacyPath : string := "/etc/tmux-msg/config.toml".

Definition resolveConfigPath (fileExists : string -> bool) (envNew envOld defaultPath legacyPath : string)
    : string * bool :=
  if negb (str_empty envNew) then (envNew, false)
  else if negb (str_empty envOld) then (envOld, false)
  else if negb (fileExists defaultPath) && fileExists legacyPath then (legacyPath, true)
  else (defaultPath, false).

Definition ResolvePath (getenv : string -> string) (fileExists : string -> bool) : string * bool :=
  resolveConfigPath fileExists (getenv "TMUX_TELL_CONFIG") (getenv "CLAUDE_MSG_CONFIG") DefaultPath LegacyPath.

(** ** The settings of a block *)

Record Block : Type := mkBlock {
  BudgetEnabled : option Z;
  BudgetCap : option Z;
  BudgetRefillPerHour : option Z;
  BudgetAlphaHundredths : option Z;
  BudgetWindowMinutes : option Z;
  NotifyOnFailed : option bool;
  NotifyOnDeliveredInInputBox : option bool;
  NotifyOnDeliveredUnverified : option bool;
  DriftSoftFail : option bool;
  GateDisabled : option bool;
  PollIntervalMin : option Z;
  PollIntervalMax : option Z;
  InputStaleThreshold : option Z;
  NotifyEmojiDisabled : option bool;
  WorkingDeliverImmediately : option bool;
  PrePasteSafetyDisabled : option bool;
  DeliveryMode : option string;
  RenderByteMarkerThreshold : option string;
  MaxRecipientsPerSend : option Z;
  OnRegisterBacklog : option string;
  OnRegisterBacklogCap : option Z;
  MetricsAddr : option string;
  MailmanAlertTo : option string;
  VerifyRetryBudget : option string;
  RateLimitPattern : option string;
  UsageLimitPattern : option string;
  CodexSessionRestartCommand : option string;
  Retention : option string;
  RetentionSweepInterval : option Z;
  DedupeWindow : option Z;
  AutoReapEnabled : option bool;
  AutoReapInterval : option Z;
  AutoReapOlderThan : option string;
  ObserverMetricsAddr : option string
}.

(** What a pointer field points to, by its type. *)
Inductive setting : Type :=
  | SInt (v : option Z)
  | SBool (v : option bool)
  | SDur (v : option Z)
  | SString (v : option string).

(** The [toml] tags of the fields: the keys a block of the file may hold. *)
Definition toml_fields : list (string * (Block -> setting)) :=
  [("budget-enabled", fun b => SInt (BudgetEnabled b));
   ("budget-cap", fun b => SInt (BudgetCap b));
   ("budget-refill-per-hour", fun b => SInt (BudgetRefillPerHour b));
   ("budget-alpha-hundredths", fun b => SInt (BudgetAlphaHundredths b));
   ("budget-window-minutes", fun b => SInt (BudgetWindowMinutes b));
   ("notify-on-failed", fun b => SBool (NotifyOnFailed b));
   ("notify-on-delivered-in-input-box", fun b => SBool (NotifyOnDeliveredInInputBox b));
   ("notify-on-delivered-unverified", fun b => SBool (NotifyOnDeliveredUnverified b));
   ("drift-soft-fail", fun b => SBool (DriftSoftFail b));
   ("gate-disabled", fun b => SBool (GateDisabled b));
   ("poll-interval-min", fun b => SDur (PollIntervalMin b));
   ("poll-interval-max", fun b => SDur (PollIntervalMax b));
   ("input-stale-threshold", fun b => SDur (InputStaleThreshold b));
   ("notify-emoji-disabled", fun b => SBool (NotifyEmojiDisabled b));
   ("working-deliver-immediately", fun b => SBool (WorkingDeliverImmediately b));
   ("pre-paste-safety-disabled", fun b => SBool (PrePasteSafetyDisabled b));
   ("delivery-mode", fun b => SString (DeliveryMode b));
   ("render-byte-marker-threshold", fun b => SString (RenderByteMarkerThreshold b));
   ("max-recipients-per-send", fun b => SInt (MaxRecipientsPerSend b));
   ("on-register-backlog", fun b => SString (OnRegisterBacklog b));
   ("on-register-backlog-cap", fun b => SInt (OnRegisterBacklogCap b));
   ("metrics-addr", fun b => SString (MetricsAddr b));
   ("mailman-alert-to", fun b => SString (MailmanAlertTo b));
   ("verify-retry-budget", fun b => SString (VerifyRetryBudget b));
   ("rate-limit-pattern", fun b => SString (RateLimitPattern b));
   ("usage-limit-pattern", fun b => SString (UsageLimitPattern b));
   ("codex-session-restart-command", fun b => SString (CodexSessionRestartCommand b));
   ("retention", fun b => SString (Retention b));
   ("retention-sweep-interval", fun b => SDur (RetentionSweepInterval b));
   ("dedupe-window", fun b => SDur (DedupeWindow b));
   ("auto-reap-enabled", fun b => SBool (AutoReapEnabled b));
   ("auto-reap-interval", fun b => SDur (AutoReapInterval b));
   ("auto-reap-older-than", fun b => SString (AutoReapOlderThan b));
   ("observer-metrics-addr", fun b => SString (ObserverMetricsAddr b))].

(** The empty block. *)
Definition no_settings : Block :=
  mkBlock None None None None None None None None None None None None None None None None None None
    None None None None None None None None None None None None None None None None.

Record File : Type := mkFile {
  f_Defaults : Block;
  f_Agent : gmap string Block;
  f_PrivilegedAgents : list string
}.

Definition empty_file : File := mkFile no_settings ∅ [].

(** [IsPrivileged] on the possibly nil file. *)
Definition IsPrivileged (f : option File) (agent : string) : bool :=
  match f with
  | None => false
  | Some f => negb (str_empty agent) && bool_decide (agent ∈ f_PrivilegedAgents f)
  end.

(** ** Loading *)

(** [os.ReadFile]. *)
Inductive read_result : Type :=
  | FileText (raw : string)
  | NotExist
  | ReadFailed (e : error).

(** What the decoder leaves in the file, its error, the keys it had no field for. *)
Record decoded : Type := mkDecoded { dc_file : File; dc_error : option error; dc_undecoded : list string }.

Definition LoadFrom (ReadFile : string -> read_result) (Decode : string -> decoded) (path : string)
    : File * option error :=
  match ReadFile path with
  | NotExist => (empty_file, None)
  | ReadFailed e => (empty_file, Some (ErrWrap ("config: read " +:+ path +:+ ": " +:+ error_text e) e))
  | FileText raw =>
      let d := Decode raw in
      match dc_error d with
      | Some e => (dc_file d, Some (ErrWrap ("config: parse " +:+ path +:+ ": " +:+ error_text e) e))
      | None =>
          match dc_undecoded d with
          | [] => (dc_file d, None)
          | keys => (dc_file d, Some (ErrMsg ("config: parse " +:+ path +:+ ": unknown key(s): " +:+
                                              Str.Join keys ", ")))
          end
      end
  end.

Definition Load (getenv : string -> string) (fileExists : string -> bool)
    (ReadFile : string -> read_result) (Decode : string -> decoded) : File * option error :=
  LoadFrom ReadFile Decode (fst (ResolvePath getenv fileExists)).

(** ** Looking a value up *)

Definition blockBoolField (b : Block) (field : string) : option bool :=
  if bool_decide (field = "notify-on-failed") then NotifyOnFailed b
  else if bool_decide (field = "notify-on-delivered-in-input-box") then
    match NotifyOnDeliveredInInputBox b with
    | Some v => Some v
    | None => NotifyOnDeliveredUnverified b
    end
  else if bool_decide (field = "drift-soft-fail") then DriftSoftFail b
  else if bool_decide (field = "gate-disabled") then GateDisabled b
  else if bool_decide (field = "notify-emoji-disabled") then NotifyEmojiDisabled b
  else if bool_decide (field = "working-deliver-immediately") then WorkingDeliverImmediately b
  else if bool_decide (field = "pre-paste-safety-disabled") then PrePasteSafetyDisabled b
  else if bool_decide (field = "auto-reap-enabled") then AutoReapEnabled b
  else None.

Definition blockDurField (b : Block) (field : string) : option Z :=
  if bool_decide (field = "poll-interval-min") then PollIntervalMin b
  else if bool_decide (field = "poll-interval-max") then PollIntervalMax b
  else if bool_decide (field = "input-stale-threshold") then InputStaleThreshold b
  else if bool_decide (field = "retention-sweep-interval") then RetentionSweepInterval b
  else if bool_decide (field = "dedupe-window") then DedupeWindow b
  else if bool_decide (field = "auto-reap-interval") then AutoReapInterval b
  else None.

Definition blockStringField (b : Block) (field : string) : option string :=
  if bool_decide (field = "delivery-mode") then DeliveryMode b
  else if bool_decide (field = "render-byte-marker-threshold") then RenderByteMarkerThreshold b
  else if bool_decide (field = "on-register-backlog") then OnRegisterBacklog b
  else if bool_decide (field = "metrics-addr") then MetricsAddr b
  else if bool_decide (field = "mailman-alert-to") then MailmanAlertTo b
  else if bool_decide (field = "verify-retry-budget") then VerifyRetryBudget b
  else if bool_decide (field = "rate-limit-pattern") then RateLimitPattern b
  else if bool_decide (field = "usage-limit-pattern") then UsageLimitPattern b
  else if bool_decide (field = "codex-session-restart-command") then CodexSessionRestartCommand b
  else if bool_decide (field = "retention") then Retention b
  else if bool_decide (field = "auto-reap-older-than") then AutoReapOlderThan b
  else if bool_decide (field = "observer-metrics-addr") then ObserverMetricsAddr b
  else None.

Definition blockIntField (b : Block) (field : string) : option Z :=
  if bool_decide (field = "max-recipients-per-send") then MaxRecipientsPerSend b
  else if bool_decide (field = "on-register-backlog-cap") then OnRegisterBacklogCap b
  else if bool_decide (field = "budget-enabled") then BudgetEnabled b
  else if bool_decide (field = "budget-cap") then BudgetCap b
  else if bool_decide (field = "budget-refill-per-hour") then BudgetRefillPerHour b
  else if bool_decide (field = "budget-alpha-hundredths") then BudgetAlphaHundredths b
  else if bool_decide (field = "budget-window-minutes") then BudgetWindowMinutes b
  else None.

Definition agent_field {A} (block : Block -> string -> option A) (f : File) (agent field : string)
    : option A :=
  match f_Agent f !! agent with Some b => block b field | None => None end.

Definition agentBoolField : File -> string -> string -> option bool := agent_field blockBoolField.
Definition agentDurField : File -> string -> string -> option Z := agent_field blockDurField.
Definition agentStringField : File -> string -> string -> option string := agent_field blockStringField.
Definition agentIntField : File -> string -> string -> option Z := agent_field blockIntField.
Definition defaultBoolField (f : File) (field : string) : option bool := blockBoolField (f_Defaults f) field.
Definition defaultDurField (f : File) (field : string) : option Z := blockDurField (f_Defaults f) field.
Definition defaultStringField (f : File) (field : string) : option string := blockStringField (f_Defaults f) field.
Definition defaultIntField (f : File) (field : string) : option Z := blockIntField (f_Defaults f) field.

Definition ResolveBool (file : option File) (agent field : string) (hardcoded : bool) : bool :=
  match file with
  | None => hardcoded
  | Some f =>
      match agentBoolField f agent field with
      | Some v => v
      | None => match defaultBoolField f field with Some v => v | None => hardcoded end
      end
  end.

Definition ResolveDuration (file : option File) (agent field : string) (hardcoded : Z) : Z :=
  match file with
  | None => hardcoded
  | Some f =>
      match agentDurField f agent field with
      | Some v => v
      | None => match defaultDurField f field with Some v => v | None => hardcoded end
      end
  end.

Definition ResolveInt (file : option File) (agent field : string) (hardcoded : Z) : Z :=
  match file with
  | None => hardcoded
  | Some f =>
      match agentIntField f agent field with
      | Some v => v
      | None => match defaultIntField f field with Some v => v | None => hardcoded end
      end
  end.

(** The empty text counts as not set. *)
Definition nonempty (o : option string) : option string :=
  match o with
  | Some s => if str_empty s then None else Some s
  | None => None
  end.

Definition ResolveString (file : option File) (agent field hardcoded : string) : string :=
  match file with
  | None => hardcoded
  | Some f =>
      match nonempty (agentStringField f agent field) with
      | Some v => v
      | None => match nonempty (defaultStringField f field) with Some v => v | None => hardcoded end
      end
  end.

Definition HasDeprecatedNotifyOnDeliveredUnverified (file : option File) (agent : string) : bool :=
  match file with
  | None => false
  | Some f =>
      match f_Agent f !! agent with
      | Some b => match NotifyOnDeliveredUnverified b with Some _ => true | None => false end
      | None => false
      end ||
      match NotifyOnDeliveredUnverified (f_Defaults f) with Some _ => true | None => false end
  end.

(** ** Byte sizes *)

(** [ParseFloat] gives the value of the text of a finite number. *)
Definition ParseByteSize (ParseFloat : string -> option Q) (s : string) : result Z :=
  let t := Str.TrimSpace s in
  if str_empty t then Err (ErrMsg "empty byte-size")
  else
    let lower := Str.ToLower t in
    let cut n := Str.take (String.length t - n) t in
    let '(mult, t') := if Str.HasSuffix lower "kb" then (1000, cut 2%nat)
                       else if Str.HasSuffix lower "k" then (1000, cut 1%nat)
                       else if Str.HasSuffix lower "b" then (1, cut 1%nat)
                       else (1, t) in
    match ParseFloat (Str.TrimSpace t') with
    | None => Err (ErrMsg ("invalid byte-size " +:+ Str.Quote s))
    | Some v =>
        if Qlt_bool v 0 then Err (ErrMsg ("negative byte-size " +:+ Str.Quote s))
        else Ok (Qtrunc (v * inject_Z mult))
    end.

(** ** The resolved view of an agent *)

Definition BacklogAnnounce : string := "announce".
Definition BacklogAutoDeliver : string := "auto-deliver".
Definition DefaultOnRegisterBacklog : string := BacklogAnnounce.
Definition DefaultOnRegisterBacklogCap : Z := 3.
Definition DefaultVerifyRetryBudget : string := "5s".
Definition DefaultRetention : string := "infinite".
Definition DefaultRetentionSweepInterval : Z := Time.Hour.
Definition DefaultDedupeWindow : Z := 60 * Time.Second.
Definition DefaultAutoReapInterval : Z := 6 * Time.Hour.
Definition DefaultAutoReapOlderThan : string := "7d".

Record ResolvedView : Type := mkView {
  v_Agent : string;
  v_ConfigPath : string;
  v_NotifyOnFailed : bool;
  v_NotifyOnDeliveredInInputBox : bool;
  v_NotifyOnDeliveredUnverified : bool;
  v_DriftSoftFail : bool;
  v_GateDisabled : bool;
  v_PollIntervalMin : Z;
  v_PollIntervalMax : Z;
  v_InputStaleThreshold : Z;
  v_NotifyEmojiDisabled : bool;
  v_WorkingDeliverImmediately : bool;
  v_PrePasteSafetyDisabled : bool;
  v_DeliveryMode : string;
  v_RenderByteMarkerThreshold : string;
  v_MaxRecipientsPerSend : Z;
  v_OnRegisterBacklog : string;
  v_OnRegisterBacklogCap : Z;
  v_MetricsAddr : string;
  v_VerifyRetryBudget : string;
  v_Retention : string;
  v_RetentionSweepInterval : Z;
  v_DedupeWindow : Z;
  v_PrivilegedAgents : list string
}.

Definition resolvePrivilegedAgents (file : option File) : list string :=
  match file with None => [] | Some f => f_PrivilegedAgents f end.

Definition Resolve (file : option File) (path agent : string) : ResolvedView :=
  mkView agent path
    (ResolveBool file agent "notify-on-failed" true)
    (ResolveBool file agent "notify-on-delivered-in-input-box" true)
    (ResolveBool file agent "notify-on-delivered-in-input-box" true)
    (ResolveBool file agent "drift-soft-fail" false)
    (ResolveBool file agent "gate-disabled" false)
    (ResolveDuration file agent "poll-interval-min" (3 * Time.Second))
    (ResolveDuration file agent "poll-interval-max" (15 * Time.Second))
    (ResolveDuration file agent "input-stale-threshold" (2 * Time.Minute))
    (ResolveBool file agent "notify-emoji-disabled" false)
    (ResolveBool file agent "working-deliver-immediately" false)
    (ResolveBool file agent "pre-paste-safety-disabled" false)
    (ResolveString file agent "delivery-mode" EmptyString)
    (ResolveString file agent "render-byte-marker-threshold" "512b")
    (ResolveInt file agent "max-recipients-per-send" 10)
    (ResolveString file agent "on-register-backlog" DefaultOnRegisterBacklog)
    (ResolveInt file agent "on-register-backlog-cap" DefaultOnRegisterBacklogCap)
    (ResolveString file agent "metrics-addr" EmptyString)
    (ResolveString file agent "verify-retry-budget" DefaultVerifyRetryBudget)
    (ResolveString file agent "retention" DefaultRetention)
    (ResolveDuration file agent "retention-sweep-interval" DefaultRetentionSweepInterval)
    (ResolveDuration file agent "dedupe-window" DefaultDedupeWindow)
    (resolvePrivilegedAgents file).

End Config.
