(* ===== verification/ServeConfig.v ===== *)
(** * Starting a mailman (internal/cli/serve.go: runServeCLI)

    How the flags of [serve] and the host configuration become the options of the
    loop: a flag that was given wins, then the agent's block of the file, then the
    defaults block, then the value compiled in.  Flag parsing is left out: a flag is
    [Some] value when it was given. *)

From S2P Require Import Prelude GoStd StoreTypes Priority TmuxIO PaneState ObserveGate Deliver Throttle Mailman Serve Send Window Config.
Import Config.

Open Scope Z_scope.
Open Scope tell_scope.

Definition defaultStuckThreshold : Z := 10.
Definition defaultSessionStaleThreshold : Z := 3.
Definition defaultMailmanStaleThreshold : Z := 10 * Time.Minute.
Definition defaultStuckPollInterval : Z := 5 * Time.Second.
Definition defaultSpinGuardThreshold : Z := 1000.
Definition defaultSpinGuardWindow : Z := 10 * Time.Second.
Definition defaultMaxConcurrentPerProvider : Z := 3.
Definition defaultProviderCapTTL : Z := 6 * Time.Second.
Definition defaultProviderCapRecheck : Z := 1 * Time.Second.
Definition defaultObservedStateInterval : Z := 2 * Time.Second.
Definition defaultPostDeliverCooldown : Z := 5 * Time.Second.
Definition DefaultByteMarkerThreshold : Z := 512.

Record serveFlags : Type := mkFlags {
  fl_agent : string;
  fl_interMsg : option Z;
  fl_idlePoll : option Z;
  fl_pausePoll : option Z;
  fl_deliverTimeout : option Z;
  fl_settleDelay : option Z;
  fl_verifyRetryBudget : option Z;
  fl_postCompactPause : option Z;
  fl_gateDisabled : option bool;
  fl_pollIntervalMin : option Z;
  fl_pollIntervalMax : option Z;
  fl_inputStaleThreshold : option Z;
  fl_notifyEmojiDisabled : option bool;
  fl_prePasteSafetyDisabled : option bool;
  fl_workingDeliverImmediately : option bool;
  fl_driftSoftFail : option bool;
  fl_notifyOnFailed : option bool;
  fl_notifyOnDeliveredInInputBox : option bool;
  fl_notifyOnDeliveredUnverifiedLegacy : option bool;
  fl_metricsAddr : option string;
  fl_stuckThreshold : option Z;
  fl_sessionStaleThreshold : option Z;
  fl_mailmanStaleThreshold : option Z;
  fl_mailmanAlertTo : option string;
  fl_stuckPollInterval : option Z;
  fl_spinGuardThreshold : option Z;
  fl_spinGuardWindow : option Z;
  fl_maxConcurrentPerProvider : option Z;
  fl_providerCapTTL : option Z;
  fl_providerCapRecheck : option Z;
  fl_observedStateInterval : option Z;
  fl_priorityStrategy : option string;
  fl_postDeliverCooldown : option Z;
  fl_rateLimitResumeDisabled : option bool;
  fl_rateLimitResumeMaxAttempts : option Z
}.

(** No flag but the agent. *)
Definition bare_flags (agent : string) : serveFlags :=
  mkFlags agent None None None None None None None None None None None None None None None None None None
    None None None None None None None None None None None None None None None None.

(** What the loop takes besides its options: the limit patterns, the settings of the
    delivery, and the retention sweep beside the loop. *)
Record serveSetup : Type := mkSetup {
  su_opts : serveOpts;
  su_cfg : DeliverCfg;
  su_MetricsAddr : string;
  su_Retention : string;
  su_RetentionSweepInterval : Z
}.

Section ServeConfig.
Context (fl : serveFlags) (cfg : File) (profile : PaneProfile) (compiles : string -> bool)
  (ParseFloat : string -> option Q) (watchdogPing : Z).

Notation agent := (fl_agent fl).

(** [if !flagWasSet(fs, name) { *v = config.ResolveBool(cfg, *agent, name, *v) }], and
    the same for the other types. *)
Definition knob_bool (given : option bool) (name : string) (d : bool) : bool :=
  match given with Some v => v | None => ResolveBool (Some cfg) agent name d end.
Definition knob_dur (given : option Z) (name : string) (d : Z) : Z :=
  match given with Some v => v | None => ResolveDuration (Some cfg) agent name d end.
Definition knob_int (given : option Z) (name : string) (d : Z) : Z :=
  match given with Some v => v | None => ResolveInt (Some cfg) agent name d end.
Definition knob_string (given : option string) (name d : string) : string :=
  match given with Some v => v | None => ResolveString (Some cfg) agent name d end.

(** A duration kept as text in the file; a malformed one is ignored. *)
Definition knob_duration_text (given : option Z) (name : string) (d : Z) : Z :=
  match given with
  | Some v => v
  | None =>
      let raw := ResolveString (Some cfg) agent name EmptyString in
      if str_empty raw then d
      else match GoDuration.ParseDuration raw with Ok v => v | Err _ => d end
  end.

(** The legacy flag overwrites the value of the new one before the file is read. *)
Definition notify_in_input_box : bool :=
  let v := match fl_notifyOnDeliveredUnverifiedLegacy fl with
           | Some b => b
           | None => default true (fl_notifyOnDeliveredInInputBox fl)
           end in
  match fl_notifyOnDeliveredInInputBox fl with
  | Some _ => v
  | None => ResolveBool (Some cfg) agent "notify-on-delivered-in-input-box" v
  end.

Definition byteMarkerThreshold : Z :=
  let raw := ResolveString (Some cfg) agent "render-byte-marker-threshold" EmptyString in
  if str_empty raw then DefaultByteMarkerThreshold
  else match ParseByteSize ParseFloat raw with Ok n => n | Err _ => DefaultByteMarkerThreshold end.

Definition rateLimitPattern : string := ResolveString (Some cfg) agent "rate-limit-pattern" EmptyString.
Definition usageLimitPattern : string := ResolveString (Some cfg) agent "usage-limit-pattern" EmptyString.

(** The profile of the pane with the configured limit patterns. *)
Definition limited_profile : PaneProfile :=
  mkProfile (pp_PromptSentinel profile) (pp_PromptSentinelVariants profile) (pp_CompactionMarker profile)
    (pp_AwaitingOperatorMarker profile) (pp_StatusLineMarker profile) (pp_APIErrorMarker profile)
    (pp_ResumeModalMarker profile) (pp_PasteCollapseMarker profile) (pp_PasteEvidenceMarker profile)
    rateLimitPattern usageLimitPattern (pp_WorkingPattern profile).

Definition deliver_cfg : DeliverCfg :=
  mkDeliverCfg limited_profile
    (knob_duration_text (fl_settleDelay fl) "settle-delay" DefaultSettleDelay)
    (DeriveRetrySchedule
       (knob_duration_text (fl_verifyRetryBudget fl) "verify-retry-budget" DefaultRetryBudget))
    60.

Definition serve_options (strategy : SchedulerStrategy) : serveOpts := {|
  so_Agent := agent;
  so_InterMessageDelay := default (200 * Time.Millisecond) (fl_interMsg fl);
  so_IdlePollInterval := default (2 * Time.Second) (fl_idlePoll fl);
  so_PauseCheckInterval := default Time.Second (fl_pausePoll fl);
  so_PostCompactPause := default (120 * Time.Second) (fl_postCompactPause fl);
  so_DeliverTimeout := default (30 * Time.Second) (fl_deliverTimeout fl);
  so_ObserveGateOpts :=
    mkGateOpts (knob_dur (fl_pollIntervalMin fl) "poll-interval-min" (3 * Time.Second))
      (knob_dur (fl_pollIntervalMax fl) "poll-interval-max" (15 * Time.Second)) 0
      (knob_dur (fl_inputStaleThreshold fl) "input-stale-threshold" (2 * Time.Minute)) 0 false false
      (knob_bool (fl_workingDeliverImmediately fl) "working-deliver-immediately" false);
  so_GateDisabled := knob_bool (fl_gateDisabled fl) "gate-disabled" false;
  so_NotifyEmojiDisabled := knob_bool (fl_notifyEmojiDisabled fl) "notify-emoji-disabled" false;
  so_DriftCheckDisabled := false;
  so_PrePasteSafetyDisabled := knob_bool (fl_prePasteSafetyDisabled fl) "pre-paste-safety-disabled" false;
  so_DriftSoftFail := knob_bool (fl_driftSoftFail fl) "drift-soft-fail" false;
  so_NotifyOnFailed := knob_bool (fl_notifyOnFailed fl) "notify-on-failed" true;
  so_NotifyOnDeliveredInInputBox := notify_in_input_box;
  so_ConfigDeliveryMode := ResolveString (Some cfg) agent "delivery-mode" EmptyString;
  so_ByteMarkerThreshold := byteMarkerThreshold;
  so_DedupeWindow := ResolveDuration (Some cfg) agent "dedupe-window" DefaultDedupeWindow;
  so_StuckThreshold := knob_int (fl_stuckThreshold fl) "stuck-threshold" defaultStuckThreshold;
  so_SessionStaleThreshold :=
    knob_int (fl_sessionStaleThreshold fl) "session-stale-threshold" defaultSessionStaleThreshold;
  so_MailmanStaleThreshold :=
    knob_dur (fl_mailmanStaleThreshold fl) "mailman-stale-threshold" defaultMailmanStaleThreshold;
  so_AlertTo := knob_string (fl_mailmanAlertTo fl) "mailman-alert-to" EmptyString;
  so_StuckPollInterval := knob_dur (fl_stuckPollInterval fl) "stuck-poll-interval" defaultStuckPollInterval;
  so_SpinGuardThreshold :=
    knob_int (fl_spinGuardThreshold fl) "spin-guard-threshold" defaultSpinGuardThreshold;
  so_SpinGuardWindow := knob_dur (fl_spinGuardWindow fl) "spin-guard-window" defaultSpinGuardWindow;
  so_MaxConcurrentPerProvider :=
    knob_int (fl_maxConcurrentPerProvider fl) "max-concurrent-per-provider" defaultMaxConcurrentPerProvider;
  so_ProviderCapTTL := knob_dur (fl_providerCapTTL fl) "provider-cap-ttl" defaultProviderCapTTL;
  so_ProviderCapRecheckInterval :=
    knob_dur (fl_providerCapRecheck fl) "provider-cap-recheck-interval" defaultProviderCapRecheck;
  so_ObservedStateInterval :=
    knob_dur (fl_observedStateInterval fl) "observed-state-interval" defaultObservedStateInterval;
  so_ProviderCapDisabled := false;
  so_PriorityStrategy := strategy;
  so_PostDeliverCooldown :=
    knob_dur (fl_postDeliverCooldown fl) "post-deliver-cooldown" defaultPostDeliverCooldown;
  so_RateLimitResumeDisabled :=
    knob_bool (fl_rateLimitResumeDisabled fl) "rate-limit-resume-disabled" false;
  so_RateLimitResumeMaxAttempts :=
    knob_int (fl_rateLimitResumeMaxAttempts fl) "rate-limit-resume-max-attempts"
      defaultRateLimitResumeMaxAttempts;
  so_watchdogPing := watchdogPing
|}.

Definition pattern_ok (pattern : string) : bool := str_empty pattern || compiles pattern.

(** Up to opening the store: the exit code of a refusal, or what the loop starts with. *)
Definition serve_setup : Z + serveSetup :=
  match ParseStrategy (knob_string (fl_priorityStrategy fl) "priority-strategy" "max") with
  | Err _ => inl exitUsage
  | Ok strategy =>
      if negb (pattern_ok rateLimitPattern) then inl exitUsage
      else if negb (pattern_ok usageLimitPattern) then inl exitUsage
      else if str_empty agent then inl exitUsage
      else inr (mkSetup (serve_options strategy) deliver_cfg
                  (knob_string (fl_metricsAddr fl) "metrics-addr" EmptyString)
                  (ResolveString (Some cfg) agent "retention" DefaultRetention)
                  (ResolveDuration (Some cfg) agent "retention-sweep-interval" DefaultRetentionSweepInterval))
  end.

End ServeConfig.

(** ** The watchdog of systemd (internal/sdnotify) *)

(** Half the interval of the unit; none when it is not set.  Durations wrap. *)
Definition WatchdogInterval (getenv : string -> string) : result Z :=
  let raw := getenv "WATCHDOG_USEC" in
  if str_empty raw then Ok 0
  else match Str.Atoi raw with
       | Some usec => Ok (Z.quot (Time.wrap64 (usec * 1000)) 2)
       | None => Err (ErrMsg ("WATCHDOG_USEC: strconv.ParseInt: parsing " +:+ Str.Quote raw))
       end.

(** A datagram to the socket of the manager, when there is one: its address (an "@" stands
    for the abstract name space) and its text. *)
Definition DefaultSender (getenv : string -> string) (message : string) : option (string * string) :=
  match getenv "NOTIFY_SOCKET" with
  | EmptyString => None
  | String a path as socket =>
      Some (if bool_decide (a = "@"%char) then String (Ascii.ascii_of_nat 0) path else socket, message)
  end.

Definition Ready (getenv : string -> string) : option (string * string) := DefaultSender getenv "READY=1".
Definition Watchdog (getenv : string -> string) : option (string * string) := DefaultSender getenv "WATCHDOG=1".

(** Pings come at half the interval of the unit, so that one may be missed. *)
Lemma watchdog_in_time getenv usec : Str.Atoi (getenv "WATCHDOG_USEC") = Some usec -> 0 < usec < 2 ^ 63 / 1000 ->
  exists ping, WatchdogInterval getenv = Ok ping /\ 0 < ping /\ 2 * ping = usec * 1000.
Proof.
  intros Ha Hu. unfold WatchdogInterval. destruct (str_empty (getenv "WATCHDOG_USEC")) eqn:E.
  { apply bool_decide_eq_true_1 in E. rewrite E in Ha. discriminate. }
  rewrite Ha. exists (usec * 500). split; [f_equal|lia].
  assert (usec * 1000 < 2 ^ 63) as Hb by (pose proof (Z.mul_div_le (2 ^ 63) 1000 eq_refl); lia).
  unfold Time.wrap64. rewrite Z.mod_small by lia.
  replace (usec * 1000 + 2 ^ 63 - 2 ^ 63) with ((usec * 500) * 2) by lia. by rewrite Z.quot_mul.
Qed.

(** The command: whatever [config.Load] returns besides the file is only logged;
    [opened] is the error of opening the store. *)
Definition runServeCLI (fl : serveFlags) (loaded : File * option error) (active : Profile)
    (profile : PaneProfile) (ParseFloat : string -> option Q) (getenv : string -> string) (opened : option error)
    (cls : PaneProfile -> classifier) (fuel n : nat) : M unit :=
  compiles <! ask "regexp.Compile"
    (fun sw _ p => match w_regexp_Compile (sw_io sw) p with Some _ => true | None => false end) ;;
  match serve_setup fl (fst loaded) profile compiles ParseFloat
          (match WatchdogInterval getenv with Ok ping => ping | Err _ => 0 end) with
  | inl code => exit code
  | inr su =>
      match opened with
      | Some _ => exit exitInternal
      | None =>
          runServeWithStore (su_opts su) active (su_cfg su) (cls (activeProfile (su_cfg su))) fuel n
      end
  end.
