(* ===== verification/ConfigProps.v ===== *)
(** * The configuration: which settings reach the program

    Every key a block may hold is looked up, layer by layer; no other key has any effect. *)

From S2P Require Import Prelude GoStd Config.
Import Config.

Open Scope Z_scope.
Open Scope tell_scope.

(** ** The schema and the lookups agree *)

Fixpoint field_in (fields : list (string * (Block -> setting))) (key : string) (b : Block)
    : option setting :=
  match fields with
  | [] => None
  | (k, proj) :: fields' => if bool_decide (key = k) then Some (proj b) else field_in fields' key b
  end.

Definition orelse {A} (x y : option A) : option A := match x with Some v => Some v | None => y end.

(** What a block says about a key: its field, the deprecated key folded into the one
    that replaces it. *)
Definition setting_of (b : Block) (key : string) : option setting :=
  if bool_decide (key = "notify-on-delivered-in-input-box")
  then Some (SBool (orelse (NotifyOnDeliveredInInputBox b) (NotifyOnDeliveredUnverified b)))
  else if bool_decide (key = "notify-on-delivered-unverified") then None
  else field_in toml_fields key b.

Definition lookups (b : Block) (key : string) : option Z * option bool * option Z * option string :=
  (blockIntField b key, blockBoolField b key, blockDurField b key, blockStringField b key).

(** The four lookups, from what the block says. *)
Definition as_lookups (s : option setting) : option Z * option bool * option Z * option string :=
  match s with
  | Some (SInt v) => (v, None, None, None)
  | Some (SBool v) => (None, v, None, None)
  | Some (SDur v) => (None, None, v, None)
  | Some (SString v) => (None, None, None, v)
  | None => (None, None, None, None)
  end.

Ltac each_key :=
  repeat match goal with
    | |- context [bool_decide (?k = ?s)] =>
        is_var k; destruct (bool_decide_reflect (k = s)) as [->|];
        [vm_compute; reflexivity|]
    end.

Lemma lookups_follow_schema b key : lookups b key = as_lookups (setting_of b key).
Proof.
  unfold lookups, setting_of, field_in, toml_fields, blockIntField, blockBoolField, blockDurField,
    blockStringField.
  each_key. reflexivity.
Qed.

(** ** The layers *)

Definition own_block (f : File) (agent : string) : Block := default no_settings (f_Agent f !! agent).

Lemma agent_field_own {A} (block : Block -> string -> option A) f agent key :
  block no_settings key = None -> agent_field block f agent key = block (own_block f agent) key.
Proof. intros H. unfold agent_field, own_block. by destruct (f_Agent f !! agent). Qed.

Lemma no_lookups key : lookups no_settings key = (None, None, None, None).
Proof.
  rewrite lookups_follow_schema. unfold setting_of, field_in, toml_fields. each_key. reflexivity.
Qed.

(** The value of a setting for an agent: its own block, the defaults, what the caller
    compiled in. *)
Definition layered {A} (own dflt : option A) (hardcoded : A) : A :=
  default hardcoded (orelse own dflt).

Lemma resolve_layers f agent key :
  (forall h, ResolveInt (Some f) agent key h =
     layered (blockIntField (own_block f agent) key) (blockIntField (f_Defaults f) key) h) /\
  (forall h, ResolveBool (Some f) agent key h =
     layered (blockBoolField (own_block f agent) key) (blockBoolField (f_Defaults f) key) h) /\
  (forall h, ResolveDuration (Some f) agent key h =
     layered (blockDurField (own_block f agent) key) (blockDurField (f_Defaults f) key) h) /\
  (forall h, ResolveString (Some f) agent key h =
     layered (nonempty (blockStringField (own_block f agent) key))
       (nonempty (blockStringField (f_Defaults f) key)) h).
Proof.
  pose proof (no_lookups key) as H. unfold lookups in H. injection H as Hi Hb Hd Hs.
  repeat split; intros h; cbv [ResolveInt ResolveBool ResolveDuration ResolveString agentIntField
    agentBoolField agentDurField agentStringField defaultIntField defaultBoolField defaultDurField
    defaultStringField layered orelse]; rewrite agent_field_own by assumption;
  by repeat case_match.
Qed.

(** The type of a key does not depend on the block. *)
Definition kind_of (s : option setting) : Z :=
  match s with
  | None => 0 | Some (SInt _) => 1 | Some (SBool _) => 2 | Some (SDur _) => 3 | Some (SString _) => 4
  end.

Lemma same_kind b b' key : kind_of (setting_of b key) = kind_of (setting_of b' key).
Proof.
  unfold setting_of, field_in, toml_fields.
  repeat (match goal with |- context [bool_decide (?k = ?s)] => destruct (bool_decide (k = s)) end;
          [reflexivity|]).
  reflexivity.
Qed.

(** Every key of the configuration schema is live and no other key is: for every
    file, agent and key, the four lookups return what the agent's own block says about
    the key (with the deprecated key folded into its successor), else what the defaults
    block says, else the compiled-in value; the lookup of another type than the key's,
    and every lookup of a key that is not in the schema, returns the compiled-in value
    whatever the file holds; for strings the empty text counts as not set. *)
Theorem knob_precedence f agent key hz hb hs :
  match setting_of (own_block f agent) key, setting_of (f_Defaults f) key with
  | Some (SInt v), Some (SInt w) =>
      ResolveInt (Some f) agent key hz = layered v w hz /\
      ResolveDuration (Some f) agent key hz = hz /\
      ResolveBool (Some f) agent key hb = hb /\ ResolveString (Some f) agent key hs = hs
  | Some (SDur v), Some (SDur w) =>
      ResolveDuration (Some f) agent key hz = layered v w hz /\
      ResolveInt (Some f) agent key hz = hz /\
      ResolveBool (Some f) agent key hb = hb /\ ResolveString (Some f) agent key hs = hs
  | Some (SBool v), Some (SBool w) =>
      ResolveBool (Some f) agent key hb = layered v w hb /\
      ResolveInt (Some f) agent key hz = hz /\
      ResolveDuration (Some f) agent key hz = hz /\ ResolveString (Some f) agent key hs = hs
  | Some (SString v), Some (SString w) =>
      ResolveString (Some f) agent key hs = layered (nonempty v) (nonempty w) hs /\
      ResolveInt (Some f) agent key hz = hz /\
      ResolveDuration (Some f) agent key hz = hz /\ ResolveBool (Some f) agent key hb = hb
  | None, None =>
      ResolveInt (Some f) agent key hz = hz /\ ResolveDuration (Some f) agent key hz = hz /\
      ResolveBool (Some f) agent key hb = hb /\ ResolveString (Some f) agent key hs = hs
  | _, _ => False
  end.
Proof.
  destruct (resolve_layers f agent key) as (Hi & Hb & Hd & Hs).
  rewrite !Hi, !Hb, !Hd, !Hs. clear Hi Hb Hd Hs.
  pose proof (lookups_follow_schema (own_block f agent) key) as H1.
  pose proof (lookups_follow_schema (f_Defaults f) key) as H2.
  unfold lookups in H1, H2. revert H1 H2.
  generalize (blockIntField (own_block f agent) key) (blockBoolField (own_block f agent) key)
    (blockDurField (own_block f agent) key) (blockStringField (own_block f agent) key)
    (blockIntField (f_Defaults f) key) (blockBoolField (f_Defaults f) key)
    (blockDurField (f_Defaults f) key) (blockStringField (f_Defaults f) key).
  generalize (same_kind (own_block f agent) (f_Defaults f) key).
  destruct (setting_of (own_block f agent) key) as [[| | |]|],
    (setting_of (f_Defaults f) key) as [[| | |]|]; cbn; intros Hk; try done;
    intros; by simplify_eq.
Qed.
