(* ===== verification/StartProps.v ===== *)
(** * What a mailman starts with *)

From S2P Require Import Prelude GoStd StoreTypes Priority TmuxIO PaneState ObserveGate Deliver Throttle Mailman Serve Send Window Config ServeConfig ConfigProps.
Import Config.

Open Scope Z_scope.
Open Scope tell_scope.

Section Knobs.
Context (fl : serveFlags) (cfg : File).
Notation own := (own_block cfg (fl_agent fl)).
Notation dflt := (f_Defaults cfg).

Lemma knob_int_layered given key d :
  knob_int fl cfg given key d = default (layered (blockIntField own key) (blockIntField dflt key) d) given.
Proof. unfold knob_int. by rewrite (proj1 (resolve_layers _ _ _)); destruct given. Qed.

Lemma knob_bool_layered given key d :
  knob_bool fl cfg given key d = default (layered (blockBoolField own key) (blockBoolField dflt key) d) given.
Proof. unfold knob_bool. by rewrite (proj1 (proj2 (resolve_layers _ _ _))); destruct given. Qed.

Lemma knob_dur_layered given key d :
  knob_dur fl cfg given key d = default (layered (blockDurField own key) (blockDurField dflt key) d) given.
Proof. unfold knob_dur. by rewrite (proj1 (proj2 (proj2 (resolve_layers _ _ _)))); destruct given. Qed.

Lemma string_layered agent key d :
  ResolveString (Some cfg) agent key d =
  layered (nonempty (blockStringField (own_block cfg agent) key)) (nonempty (blockStringField dflt key)) d.
Proof. apply (resolve_layers cfg agent key). Qed.

Lemma knob_string_layered given key d :
  knob_string fl cfg given key d =
  default (layered (nonempty (blockStringField own key)) (nonempty (blockStringField dflt key)) d) given.
Proof. unfold knob_string. by rewrite string_layered; destruct given. Qed.
End Knobs.

(** A text setting of the file. *)
Definition text_setting (proj : Block -> option string) (f : File) (agent d : string) : string :=
  layered (nonempty (proj (own_block f agent))) (nonempty (proj (f_Defaults f))) d.

(** A setting with a flag and a place in the file. *)
Definition flag_or_file {A} (given : option A) (proj : Block -> option A) (f : File) (agent : string)
    (d : A) : A :=
  default (layered (proj (own_block f agent)) (proj (f_Defaults f)) d) given.

Definition patterns_compile (compiles : string -> bool) (f : File) (agent : string) : Prop :=
  forall p, p ∈ [text_setting RateLimitPattern f agent EmptyString;
                 text_setting UsageLimitPattern f agent EmptyString] ->
  p = EmptyString \/ compiles p = true.

(** The settings that the flags and the file decide together. *)
Definition file_settings (fl : serveFlags) (f : File) (o : serveOpts) : Prop :=
  let a := fl_agent fl in
  let g := so_ObserveGateOpts o in
  so_GateDisabled o = flag_or_file (fl_gateDisabled fl) GateDisabled f a false /\
  o_PollIntervalMin g = flag_or_file (fl_pollIntervalMin fl) PollIntervalMin f a (3 * Time.Second) /\
  o_PollIntervalMax g = flag_or_file (fl_pollIntervalMax fl) PollIntervalMax f a (15 * Time.Second) /\
  o_InputStaleThreshold g =
    flag_or_file (fl_inputStaleThreshold fl) InputStaleThreshold f a (2 * Time.Minute) /\
  o_WorkingDeliverImmediately g =
    flag_or_file (fl_workingDeliverImmediately fl) WorkingDeliverImmediately f a false /\
  so_NotifyEmojiDisabled o = flag_or_file (fl_notifyEmojiDisabled fl) NotifyEmojiDisabled f a false /\
  so_PrePasteSafetyDisabled o =
    flag_or_file (fl_prePasteSafetyDisabled fl) PrePasteSafetyDisabled f a false /\
  so_DriftSoftFail o = flag_or_file (fl_driftSoftFail fl) DriftSoftFail f a false /\
  so_NotifyOnFailed o = flag_or_file (fl_notifyOnFailed fl) NotifyOnFailed f a true /\
  so_DedupeWindow o = flag_or_file None DedupeWindow f a (60 * Time.Second) /\
  so_ConfigDeliveryMode o = text_setting DeliveryMode f a EmptyString /\
  so_AlertTo o = default (text_setting MailmanAlertTo f a EmptyString) (fl_mailmanAlertTo fl).

(** The settings the file has no place for: the flag or the compiled-in value. *)
Definition flag_settings (fl : serveFlags) (o : serveOpts) : Prop :=
  so_StuckThreshold o = default 10 (fl_stuckThreshold fl) /\
  so_SessionStaleThreshold o = default 3 (fl_sessionStaleThreshold fl) /\
  so_MailmanStaleThreshold o = default (10 * Time.Minute) (fl_mailmanStaleThreshold fl) /\
  so_StuckPollInterval o = default (5 * Time.Second) (fl_stuckPollInterval fl) /\
  so_SpinGuardThreshold o = default 1000 (fl_spinGuardThreshold fl) /\
  so_SpinGuardWindow o = default (10 * Time.Second) (fl_spinGuardWindow fl) /\
  so_MaxConcurrentPerProvider o = default 3 (fl_maxConcurrentPerProvider fl) /\
  so_ProviderCapTTL o = default (6 * Time.Second) (fl_providerCapTTL fl) /\
  so_ProviderCapRecheckInterval o = default (1 * Time.Second) (fl_providerCapRecheck fl) /\
  so_ObservedStateInterval o = default (2 * Time.Second) (fl_observedStateInterval fl) /\
  so_PostDeliverCooldown o = default (5 * Time.Second) (fl_postDeliverCooldown fl) /\
  so_RateLimitResumeDisabled o = default false (fl_rateLimitResumeDisabled fl) /\
  so_RateLimitResumeMaxAttempts o = default 5 (fl_rateLimitResumeMaxAttempts fl).

(** Starting a mailman: for every set of flags and every file, [serve] refuses with
    the usage code exactly when the agent is not named, the strategy of the flag is
    unknown or a limit pattern of the file does not compile, and otherwise the loop
    starts for that agent with the strategy of the flag, every setting of the file
    taken from the flag, else the agent's block, else the defaults, else the default
    value, the limit patterns of the file in the classifier's profile, and the thirteen
    settings without a place in the file, the strategy and the settle delay taken from
    the flag alone. *)
Theorem serve_setup_correct fl f profile compiles PF ping :
  let a := fl_agent fl in
  let strategy := ParseStrategy (default "max" (fl_priorityStrategy fl)) in
  match serve_setup fl f profile compiles PF ping with
  | inl code =>
      code = exitUsage /\
      (a = EmptyString \/ is_ok strategy = false \/ ~ patterns_compile compiles f a)
  | inr su =>
      a ≠ EmptyString /\ patterns_compile compiles f a /\ so_Agent (su_opts su) = a /\
      strategy = Ok (so_PriorityStrategy (su_opts su)) /\
      file_settings fl f (su_opts su) /\ flag_settings fl (su_opts su) /\
      settleDelay (su_cfg su) = default (500 * Time.Millisecond) (fl_settleDelay fl) /\
      pp_RateLimitPattern (activeProfile (su_cfg su)) = text_setting RateLimitPattern f a EmptyString /\
      pp_UsageLimitPattern (activeProfile (su_cfg su)) = text_setting UsageLimitPattern f a EmptyString /\
      su_Retention su = text_setting Retention f a "infinite"
  end.
Proof.
  intros a strategy. unfold serve_setup.
  rewrite knob_string_layered.
  match goal with |- context [ParseStrategy ?s] =>
    change (ParseStrategy s) with strategy end. destruct strategy as [st|] eqn:Hst; [|by split; [|right; left]].
  assert (Hp : forall p, pattern_ok compiles p = true <-> p = EmptyString \/ compiles p = true)
    by (intros p; unfold pattern_ok; rewrite orb_true_iff, bool_decide_eq_true; done).
  assert (Hrl : rateLimitPattern fl f = text_setting RateLimitPattern f a EmptyString)
    by (unfold rateLimitPattern; rewrite string_layered; reflexivity).
  assert (Hul : usageLimitPattern fl f = text_setting UsageLimitPattern f a EmptyString)
    by (unfold usageLimitPattern; rewrite string_layered; reflexivity).
  rewrite Hrl, Hul.
  destruct (pattern_ok compiles (text_setting RateLimitPattern f a EmptyString)) eqn:Hr;
    [|split; [done|]; right; right; intros H; specialize (H _ ltac:(left)); apply Hp in H; congruence].
  destruct (pattern_ok compiles (text_setting UsageLimitPattern f a EmptyString)) eqn:Hu;
    [|split; [done|]; right; right; intros H; specialize (H _ ltac:(right; left)); apply Hp in H; congruence].
  cbn [negb]. fold a. case_bool_decide as Ha; [by split; [|left]|].
  split_and!; try done.
  - intros p Hin. apply Hp. apply elem_of_cons in Hin as [->|Hin]; [done|].
    by apply list_elem_of_singleton in Hin as ->.
  - unfold file_settings, serve_options, flag_or_file, text_setting.
    cbn -[default layered knob_bool knob_dur knob_string ResolveDuration ResolveString].
    rewrite !knob_bool_layered, !knob_dur_layered, knob_string_layered, string_layered.
    rewrite (proj1 (proj2 (proj2 (resolve_layers _ _ _)))).
    repeat split.
  - unfold flag_settings, serve_options. cbn -[default layered knob_bool knob_dur knob_int].
    rewrite !knob_bool_layered, !knob_dur_layered, !knob_int_layered. repeat split.
  - unfold su_cfg, deliver_cfg, settleDelay, knob_duration_text. rewrite string_layered.
    by destruct (fl_settleDelay fl).
  - cbn [su_Retention]. by rewrite string_layered.
Qed.

(** The deprecated flag is not a flag for the precedence: the file overrides it. *)
Lemma legacy_flag_loses_to_file :
  let fl := bare_flags "alice" in
  let fl := mkFlags (fl_agent fl) None None None None None None None None None None None None None None
              None None None (Some false) None None None None None None None None None None None None None
              None None None in
  let f := mkFile (mkBlock None None None None None None (Some true) None None None None None None None
                     None None None None None None None None None None None None None None None None
                     None None None None) ∅ [] in
  notify_in_input_box fl f = true /\ notify_in_input_box fl empty_file = false.
Proof. split; reflexivity. Qed.
