(* ===== verification/WindowProps.v ===== *)
(** * Windows given in days *)

From S2P Require Import Prelude GoStd Clock Window.
Import Str StrFacts.

Open Scope Z_scope.
Open Scope tell_scope.

(** ** Decimals *)

Lemma pretty_char_digit x :
  (x < 10)%N -> is_digit (pretty_N_char x) = true /\ byte_val (pretty_N_char x) - 48 = Z.of_N x.
Proof.
  intros H. assert (Hx : x ∈ map N.of_nat (seq 0 10)).
  { apply list_elem_of_In, in_map_iff. exists (N.to_nat x). split; [lia|]. apply in_seq. lia. }
  clear H. repeat (apply elem_of_cons in Hx as [->|Hx]; [by split|]). by apply not_elem_of_nil in Hx.
Qed.

(** Reading the digits of a number gives it back, whatever was read before. *)
Lemma digits_pretty (x : N) : exists k, 0 <= k /\
  forall acc s, digits_acc acc (pretty_N_go x s) = digits_acc (acc * 10 ^ k + Z.of_N x) s.
Proof.
  induction (N.lt_wf_0 x) as [x _ IH]. destruct (decide (x = 0%N)) as [->|Hx].
  - exists 0. split; [lia|]. intros acc s. rewrite pretty_N_go_0. f_equal. lia.
  - destruct (IH (x `div` 10)%N) as (k & Hk & Hrec); [apply N.div_lt; lia|].
    exists (k + 1). split; [lia|]. intros acc s. rewrite pretty_N_go_step by lia. rewrite Hrec.
    destruct (pretty_char_digit (x `mod` 10)%N) as [Hd Hv]; [apply N.mod_lt; lia|].
    cbn [digits_acc]. rewrite Hd, Hv. f_equal.
    rewrite N2Z.inj_mod, N2Z.inj_div. rewrite Z.pow_add_r by lia.
    pose proof (Z.div_mod (Z.of_N x) 10 ltac:(lia)). change (Z.of_N 10) with 10 in *. nia.
Qed.

Lemma itoa_pos n : 0 < n -> itoa n = pretty_N_go (Z.to_N n) EmptyString.
Proof.
  intros H. destruct n as [|p|p]; try lia. reflexivity.
Qed.

(** The text of a positive number: a digit and then digits. *)
Fixpoint all_digits (s : string) : bool :=
  match s with EmptyString => true | String a s' => is_digit a && all_digits s' end.

Lemma pretty_all_digits (x : N) s : all_digits s = true -> all_digits (pretty_N_go x s) = true.
Proof.
  revert s. induction (N.lt_wf_0 x) as [x _ IH]. intros s Hs. destruct (decide (x = 0%N)) as [->|Hx].
  - by rewrite pretty_N_go_0.
  - rewrite pretty_N_go_step by lia. apply IH; [apply N.div_lt; lia|]. cbn [all_digits].
    by rewrite (proj1 (pretty_char_digit (x `mod` 10)%N ltac:(apply N.mod_lt; lia))).
Qed.

Lemma digits_acc_shape n :
  0 < n -> all_digits (itoa n) = true /\ itoa n <> EmptyString /\ digits_acc 0 (itoa n) = Some n.
Proof.
  intros H. rewrite itoa_pos by done. destruct (digits_pretty (Z.to_N n)) as (k & _ & Hk).
  split_and!.
  - by apply pretty_all_digits.
  - intros E. specialize (Hk 0 EmptyString). rewrite E in Hk. cbn in Hk. injection Hk as Hk. lia.
  - rewrite Hk. cbn. f_equal. lia.
Qed.

Lemma Atoi_itoa n : 0 < n < 2 ^ 63 -> Atoi (itoa n) = Some n.
Proof.
  intros [H1 H2]. destruct (digits_acc_shape n H1) as (Hd & Hne & Hv).
  unfold Atoi. destruct (itoa n) as [|a s] eqn:E; [done|].
  cbn [all_digits] in Hd. apply andb_true_iff in Hd as [Hd _].
  rewrite (bool_decide_false (a = Ascii.ascii_of_nat 45)) by (intros ->; vm_compute in Hd; discriminate).
  rewrite (bool_decide_false (a = Ascii.ascii_of_nat 43)) by (intros ->; vm_compute in Hd; discriminate).
  rewrite Hv. by rewrite (proj2 (Z.leb_le (- 2 ^ 63) n)), (proj2 (Z.ltb_lt n (2 ^ 63))) by lia.
Qed.

(** ** Blanks and case *)

Lemma digit_lower a : is_digit a = true -> lower_byte a = a.
Proof.
  unfold is_digit, byte_val, lower_byte. rewrite andb_true_iff, !Z.leb_le. intros H.
  destruct (_ && _) eqn:E; [|done]. bsimp. apply Nat.leb_le in H0, H1. lia.
Qed.

Lemma digits_lower s t : all_digits s = true -> ToLower (s +:+ t) = s +:+ ToLower t.
Proof.
  intros Hs. unfold ToLower. rewrite map_bytes_app. f_equal. induction s as [|a s IH]; [done|].
  cbn [all_digits map_bytes] in *. apply andb_true_iff in Hs as [Ha Hs]. by rewrite digit_lower, IH.
Qed.

Definition last_byte (s : string) : string := drop (String.length s - 1) s.

Lemma drop_drop a b s : drop a (drop b s) = drop (b + a) s.
Proof. revert s. induction b as [|b IH]; intros [|c s]; cbn; rewrite ?drop_nil; auto. Qed.

Lemma suffix_last s e : e <> EmptyString -> HasSuffix s e = true -> last_byte e = last_byte s.
Proof.
  unfold HasSuffix, last_byte. intros Hne [Hl He]%andb_true_iff.
  apply bool_decide_eq_true in Hl, He. rewrite <- He at 2. rewrite drop_drop. f_equal.
  destruct e; [done|]. cbn in *. lia.
Qed.

(** Digits and a unit have no blanks around them. *)
Lemma digits_trimmed s u :
  all_digits s = true -> s <> EmptyString -> Forall (fun e => e <> EmptyString /\ last_byte e <> last_byte (s +:+ u)) space_runes ->
  TrimSpace (s +:+ u) = s +:+ u.
Proof.
  intros Hs Hne Hl. unfold TrimSpace, TrimLeft, TrimRight. rewrite trim_left_id.
  - apply trim_right_id, find_none_iff. eapply List.Forall_impl; [|exact Hl]. intros e [Hne' He].
    apply not_true_is_false. intros H. apply He. by apply suffix_last.
  - apply find_none_iff. destruct s as [|a s]; [done|]. cbn [all_digits] in Hs.
    apply andb_true_iff in Hs as [Ha _].
    assert (H : forall e, match e with String b _ => is_digit b | EmptyString => true end = false ->
                HasPrefix (String a s +:+ u) e = false).
    { intros [|b e]; [done|]. intros Hb. cbn. destruct (Ascii.ascii_dec b a) as [->|]; [congruence|done]. }
    repeat (apply List.Forall_cons; [by apply H|]). apply List.Forall_nil.
Qed.

(** ** The window of some days *)

Definition days_text (n : Z) : string := itoa n +:+ "d".

Lemma days_last n : last_byte (days_text n) = "d".
Proof.
  unfold last_byte, days_text. rewrite string_length_app. cbn [String.length].
  replace (String.length (itoa n) + 1 - 1)%nat with (String.length (itoa n)) by lia. apply drop_app.
Qed.

Lemma days_normal n : 0 < n -> TrimSpace (ToLower (days_text n)) = days_text n.
Proof.
  intros H. destruct (digits_acc_shape n H) as (Hd & Hne & _). unfold days_text.
  rewrite digits_lower by done. change (ToLower "d") with "d". apply digits_trimmed; [done..|].
  fold (days_text n). rewrite days_last.
  repeat (apply List.Forall_cons; [split; vm_compute; discriminate|]). apply List.Forall_nil.
Qed.

(** It is none of the words. *)
Lemma days_word n w :
  0 < n -> match w with String a _ => is_digit a | EmptyString => false end = false -> days_text n <> w.
Proof.
  intros H Hw <-. destruct (digits_acc_shape n H) as (Hd & Hne & _). unfold days_text in Hw.
  destruct (itoa n) as [|a s]; [done|]. cbn in Hd, Hw. by rewrite Hw in Hd.
Qed.

Lemma days_cut n : CutSuffix (days_text n) "d" = Some (itoa n).
Proof.
  unfold CutSuffix, TrimSuffix, days_text.
  assert (E : HasSuffix (itoa n +:+ "d") "d" = true).
  { unfold HasSuffix. rewrite string_length_app. cbn [String.length]. rewrite bool_decide_true by lia.
    replace (String.length (itoa n) + 1 - 1)%nat with (String.length (itoa n)) by lia.
    by rewrite drop_app, bool_decide_true. }
  rewrite E, string_length_app. cbn [String.length].
  replace (String.length (itoa n) + 1 - 1)%nat with (String.length (itoa n)) by lia.
  by rewrite take_whole.
Qed.

Lemma days_window midnight n now :
  0 < n < 2 ^ 63 ->
  parseWindow midnight (days_text n) now =
  let d := Time.wrap64 (Time.wrap64 (n * 24) * Time.Hour) in
  if d <=? 0 then Err (ErrMsg ("invalid window " +:+ Quote (days_text n) +:+ ": must be a positive duration"))
  else Ok (Since (now - d)).
Proof.
  intros H. assert (Hw : forall w, match w with String a _ => is_digit a | EmptyString => false end = false ->
    days_text n <> w) by (intros w; apply days_word; lia).
  unfold parseWindow. rewrite days_normal by lia.
  rewrite (bool_decide_false (days_text n = EmptyString)) by by apply Hw.
  rewrite (bool_decide_false (days_text n = "all")) by by apply Hw.
  rewrite (bool_decide_false (days_text n = "now")) by by apply Hw.
  unfold calendarSince.
  rewrite (bool_decide_false (days_text n ∈ _)).
  2: { intros [E|[E|[]%not_elem_of_nil]%elem_of_cons]%elem_of_cons; by eapply Hw in E. }
  rewrite (bool_decide_false (days_text n = "yesterday")) by by apply Hw.
  rewrite (bool_decide_false (days_text n = "week")) by by apply Hw.
  unfold window_length. by rewrite days_cut, Atoi_itoa by lia.
Qed.

(** The largest number of days that fits an int64 of nanoseconds. *)
Definition max_days : Z := 106751.

(** Windows in days.  For every number of days, a window that is accepted lies in
    the past; up to 106751 days it is accepted and starts exactly that many times 24
    hours before now; it is never the unbounded one. *)
Theorem window_in_days midnight n now :
  0 < n < 2 ^ 63 ->
  match parseWindow midnight (days_text n) now with
  | Ok (Since t) => t < now /\ (n <= max_days -> t = now - n * (24 * Time.Hour))
  | Ok All => False
  | Err _ => max_days < n
  end.
Proof.
  intros H. rewrite days_window by done. cbv zeta.
  assert (Hd : n <= max_days -> Time.wrap64 (Time.wrap64 (n * 24) * Time.Hour) = n * (24 * Time.Hour)).
  { unfold max_days. intros Hn. rewrite (wrap64_id (n * 24)) by lia.
    change Time.Hour with 3600000000000. rewrite wrap64_id by lia. lia. }
  destruct (Z.leb_spec (Time.wrap64 (Time.wrap64 (n * 24) * Time.Hour)) 0) as [Hle|Hlt].
  - destruct (Z_le_gt_dec n max_days) as [Hn|Hn]; [|lia]. rewrite (Hd Hn) in Hle.
    change Time.Hour with 3600000000000 in Hle. lia.
  - split; [lia|]. intros Hn. by rewrite (Hd Hn).
Qed.

Lemma window_in_days_witness :
  parseWindow (fun t _ => t) "7d" 0 = Ok (Since (- (7 * 24 * 3600 * 1000000000))).
Proof.
  pose proof (window_in_days (fun t _ => t) 7 0 ltac:(lia)) as H.
  change (days_text 7) with "7d" in H.
  destruct (parseWindow (fun t _ => t) "7d" 0) as [[|t]|e]; [done| |unfold max_days in H; lia].
  destruct H as [_ H]. by rewrite (H ltac:(unfold max_days; lia)).
Defined.

(** 584 years are 25 minutes: the product wraps. *)
Lemma many_days_wrap now :
  parseWindow (fun t _ => t) "213504d" now = Ok (Since (now - 1526290448384)).
Proof. reflexivity. Qed.
