(* ===== verification/Upkeep.v ===== *)
(** * Keeping the bus tidy (internal/cli: stranded.go, reset.go, reap.go,
      observe_mailmen.go, and the retention sweep of serve.go)

    The drafts that a delivery pushed aside and their recovery, the commands that
    delete or dead-letter rows, the periodic sweeps, and the observer that reports
    mailmen that died. *)

From S2P Require Import Prelude GoStd Clock StoreTypes Messages Queue Queries Agents TmuxIO PaneState ObserveGate Throttle Mailman Serve Send Identity Window Config.

Open Scope Z_scope.
Open Scope tell_scope.

(** ** Stranded drafts *)

Definition strandedHeaderLine : string := ":bookmark: Stranded draft snapshot".
Definition strandedPanePrefix : string := "  Pane: ".
Definition strandedTriggerPrefix : string := "  Triggered by delivery of: ".
Definition strandedContentMarker : string := "  Cleared content:".
Definition strandedEmptyMarker : string := "(empty)".

Record strandedBookmark : Type := mkBookmark {
  bm_ID : string;
  bm_Pane : string;
  bm_TriggeredBy : string;
  bm_CreatedAt : string;
  bm_Bytes : Z;
  bm_Content : string
}.

(** The lines before the content marker, and those after it when there is one. *)
Fixpoint read_header (lines : list string) (pane trig : string) : string * string * option (list string) :=
  match lines with
  | [] => (pane, trig, None)
  | ln :: lines' =>
      if bool_decide (ln = strandedContentMarker) then (pane, trig, Some lines')
      else if Str.HasPrefix ln strandedPanePrefix
           then read_header lines' (Str.TrimPrefix ln strandedPanePrefix) trig
      else if Str.HasPrefix ln strandedTriggerPrefix
           then read_header lines' pane (Str.TrimPrefix ln strandedTriggerPrefix)
      else read_header lines' pane trig
  end.

(** Pane, trigger, content, and whether the body has the expected shape. *)
Definition parseStrandedBody (body : string) : string * string * string * bool :=
  let lines := Str.Lines body in
  match lines with
  | first :: _ =>
      if negb (bool_decide (first = strandedHeaderLine)) then (EmptyString, EmptyString, EmptyString, false)
      else match read_header lines EmptyString EmptyString with
           | (pane, trig, None) => (pane, trig, EmptyString, false)
           | (pane, trig, Some rest) =>
               let content := Str.Join (map (fun l => Str.TrimPrefix l strandedBodyIndent) rest) nl_str in
               (pane, trig, if bool_decide (content = strandedEmptyMarker) then EmptyString else content, true)
           end
  | [] => (EmptyString, EmptyString, EmptyString, false)
  end.

Definition bookmark_of (m : Message) : strandedBookmark :=
  let '(pane, trig, content, ok) := parseStrandedBody (m_Body m) in
  mkBookmark (m_PublicID m) (if ok : bool then pane else "(unparseable)") trig (m_CreatedAt m)
    (Z.of_nat (String.length content)) content.

Definition listStrandedBookmarks (agent : string) : M (result (list strandedBookmark)) :=
  r <! store_read "ListMessages"
         (ListMessages (mkListFilter agent EmptyString EmptyString None (Some KindStrandedDraft) 1000
                          EmptyString false false false false false)) ;;
  go (match r with
      | Err e | Ok (Err e) => Err e
      | Ok (Ok msgs) => Ok (map bookmark_of msgs)
      end).

(** What a command leaves: an error with its exit code, or its result. *)
Inductive outcome (A : Type) : Type :=
  | Failed (msg : string) (code : Z)
  | Done (a : A).
Arguments Failed {A} msg code.
Arguments Done {A} a.

(** [list] writes a row without the content for each bookmark. *)
Definition runStrandedListWithStore (agent format : string)
    : M (outcome (list (string * string * string * string * Z))) :=
  if negb (bool_decide (format ∈ [EmptyString; "text"; "json"]))
  then go (Failed ("unknown --format: " +:+ format) exitUsage)
  else
    r <! listStrandedBookmarks agent ;;
    go (match r with
        | Err e => Failed (error_text e) exitInternal
        | Ok bms => Done (map (fun b => (bm_ID b, bm_Pane b, bm_TriggeredBy b, bm_CreatedAt b, bm_Bytes b)) bms)
        end).

(** The content of a bookmark, the raw body when it does not parse. *)
Definition shown_content (m : Message) : string :=
  let '(_, _, content, ok) := parseStrandedBody (m_Body m) in if ok : bool then content else m_Body m.

(** [show]: to the standard output with a final newline, or to a file as it is. *)
Definition runStrandedShowWithStore (id : string) (to_file : bool) : M (outcome string) :=
  r <! store "GetMessage" (fun _ d => (GetMessage id d, d)) ;;
  go (match r with
      | Err e => if errors_Is e ErrNotFound then Failed ("unknown id: " +:+ id) exitDataErr
                 else Failed (error_text e) exitInternal
      | Ok m =>
          if negb (bool_decide (m_Kind m = KindStrandedDraft))
          then Failed (id +:+ " is kind=" +:+ Kind_string (m_Kind m) +:+ ", not a stranded-draft bookmark") exitDataErr
          else let content := shown_content m in
               Done (if to_file || Str.HasSuffix content nl_str then content else content +:+ nl_str)
      end).

Section Upkeep.
(** Local midnight of an earlier day, as in [parseWindow]. *)
Context (midnight : Z -> Z -> Z).

(** [w.Since.UTC().Format(strandedTimeFormat)] of a window that is not "all". *)
Definition cutoff_of (spec : string) (now : Z) : result (option string) :=
  w <-? parseWindow midnight spec now ;;
  Ok (match w with All => None | Since t => Some (Time.formatISO t) end).

Definition runStrandedPruneWithStore (agent olderThan : string) (now : Z) : M (outcome Z) :=
  if str_empty (Str.TrimSpace olderThan)
  then go (Failed "--older-than is required (e.g. --older-than 7d)" exitUsage)
  else match cutoff_of olderThan now with
       | Err e => go (Failed (error_text e) exitUsage)
       | Ok None => go (Failed "--older-than 'all' is not meaningful for prune; give a duration" exitUsage)
       | Ok (Some cutoff) =>
           r <! store "DeleteStrandedDraftsBefore" (fun _ d => DeleteStrandedDraftsBefore agent cutoff d) ;;
           go (match r with Err e => Failed (error_text e) exitInternal | Ok n => Done n end)
       end.

Definition not_meaningful : string :=
  "--older-than 'all' is not meaningful; give a duration (e.g. 7d, 24h)".

(** ** Reset *)

Definition reset_state (p : string) : option State :=
  if bool_decide (p = "delivered") then Some StateDelivered
  else if bool_decide (p = "failed") then Some StateFailed
  else if bool_decide (p = "acknowledged") then Some StateAcknowledged
  else None.

Definition parseResetStateFilter (filter : string) : result (list State) :=
  if str_empty filter then Ok [StateDelivered; StateFailed]
  else
    foldr (fun p acc =>
             match reset_state (Str.TrimSpace p) with
             | None => Err (ErrMsg ("--state " +:+ Str.Quote (Str.TrimSpace p) +:+
                         ": only 'delivered', 'failed', and 'acknowledged' are valid with --older-than"))
             | Some st => sts <-? acc ;; Ok (st :: sts)
             end) (Ok []) (Str.Split (Ascii.ascii_of_nat 44) filter).

Definition runResetOlderThan (agent olderThan stateFilter : string) (now : Z) : M (outcome Z) :=
  match cutoff_of olderThan now with
  | Err e => go (Failed (error_text e) exitUsage)
  | Ok None => go (Failed not_meaningful exitUsage)
  | Ok (Some cutoff) =>
      match parseResetStateFilter stateFilter with
      | Err e => go (Failed (error_text e) exitUsage)
      | Ok states =>
          r <! store "DeleteMessagesBefore" (fun _ d => DeleteMessagesBefore agent cutoff states d) ;;
          go (match r with Err e => Failed (error_text e) exitInternal | Ok n => Done n end)
      end
  end.

Definition runResetWithStore (agent : string) (hard : bool) (olderThan stateFilter : string) (now : Z)
    : M (outcome Z) :=
  if negb (str_empty olderThan) then
    if hard then go (Failed "--older-than and --hard are mutually exclusive" exitUsage)
    else runResetOlderThan agent olderThan stateFilter now
  else
    let states := [StateQueued; StateDelivering] ++ (if hard then [StateDelivered; StateFailed] else []) in
    r <! store "DeleteMessages" (fun _ d => DeleteMessages agent states d) ;;
    go (match r with Err e => Failed (error_text e) exitInternal | Ok n => Done n end).

(** The command: without [--confirm] nothing is opened. *)
Definition runResetCLI (confirm hard : bool) (agent olderThan stateFilter : string) : M (outcome Z) :=
  if negb confirm then go (Failed "--confirm required (reset is destructive)" exitUsage)
  else now <! lift time_Now ;; runResetWithStore agent hard olderThan stateFilter now.

(** ** Reaping *)

Definition reap_reason (olderThan : string) : string :=
  "dead-letter-reap: recipient unreachable, queued >" +:+ olderThan +:+ ", never claimed (#726)".

(** What [reap] reports: the rows it would take, or how many it took. *)
Inductive reap_answer : Type :=
  | WouldReap (cands : list ReapCandidate)
  | Reaped (n : Z).

Definition runReapWithStore (agent olderThan : string) (dryRun : bool) (now : Z) : M (outcome reap_answer) :=
  match cutoff_of olderThan now with
  | Err e => go (Failed (error_text e) exitUsage)
  | Ok None => go (Failed not_meaningful exitUsage)
  | Ok (Some cutoff) =>
      if dryRun then
        r <! store_read "ListReapableUndeliverable" (ListReapableUndeliverable agent cutoff) ;;
        go (match r with Err e => Failed (error_text e) exitInternal | Ok cands => Done (WouldReap cands) end)
      else
        r <! store_ok "ReapUndeliverable"
               (fun now' d => ReapUndeliverable agent cutoff (reap_reason olderThan) now' d) ;;
        go (match r with Err e => Failed (error_text e) exitInternal | Ok n => Done (Reaped n) end)
  end.

Definition runReapCLI (dryRun confirm : bool) (olderThan agent : string) : M (outcome reap_answer) :=
  if Bool.eqb dryRun confirm then
    go (Failed "reap dead-letters rows: pass exactly one of --dry-run (preview) or --confirm (proceed)" exitUsage)
  else now <! lift time_Now ;; runReapWithStore agent olderThan dryRun now.

(** ** The retention sweep beside the serve loop *)

(** One tick. *)
Definition retention_tick (agent retention : string) : M unit :=
  now <! lift time_Now ;;
  match cutoff_of retention now with
  | Err _ | Ok None => skip
  | Ok (Some cutoff) =>
      _ <! store "DeleteMessagesBefore"
             (fun _ d => DeleteMessagesBefore agent cutoff [StateDelivered; StateFailed] d) ;;
      skip
  end.

Definition sweep_interval (interval : Z) : Z :=
  if interval <=? 0 then Config.DefaultRetentionSweepInterval else interval.

(** The goroutine, for as many ticks as [n]; it ends when the mailman is stopped. *)
Fixpoint runRetentionSweep (n : nat) (agent retention : string) (interval : Z) : M unit :=
  match n with
  | O => skip
  | S n' =>
      stop <! lift (stopOrSleep (sweep_interval interval)) ;;
      if stop then skip
      else _ <! retention_tick agent retention ;; runRetentionSweep n' agent retention interval
  end.

(** [if opts.Retention != "" && opts.Retention != DefaultRetention { go ... }]. *)
Definition start_retention (n : nat) (agent retention : string) (interval : Z) : M unit :=
  when (negb (str_empty retention) && negb (bool_decide (retention = Config.DefaultRetention)))
    (runRetentionSweep n agent retention interval).

(** ** The observer *)

Record mailmanObservation : Type := mkObs {
  ob_active : bool;
  ob_enabled : bool;
  ob_restarts : Z;
  ob_result : string
}.

Record mailmanEpisode : Type := mkEpisode {
  ep_inactiveSamples : Z;
  ep_restartStable : Z;
  ep_lastRestarts : Z;
  ep_alerted : bool
}.

Definition fresh_episode (restarts : Z) : mailmanEpisode := mkEpisode 0 0 restarts false.

Definition unit_property (out key : string) : string :=
  foldl (fun acc line =>
           match Str.Cut (Ascii.ascii_of_nat 61) line with
           | Some (k, v) => if bool_decide (k = key) then v else acc
           | None => acc
           end) EmptyString (Str.Lines out).

Definition observation_of (out : string) : mailmanObservation :=
  mkObs (bool_decide (unit_property out "ActiveState" = "active"))
    (bool_decide (unit_property out "UnitFileState" ∈ ["enabled"; "enabled-runtime"]))
    (default 0 (Str.Atoi (unit_property out "NRestarts"))) (unit_property out "Result").

(** What one sample of an enabled unit does to its episode, and the reason to alert. *)
Definition sample (obs : mailmanObservation) (ep : mailmanEpisode) : mailmanEpisode * string :=
  if negb (ob_active obs) then
    let n := ep_inactiveSamples ep + 1 in
    (mkEpisode n 0 (ep_lastRestarts ep) (ep_alerted ep),
     if 2 <=? n then "unit inactive for " +:+ Str.itoa n +:+ " consecutive sweeps (result=" +:+
                     ob_result obs +:+ ")"
     else EmptyString)
  else
    let delta := ob_restarts obs - ep_lastRestarts ep in
    let alerted := if 0 <? ep_inactiveSamples ep then false else ep_alerted ep in
    let '(stable, alerted) :=
      if delta =? 0 then
        let stable := ep_restartStable ep + 1 in (stable, if 2 <=? stable then false else alerted)
      else (0, alerted) in
    (mkEpisode 0 stable (ep_lastRestarts ep) alerted,
     if 3 <=? delta then "restart loop: NRestarts increased from " +:+ Str.itoa (ep_lastRestarts ep) +:+
                         " to " +:+ Str.itoa (ob_restarts obs)
     else EmptyString).

Definition settle_episode (obs : mailmanObservation) (ep : mailmanEpisode) (alerted : bool) : mailmanEpisode :=
  mkEpisode (ep_inactiveSamples ep) (ep_restartStable ep) (ob_restarts obs) alerted.

(** The episode after a sample whose notice, if any, was sent, and the reason of that
    notice. *)
Definition turn (obs : mailmanObservation) (ep : mailmanEpisode) : mailmanEpisode * option string :=
  if negb (ob_enabled obs) then (fresh_episode (ob_restarts obs), None)
  else
    let '(ep1, reason) := sample obs ep in
    if str_empty reason then (settle_episode obs ep1 (ep_alerted ep1), None)
    else (settle_episode obs ep1 true, if ep_alerted ep1 then None else Some reason).

(** The combined output of [systemctl --user] and its error, if it failed. *)
Context (systemctl : history -> list string -> string * option error).

Definition inspectMailmanUnit (unit : string) : M (result mailmanObservation) :=
  out <! ask "systemctl" (fun _ h => systemctl h
           ["show"; unit; "--property=ActiveState"; "--property=UnitFileState"; "--property=NRestarts";
            "--property=Result"]) ;;
  go (match snd out with
      | Some e => Err (ErrWrap ("systemctl show: " +:+ error_text e +:+ ": " +:+ Str.TrimSpace (fst out)) e)
      | None => Ok (observation_of (fst out))
      end).

Definition unit_of (agent : string) : M string :=
  r <! store_read "ProviderCapConfig" (ProviderCapConfig agent) ;;
  go (mailmanUnit (match r with Ok (provider, _) => provider | Err _ => EmptyString end) agent).

Definition dead_mailman_body (agent reason unit : string) : string :=
  ":warning: Mailman for " +:+ agent +:+ " is not healthy — " +:+ reason +:+
  ". Check `systemctl --user status " +:+ unit +:+ "` and the user journal.".

(** One agent: its new episode ([None] when it has none), or the error that ends the
    sweep together with the episode it leaves. *)
Definition observe_agent (conductor : string) (a : Agent) (ep : option mailmanEpisode)
    : M (option mailmanEpisode * option error) :=
  if negb (str_empty (a_delivery_mode a)) && negb (bool_decide (a_delivery_mode a = DeliveryModePasteAndEnter))
  then go (None, None)
  else
    unit <! unit_of (a_name a) ;;
    o <! inspectMailmanUnit unit ;;
    match o with
    | Err _ => go (ep, None)
    | Ok obs =>
        let ep0 := default (fresh_episode (ob_restarts obs)) ep in
        match turn obs ep0 with
        | (ep1, None) => go (Some ep1, None)
        | (ep1, Some reason) =>
            unit' <! unit_of (a_name a) ;;
            r <! insert_notice (simple_params (a_name a) conductor
                                  (dead_mailman_body (a_name a) reason unit') (Some KindDeadMailmanNotice)) ;;
            match r with
            | Err e => go (Some (fst (sample obs ep0)), Some (ErrWrap ("alert " +:+ a_name a) e))
            | Ok _ => go (Some ep1, None)
            end
        end
    end.

Definition put_episode (name : string) (ep : option mailmanEpisode) (eps : gmap string mailmanEpisode)
    : gmap string mailmanEpisode :=
  match ep with Some ep => <[name := ep]> eps | None => delete name eps end.

Fixpoint observe_agents (conductor : string) (agents : list Agent) (eps : gmap string mailmanEpisode)
    : M (gmap string mailmanEpisode * option error) :=
  match agents with
  | [] => go (eps, None)
  | a :: agents' =>
      r <! observe_agent conductor a (eps !! a_name a) ;;
      let eps' := put_episode (a_name a) (fst r) eps in
      match snd r with
      | Some e => go (eps', Some e)
      | None => observe_agents conductor agents' eps'
      end
  end.

(** A sweep; the episodes of agents that are gone are dropped at its end. *)
Definition observeMailmenSweep (conductor : string) (eps : gmap string mailmanEpisode)
    : M (gmap string mailmanEpisode * option error) :=
  r <! store_read "ListAgents" ListAgents ;;
  match r with
  | Err e => go (eps, Some e)
  | Ok agents =>
      o <! observe_agents conductor agents eps ;;
      match snd o with
      | Some e => go o
      | None => go (filter (fun p => fst p ∈ map a_name agents) (fst o), None)
      end
  end.

Definition auto_reap_reason (olderThan : string) : string :=
  "dead-letter-reap: recipient unreachable, queued >" +:+ olderThan +:+ ", never claimed (#726/#836 auto-reap)".

Definition observerReapSweep (olderThan : string) (now : Z) : M (result Z) :=
  match cutoff_of olderThan now with
  | Err e => go (Err (ErrWrap ("auto-reap: parse older-than " +:+ Str.Quote olderThan) e))
  | Ok None => go (Err (ErrMsg ("auto-reap: older-than " +:+ Str.Quote olderThan +:+
                               " resolves to 'all'; refusing to reap every queued row")))
  | Ok (Some cutoff) =>
      r <! store_ok "ReapUndeliverable"
             (fun now' d => ReapUndeliverable EmptyString cutoff (auto_reap_reason olderThan) now' d) ;;
      go (match r with Err e => Err (ErrWrap "auto-reap" e) | Ok n => Ok n end)
  end.

Record autoReapConfig : Type := mkReapConfig { rc_enabled : bool; rc_interval : Z; rc_olderThan : string }.

Definition resolveAutoReap (cfg : option Config.File) : autoReapConfig :=
  mkReapConfig (Config.ResolveBool cfg EmptyString "auto-reap-enabled" false)
    (Config.ResolveDuration cfg EmptyString "auto-reap-interval" Config.DefaultAutoReapInterval)
    (Config.ResolveString cfg EmptyString "auto-reap-older-than" Config.DefaultAutoReapOlderThan).

(** [last] is nothing before the first pass: the difference to the zero time saturates. *)
Definition dueForReap (enabled : bool) (last : option Z) (now interval : Z) : bool :=
  enabled && (interval <=? match last with Some t => now - t | None => 2 ^ 63 - 1 end).

(** One turn of the observer's loop. *)
Definition observer_turn (conductor : string) (reap : autoReapConfig)
    (st : gmap string mailmanEpisode * option Z) : M (gmap string mailmanEpisode * option Z) :=
  let '(eps, last) := st in
  now <! lift time_Now ;;
  r <! (if str_empty conductor then go (eps, None) else observeMailmenSweep conductor eps) ;;
  if dueForReap (rc_enabled reap) last now (rc_interval reap)
  then _ <! observerReapSweep (rc_olderThan reap) now ;; go (fst r, Some now)
  else go (fst r, last).

(** [n] turns, a pause after each; the process ends only when it is killed. *)
Fixpoint observer_loop (n : nat) (conductor : string) (reap : autoReapConfig) (interval : Z)
    (st : gmap string mailmanEpisode * option Z) : M (gmap string mailmanEpisode * option Z) :=
  match n with
  | O => go st
  | S n' =>
      st' <! observer_turn conductor reap st ;;
      _ <! lift (background (wait interval)) ;;
      observer_loop n' conductor reap interval st'
  end.

End Upkeep.
