(* ===== verification/UpkeepProps.v ===== *)
(** * Recovering drafts, windows, sweeps, and the observer's alerts *)

From S2P Require Import Prelude GoStd Clock StoreTypes Messages Queue Queries Agents Invariants Lifecycle QueueProps ThreadProps TmuxIO PaneState ObserveGate Throttle Mailman Serve Send Identity Window Config Upkeep Runs.
Import Str StrFacts.

Open Scope Z_scope.
Open Scope tell_scope.

(** ** Lines of a text *)

Definition one_line (s : string) : Prop := has_byte nl s = false.

Lemma Split_one c s : has_byte c s = false -> Split c s = [s].
Proof.
  induction s as [|a s IH]; [done|]. simpl. intros [Ha Hs]%orb_false_iff.
  rewrite Ha. by rewrite IH.
Qed.

Lemma Split_cons c s t : has_byte c s = false -> Split c (s +:+ String c t) = s :: Split c t.
Proof.
  induction s as [|a s IH]; simpl.
  - by rewrite bool_decide_true.
  - intros [Ha Hs]%orb_false_iff. rewrite Ha. by rewrite IH.
Qed.

(** Splitting undoes joining when no piece holds the separator. *)
Lemma Split_Join c l :
  l <> [] -> Forall (fun s => has_byte c s = false) l -> Split c (Join l (String c EmptyString)) = l.
Proof.
  intros Hne Hl. induction Hl as [|s l Hs Hl IH]; [done|].
  destruct l as [|s' l]; [by apply Split_one|].
  change (Join (s :: s' :: l) (String c EmptyString)) with
    (s +:+ String c EmptyString +:+ Join (s' :: l) (String c EmptyString)).
  change (String c EmptyString +:+ ?x) with (String c x). rewrite Split_cons by done.
  f_equal. by apply IH.
Qed.

Lemma nl_str_eq : nl_str = String nl EmptyString.
Proof. reflexivity. Qed.

Lemma Lines_Join l : l <> [] -> Forall one_line l -> Lines (Join l nl_str) = l.
Proof. apply Split_Join. Qed.

Lemma Count_has_byte c s : Count c s = 0 -> has_byte c s = false.
Proof.
  induction s as [|a s IH]; [done|]. simpl. case_bool_decide as E.
  - intros H. assert (0 <= Count c s); [|lia]. clear. induction s; simpl; [lia|]. case_bool_decide; lia.
  - intros H. by rewrite IH.
Qed.

Lemma Lines_one_line s : Forall one_line (Lines s).
Proof. apply Forall_forall. intros l Hl. apply Count_has_byte. by eapply Split_no_sep. Qed.

Lemma TrimPrefix_app p s : TrimPrefix (p +:+ s) p = s.
Proof. unfold TrimPrefix. by rewrite HasPrefix_app, drop_app. Qed.

(** ** Stranded drafts *)

Lemma one_line_app s t : one_line s -> one_line t -> one_line (s +:+ t).
Proof. unfold one_line. rewrite has_byte_app. intros -> ->. done. Qed.

Lemma indent_lines c :
  c <> EmptyString ->
  Lines (indentForBody c) = map (fun l => strandedBodyIndent +:+ l) (Lines c).
Proof.
  intros Hc. unfold indentForBody. rewrite bool_decide_false by done. apply Lines_Join.
  - intros H%map_eq_nil. by apply (Split_not_nil nl c).
  - apply Forall_map. eapply Forall_impl; [apply Lines_one_line|]. intros l Hl. by apply one_line_app.
Qed.

(** The lines around the content. *)
Definition header_lines (active : Profile) (pane trig : string) : list string :=
  [strandedHeaderLine; strandedPanePrefix +:+ pane; strandedTriggerPrefix +:+ trig;
   "  Recover: " +:+ pf_BinaryName active +:+ " stranded list  →  "
     +:+ pf_BinaryName active +:+ " stranded show <id>";
   "  Note: content is the visible terminal area at capture time — text scrolled above the screen may not appear.";
   strandedContentMarker].

Lemma Join_app_lines l1 s : l1 <> [] -> Join (l1 ++ [s]) nl_str = Join l1 nl_str +:+ nl_str +:+ s.
Proof.
  induction l1 as [|x l1 IH]; [done|]. intros _. destruct l1 as [|y l1]; [done|].
  change (Join ((x :: y :: l1) ++ [s]) nl_str) with (x +:+ nl_str +:+ Join ((y :: l1) ++ [s]) nl_str).
  rewrite IH by done.
  change (Join (x :: y :: l1) nl_str) with (x +:+ nl_str +:+ Join (y :: l1) nl_str).
  by rewrite !string_app_assoc.
Qed.

Lemma Split_app c s t : Split c (s +:+ String c t) = Split c s ++ Split c t.
Proof.
  induction s as [|a s IH]; simpl.
  - by rewrite bool_decide_true.
  - case_bool_decide; [by rewrite IH|]. rewrite IH.
    destruct (Split c s) eqn:E; [by apply Split_not_nil in E|done].
Qed.

Lemma body_lines active pane trig c :
  one_line pane -> one_line trig -> one_line (pf_BinaryName active) ->
  Lines (renderStrandedDraftBody active pane trig c) =
  header_lines active pane trig ++ Lines (indentForBody c).
Proof.
  intros Hp Ht Hb.
  change (renderStrandedDraftBody active pane trig c) with
    (Join (header_lines active pane trig ++ [indentForBody c]) nl_str).
  rewrite Join_app_lines by done. change (nl_str +:+ ?x) with (String nl x).
  unfold Lines at 1. rewrite Split_app. f_equal. apply Lines_Join; [done|].
  unfold header_lines.
  repeat (apply Forall_cons; split); repeat apply one_line_app; try done.
Qed.

Lemma unindent l :
  map (fun s => TrimPrefix s strandedBodyIndent) (map (fun s => strandedBodyIndent +:+ s) l) = l.
Proof. rewrite map_map. rewrite <- (map_id l) at 2. apply map_ext. intros s. apply TrimPrefix_app. Qed.

(** A line of the header that says nothing about the pane or the trigger. *)
Definition other_line (ln : string) : bool :=
  negb (String.eqb ln strandedContentMarker) && negb (HasPrefix ln strandedPanePrefix) &&
  negb (HasPrefix ln strandedTriggerPrefix).

Lemma read_other ln rest pane trig :
  other_line ln = true -> read_header (ln :: rest) pane trig = read_header rest pane trig.
Proof.
  unfold other_line. intros [[Hm Hp]%andb_true_iff Ht]%andb_true_iff. rewrite !negb_true_iff in *.
  cbn [read_header]. rewrite bool_decide_false by (by apply String.eqb_neq). by rewrite Hp, Ht.
Qed.

Lemma read_pane s rest pane trig :
  read_header ((strandedPanePrefix +:+ s) :: rest) pane trig = read_header rest s trig.
Proof.
  cbn [read_header]. rewrite bool_decide_false by (vm_compute; discriminate).
  by rewrite HasPrefix_app, TrimPrefix_app.
Qed.

Lemma read_trigger s rest pane trig :
  read_header ((strandedTriggerPrefix +:+ s) :: rest) pane trig = read_header rest pane s.
Proof.
  cbn [read_header]. rewrite bool_decide_false by (vm_compute; discriminate).
  change (HasPrefix (strandedTriggerPrefix +:+ s) strandedPanePrefix) with false.
  by rewrite HasPrefix_app, TrimPrefix_app.
Qed.

Lemma header_read active pane trig rest :
  read_header (header_lines active pane trig ++ rest) EmptyString EmptyString = (pane, trig, Some rest).
Proof.
  unfold header_lines. cbn [app].
  rewrite read_other by (vm_compute; reflexivity).
  rewrite read_pane, read_trigger.
  rewrite read_other by (vm_compute; reflexivity).
  rewrite read_other by (vm_compute; reflexivity).
  cbn [read_header]. by rewrite bool_decide_true.
Qed.

(** What recovery makes of a draft: the text that marks an empty one reads as empty. *)
Definition recovered (c : string) : string :=
  if bool_decide (c = strandedEmptyMarker) then EmptyString else c.

Lemma stranded_parse active pane trig c :
  one_line pane -> one_line trig -> one_line (pf_BinaryName active) ->
  parseStrandedBody (renderStrandedDraftBody active pane trig c) = (pane, trig, recovered c, true).
Proof.
  intros Hp Ht Hb. unfold parseStrandedBody. rewrite body_lines by done.
  cbn [header_lines app]. rewrite bool_decide_true by done. cbn [negb].
  pose proof (header_read active pane trig (Lines (indentForBody c))) as H.
  unfold header_lines in H. cbn [app] in H. rewrite H. clear H.
  destruct (decide (c = EmptyString)) as [->|Hc]; [reflexivity|].
  rewrite indent_lines by done. rewrite unindent.
  rewrite nl_str_eq. unfold Lines. rewrite Join_Split. done.
Qed.

Lemma find_last (p : Message -> bool) l m :
  (forall x, x ∈ l -> p x = false) -> p m = true -> List.find p (l ++ [m]) = Some m.
Proof.
  intros Hl Hm. induction l as [|x l IH]; simpl; [by rewrite Hm|].
  rewrite (Hl x) by set_solver. apply IH. set_solver.
Qed.

(** A notice that was inserted is the row its id names. *)
Lemma notice_found p rnd now d res d' :
  InsertNotice p rnd now d = (Ok res, d') ->
  GetMessage (ir_PublicID res) d' =
    Ok (scanned (new_row (with_caps 0 0 (canonical_params p)) (ir_PublicID res) now d)).
Proof.
  unfold InsertNotice. cbv zeta. destruct (validateInsertParams _); [|done].
  destruct (validateReplyTo _ _); [|done].
  destruct (insertOneInTx _ rnd now d) as [[res1 d1]|] eqn:E; [|done].
  intros [= -> <-]. apply insertOneInTx_row in E as (-> & _ & Hu).
  unfold GetMessage.
  assert (Hr : forall to rows s a b p r, db_messages (fireNotify to (mkDB rows s a b p r)) = rows)
    by (intros; unfold fireNotify; by case_bool_decide).
  rewrite Hr. erewrite find_last; [done| |by apply bool_decide_eq_true].
  intros x Hx. apply bool_decide_eq_false. by apply Hu.
Qed.

(** C20: A draft pushed aside by a delivery is recovered.  Whatever text the operator
    had typed (any lines, any blanks), the row archived for it is found under its id,
    addressed to its own agent, and parses back to the pane, the delivery that caused it
    and the text; [stranded show -o] writes that text byte for byte, and [stranded show]
    prints it with a newline at the end where it has none.  The one exception is the text
    (empty), which marks an empty draft: it is read back and shown as the empty text,
    although the code promises to keep the draft exactly as it was typed. *)
Theorem stranded_recoverable active receiver pane trig c rnd now d res d' :
  one_line pane -> one_line trig -> one_line (pf_BinaryName active) ->
  InsertNotice (simple_params receiver receiver (renderStrandedDraftBody active pane trig c)
                  (Some KindStrandedDraft)) rnd now d = (Ok res, d') ->
  exists m text,
    (c <> strandedEmptyMarker -> text = c) /\ (c = strandedEmptyMarker -> text = EmptyString) /\
    GetMessage (ir_PublicID res) d' = Ok m /\ m_Kind m = KindStrandedDraft /\
    m_ToAgent m = CanonicalName receiver /\ m_FromAgent m = CanonicalName receiver /\
    parseStrandedBody (m_Body m) = (pane, trig, text, true) /\
    forall to_file sw st, let h := EvCall "GetMessage" :: s_hist st in
      sw_fault sw h = None -> sw_others sw h (s_db st) = d' ->
      fst (runStrandedShowWithStore (ir_PublicID res) to_file sw st) =
        Go (Done (if to_file || HasSuffix text nl_str then text else text +:+ nl_str)).
Proof.
  intros Hp Ht Hb E. apply notice_found in E.
  set (m := scanned _) in E. exists m, (recovered c).
  assert (Hbody : parseStrandedBody (m_Body m) = (pane, trig, recovered c, true)) by by apply stranded_parse.
  unfold recovered in *. split; [intros H; by rewrite bool_decide_false|].
  split; [intros ->; by rewrite bool_decide_true|]. do 5 (split; [done|]).
  intros to_file sw st Hf Ho. unfold runStrandedShowWithStore, andthen, store, access. cbv zeta.
  rewrite Hf, Ho, E. cbn [go fst]. rewrite bool_decide_true by done. cbn [negb].
  unfold shown_content. by rewrite Hbody.
Qed.

Definition claude_adapter : Profile := mkAdapter "tmux-tell-claude" "anthropic" true None.

(** Two lines, as an operator had them in the input row. *)
Definition half_a_sentence : string := "half a
  sentence".

Lemma stranded_recoverable_witness :
  exists m res d', GetMessage (ir_PublicID res) d' = Ok m /\
    parseStrandedBody (m_Body m) = ("%5", "ab12", half_a_sentence, true).
Proof.
  destruct (InsertNotice (simple_params "alice" "alice"
     (renderStrandedDraftBody claude_adapter "%5" "ab12" half_a_sentence) (Some KindStrandedDraft)) (entropy 7) t1 db_one) as [[res|e] d'] eqn:E.
  - destruct (stranded_recoverable claude_adapter "alice" "%5" "ab12" half_a_sentence (entropy 7) t1 db_one
                res d' eq_refl eq_refl eq_refl E) as (m & text & Ht & _ & Hm & _ & _ & _ & Hp & _).
    exists m, res, d'. split; [exact Hm|]. rewrite Ht in Hp by done. exact Hp.
  - vm_compute in E. discriminate E.
Defined.

(** ** What upkeep may destroy *)

(** Deleting the rows of a set, or failing without a change; marking rows failed. *)
Inductive upkeep_op : Type :=
  | Prune (victim : Message -> bool)
  | DeadLetter (victim : DB -> Message -> bool) (reason : string).

Definition upkeep_perform (o : upkeep_op) (d d' : DB) : Prop :=
  match o with
  | Prune victim => d' = d \/ d' = set_messages (sql_delete victim (db_messages d)) d
  | DeadLetter victim reason =>
      exists now, d' = set_messages (sql_update (victim d) (failed_row reason now) (db_messages d)) d
  end.

(** A command that may only perform operations of a kind. *)
Definition only {A} (sw : SWorld) (c : M A) (may : upkeep_op -> Prop) : Prop :=
  runs upkeep_perform sw c (fun _ ops => Forall may ops).

Lemma only_silent {A} sw (c : M A) may : silent upkeep_perform sw c -> only sw c may.
Proof. intros H. eapply runs_weaken; [exact H|]. by intros a ops ->. Qed.

Lemma only_bind {A B} sw (c : M A) (k : A -> M B) may :
  only sw c may -> (forall a, only sw (k a) may) -> only sw (andthen c k) may.
Proof.
  intros Hc Hk. eapply runs_bind; [exact Hc|]. intros a ops Hops. eapply runs_weaken; [apply Hk|].
  intros b ops' H. by apply Forall_app.
Qed.

Lemma prune_access sw what (op : DB -> result Z * DB) victim (may : upkeep_op -> Prop) :
  (forall d, snd (op d) = d \/ snd (op d) = set_messages (sql_delete victim (db_messages d)) d) ->
  may (Prune victim) -> only sw (store what (fun _ d => op d)) may.
Proof.
  intros Hop Hmay. apply runs_write; [|by constructor]. intros h now d r d' E. exists (Prune victim).
  split; [|by constructor]. specialize (Hop d). by rewrite E in Hop.
Qed.

Lemma exec_delete_prunes p d :
  snd (exec_delete p d) = d \/ snd (exec_delete p d) = set_messages (sql_delete p (db_messages d)) d.
Proof. unfold exec_delete. case_match; [by left|by right]. Qed.

Lemma before_prunes agent cutoff states d :
  snd (DeleteMessagesBefore agent cutoff states d) = d \/
  snd (DeleteMessagesBefore agent cutoff states d) =
    set_messages (sql_delete (expired agent cutoff states) (db_messages d)) d.
Proof.
  unfold DeleteMessagesBefore. cbv zeta. case_match; [by left|]. case_match; [by left|].
  apply exec_delete_prunes.
Qed.

Definition scoped (agent : string) (states : list State) (m : Message) : bool :=
  in_states states m && to_scope (CanonicalName agent) m.

Definition old_draft (agent cutoff : string) (m : Message) : bool :=
  bool_decide (m_Kind m = KindStrandedDraft) && ltb (m_CreatedAt m) cutoff && to_scope (CanonicalName agent) m.

Lemma reset_states_terminal filter states :
  parseResetStateFilter filter = Ok states -> states ⊆ [StateDelivered; StateFailed; StateAcknowledged].
Proof.
  unfold parseResetStateFilter. case_bool_decide; [intros [= <-]; set_solver|].
  generalize (Split (Ascii.ascii_of_nat 44) filter). intros l. revert states.
  induction l as [|p l IH]; intros states; cbn [foldr]; [intros [= <-]; set_solver|].
  destruct (reset_state (TrimSpace p)) as [st|] eqn:E; [|done].
  destruct (foldr _ _ l) as [sts|] eqn:El; [|done]. intros [= <-].
  specialize (IH sts eq_refl). assert (st ∈ [StateDelivered; StateFailed; StateAcknowledged]); [|set_solver].
  unfold reset_state in E. repeat case_match; simplify_eq; set_solver.
Qed.

Section Scope.
Context (sw : SWorld) (midnight : Z -> Z -> Z).

(** The text of a window without case and surrounding blanks. *)
Definition word (spec : string) : string :=
  if str_empty (TrimSpace (ToLower spec)) then "24h" else TrimSpace (ToLower spec).

(** The instant a window starts at, by the words and lengths the flag takes. *)
Inductive starts (spec : string) (now : Z) : Z -> Prop :=
  | starts_now : word spec = "now" -> starts spec now now
  | starts_today : word spec ∈ ["today"; "morning"] -> starts spec now (midnight now 0)
  | starts_yesterday : word spec = "yesterday" -> starts spec now (midnight now 1)
  | starts_week : word spec = "week" -> starts spec now (midnight now 7)
  | starts_days k n d :
      CutSuffix (word spec) "d" = Some k -> Atoi k = Some n ->
      d = Time.wrap64 (Time.wrap64 (n * 24) * Time.Hour) -> 0 < d -> starts spec now (now - d)
  | starts_duration d :
      CutSuffix (word spec) "d" = None -> GoDuration.ParseDuration (word spec) = Ok d -> 0 < d ->
      starts spec now (now - d).

(** The cutoff of a window at an instant. *)
Definition cutoff_at (spec : string) (now : Z) (cutoff : string) : Prop :=
  exists t, starts spec now t /\ cutoff = Time.formatISO t.

(** ... at an instant the clock showed. *)
Definition cutoff_now (spec cutoff : string) : Prop :=
  exists h, cutoff_at spec (w_clock (sw_io sw) h) cutoff.

Lemma cutoff_starts spec now cutoff : cutoff_of midnight spec now = Ok (Some cutoff) -> cutoff_at spec now cutoff.
Proof.
  unfold cutoff_of, parseWindow, cutoff_at. fold (word spec).
  destruct (bool_decide (word spec = "all")); [done|].
  case_bool_decide as En; [intros [= <-]; exists now; split; [by apply starts_now|done]|].
  unfold calendarSince.
  case_bool_decide; [intros [= <-]; eexists; split; [by apply starts_today|done]|].
  case_bool_decide; [intros [= <-]; eexists; split; [by apply starts_yesterday|done]|].
  case_bool_decide; [intros [= <-]; eexists; split; [by apply starts_week|done]|].
  destruct (window_length spec (word spec)) as [d|e] eqn:El; [|done].
  destruct (d <=? 0) eqn:Ed; [done|]. apply Z.leb_gt in Ed. intros [= <-]. exists (now - d). split; [|done].
  unfold window_length in El. destruct (CutSuffix (word spec) "d") as [k|] eqn:Ek.
  - destruct (Atoi k) as [n|] eqn:Ea; [|done]. injection El as El. by eapply starts_days.
  - destruct (GoDuration.ParseDuration _) as [d'|] eqn:Ep; [|done]. injection El as ->. by apply starts_duration.
Qed.

(** Reading the clock first. *)
Lemma only_clock {A} (k : Z -> M A) may :
  (forall h, only sw (k (w_clock (sw_io sw) h)) may) ->
  only sw (andthen (lift time_Now) k) may.
Proof.
  intros Hk st. destruct (Hk (EvNow :: s_hist st) (mkS (s_db st) (s_vars st) (EvNow :: s_hist st)))
    as (a & st' & ops & E & Hi & Ho). exists a, st', ops. split; [exact E|by split].
Qed.

Ltac quiet := solve [apply only_silent; unfold skip; silent_tac].

Definition swept (agent retention : string) (o : upkeep_op) : Prop :=
  exists cutoff, cutoff_now retention cutoff /\ o = Prune (expired agent cutoff [StateDelivered; StateFailed]).

Lemma retention_only n agent retention interval :
  only sw (runRetentionSweep midnight n agent retention interval) (swept agent retention).
Proof.
  induction n as [|n IH]; cbn [runRetentionSweep]; [quiet|].
  apply only_bind; [quiet|]. intros stop. destruct stop; [quiet|].
  apply only_bind; [|intros _; exact IH]. unfold retention_tick. apply only_clock. intros h.
  destruct (cutoff_of midnight retention _) as [[cutoff|]|] eqn:Ec; [|quiet..]. apply cutoff_starts in Ec.
  apply only_bind; [|intros _; quiet]. eapply prune_access; [apply before_prunes|].
  exists cutoff. split; [by exists h|done].
Qed.

Definition reset_may (at_cutoff : string -> Prop) (hard : bool) (agent olderThan : string) (o : upkeep_op) : Prop :=
  if str_empty olderThan
  then o = Prune (scoped agent ([StateQueued; StateDelivering] ++ if hard then [StateDelivered; StateFailed] else []))
  else hard = false /\ exists cutoff states, at_cutoff cutoff /\
         states ⊆ [StateDelivered; StateFailed; StateAcknowledged] /\ o = Prune (expired agent cutoff states).

Lemma reset_only hard agent olderThan filter now :
  only sw (runResetWithStore midnight agent hard olderThan filter now) (reset_may (cutoff_at olderThan now) hard agent olderThan).
Proof.
  unfold runResetWithStore. unfold reset_may. case_bool_decide as Ho; cbn [negb].
  - apply only_bind; [|intros []; quiet]. eapply prune_access; [|reflexivity].
    intros d. unfold DeleteMessages. cbv zeta. case_match; [by left|]. apply exec_delete_prunes.
  - destruct hard; [quiet|]. unfold runResetOlderThan.
    destruct (cutoff_of midnight olderThan now) as [[cutoff|]|] eqn:Ec; [|quiet..]. apply cutoff_starts in Ec.
    destruct (parseResetStateFilter filter) as [states|] eqn:E; [|quiet].
    apply only_bind; [|intros []; quiet]. eapply prune_access; [apply before_prunes|].
    split; [done|]. exists cutoff, states. split; [done|]. split; [by eapply reset_states_terminal|done].
Qed.

Lemma reap_only agent cutoff reason :
  only sw (store_ok "ReapUndeliverable" (fun now d => ReapUndeliverable agent cutoff reason now d))
    (fun o => o = DeadLetter (reapPredicate agent cutoff) reason).
Proof.
  apply runs_write; [|by constructor]. intros h now d r d' E.
  exists (DeadLetter (reapPredicate agent cutoff) reason). split; [|by constructor].
  unfold ReapUndeliverable, update_count in E. injection E as _ <-. by exists now.
Qed.

End Scope.

(** ** The observer *)

Definition is_alert (r : option string) : bool := match r with Some _ => true | None => false end.

(** A sample that ends an episode: the unit is disabled, active again, or active
    without a restart for the second time. *)
Definition recovering (o : mailmanObservation) (ep : mailmanEpisode) : bool :=
  negb (ob_enabled o) ||
  (ob_active o && ((0 <? ep_inactiveSamples ep) ||
                   ((ob_restarts o - ep_lastRestarts ep =? 0) && (2 <=? ep_restartStable ep + 1)))).

(** For each sample in turn: did it alert, did it end an episode. *)
Fixpoint trace (obs : list mailmanObservation) (ep : mailmanEpisode) : list (bool * bool) :=
  match obs with
  | [] => []
  | o :: obs' => (is_alert (snd (turn o ep)), recovering o ep) :: trace obs' (fst (turn o ep))
  end.

(** Between two alerts an episode ended; [armed]: the next alert is allowed. *)
Fixpoint spaced (armed : bool) (l : list (bool * bool)) : bool :=
  match l with
  | [] => true
  | (al, rec) :: l' => implb al (armed || rec) && spaced ((armed || rec) && negb al) l'
  end.

Definition episode_after (r : Z) (obs : list mailmanObservation) : mailmanEpisode :=
  foldl (fun ep o => fst (turn o ep)) (fresh_episode r) obs.

(** What a turn does to the alert flag: it is down when no alert is out, and goes down
    only in a sample that ends an episode. *)
Lemma turn_alert o ep :
  let '(ep', reason) := turn o ep in
  (is_alert reason = true -> negb (ep_alerted ep) || recovering o ep = true /\ ep_alerted ep' = true) /\
  (ep_alerted ep' = false -> negb (ep_alerted ep) || recovering o ep = true).
Proof.
  unfold turn, recovering. destruct (ob_enabled o); cbn [negb orb]; [|by rewrite orb_true_r].
  unfold sample. destruct (ob_active o); cbn [negb andb].
  - destruct (0 <? ep_inactiveSamples ep); cbn [orb].
    + rewrite orb_true_r. destruct (_ =? 0); cbv zeta beta iota; [destruct (2 <=? _)|];
        destruct (3 <=? _); repeat case_bool_decide; cbn; repeat split; done.
    + destruct (_ =? 0); cbv zeta beta iota; [destruct (2 <=? _)|];
        destruct (3 <=? _), (ep_alerted ep); repeat case_bool_decide; cbn; repeat split; done.
  - destruct (2 <=? _), (ep_alerted ep); repeat case_bool_decide; cbn; repeat split; done.
Qed.

Lemma trace_spaced obs : forall ep armed,
  (ep_alerted ep = false -> armed = true) -> spaced armed (trace obs ep) = true.
Proof.
  induction obs as [|o obs IH]; intros ep armed Ha; [done|]. cbn [trace spaced].
  pose proof (turn_alert o ep) as H. destruct (turn o ep) as [ep' reason]. destruct H as [H1 H2].
  cbn [fst snd]. assert (Hup : negb (ep_alerted ep) || recovering o ep = true -> armed || recovering o ep = true).
  { destruct (ep_alerted ep); cbn; [intros ->; by rewrite orb_true_r|]. by rewrite Ha. }
  apply andb_true_iff. split.
  - destruct (is_alert reason); [|done]. cbn. by apply Hup, H1.
  - apply IH. intros He. rewrite (Hup (H2 He)). cbn. destruct (is_alert reason); [|done].
    destruct (H1 eq_refl) as [_ Hf]. congruence.
Qed.

(** The episode remembers the last sample. *)
Lemma episode_last r obs :
  ep_lastRestarts (episode_after r obs) = default r (ob_restarts <$> last obs) /\
  (0 < ep_inactiveSamples (episode_after r obs) ->
   exists o, last obs = Some o /\ ob_enabled o = true /\ ob_active o = false) /\
  0 <= ep_inactiveSamples (episode_after r obs).
Proof.
  induction obs as [|o obs IH] using rev_ind; [cbn; repeat split; lia|].
  unfold episode_after in *. rewrite foldl_app, last_snoc. cbn [foldl].
  set (ep := foldl _ _ obs) in *. destruct IH as (_ & _ & IH). unfold turn.
  destruct (ob_enabled o) eqn:E1; cbn [negb]; [|cbn; repeat split; lia].
  unfold sample. destruct (ob_active o) eqn:E2; cbn [negb].
  - repeat case_match; simplify_eq; cbn; repeat split; lia.
  - repeat case_match; simplify_eq; cbn; (split; [done|]); (split; [eauto|lia]).
Qed.

Inductive observer_op : Type := Noticed (p : InsertParams).

Definition observer_perform (o : observer_op) (d d' : DB) : Prop :=
  match o with Noticed p => exists rnd now r, InsertNotice p rnd now d = (r, d') end.

(** The observer's alerts.  Every alert about a mailman, over any sequence of samples
    of its unit, comes from an enabled unit that was inactive in this sample and in the
    one before, or that is active and restarted at least three times since the sample
    before; between two alerts there is a sample that ended an episode; and a look at
    an agent writes nothing but one notice to the conductor, and that only when the
    sample just taken calls for it. *)
Theorem observer_alerts :
  (forall r obs o reason,
     snd (turn o (episode_after r obs)) = Some reason ->
     ob_enabled o = true /\
     ((ob_active o = false /\ exists o', last obs = Some o' /\ ob_enabled o' = true /\ ob_active o' = false) \/
      (ob_active o = true /\ 3 <= ob_restarts o - default r (ob_restarts <$> last obs)))) /\
  (forall r obs, spaced true (trace obs (fresh_episode r)) = true) /\
  (forall sw systemctl conductor a ep,
     runs observer_perform sw (observe_agent systemctl conductor a ep) (fun _ ops =>
       ops = [] \/
       exists text ep' reason unit, let o := observation_of text in
         turn o (default (fresh_episode (ob_restarts o)) ep) = (ep', Some reason) /\
         ops = [Noticed (simple_params (a_name a) conductor (dead_mailman_body (a_name a) reason unit)
                           (Some KindDeadMailmanNotice))])).
Proof.
  split_and!.
  - intros r obs o reason. destruct (episode_last r obs) as (Hl & Hi & Hn). rewrite <- Hl.
    set (ep := episode_after r obs) in *. unfold turn. destruct (ob_enabled o); cbn [negb]; [|done].
    unfold sample. destruct (ob_active o) eqn:Ea; cbn [negb].
    + destruct (3 <=? ob_restarts o - ep_lastRestarts ep) eqn:E3.
      * intros _. split; [done|]. right. split; [done|]. by apply Z.leb_le.
      * destruct (_ =? 0); cbn; done.
    + destruct (2 <=? ep_inactiveSamples ep + 1) eqn:E2; [|done]. intros _. split; [done|]. left.
      split; [done|]. apply Hi. apply Z.leb_le in E2. lia.
  - intros r obs. by apply trace_spaced.
  - intros sw systemctl conductor a ep. unfold observe_agent.
    destruct (_ && _); [apply runs_go; by left|].
    apply runs_silent; [unfold unit_of; silent_tac|]. intros unit.
    eapply (runs_bind _ _ _ _ (fun r ops => ops = [] /\
      match r with Ok obs => exists text, obs = observation_of text | Err _ => True end)).
    { eapply runs_bind; [apply silent_ask|]. intros [text [e|]] ops ->; apply runs_go; cbn; split; eauto. }
    intros [obs|e] ops [-> Hobs]; [|apply runs_go; by left]. destruct Hobs as [text ->].
    destruct (turn _ _) as [ep1 [reason|]] eqn:E; [|apply runs_go; by left].
    apply runs_silent; [unfold unit_of; silent_tac|]. intros unit'.
    eapply (runs_bind _ _ _ _ (fun _ ops => ops = [] \/ ops = [Noticed (simple_params (a_name a) conductor
                (dead_mailman_body (a_name a) reason unit') (Some KindDeadMailmanNotice))])).
    { apply runs_write; [|by left]. intros h now d r d' Ei. eexists (Noticed _). split; [|by right].
      by exists (sw_entropy sw h), now, r. }
    intros r ops Hops. cbn [app].
    assert (HQ : ops = [] \/ exists text ep' reason unit,
       turn (observation_of text) (default (fresh_episode (ob_restarts (observation_of text))) ep) = (ep', Some reason) /\
       ops = [Noticed (simple_params (a_name a) conductor (dead_mailman_body (a_name a) reason unit)
                         (Some KindDeadMailmanNotice))]).
    { destruct Hops as [-> | ->]; [by left|right]. by exists text, ep1, reason, unit'. }
    destruct r; apply runs_go; by rewrite app_nil_r.
Qed.

(** One inactive sample in a restart loop re-arms the alert: three samples of one loop,
    two alerts. *)
Lemma one_inactive_sample_rearms :
  trace [mkObs true true 5 "exit-code"; mkObs false true 8 "exit-code"; mkObs true true 12 "exit-code"]
    (fresh_episode 0) = [(true, false); (false, false); (true, true)].
Proof. reflexivity. Qed.

Lemma observer_alerts_witness :
  let o := mkObs false true 0 "exit-code" in
  snd (turn o (episode_after 0 [o])) = Some "unit inactive for 2 consecutive sweeps (result=exit-code)" /\
  ob_enabled o = true /\ spaced true (trace [o; o] (fresh_episode 0)) = true.
Proof.
  intros o.
  assert (E : snd (turn o (episode_after 0 [o])) =
              Some "unit inactive for 2 consecutive sweeps (result=exit-code)") by (vm_compute; reflexivity).
  split; [exact E|]. split.
  - exact (proj1 (proj1 observer_alerts 0 [o] o _ E)).
  - apply (proj1 (proj2 observer_alerts)).
Defined.
