(* ===== verification/Register.v ===== *)
(** * Joining and leaving the bus (internal/cli: register.go, unregister.go, backlog.go,
      systemctl.go, common.go, mcp.go)

    The commands and the MCP tools that register an agent in its pane and remove it, the
    policy for the mail that is waiting when it registers, and the start of its mailman
    through systemd.  Flag and JSON decoding are left out; the configuration is the file
    that [config.Load] returned. *)

From S2P Require Import Prelude GoStd Clock StoreTypes Messages Queue Queries Agents TmuxIO ObserveGate Mailman Send Config Upkeep.

Open Scope Z_scope.
Open Scope tell_scope.

(** ** The database and the mailman's unit *)

Section Host.
Context (getenv : string -> string) (fileExists : string -> bool).

(** [filepath.Join] of elements that are already clean. *)
Definition path_join (a b : string) : string := a +:+ "/" +:+ b.

Definition xdgDataHome : string :=
  if negb (str_empty (getenv "XDG_DATA_HOME")) then getenv "XDG_DATA_HOME"
  else if negb (str_empty (getenv "HOME")) then path_join (getenv "HOME") ".local/share"
  else ".local/share".

Definition defaultDataDir : string := path_join xdgDataHome "tmux-tell".
Definition legacyDataDir : string := path_join xdgDataHome "tmux-msg".

Definition defaultDBLocationResolved : string * bool :=
  let newPath := path_join defaultDataDir "messages.db" in
  let legacyPath := path_join legacyDataDir "messages.db" in
  if negb (fileExists newPath) && fileExists legacyPath then (legacyPath, true) else (newPath, false).

Definition defaultDBLocation : string := fst defaultDBLocationResolved.

Definition resolveDBPath (flagValue : string) : string :=
  if negb (str_empty flagValue) then flagValue
  else if negb (str_empty (getenv "TMUX_TELL_DB")) then getenv "TMUX_TELL_DB"
  else if negb (str_empty (getenv "CLAUDE_MSG_DB")) then getenv "CLAUDE_MSG_DB"
  else defaultDBLocation.

(** The mailman that systemd starts would open another database. *)
Definition startMailmanWouldMismatchSystemd (resolvedDBPath : string) : bool :=
  negb (bool_decide (resolvedDBPath = defaultDBLocation)).

Definition startMailmanMissingEnv : list string :=
  List.filter (fun v => str_empty (getenv v)) ["DBUS_SESSION_BUS_ADDRESS"; "XDG_RUNTIME_DIR"].
End Host.

(** ** The backlog of a registering agent *)

Definition BacklogAgeAndAnnounces (agent : string) (now : Z) (d : DB) : option Z * Z :=
  let announces := delivered_announces agent d in
  match RecipientOldestPendingAt agent d with
  | None => (None, announces)
  | Some oldest =>
      match parseISO oldest with
      | None => (None, announces)
      | Some t => (Some (Z.max 0 (now - t)), announces)
      end
  end.

Definition backlogAgeFloor : Z := Time.Minute.

Definition humanBacklogAge (d : Z) : string :=
  if d <? Time.Minute then Str.itoa (d / Time.Second) +:+ "s"
  else if d <? Time.Hour then Str.itoa (d / Time.Minute) +:+ "m"
  else if d <? 24 * Time.Hour then Str.itoa (d / Time.Hour) +:+ "h"
  else Str.itoa (d / Time.Hour / 24) +:+ "d".

Definition backlogNudgeBody (skipped : Z) (age : option Z) (priorAnnounces : Z) : string :=
  "📬 " +:+ Str.itoa skipped +:+ " queued" +:+
  match age with
  | Some a => if backlogAgeFloor <=? a then ", oldest " +:+ humanBacklogAge a else EmptyString
  | None => EmptyString
  end +:+
  (if 0 <? priorAnnounces then ", announced " +:+ Str.itoa priorAnnounces +:+ "× before" else EmptyString) +:+
  " — run tmux-tell.inbox".

Record backlogPolicyResult : Type := mkBacklog {
  bl_Policy : string;
  bl_Skipped : Z;
  bl_NudgeID : string;
  bl_OldestAge : option Z;
  bl_PriorAnnounces : Z;
  bl_Err : option error
}.

Definition no_backlog : backlogPolicyResult := mkBacklog EmptyString 0 EmptyString None 0 None.

(** The policy, and how many of the newest messages it delivers. *)
Definition backlog_policy (cfg : option Config.File) (name : string) : string * Z :=
  let policy := Config.ResolveString cfg name "on-register-backlog" Config.DefaultOnRegisterBacklog in
  if bool_decide (policy = Config.BacklogAutoDeliver)
  then (policy, Z.max 0 (Config.ResolveInt cfg name "on-register-backlog-cap" Config.DefaultOnRegisterBacklogCap))
  else (Config.BacklogAnnounce, 0).

Definition nudge_params (name : string) (skipped : Z) (age : option Z) (prior : Z) : InsertParams :=
  simple_params name name (backlogNudgeBody skipped age prior) (Some KindBacklogAnnounce).

Definition applyBacklogPolicy (cfg : option Config.File) (name deliveryMode : string) (queued : Z)
    : M backlogPolicyResult :=
  if (queued <=? 0) || negb (bool_decide (deliveryMode = DeliveryModePasteAndEnter)) then go no_backlog
  else
    let '(policy, keepNewest) := backlog_policy cfg name in
    r <! store "QueuedBacklogFloor" (fun _ d => (QueuedBacklogFloor name keepNewest d, d)) ;;
    match r with
    | Err e => go (mkBacklog policy 0 EmptyString None 0 (Some e))
    | Ok (floor, skipped) =>
        if skipped <=? 0 then go (mkBacklog policy skipped EmptyString None 0 None)
        else
          r <! store "SetBacklogEpoch" (fun _ d => SetBacklogEpoch name floor d) ;;
          match r with
          | Err e => go (mkBacklog policy skipped EmptyString None 0 (Some e))
          | Ok _ =>
              now <! lift time_Now ;;
              a <! store_read "BacklogAgeAndAnnounces" (BacklogAgeAndAnnounces name now) ;;
              let '(age, prior) := match a with Ok p => p | Err _ => (None, 0) end in
              r <! insert_notice (nudge_params name skipped age prior) ;;
              go (match r with
                  | Err e => mkBacklog policy skipped EmptyString age prior (Some e)
                  | Ok res => mkBacklog policy skipped (ir_PublicID res) age prior None
                  end)
          end
    end.

(** ** Registering *)

Definition deferTriggerRegister : string := "register".

Record registerParams : Type := mkRegister {
  rg_Name : string;
  rg_Pane : string;
  rg_KeepPane : bool;
  rg_Force : bool;
  rg_Alias : string;
  rg_DeliveryMode : string;
  rg_StartMailman : string;
  rg_SessionID : string;
  rg_PurgeStale : bool;
  rg_KeepStale : bool;
  rg_RelaunchCmd : option string;
  rg_AutoRestart : option bool;
  rg_DB : string
}.

(** What a registration answers; [None] for a count that failed. *)
Record registered : Type := mkRegistered {
  ra_Name : string;
  ra_Pane : string;
  ra_DeliveryMode : string;
  ra_Queued : option Z;
  ra_Backlog : backlogPolicyResult;
  ra_Refused : option RefusedInboundSummary;
  ra_Promoted : option Z;
  ra_Mailman : string;
  ra_MailmanError : string
}.

Section Register.
Context (getenv : string -> string) (fileExists : string -> bool) (BinaryName : string)
  (systemctl : history -> list string -> string * option error).

(** The unit of the adapter that is running, whoever the agent is. *)
Definition ownMailmanUnit (agent : string) : string := BinaryName +:+ "-mailman@" +:+ agent +:+ ".service".

Definition startMailman (agent : string) : M (option error) :=
  out <! ask "systemctl" (fun _ h => systemctl h ["enable"; "--now"; ownMailmanUnit agent]) ;;
  go (match snd out with
      | Some e => Some (ErrWrap ("systemctl enable: " +:+ error_text e +:+ ": " +:+ Str.TrimSpace (fst out)) e)
      | None => None
      end).

Definition restartMailman (agent : string) : M (option error) :=
  out <! ask "systemctl" (fun _ h => systemctl h ["restart"; ownMailmanUnit agent]) ;;
  go (match snd out with
      | Some e => Some (ErrWrap ("systemctl restart: " +:+ error_text e +:+ ": " +:+ Str.TrimSpace (fst out)) e)
      | None => None
      end).

Definition harmless (out : string) : bool :=
  existsb (Str.Contains (Str.ToLower (Str.TrimSpace out))) ["not loaded"; "does not exist"; "no such file"].

Definition stopMailman (agent : string) : M (option error) :=
  out <! ask "systemctl" (fun _ h => systemctl h ["disable"; "--now"; ownMailmanUnit agent]) ;;
  go (match snd out with
      | None => None
      | Some e =>
          if harmless (fst out) then None
          else Some (ErrWrap ("systemctl disable: " +:+ error_text e +:+ ": " +:+ Str.TrimSpace (fst out)) e)
      end).

Definition startMailmanMismatchError (agentName callerDB : string) : string :=
  "refusing to start a systemd-managed mailman with non-default CLAUDE_MSG_DB (" +:+ callerDB +:+
  "): systemd-managed mailmen do NOT inherit your shell environment, and with no unit-file override " +:+
  "(#308 dropped it) they resolve the user-home default DB at " +:+ defaultDBLocation getenv fileExists +:+
  " — so the mailman would silently poll that default instead of the sandbox DB this agent was " +:+
  "registered against. To run the agent against a non-default DB, use `--start-mailman=false` here " +:+
  "and start the mailman as a foreground subprocess that inherits your environment: `" +:+ BinaryName +:+
  " serve --agent " +:+ agentName +:+ "` (or `nohup " +:+ BinaryName +:+ " serve --agent " +:+ agentName +:+ " &`).".

Definition startMailmanEnvError (agentName : string) (missing : list string) : string :=
  "refusing to start systemd-managed mailman for " +:+ agentName +:+ ": " +:+ Str.Join missing ", " +:+
  " not in process environment — `systemctl --user` requires D-Bus session-bus access. Add the missing " +:+
  "var(s) to the codex MCP wrapper env block (docs/reference.md §Codex), or use --start-mailman=false " +:+
  "and start the mailman as a foreground subprocess: `" +:+ BinaryName +:+ " serve --agent " +:+ agentName +:+
  "` (or `nohup " +:+ BinaryName +:+ " serve --agent " +:+ agentName +:+ " &`).".

(** The pane of the registration: given, or that of the caller. *)
Definition resolved_pane (p : registerParams) : string :=
  if rg_KeepPane p then rg_Pane p
  else if str_empty (rg_Pane p) then getenv "TMUX_PANE" else rg_Pane p.

Definition pane_explicit (p : registerParams) : bool := negb (str_empty (rg_Pane p)).

(** A registration that would move the agent without being told to. *)
Definition rewrites_pane (p : registerParams) (existing : option Agent) : bool :=
  match existing with
  | Some a => negb (str_empty (PaneID a)) && negb (pane_explicit p) && negb (rg_KeepPane p) &&
              negb (bool_decide (resolved_pane p = PaneID a))
  | None => false
  end.

Definition already_registered (name pane how : string) : string :=
  "agent " +:+ Str.Quote name +:+ " already registered with pane " +:+ pane +:+ "; pass " +:+ how +:+ " to overwrite".

Definition rewrite_head (p : registerParams) (old : string) : string :=
  "register: refusing to silently rewrite pane_id " +:+ old +:+ " → " +:+ resolved_pane p +:+
  " for agent " +:+ Str.Quote (rg_Name p) +:+ "." +:+ nl_str.

Definition rewrite_text (p : registerParams) (old : string) : string :=
  rewrite_head p old +:+
  "Pass --pane " +:+ old +:+ " to keep the existing pane, --pane " +:+ resolved_pane p +:+
  " to actually change it," +:+ nl_str +:+
  "or --keep-pane to update other fields without touching pane_id.".

Definition mcp_rewrite_text (p : registerParams) (old : string) : string :=
  rewrite_head p old +:+
  "Pass pane=" +:+ Str.Quote old +:+ " to keep the existing pane, pane=" +:+ Str.Quote (resolved_pane p) +:+
  " to actually change it," +:+ nl_str +:+
  "or keep_pane=true to update other fields without touching pane_id.".

Definition invalid_mode (what mode : string) : string :=
  "invalid " +:+ what +:+ " " +:+ Str.Quote mode +:+ " (want " +:+ Str.Quote DeliveryModePasteAndEnter +:+
  " or " +:+ Str.Quote DeliveryModeMailboxOnly +:+ ")".

(** [GetAgent], an unknown agent being no agent. *)
Definition lookup_agent (name : string) : M (result (option Agent)) :=
  r <! store "GetAgent" (fun _ d => (GetAgent name d, d)) ;;
  go (match r with
      | Ok a => Ok (Some a)
      | Err e => if errors_Is e ErrNotFound then Ok None else Err e
      end).

(** The counts and the policy after the registration is written. *)
Definition register_backlog (cfg : option Config.File) (p : registerParams)
    : M (option Z * backlogPolicyResult) :=
  q <! store_read "RecipientQueueDepth" (RecipientQueueDepth (rg_Name p)) ;;
  match q with
  | Err _ => go (None, no_backlog)
  | Ok queued => b <! applyBacklogPolicy cfg (rg_Name p) (rg_DeliveryMode p) queued ;; go (Some queued, b)
  end.

Definition register_promote (p : registerParams) : M (option Z) :=
  r <! store_ok "PromoteDeferred" (fun _ d => PromoteDeferred (rg_Name p) deferTriggerRegister d) ;;
  go (match r with Ok n => Some n | Err _ => None end).

Definition register_session (sid name : string) : M unit :=
  if str_empty sid then skip
  else _ <! store "SetSessionID" (fun _ d => SetSessionID name sid d) ;; skip.

Definition found_session (pane : string) : M string :=
  r <! ask "SessionIDForPane" (fun sw h => SessionIDForPane (sw_walker sw) h pane) ;;
  go (default EmptyString r).

(** [systemctl] could not be reached or would start the wrong mailman. *)
Definition start_refusal (p : registerParams) : option string :=
  let db := resolveDBPath getenv fileExists (rg_DB p) in
  if startMailmanWouldMismatchSystemd getenv fileExists db
  then Some (startMailmanMismatchError (rg_Name p) db)
  else match startMailmanMissingEnv getenv with
       | [] => None
       | missing => Some (startMailmanEnvError (rg_Name p) missing)
       end.

(** *** The command *)

Definition cli_start (p : registerParams) : result bool :=
  let s := rg_StartMailman p in
  if str_empty s
  then Ok (negb (bool_decide (rg_DeliveryMode p = DeliveryModeMailboxOnly)) &&
           negb (bool_decide (rg_DeliveryMode p = DeliveryModeHookContext)))
  else if bool_decide (s = "true") then Ok true
  else if bool_decide (s = "false") then Ok false
  else Err (ErrMsg ("invalid --start-mailman " +:+ Str.Quote s +:+ " (want true|false)")).

(** The mail that a change of the delivery mode would strand: [None] to go on, or the
    refusal.  Purging it happens here, before the last check. *)
Definition flip_guard (p : registerParams) (existing : option Agent) : M (option (string * Z)) :=
  match existing with
  | None => go None
  | Some a =>
      if bool_decide (a_delivery_mode a = rg_DeliveryMode p) then go None
      else if rg_PurgeStale p && rg_KeepStale p
      then go (Some ("pass at most one of --purge-stale-queue / --keep-stale-queue", exitUsage))
      else
        c <! store_read "CountStaleQueued" (CountStaleQueued (rg_Name p)) ;;
        match c with
        | Err e => go (Some ("count stale queue: " +:+ error_text e, exitInternal))
        | Ok stale =>
            if stale =? 0 then go None
            else if rg_PurgeStale p then
              r <! store_ok "AckStaleQueued" (fun _ d => AckStaleQueued (rg_Name p) d) ;;
              go (match r with
                  | Err e => Some ("purge stale queue: " +:+ error_text e, exitInternal)
                  | Ok _ => None
                  end)
            else if rg_KeepStale p then go None
            else go (Some ("agent " +:+ Str.Quote (rg_Name p) +:+ " has " +:+ Str.itoa stale +:+
                       " message(s) queued under the prior delivery_mode (" +:+ a_delivery_mode a +:+
                       ") that will NOT auto-deliver after the flip to " +:+ rg_DeliveryMode p +:+
                       " — pass --purge-stale-queue to ack them, or --keep-stale-queue to leave them queued " +:+
                       "(visible as backlog-fenced in inbox)", exitDataErr))
        end
  end.

(** The checks before the store is opened. *)
Definition register_usage (p : registerParams) : result bool :=
  if str_empty (rg_Name p) then Err (ErrMsg "--name required")
  else if rg_KeepPane p && pane_explicit p
  then Err (ErrMsg "--keep-pane and --pane are mutually exclusive: --keep-pane means 'don't touch the pane'; pass only one")
  else if negb (rg_KeepPane p) && str_empty (resolved_pane p)
  then Err (ErrMsg "pane required: pass --pane or run inside tmux with $TMUX_PANE set")
  else if negb (ValidDeliveryMode (rg_DeliveryMode p))
  then Err (ErrMsg (invalid_mode "--delivery-mode" (rg_DeliveryMode p)))
  else cli_start p.

Definition set_optional {A} (what : string) (o : option A) (op : A -> DB -> result unit * DB) : M unit :=
  match o with
  | None => skip
  | Some v => _ <! store what (fun _ d => op v d) ;; skip
  end.

(** The writes that make the registration; [Some] is an error that ends the command. *)
Definition register_write (p : registerParams) (pane : string) : M (option (string * Z)) :=
  r <! store "UpsertAgent" (fun now d => UpsertAgent (rg_Name p) pane now d) ;;
  match r with
  | Err e => go (Some ("upsert: " +:+ error_text e, exitInternal))
  | Ok _ =>
      r <! store "SetDeliveryMode" (fun now d => SetDeliveryMode (rg_Name p) (rg_DeliveryMode p) now d) ;;
      match r with
      | Err e => go (Some ("set delivery_mode: " +:+ error_text e, exitInternal))
      | Ok _ =>
          _ <! set_optional "SetRelaunchCmd" (rg_RelaunchCmd p) (SetRelaunchCmd (rg_Name p)) ;;
          _ <! set_optional "SetAutoRestart" (rg_AutoRestart p) (SetAutoRestart (rg_Name p)) ;;
          _ <! store "SetAttentionState" (fun _ d => SetAttentionState (rg_Name p) AttentionStateIdle d) ;;
          _ <! store "ClearStuck" (fun _ d => ClearStuck (rg_Name p) d) ;;
          sid <! (if str_empty (rg_SessionID p) && negb (str_empty pane) then found_session pane
                  else go (rg_SessionID p)) ;;
          _ <! register_session sid (rg_Name p) ;;
          if str_empty (rg_Alias p) then go None
          else
            r <! store "AddAlias" (fun now d => AddAlias (rg_Name p) (rg_Alias p) now d) ;;
            go (match r with
                | Ok _ => None
                | Err e =>
                    Some (if errors_Is e ErrAliasCollision
                          then ("alias " +:+ Str.Quote (rg_Alias p) +:+ " rejected: " +:+ error_text e, exitDataErr)
                          else ("add alias: " +:+ error_text e, exitInternal))
                end)
      end
  end.

(** After the writes: what is waiting, and the mailman. *)
Definition register_finish (cfg : option Config.File) (p : registerParams) (pane : string) (start : bool)
    : M registered :=
  qb <! register_backlog cfg p ;;
  now <! lift time_Now ;;
  ref <! store_read "RefusedInbound" (RefusedInbound (rg_Name p) now) ;;
  n <! register_promote p ;;
  mm <! (if start then
           e <! startMailman (rg_Name p) ;;
           go (match e with Some e => ("failed", error_text e) | None => ("active", EmptyString) end)
         else go ("skipped", EmptyString)) ;;
  go (mkRegistered (rg_Name p) pane (rg_DeliveryMode p) (fst qb) (snd qb)
        (match ref with Ok s => Some s | Err _ => None end) n (fst mm) (snd mm)).

Definition runRegisterCLI (cfg : option Config.File) (opened : option error) (p : registerParams)
    : M (outcome registered) :=
  match register_usage p with
  | Err e => go (Failed (error_text e) exitUsage)
  | Ok start =>
      match (if start then start_refusal p else None) with
      | Some msg => go (Failed msg exitDataErr)
      | None =>
          match opened with
          | Some e => go (Failed ("open store: " +:+ error_text e) exitInternal)
          | None =>
              r <! lookup_agent (rg_Name p) ;;
              match r with
              | Err e => go (Failed ("lookup: " +:+ error_text e) exitInternal)
              | Ok existing =>
                  match existing, rg_Force p with
                  | Some a, false => go (Failed (already_registered (rg_Name p) (PaneID a) "--force") exitDataErr)
                  | _, _ =>
                      g <! flip_guard p existing ;;
                      match g with
                      | Some (msg, code) => go (Failed msg code)
                      | None =>
                          if rewrites_pane p existing
                          then go (Failed (rewrite_text p (default EmptyString (option_map PaneID existing))) exitDataErr)
                          else
                            w <! register_write p (resolved_pane p) ;;
                            match w with
                            | Some (msg, code) => go (Failed msg code)
                            | None => a <! register_finish cfg p (resolved_pane p) start ;; go (Done a)
                            end
                      end
                  end
              end
          end
      end
  end.

(** *** The MCP tool *)

(** The tool has no database flag, and the default mode when none is given. *)
Definition mcp_mode (p : registerParams) : registerParams :=
  mkRegister (rg_Name p) (rg_Pane p) (rg_KeepPane p) (rg_Force p) (rg_Alias p)
    (if str_empty (rg_DeliveryMode p) then DeliveryModePasteAndEnter else rg_DeliveryMode p)
    (rg_StartMailman p) (rg_SessionID p) (rg_PurgeStale p) (rg_KeepStale p) (rg_RelaunchCmd p)
    (rg_AutoRestart p) EmptyString.

Definition mcp_register_usage (p : registerParams) : option string :=
  if str_empty (rg_Name p) then Some "name required"
  else if rg_KeepPane p && pane_explicit p
  then Some "keep_pane and pane are mutually exclusive: keep_pane means 'don't touch the pane'; pass only one"
  else if negb (rg_KeepPane p) && str_empty (resolved_pane p)
  then Some "pane required (no pane given and $TMUX_PANE empty)"
  else if negb (ValidDeliveryMode (rg_DeliveryMode p))
  then Some (invalid_mode "delivery_mode" (rg_DeliveryMode p))
  else None.

Definition mcp_write (p : registerParams) (pane : string) : M (option error) :=
  r <! store "UpsertAgent" (fun now d => UpsertAgent (rg_Name p) pane now d) ;;
  match r with
  | Err e => go (Some e)
  | Ok _ =>
      r <! store "SetDeliveryMode" (fun now d => SetDeliveryMode (rg_Name p) (rg_DeliveryMode p) now d) ;;
      match r with
      | Err e => go (Some (ErrWrap ("set delivery_mode: " +:+ error_text e) e))
      | Ok _ =>
          _ <! store "ClearStuck" (fun _ d => ClearStuck (rg_Name p) d) ;;
          _ <! store "SetAttentionState" (fun _ d => SetAttentionState (rg_Name p) AttentionStateIdle d) ;;
          sid <! found_session pane ;;
          _ <! register_session sid (rg_Name p) ;;
          if str_empty (rg_Alias p) then go None
          else
            r <! store "AddAlias" (fun now d => AddAlias (rg_Name p) (rg_Alias p) now d) ;;
            go (match r with
                | Ok _ => None
                | Err e =>
                    Some (ErrWrap (if errors_Is e ErrAliasCollision
                                   then "alias " +:+ Str.Quote (rg_Alias p) +:+ " rejected: " +:+ error_text e
                                   else "add alias: " +:+ error_text e) e)
                end)
      end
  end.

(** [start] is the tool's [start_mailman], when given. *)
Definition mcpRegister (cfg : option Config.File) (start : option bool) (p0 : registerParams)
    : M (result registered) :=
  let p := mcp_mode p0 in
  match mcp_register_usage p with
  | Some msg => go (Err (ErrMsg msg))
  | None =>
      let pane := resolved_pane p in
      r <! lookup_agent (rg_Name p) ;;
      match r with
      | Err e => go (Err e)
      | Ok existing =>
          match existing, rg_Force p with
          | Some a, false => go (Err (ErrMsg (already_registered (rg_Name p) (PaneID a) "force=true")))
          | _, _ =>
              if rewrites_pane p existing
              then go (Err (ErrMsg (mcp_rewrite_text p (default EmptyString (option_map PaneID existing)))))
              else
                w <! mcp_write p pane ;;
                match w with
                | Some e => go (Err e)
                | None =>
                    qb <! register_backlog cfg p ;;
                    n <! register_promote p ;;
                    mm <! (if default (negb (bool_decide (rg_DeliveryMode p = DeliveryModeMailboxOnly))) start then
                             match start_refusal p with
                             | Some msg => go ("skipped", msg)
                             | None =>
                                 e <! startMailman (rg_Name p) ;;
                                 go (match e with Some e => ("failed", error_text e) | None => ("active", EmptyString) end)
                             end
                           else go ("skipped", EmptyString)) ;;
                    go (Ok (mkRegistered (rg_Name p) pane (rg_DeliveryMode p) (fst qb) (snd qb) None n
                              (fst mm) (snd mm)))
                end
          end
      end
  end.

(** ** Unregistering *)

Record unregistered : Type := mkUnregistered {
  un_Name : string;
  un_Removed : bool;
  un_Mailman : string;
  un_Deleted : Z;
  un_MailmanError : string
}.

(** The common part of the two surfaces: an error with the text and code of the command
    and the bare error of the tool. *)
Definition unregister_core (name : string) (purgeQueue force : bool) (how : string)
    : M (unregistered + (string * Z * error)) :=
  r <! lookup_agent name ;;
  match r with
  | Err e => go (inr ("lookup: " +:+ error_text e, exitInternal, ErrWrap ("lookup: " +:+ error_text e) e))
  | Ok None => go (inl (mkUnregistered name false EmptyString 0 EmptyString))
  | Ok (Some _) =>
      guard <! (if force then go None
                else
                  q <! store_read "RecipientQueueDepth" (RecipientQueueDepth name) ;;
                  go (match q with
                      | Err e => Some ("queue depth: " +:+ error_text e, exitInternal,
                                       ErrWrap ("queue depth: " +:+ error_text e) e)
                      | Ok depth =>
                          if 0 <? depth then
                            let msg := "agent " +:+ Str.Quote name +:+ " has " +:+ Str.itoa depth +:+
                                       " queued message(s); pass " +:+ how +:+ " to override" in
                            Some (msg, exitDataErr, ErrMsg msg)
                          else None
                      end)) ;;
      match guard with
      | Some e => go (inr e)
      | None =>
          stop <! stopMailman name ;;
          let '(status, text) := match stop with
                                 | Some e => ("warn", error_text e)
                                 | None => ("stopped", EmptyString)
                                 end in
          purged <! (if purgeQueue
                     then store "DeleteMessages" (fun _ d => DeleteMessages name [StateQueued] d)
                     else go (Ok 0)) ;;
          match purged with
          | Err e => go (inr ("purge queue: " +:+ error_text e, exitInternal, e))
          | Ok n =>
              removed <! store_ok "DeleteAgent" (fun _ d => DeleteAgent name d) ;;
              go (match removed with
                  | Err e => inr ("delete agent: " +:+ error_text e, exitInternal, e)
                  | Ok b => inl (mkUnregistered name b status n text)
                  end)
          end
      end
  end.

Definition runUnregisterCLI (opened : option error) (name : string) (purgeQueue force : bool)
    : M (outcome unregistered) :=
  if str_empty name then go (Failed "--name required" exitUsage)
  else match opened with
       | Some e => go (Failed ("open store: " +:+ error_text e) exitInternal)
       | None =>
           r <! unregister_core name purgeQueue force "--force" ;;
           go (match r with inl u => Done u | inr (msg, code, _) => Failed msg code end)
       end.

Definition mcpUnregister (name : string) (purgeQueue force : bool) : M (result unregistered) :=
  if str_empty name then go (Err (ErrMsg "name required"))
  else
    r <! unregister_core name purgeQueue force "force:true" ;;
    go (match r with inl u => Ok u | inr (_, _, e) => Err e end).

End Register.
