(* ===== verification/RegisterProps.v ===== *)
(** * Joining and leaving: what a registration leaves behind

    The command run alone: either nothing but an asked-for purge happened, or the agent
    is registered as asked; what is waiting for it is fenced as the policy says; and an
    agent with mail is not removed by accident. *)

From S2P Require Import Prelude GoStd Clock StoreTypes Messages Queue Queries Agents Invariants Lifecycle RegistryProps QueueProps TmuxIO ObserveGate Mailman Send Config Upkeep Register Runs Alone ServeDemo SendDemo.

Open Scope Z_scope.
Open Scope tell_scope.

(** ** The row of one agent *)

(** What [UpsertAgent] may do to the row of another agent: release the pane. *)
Definition spared (pane : string) (a a' : Agent) : Prop :=
  a' = a \/ (pane <> EmptyString /\ PaneID a = pane /\ PaneID a' = EmptyString).

(** The row of [name] satisfies [P], and the others are as in [d0] but for the pane. *)
Definition row_is (name pane : string) (d0 : DB) (P : Agent -> Prop) (d : DB) : Prop :=
  (exists row, db_agents d !! name = Some row /\ P row) /\
  (forall k a, k <> name -> db_agents d0 !! k = Some a ->
     exists a', db_agents d !! k = Some a' /\ spared pane a a') /\
  (forall k, k <> name -> db_agents d0 !! k = None -> db_agents d !! k = None).

Lemma row_weaken name pane d0 (P P' : Agent -> Prop) d :
  row_is name pane d0 P d -> (forall r, P r -> P' r) -> row_is name pane d0 P' d.
Proof. intros ((row & Hr & HP) & Ho) H. split; [eauto|done]. Qed.

Lemma row_agents name pane d0 P d d' :
  db_agents d' = db_agents d -> row_is name pane d0 P d -> row_is name pane d0 P d'.
Proof. unfold row_is. by intros ->. Qed.

Lemma row_update name pane d0 (P P' : Agent -> Prop) f d :
  row_is name pane d0 P d -> (forall r, P r -> P' (f r)) ->
  fst (update_agent name f d) = Ok tt /\ row_is name pane d0 P' (snd (update_agent name f d)).
Proof.
  intros ((row & Hr & HP) & Ho & Hn) Hf. unfold update_agent. rewrite Hr. split; [done|].
  unfold row_is. cbn [snd set_agents db_agents]. split_and!.
  - exists (f row). rewrite lookup_insert_eq. auto.
  - intros k a Hk Ha. rewrite lookup_insert_ne by done. by apply Ho.
  - intros k Hk Ha. rewrite lookup_insert_ne by done. by apply Hn.
Qed.

(** A column update in a command. *)
Lemma ends_column sw what f name pane d0 (P P' : Agent -> Prop) d (op : string -> DB -> result unit * DB)
    (Q : result unit -> DB -> Prop) :
  alone sw -> row_is name pane d0 P d -> (forall now, op now d = update_agent name (f now) d) ->
  (forall now r, P r -> P' (f now r)) ->
  (forall d', row_is name pane d0 P' d' -> Q (Ok tt) d') ->
  ends_in sw (store what op) d Q.
Proof.
  intros Ha Hrow Hop Hf HQ. apply ends_store; [done|]. intros now. rewrite Hop.
  destruct (row_update _ _ _ _ P' (f now) _ Hrow (Hf now)) as [E Hd]. rewrite E. by apply HQ.
Qed.

(** ** Registering *)

Notation who p := (CanonicalName (rg_Name p)).

(** The pane the agent holds afterwards. *)
Definition pane_after (p : registerParams) (pane : string) (d : DB) : string :=
  if str_empty pane then match db_agents d !! who p with Some a => PaneID a | None => EmptyString end
  else pane.

Definition before {A} (f : Agent -> A) (dflt : A) (p : registerParams) (d : DB) : A :=
  match db_agents d !! who p with Some a => f a | None => dflt end.

Definition aliases_before (p : registerParams) (d : DB) : list string := before a_aliases [] p d.

(** The aliases with the one asked for. *)
Definition aliases_after (p : registerParams) (d : DB) : list string :=
  if str_empty (rg_Alias p) || bool_decide (rg_Alias p ∈ aliases_before p d) then aliases_before p d
  else aliases_before p d ++ [rg_Alias p].

(** The columns a registration sets. *)
Definition as_registered (p : registerParams) (pane : string) (al : list string) (d : DB) (row : Agent) : Prop :=
  PaneID row = pane_after p pane d /\ a_delivery_mode row = rg_DeliveryMode p /\
  a_attention_state row = AttentionStateIdle /\ a_stuck_reason row = EmptyString /\
  a_relaunch_cmd row = default (before a_relaunch_cmd EmptyString p d) (rg_RelaunchCmd p) /\
  a_auto_restart row = default (before a_auto_restart false p d) (rg_AutoRestart p) /\
  (rg_SessionID p <> EmptyString -> a_session_id row = rg_SessionID p) /\
  a_aliases row = al.

Definition joined (p : registerParams) (pane : string) (al : list string) (d : DB) : DB -> Prop :=
  row_is (who p) pane d (as_registered p pane al d).

(** The row right after the upsert. *)
Definition upserted (p : registerParams) (pane : string) (d : DB) (row : Agent) : Prop :=
  PaneID row = pane_after p pane d /\
  a_relaunch_cmd row = before a_relaunch_cmd EmptyString p d /\
  a_auto_restart row = before a_auto_restart false p d /\
  a_aliases row = aliases_before p d.

Lemma upsert_joins p pane now d :
  agents_wf (db_agents d) ->
  match UpsertAgent (rg_Name p) pane now d with
  | (Ok _, d') => row_is (who p) pane d (upserted p pane d) d'
  | (Err _, d') => d' = d
  end.
Proof.
  intros Hw. unfold UpsertAgent. cbv zeta. case_bool_decide; [done|].
  destruct (ReservedRoutingName _); [done|]. case_bool_decide as Hp.
  - subst pane. unfold row_is. cbn [set_agents db_agents]. split_and!.
    + eexists. split; [by rewrite upsert_row_eq|]. unfold upserted, aliases_before, pane_after, before.
      rewrite bool_decide_true by done. by destruct (db_agents d !! who p).
    + intros k a Hk Ha. exists a. rewrite upsert_row_ne by done. split; [done|by left].
    + intros k Hk Ha. by rewrite upsert_row_ne.
  - destruct (pane_free _ _ _); [|done]. unfold row_is. cbn [set_agents db_agents]. split_and!.
    + eexists. split; [by rewrite upsert_row_eq, clear_eq|].
      unfold upserted, aliases_before, pane_after, before. rewrite bool_decide_false by done.
      by destruct (db_agents d !! who p).
    + intros k a Hk Ha. eexists. rewrite upsert_row_ne, (clear_ne _ _ _ _ _ a) by done.
      split; [done|]. case_bool_decide as E; [|by left]. right. unfold PaneID. rewrite E. done.
    + intros k Hk Ha. rewrite upsert_row_ne by done. unfold clear_other_holders. by rewrite lookup_fmap, Ha.
Qed.

Section RegisterAlone.
Context (getenv : string -> string) (fileExists : string -> bool) (BinaryName : string)
  (systemctl : history -> list string -> string * option error) (sw : SWorld) (Halone : alone sw).

(** A column that is only written when it was given. *)
Lemma ends_optional {A} what (o : option A) (op : A -> DB -> result unit * DB) f name pane d0
    (P P' : Agent -> Prop) d :
  row_is name pane d0 P d ->
  (forall v d, op v d = update_agent name (f v) d) ->
  (forall r, o = None -> P r -> P' r) -> (forall v r, o = Some v -> P r -> P' (f v r)) ->
  ends_in sw (set_optional what o op) d (fun _ => row_is name pane d0 P').
Proof.
  intros Hrow Hop Hn Hs. unfold set_optional. destruct o as [v|].
  - apply (ends_bind _ _ _ _ (fun _ => row_is name pane d0 P')).
    + eapply (ends_column _ _ (fun _ => f v) _ _ _ P P'); eauto.
    + intros _ d' Hd'. by apply ends_go.
  - apply ends_go. eapply row_weaken; eauto.
Qed.

(** The alias is added, or refused and nothing is. *)
Lemma add_alias_row p pane now d0 d :
  rg_Alias p <> EmptyString -> joined p pane (aliases_before p d0) d0 d ->
  let (r, d') := AddAlias (rg_Name p) (rg_Alias p) now d in
  joined p pane (if is_ok r then aliases_after p d0 else aliases_before p d0) d0 d'.
Proof.
  intros Hne Hrow. unfold AddAlias, GetAgent, SetAliases. cbv zeta.
  destruct (db_agents d !! who p) as [a|] eqn:E; [|done].
  assert (Ha : a_aliases a = aliases_before p d0).
  { destruct Hrow as ((row & Hr & HP) & _). rewrite E in Hr. injection Hr as <-. apply HP. }
  unfold aliases_after. rewrite (bool_decide_false _ Hne). cbn [orb].
  destruct (existsb (fun e => bool_decide (e = rg_Alias p)) (a_aliases a)) eqn:Ee.
  - apply existsb_exists in Ee as (x & Hx & ->%bool_decide_eq_true). cbn [is_ok].
    rewrite bool_decide_true; [done|]. rewrite <- Ha. by apply list_elem_of_In.
  - destruct (checkAliasCollisions _ _ _) as [u|e]; [|done].
    rewrite bool_decide_false.
    + destruct (row_update _ _ _ _ (as_registered p pane (aliases_before p d0 ++ [rg_Alias p]) d0)
                  (fun a' => set_a_aliases (a_aliases a ++ [rg_Alias p]) (set_a_updated_at now a')) _ Hrow) as [Hok Hd].
      { intros r (?&?&?&?&?&?&?&?). rewrite Ha. by split_and!. }
      match goal with |- context [update_agent ?n ?f ?x] => destruct (update_agent n f x) as [r' d'] end.
      simpl in Hok, Hd. by subst r'.
    + rewrite <- Ha, list_elem_of_In. intros Hin. apply not_true_iff_false in Ee. apply Ee, existsb_exists.
      exists (rg_Alias p). by rewrite bool_decide_true.
Qed.

(** What the writes leave: the registration, or nothing when the upsert is refused. *)
Definition written (p : registerParams) (pane : string) (d : DB) (o : option (string * Z)) (d' : DB) : Prop :=
  match o with
  | None => joined p pane (aliases_after p d) d d'
  | Some (_, code) =>
      code <> exitOK /\ (d' = d \/ (rg_Alias p <> EmptyString /\ joined p pane (aliases_before p d) d d'))
  end.

Ltac step P := eapply (ends_bind _ _ _ _ (fun _ => P)).

Lemma register_write_spec p pane d :
  agents_wf (db_agents d) -> ValidDeliveryMode (rg_DeliveryMode p) = true ->
  ends_in sw (register_write p pane) d (written p pane d).
Proof.
  intros Hw Hmode. unfold register_write.
  set (rows P := row_is (who p) pane d P).
  set (F0 := upserted p pane d).
  set (F1 r := F0 r /\ a_delivery_mode r = rg_DeliveryMode p).
  set (F2 r := PaneID r = pane_after p pane d /\ a_aliases r = aliases_before p d /\ a_auto_restart r = before a_auto_restart false p d /\
        a_delivery_mode r = rg_DeliveryMode p /\
        a_relaunch_cmd r = default (before a_relaunch_cmd EmptyString p d) (rg_RelaunchCmd p)).
  set (F3 r := PaneID r = pane_after p pane d /\ a_aliases r = aliases_before p d /\ a_delivery_mode r = rg_DeliveryMode p /\
        a_relaunch_cmd r = default (before a_relaunch_cmd EmptyString p d) (rg_RelaunchCmd p) /\
        a_auto_restart r = default (before a_auto_restart false p d) (rg_AutoRestart p)).
  set (F4 r := F3 r /\ a_attention_state r = AttentionStateIdle).
  set (F5 r := F4 r /\ a_stuck_reason r = EmptyString).
  eapply (ends_bind _ _ _ _ (fun r d' => match r with Ok _ => rows F0 d' | Err _ => d' = d end)).
  { apply ends_store; [done|]. intros now. pose proof (upsert_joins p pane now d Hw) as H.
    by destruct (UpsertAgent (rg_Name p) pane now d) as [[]]. }
  intros [[]|e] d1 H1; [|apply ends_go; split; [done|by left]].
  eapply (ends_bind _ _ _ _ (fun r d' => r = Ok tt /\ rows F1 d')).
  { eapply (ends_column _ _ (fun now a => set_a_delivery_mode (rg_DeliveryMode p) (set_a_updated_at now a)) _ _ _ F0 F1);
      eauto; [intros now; unfold SetDeliveryMode; by rewrite Hmode|by intros now r (?&?&?&?)]. }
  intros r d2 [-> H2].
  step (rows F2).
  { eapply (ends_optional _ _ _ set_a_relaunch_cmd _ _ _ F1); [exact H2|done|..].
    - intros r E [(?&?&?&?) ?]. unfold F2. rewrite E. by split_and!.
    - intros v r E [(?&?&?&?) ?]. unfold F2. rewrite E. by split_and!. }
  intros _ d3 H3. step (rows F3).
  { eapply (ends_optional _ _ _ set_a_auto_restart _ _ _ F2); [exact H3|done|..].
    - intros r E (?&?&?&?&?). unfold F3. rewrite E. by split_and!.
    - intros v r E (?&?&?&?&?). unfold F3. rewrite E. by split_and!. }
  intros _ d4 H4. step (rows F4).
  { eapply (ends_column _ _ (fun _ => set_a_attention_state AttentionStateIdle) _ _ _ F3 F4);
      [done|exact H4| |intros _ r H; by split|by intros d' Hd'].
    intros now. unfold SetAttentionState. by replace (ValidAttentionState AttentionStateIdle) with true by (by vm_compute). }
  intros _ d5 H5. step (rows F5).
  { eapply (ends_column _ _ (fun _ => set_a_stuck_reason EmptyString) _ _ _ F4 F5);
      [done|exact H5|done|intros _ r [H ?]; by split|by intros d' Hd']. }
  intros ? d6 H6.
  eapply (ends_bind _ _ _ _ (fun sid d' => rows F5 d' /\ (rg_SessionID p <> EmptyString -> sid = rg_SessionID p))).
  { destruct (str_empty (rg_SessionID p) && negb (str_empty pane)) eqn:Es.
    - apply andb_true_iff in Es as [Es _]. apply bool_decide_eq_true in Es. unfold found_session.
      apply ends_aside; [by apply ends_ask|]. intros o. apply ends_go. by split.
    - apply ends_go. by split. }
  intros sid d7 [H7 Hsid]. set (old := aliases_before p d). step (joined p pane old d).
  { unfold register_session. case_bool_decide as E.
    - apply ends_go. eapply row_weaken; [exact H7|]. intros r [[(?&?&?&?&?) ?] ?].
      split_and!; try done. intros Hne. by specialize (Hsid Hne); congruence.
    - step (joined p pane old d); [|intros _ d' Hd'; by apply ends_go].
      eapply (ends_column _ _ (fun _ => set_a_session_id sid) _ _ _ F5 (as_registered p pane old d)); eauto.
      intros _ r [[(?&?&?&?&?) ?] ?]. split_and!; try done. }
  intros _ d8 H8. case_bool_decide as Ea.
  { apply ends_go. unfold written, aliases_after. by rewrite (bool_decide_true _ Ea). }
  eapply (ends_bind _ _ _ _ (fun r d' => joined p pane (if is_ok r then aliases_after p d else old) d d')).
  { apply ends_store; [done|]. intros now. pose proof (add_alias_row p pane now d d8 Ea H8) as H.
    by destruct (AddAlias _ _ _ d8). }
  intros [[]|e] d9 H9; apply ends_go; [exact H9|].
  destruct (errors_Is e ErrAliasCollision); (split; [done|by right]).
Qed.

Lemma promote_agents name trigger d : db_agents (snd (PromoteDeferred name trigger d)) = db_agents d.
Proof.
  unfold PromoteDeferred, update_count. cbv zeta. cbn [snd]. case_match; [|done].
  unfold fireNotify. by case_match.
Qed.

(** The backlog policy only moves the floor of the agent and adds a notice. *)
Lemma ends_and {A} (c : M A) d (Q1 Q2 : A -> DB -> Prop) :
  ends_in sw c d Q1 -> ends_in sw c d Q2 -> ends_in sw c d (fun a d' => Q1 a d' /\ Q2 a d').
Proof.
  intros H1 H2 st E. destruct (H1 st E) as (a & st' & E1 & HQ). destruct (H2 st E) as (a' & st'' & E2 & HQ').
  rewrite E1 in E2. injection E2 as <- <-. eauto.
Qed.

Lemma policy_joined cfg p pane al mode queued d0 d :
  joined p pane al d0 d ->
  ends_in sw (applyBacklogPolicy cfg (rg_Name p) mode queued) d (fun _ => joined p pane al d0).
Proof.
  intros H. unfold applyBacklogPolicy. destruct (_ || _); [by apply ends_go|].
  destruct (backlog_policy cfg (rg_Name p)) as [policy keep].
  apply ends_aside; [by apply ends_store|]. intros [[floor skipped]|e]; [|by apply ends_go].
  destruct (skipped <=? 0); [by apply ends_go|].
  step (joined p pane al d0).
  { eapply (ends_column _ _ (fun _ => set_a_backlog_epoch_id (Some floor)) _ _ _ (as_registered p pane al d0)
      (as_registered p pane al d0)); [done|exact H|done|done|by intros d' Hd']. }
  intros [[]|e] d1 H1; [|by apply ends_go].
  apply ends_aside; [by apply ends_lift|]. intros now.
  apply ends_aside; [by apply ends_read|]. intros a. destruct (match a with Ok v => v | Err _ => _ end) as [age prior].
  step (joined p pane al d0); [|intros r d2 H2; by apply ends_go].
  apply ends_notice; [done|]. intros rnd now'. eapply row_agents; [apply InsertNotice_agents|exact H1].
Qed.

Lemma finish_joined cfg p pane al start d0 d :
  joined p pane al d0 d ->
  ends_in sw (register_finish BinaryName systemctl cfg p pane start) d (fun r d' =>
    joined p pane al d0 d' /\ ra_Name r = rg_Name p /\ ra_Pane r = pane /\
    ra_DeliveryMode r = rg_DeliveryMode p /\ (start = false -> ra_Mailman r = "skipped")).
Proof.
  intros H. unfold register_finish. step (joined p pane al d0).
  { unfold register_backlog. apply ends_aside; [by apply ends_read|]. intros [q|e]; [|by apply ends_go].
    step (joined p pane al d0); [by apply policy_joined|intros b d' Hd'; by apply ends_go]. }
  intros qb d1 H1. apply ends_aside; [by apply ends_lift|]. intros now.
  apply ends_aside; [by apply ends_read|]. intros ref.
  step (joined p pane al d0).
  { unfold register_promote. step (joined p pane al d0); [|intros r d' Hd'; by apply ends_go].
    apply ends_store_ok; [done|]. intros now'. eapply row_agents; [apply promote_agents|exact H1]. }
  intros n d2 H2.
  eapply (ends_bind _ _ _ _ (fun mm d' => d' = d2 /\ (start = false -> fst mm = "skipped"))).
  { destruct start; [|by apply ends_go]. unfold startMailman.
    apply ends_aside; [|intros e; by apply ends_go].
    apply ends_aside; [by apply ends_ask|]. intros out. by apply ends_go. }
  intros mm d3 [-> Hmm]. apply ends_go. by split_and!.
Qed.

(** What the checks let through. *)
Definition permitted (p : registerParams) (d : DB) : Prop :=
  rg_Name p <> EmptyString /\ ValidDeliveryMode (rg_DeliveryMode p) = true /\
  (rg_KeepPane p = true \/ resolved_pane getenv p <> EmptyString) /\
  match db_agents d !! who p with
  | None => True
  | Some a =>
      rg_Force p = true /\
      (rg_Pane p = EmptyString -> rg_KeepPane p = false -> PaneID a <> EmptyString ->
       resolved_pane getenv p = PaneID a) /\
      (a_delivery_mode a <> rg_DeliveryMode p ->
       CountStaleQueued (rg_Name p) d = 0 \/ rg_PurgeStale p = true \/ rg_KeepStale p = true)
  end.

(** The agent was registered under another mode of delivery. *)
Definition flips (p : registerParams) (d : DB) : bool :=
  match db_agents d !! who p with
  | Some a => negb (bool_decide (a_delivery_mode a = rg_DeliveryMode p))
  | None => false
  end.

(** A message that the flip would strand, and the messages with those acknowledged. *)
Definition stranded (p : registerParams) (m : Message) : bool :=
  bool_decide (m_ToAgent m = who p) && bool_decide (m_State m = StateQueued) &&
  bool_decide (m_DeliverAfter m = None).

Definition purge (p : registerParams) (l : list Message) : list Message :=
  sql_update (stranded p) (set_m_State StateAcknowledged) l.

Definition purged (p : registerParams) (d d' : DB) : Prop :=
  rg_PurgeStale p = true /\ rg_KeepStale p = false /\ flips p d = true /\
  d' = set_messages (purge p (db_messages d)) d.

(** The messages once the flip is decided. *)
Definition guarded_messages (p : registerParams) (d : DB) : list Message :=
  if flips p d && rg_PurgeStale p then purge p (db_messages d) else db_messages d.

(** A message deferred until the agent registers. *)
Definition awaits (p : registerParams) (m : Message) : bool :=
  bool_decide (m_ToAgent m = who p) && bool_decide (m_State m = StateDeferred) &&
  bool_decide (m_DeliverAfter m = Some "register").

(** A notice to the agent itself, or none. *)
Definition nudged (p : registerParams) (nudge : list Message) : Prop :=
  nudge = [] \/ exists m, nudge = [m] /\ m_FromAgent m = who p /\ m_ToAgent m = who p /\
                         m_State m = StateQueued /\ m_Kind m = KindBacklogAnnounce.

(** What a registration makes of the messages [l]: those that waited for it are queued,
    and the agent may get one notice about its backlog. *)
Definition settled (p : registerParams) (l : list Message) (d' : DB) : Prop :=
  exists nudge, db_messages d' = sql_update (awaits p) (set_m_State StateQueued) l ++ nudge /\ nudged p nudge.

Lemma stranded_stale p m : staleQueuedPredicate (who p) m = stranded p m.
Proof. unfold stranded, staleQueuedPredicate, to_in_state. by destruct (m_DeliverAfter m). Qed.

Lemma ack_purges p d : snd (AckStaleQueued (rg_Name p) d) = set_messages (purge p (db_messages d)) d.
Proof.
  unfold AckStaleQueued, update_count, purge. cbn [snd]. f_equal.
  unfold sql_update. apply map_ext. intros m. by rewrite stranded_stale.
Qed.

Lemma none_stale p d : CountStaleQueued (rg_Name p) d = 0 -> purge p (db_messages d) = db_messages d.
Proof.
  intros H. apply sql_update_none. intros m Hm. rewrite <- stranded_stale.
  by apply (proj1 (sql_count_zero _ _) H).
Qed.

Lemma usage_ok p b :
  register_usage getenv p = Ok b ->
  rg_Name p <> EmptyString /\ ValidDeliveryMode (rg_DeliveryMode p) = true /\
  (rg_KeepPane p = true \/ resolved_pane getenv p <> EmptyString).
Proof.
  unfold register_usage. case_bool_decide; [done|]. destruct (_ && pane_explicit p); [done|].
  destruct (negb (rg_KeepPane p) && _) eqn:E; [done|].
  destruct (ValidDeliveryMode _); [|done]. intros _. split_and!; try done.
  destruct (rg_KeepPane p); [by left|]. right. by apply bool_decide_eq_false in E.
Qed.

(** The guard of a mode change: its verdict, and what it did. *)
Definition guarded (p : registerParams) (ex : option Agent) (d : DB) (o : option (string * Z)) (d' : DB) : Prop :=
  (d' = d \/ purged p d d') /\
  (o = None -> db_messages d' = guarded_messages p d /\ match ex with
               | None => True
               | Some a => a_delivery_mode a <> rg_DeliveryMode p ->
                   CountStaleQueued (rg_Name p) d = 0 \/ rg_PurgeStale p = true \/ rg_KeepStale p = true
               end) /\
  match o with Some (_, code) => code <> exitOK | None => True end.

Lemma flip_guard_spec p ex d :
  db_agents d !! who p = ex -> ends_in sw (flip_guard p ex) d (guarded p ex d).
Proof.
  intros Hex. unfold flip_guard, guarded, guarded_messages.
  destruct ex as [a|]; [|apply ends_go; unfold flips; rewrite Hex; split_and!; [by left|done..]].
  assert (Hfl : flips p d = negb (bool_decide (a_delivery_mode a = rg_DeliveryMode p)))
    by (unfold flips; by rewrite Hex).
  rewrite Hfl. case_bool_decide as E; [apply ends_go; split_and!; [by left|done..]|]. cbn [negb andb] in Hfl |- *.
  destruct (rg_PurgeStale p && rg_KeepStale p) eqn:Epk; [apply ends_go; split_and!; [by left|done..]|].
  apply ends_bind with (Q := fun c d' => c = Ok (CountStaleQueued (rg_Name p) d) /\ d' = d); [by apply ends_read|].
  intros c d' [-> ->]. destruct (CountStaleQueued (rg_Name p) d =? 0) eqn:E0.
  { apply Z.eqb_eq in E0. apply ends_go. split_and!; [by left| |done]. intros _.
    rewrite (none_stale p d E0). split; [by destruct (rg_PurgeStale p)|]. by left. }
  destruct (rg_PurgeStale p) eqn:Ep.
  - apply ends_bind with (Q := fun _ d' => d' = set_messages (purge p (db_messages d)) d).
    { apply ends_store_ok; [done|]. intros _. apply ack_purges. }
    intros r d' ->. cbn in Epk. apply ends_go. split_and!; [by right; split_and!| |by destruct r].
    intros _. split; [done|]. intros _. right. by left.
  - destruct (rg_KeepStale p) eqn:Ek; apply ends_go; (split_and!; [by left| |done]); [|done].
    intros _. split; [done|]. intros _. right. by right.
Qed.

Definition register_spec (p : registerParams) (d : DB) (out : outcome registered) (d' : DB) : Prop :=
  let pane := resolved_pane getenv p in
  match out with
  | Failed msg code =>
      code <> exitOK /\
      (d' = d \/ purged p d d' \/
       (rg_Alias p <> EmptyString /\ permitted p d /\ joined p pane (aliases_before p d) d d' /\
        db_messages d' = guarded_messages p d))
  | Done r =>
      permitted p d /\ joined p pane (aliases_after p d) d d' /\ settled p (guarded_messages p d) d' /\
      ra_Name r = rg_Name p /\ ra_Pane r = pane /\ ra_DeliveryMode r = rg_DeliveryMode p
  end.

Lemma purged_agents p d d' : purged p d d' -> db_agents d' = db_agents d.
Proof. by intros (_ & _ & _ & ->). Qed.

Lemma joined_from p pane al d d1 d' :
  db_agents d1 = db_agents d -> joined p pane al d1 d' -> joined p pane al d d'.
Proof.
  intros E. unfold joined, as_registered, pane_after, before, row_is. by rewrite E.
Qed.

Lemma before_from p d d1 : db_agents d1 = db_agents d -> aliases_before p d1 = aliases_before p d.
Proof. unfold aliases_before, before. by intros ->. Qed.

Lemma after_from p d d1 : db_agents d1 = db_agents d -> aliases_after p d1 = aliases_after p d.
Proof. intros E. unfold aliases_after. by rewrite (before_from p d d1 E). Qed.

(** *** The messages *)

Lemma fireNotify_fields to d : db_messages (fireNotify to d) = db_messages d /\ db_agents (fireNotify to d) = db_agents d.
Proof. unfold fireNotify. by case_bool_decide. Qed.

(** A notice that went in is one new queued row with a fresh id. *)
Lemma notice_row p rnd now d res d' :
  InsertNotice p rnd now d = (Ok res, d') ->
  db_agents d' = db_agents d /\
  db_messages d' = db_messages d ++ [new_row (with_caps 0 0 (canonical_params p)) (ir_PublicID res) now d].
Proof.
  unfold InsertNotice. cbv zeta. destruct (validateInsertParams _); [|done].
  destruct (validateReplyTo _ _); [|done].
  destruct (insertOneInTx _ rnd now d) as [[res1 d1]|] eqn:E; [|done].
  intros [= -> <-]. apply insertOneInTx_row in E as (-> & _ & _).
  match goal with |- context [fireNotify ?to ?x] => destruct (fireNotify_fields to x) as [-> ->] end. done.
Qed.

Notation same_messages d := (fun _ d' => db_messages d' = db_messages d).

(** An access that leaves the messages alone. *)
Lemma messages_store {A} what (op : string -> DB -> result A * DB) d0 d :
  db_messages d = db_messages d0 ->
  (forall now, db_messages (snd (op now d)) = db_messages d) ->
  ends_in sw (store what op) d (same_messages d0).
Proof. intros E H. apply ends_store; [done|]. intros now. by rewrite H. Qed.

Lemma messages_optional {A} what (o : option A) (op : A -> DB -> result unit * DB) d0 d :
  db_messages d = db_messages d0 -> (forall v, db_messages (snd (op v d)) = db_messages d) ->
  ends_in sw (set_optional what o op) d (same_messages d0).
Proof.
  intros E H. unfold set_optional. destruct o as [v|]; [|by apply ends_go].
  eapply ends_bind; [by apply (messages_store _ _ d0)|]. intros r d' Hd'. by apply ends_go.
Qed.

Ltac still := unfold UpsertAgent, SetDeliveryMode, AddAlias, SetAliases; cbv zeta; repeat case_match; cbn [snd];
  try rewrite (proj1 (update_agent_messages _ _ _)); done.

Lemma register_write_messages p pane d : ends_in sw (register_write p pane) d (same_messages d).
Proof.
  unfold register_write.
  eapply ends_bind; [apply (messages_store _ _ d); [done|intros; still]|].
  intros [[]|e] d1 H1; [|by apply ends_go].
  eapply ends_bind; [apply (messages_store _ _ d); [done|intros; still]|].
  intros [[]|e] d2 H2; [|by apply ends_go].
  eapply ends_bind; [apply (messages_optional _ _ _ d); [done|intros; apply update_agent_messages]|].
  intros ? d3 H3.
  eapply ends_bind; [apply (messages_optional _ _ _ d); [done|intros; apply update_agent_messages]|].
  intros ? d4 H4.
  eapply ends_bind; [apply (messages_store _ _ d); [done|intros; unfold SetAttentionState; case_match; [done|];
    apply update_agent_messages]|].
  intros ? d5 H5.
  eapply ends_bind; [apply (messages_store _ _ d); [done|intros; apply update_agent_messages]|].
  intros ? d6 H6.
  eapply (ends_bind _ _ _ _ (same_messages d)).
  { destruct (str_empty (rg_SessionID p) && negb (str_empty pane)); [|by apply ends_go].
    unfold found_session. apply ends_aside; [by apply ends_ask|]. intros o. by apply ends_go. }
  intros sid d7 H7. eapply (ends_bind _ _ _ _ (same_messages d)).
  { unfold register_session. case_bool_decide; [by apply ends_go|].
    eapply ends_bind; [apply (messages_store _ _ d); [done|intros; apply update_agent_messages]|].
    intros ? d' Hd'. by apply ends_go. }
  intros ? d8 H8. case_bool_decide; [by apply ends_go|].
  eapply ends_bind; [apply (messages_store _ _ d); [done|intros; still]|].
  intros r d9 H9. by apply ends_go.
Qed.

Notation appended p l := (fun _ d' => exists nudge, db_messages d' = l ++ nudge /\ nudged p nudge).

Lemma policy_messages cfg p mode queued d :
  ends_in sw (applyBacklogPolicy cfg (rg_Name p) mode queued) d (appended p (db_messages d)).
Proof.
  assert (Hnone : forall d' : DB, db_messages d' = db_messages d ->
    exists nudge, db_messages d' = db_messages d ++ nudge /\ nudged p nudge)
    by (intros d' E; exists []; rewrite app_nil_r; split; [done|by left]).
  unfold applyBacklogPolicy. destruct (_ || _); [by apply ends_go, Hnone|].
  destruct (backlog_policy cfg (rg_Name p)) as [policy keep].
  apply ends_aside; [by apply ends_store|]. intros [[floor skipped]|e]; [|by apply ends_go, Hnone].
  destruct (skipped <=? 0); [by apply ends_go, Hnone|].
  eapply ends_bind; [apply (messages_store _ _ d); [done|intros; apply update_agent_messages]|].
  intros [[]|e] d1 H1; [|by apply ends_go, Hnone].
  apply ends_aside; [by apply ends_lift|]. intros now.
  apply ends_aside; [by apply ends_read|]. intros a. destruct (match a with Ok v => v | Err _ => _ end) as [age prior].
  eapply (ends_bind _ _ _ _ (appended p (db_messages d))); [|intros r d2 H2; by apply ends_go].
  apply ends_notice; [done|]. intros rnd now'.
  destruct (InsertNotice _ rnd now' d1) as [[res|e] d2] eqn:E; cbn [snd].
  - apply notice_row in E as [_ E]. eexists. rewrite E, H1. split; [done|]. right. by eexists.
  - apply Hnone. unfold InsertNotice in E. cbv zeta in E. repeat case_match; simplify_eq; done.
Qed.

Lemma promote_messages p l nudge d :
  db_messages d = l ++ nudge -> nudged p nudge ->
  settled p l (snd (PromoteDeferred (rg_Name p) deferTriggerRegister d)).
Proof.
  intros E Hn. exists nudge. split; [|exact Hn]. unfold PromoteDeferred, update_count. cbv zeta. cbn [snd].
  transitivity (sql_update (awaits p) (set_m_State StateQueued) (db_messages d)).
  { case_match; [rewrite fireNotify_messages|]; done. }
  rewrite E, sql_update_app. f_equal. destruct Hn as [->|(m & -> & _ & _ & Hs & _)]; [done|].
  apply sql_update_none. intros m' ->%list_elem_of_singleton. unfold awaits. rewrite Hs.
  by rewrite (bool_decide_false (StateQueued = StateDeferred)), andb_false_r.
Qed.

Lemma finish_messages cfg p pane start d :
  ends_in sw (register_finish BinaryName systemctl cfg p pane start) d
    (fun _ d' => settled p (db_messages d) d').
Proof.
  unfold register_finish.
  assert (Hnone : exists nudge, db_messages d = db_messages d ++ nudge /\ nudged p nudge)
    by (exists []; rewrite app_nil_r; split; [done|by left]).
  eapply (ends_bind _ _ _ _ (appended p (db_messages d))).
  { unfold register_backlog. apply ends_aside; [by apply ends_read|]. intros [q|e]; [|by apply ends_go].
    eapply ends_bind; [apply policy_messages|intros b d' Hd'; by apply ends_go]. }
  intros qb d1 (nudge & E1 & Hn). apply ends_aside; [by apply ends_lift|]. intros now.
  apply ends_aside; [by apply ends_read|]. intros ref.
  eapply (ends_bind _ _ _ _ (fun _ d' => settled p (db_messages d) d')).
  { unfold register_promote. eapply ends_bind; [|intros r d' Hd'; by apply ends_go; exact Hd'].
    apply ends_store_ok; [done|]. intros now'. by eapply promote_messages. }
  intros n d2 H2. apply ends_aside; [|intros mm; by apply ends_go].
  destruct start; [|by apply ends_go]. unfold startMailman.
  apply ends_aside; [|intros e; by apply ends_go].
  apply ends_aside; [by apply ends_ask|]. intros out. by apply ends_go.
Qed.

(** From the guards on: the agent is new or may be overwritten. *)
Lemma register_go cfg p d start :
  agents_wf (db_agents d) -> rg_Name p <> EmptyString -> ValidDeliveryMode (rg_DeliveryMode p) = true ->
  (rg_KeepPane p = true \/ resolved_pane getenv p <> EmptyString) ->
  forall ex, db_agents d !! who p = ex ->
  (forall a, ex = Some a -> rg_Force p = true) ->
  ends_in sw
    (g <! flip_guard p ex ;;
     match g with
     | Some (msg, code) => go (Failed msg code)
     | None =>
         if rewrites_pane getenv p ex
         then go (Failed (rewrite_text getenv p (default EmptyString (option_map PaneID ex))) exitDataErr)
         else
           w <! register_write p (resolved_pane getenv p) ;;
           match w with
           | Some (msg, code) => go (Failed msg code)
           | None => a <! register_finish BinaryName systemctl cfg p (resolved_pane getenv p) start ;; go (Done a)
           end
     end) d (register_spec p d).
Proof.
  intros Hw Hname Hmode Hpane ex Hex Hforce.
  eapply ends_bind; [by apply flip_guard_spec|]. intros [[msg code]|] d1 (Hd1 & Hg & Hc).
  { apply ends_go. split; [done|]. destruct Hd1; [by left|by right; left]. }
  assert (Ha : db_agents d1 = db_agents d) by (destruct Hd1 as [->|H]; [done|by eapply purged_agents]).
  destruct (rewrites_pane getenv p ex) eqn:Er.
  { apply ends_go. split; [done|]. destruct Hd1; [by left|by right; left]. }
  destruct (Hg eq_refl) as [Hm Hflip].
  assert (Hperm : permitted p d).
  { split_and!; try done. rewrite Hex. destruct ex as [a|]; [|done]. split_and!; [by eapply Hforce| |by apply Hflip].
    intros Hp Hk Ho. unfold rewrites_pane, pane_explicit in Er.
    rewrite Hp, Hk, (bool_decide_false (PaneID a = EmptyString)) in Er by done. cbn in Er.
    by apply negb_false_iff, bool_decide_eq_true in Er. }
  eapply ends_bind.
  { apply ends_and; [by apply register_write_spec; [rewrite Ha|]|apply register_write_messages]. }
  intros [[msg code]|] d2 [H2 Hm2].
  { apply ends_go. destruct H2 as [Hc2 H2]. split; [done|]. destruct H2 as [->|[Hal H2]].
    - destruct Hd1; [by left|by right; left].
    - right. right. rewrite (before_from p d d1 Ha) in H2. split_and!; [done..| |congruence]. by eapply joined_from. }
  cbn [written] in H2. rewrite (after_from p d d1 Ha) in H2.
  eapply ends_bind; [apply ends_and; [apply finish_joined; exact H2|apply finish_messages]|].
  intros r d3 [(H3 & Hn & Hp & Hmo & _) Hs]. apply ends_go.
  split_and!; try done; [by eapply joined_from|]. by rewrite Hm2, Hm in Hs.
Qed.

End RegisterAlone.

(** ** The backlog *)

(** Reading of [db_messages] by the claim after one more row. *)
Lemma candidates_snoc agent d m d' :
  db_agents d' = db_agents d -> db_messages d' = db_messages d ++ [m] ->
  claimable (CanonicalName agent) d m = true ->
  candidates agent d' = candidates agent d ++ [m].
Proof.
  intros Ha Hm Hc. unfold candidates. rewrite Hm, sql_where_app.
  assert (Hcl : forall x, claimable (CanonicalName agent) d' x = claimable (CanonicalName agent) d x)
    by (intros x; unfold claimable, backlog_floor; by rewrite Ha).
  f_equal; [by apply sql_where_ext|]. unfold sql_where. cbn. by rewrite Hcl, Hc.
Qed.

Definition queued_to (name : string) : Message -> bool := to_in_state (CanonicalName name) StateQueued.

(** The rows the policy leaves to the claim: the newest ones, and promoted deferrals. *)
Definition kept_rows (name : string) (floor : Z) (d : DB) : list Message :=
  sql_where (fun m => queued_to name m &&
    (match m_DeliverAfter m with Some _ => true | None => false end || (floor <? m_ID m))) (db_messages d).

Definition fenced (name : string) (keep : Z) (d : DB) (b : backlogPolicyResult) (d' : DB) : Prop :=
  exists floor nudge age prior,
    bl_Skipped b = RecipientQueueDepth name d - keep /\
    sql_count (fun m => queued_to name m && (floor <? m_ID m)) (db_messages d) = keep /\
    db_messages d' = db_messages d ++ [nudge] /\
    candidates name d' = kept_rows name floor d ++ [nudge] /\
    m_Kind nudge = KindBacklogAnnounce /\ m_PublicID nudge = bl_NudgeID b /\
    m_Body nudge = backlogNudgeBody (RecipientQueueDepth name d - keep) age prior.

(** The backlog of an agent that registers.  For every configuration and every
    well-formed store: with nothing waiting, or another mode of delivery, or no more
    than the policy delivers, the store is untouched and no notice goes out; with more,
    either an error is reported and no message is added, or exactly one notice naming
    the number left behind is added, and what the mailman can claim from then on is
    precisely the newest messages the policy keeps (none when announcing), the promoted
    deferred ones, and that notice. *)
Theorem backlog_fenced sw cfg name mode d :
  alone sw -> store_wf d ->
  let depth := RecipientQueueDepth name d in
  let keep := snd (backlog_policy cfg name) in
  ends_in sw (applyBacklogPolicy cfg name mode depth) d (fun b d' =>
    if (depth <=? 0) || negb (bool_decide (mode = DeliveryModePasteAndEnter)) || (depth <=? keep)
    then d' = d /\ bl_Skipped b = 0 /\ bl_NudgeID b = EmptyString /\ bl_Err b = None
    else (is_Some (bl_Err b) /\ db_messages d' = db_messages d) \/ (bl_Err b = None /\ fenced name keep d b d')).
Proof.
  intros Ha Hwf depth keep. unfold applyBacklogPolicy. fold depth.
  destruct ((depth <=? 0) || _) eqn:E0; [by apply ends_go|]. cbn [orb].
  unfold keep. destruct (backlog_policy cfg name) as [policy k] eqn:Ep. cbn [snd].
  assert (Hk : 0 <= k).
  { unfold backlog_policy in Ep. cbv zeta in Ep. destruct (bool_decide _); simplify_eq; lia. }
  destruct (QueuedBacklogFloor_keeps_newest name k d Hwf) as (floor & skipped & Ef & Hspec).
  rewrite Z.max_r in Hspec by done. unfold floor_spec in Hspec. cbv zeta in Hspec. fold depth in Hspec.
  apply ends_bind with (Q := fun r d' => r = Ok (floor, skipped) /\ d' = d); [by apply ends_store|].
  intros r d1 [-> ->].
  destruct Hspec as [(Hle & -> & ->)|(Hlt & -> & (m0 & Hm0 & _ & Hid) & Hcount & Hcand)].
  { apply ends_go. rewrite (proj2 (Z.leb_le depth k)) by done. done. }
  rewrite (proj2 (Z.leb_gt depth k)), (proj2 (Z.leb_gt (depth - k) 0)) by lia.
  apply ends_bind with (Q := fun r d' => SetBacklogEpoch name floor d = (r, d')).
  { apply ends_store; [done|]. intros now. by destruct (SetBacklogEpoch name floor d). }
  intros [u|e] d1 H1.
  2: { apply ends_go. left. split; [by eexists|]. unfold SetBacklogEpoch, update_agent in H1. by case_match; simplify_eq. }
  destruct u. specialize (Hcand d1 H1).
  assert (Hd1 : db_messages d1 = db_messages d /\ db_seq d1 = db_seq d /\
    exists a, db_agents d1 !! CanonicalName name = Some a /\ a_backlog_epoch_id a = Some floor).
  { unfold SetBacklogEpoch, update_agent in H1. case_match; simplify_eq. cbn. split_and!; try done.
    eexists. by rewrite lookup_insert_eq. }
  destruct Hd1 as (Hmsg & Hseq & a & Hrow & Hep).
  apply ends_aside; [by apply ends_lift|]. intros now. apply ends_aside; [by apply ends_read|]. intros ag.
  destruct (match ag with Ok v => v | Err _ => (None, 0) end) as [age prior].
  apply ends_bind with (Q := fun r d' => match r with
    | Err _ => d' = d1
    | Ok res => exists rnd now, InsertNotice (nudge_params name (depth - k) age prior) rnd now d1 = (Ok res, d')
    end).
  { apply ends_notice; [done|]. intros rnd now'.
    destruct (InsertNotice _ rnd now' d1) as [[res|e] d2] eqn:E; cbn; [by exists rnd, now'|].
    unfold InsertNotice in E. cbv zeta in E. repeat case_match; simplify_eq; done. }
  intros [res|e] d2 H2; apply ends_go; [right|left].
  2: { subst d2. split; [by eexists|done]. }
  destruct H2 as (rnd & now' & H2). apply notice_row in H2 as [Hag Hm2]. split; [done|].
  set (nudge := new_row _ _ _ _) in Hm2. exists floor, nudge, age, prior.
  split_and!; try done; [by rewrite Hm2, Hmsg|].
  rewrite (candidates_snoc name d1 nudge d2 Hag Hm2); [by rewrite Hcand|].
  unfold claimable, backlog_floor. rewrite Hrow, Hep. cbn [default].
  destruct Hwf as [Hw _]. pose proof (mw_bound _ Hw m0 Hm0) as Hb.
  unfold to_in_state, nudge, new_row, nudge_params. cbn. rewrite bool_decide_true by done.
  cbn. apply Z.ltb_lt. lia.
Qed.

(** ** Leaving *)

(** The rows the purge would delete, and whether a reply forbids it. *)
Definition purge_victim (name : string) (m : Message) : bool :=
  in_states [StateQueued] m && to_scope (CanonicalName name) m.

Definition left_spec (name : string) (purgeQueue force : bool) (d : DB)
    (r : unregistered + (string * Z * error)) (d' : DB) : Prop :=
  match db_agents d !! CanonicalName name with
  | None => d' = d /\ r = inl (mkUnregistered name false EmptyString 0 EmptyString)
  | Some _ =>
      if negb force && (0 <? RecipientQueueDepth name d) then
        d' = d /\ exists msg, r = inr (msg, exitDataErr, ErrMsg msg)
      else if purgeQueue && fk_blocked (purge_victim name) (db_messages d) then
        d' = d /\ exists msg e, r = inr (msg, exitInternal, e) /\ errors_Is e ErrForeignKey = true
      else
        db_agents d' = delete (CanonicalName name) (db_agents d) /\
        db_messages d' = (if purgeQueue then sql_delete (purge_victim name) (db_messages d) else db_messages d) /\
        exists status text,
          r = inl (mkUnregistered name true status
                     (if purgeQueue then sql_count (purge_victim name) (db_messages d) else 0) text) /\
          (status = "stopped" \/ status = "warn")
  end.

(** C19: Unregistering, on both surfaces.  Run alone, an agent that is not registered is
    no error and changes nothing; one with queued mail is not removed unless forced, and
    then nothing changes; otherwise exactly its row goes, the mail stays unless it is to
    be purged, in which case exactly the queued messages to it go, and a reply to one of
    those makes the whole command fail without a change; a mailman that cannot be
    stopped is reported and does not stop the removal. *)
Theorem unregister_exact BinaryName systemctl sw name purgeQueue force how d :
  alone sw ->
  ends_in sw (unregister_core BinaryName systemctl name purgeQueue force how) d
    (left_spec name purgeQueue force d).
Proof.
  intros Ha. unfold unregister_core.
  apply ends_bind with (Q := fun r d' => r = Ok (db_agents d !! CanonicalName name) /\ d' = d).
  { unfold lookup_agent. apply ends_bind with (Q := fun r d' => r = GetAgent name d /\ d' = d);
      [by apply ends_store|]. intros r d' [-> ->]. unfold GetAgent.
    by destruct (db_agents d !! CanonicalName name) as [a|]; apply ends_go. }
  intros r d' [-> ->]. unfold left_spec. destruct (db_agents d !! CanonicalName name) as [a|] eqn:Ea;
    [|by apply ends_go].
  apply ends_bind with (Q := fun g d' => d' = d /\
    match g with
    | None => negb force && (0 <? RecipientQueueDepth name d) = false
    | Some e => negb force && (0 <? RecipientQueueDepth name d) = true /\ exists msg, e = (msg, exitDataErr, ErrMsg msg)
    end).
  { destruct force; [by apply ends_go|].
    apply ends_bind with (Q := fun q d' => q = Ok (RecipientQueueDepth name d) /\ d' = d); [by apply ends_read|].
    intros q d' [-> ->]. apply ends_go. split; [done|]. cbn [negb andb].
    destruct (0 <? RecipientQueueDepth name d); [split; [done|]; by eexists|done]. }
  intros [e|] d' [-> Hg].
  { destruct Hg as [-> [msg ->]]. apply ends_go. split; [done|]. by exists msg. }
  rewrite Hg. apply ends_bind with (Q := fun _ d' => d' = d).
  { unfold stopMailman. apply ends_bind with (Q := fun _ d' => d' = d); [by apply ends_ask|].
    intros out d' ->. by apply ends_go. }
  intros stop d' ->.
  destruct (match stop with Some e => ("warn", error_text e) | None => ("stopped", EmptyString) end)
    as [status text] eqn:Es.
  assert (Hst : status = "stopped" \/ status = "warn") by (destruct stop; injection Es as <- <-; auto).
  assert (Hremove : forall d1 n, db_agents d1 = db_agents d ->
    ends_in sw (removed <! store_ok "DeleteAgent" (fun _ d => DeleteAgent name d) ;;
                go (match removed with
                    | Err e => inr ("delete agent: " +:+ error_text e, exitInternal, e)
                    | Ok b => inl (mkUnregistered name b status n text)
                    end)) d1 (fun r d' =>
      db_agents d' = delete (CanonicalName name) (db_agents d) /\ db_messages d' = db_messages d1 /\
      exists status text, r = inl (mkUnregistered name true status n text) /\
        (status = "stopped" \/ status = "warn"))).
  { intros d1 n H1. apply ends_bind with (Q := fun r d' => r = Ok true /\
       db_agents d' = delete (CanonicalName name) (db_agents d) /\ db_messages d' = db_messages d1).
    - apply ends_store_ok; [done|]. intros _. unfold DeleteAgent. cbv zeta. rewrite H1, Ea. done.
    - intros r d' (-> & Hd & Hm). apply ends_go. split_and!; [done..|]. by exists status, text. }
  destruct purgeQueue; cbn [andb].
  - apply ends_bind with (Q := fun r d' => (r, d') = exec_delete (purge_victim name) d).
    { apply ends_store; [done|]. intros _. unfold DeleteMessages. cbv zeta.
      rewrite bool_decide_false by done. symmetry. apply surjective_pairing. }
    intros r d' E. unfold exec_delete in E. destruct (fk_blocked (purge_victim name) (db_messages d)).
    + injection E as -> ->. apply ends_go. split; [done|]. eexists _, _. by split.
    + injection E as -> ->. eapply ends_weaken; [by apply Hremove|]. cbn. done.
  - apply ends_bind with (Q := fun r d' => r = Ok 0 /\ d' = d); [by apply ends_go|].
    intros r d' [-> ->]. by apply Hremove.
Qed.

(** ** On the demo bus *)

Definition demo_env (v : string) : string :=
  if bool_decide (v = "TMUX_PANE") then "%9"
  else if bool_decide (v ∈ ["DBUS_SESSION_BUS_ADDRESS"; "XDG_RUNTIME_DIR"]) then "set"
  else EmptyString.

Definition fine_systemctl (_ : history) (_ : list string) : string * option error := (EmptyString, None).

(** [register --name Bob --pane pane --force], and more. *)
Definition demo_register (pane alias mode : string) (purge : bool) : registerParams :=
  mkRegister "Bob" pane false true alias mode EmptyString EmptyString purge false None None EmptyString.

Definition run_register (p : registerParams) (st : sstate) : flow (outcome registered) * sstate :=
  runRegisterCLI demo_env (fun _ => false) "tmux-tell-claude" fine_systemctl None None p bus st.

(** Two messages to [bob], one of them the newest. *)
Definition waiting_db : DB := send_plain 2 (send_plain 1 bus_db).

Lemma waiting_wf : store_wf waiting_db.
Proof. apply send_plain_wf, send_plain_wf, bus_store_wf. Qed.

(** A flip of the mode that purges the two messages, with another alias. *)
Definition demo_flip : registerParams := demo_register "%7" "bobby" DeliveryModeMailboxOnly true.


Lemma backlog_fenced_witness :
  exists b st', applyBacklogPolicy None "bob" DeliveryModePasteAndEnter 2 bus (mkS waiting_db (initial_vars demo_opts) [])
      = (Go b, st') /\ fenced "bob" 0 waiting_db b (s_db st').
Proof.
  destruct (backlog_fenced bus None "bob" DeliveryModePasteAndEnter waiting_db bus_alone waiting_wf
              (mkS waiting_db (initial_vars demo_opts) []) eq_refl) as (b & st' & E & H).
  exists b, st'. split; [exact E|].
  change ((RecipientQueueDepth "bob" waiting_db <=? 0) || negb (bool_decide (DeliveryModePasteAndEnter = DeliveryModePasteAndEnter))
    || (RecipientQueueDepth "bob" waiting_db <=? snd (backlog_policy None "bob"))) with false in H.
  destruct H as [[Herr _]|[_ H]]; [|exact H].
  exfalso. vm_compute in E. injection E as <- _. destruct Herr as [e He]. discriminate He.
Defined.

Lemma unregister_exact_witness :
  exists r st', unregister_core "tmux-tell-claude" fine_systemctl "bob" false true "--force" bus
      (mkS waiting_db (initial_vars demo_opts) []) = (Go r, st') /\
    left_spec "bob" false true waiting_db r (s_db st').
Proof.
  destruct (unregister_exact "tmux-tell-claude" fine_systemctl bus "bob" false true "--force" waiting_db bus_alone
              (mkS waiting_db (initial_vars demo_opts) []) eq_refl) as (r & st' & E & H).
  exists r, st'. split; [exact E|exact H].
Defined.

(** ** What modelling showed *)

Definition flip_start : sstate := mkS waiting_db (initial_vars demo_opts) [].

(** The purge is done before the pane is checked: the command fails, the mail is gone. *)
Lemma purge_before_refusal :
  let r := run_register (demo_register EmptyString EmptyString DeliveryModeMailboxOnly true) flip_start in
  (exists msg, fst r = Go (Failed msg exitDataErr)) /\
  RecipientQueueDepth "bob" (s_db (snd r)) = 0 /\ RecipientQueueDepth "bob" waiting_db = 2.
Proof. vm_compute. split; [by eexists|done]. Qed.

(** A refused alias fails a registration that was made. *)
Lemma refused_alias_registers :
  let r := run_register (demo_register "%7" "alice" DeliveryModePasteAndEnter false) bus_start in
  (exists msg, fst r = Go (Failed msg exitDataErr)) /\
  option_map PaneID (db_agents (s_db (snd r)) !! "bob") = Some "%7".
Proof. vm_compute. split; [by eexists|done]. Qed.

(** The tool lets a change of mode strand queued mail without a word. *)
Lemma mcp_flip_strands_mail :
  let p := demo_register "%2" EmptyString DeliveryModeMailboxOnly false in
  let r := mcpRegister demo_env (fun _ => false) "tmux-tell-claude" fine_systemctl None None p bus flip_start in
  (exists a, fst r = Go (Ok a) /\ ra_Queued a = Some 2) /\
  (exists msg, fst (run_register p flip_start) = Go (Failed msg exitDataErr)).
Proof. vm_compute. split; [eexists; by split|by eexists]. Qed.

(** The tool starts a mailman for an agent that has nothing to be pasted; the command
    does not. *)
Lemma mcp_starts_hook_context :
  let p := demo_register "%2" EmptyString DeliveryModeHookContext false in
  match fst (mcpRegister demo_env (fun _ => false) "tmux-tell-claude" fine_systemctl None None p bus bus_start),
        fst (run_register p bus_start) with
  | Go (Ok a), Go (Done b) => ra_Mailman a = "active" /\ ra_Mailman b = "skipped"
  | _, _ => False
  end.
Proof. vm_compute. done. Qed.
