(* ===== verification/Views.v ===== *)
(** * Reading the bus (internal/cli: inbox.go, get.go, track.go, sent.go, status.go,
    agents.go, whoami.go, common.go; mcp.go)

    The commands and tools that list, look up and follow messages and agents, and the
    acknowledgements of the inbox, on both surfaces.  Flag and JSON decoding are left
    out, and so is the today block of [status]. *)

From S2P Require Import Prelude GoStd Clock StoreTypes Priority Messages Queue Queries Agents Config Window ServeConfig TmuxIO Mailman Send Identity Requests Upkeep.

Open Scope Z_scope.
Open Scope tell_scope.

(** ** Text *)

(** The runes of a text, each as its bytes; an invalid byte becomes U+FFFD. *)
Fixpoint rune_list (fuel : nat) (s : string) : list string :=
  match fuel, s with
  | S fuel', String _ _ =>
      let (w, valid) := Str.decode_width (Str.bytes_of s) in
      (if valid then Str.take w s else Str.of_bytes [239; 191; 189]%nat) :: rune_list fuel' (Str.drop w s)
  | _, _ => []
  end.
Definition runes (s : string) : list string := rune_list (String.length s) s.

Definition shortBody (body : string) (n : Z) : string :=
  let rs := runes body in
  if Z.of_nat (length rs) <=? n then Str.Join rs EmptyString
  else Str.Join (take (Z.to_nat n) rs) EmptyString +:+ "…".

(** The leading digits of a text and the rest. *)
Fixpoint digit_run (s : string) : string * string :=
  match s with
  | String a s' => if Str.is_digit a then let (ds, rest) := digit_run s' in (String a ds, rest) else (EmptyString, s)
  | EmptyString => (EmptyString, s)
  end.

(** A fraction of a second, whatever its length, in nanoseconds, and the rest. *)
Definition fraction (s : string) : Z * string :=
  match s with
  | String a s' =>
      let (ds, rest) := digit_run s' in
      if (bool_decide (a = "."%char) || bool_decide (a = ","%char)) && negb (str_empty ds) then
        let ds := Str.take 9 ds in
        (default 0 (Str.digits_acc 0 ds) * 10 ^ (9 - Z.of_nat (String.length ds)), rest)
      else (0, s)
  | EmptyString => (0, s)
  end.

(** [time.Parse] of a date and a time, the hour in one or two digits, and the rest. *)
Definition parse_clock (s0 : string) : option (Z * string) :=
  let s := if literal 12 ":" s0 then Str.take 11 s0 +:+ "0" +:+ Str.drop 11 s0 else s0 in
  match parseISO (Str.take 19 s +:+ ".000Z") with
  | Some t => let (ns, rest) := fraction (Str.drop 19 s) in Some (t + ns, rest)
  | None => None
  end.

(** The layouts with and without milliseconds: parsing takes a fraction with either. *)
Definition parse_stamp (s : string) : option Z :=
  match parse_clock s with
  | Some (t, rest) => if bool_decide (rest = "Z") then Some t else None
  | None => None
  end.

(** [Z] or an offset such as [+02:00], in seconds. *)
Definition zone_offset (s : string) : option Z :=
  if bool_decide (s = "Z") then Some 0
  else if bool_decide (String.length s = 6%nat) && literal 3 ":" s && (literal 0 "+" s || literal 0 "-" s) then
    match field 1 2 s, field 4 2 s with
    | Some hh, Some mm =>
        if (hh <=? 24) && (mm <=? 60)
        then Some ((if literal 0 "-" s then -1 else 1) * (hh * 3600 + mm * 60)) else None
    | _, _ => None
    end
  else None.

(** [time.Parse(time.RFC3339Nano, s)]. *)
Definition parse_rfc3339 (s : string) : option Z :=
  match parse_clock s with
  | Some (t, rest) => match zone_offset rest with Some o => Some (t - o * Time.Second) | None => None end
  | None => None
  end.

Example parse_rfc3339_examples :
  parse_rfc3339 "2026-05-01T12:00:00.5+02:00" = parse_stamp "2026-05-01T10:00:00,500Z" /\
  parse_stamp "2026-05-01T9:00:00Z" = parseISO "2026-05-01T09:00:00.000Z" /\ parse_stamp "2026-05-01T10:00:00.Z" = None.
Proof. by vm_compute. Qed.

(** [ageOf] at the instant [now]. *)
Definition ageOf (iso : string) (now : Z) : string :=
  match parse_stamp iso with
  | None => "-"
  | Some t =>
      let d := now - t in
      let secs := Z.quot d Time.Second in
      let mins := Z.quot d Time.Minute in
      let hours := Z.quot d Time.Hour in
      if d <? Time.Minute then Str.itoa secs +:+ "s"
      else if d <? Time.Hour then Str.itoa mins +:+ "m" +:+ Str.itoa (secs - 60 * mins) +:+ "s"
      else if d <? 24 * Time.Hour then Str.itoa hours +:+ "h" +:+ Str.itoa (Z.rem mins 60) +:+ "m"
      else Str.itoa (Z.quot hours 24) +:+ "d" +:+ Str.itoa (Z.rem hours 24) +:+ "h"
  end.

Definition yesNo (b : bool) : string := if b then "yes" else "no".

(** A message as the JSON answers show it. *)
Record messageView : Type := mkView {
  mv_id : string;
  mv_from : string;
  mv_to : string;
  mv_body : string;
  mv_state : string;
  mv_created_at : string;
  mv_quick : bool;
  mv_expects_reply : bool;
  mv_priority : string;
  mv_reply_to : option string;
  mv_delivered_at : option string;
  mv_error : option string
}.

Definition messageToMap (m : Message) : messageView :=
  mkView (m_PublicID m) (m_FromAgent m) (m_ToAgent m) (m_Body m) (displayState m) (m_CreatedAt m) (m_Quick m)
    (m_ExpectsReply m) (PriorityName (m_Priority m)) (m_ReplyTo m) (m_DeliveredAt m) (m_Error m).

(** Rows of a table, one after the other. *)
Fixpoint each_row {A B} (row : A -> M B) (l : list A) : M (list B) :=
  match l with
  | [] => go []
  | a :: l' => b <! row a ;; bs <! each_row row l' ;; go (b :: bs)
  end.

(** A state filter as typed: none, a state, or a text that no row holds. *)
Definition state_named (s : string) : option State :=
  List.find (fun st => bool_decide (State_string st = s))
    [StateQueued; StateDelivering; StateDelivered; StateFailed; StateAcknowledged; StateDeferred; StateRefused].

Definition list_in_state (f : option State -> ListFilter) (state : string) (d : DB) : result (list Message) :=
  if str_empty state then ListMessages (f None) d
  else match state_named state with
       | Some st => ListMessages (f (Some st)) d
       | None => match ListMessages (f (Some StateQueued)) d with Err e => Err e | Ok _ => Ok [] end
       end.

Definition query {A} (what : string) (f : DB -> result A) : M (result A) :=
  store what (fun _ d => (f d, d)).

Definition fail {A} (e : error) (code : Z) : M (outcome A) := go (Failed (error_text e) code).

Definition unknown_format (format : string) : string := "unknown --format: " +:+ format.

(** ** Getting one message *)

Definition errGetNotFound : error := ErrMsg "no such message".
Definition errGetAmbiguous : error := ErrMsg "ambiguous prefix".

Record getResult : Type := mkGet {
  gr_ID : string;
  gr_From : string;
  gr_To : string;
  gr_Body : string;
  gr_Kind : string;
  gr_State : string;
  gr_CreatedAt : string;
  gr_DeliveredAt : string;
  gr_ReplyTo : string
}.

Definition get_view (m : Message) : getResult :=
  mkGet (m_PublicID m) (m_FromAgent m) (m_ToAgent m) (m_Body m) (Kind_string (m_Kind m)) (displayState m)
    (m_CreatedAt m) (null_string (m_DeliveredAt m)) (null_string (m_ReplyTo m)).

(** Who may fetch a message: its ends, and the agents of the allowlist. *)
Definition may_get (cfg : option Config.File) (requester : string) (m : Message) : bool :=
  bool_decide (requester = m_FromAgent m) || bool_decide (requester = m_ToAgent m) ||
  Config.IsPrivileged cfg requester.

Definition string_le (a b : string) : Prop := Str.leb a b = true.

#[global] Instance string_le_dec : RelDecision string_le.
Proof. intros a b. unfold string_le. apply _. Defined.

Definition ambiguous (id : string) (ms : list Message) : error :=
  ErrWrap ("ambiguous prefix: " +:+ Str.itoa (Z.of_nat (length ms)) +:+ " messages match " +:+ Str.Quote id +:+
           ": " +:+ Str.Join (sorting.merge_sort string_le (map m_PublicID ms)) ", ") errGetAmbiguous.

(** The answer, given the rows that match the prefix. *)
Definition get_answer (cfg : option Config.File) (requester id : string) (candidates : list Message)
    : result getResult :=
  match List.filter (may_get cfg requester) candidates with
  | [] => Err (ErrWrap ("no such message: " +:+ id) errGetNotFound)
  | [m] => Ok (get_view m)
  | ms => Err (ambiguous id ms)
  end.

Definition doGet (cfg : option Config.File) (requester id : string) : M (result getResult) :=
  if str_empty requester then go (Err (ErrMsg "requester required"))
  else if str_empty id then go (Err (ErrMsg "id required"))
  else
    r <! query "FindMessagesByPrefix" (FindMessagesByPrefix id) ;;
    go (match r with Err e => Err e | Ok candidates => get_answer cfg requester id candidates end).

Definition get_code (e : error) : Z :=
  if errors_Is e errGetNotFound then exitUnavailable
  else if errors_Is e errGetAmbiguous then exitUsage else exitInternal.

(** ** Following one message *)

Definition errTrackNotFound : error := ErrMsg "no such message".

Record trackResult : Type := mkTrack {
  tr_ID : string;
  tr_From : string;
  tr_To : string;
  tr_State : string;
  tr_Kind : string;
  tr_CreatedAt : string;
  tr_DeliveredAt : string;
  tr_Error : string;
  tr_ReplyTo : string
}.

#[global] Instance trackResult_eq_dec : EqDecision trackResult.
Proof. solve_decision. Defined.

Definition track_view (m : Message) : trackResult :=
  mkTrack (m_PublicID m) (m_FromAgent m) (m_ToAgent m) (displayState m) (Kind_string (m_Kind m))
    (m_CreatedAt m) (null_string (m_DeliveredAt m)) (null_string (m_Error m)) (null_string (m_ReplyTo m)).

Definition doTrack (id : string) : M (result trackResult) :=
  if str_empty id then go (Err (ErrMsg "id required"))
  else
    r <! query "GetMessage" (GetMessage id) ;;
    go (match r with
        | Err e => if errors_Is e ErrNotFound
                   then Err (ErrWrap ("no such message: " +:+ id) errTrackNotFound) else Err e
        | Ok m => Ok (track_view m)
        end).

Definition track_code (e : error) : Z := if errors_Is e errTrackNotFound then exitUnavailable else exitInternal.

(** The lines of a result in text form, at the instant [now]. *)
Definition renderTrackResult (res : trackResult) (now : Z) : list (string * string) :=
  let since iso := iso +:+ " (" +:+ ageOf iso now +:+ " ago)" in
  let given label v f := if str_empty v then [] else [(label, f v)] in
  [("ID", tr_ID res); ("FROM", tr_From res); ("TO", tr_To res); ("STATE", tr_State res); ("KIND", tr_Kind res);
   ("CREATED", since (tr_CreatedAt res))] ++
  given "DELIVERED" (tr_DeliveredAt res) since ++ given "REPLY_TO" (tr_ReplyTo res) id ++
  given "ERROR" (tr_Error res) id.

Definition isTerminalState (state : string) : bool :=
  bool_decide (state = State_string StateDelivered) || bool_decide (state = State_string StateFailed).

(** The loop of [runTrackWatch]: the results it wrote so far, the last one first, and
    what it still does.  [deadline] is that of its context, when it has a timeout. *)
Definition watched {A} (deadline : option Z) (c : T A) : T A :=
  match deadline with Some t => until t c | None => c end.

Fixpoint track_loop (n : nat) (id : string) (interval : Z) (deadline : option Z) (shown : list trackResult)
    : M (list trackResult * Z * option error) :=
  match n with
  | O => out_of_fuel
  | S n' =>
      r <! doTrack id ;;
      match r with
      | Err e =>
          ended <! lift (watched deadline ctx_Err) ;;
          go (match ended with
              | Some _ => (shown, exitOK, None)
              | None => (shown, track_code e, Some e)
              end)
      | Ok res =>
          _ <! (if bool_decide (shown = []) && negb (str_empty (tr_To res))
                then ask ("watchKey " +:+ tr_To res) (fun _ _ => tt) else skip) ;;
          let shown' := match shown with
                        | last :: _ => if bool_decide (tr_State res = tr_State last) then shown else res :: shown
                        | [] => [res]
                        end in
          if isTerminalState (tr_State res) then go (shown', exitOK, None)
          else
            e <! lift (watched deadline (wait interval)) ;;
            match e with
            | Some _ => go (shown', exitOK, None)
            | None => track_loop n' id interval deadline shown'
            end
      end
  end.

Definition runTrackWatch (fuel : nat) (id : string) (interval timeout : Z)
    : M (list trackResult * Z * option error) :=
  start <! lift time_Now ;;
  track_loop fuel id interval (if 0 <? timeout then Some (start + timeout) else None) [].

(** ** The inbox *)

(** Why a queued message is not moving, at most one reason per row. *)
Record inbox_marks : Type := mkMarks {
  im_backlog_fenced : bool;
  im_provider_cap_deferred : bool;
  im_pane_in_copy_mode : bool
}.

(** Below the backlog floor: the mailman passes it over. *)
Definition fenced (epoch : Z) (m : Message) : bool :=
  bool_decide (m_State m = StateQueued) && match m_DeliverAfter m with Some _ => false | None => true end &&
  (0 <? epoch) && (m_ID m <=? epoch).

Definition marks_of (epoch : Z) (capped in_mode : bool) (m : Message) : inbox_marks :=
  let queued := bool_decide (m_State m = StateQueued) in
  let cap := capped && queued && negb (fenced epoch m) in
  mkMarks (fenced epoch m) cap (in_mode && queued && negb (fenced epoch m) && negb cap).

Definition state_cell (m : Message) (k : inbox_marks) : string :=
  if im_backlog_fenced k then "queued (backlog-fenced)"
  else if im_provider_cap_deferred k then "queued (provider-cap)"
  else if im_pane_in_copy_mode k then "queued (pane-in-copy-mode)"
  else State_string (m_State m).

Definition inbox_row (m : Message) (k : inbox_marks) (now : Z) : list string :=
  [m_PublicID m; m_FromAgent m; m_ToAgent m; state_cell m k; PriorityName (m_Priority m);
   ageOf (m_CreatedAt m) now; shortBody (m_Body m) 60].

Inductive inbox_answer : Type :=
  | InboxJSON (rows : list (messageView * inbox_marks))
  | InboxText (rows : list (list string)) (warning : option string)
  | Acked (n : Z) (id : string)
  | Watching (agent : string) (interval : Z).

Definition inbox_filter (agent : string) (limit : Z) (unanswered : bool) (st : option State) : ListFilter :=
  mkListFilter agent EmptyString EmptyString st None limit EmptyString false false false unanswered false.

(** The floor of an agent that can be read, else none. *)
Definition epoch_of (r : result Agent) : Z :=
  match r with Ok a => default 0 (a_backlog_epoch_id a) | Err _ => 0 end.

Definition refusedWindowLabel : string := Str.itoa (Z.quot RefusedInboundWindow Time.Hour) +:+ "h".

Definition refused_warning (r : RefusedInboundSummary) (now : Z) : string :=
  "⚠️  " +:+ Str.itoa (ri_Recent r) +:+ " inbound REFUSED in the last " +:+ refusedWindowLabel +:+ " (newest " +:+
  ageOf (ri_NewestAt r) now +:+ " ago, " +:+ Str.itoa (ri_Total r) +:+ " all-time) — never reached you.".

(** Whether the provider of the recipient is at its cap. *)
Definition provider_capped (agent : string) : M bool :=
  p <! store_read "ProviderCapConfig" (ProviderCapConfig agent) ;;
  match p with
  | Err _ => go false
  | Ok (provider, cap) =>
      if str_empty provider || (cap <=? 0) then go false
      else
        now <! lift time_Now ;;
        c <! store_read "CountWorkingOnProvider" (CountWorkingOnProvider provider defaultProviderCapTTL now) ;;
        go (match c with Ok working => cap <=? working | Err _ => false end)
  end.

Definition copy_mode_of (agent : string) : M bool :=
  a <! query "GetAgent" (GetAgent agent) ;;
  match a with
  | Err _ => go false
  | Ok a => if str_empty (PaneID a) then go false
            else r <! lift (PaneInCopyMode (PaneID a)) ;; go (match r with Ok b => b | Err _ => false end)
  end.

Definition refused_note (agent state : string) : M (option string) :=
  if bool_decide (state = State_string StateRefused) then go None
  else
    now <! lift time_Now ;;
    r <! store_read "RefusedInbound" (RefusedInbound agent now) ;;
    match r with
    | Err _ => go None
    | Ok r => if 0 <? ri_Recent r then now' <! lift time_Now ;; go (Some (refused_warning r now')) else go None
    end.

Definition runInboxWithStore (agent state : string) (limit : Z) (unanswered : bool) (format : string)
    : M (outcome inbox_answer) :=
  r <! query "ListMessages" (list_in_state (inbox_filter agent limit unanswered) state) ;;
  match r with
  | Err e => fail e exitInternal
  | Ok msgs =>
      a <! query "GetAgent" (GetAgent agent) ;;
      capped <! provider_capped agent ;;
      in_mode <! copy_mode_of agent ;;
      let marks := marks_of (epoch_of a) capped in_mode in
      if bool_decide (format = "json")
      then go (Done (InboxJSON (map (fun m => (messageToMap m, marks m)) msgs)))
      else if bool_decide (format ∈ ["text"; EmptyString]) then
        rows <! each_row (fun m => now <! lift time_Now ;; go (inbox_row m (marks m) now)) msgs ;;
        w <! refused_note agent state ;;
        go (Done (InboxText rows w))
      else go (Failed (unknown_format format) exitUsage)
  end.

Definition runInboxAck (agent id : string) : M (outcome inbox_answer) :=
  r <! store "MarkAcknowledged" (fun _ d => MarkAcknowledged agent id d) ;;
  match r with Err e => fail e exitUnavailable | Ok _ => go (Done (Acked 1 id)) end.

(** Acknowledge what is at or below the floor: on both surfaces. *)
Definition ack_all (agent : string) (not_registered : error -> error * Z) : M (Z + (error * Z)) :=
  a <! query "GetAgent" (GetAgent agent) ;;
  match a with
  | Err e => go (inr (not_registered e))
  | Ok a =>
      r <! store_ok "MarkAcknowledgedBatch"
             (fun _ d => MarkAcknowledgedBatch agent (default 0 (a_backlog_epoch_id a)) d) ;;
      go (match r with Err e => inr (e, exitInternal) | Ok n => inl n end)
  end.

Definition ack_unregistered (agent : string) (e : error) : string :=
  "agent " +:+ Str.Quote agent +:+ " not registered: " +:+ error_text e.

Definition runInboxAckAll (agent : string) : M (outcome inbox_answer) :=
  r <! ack_all agent (fun e => (ErrMsg (ack_unregistered agent e), exitUnavailable)) ;;
  match r with
  | inl n => go (Done (Acked n EmptyString))
  | inr (e, code) => fail e code
  end.

(** The flags of the command; at most one argument, the agent. *)
Record inboxFlags : Type := mkInbox {
  ix_agent : option string;
  ix_state : string;
  ix_limit : Z;
  ix_format : string;
  ix_ack : string;
  ix_ackAll : bool;
  ix_watch : option Z;
  ix_unanswered : bool
}.

Definition inbox_no_identity : string :=
  "cannot resolve identity: pass AGENT, set $TMUX_AGENT_NAME, or register this pane".

Definition inbox_dispatch (agent : string) (fl : inboxFlags) : M (outcome inbox_answer) :=
  match ix_watch fl with
  | Some interval =>
      if negb (str_empty (ix_ack fl)) || ix_ackAll fl
      then go (Failed "--watch cannot be combined with --ack/--ack-all" exitUsage)
      else if ix_unanswered fl then go (Failed "--watch cannot be combined with --unanswered" exitUsage)
      else if bool_decide (ix_format fl = "json")
      then go (Failed "--watch is an interactive TUI; --format json is not supported" exitUsage)
      else go (Done (Watching agent interval))
  | None =>
      if negb (str_empty (ix_ack fl)) then runInboxAck agent (ix_ack fl)
      else if ix_ackAll fl then runInboxAckAll agent
      else runInboxWithStore agent (ix_state fl) (ix_limit fl) (ix_unanswered fl) (ix_format fl)
  end.

(** The tool: what it lists, or how many messages it acknowledged. *)
Inductive mcp_inbox : Type :=
  | Listed (rows : list messageView)
  | AckCount (n : Z).

Fixpoint ack_each (agent : string) (ids : list string) : M (option error) :=
  match ids with
  | [] => go None
  | id :: ids' =>
      r <! store "MarkAcknowledged" (fun _ d => MarkAcknowledged agent id d) ;;
      match r with Err e => go (Some e) | Ok _ => ack_each agent ids' end
  end.

Definition mcp_inbox_of (name state : string) (limit : Z) (ackIDs : list string) (ackAll unanswered : bool)
    : M (result mcp_inbox) :=
  if ackAll then
    r <! ack_all name (fun e => (ErrWrap (ack_unregistered name e) e, exitInternal)) ;;
    go (match r with inl n => Ok (AckCount n) | inr (e, _) => Err e end)
  else match ackIDs with
       | _ :: _ =>
           r <! ack_each name ackIDs ;;
           go (match r with Some e => Err e | None => Ok (AckCount (Z.of_nat (length ackIDs))) end)
       | [] =>
           let state := if str_empty state then State_string StateQueued else state in
           let limit := if limit =? 0 then 50 else limit in
           r <! query "ListMessages" (list_in_state (inbox_filter name limit unanswered) state) ;;
           go (match r with Err e => Err e | Ok msgs => Ok (Listed (map messageToMap msgs)) end)
       end.

(** ** What one sent *)

Definition sent_states : list string :=
  [EmptyString; "queued"; "delivering"; "delivered"; "failed"; "delivered_in_input_box"; "acknowledged"].

Definition validateSentState (state : string) : option error :=
  if bool_decide (state ∈ sent_states) then None
  else Some (ErrMsg ("unknown --state " +:+ Str.Quote state +:+
              " (want queued|delivering|delivered|failed|delivered_in_input_box|acknowledged)")).

(** The deprecated name of a state. *)
Definition sent_state (s : string) : string :=
  if bool_decide (s = "delivered_unverified") then "delivered_in_input_box" else s.

Definition sent_filter (agent to : string) (limit : Z) (since : string) (unverified deferred awaiting : bool)
    (st : option State) : ListFilter :=
  mkListFilter to agent EmptyString st None limit since unverified true deferred false awaiting.

Definition sent_query (agent state to : string) (limit : Z) (since : string) (deferred awaitingReply : bool)
    (d : DB) : result (list Message) :=
  if deferred then ListMessages (sent_filter agent to limit since false true false None) d
  else if awaitingReply then ListMessages (sent_filter agent to limit since false false true None) d
  else if bool_decide (state = "delivered_in_input_box")
  then ListMessages (sent_filter agent to limit since true false false None) d
  else list_in_state (sent_filter agent to limit since false false false) state d.

Definition count_shown (state : string) (msgs : list Message) : Z :=
  Z.of_nat (length (List.filter (fun m => bool_decide (displayState m = state)) msgs)).

Inductive sent_answer : Type :=
  | SentJSON (rows : list (messageView * string))
  | SentText (rows : list (list string)) (unverified failed : Z).

Section Surfaces.
Context (getenv : string -> string) (getppid : Z) (environ stat : Z -> option string) (BinaryName : string).
(** The local midnight, and the wall clock (time of day) of an instant. *)
Context (midnight : Z -> Z -> Z) (wall : Z -> string).

Definition wallTime (iso : string) : string :=
  match parse_stamp iso with Some t => wall t | None => "-" end.

Definition sent_row (m : Message) : list string :=
  [m_PublicID m; m_ToAgent m; displayState m; wallTime (m_CreatedAt m);
   match m_DeliveredAt m with Some t => wallTime t | None => "—" end; shortBody (m_Body m) 60].

Definition runSentWithStore (agent state to : string) (limit : Z) (since : string) (deferred awaitingReply : bool)
    (format : string) : M (outcome sent_answer) :=
  r <! query "ListMessages" (sent_query agent state to limit since deferred awaitingReply) ;;
  match r with
  | Err e => fail e exitInternal
  | Ok msgs =>
      if bool_decide (format = "json")
      then go (Done (SentJSON (map (fun m => (messageToMap m, displayState m)) msgs)))
      else if bool_decide (format ∈ ["text"; EmptyString])
      then go (Done (SentText (map sent_row msgs) (count_shown displayStateDeliveredInInputBox msgs)
                       (count_shown "failed" msgs)))
      else go (Failed (unknown_format format) exitUsage)
  end.

(** The caller of a command without a name given, or the refusal. *)
Definition as_self {A} (override no_identity : string) (k : string -> M (outcome A)) : M (outcome A) :=
  who <! ResolveIdentity getenv override ;;
  match who with
  | Err e => fail e exitInternal
  | Ok (name, _) => if str_empty name then go (Failed no_identity exitUsage) else k name
  end.

Definition sent_no_identity : string :=
  "cannot resolve identity: set $TMUX_AGENT_NAME or register this pane".

Definition runSentCLI (since state to : string) (limit : Z) (deferred awaitingReply : bool) (format : string)
    : M (outcome sent_answer) :=
  let state := sent_state state in
  match validateSentState state with
  | Some e => fail e exitUsage
  | None =>
      now <! lift time_Now ;;
      match parseWindow midnight since now with
      | Err e => fail e exitUsage
      | Ok w =>
          let floor := match w with All => EmptyString | Since t => Time.formatISO t end in
          as_self EmptyString sent_no_identity (fun agent =>
            runSentWithStore agent state to limit floor deferred awaitingReply format)
      end
  end.

(** ** The other surfaces *)

Definition runInboxCLI (fl : inboxFlags) : M (outcome inbox_answer) :=
  match ix_agent fl with
  | Some agent => inbox_dispatch agent fl
  | None => as_self EmptyString inbox_no_identity (fun agent => inbox_dispatch agent fl)
  end.

(** The tool on behalf of its caller. *)
Definition as_tool {A} (injected : string) (k : string -> M (result A)) : M (result A) :=
  who <! resolveMCPIdentity getenv getppid environ stat BinaryName injected ;;
  match who with Err e => go (Err e) | Ok name => k name end.

Definition mcpInbox (injected state : string) (limit : Z) (ackIDs : list string) (ackAll unanswered : bool)
    : M (result mcp_inbox) :=
  as_tool injected (fun name => mcp_inbox_of name state limit ackIDs ackAll unanswered).

(** [config.Load] gives a file also with its error; the command uses it. *)
Definition runGetCLI (cfg : option Config.File) (from id format : string) : M (outcome getResult) :=
  who <! ResolveIdentity getenv from ;;
  match who with
  | Err e => fail e exitInternal
  | Ok (requester, _) =>
      r <! doGet cfg requester id ;;
      match r with
      | Err e => fail e (get_code e)
      | Ok res => if bool_decide (format ∈ ["json"; "text"; EmptyString]) then go (Done res)
                  else go (Failed (unknown_format format) exitUsage)
      end
  end.

(** The tool drops a file that came with an error. *)
Definition mcpGet (cfg : option Config.File) (load_failed : bool) (injected id : string) : M (result getResult) :=
  as_tool injected (fun requester => doGet (if load_failed then None else cfg) requester id).

(** [--canonical] goes with the default database only. *)
Definition runTrackCLI (fuel : nat) (id format : string) (canonical db_given : bool) (watch : option (Z * Z))
    : M (outcome (list trackResult * Z)) :=
  if canonical && db_given
  then go (Failed "--canonical and --db are mutually exclusive (--canonical forces the XDG default)" exitUsage)
  else match watch with
       | Some (interval, timeout) =>
           r <! runTrackWatch fuel id interval timeout ;;
           go (match r with
               | (_, code, Some e) => Failed (error_text e) code
               | (shown, code, None) => Done (rev shown, code)
               end)
       | None =>
           r <! doTrack id ;;
           match r with
           | Err e => fail e (track_code e)
           | Ok res => if bool_decide (format ∈ ["json"; "text"; EmptyString]) then go (Done ([res], exitOK))
                       else go (Failed (unknown_format format) exitUsage)
           end
       end.

Definition mcpMessageStatus (id : string) : M (result trackResult) := doTrack id.

Definition runFlushCLI (from trigger : string) : M (outcome flushResult) :=
  as_self from no_identity_text (fun agent =>
    r <! doFlushDeferred agent trigger ;;
    match r with Err e => fail e exitUsage | Ok res => go (Done res) end).

Definition mcpFlushDeferred (injected trigger : string) : M (result flushResult) :=
  as_tool injected (fun agent =>
    doFlushDeferred agent (if str_empty trigger then deferTriggerResume else trigger)).

(** ** Agents *)

Record agentView : Type := mkAgentView {
  av_Name : string;
  av_Pane : string;
  av_PaneStatus : string;
  av_Paused : bool;
  av_Queued : Z;
  av_AttentionState : string;
  av_Metabolism : string;
  av_MetabolismSetAt : string;
  av_Stuck : string;
  av_MailmanLastDelivered : string;
  av_DeliveryMode : string;
  av_DisplayName : string;
  av_PaneConflict : bool
}.

Definition pane_status (live : gset string) (pane : string) : string :=
  if str_empty pane then "no-pane" else if bool_decide (pane ∈ live) then "live" else "stale".

(** The names that hold a pane, more than one of them, sorted. *)
Definition holders (agents : list Agent) (pane : string) : list string :=
  if str_empty pane then []
  else map a_name (List.filter (fun a => bool_decide (PaneID a = pane)) agents).

Definition paneConflicts (agents : list Agent) (pane : string) : list string :=
  let names := holders agents pane in
  if (1 <? Z.of_nat (length names)) then sorting.merge_sort string_le names else [].

(** The lines of a row that ask the store. *)
Definition agent_row (live : gset string) (agents : list Agent) (a : Agent) : M (result agentView) :=
  q <! store_read "RecipientQueueDepth" (RecipientQueueDepth (a_name a)) ;;
  match q with
  | Err e => go (Err e)
  | Ok depth =>
      l <! store_read "RecipientLastDelivered" (RecipientLastDelivered (a_name a)) ;;
      go (match l with
          | Err e => Err e
          | Ok last =>
              Ok (mkAgentView (a_name a) (PaneID a) (pane_status live (PaneID a)) (a_paused a) depth
                    (a_attention_state a) (a_metabolism a) (null_string (a_metabolism_set_at a))
                    (a_stuck_reason a) (null_string last) (a_delivery_mode a) (a_display_name a)
                    (negb (bool_decide (paneConflicts agents (PaneID a) = []))))
          end)
  end.

Definition available (v : agentView) : bool :=
  bool_decide (av_PaneStatus v = "live") && negb (av_Paused v).

(** Rows until one fails; with [only], those that can take mail now. *)
Fixpoint agent_rows (live : gset string) (all agents : list Agent) (only : bool) : M (result (list agentView)) :=
  match agents with
  | [] => go (Ok [])
  | a :: agents' =>
      r <! agent_row live all a ;;
      match r with
      | Err e => go (Err e)
      | Ok v =>
          rs <! agent_rows live all agents' only ;;
          go (match rs with
              | Err e => Err e
              | Ok vs => Ok (if only && negb (available v) then vs else v :: vs)
              end)
      end
  end.

Definition list_agents (live : gset string) (only : bool) : M (result (list Agent * list agentView)) :=
  r <! store_read "ListAgents" ListAgents ;;
  match r with
  | Err e => go (Err e)
  | Ok agents =>
      rs <! agent_rows live agents agents only ;;
      go (match rs with Err e => Err e | Ok rows => Ok (agents, rows) end)
  end.

Definition live_panes : M (result (gset string)) := ask "list-panes" (fun sw h => LivePanes (sw_live_panes sw h)).

(** How long since the mailman last delivered. *)
Definition mailmanIdleHuman (last : string) (now : Z) : string :=
  if str_empty last then "never"
  else match parse_rfc3339 last with
       | None => last
       | Some t =>
           let d := Z.max 0 (now - t) in
           if d <? Time.Minute then Str.itoa (d / Time.Second) +:+ "s ago"
           else if d <? Time.Hour then Str.itoa (d / Time.Minute) +:+ "m ago"
           else if d <? 24 * Time.Hour then Str.itoa (d / Time.Hour) +:+ "h ago"
           else Str.itoa (d / Time.Hour / 24) +:+ "d ago"
       end.

Definition MetabolismEmoji (m : string) : option string :=
  if bool_decide (m = MetabolismWarming) then Some "🌱"
  else if bool_decide (m = MetabolismSaturating) then Some "🌡️"
  else if bool_decide (m = MetabolismCompactPending) then Some "💤" else None.

Definition metabolismCell (m : string) : string :=
  if str_empty m then "-" else match MetabolismEmoji m with Some e => e +:+ " " +:+ m | None => m end.

Definition or_else (s fallback : string) : string := if str_empty s then fallback else s.

Definition agent_cells (now : Z) (v : agentView) : list string :=
  [av_Name v; or_else (av_Pane v) "-" +:+ (if av_PaneConflict v then " ⚠" else EmptyString); av_PaneStatus v;
   yesNo (av_Paused v); Str.itoa (av_Queued v); or_else (av_AttentionState v) "idle";
   metabolismCell (av_Metabolism v); or_else (av_Stuck v) "-"; mailmanIdleHuman (av_MailmanLastDelivered v) now;
   or_else (av_DisplayName v) "-"].

(** One line for each pane that several agents hold, the panes sorted. *)
Definition renderPaneConflictWarnings (agents : list Agent) : list string :=
  let held := List.filter (fun p => negb (bool_decide (paneConflicts agents p = []))) (map PaneID agents) in
  map (fun p => let names := paneConflicts agents p in
         "⚠ pane " +:+ p +:+ " shared by " +:+ Str.itoa (Z.of_nat (length names)) +:+ " agents: " +:+
         Str.Join names ", " +:+ " — likely #549 duplicate-pane-row drift; `unregister --name <stale>` the dormant one (or re-register to supersede)")
      (sorting.merge_sort string_le (remove_dups held)).

Inductive agents_answer : Type :=
  | AgentsJSON (rows : list agentView)
  | AgentsText (rows : list (list string)) (warnings : list string).

Definition runAgentsWithStore (live : gset string) (only : bool) (format : string) : M (outcome agents_answer) :=
  r <! list_agents live only ;;
  match r with
  | Err e => fail e exitInternal
  | Ok (agents, rows) =>
      if bool_decide (format = "json") then go (Done (AgentsJSON rows))
      else if bool_decide (format ∈ ["text"; EmptyString]) then
        now <! lift time_Now ;;
        go (Done (AgentsText (map (agent_cells now) rows) (renderPaneConflictWarnings agents)))
      else go (Failed (unknown_format format) exitUsage)
  end.

Definition runAgentsCLI (only : bool) (format : string) : M (outcome agents_answer) :=
  live <! live_panes ;;
  match live with Err e => fail e exitInternal | Ok live => runAgentsWithStore live only format end.

(** The answer of the tool holds no metabolism and no delivery mode. *)
Definition mcp_agent_view (v : agentView) : agentView :=
  mkAgentView (av_Name v) (av_Pane v) (av_PaneStatus v) (av_Paused v) (av_Queued v) (av_AttentionState v)
    EmptyString EmptyString (av_Stuck v) (av_MailmanLastDelivered v) EmptyString (av_DisplayName v)
    (av_PaneConflict v).

Definition mcpAgents (only : bool) : M (result (list agentView)) :=
  live <! live_panes ;;
  match live with
  | Err e => go (Err e)
  | Ok live =>
      r <! list_agents live only ;;
      go (match r with Err e => Err e | Ok (_, rows) => Ok (map mcp_agent_view rows) end)
  end.

(** ** Who am I *)

Record whoami : Type := mkWhoami {
  wh_Name : string;
  wh_Pane : string;
  wh_PaneStatus : string;
  wh_Paused : bool;
  wh_Queued : Z;
  wh_DeliveryMode : string
}.

(** The answer for a name that is not registered, or its row. *)
Inductive whoami_answer : Type :=
  | Unregistered (name : string)
  | Self (w : whoami).

Definition whoami_of (live : gset string) (a : Agent) (depth : Z) : whoami :=
  mkWhoami (a_name a) (PaneID a) (pane_status live (PaneID a)) (a_paused a) depth (a_delivery_mode a).

Definition runWhoamiWithStore (live : gset string) (name format : string) : M (outcome (whoami_answer * Z)) :=
  r <! query "GetAgent" (GetAgent name) ;;
  match r with
  | Err e => if errors_Is e ErrNotFound then go (Done (Unregistered name, exitUnavailable)) else fail e exitInternal
  | Ok a =>
      q <! store_read "RecipientQueueDepth" (RecipientQueueDepth name) ;;
      match q with
      | Err e => fail e exitInternal
      | Ok depth =>
          if bool_decide (format ∈ ["json"; "text"; EmptyString])
          then go (Done (Self (whoami_of live a depth), exitOK))
          else go (Failed (unknown_format format) exitUsage)
      end
  end.

Definition whoami_no_identity : string :=
  "cannot resolve identity: pass --as, set $TMUX_AGENT_NAME, or register this pane".

Definition runWhoamiCLI (asName format : string) : M (outcome (whoami_answer * Z)) :=
  as_self asName whoami_no_identity (fun name =>
    live <! live_panes ;;
    match live with Err e => fail e exitInternal | Ok live => runWhoamiWithStore live name format end).

(** The tool takes a failed listing of panes for none, and a failed count for zero. *)
Definition mcpWhoami (injected : string) : M (result whoami_answer) :=
  as_tool injected (fun name =>
    r <! query "GetAgent" (GetAgent name) ;;
    match r with
    | Err e => go (if errors_Is e ErrNotFound then Ok (Unregistered name) else Err e)
    | Ok a =>
        live <! live_panes ;;
        q <! store_read "RecipientQueueDepth" (RecipientQueueDepth name) ;;
        go (Ok (Self (whoami_of (match live with Ok l => l | Err _ => ∅ end) a
                        (match q with Ok n => n | Err _ => 0 end))))
    end).

(** ** Status *)

Record agentStatus : Type := mkAgentStatus {
  st_Name : string;
  st_Paused : bool;
  st_Queued : Z;
  st_Delivering : Z;
  st_Delivered : Z;
  st_Failed : Z;
  st_OldestQueuedAge : string
}.

Definition status_filter (agent : string) (st : State) : ListFilter :=
  mkListFilter agent EmptyString EmptyString (Some st) None 1000 EmptyString false false false false false.

Definition status_list (agent : string) (st : State) : M (result (list Message)) :=
  query "ListMessages" (ListMessages (status_filter agent st)).

Definition oldest_age (queued : list Message) : M string :=
  match queued with
  | m :: _ => now <! lift time_Now ;; go (ageOf (m_CreatedAt m) now)
  | [] => go "-"
  end.

Definition agent_status (a : Agent) : M (result agentStatus) :=
  q <! status_list (a_name a) StateQueued ;;
  match q with
  | Err e => go (Err e)
  | Ok queued =>
      age <! oldest_age queued ;;
      g <! status_list (a_name a) StateDelivering ;;
      match g with
      | Err e => go (Err e)
      | Ok delivering =>
          dl <! status_list (a_name a) StateDelivered ;;
          match dl with
          | Err e => go (Err e)
          | Ok delivered =>
              f <! status_list (a_name a) StateFailed ;;
              go (match f with
                  | Err e => Err e
                  | Ok failed =>
                      let n (l : list Message) := Z.of_nat (length l) in
                      Ok (mkAgentStatus (a_name a) (a_paused a) (n queued) (n delivering) (n delivered) (n failed) age)
                  end)
          end
      end
  end.

Fixpoint status_rows (agents : list Agent) : M (result (list agentStatus)) :=
  match agents with
  | [] => go (Ok [])
  | a :: agents' =>
      r <! agent_status a ;;
      match r with
      | Err e => go (Err e)
      | Ok st => rs <! status_rows agents' ;; go (match rs with Err e => Err e | Ok sts => Ok (st :: sts) end)
      end
  end.

Definition mcpStatus : M (result (list agentStatus)) :=
  r <! store_read "ListAgents" ListAgents ;;
  match r with Err e => go (Err e) | Ok agents => status_rows agents end.

Definition runStatusWithStore (format : string) : M (outcome (list agentStatus)) :=
  r <! mcpStatus ;;
  match r with
  | Err e => fail e exitInternal
  | Ok rows => if bool_decide (format ∈ ["json"; "text"; EmptyString]) then go (Done rows)
               else go (Failed (unknown_format format) exitUsage)
  end.
End Surfaces.
