(* ===== verification/Tree.v ===== *)
(** * The tree of a thread (internal/cli/thread.go)

    The nodes are records behind pointers: the map from ids to nodes is a store of
    contents, the children appended to a node are a list of ids in a second map, and
    the tree that is written out is read off the two from the root. *)

From stdpp Require Import gmap.
From S2P Require Import Prelude GoStd StoreTypes Messages Queries Mailman Send Upkeep Views.

Open Scope Z_scope.
Open Scope tell_scope.

Record nodeData : Type := mkNode {
  nd_ID : string;
  nd_From : string;
  nd_To : string;
  nd_Kind : string;
  nd_State : string;
  nd_NoReplyExpected : bool;
  nd_ReplyTo : string;
  nd_CreatedAt : string;
  nd_Body : string
}.

Definition node_of (m : Message) : nodeData :=
  mkNode (m_PublicID m) (m_FromAgent m) (m_ToAgent m) (Kind_string (m_Kind m)) (displayState m)
    (m_NoReplyExpected m) (null_string (m_ReplyTo m)) (m_CreatedAt m) (m_Body m).

Inductive threadNode : Type :=
  | Node (n : nodeData) (children : list threadNode).

(** What the pointers hold: the contents of the nodes and their children. *)
Record heap : Type := mkHeap {
  hp_nodes : gmap string nodeData;
  hp_children : gmap string (list string)
}.

Definition new_nodes (msgs : list Message) : gmap string nodeData :=
  foldl (fun h m => <[m_PublicID m := node_of m]> h) ∅ msgs.

Definition append_child (parent child : string) (h : gmap string (list string)) : gmap string (list string) :=
  <[parent := default [] (h !! parent) ++ [child]]> h.

Definition multiple_roots (a b : string) : error :=
  ErrMsg ("thread has multiple roots (" +:+ a +:+ ", " +:+ b +:+ ") — not a single chain").

(** The parent of a row, when it is in the set. *)
Definition parent_in (ids : list string) (m : Message) : option string :=
  let parentID := null_string (m_ReplyTo m) in
  if str_empty parentID || negb (bool_decide (parentID ∈ ids)) then None else Some parentID.

(** One turn of the loop that hangs every node below its parent. *)
Fixpoint hang (ids : list string) (msgs : list Message) (root : option string)
    (children : gmap string (list string)) : result (option string * gmap string (list string)) :=
  match msgs with
  | [] => Ok (root, children)
  | m :: msgs' =>
      match parent_in ids m with
      | None => match root with
                | Some r => Err (multiple_roots r (m_PublicID m))
                | None => hang ids msgs' (Some (m_PublicID m)) children
                end
      | Some parent => hang ids msgs' root (append_child parent (m_PublicID m) children)
      end
  end.

(** The node at an address and what hangs below it. *)
Fixpoint read_node (fuel : nat) (h : heap) (id : string) : option threadNode :=
  match fuel with
  | O => None
  | S fuel' =>
      match hp_nodes h !! id with
      | None => None
      | Some n => children ← mapM (read_node fuel' h) (default [] (hp_children h !! id)); Some (Node n children)
      end
  end.

(** The root with everything the pointers reach from it. *)
Definition buildThreadTree (msgs : list Message) : result (heap * string) :=
  if bool_decide (msgs = []) then Err (ErrMsg "empty thread")
  else
    let ids := map m_PublicID msgs in
    match hang ids msgs None ∅ with
    | Err e => Err e
    | Ok (None, _) => Err (ErrMsg "thread has no root (cycle?)")
    | Ok (Some root, children) => Ok (mkHeap (new_nodes msgs) children, root)
    end.

(** ** Rendering *)

Definition glyphRoot : string := "○".

Definition stateGlyph (state : string) : string :=
  if bool_decide (state = State_string StateDelivered) then "✓"
  else if bool_decide (state = displayStateDeliveredInInputBox) then "⚠"
  else if bool_decide (state = State_string StateFailed) then "✗"
  else if bool_decide (state ∈ [State_string StateQueued; State_string StateDelivering]) then "…"
  else if bool_decide (state = State_string StateAcknowledged) then "·"
  else "?".

Definition threadBodyPreview (body : string) : string := shortBody (Str.Join (Str.Fields body) " ") 50.

Definition threadNodeDesc (n : nodeData) : string :=
  let preview := threadBodyPreview (nd_Body n) in
  "id=" +:+ nd_ID n +:+ " from=" +:+ nd_From n +:+ " to=" +:+ nd_To n +:+ " kind=" +:+ nd_Kind n +:+
  " state=" +:+ nd_State n +:+ (if nd_NoReplyExpected n then " 🔕" else EmptyString) +:+
  (if str_empty preview then EmptyString else "  (" +:+ preview +:+ ")").

(** The lines below a node; a node is its branch, its glyph and its description. *)
Fixpoint renderThreadChildren (t : threadNode) (prefix : string) : list string :=
  match t with
  | Node _ children =>
      (fix go (cs : list threadNode) : list string :=
         match cs with
         | [] => []
         | Node n below as c :: cs' =>
             let '(branch, cont) := match cs' with [] => ("└─ ", "   ") | _ => ("├─ ", "│  ") end in
             (prefix +:+ branch +:+ stateGlyph (nd_State n) +:+ " " +:+ threadNodeDesc n) ::
             renderThreadChildren c (prefix +:+ cont) ++ go cs'
         end) children
  end.

Definition renderThreadTree (t : threadNode) : list string :=
  match t with Node n _ => (glyphRoot +:+ " " +:+ threadNodeDesc n) :: renderThreadChildren t EmptyString end.

Inductive thread_answer : Type :=
  | TreeJSON (t : threadNode)
  | TreeText (lines : list string).

(** Writing out a tree whose pointers run in a circle does not end. *)
Definition runThreadWithStore (id format : string) : M (outcome thread_answer) :=
  if negb (bool_decide (format ∈ [EmptyString; "tree"; "json"]))
  then go (Failed (unknown_format format) exitUsage)
  else
    r <! query "GetThread" (GetThread id) ;;
    match r with
    | Err e => if errors_Is e ErrNotFound then go (Failed ("unknown id: " +:+ id) exitDataErr) else fail e exitInternal
    | Ok msgs =>
        match buildThreadTree msgs with
        | Err e => fail e exitInternal
        | Ok (h, root) =>
            match read_node (S (length msgs)) h root with
            | None => out_of_fuel
            | Some t => go (Done (if bool_decide (format = "json") then TreeJSON t else TreeText (renderThreadTree t)))
            end
        end
    end.
