(* ===== verification/TreeProps.v ===== *)
(** * Correctness of the tree of a thread *)

From stdpp Require Import gmap sorting.
From S2P Require Import Prelude GoStd StoreTypes Messages Queue Queries Agents Lifecycle Invariants ThreadProps TmuxIO Mailman ServeDemo Alone Send SendDemo Upkeep Views Tree.

Open Scope Z_scope.

Definition data (t : threadNode) : nodeData := match t with Node n _ => n end.

Fixpoint nodes_of (t : threadNode) : list nodeData :=
  match t with Node n cs => n :: concat (map nodes_of cs) end.

(** The answers to a row among the rows of its thread, in their order. *)
Definition answers_to (out : list Message) (m : Message) : list Message :=
  List.filter (fun c => bool_decide (m_ReplyTo c = Some (m_PublicID m))) out.

(** The tree the rows describe: below each row its answers, in order, and nothing else. *)
Inductive tree_of (out : list Message) : Message -> threadNode -> Prop :=
  | tree_node m cs : Forall2 (tree_of out) (answers_to out m) cs -> tree_of out m (Node (node_of m) cs).

(** One conversation: every row but the root answers an earlier row of it. *)
Record threadlike (out : list Message) (root : Message) : Prop := {
  tl_nodup : NoDup (map m_PublicID out);
  tl_root : root ∈ out;
  tl_top : m_ReplyTo root = None;
  tl_up m : m ∈ out -> m <> root ->
    exists p, p ∈ out /\ m_ReplyTo m = Some (m_PublicID p) /\ m_PublicID p <> EmptyString /\ m_ID p < m_ID m;
  tl_id m : m ∈ out -> 0 <= m_ID m
}.

(** ** Hanging the nodes *)

Lemma hang_spec ids root : forall msgs r ch,
  (forall m, m ∈ msgs -> parent_in ids m = None -> m = root) -> NoDup msgs ->
  (root ∈ msgs -> r = None /\ parent_in ids root = None) ->
  exists ch',
    hang ids msgs r ch = Ok (if bool_decide (root ∈ msgs) then Some (m_PublicID root) else r, ch') /\
    forall p, default [] (ch' !! p) =
      default [] (ch !! p) ++ map m_PublicID (List.filter (fun m => bool_decide (parent_in ids m = Some p)) msgs).
Proof.
  induction msgs as [|m msgs IH]; intros r ch Hr Hnd Hroot.
  { exists ch. cbn. split; [done|]. intros p. by rewrite app_nil_r. }
  apply NoDup_cons in Hnd as [Hm Hnd]. cbn [hang]. destruct (parent_in ids m) as [q|] eqn:E.
  - destruct (IH r (append_child q (m_PublicID m) ch)) as (ch' & E' & Hch); [|done| |].
    { intros x Hx. apply Hr. rewrite elem_of_cons; by right. }
    { intros Hx. apply Hroot. rewrite elem_of_cons; by right. }
    exists ch'. split.
    + rewrite E'. rewrite (bool_decide_ext (root ∈ m :: msgs) (root ∈ msgs)); [done|].
      rewrite elem_of_cons. split; [|by right]. intros [->|?]; [|done].
      exfalso. destruct Hroot as [_ ?]; [rewrite elem_of_cons; by left|congruence].
    + intros p. rewrite Hch. cbn [List.filter]. rewrite E. unfold append_child.
      destruct (decide (q = p)) as [->|Hne].
      * rewrite lookup_insert_eq, bool_decide_true by done. cbn. by rewrite <- app_assoc.
      * rewrite lookup_insert_ne, bool_decide_false by (done || congruence). done.
  - assert (m = root) as ->. { apply Hr; [rewrite elem_of_cons; by left|done]. }
    destruct (Hroot ltac:(rewrite elem_of_cons; by left)) as [-> _].
    destruct (IH (Some (m_PublicID root)) ch) as (ch' & E' & Hch); [|done|done|].
    { intros x Hx. apply Hr. rewrite elem_of_cons; by right. }
    exists ch'. rewrite E', (bool_decide_false _ Hm), bool_decide_true by (rewrite elem_of_cons; by left).
    split; [done|]. intros p. rewrite Hch. cbn [List.filter]. by rewrite E, bool_decide_false.
Qed.

Lemma new_nodes_lookup msgs m :
  NoDup (map m_PublicID msgs) -> m ∈ msgs -> new_nodes msgs !! m_PublicID m = Some (node_of m).
Proof.
  unfold new_nodes. enough (forall h : gmap string nodeData, NoDup (map m_PublicID msgs) ->
    (m ∈ msgs -> foldl (fun h m => <[m_PublicID m := node_of m]> h) h msgs !! m_PublicID m = Some (node_of m)) /\
    (m_PublicID m ∉ map m_PublicID msgs ->
       foldl (fun h m => <[m_PublicID m := node_of m]> h) h msgs !! m_PublicID m = h !! m_PublicID m)) as H.
  { intros Hnd. by apply H. }
  induction msgs as [|x msgs IH]; intros h Hnd; cbn [foldl map].
  { split; [by intros ?%elem_of_nil|done]. }
  apply NoDup_cons in Hnd as [Hx Hnd]. destruct (IH (<[m_PublicID x := node_of x]> h) Hnd) as [H1 H2]. split.
  - intros [->|Hm]%elem_of_cons; [|by apply H1]. rewrite H2 by done. apply lookup_insert_eq.
  - intros [Hne Hm]%not_elem_of_cons. rewrite H2 by done. by apply lookup_insert_ne.
Qed.

Section Thread.
Context (out : list Message) (root : Message) (Hl : threadlike out root).

Lemma same_row m m' : m ∈ out -> m' ∈ out -> m_PublicID m = m_PublicID m' -> m = m'.
Proof. apply inj_on_NoDup, Hl. Qed.

Lemma parent_in_spec m p : m ∈ out -> p ∈ out ->
  parent_in (map m_PublicID out) m = Some (m_PublicID p) <-> m_ReplyTo m = Some (m_PublicID p).
Proof.
  intros Hm Hp. unfold parent_in. destruct (decide (m = root)) as [->|Hne].
  { rewrite (tl_top _ _ Hl). cbn. split; done. }
  destruct (tl_up _ _ Hl m Hm Hne) as (q & Hq & -> & Hq0 & _).
  change (null_string (Some (m_PublicID q))) with (m_PublicID q).
  rewrite (bool_decide_false (_ = EmptyString)) by done.
  rewrite (bool_decide_true (_ ∈ _)) by (apply list_elem_of_In, in_map; by rewrite <- list_elem_of_In).
  cbn. done.
Qed.

Lemma root_alone m : m ∈ out -> parent_in (map m_PublicID out) m = None <-> m = root.
Proof.
  intros Hm. split; [|intros ->; unfold parent_in; by rewrite (tl_top _ _ Hl)].
  intros E. destruct (decide (m = root)) as [->|Hne]; [done|].
  destruct (tl_up _ _ Hl m Hm Hne) as (q & Hq & E' & _). apply (parent_in_spec m q) in E'; [congruence|done..].
Qed.

Lemma rows_NoDup : NoDup out.
Proof. apply NoDup_ListNoDup, (NoDup_map_inv m_PublicID), NoDup_ListNoDup, Hl. Qed.

Lemma filter_same {A} (p q : A -> bool) (l : list A) :
  (forall x, x ∈ l -> p x = q x) -> List.filter p l = List.filter q l.
Proof.
  induction l as [|x l IH]; intros H; [done|]. cbn. rewrite (H x) by (rewrite elem_of_cons; by left).
  rewrite IH; [done|]. intros y Hy. apply H. rewrite elem_of_cons. by right.
Qed.

Lemma answers_elem m c : c ∈ answers_to out m <-> c ∈ out /\ m_ReplyTo c = Some (m_PublicID m).
Proof.
  unfold answers_to. rewrite list_elem_of_In, List.filter_In, <- list_elem_of_In. by rewrite bool_decide_eq_true.
Qed.

(** The map of children holds for each row the ids of its answers. *)
Lemma built : exists h, buildThreadTree out = Ok (h, m_PublicID root) /\
  forall m, m ∈ out -> hp_nodes h !! m_PublicID m = Some (node_of m) /\
                      default [] (hp_children h !! m_PublicID m) = map m_PublicID (answers_to out m).
Proof.
  unfold buildThreadTree. rewrite bool_decide_false by (intros E; pose proof (tl_root _ _ Hl) as H; rewrite E in H; by apply elem_of_nil in H).
  destruct (hang_spec (map m_PublicID out) root out None ∅) as (ch & E & Hch).
  - intros m Hm. by apply root_alone.
  - apply rows_NoDup.
  - intros Hr. split; [done|]. by apply root_alone.
  - rewrite E, bool_decide_true by apply Hl. eexists. split; [done|]. intros m Hm. cbn [hp_nodes hp_children].
    split; [apply new_nodes_lookup; [apply Hl|done]|]. rewrite Hch, lookup_empty. cbn [default app].
    f_equal. apply filter_same. intros c Hc. apply bool_decide_ext. by apply parent_in_spec.
Qed.

(** ** Who hangs below whom *)

Definition up (y p : Message) : Prop := y ∈ out /\ p ∈ out /\ m_ReplyTo y = Some (m_PublicID p).

Lemma up_earlier y p : up y p -> m_ID p < m_ID y.
Proof.
  intros (Hy & Hp & E). destruct (decide (y = root)) as [->|Hne]; [by rewrite (tl_top _ _ Hl) in E|].
  destruct (tl_up _ _ Hl y Hy Hne) as (q & Hq & E' & _ & Hlt).
  assert (p = q) as -> by (apply same_row; congruence). done.
Qed.

Lemma below_later y m : rtc up y m -> m_ID m <= m_ID y.
Proof. induction 1 as [|y p m H _ IH]; [lia|]. apply up_earlier in H. lia. Qed.

Lemma up_det y p q : up y p -> up y q -> p = q.
Proof. intros (_ & Hp & E) (_ & Hq & E'). apply same_row; congruence. Qed.

(** A row is below at most one answer of another. *)
Lemma below_one m c c' y : up c m -> up c' m -> rtc up y c -> rtc up y c' -> c = c'.
Proof.
  intros Hc Hc' H. revert c' Hc'. induction H as [y|y z c Hyz Hzc IH]; intros c' Hc' H'.
  - inversion H' as [|? q ? Hq Hq']; subst; [done|]. assert (q = m) as -> by (by eapply up_det).
    apply below_later in Hq'. apply up_earlier in Hc'. lia.
  - inversion H' as [|? q ? Hq Hq']; subst.
    + assert (z = m) as -> by (by eapply up_det). apply below_later in Hzc. apply up_earlier in Hc. lia.
    + assert (q = z) as -> by (by eapply up_det). by apply IH.
Qed.

Lemma below_root y : y ∈ out -> rtc up y root.
Proof.
  intros Hy. remember (Z.to_nat (m_ID y)) as n eqn:En. revert y Hy En.
  induction n as [n IH] using lt_wf_ind. intros y Hy ->. destruct (decide (y = root)) as [->|Hne]; [done|].
  destruct (tl_up _ _ Hl y Hy Hne) as (p & Hp & E & _ & Hlt).
  eapply rtc_l; [by split_and!|]. eapply IH; [|done..].
  pose proof (tl_id _ _ Hl p Hp). lia.
Qed.

(** ** Reading the tree *)

(** The nodes of a tree are the rows below its root, each once. *)
Record covers (m : Message) (t : threadNode) : Prop := {
  cv_tree : tree_of out m t;
  cv_nodes n : n ∈ nodes_of t <-> exists y, y ∈ out /\ rtc up y m /\ n = node_of y;
  cv_once : NoDup (map nd_ID (nodes_of t))
}.

Lemma mapM_covers f : forall l,
  (forall c, c ∈ l -> exists t, f (m_PublicID c) = Some t /\ covers c t) ->
  exists ts, mapM f (map m_PublicID l) = Some ts /\ Forall2 covers l ts.
Proof.
  induction l as [|c l IH]; intros H; [by exists []|].
  destruct (H c) as (t & E & Ht); [rewrite elem_of_cons; by left|].
  destruct IH as (ts & E' & Hts). { intros x Hx. apply H. rewrite elem_of_cons. by right. }
  exists (t :: ts). cbn. rewrite E. cbn. rewrite E'. split; [done|]. by constructor.
Qed.

Lemma below_ids c t x : covers c t -> x ∈ map nd_ID (nodes_of t) ->
  exists y, y ∈ out /\ rtc up y c /\ x = m_PublicID y.
Proof.
  intros H (n & <- & Hn)%list_elem_of_In%List.in_map_iff. apply list_elem_of_In, (cv_nodes _ _ H) in Hn as (y & Hy & Hyc & ->).
  by exists y.
Qed.

(** The trees of the answers to a row share no node. *)
Lemma concat_once m : forall l ts, Forall2 covers l ts -> NoDup l -> (forall c, c ∈ l -> up c m) ->
  NoDup (map nd_ID (concat (map nodes_of ts))).
Proof.
  induction 1 as [|c t l ts Hc Hts IH]; intros Hnd Hup; [constructor|].
  apply NoDup_cons in Hnd as [Hcl Hnd]. cbn. rewrite map_app. apply NoDup_app. split_and!.
  - apply Hc.
  - intros x Hx (n & <- & Hn)%list_elem_of_In%List.in_map_iff.
    apply List.in_concat in Hn as (ns & (t' & <- & Ht')%List.in_map_iff & Hn).
    apply list_elem_of_In in Ht', Hn. apply list_elem_of_lookup in Ht' as (i & Hi).
    destruct (Forall2_lookup_r _ _ _ _ _ Hts Hi) as (c' & Hi' & Hc'). apply list_elem_of_lookup_2 in Hi'.
    apply (below_ids c t) in Hx as (y & Hy & Hyc & Ey); [|done].
    destruct (proj1 (cv_nodes _ _ Hc' _) Hn) as (y' & Hy' & Hyc' & ->).
    assert (y' = y) as -> by (by apply same_row).
    assert (c = c') as ->; [|done]. eapply below_one; [apply Hup; rewrite elem_of_cons; by left| |done..].
    apply Hup. rewrite elem_of_cons. by right.
  - apply IH; [done|]. intros x Hx. apply Hup. rewrite elem_of_cons. by right.
Qed.

Lemma covers_node m ts : m ∈ out -> Forall2 covers (answers_to out m) ts -> covers m (Node (node_of m) ts).
Proof.
  intros Hm Hts. assert (Hup : forall c, c ∈ answers_to out m -> up c m) by (by intros c [Hc E]%answers_elem).
  split.
  - constructor. eapply Forall2_impl; [exact Hts|]. by intros c t [? ? ?].
  - intros n. cbn [nodes_of]. rewrite elem_of_cons. split.
    + intros [->|Hn]; [by exists m|].
      apply list_elem_of_In, List.in_concat in Hn as (ns & (t & <- & Ht)%List.in_map_iff & Hn).
      apply list_elem_of_In in Ht, Hn. apply list_elem_of_lookup in Ht as (i & Hi).
      destruct (Forall2_lookup_r _ _ _ _ _ Hts Hi) as (c & Hi' & Hc). apply list_elem_of_lookup_2 in Hi'.
      destruct (proj1 (cv_nodes _ _ Hc _) Hn) as (y & Hy & Hyc & ->). exists y. split_and!; [done| |done].
      eapply rtc_r; [exact Hyc|]. by apply Hup.
    + intros (y & Hy & Hym & ->). apply rtc_inv_r in Hym as [->|(c & Hyc & Hcm)]; [by left|right].
      assert (Hc : c ∈ answers_to out m) by (apply answers_elem; by destruct Hcm as (? & ? & ?)).
      apply list_elem_of_lookup in Hc as (i & Hi). destruct (Forall2_lookup_l _ _ _ _ _ Hts Hi) as (t & Hi' & Ht).
      apply list_elem_of_In, List.in_concat. exists (nodes_of t). split.
      * apply List.in_map. rewrite <- list_elem_of_In. by eapply list_elem_of_lookup_2.
      * rewrite <- list_elem_of_In. apply (cv_nodes _ _ Ht). by exists y.
  - cbn [nodes_of map]. apply NoDup_cons. split.
    + intros (n & En & Hn)%list_elem_of_In%List.in_map_iff.
      apply List.in_concat in Hn as (ns & (t & <- & Ht)%List.in_map_iff & Hn).
      apply list_elem_of_In in Ht, Hn. apply list_elem_of_lookup in Ht as (i & Hi).
      destruct (Forall2_lookup_r _ _ _ _ _ Hts Hi) as (c & Hi' & Hc). apply list_elem_of_lookup_2 in Hi'.
      destruct (proj1 (cv_nodes _ _ Hc _) Hn) as (y & Hy & Hyc & ->).
      assert (y = m) as -> by (by apply same_row). apply below_later in Hyc.
      pose proof (up_earlier _ _ (Hup _ Hi')). lia.
    + eapply (concat_once m); [exact Hts| |done]. apply NoDup_ListNoDup, List.NoDup_filter, NoDup_ListNoDup, rows_NoDup.
Qed.

(** How many rows are not earlier than a row: enough turns to read what is below it. *)
Definition later (m : Message) : nat := length (List.filter (fun x => m_ID m <=? m_ID x) out).

Lemma filter_length_lt {A} (p q : A -> bool) (l : list A) a :
  (forall x, p x = true -> q x = true) -> a ∈ l -> p a = false -> q a = true ->
  (length (List.filter p l) < length (List.filter q l))%nat.
Proof.
  intros Hpq Ha Hp Hq. enough (length (List.filter p l) <= length (List.filter q l) /\
    (a ∈ l -> length (List.filter p l) < length (List.filter q l)))%nat as [_ H] by (by apply H).
  clear Ha. induction l as [|x l [IH1 IH2]]; [split; [done|by intros ?%elem_of_nil]|]. cbn. split.
  - specialize (Hpq x). destruct (p x), (q x); cbn; solve [lia|by specialize (Hpq eq_refl)].
  - intros [->|Hx]%elem_of_cons.
    + rewrite Hp, Hq. cbn. lia.
    + specialize (IH2 Hx). specialize (Hpq x). destruct (p x), (q x); cbn; solve [lia|by specialize (Hpq eq_refl)].
Qed.

Lemma read_total h :
  (forall m, m ∈ out -> hp_nodes h !! m_PublicID m = Some (node_of m) /\
                        default [] (hp_children h !! m_PublicID m) = map m_PublicID (answers_to out m)) ->
  forall n m, m ∈ out -> (later m <= n)%nat -> exists t, read_node n h (m_PublicID m) = Some t /\ covers m t.
Proof.
  intros Hh. induction n as [|n IH]; intros m Hm Hn.
  - exfalso. enough (0 < later m)%nat by lia. unfold later.
    assert (In : List.In m (List.filter (fun x => m_ID m <=? m_ID x) out)).
    { apply List.filter_In. split; [by apply list_elem_of_In|apply Z.leb_refl]. }
    destruct (List.filter _ out); [done|cbn; lia].
  - cbn [read_node]. destruct (Hh m Hm) as [-> ->].
    destruct (mapM_covers (read_node n h) (answers_to out m)) as (ts & -> & Hts).
    { intros c [Hc E]%answers_elem. apply IH; [done|].
      assert (Hlt : m_ID m < m_ID c) by (apply up_earlier; by split_and!).
      enough (later c < later m)%nat by lia. apply (filter_length_lt _ _ _ m); [|done|lia|lia].
      intros x ?. lia. }
    eexists. split; [done|]. by apply covers_node.
Qed.

(** The tree of the whole thread. *)
Lemma thread_tree : exists h t,
  buildThreadTree out = Ok (h, m_PublicID root) /\ read_node (S (length out)) h (m_PublicID root) = Some t /\
  tree_of out root t /\ nodes_of t ≡ₚ map node_of out.
Proof.
  destruct built as (h & E & Hh).
  destruct (read_total h Hh (S (length out)) root (tl_root _ _ Hl)) as (t & Et & Ht).
  { unfold later. rewrite List.filter_length_le. lia. }
  exists h, t. split_and!; [done..|apply Ht|]. apply NoDup_Permutation.
  - apply (NoDup_fmap_1 nd_ID), Ht.
  - apply (NoDup_fmap_1 nd_ID). change (nd_ID <$> map node_of out) with (map nd_ID (map node_of out)).
    rewrite map_map. apply Hl.
  - intros n. rewrite (cv_nodes _ _ Ht), list_elem_of_In, List.in_map_iff. split.
    + intros (y & Hy & _ & ->). exists y. split; [done|]. by apply list_elem_of_In.
    + intros (y & <- & Hy%list_elem_of_In). exists y. split; [done|]. split; [by apply below_root|done].
Qed.
End Thread.

(** ** The thread of the store *)

Lemma thread_of_threadlike d m out : messages_wf d -> thread_of d m out ->
  exists root, threadlike out root.
Proof.
  intros Hw (root & Hr & _ & Ht & _ & Hnd & Hout). exists (thread_scanned root).
  assert (Hrow : forall x, x ∈ out -> exists y, y ∈ db_messages d /\ rtc (replies d) y root /\ x = thread_scanned y)
    by (intros x Hx; by apply Hout).
  assert (Hpub : forall x y, x ∈ out -> y ∈ out -> m_PublicID x = m_PublicID y -> x = y).
  { intros x y (x' & Hx & _ & ->)%Hrow (y' & Hy & _ & ->)%Hrow E. f_equal.
    apply (inj_on_NoDup m_PublicID (db_messages d)); [apply Hw|done..]. }
  split.
  - apply (NoDup_fmap_2_strong m_PublicID out); [intros; by apply Hpub|].
    by apply (NoDup_fmap_1 m_ID).
  - apply Hout. by exists root.
  - done.
  - intros x (y & Hy & Hyr & ->)%Hrow Hne. inversion Hyr as [|? z ? Hyz Hzr]; subst; [done|].
    destruct Hyz as (_ & Hz & E). destruct (mw_reply d Hw y _ Hy E) as (Hn0 & p & Hp & Ep & Hlt).
    assert (p = z) as -> by (apply (inj_on_NoDup m_PublicID (db_messages d)); [apply Hw|done..]).
    exists (thread_scanned z). split_and!; [|done..]. apply Hout. by exists z.
  - intros x (y & Hy & _ & ->)%Hrow. destruct (mw_bound d Hw y Hy). cbn. lia.
Qed.

(** What the command shows of a tree, in either form. *)
Definition shows (format : string) (t : threadNode) : thread_answer :=
  if bool_decide (format = "json") then TreeJSON t else TreeText (renderThreadTree t).

Definition thread_spec (format id : string) (d : DB) (r : outcome thread_answer) (d' : DB) : Prop :=
  d' = d /\
  match r with
  | Failed _ code =>
      (code = exitUsage /\ format ∉ [EmptyString; "tree"; "json"]) \/
      (code = exitDataErr /\ forall m, m ∈ db_messages d -> m_PublicID m <> id)
  | Done a => exists m out root t,
      m ∈ db_messages d /\ m_PublicID m = id /\ thread_of d m out /\ root ∈ out /\ m_ReplyTo root = None /\
      a = shows format t /\ tree_of out root t /\ nodes_of t ≡ₚ map node_of out
  end.

(** C22: The thread command shows the whole conversation as a tree.  Run alone on a
    well-formed store it always ends and changes nothing: an unknown id is reported as
    such; for a known one the tree holds every row of its conversation exactly once,
    the root answering nothing, and below each row precisely its answers, oldest
    first. *)
Theorem thread_tree_complete sw format id d :
  alone sw -> store_wf d ->
  ends_in sw (runThreadWithStore id format) d (thread_spec format id d).
Proof.
  intros Ha Hw. unfold runThreadWithStore. case_bool_decide as Hf; cbn [negb].
  2:{ apply ends_go. split; [done|]. left. by split. }
  apply ends_bind with (Q := fun r d' => r = GetThread id d /\ d' = d); [by apply ends_store|]. intros r d' [-> ->].
  destruct (GetThread_complete id d Hw) as [[-> Hno]|(m & out & Hm & Hid & -> & Ht)].
  - apply ends_go. split; [done|]. by right.
  - destruct (thread_of_threadlike d m out (proj1 Hw) Ht) as [root Hl].
    destruct (thread_tree out root Hl) as (h & t & -> & -> & Htree & Hnodes).
    apply ends_go. split; [done|]. exists m, out, root, t. split_and!; try done; apply Hl.
Qed.

Lemma thread_tree_complete_witness :
  exists r st', runThreadWithStore "0003" "json" bus (mkS db_chain (initial_vars demo_opts) []) = (Go r, st') /\
    thread_spec "json" "0003" db_chain r (s_db st') /\
    match r with Done (TreeJSON t) => map nd_ID (nodes_of t) = ["0001"; "0002"; "0003"] | _ => False end.
Proof.
  destruct (thread_tree_complete bus "json" "0003" db_chain bus_alone db_chain_wf
              (mkS db_chain (initial_vars demo_opts) []) eq_refl) as (r & st' & E & H).
  exists r, st'. split; [exact E|]. split; [exact H|]. vm_compute in E. injection E as <- _. vm_compute. reflexivity.
Defined.

(** A delivery whose text stayed in the input box is shown as such by every other
    command; the thread reads its rows without that column. *)
Definition boxed_db : DB :=
  snd (MarkDeliveredInInputBox "0001" t1 (snd (ClaimNext "bob" db_chain))).

Lemma thread_hides_unverified :
  (exists m, GetMessage "0001" boxed_db = Ok m /\ displayState m = displayStateDeliveredInInputBox) /\
  (exists out, GetThread "0001" boxed_db = Ok out /\ map displayState (take 1 out) = ["delivered"]).
Proof. split; eexists; vm_compute; split; reflexivity. Qed.
