(* ===== verification/ViewsProps.v ===== *)
(** * Correctness of the commands that read the bus *)

From S2P Require Import Prelude GoStd Clock StoreTypes Priority Messages Queue Queries Agents Lifecycle Invariants PrefixProps Config TmuxIO Mailman Respawn RespawnProps ObserveGate ServeDemo Runs Alone Send SendDemo Requests Upkeep Views.

Open Scope Z_scope.
Open Scope tell_scope.

(** ** Getting a message *)

(** The rows a requester may see. *)
Definition visible (cfg : option Config.File) (who : string) (d : DB) : list Message :=
  List.filter (may_get cfg who) (db_messages d).

Lemma filter_comm {A} (p q : A -> bool) l : List.filter p (List.filter q l) = List.filter q (List.filter p l).
Proof.
  induction l as [|x l IH]; [done|]. cbn. destruct (q x) eqn:Eq, (p x) eqn:Ep; cbn; rewrite ?Ep, ?Eq, IH; done.
Qed.

Lemma filter_map_scanned (p : Message -> bool) l :
  (forall m, p (scanned m) = p m) -> List.filter p (map scanned l) = map scanned (List.filter p l).
Proof. intros H. induction l as [|x l IH]; [done|]. cbn. rewrite H, IH. by destruct (p x). Qed.

(** What the rows that match and may be seen determine. *)
Definition get_spec (id : string) (matching : list Message) (r : result getResult) : Prop :=
  match matching with
  | [] => exists e, r = Err e /\ errors_Is e errGetNotFound = true /\ get_code e = exitUnavailable
  | [m] => r = Ok (get_view (scanned m))
  | ms => r = Err (ambiguous id (map scanned ms))
  end.

(** The answer as a function of the rows the requester may see. *)
Definition get_of (cfg : option Config.File) (who id : string) (ms : list Message) : result getResult :=
  if str_empty who then Err (ErrMsg "requester required")
  else if str_empty id then Err (ErrMsg "id required")
  else get_answer cfg who id (map scanned (List.filter (id_starts_with id) ms)).

Lemma may_get_scanned cfg who m : may_get cfg who (scanned m) = may_get cfg who m.
Proof. done. Qed.

Lemma filter_idem {A} (p : A -> bool) l : List.filter p (List.filter p l) = List.filter p l.
Proof. induction l as [|x l IH]; [done|]. cbn. destruct (p x) eqn:E; cbn; rewrite ?E, IH; done. Qed.

Lemma filter_of_visible cfg who id (ms : list Message) :
  List.filter (may_get cfg who) (map scanned (List.filter (id_starts_with id) ms)) =
  List.filter (may_get cfg who) (map scanned (List.filter (id_starts_with id) (List.filter (may_get cfg who) ms))).
Proof.
  rewrite !(filter_map_scanned (may_get cfg who)) by apply may_get_scanned.
  by rewrite (filter_comm (id_starts_with id)), filter_idem.
Qed.

(** C23: Fetching a message reveals nothing about the mail of others.  There is one
    function of the messages a requester may see (sent by it, sent to it, or all of
    them when it is on the allowlist) such that on every store the command and the
    tool answer with its value: what else the store holds makes no difference, not
    even to the errors.  With a requester and a prefix given, no match among those
    messages is reported as not found, a single one is returned whole, and several
    are refused with just their ids. *)
Theorem get_reveals_only_own cfg who id :
  exists f : list Message -> result getResult,
    (forall sw d, alone sw ->
       ends_in sw (doGet cfg who id) d (fun r d' => d' = d /\ r = f (visible cfg who d))) /\
    (forall d, who <> EmptyString -> id <> EmptyString ->
       get_spec id (List.filter (id_starts_with id) (visible cfg who d)) (f (visible cfg who d))).
Proof.
  exists (get_of cfg who id). split.
  - intros sw d Ha. unfold doGet, get_of. case_bool_decide as Hw; [by apply ends_go|].
    case_bool_decide as Hi; [by apply ends_go|].
    apply ends_bind with (Q := fun r d' => r = FindMessagesByPrefix id d /\ d' = d); [by apply ends_store|].
    intros r d' [-> ->]. rewrite FindMessagesByPrefix_literal, bool_decide_false by done. apply ends_go.
    split; [done|]. unfold get_answer, visible. by rewrite filter_of_visible.
  - intros d Hw Hi. unfold get_of. rewrite !bool_decide_false by done. unfold get_answer, visible.
    rewrite (filter_map_scanned (may_get cfg who)) by apply may_get_scanned.
    rewrite filter_comm, filter_idem, filter_comm. unfold get_spec.
    destruct (List.filter (id_starts_with id) _) as [|m [|m' ms]]; cbn [map]; [|done..].
    eexists. split; [done|]. split; vm_compute; done.
Qed.

(** ** The inbox *)

(** At most one reason, and the reason of the scheduler: a queued row is shown as
    fenced exactly when no claim can take it, and as held for another reason only when
    a claim can. *)
Record reason_ok (d : DB) (m : Message) (k : inbox_marks) : Prop := {
  ro_fenced : im_backlog_fenced k = true <-> m_State m = StateQueued /\ claimable (m_ToAgent m) d m = false;
  ro_held : im_provider_cap_deferred k || im_pane_in_copy_mode k = true -> claimable (m_ToAgent m) d m = true;
  ro_one : im_provider_cap_deferred k && im_pane_in_copy_mode k = false
}.

Lemma claimable_queued d m : m_State m = StateQueued ->
  claimable (m_ToAgent m) d m =
    match m_DeliverAfter m with Some _ => true | None => false end || (backlog_floor (m_ToAgent m) d <? m_ID m).
Proof. intros E. unfold claimable, to_in_state. by rewrite E, !bool_decide_true. Qed.

Lemma epoch_of_floor agent d : epoch_of (GetAgent agent d) = backlog_floor (CanonicalName agent) d.
Proof. unfold GetAgent, backlog_floor. by destruct (db_agents d !! CanonicalName agent). Qed.

Lemma marks_ok d agent capped in_mode m :
  1 <= m_ID m -> m_ToAgent m = CanonicalName agent ->
  reason_ok d m (marks_of (epoch_of (GetAgent agent d)) capped in_mode m).
Proof.
  intros Hid Hto. rewrite epoch_of_floor, <- Hto. unfold marks_of, fenced.
  set (floor := backlog_floor (m_ToAgent m) d). set (del := m_DeliverAfter m).
  destruct (decide (m_State m = StateQueued)) as [E|E].
  - split; cbn; rewrite ?(claimable_queued _ _ E); fold floor del; rewrite ?(bool_decide_true _ E); cbn.
    + destruct del, (Z.ltb_spec 0 floor), (Z.leb_spec (m_ID m) floor), (Z.ltb_spec floor (m_ID m)); cbn;
        (split; [intros ?|intros [_ ?]]); try split; try done; lia.
    + destruct del, capped, in_mode, (Z.ltb_spec 0 floor), (Z.leb_spec (m_ID m) floor),
        (Z.ltb_spec floor (m_ID m)); cbn; intros ?; try done; lia.
    + by destruct capped, in_mode, del, (0 <? floor), (m_ID m <=? floor).
  - split; cbn; rewrite ?(bool_decide_false _ E), ?andb_false_r; cbn; [|done..].
    split; [done|]. by intros [? _].
Qed.

Lemma list_in_state_rows f state d msgs m :
  list_in_state f state d = Ok msgs -> m ∈ msgs -> exists m0 st, m0 ∈ db_messages d /\ m = scanned m0 /\
    list_where (canonical_filter (f st)) (db_messages d) m0 = true.
Proof.
  assert (H : forall st ms, ListMessages (f st) d = Ok ms -> m ∈ ms -> exists m0 st, m0 ∈ db_messages d /\
            m = scanned m0 /\ list_where (canonical_filter (f st)) (db_messages d) m0 = true).
  { intros st ms. unfold ListMessages. cbv zeta. destruct (_ && _); [done|]. destruct (_ && _); [done|]. intros [= <-].
    intros (m0 & <- & Hm)%list_elem_of_In%List.in_map_iff. apply list_elem_of_In in Hm.
    apply elem_of_take in Hm as (i & Hi & _). apply list_elem_of_lookup_2 in Hi.
    exists m0, st. assert (Hw : m0 ∈ sql_where (list_where (canonical_filter (f st)) (db_messages d)) (db_messages d)).
    { case_match; [|done]. by apply list_elem_of_In, List.in_rev, list_elem_of_In. }
    by apply sql_where_elem in Hw as [? ?]. }
  unfold list_in_state. case_bool_decide; [by apply H|]. destruct (state_named state); [by apply H|].
  case_match; [|done]. intros [= <-]. by intros ?%elem_of_nil.
Qed.

(** What the listing holds of each row. *)
Definition inbox_shows (agent : string) (d : DB) (msgs : list Message) (format : string)
    (r : outcome inbox_answer) : Prop :=
  exists k : Message -> inbox_marks,
    (forall m, m ∈ msgs -> m_ToAgent m = CanonicalName agent -> reason_ok d m (k m)) /\
    match r with
    | Done (InboxJSON rows) => format = "json" /\ rows = map (fun m => (messageToMap m, k m)) msgs
    | Done (InboxText rows _) => format ∈ ["text"; EmptyString] /\
        Forall2 (fun m row => exists now, row = inbox_row m (k m) now) msgs rows
    | Done _ => False
    | Failed _ code => code = exitUsage /\ format ∉ ["json"; "text"; EmptyString]
    end.

Definition inbox_spec (agent state : string) (limit : Z) (unanswered : bool) (format : string) (d : DB)
    (r : outcome inbox_answer) (d' : DB) : Prop :=
  d' = d /\
  match list_in_state (inbox_filter agent limit unanswered) state d with
  | Err e => r = Failed (error_text e) exitInternal
  | Ok msgs => inbox_shows agent d msgs format r
  end.

Lemma provider_capped_aside sw agent d : alone sw -> ends_in sw (provider_capped agent) d (fun _ d' => d' = d).
Proof.
  intros Ha. unfold provider_capped. apply ends_aside; [by apply ends_read|]. intros [[provider cap]|e]; [|by apply ends_go].
  destruct (_ || _); [by apply ends_go|]. apply ends_aside; [by apply ends_lift|]. intros now.
  apply ends_aside; [by apply ends_read|]. intros [n|e]; by apply ends_go.
Qed.

Lemma copy_mode_aside sw agent d : alone sw -> ends_in sw (copy_mode_of agent) d (fun _ d' => d' = d).
Proof.
  intros Ha. unfold copy_mode_of. apply ends_aside; [by apply ends_store|]. intros [a|e]; [|by apply ends_go].
  case_bool_decide; [by apply ends_go|]. apply ends_aside; [by apply ends_lift|]. intros [b|e]; by apply ends_go.
Qed.

Lemma refused_note_aside sw agent state d : alone sw -> ends_in sw (refused_note agent state) d (fun _ d' => d' = d).
Proof.
  intros Ha. unfold refused_note. case_bool_decide; [by apply ends_go|].
  apply ends_aside; [by apply ends_lift|]. intros now. apply ends_aside; [by apply ends_read|].
  intros [r|e]; [|by apply ends_go]. destruct (_ <? _); [|by apply ends_go].
  apply ends_aside; [by apply ends_lift|]. intros now'. by apply ends_go.
Qed.

Lemma each_row_spec {A B} sw (row : A -> M B) (R : A -> B -> Prop) d : forall l,
  (forall a, ends_in sw (row a) d (fun b d' => d' = d /\ R a b)) ->
  ends_in sw (each_row row l) d (fun bs d' => d' = d /\ Forall2 R l bs).
Proof.
  induction l as [|a l IH]; intros H; cbn [each_row]; [apply ends_go; split; [done|constructor]|].
  eapply ends_bind; [apply H|]. intros b d' [-> Hb]. eapply ends_bind; [by apply IH|].
  intros bs d' [-> Hbs]. apply ends_go. split; [done|]. by constructor.
Qed.

(** C24: What the inbox says about each message is what the scheduler does with it.  Run
    alone, on every well-formed store and for every filter, the listing ends, changes
    nothing, and shows precisely the selected messages, in order; of those addressed to
    the agent, one is marked as fenced exactly when it is queued and no claim can take
    it, and as held (by the provider's cap, or because the pane is scrolled back, never
    both) only when a claim could. *)
Theorem inbox_marks_exact sw agent state limit unanswered format d :
  alone sw -> store_wf d ->
  ends_in sw (runInboxWithStore agent state limit unanswered format) d
    (inbox_spec agent state limit unanswered format d).
Proof.
  intros Ha [Hw _]. unfold runInboxWithStore.
  apply ends_bind with (Q := fun r d' => r = list_in_state (inbox_filter agent limit unanswered) state d /\ d' = d);
    [by apply ends_store|]. intros r d' [-> ->]. unfold inbox_spec.
  destruct (list_in_state _ state d) as [msgs|e] eqn:El; [|by apply ends_go].
  apply ends_bind with (Q := fun r d' => r = GetAgent agent d /\ d' = d); [by apply ends_store|]. intros a d' [-> ->].
  apply ends_aside; [by apply provider_capped_aside|]. intros capped.
  apply ends_aside; [by apply copy_mode_aside|]. intros in_mode. cbv zeta.
  set (k := marks_of (epoch_of (GetAgent agent d)) capped in_mode).
  assert (Hk : forall m, m ∈ msgs -> m_ToAgent m = CanonicalName agent -> reason_ok d m (k m)).
  { intros m Hm Hto. apply marks_ok; [|done].
    destruct (list_in_state_rows _ _ _ _ _ El Hm) as (m0 & st & Hm0 & -> & _). apply (mw_bound d Hw m0 Hm0). }
  case_bool_decide as Hj; [|case_bool_decide as Ht].
  - apply ends_go. split; [done|]. by exists k.
  - eapply ends_bind.
    { apply (each_row_spec sw _ (fun m row => exists now, row = inbox_row m (k m) now)). intros m.
      apply ends_aside; [by apply ends_lift|]. intros now. apply ends_go. split; [done|]. by exists now. }
    intros rows d' [-> Hrows]. apply ends_aside; [by apply refused_note_aside|]. intros w. apply ends_go.
    split; [done|]. by exists k.
  - apply ends_go. split; [done|]. exists k. split; [done|]. split; [done|].
    intros [?|?]%elem_of_cons; done.
Qed.

(** ** Following a message *)

(** No result is shown twice in a row, and none before the last is final. *)
Fixpoint changing (shown : list trackResult) : Prop :=
  match shown with
  | r :: ((r' :: _) as shown') => tr_State r <> tr_State r' /\ tr_State r' <> "delivered" /\ tr_State r' <> "failed" /\ changing shown'
  | _ => True
  end.

(** How a watch ends: the message is delivered or failed, its context is over, or the
    message cannot be read. *)
Inductive watch_end (sw : SWorld) (id : string) (deadline : option Z) (st : sstate) :
    list trackResult * Z * option error -> Prop :=
  | wd_over m shown :
      GetMessage id (s_db st) = Ok m -> displayState m = "delivered" \/ displayState m = "failed" ->
      (tr_State <$> head shown) = Some (displayState m) ->
      watch_end sw id deadline st (shown, exitOK, None)
  | wd_late shown :
      is_Some (w_ctx (sw_io sw) (s_hist st)) \/
      (exists t, deadline = Some t /\ t <= w_clock (sw_io sw) (s_hist st)) ->
      watch_end sw id deadline st (shown, exitOK, None)
  | wd_unknown shown e :
      GetMessage id (s_db st) = Err ErrNotFound -> errors_Is e errTrackNotFound = true ->
      watch_end sw id deadline st (shown, exitUnavailable, Some e)
  | wd_fault shown h e e' :
      sw_fault sw h = Some e -> errors_Is e' errTrackNotFound = true \/ e' = e ->
      watch_end sw id deadline st (shown, track_code e', Some e').

Lemma isTerminal_iff s : isTerminalState s = true <-> s = "delivered" \/ s = "failed".
Proof. unfold isTerminalState. by rewrite orb_true_iff, !bool_decide_eq_true. Qed.

(** One look: the row of the moment, or why there is none. *)
Lemma doTrack_run sw id st :
  id <> EmptyString ->
  let h := EvCall "GetMessage" :: s_hist st in
  let d := sw_others sw h (s_db st) in
  exists r, doTrack id sw st = (Go r, mkS d (s_vars st) h) /\
    match sw_fault sw h with
    | Some e => exists e', r = Err e' /\ (errors_Is e' errTrackNotFound = true \/ e' = e)
    | None => match GetMessage id d with
              | Ok m => r = Ok (track_view m)
              | Err _ => GetMessage id d = Err ErrNotFound /\ exists e, r = Err e /\ errors_Is e errTrackNotFound = true
              end
    end.
Proof.
  intros Hid h d. unfold doTrack. rewrite bool_decide_false by done. unfold andthen, query, store, access. fold h. fold d.
  destruct (sw_fault sw h) as [e|].
  - eexists. split; [done|]. destruct (errors_Is e ErrNotFound); eexists; split; try done; [left; vm_compute; done|by right].
  - destruct (GetMessage id d) as [m|e] eqn:E; [by eexists|].
    assert (e = ErrNotFound) as ->. { unfold GetMessage in E. destruct (List.find _ _); congruence. }
    eexists. split; [done|]. split; [done|]. cbn. eexists. split; [done|]. vm_compute. done.
Qed.

(** Only the other processes write. *)
Definition untouched (sw : SWorld) : DB -> DB -> Prop := fun d => interleaved (Op := Empty_set) (fun _ _ _ => False) sw d [].

Lemma untouched_others sw h d d' : untouched sw (sw_others sw h d) d' -> untouched sw d d'.
Proof. apply il_others. Qed.

Lemma untouched_refl sw d : untouched sw d d.
Proof. constructor. Qed.

(** The results after one more look. *)
Definition show_next (res : trackResult) (shown : list trackResult) : list trackResult :=
  match shown with
  | last :: _ => if bool_decide (tr_State res = tr_State last) then shown else res :: shown
  | [] => [res]
  end.

Definition not_over (shown : list trackResult) : Prop :=
  forall s, (tr_State <$> head shown) = Some s -> s <> "delivered" /\ s <> "failed".

Lemma show_next_spec res shown : changing shown -> not_over shown ->
  changing (show_next res shown) /\ (tr_State <$> head (show_next res shown)) = Some (tr_State res).
Proof.
  intros Hc Hn. unfold show_next. destruct shown as [|last shown]; [done|].
  case_bool_decide as E; [by rewrite E|]. split; [|done]. split; [done|].
  destruct (Hn (tr_State last) eq_refl). done.
Qed.

Section Watching.
Context (sw : SWorld) (id : string) (interval deadline : Z).
Hypothesis Hclock : steady_clock (sw_io sw).
Hypothesis Hid : id <> EmptyString.
Hypothesis Hint : 0 < interval.

Definition watch_result (st : sstate) (r : list trackResult * Z * option error) (st' : sstate) : Prop :=
  untouched sw (s_db st) (s_db st') /\ changing (fst (fst r)) /\ watch_end sw id (Some deadline) st' r.

Lemma track_loop_end : forall n shown st,
  deadline - w_clock (sw_io sw) (s_hist st) + interval <= Z.of_nat n * interval -> (1 <= n)%nat ->
  changing shown -> not_over shown ->
  exists r st', track_loop n id interval (Some deadline) shown sw st = (Go r, st') /\ watch_result st r st'.
Proof.
  induction n as [|n IH]; intros shown st Hn H1 Hc Ho; [lia|]. cbn [track_loop]. unfold andthen at 1.
  destruct (doTrack_run sw id st Hid) as (r & -> & Hr). set (h := EvCall "GetMessage" :: s_hist st) in *.
  set (d := sw_others sw h (s_db st)) in *.
  pose proof (sc_mono _ Hclock (EvCall "GetMessage") (s_hist st)) as Hc1. fold h in Hc1.
  assert (Hd : untouched sw (s_db st) d) by (apply (untouched_others sw h), untouched_refl).
  set (st1 := mkS d (s_vars st) h) in *. destruct r as [res|e].
  - destruct (sw_fault sw h) as [f|]; [by destruct Hr as (e' & ? & _)|].
    destruct (GetMessage id d) as [m|] eqn:Em; [injection Hr as ->|by destruct Hr as (_ & e' & ? & _)].
    fold (show_next (track_view m) shown). destruct (show_next_spec (track_view m) shown Hc Ho) as [Hc' Hh].
    set (shown' := show_next (track_view m) shown) in *. unfold andthen at 1.
    assert (exists h1, (if bool_decide (shown = []) && negb (str_empty (tr_To (track_view m)))
                        then ask ("watchKey " +:+ tr_To (track_view m)) (fun _ _ => tt) else skip) sw st1 =
                       (Go tt, mkS d (s_vars st) h1) /\ w_clock (sw_io sw) h <= w_clock (sw_io sw) h1) as (h1 & -> & Hc2).
    { destruct (_ && _); eexists; (split; [done|]); [apply (sc_mono _ Hclock (EvCall _))|lia]. }
    destruct (isTerminalState (tr_State (track_view m))) eqn:Et.
    + apply isTerminal_iff in Et. do 2 eexists. split; [done|]. split_and!; [done..|]. by eapply wd_over.
    + unfold andthen at 1, lift, watched, until, wait, bind, emit, ctx_Err, deadline_ctx. cbn [with_ctx w_ctx w_clock s_hist s_db s_vars].
      pose proof (sc_sleep _ Hclock interval h1) as Hc3. set (h2 := EvSleep interval :: h1) in *.
      destruct (w_ctx (sw_io sw) h2) as [c|] eqn:Ex.
      { do 2 eexists. split; [done|]. split_and!; [done..|]. apply wd_late. left. by exists c. }
      destruct (Z.leb_spec deadline (w_clock (sw_io sw) h2)) as [Hl|Hl].
      { do 2 eexists. split; [done|]. split_and!; [done..|]. apply wd_late. right. by exists deadline. }
      assert (Hn' : not_over shown').
      { intros s. rewrite Hh. intros [= <-]. split; intros E;
          assert (isTerminalState (tr_State (track_view m)) = true) by (apply isTerminal_iff; cbn [tr_State track_view]; tauto); congruence. }
      destruct (IH shown' (mkS d (s_vars st) h2)) as (r & st' & E' & Hi & Hc4 & He);
        [cbn; lia|destruct n; cbn in *; lia|done|done|].
      exists r, st'. split; [exact E'|]. split_and!; [|done..]. by apply (untouched_others sw h).
  - unfold andthen at 1, lift, watched, until, ctx_Err, deadline_ctx. cbn [with_ctx w_ctx w_clock s_hist s_db s_vars st1].
    destruct (w_ctx (sw_io sw) h) as [c|] eqn:Ex.
    { do 2 eexists. split; [done|]. split_and!; [done..|]. apply wd_late. left. by exists c. }
    destruct (Z.leb_spec deadline (w_clock (sw_io sw) h)) as [Hl|Hl].
    { do 2 eexists. split; [done|]. split_and!; [done..|]. apply wd_late. right. by exists deadline. }
    do 2 eexists. split; [done|]. split_and!; [done..|]. destruct (sw_fault sw h) as [f|] eqn:Ef.
    + destruct Hr as (e' & [= <-] & He). by eapply wd_fault.
    + destruct (GetMessage id d) as [m|] eqn:Em; [done|]. destruct Hr as ([= ->] & e' & [= <-] & He). cbn [track_code].
      unfold track_code. rewrite He. by apply wd_unknown.
Qed.
End Watching.

(** Polls enough for a watch with a timeout. *)
Definition track_polls (timeout interval : Z) : nat := Z.to_nat (timeout / interval + 2).

(** C26: Following a message.  With a positive interval and a positive timeout (the
    default timeout of 0 means none, and then a watch may go on for ever), enough polls
    and a clock that honours sleeps, the watch always ends and writes nothing; it never shows
    the same state twice in a row, and it ends only because the message is delivered or
    failed as it stands in the store, with that state shown last, because its deadline
    passed or it was cancelled, or with the error that the message is unknown or cannot
    be read. *)
Theorem track_watch_correct sw id interval timeout fuel st :
  steady_clock (sw_io sw) -> id <> EmptyString -> 0 < interval -> 0 < timeout ->
  (track_polls timeout interval <= fuel)%nat ->
  exists r st', runTrackWatch fuel id interval timeout sw st = (Go r, st') /\
    watch_result sw id (w_clock (sw_io sw) (EvNow :: s_hist st) + timeout) st r st'.
Proof.
  intros Hclock Hid Hi Ht Hf. unfold runTrackWatch, andthen at 1, lift, time_Now. rewrite (proj2 (Z.ltb_lt _ _) Ht).
  cbn [s_db s_vars s_hist].
  pose proof (Z.mul_succ_div_gt timeout interval Hi) as Hdiv.
  pose proof (Z.div_pos timeout interval ltac:(lia) Hi) as Hpos. unfold track_polls in Hf.
  set (st1 := mkS (s_db st) (s_vars st) (EvNow :: s_hist st)).
  destruct (track_loop_end sw id interval (w_clock (sw_io sw) (EvNow :: s_hist st) + timeout) Hclock Hid Hi fuel [] st1)
    as (r & st' & E & H); [cbn|lia|done|done|by exists r, st'].
  assert (timeout / interval + 2 <= Z.of_nat fuel) by lia. nia.
Qed.

(** A message whose text stayed in the input box is never final for the watch, and
    neither is one that was acknowledged or refused: without a timeout it goes on for
    as many polls as one likes. *)
Lemma watch_without_end sw id interval m :
  alone sw -> (forall h, w_ctx (sw_io sw) h = None) -> id <> EmptyString ->
  displayState m <> "delivered" -> displayState m <> "failed" ->
  forall n shown st, GetMessage id (s_db st) = Ok m ->
    fst (track_loop n id interval None shown sw st) = OutOfFuel.
Proof.
  intros [Ho Hf] Hctx Hid H1 H2. assert (isTerminalState (tr_State (track_view m)) = false) as Et.
  { apply not_true_is_false. intros [?|?]%isTerminal_iff; done. }
  induction n as [|n IH]; intros shown st E; [done|]. cbn [track_loop]. unfold andthen at 1.
  destruct (doTrack_run sw id st Hid) as (r & -> & Hr). rewrite Hf, Ho, E in Hr. subst r. unfold andthen at 1.
  rewrite Et. unfold watched, wait, bind, emit, ctx_Err.
  destruct (_ && _); unfold ask, skip, go; unfold andthen at 1, lift; cbn [s_db s_vars s_hist]; rewrite Hctx, Ho; by apply IH.
Qed.

(** ** On the demo bus *)

(** A staged message for [bob], then a plain one; the first is promoted, and the floor
    of [bob] is put above both. *)
Definition staged : InsertParams :=
  mkParams "alice" "bob" EmptyString "staged" None false false EmptyString EmptyString "resume" false 0 false 0 0.

Definition fenced_db : DB :=
  snd (SetBacklogEpoch "bob" 2 (snd (PromoteDeferred "bob" "resume"
    (snd (InsertMessage (simple_params "alice" "bob" "plain" None) (entropy 2) (entropy 9) t0
      (snd (InsertMessage staged (entropy 1) (entropy 9) t0 bus_db))))))).

Lemma fenced_wf : store_wf fenced_db.
Proof.
  eapply store_step_wf; [apply step_SetBacklogEpoch|]. eapply store_step_wf; [apply step_PromoteDeferred|].
  do 2 (eapply store_step_wf; [apply step_InsertMessage|]). apply bus_store_wf.
Qed.

Local Notation on d := (mkS d (initial_vars demo_opts) []).

Lemma inbox_marks_exact_witness :
  exists r st', runInboxWithStore "bob" "queued" 50 false "json" bus (on fenced_db) = (Go r, st') /\
    inbox_spec "bob" "queued" 50 false "json" fenced_db r (s_db st') /\
    match r with
    | Done (InboxJSON rows) => map (fun p => (mv_body (fst p), im_backlog_fenced (snd p))) rows = [("staged", false); ("plain", true)]
    | _ => False
    end.
Proof.
  destruct (ends_from bus _ fenced_db _ (initial_vars demo_opts) []
              (inbox_marks_exact bus "bob" "queued" 50 false "json" fenced_db bus_alone fenced_wf))
    as (r & st' & E & H).
  exists r, st'. split; [exact E|]. split; [exact H|]. vm_compute in E. injection E as <- _. vm_compute. reflexivity.
Defined.

Lemma track_watch_correct_witness :
  exists r st', runTrackWatch 12 "0001" Time.Second (10 * Time.Second) bus (on fenced_db) = (Go r, st') /\
    watch_result bus "0001" (w_clock (sw_io bus) [EvNow] + 10 * Time.Second) (on fenced_db) r st'.
Proof.
  destruct (track_watch_correct bus "0001" Time.Second (10 * Time.Second) 12 (on fenced_db) ticking_steady)
    as (r & st' & E & H); [done|done|done|vm_compute; lia|].
  exists r, st'. split; [exact E|exact H].
Defined.

(** Draining the fenced backlog also drains what is not fenced: the staged message, which
    the mailman would have delivered, is acknowledged unseen. *)
Lemma ack_all_drops_promoted :
  (exists m, m ∈ db_messages fenced_db /\ m_Body m = "staged" /\ claimable "bob" fenced_db m = true) /\
  map m_State (db_messages (s_db (snd (runInboxAckAll "bob" bus (on fenced_db))))) =
    [StateAcknowledged; StateAcknowledged].
Proof.
  split; [|vm_compute; reflexivity]. eexists. split; [vm_compute; apply elem_of_cons; left; reflexivity|].
  split; vm_compute; reflexivity.
Qed.

(** No listing holds more than a thousand rows, so every count of [status] stops there. *)
Lemma listing_capped f d msgs : ListMessages f d = Ok msgs -> (length msgs <= 1000)%nat.
Proof.
  unfold ListMessages. cbv zeta. destruct (_ && _); [done|]. destruct (_ && _); [done|]. intros [= <-].
  rewrite length_map, length_take.
  assert (list_limit (f_Limit f) <= 1000) by (unfold list_limit; repeat case_match; lia). lia.
Qed.
