(* ===== verification/Render.v ===== *)
(** * The text of a message (internal/render/message.go)

    What the mailman pastes for a row: the header or the one-line form, with the time
    it was sent, how long it took, its thread, its length and whether it is a replay.
    The offset of the local zone at an instant is a parameter. *)

From Stdlib Require Import SpecFloat.
From S2P Require Import Prelude GoStd Clock StoreTypes Messages ObserveGate ServeConfig Views.

Open Scope Z_scope.

(** [strings.ToUpper(s[:1]) + s[1:]]: a byte that is no rune becomes U+FFFD. *)
Definition titleCase (s : string) : string :=
  match s with
  | EmptyString => s
  | String a rest =>
      (if Str.byte_val a <? 128 then String (Str.upper_byte a) EmptyString
       else Str.of_bytes [239; 191; 189]%nat) +:+ rest
  end.

Definition TitleCase : string -> string := titleCase.

(** ** Length markers *)

(** [float64(n) / 1000], in IEEE arithmetic. *)
Definition float_of (n : Z) : spec_float := binary_normalize 53 1024 n 0 false.
Definition thousandths (n : Z) : spec_float := SFdiv 53 1024 (float_of n) (float_of 1000).

(** The tenths that [%.1f] prints: the nearest, an exact tie to the even one. *)
Definition tenths (f : spec_float) : Z :=
  match f with
  | S754_finite false m e =>
      if 0 <=? e then Zpos m * 2 ^ e * 10
      else
        let d := 2 ^ (- e) in
        let q := Zpos m * 10 / d in
        let r := Zpos m * 10 mod d in
        if 2 * r <? d then q else if d <? 2 * r then q + 1 else if Z.even q then q else q + 1
  | _ => 0
  end.

Definition formatBytes (n : Z) : string :=
  if n <? 1000 then Str.itoa n +:+ "b"
  else let q := tenths (thousandths n) in Str.itoa (q / 10) +:+ "." +:+ Str.itoa (q mod 10) +:+ "k".

Definition byteMarkerSuffix (body : string) (threshold : Z) : string :=
  let n := Z.of_nat (String.length body) in
  if (threshold <? 0) || (n <=? threshold) then EmptyString else " · " +:+ formatBytes n.

(** ** Durations *)

Definition formatDuration (created : string) (finish : Z) : string :=
  match parse_stamp created with
  | None => EmptyString
  | Some t =>
      let d := finish - t in
      if d <? Time.Second then EmptyString
      else if d <? Time.Minute then "⇢" +:+ Str.itoa (d / Time.Second) +:+ "s"
      else if d <? Time.Hour then "⇢" +:+ Str.itoa (d / Time.Minute) +:+ "m"
      else if d <? 24 * Time.Hour then "⇢" +:+ Str.itoa (d / Time.Hour) +:+ "h"
      else "⇢" +:+ Str.itoa (d / Time.Hour / 24) +:+ "d"
  end.

(** The delivery of the row, when it carries one, else the moment of rendering. *)
Definition deliveryEnd (m : Message) (renderedAt : Z) : Z :=
  match m_DeliveredAt m with
  | None => renderedAt
  | Some s => if str_empty s then renderedAt else default renderedAt (parse_stamp s)
  end.

Section Zone.
(** Nanoseconds the local clock is ahead of UTC at an instant. *)
Context (zone : Z -> Z).

Definition local_text (t : Z) : string := Time.formatISO (t + zone t).

Definition formatClock (iso : string) : string :=
  match parse_stamp iso with Some t => Str.take 8 (Str.drop 11 (local_text t)) | None => "??:??:??" end.

Definition formatStamp (iso : string) : string :=
  match parse_stamp iso with
  | Some t => Str.take 10 (local_text t) +:+ " " +:+ Str.take 8 (Str.drop 11 (local_text t))
  | None => iso
  end.

(** ** The forms *)

Definition replayMarker (m : Message) : string :=
  let at_ := null_string (m_ReplayOfAt m) in
  if str_empty at_ then EmptyString else "↻ Replayed: original sent at " +:+ formatStamp at_.

(** A part, followed by the duration when there is one. *)
Definition timed (segment dur : string) : string :=
  if str_empty dur then segment else segment +:+ " · " +:+ dur.

Definition duration_of (m : Message) (renderedAt : Z) : string :=
  formatDuration (m_CreatedAt m) (deliveryEnd m renderedAt).

Definition messageHeader (m : Message) (byteMarkerThreshold renderedAt : Z) : string :=
  let nrSuffix := if m_NoReplyExpected m then " · 🔕" else EmptyString in
  let marker := byteMarkerSuffix (m_Body m) byteMarkerThreshold in
  let dur := duration_of m renderedAt in
  let re := null_string (m_ReplyTo m) in
  if negb (str_empty re) then
    "[" +:+ titleCase (m_FromAgent m) +:+ " → " +:+ titleCase (m_ToAgent m) +:+ " · " +:+
    timed ("re " +:+ re) dur +:+ " · id " +:+ m_PublicID m +:+ nrSuffix +:+ marker +:+ "]"
  else
    "[" +:+ titleCase (m_FromAgent m) +:+ " · " +:+ timed (formatClock (m_CreatedAt m)) dur +:+
    " · id " +:+ m_PublicID m +:+ nrSuffix +:+ marker +:+ "]".

Definition messageQuickChrome (m : Message) (renderedAt : Z) : string :=
  let sender := titleCase (m_FromAgent m) in
  let body := (if m_NoReplyExpected m then "🔕 " else EmptyString) +:+ m_Body m in
  let stamp := timed (formatClock (m_CreatedAt m)) (duration_of m renderedAt) in
  let re := null_string (m_ReplyTo m) in
  "✓ " +:+ sender +:+ (if negb (str_empty re) then " · re " +:+ re else EmptyString) +:+
  " · " +:+ stamp +:+ " · " +:+ body +:+ nl_str.

Definition render_Message (m : Message) (byteMarkerThreshold renderedAt : Z) : string :=
  if m_Quick m then messageQuickChrome m renderedAt
  else
    let header := messageHeader m byteMarkerThreshold renderedAt in
    let rm := replayMarker m in
    if str_empty rm then header +:+ nl_str +:+ nl_str +:+ m_Body m +:+ nl_str
    else header +:+ nl_str +:+ rm +:+ nl_str +:+ nl_str +:+ m_Body m +:+ nl_str.
End Zone.
