(* ===== verification/RenderProps.v ===== *)
(** * Correctness of the text of a message *)

From stdpp Require Import pretty.
From S2P Require Import Prelude GoStd Clock StoreTypes Messages ObserveGate Mailman ServeDemo UpkeepProps Views Render.

Open Scope Z_scope.

Import Str StrFacts.

(** ** Lines *)

Lemma one_line_take n s : one_line s -> one_line (take n s).
Proof.
  unfold one_line. revert n. induction s as [|a s IH]; intros [|n]; cbn; try done.
  intros [H1 H2]%orb_false_iff. by rewrite H1, IH.
Qed.

Lemma one_line_drop n s : one_line s -> one_line (drop n s).
Proof.
  unfold one_line. revert n. induction s as [|a s IH]; intros [|n]; cbn; try done.
  intros [H1 H2]%orb_false_iff. by apply IH.
Qed.

Lemma pretty_char_line (x : N) : bool_decide (pretty_N_char x = nl) = false.
Proof. apply bool_decide_false. unfold pretty_N_char. repeat case_match; done. Qed.

Lemma pretty_go_line (x : N) s : one_line s -> one_line (pretty_N_go x s).
Proof.
  revert s. induction (N.lt_wf_0 x) as [x _ IH]. intros s Hs. destruct (decide (x = 0%N)) as [->|Hx].
  - by rewrite pretty_N_go_0.
  - rewrite pretty_N_go_step by lia. apply IH; [apply N.div_lt; lia|]. unfold one_line. cbn [has_byte].
    by rewrite pretty_char_line.
Qed.

Lemma pretty_N_line (x : N) : one_line (pretty x).
Proof. unfold pretty, pretty_N. case_decide; [done|]. by apply pretty_go_line. Qed.

Lemma itoa_line n : one_line (itoa n).
Proof.
  destruct n as [|p|p]; [done|apply (pretty_N_line (Npos p))|].
  apply (one_line_app "-" (pretty (Npos p))); [done|apply pretty_N_line].
Qed.

Lemma pad_line w n : one_line (Time.pad w n).
Proof.
  unfold Time.pad. enough (forall f s, one_line s -> one_line (Time.pad_left f w s)) as H by apply H, itoa_line.
  induction f as [|f IH]; intros s Hs; [done|]. cbn [Time.pad_left]. case_match; [|done]. apply IH.
  by apply (one_line_app "0" s).
Qed.

Lemma formatISO_line t : one_line (Time.formatISO t).
Proof.
  unfold Time.formatISO. destruct (Time.civil_from_days _) as [[y m] d].
  repeat apply one_line_app; first [apply pad_line|done].
Qed.

Lemma Cut_line a b : one_line a -> Cut nl (a +:+ String nl b) = Some (a, b).
Proof.
  unfold one_line. induction a as [|c a IH]; intros H; [done|]. cbn [has_byte] in H.
  apply orb_false_iff in H as [H1 H2]. cbn [String.append Cut]. by rewrite H1, IH.
Qed.

Lemma TrimSuffix_app s t : TrimSuffix (s +:+ t) t = s.
Proof.
  unfold TrimSuffix, HasSuffix. rewrite string_length_app.
  rewrite bool_decide_true by lia.
  replace (String.length s + String.length t - String.length t)%nat with (String.length s) by lia.
  rewrite bool_decide_true by apply drop_app. cbn [andb]. apply take_whole.
Qed.

(** ** Reading a rendered message *)

(** The body: what follows the first empty line, which is the second line, or the third
    of a replay. *)
Definition body_of (s : string) : option string :=
  match Cut nl s with
  | None => None
  | Some (_, r) =>
      match Cut nl r with
      | None => None
      | Some (l2, r2) =>
          if str_empty l2 then Some (TrimSuffix r2 nl_str)
          else match Cut nl r2 with
               | Some (EmptyString, r3) => Some (TrimSuffix r3 nl_str)
               | _ => None
               end
      end
  end.

(** Names, ids and stamps hold no line break. *)
Record plain_row (m : Message) : Prop := {
  pr_from : one_line (m_FromAgent m);
  pr_to : one_line (m_ToAgent m);
  pr_id : one_line (m_PublicID m);
  pr_re : one_line (null_string (m_ReplyTo m));
  pr_replay : one_line (null_string (m_ReplayOfAt m))
}.

Section Zone.
Context (zone : Z -> Z).

Lemma titleCase_line s : one_line s -> one_line (titleCase s).
Proof.
  destruct s as [|a s]; [done|]. unfold one_line. cbn [has_byte titleCase].
  intros [H1 H2]%orb_false_iff. rewrite has_byte_app, H2, orb_false_r. case_match; [|done].
  cbn [has_byte]. rewrite orb_false_r. apply bool_decide_false. apply bool_decide_eq_false in H1. intros E. apply H1.
  revert E. destruct a as [[] [] [] [] [] [] [] []]; vm_compute; congruence.
Qed.

Lemma timed_line a b : one_line a -> one_line b -> one_line (timed a b).
Proof. intros Ha Hb. unfold timed. case_bool_decide; [done|]. repeat apply one_line_app; done. Qed.

Lemma formatDuration_line c t : one_line (formatDuration c t).
Proof.
  unfold formatDuration. destruct (parse_stamp c); [|done]. cbv zeta.
  repeat case_match; try done; repeat apply one_line_app; first [apply itoa_line|done].
Qed.

Lemma formatClock_line iso : one_line (formatClock zone iso).
Proof.
  unfold formatClock. destruct (parse_stamp iso); [|done]. by apply one_line_take, one_line_drop, formatISO_line.
Qed.

Lemma formatStamp_line iso : one_line iso -> one_line (formatStamp zone iso).
Proof.
  intros H. unfold formatStamp. destruct (parse_stamp iso); [|done].
  repeat apply one_line_app; [apply one_line_take, formatISO_line|done|apply one_line_take, one_line_drop, formatISO_line].
Qed.

Lemma marker_line body t : one_line (byteMarkerSuffix body t).
Proof.
  unfold byteMarkerSuffix, formatBytes. cbv zeta. case_match; [done|].
  case_match; repeat apply one_line_app; first [apply itoa_line|done].
Qed.

Lemma header_line m t now : plain_row m -> one_line (messageHeader zone m t now).
Proof.
  intros [Hf Ht Hi Hr _]. unfold messageHeader. cbv zeta.
  assert (one_line (if m_NoReplyExpected m then " · 🔕" else EmptyString)) by by destruct (m_NoReplyExpected m).
  pose proof (marker_line (m_Body m) t). pose proof (formatDuration_line (m_CreatedAt m) (deliveryEnd m now)).
  pose proof (titleCase_line _ Hf). pose proof (titleCase_line _ Ht). pose proof (formatClock_line (m_CreatedAt m)).
  destruct (negb (str_empty (null_string (m_ReplyTo m))));
    repeat apply one_line_app; try done; apply timed_line; try done; by apply one_line_app.
Qed.

Lemma replay_line m : plain_row m -> one_line (replayMarker zone m).
Proof.
  intros H. unfold replayMarker. cbv zeta. case_bool_decide; [done|].
  apply one_line_app; [done|]. by apply formatStamp_line, pr_replay.
Qed.
(** The header names its message: the id stands in it, after its label. *)
Definition names (id s : string) : Prop := exists a b, s = a +:+ " · id " +:+ id +:+ b.

Lemma names_after p id s : names id s -> names id (p +:+ s).
Proof. intros (a & b & ->). exists (p +:+ a), b. by rewrite string_app_assoc. Qed.

Lemma header_names m t now : names (m_PublicID m) (messageHeader zone m t now).
Proof.
  assert (forall rest, names (m_PublicID m) (" · id " +:+ m_PublicID m +:+ rest)) as Hid
    by (intros rest; by exists EmptyString, rest).
  unfold messageHeader. cbv zeta. destruct (negb (str_empty (null_string (m_ReplyTo m)))).
  - do 6 apply names_after. apply Hid.
  - do 4 apply names_after. apply Hid.
Qed.

(** A line of chrome before a text. *)
Definition chromed (x s : string) : Prop := exists c, one_line c /\ s = c +:+ x.

Lemma chromed_after p x s : one_line p -> chromed x s -> chromed x (p +:+ s).
Proof.
  intros Hp (c & Hc & ->). exists (p +:+ c). split; [by apply one_line_app|]. by rewrite string_app_assoc.
Qed.

Lemma quick_chrome m now : plain_row m -> chromed (m_Body m +:+ nl_str) (messageQuickChrome zone m now).
Proof.
  intros [Hf _ _ Hr _]. unfold messageQuickChrome. cbv zeta.
  pose proof (timed_line _ _ (formatClock_line (m_CreatedAt m)) (formatDuration_line (m_CreatedAt m) (deliveryEnd m now))) as Ht.
  apply chromed_after; [done|]. apply chromed_after; [by apply titleCase_line|].
  apply chromed_after; [destruct (negb _); [by apply one_line_app|done]|].
  do 3 (apply chromed_after; [done|]). rewrite string_app_assoc.
  apply chromed_after; [by destruct (m_NoReplyExpected m)|]. by exists EmptyString.
Qed.

(** The line that marks a replay: the instant the original was sent, as a local date and
    time, or as it is stored where it cannot be read. *)
Definition marks_replay (iso line : string) : Prop :=
  exists stamp, line = "↻ Replayed: original sent at " +:+ stamp /\
    match parse_stamp iso with
    | None => stamp = iso
    | Some t => stamp = take 10 (local_text zone t) +:+ " " +:+ take 8 (drop 11 (local_text zone t))
    end.

(** What stands between the header and the body. *)
Definition between (m : Message) (lines : list string) : Prop :=
  if str_empty (null_string (m_ReplayOfAt m)) then lines = [EmptyString]
  else exists line, lines = [line; EmptyString] /\ one_line line /\ marks_replay (null_string (m_ReplayOfAt m)) line.

(** C27: What is pasted for a message carries it whole.  Whatever the body holds (any
    lines, blank ones included), whatever the zone, the threshold and the instant: the
    text of a message that is not quick is a single header line with its id, for a
    replay (and only for one) one line that marks it with the instant the original was
    sent, an empty line, and the body, which is read back byte for byte; the text of a
    quick one is a single line of chrome followed by the body. *)
Theorem rendered_intact m threshold now :
  plain_row m ->
  if m_Quick m
  then chromed (m_Body m +:+ nl_str) (render_Message zone m threshold now)
  else exists header lines,
    one_line header /\ names (m_PublicID m) header /\ between m lines /\
    render_Message zone m threshold now = Join (header :: lines ++ [m_Body m]) nl_str +:+ nl_str /\
    body_of (render_Message zone m threshold now) = Some (m_Body m).
Proof.
  intros H. unfold render_Message. destruct (m_Quick m); [by apply quick_chrome|].
  pose proof (header_line m threshold now H) as Hh. pose proof (replay_line m H) as Hr.
  pose proof (header_names m threshold now) as Hn.
  exists (messageHeader zone m threshold now). cbv zeta. unfold between, marks_replay.
  set (header := messageHeader zone m threshold now) in *. unfold replayMarker in *. cbv zeta in *.
  unfold body_of. case_bool_decide as Erm.
  - rewrite bool_decide_true by done. exists [EmptyString].
    change (header +:+ nl_str +:+ ?x) with (header +:+ String nl x). rewrite (Cut_line header _ Hh).
    split_and!; try done; [unfold Join; cbn [String.concat app]; rewrite !string_app_assoc; done|exact (f_equal Some (TrimSuffix_app (m_Body m) nl_str))].
  - rewrite bool_decide_false by done. set (rm := _ +:+ formatStamp zone _) in *. exists [rm; EmptyString].
    change (header +:+ nl_str +:+ ?x) with (header +:+ String nl x). rewrite (Cut_line header _ Hh).
    change (rm +:+ nl_str +:+ ?x) with (rm +:+ String nl x). rewrite (Cut_line rm _ Hr).
    split_and!; try done.
    + exists rm. split; [done|]. split; [done|]. eexists. split; [reflexivity|]. unfold formatStamp. by case_match.
    + unfold Join; cbn [String.concat app]. by rewrite !string_app_assoc.
    + exact (f_equal Some (TrimSuffix_app (m_Body m) nl_str)).
Qed.
End Zone.

(** A replayed answer with a blank line in its body. *)
Definition replayed_row : Message :=
  mkMessage 7 "9c1d" "surveyor" "bosun" (Some "7f3a") (Join ["first"; EmptyString; "last"] nl_str) KindMessage
    false false StateDelivering "2026-01-01T00:00:00.000Z" None None (Some "77aa")
    (Some "2025-12-31T10:00:00.000Z") None None false 0 false.

Lemma rendered_intact_witness :
  plain_row replayed_row /\
  body_of (render_Message (fun _ => 0) replayed_row 512 1767225604000000000) =
    Some (Join ["first"; EmptyString; "last"] nl_str).
Proof.
  assert (H : plain_row replayed_row) by (split; vm_compute; reflexivity). split; [exact H|].
  destruct (rendered_intact (fun _ => 0) replayed_row 512 1767225604000000000 H) as (h & r & _ & _ & _ & _ & E).
  exact E.
Defined.

(** The case of the first byte is changed, not of the first letter: a name that starts
    with another alphabet's letter is shown broken. *)
Lemma title_breaks_letters : titleCase (of_bytes [195; 188; 98; 101; 114]%nat) = of_bytes [239; 191; 189; 188; 98; 101; 114]%nat.
Proof. vm_compute. reflexivity. Qed.
