(* ===== verification/Hook.v ===== *)
(** * Delivery through a hook (internal/cli/hook.go)

    An agent in hook mode has no mailman: a hook of its session claims what is waiting,
    marks it delivered and hands it over as context.  The payload on the standard input
    is taken as decoded. *)

From stdpp Require Import sorting.
From S2P Require Import Prelude GoStd Clock StoreTypes Priority Messages Queue Agents Lifecycle Invariants QueueProps TmuxIO ObserveGate Mailman Serve ServeDemo RespawnProps Alone Identity Send SendDemo Upkeep Views Render.

Open Scope Z_scope.
Open Scope tell_scope.

Definition defaultHookEventName : string := "UserPromptSubmit".

(** The answer to the session: nothing, or the event and the context to inject. *)
Definition hookOutput : Type := option (string * string).

(** ** The context *)

Definition hook_block (m : Message) : string :=
  nl_str +:+
  match m_ReplyTo m with
  | Some re => "[" +:+ TitleCase (m_FromAgent m) +:+ " → you · re " +:+ re +:+ " · id " +:+ m_PublicID m +:+ "]" +:+ nl_str
  | None => "[" +:+ TitleCase (m_FromAgent m) +:+ " · id " +:+ m_PublicID m +:+ "]" +:+ nl_str
  end +:+ m_Body m +:+ nl_str.

Definition renderHookContext (msgs : list Message) : string :=
  (match msgs with
   | [_] => "📨 1 message from tmux-tell:"
   | _ => "📨 " +:+ Str.itoa (Z.of_nat (length msgs)) +:+ " messages from tmux-tell:"
   end) +:+ nl_str +:+ Str.Join (map hook_block msgs) EmptyString.

(** ** Claiming and marking *)

(** Claim until nothing is left; what was claimed before a failure is forgotten. *)
Fixpoint hook_claim (fuel : nat) (agent : string) (claimed : list Message) : M (result (list Message)) :=
  match fuel with
  | O => out_of_fuel
  | S fuel' =>
      r <! store "ClaimNext" (fun _ d => ClaimNext agent d) ;;
      match r with
      | Err e => go (Err (ErrWrap ("claim: " +:+ error_text e) e))
      | Ok None => go (Ok claimed)
      | Ok (Some m) => hook_claim fuel' agent (claimed ++ [m])
      end
  end.

(** How many were marked, and the error that stopped it. *)
Fixpoint hook_mark (msgs : list Message) (presented : Z) : M (Z * option error) :=
  match msgs with
  | [] => go (presented, None)
  | m :: msgs' =>
      r <! store "MarkDelivered" (fun now d => MarkDelivered (m_PublicID m) now d) ;;
      match r with
      | Err e => go (presented, Some (ErrWrap ("mark delivered " +:+ m_PublicID m +:+ ": " +:+ error_text e) e))
      | Ok _ => hook_mark msgs' (presented + 1)
      end
  end.

Section Hook.
(** The bound on the claims of one hook. *)
Context (fuel : nat).
Context (getenv : string -> string) (BinaryName : string).

(** The output with the number of messages presented, or the error with that number. *)
Definition doHookContext (agent eventName : string) : M (result hookOutput * Z) :=
  a <! query "GetAgent" (GetAgent agent) ;;
  match a with
  | Err e => go (Err (ErrWrap ("get agent " +:+ Str.Quote agent +:+ ": " +:+ error_text e) e), 0)
  | Ok a =>
      if negb (bool_decide (a_delivery_mode a = DeliveryModeHookContext)) then go (Ok None, 0)
      else
        r <! store_ok "RecoverDelivering" (fun _ d => RecoverDelivering agent d) ;;
        match r with
        | Err e => go (Err (ErrWrap ("recover: " +:+ error_text e) e), 0)
        | Ok _ =>
            c <! hook_claim fuel agent [] ;;
            match c with
            | Err e => go (Err e, 0)
            | Ok [] => go (Ok None, 0)
            | Ok claimed =>
                let text := renderHookContext claimed in
                p <! hook_mark claimed 0 ;;
                go (match p with
                    | (n, Some e) => (Err e, n)
                    | (n, None) => (Ok (Some (eventName, text)), n)
                    end)
            end
        end
  end.

(** The event of the flag, of the payload, or the default. *)
Definition hook_event (flag : string) (payload : option string) : string :=
  if negb (str_empty flag) then flag
  else match payload with
       | Some e => if str_empty e then defaultHookEventName else e
       | None => defaultHookEventName
       end.

Definition no_identity_hook : string :=
  "cannot resolve identity: pass --from, set $TMUX_AGENT_NAME, or register this pane".

Definition not_registered_hook (agent : string) : string :=
  "agent " +:+ Str.Quote agent +:+ " is not registered — check --from value, or omit --from to resolve from $TMUX_PANE (run `" +:+
  BinaryName +:+ " register --name " +:+ agent +:+ "` to register)".

Definition runHookContextCLI (from eventFlag : string) (payload : option string) : M (outcome hookOutput) :=
  who <! ResolveIdentity getenv from ;;
  match who with
  | Err e => fail e exitInternal
  | Ok (agent, src) =>
      if str_empty agent then go (Failed no_identity_hook exitUsage)
      else
        known <! (match src with
                  | SourceExplicit =>
                      r <! query "GetAgent" (GetAgent agent) ;; go (match r with Ok _ => true | Err _ => false end)
                  | _ => go true
                  end) ;;
        if negb known then go (Failed (not_registered_hook agent) exitUsage)
        else
          r <! doHookContext agent (hook_event eventFlag payload) ;;
          match r with
          | (Err e, _) => fail e exitInternal
          | (Ok out, _) => go (Done out)
          end
  end.
End Hook.

(** * Correctness of the delivery through a hook

    On a store nobody else writes to, one firing of the hook presents exactly what
    was waiting and leaves it delivered; and a failure halfway through. *)

(** ** A claim among others *)

Section Rows.
Context (agent : string) (d0 : DB) (Hwf : messages_wf d0).

Definition with_row (m m' : Message) : bool := m_ID m =? m_ID m'.

(** The rows of the list are in flight. *)
Definition flown (claimed : list Message) (m : Message) : Message :=
  if existsb (with_row m) claimed then set_m_State StateDelivering m else m.

(** The rows with an instant have been delivered then. *)
Definition landed (claimed : list Message) (nows : Z -> option string) (m : Message) : Message :=
  match nows (m_ID m) with
  | Some now => if existsb (with_row m) claimed then delivered_row 1 now m else m
  | None => flown claimed m
  end.

Definition rows_as (f : Message -> Message) : DB := set_messages (map f (db_messages d0)) d0.

Lemma rows_again f rows : rows = map f (db_messages d0) -> forall rows', set_messages rows (set_messages rows' d0) = rows_as f.
Proof. by intros -> rows'. Qed.

Lemma same_id m m' : m ∈ db_messages d0 -> m' ∈ db_messages d0 -> m_ID m = m_ID m' -> m = m'.
Proof. apply inj_on_NoDup, ids_NoDup, Hwf. Qed.

Lemma same_public m m' :
  m ∈ db_messages d0 -> m' ∈ db_messages d0 -> m_PublicID m = m_PublicID m' -> m = m'.
Proof. apply inj_on_NoDup, Hwf. Qed.

Lemma in_claimed claimed m :
  (forall c, c ∈ claimed -> c ∈ db_messages d0) -> m ∈ db_messages d0 ->
  existsb (with_row m) claimed = true <-> m ∈ claimed.
Proof.
  intros Hc Hm. rewrite existsb_exists. split.
  - intros (c & Hin & E). apply list_elem_of_In in Hin. unfold with_row in E. bsimp.
    by rewrite (same_id m c Hm (Hc _ Hin) E).
  - intros Hin. exists m. split; [by apply list_elem_of_In|]. apply Z.eqb_refl.
Qed.

Lemma flown_id claimed m : m_ID (flown claimed m) = m_ID m.
Proof. unfold flown. by destruct (existsb _ _). Qed.

Lemma rows_as_ids f : (forall m, m_ID (f m) = m_ID m) ->
  map m_ID (db_messages (rows_as f)) = map m_ID (db_messages d0).
Proof. intros H. simpl. rewrite map_map. by apply map_ext. Qed.

Lemma claimable_agents m d : db_agents d = db_agents d0 -> claimable (CanonicalName agent) d m = claimable (CanonicalName agent) d0 m.
Proof. intros E. unfold claimable, backlog_floor. by rewrite E. Qed.

(** What is left to claim. *)
Lemma candidates_flown claimed m :
  (forall c, c ∈ claimed -> c ∈ db_messages d0) ->
  m ∈ candidates agent (rows_as (flown claimed)) <-> m ∈ candidates agent d0 /\ m ∉ claimed.
Proof.
  intros Hc. unfold candidates. rewrite !sql_where_elem. simpl.
  rewrite (claimable_agents m) by done.
  rewrite list_elem_of_In, in_map_iff. split.
  - intros ((m0 & <- & Hin) & Hcl). apply list_elem_of_In in Hin. unfold flown in *.
    destruct (existsb _ _) eqn:E.
    + exfalso. unfold claimable in Hcl. by rowsimp.
    + repeat split; [done|done|]. intros Hm. apply (in_claimed claimed m0 Hc Hin) in Hm. congruence.
  - intros [[Hin Hcl] Hn]. split; [|done]. exists m. split; [|by apply list_elem_of_In].
    unfold flown. destruct (existsb _ _) eqn:E; [|done]. by apply (in_claimed claimed m Hc Hin) in E.
Qed.

Lemma flown_snoc claimed m :
  (forall c, c ∈ claimed -> c ∈ db_messages d0) -> m ∈ db_messages d0 -> m ∉ claimed ->
  sql_update (with_id (m_ID m)) (set_m_State StateDelivering) (map (flown claimed) (db_messages d0)) =
  map (flown (claimed ++ [m])) (db_messages d0).
Proof.
  intros Hc Hm Hn. unfold sql_update. rewrite map_map. apply map_ext_in. intros m0 _.
  unfold with_id. rewrite flown_id. unfold flown. rewrite existsb_app. simpl.
  change (with_row m0 m) with (m_ID m0 =? m_ID m). rewrite orb_false_r.
  destruct (m_ID m0 =? m_ID m) eqn:E; [|by rewrite orb_false_r].
  rewrite orb_true_r. by destruct (existsb _ _).
Qed.

(** One row lands; the others stay. *)
Lemma landed_step all nows m now :
  (forall c, c ∈ all -> c ∈ db_messages d0) -> m ∈ all -> nows (m_ID m) = None ->
  MarkDelivered (m_PublicID m) now (rows_as (landed all nows)) =
  (Ok tt, rows_as (landed all (fun id => if id =? m_ID m then Some now else nows id))).
Proof.
  intros Hc Hm Hnone. pose proof (Hc m Hm) as Hin.
  assert (Eat : landed all nows m = set_m_State StateDelivering m).
  { unfold landed. rewrite Hnone. unfold flown. by rewrite (proj2 (in_claimed all m Hc Hin) Hm). }
  assert (Epub : forall m0, m_PublicID (landed all nows m0) = m_PublicID m0).
  { intros m0. unfold landed, flown. destruct (nows (m_ID m0)); by destruct (existsb _ _). }
  unfold MarkDelivered, markDelivered, update_or_not_found. cbv zeta. f_equal.
  - destruct (sql_affected _ _ =? 0) eqn:E; [|done]. exfalso. apply Z.eqb_eq in E.
    assert (Hrow : landed all nows m ∈ db_messages (rows_as (landed all nows))).
    { apply list_elem_of_In, in_map. by apply list_elem_of_In. }
    pose proof (proj1 (sql_count_zero _ _) E _ Hrow) as H. rewrite Eat in H.
    unfold id_in_state in H. simpl in H. by rewrite !bool_decide_true in H.
  - apply rows_again. simpl. unfold sql_update. rewrite map_map. apply map_ext_in.
    intros m0 Hm0. apply list_elem_of_In in Hm0. unfold id_in_state. rewrite Epub.
    destruct (decide (m0 = m)) as [->|Hne].
    + rewrite Eat. simpl. rewrite !bool_decide_true by done. simpl.
      unfold landed. rewrite Z.eqb_refl, (proj2 (in_claimed all m Hc Hin) Hm). done.
    + rewrite bool_decide_false by (intros E; by apply Hne, same_public). simpl.
      unfold landed. destruct (m_ID m0 =? m_ID m) eqn:E; [|done].
      apply Z.eqb_eq in E. by destruct Hne; apply same_id.
Qed.

Lemma claim_among claimed :
  (forall c, c ∈ claimed -> c ∈ candidates agent d0) ->
  (exists m, ClaimNext agent (rows_as (flown claimed)) = (Ok (Some (set_m_State StateDelivering m)), rows_as (flown (claimed ++ [m]))) /\
     m ∈ candidates agent d0 /\ m ∉ claimed /\
     forall m', m' ∈ candidates agent d0 -> m' ∉ claimed -> m_FromAgent m' = m_FromAgent m -> m_ID m <= m_ID m') \/
  (ClaimNext agent (rows_as (flown claimed)) = (Ok None, rows_as (flown claimed)) /\
     forall m', m' ∈ candidates agent d0 -> m' ∈ claimed).
Proof.
  intros Hc. assert (Hin : forall c, c ∈ claimed -> c ∈ db_messages d0)
    by (intros c H; by apply Hc, sql_where_elem in H as [? _]).
  pose proof (Claim_cases agent StrategyMaxPriority (rows_as (flown claimed))) as H.
  unfold ClaimNext. destruct (ClaimNextWithStrategy _ _ _) as [r d'].
  destruct H as [Hno|m Hm Hfirst _].
  - rewrite rows_as_ids by apply flown_id. apply ids_NoDup, Hwf.
  - right. split; [done|]. intros m' Hm'. destruct (decide (m' ∈ claimed)) as [?|Hn]; [done|]. exfalso.
    apply (not_elem_of_nil m'). rewrite <- Hno. by apply candidates_flown.
  - apply candidates_flown in Hm as [Hm Hn]; [|done]. left. exists m. split; [f_equal|split; [done|split; [done|]]].
    + apply rows_again, flown_snoc; [done| |done]. by apply sql_where_elem in Hm as [? _].
    + intros m' Hm' Hn'. apply Hfirst. by apply candidates_flown.
Qed.
End Rows.

(** ** The loops *)

(** The messages of one sender in the order they were sent. *)
Definition in_turn (m m' : Message) : Prop := m_FromAgent m = m_FromAgent m' -> m_ID m <= m_ID m'.

(** Claimed so far: distinct, in turn, and nobody was overtaken. *)
Record claiming (agent : string) (d0 : DB) (claimed : list Message) : Prop := {
  cl_waiting : forall m, m ∈ claimed -> m ∈ candidates agent d0;
  cl_once : NoDup claimed;
  cl_turn : StronglySorted in_turn claimed;
  cl_front : forall m m', m ∈ claimed -> m' ∈ candidates agent d0 -> m' ∉ claimed -> in_turn m m'
}.

Lemma sorted_at_end {A} (R : A -> A -> Prop) l x :
  StronglySorted R l -> (forall y, y ∈ l -> R y x) -> StronglySorted R (l ++ [x]).
Proof.
  induction 1 as [|y l Hs IH Hall]; simpl; intros Hx; [repeat constructor|].
  constructor; [apply IH; intros z Hz; apply Hx, elem_of_cons; by right|].
  apply Forall_app. split; [done|]. constructor; [apply Hx, elem_of_cons; by left|constructor].
Qed.

Lemma claiming_snoc agent d0 claimed m :
  claiming agent d0 claimed -> m ∈ candidates agent d0 -> m ∉ claimed ->
  (forall m', m' ∈ candidates agent d0 -> m' ∉ claimed -> m_FromAgent m' = m_FromAgent m -> m_ID m <= m_ID m') ->
  claiming agent d0 (claimed ++ [m]).
Proof.
  intros [Hw Ho Ht Hf] Hm Hn Hfirst. split.
  - intros c [Hc|Hc]%elem_of_app; [by apply Hw|]. apply list_elem_of_singleton in Hc. by subst.
  - apply NoDup_app. split; [done|]. split; [|apply NoDup_singleton].
    intros c Hc H. apply list_elem_of_singleton in H. by subst.
  - apply sorted_at_end; [done|]. intros c Hc. by apply Hf.
  - intros c m' [Hc|Hc]%elem_of_app Hm' Hn' E; rewrite elem_of_app in Hn'.
    + apply Hf; auto.
    + apply list_elem_of_singleton in Hc. subst c. apply Hfirst; auto.
Qed.

Lemma claiming_none agent d0 : claiming agent d0 [].
Proof. split; [intros m H; by apply elem_of_nil in H|constructor|constructor|intros m m' H; by apply elem_of_nil in H]. Qed.

Section Loops.
Context (sw : SWorld) (Halone : alone sw) (agent : string) (d0 : DB) (Hwf : messages_wf d0).

(** What the claims leave: everything waiting is in flight. *)
Definition all_claimed (r : result (list Message)) (d : DB) : Prop := exists all,
  r = Ok (map (set_m_State StateDelivering) all) /\ d = rows_as d0 (flown all) /\
  claiming agent d0 all /\ forall m, m ∈ candidates agent d0 -> m ∈ all.

Lemma hook_claim_ends fuel : forall claimed,
  claiming agent d0 claimed -> (length (candidates agent d0) < length claimed + fuel)%nat ->
  ends_in sw (hook_claim fuel agent (map (set_m_State StateDelivering) claimed)) (rows_as d0 (flown claimed)) all_claimed.
Proof.
  induction fuel as [|fuel IH]; intros claimed Hc Hf.
  - exfalso. enough (length claimed <= length (candidates agent d0))%nat by lia.
    apply submseteq_length, NoDup_submseteq; apply Hc.
  - simpl. destruct (claim_among agent d0 Hwf claimed (cl_waiting _ _ _ Hc)) as [(m & E & Hm & Hn & Hfirst)|(E & Hall)].
    + eapply ends_bind.
      { apply (ends_store _ Halone _ _ _ (fun r d => r = Ok (Some (set_m_State StateDelivering m)) /\ d = rows_as d0 (flown (claimed ++ [m])))).
        intros now. by rewrite E. }
      intros r d [-> ->].
      change [set_m_State StateDelivering m] with (map (set_m_State StateDelivering) [m]). rewrite <- map_app.
      apply IH; [by apply claiming_snoc|]. rewrite length_app. simpl. lia.
    + eapply ends_bind.
      { apply (ends_store _ Halone _ _ _ (fun r d => r = Ok None /\ d = rows_as d0 (flown claimed))). intros now. by rewrite E. }
      intros r d [-> ->]. apply ends_go. exists claimed. done.
Qed.

(** What the marks leave: every row of the list has its instant. *)
Lemma hook_mark_ends all : (forall c, c ∈ all -> c ∈ db_messages d0) -> NoDup all ->
  forall rest, forall before nows n, all = before ++ rest ->
  (forall m, m ∈ rest -> nows (m_ID m) = None) -> (forall m, m ∈ before -> nows (m_ID m) <> None) ->
  ends_in sw (hook_mark (map (set_m_State StateDelivering) rest) n) (rows_as d0 (landed all nows))
    (fun r d => r = (n + Z.of_nat (length rest), None) /\
       exists nows', d = rows_as d0 (landed all nows') /\ forall m, m ∈ all -> nows' (m_ID m) <> None).
Proof.
  intros Hin Hnd rest. induction rest as [|m rest IH]; intros before nows n E Hno Hyes; simpl.
  - apply ends_go. split; [by rewrite Z.add_0_r|]. exists nows. split; [done|]. rewrite E, app_nil_r. exact Hyes.
  - assert (Hm : m ∈ all) by (rewrite E; apply elem_of_app; right; apply elem_of_cons; by left).
    eapply ends_bind.
    { apply (ends_store _ Halone _ _ _ (fun r d => r = Ok tt /\ exists now, d = rows_as d0 (landed all (fun id => if id =? m_ID m then Some now else nows id)))).
      intros now. rewrite (landed_step d0 Hwf all nows m now Hin Hm (Hno m ltac:(apply elem_of_cons; by left))).
      split; [done|]. by exists now. }
    intros r d [-> [now ->]].
    rewrite Nat2Z.inj_succ, <- Z.add_1_l, Z.add_assoc. apply (IH (before ++ [m])).
    + by rewrite <- app_assoc.
    + intros m' Hm'. destruct (m_ID m' =? m_ID m) eqn:Eid; [|apply Hno, elem_of_cons; by right].
      exfalso. apply Z.eqb_eq in Eid. assert (Hm'' : m' ∈ all) by (rewrite E; apply elem_of_app; right; apply elem_of_cons; by right).
      apply (same_id d0 Hwf m' m) in Eid; auto. subst m'. rewrite E in Hnd.
      apply NoDup_app in Hnd as (_ & _ & Hnd). by apply NoDup_cons in Hnd as [? _].
    + intros m' [Hm'|Hm']%elem_of_app; destruct (m_ID m' =? m_ID m) eqn:Eid; try done; [by apply Hyes|].
      apply list_elem_of_singleton in Hm'. subst m'. by rewrite Z.eqb_refl in Eid.
Qed.
End Loops.

(** ** The firing *)

Lemma hook_block_state m st : hook_block (set_m_State st m) = hook_block m.
Proof. done. Qed.

Lemma hook_context_state all : renderHookContext (map (set_m_State StateDelivering) all) = renderHookContext all.
Proof.
  assert (E : map hook_block (map (set_m_State StateDelivering) all) = map hook_block all).
  { rewrite map_map. apply map_ext. intros m. apply hook_block_state. }
  unfold renderHookContext. rewrite E, length_map. by destruct all as [|m [|m' all]].
Qed.

(** What has landed is no longer claimable, and nothing else was. *)
Lemma nothing_left agent d0 (all : list Message) f :
  (forall m, m ∈ candidates agent d0 -> m ∈ all) ->
  (forall m, m ∈ db_messages d0 -> m_State (f m) = StateDelivered \/ m ∉ all /\ f m = m) ->
  candidates agent (rows_as d0 f) = [].
Proof.
  intros Hall Hf. apply sql_where_none. intros m' Hm'. simpl in Hm'.
  apply list_elem_of_In, in_map_iff in Hm' as (m & <- & Hm). apply list_elem_of_In in Hm.
  rewrite (claimable_agents agent d0) by done. apply not_true_iff_false. intros Hcl.
  destruct (Hf m Hm) as [Hs|[Hn Hs]].
  - rowsimp. congruence.
  - rewrite Hs in Hcl. apply Hn, Hall. unfold candidates. by apply sql_where_elem.
Qed.

Lemma landed_all d0 all nows : messages_wf d0 -> (forall c, c ∈ all -> c ∈ db_messages d0) ->
  (forall m, m ∈ all -> nows (m_ID m) <> None) ->
  rows_as d0 (landed all nows) =
  rows_as d0 (fun m => if decide (m ∈ all) then delivered_row 1 (default EmptyString (nows (m_ID m))) m else m).
Proof.
  intros Hwf Hin Hyes. unfold rows_as. f_equal. apply map_ext_in. intros m Hm. apply list_elem_of_In in Hm.
  pose proof (in_claimed d0 Hwf all m Hin Hm) as Hc. unfold landed, flown.
  destruct (decide (m ∈ all)) as [Hm'|Hm'].
  - rewrite (proj2 Hc Hm'). specialize (Hyes m Hm'). by destruct (nows (m_ID m)).
  - destruct (existsb _ _); [by destruct Hm'; apply Hc|]. by destruct (nows (m_ID m)).
Qed.


(** ** A concrete hook *)

Definition hook_db : DB :=
  snd (InsertMessage (simple_params "carol" "bob" "second" None) (entropy 2) (entropy 9) t0
    (snd (InsertMessage (simple_params "alice" "bob" "first" None) (entropy 1) (entropy 9) t0
      (snd (SetDeliveryMode "bob" DeliveryModeHookContext t0 bus_db))))).

Lemma hook_wf : store_wf hook_db.
Proof.
  do 2 (eapply store_step_wf; [apply step_InsertMessage|]).
  eapply store_step_wf; [apply step_SetDeliveryMode|]. apply bus_store_wf.
Qed.


(** The second mark fails. *)
Definition second_mark_fails (h : history) : option error :=
  if Nat.ltb (length (List.filter (fun e => match e with EvCall w => bool_decide (w = "MarkDelivered") | _ => false end) h)) 2
  then None else Some (ErrMsg "disk I/O error").

Definition flaky_bus : SWorld :=
  mkSWorld ticking_world demo_walker (fun _ d => d) second_mark_fails
    (fun h k => Some (Z.of_nat k, Z.of_nat (length h))) (fun _ => Qmake 0 1) (fun _ => inl "%1")
    (fun m _ _ => m_Body m) (fun _ => None).

(** A mark that fails after another succeeded presents nothing, but the first message
    stays delivered and verified: the next firing does not show it again. *)
Lemma failed_mark_loses :
  let run := doHookContext 3 "bob" defaultHookEventName flaky_bus (mkS hook_db (initial_vars demo_opts) []) in
  (exists e, fst run = Go (Err e, 1)) /\
  map (fun m => (m_Body m, m_State m, m_Verified m)) (db_messages (s_db (snd run))) =
    [("first", StateDelivered, Some 1); ("second", StateDelivering, None)] /\
  map m_Body (candidates "bob" (snd (RecoverDelivering "bob" (s_db (snd run))))) = ["second"].
Proof. cbv zeta. split; [eexists; vm_compute; reflexivity|]. split; vm_compute; reflexivity. Qed.
