(* ===== verification/Operator.v ===== *)
(** * The commands that set one thing (internal/cli: pause.go, set_metabolism.go,
    set_pane_name.go, set_session_id.go, set_relaunch_cmd.go, set_auto_restart.go,
    set_respawn.go, note_compact.go, restart_mailmen.go; mcp.go)

    Pausing, the self-reports and settings of an agent and the restart of the mailmen,
    on both surfaces.  Flags are taken as decoded. *)

From S2P Require Import Prelude GoStd StoreTypes Agents TmuxIO Mailman Send Identity Upkeep Register Views.

Open Scope Z_scope.
Open Scope tell_scope.

(** ** Pausing *)

Record pausedState : Type := mkPausedState { as_Name : string; as_Paused : bool }.

Inductive pause_answer : Type :=
  | PausedAll (paused : bool) (agents : list pausedState)
  | PausedOne (agent : string) (paused : bool).

Definition action (paused : bool) : string := if paused then "paused" else "resumed".

Definition agentStateRows (l : list pausedState) : list (list string) :=
  map (fun a => [as_Name a; yesNo (as_Paused a)]) l.

Definition runPauseWithStore (target : string) (paused : bool) : M (outcome pause_answer) :=
  if str_empty target then
    r <! store_ok "SetPausedAll" (SetPausedAll paused) ;;
    match r with
    | Err e => fail e exitInternal
    | Ok _ =>
        l <! store_read "ListAgents" ListAgents ;;
        match l with
        | Err e => fail e exitInternal
        | Ok agents => go (Done (PausedAll paused (map (fun a => mkPausedState (a_name a) (a_paused a)) agents)))
        end
    end
  else
    r <! store "SetPaused" (SetPaused target paused) ;;
    match r with
    | Err e => if errors_Is e ErrNotFound then go (Failed ("unknown agent: " +:+ target) exitUnavailable)
               else fail e exitInternal
    | Ok _ => go (Done (PausedOne target paused))
    end.

(** ** The settings, given their target *)

(** The text or the object of a setting, once it is written. *)
Definition answer_as {A} (format : string) (a : A) : outcome A :=
  if bool_decide (format ∈ ["json"; "text"; EmptyString]) then Done a else Failed (unknown_format format) exitUsage.

Definition no_target_text : string :=
  "no target chamber — pass --name <chamber> (or run inside a registered pane to self-target)".

Definition no_session_text : string :=
  "no session id — pass --session-id <UUID>, or run where the target pane's process tree carries the wrapper-injected TMUX_TELL_SESSION_ID".

(** A setting of a named agent: nothing without a target. *)
Definition set_for {V} (what target : string) (v : V) (op : string -> V -> string -> DB -> result unit * DB)
    : M (result (string * V)) :=
  if str_empty target then go (Err (ErrMsg no_target_text))
  else
    r <! store what (fun now d => op target v now d) ;;
    go (match r with Err e => Err e | Ok _ => Ok (target, v) end).

Definition setRespawnAfterShrinks (target : string) (n : Z) : M (result (string * Z)) :=
  set_for "SetRespawnAfterShrinks" target n (fun t n _ d => SetRespawnAfterShrinks t n d).

Definition setRelaunchCmd (target cmd : string) : M (result (string * string)) :=
  set_for "SetRelaunchCmd" target cmd (fun t c _ d => SetRelaunchCmd t c d).

Definition setAutoRestart (target : string) (on : bool) : M (result (string * bool)) :=
  set_for "SetAutoRestart" target on (fun t b _ d => SetAutoRestart t b d).

Definition parseOnOff (v : string) : result bool :=
  let w := Str.ToLower (Str.TrimSpace v) in
  if bool_decide (w ∈ ["on"; "true"; "1"; "yes"; "enable"; "enabled"]) then Ok true
  else if bool_decide (w ∈ ["off"; "false"; "0"; "no"; "disable"; "disabled"]) then Ok false
  else Err (ErrMsg ("invalid value " +:+ Str.Quote v +:+ ": want on|off")).

Record setSessionIDResult : Type := mkSetSession {
  ss_Agent : string;
  ss_SessionID : string;
  ss_Discovered : bool
}.

Definition setSessionID (target sessionID : string) (discovered : bool) : M (result setSessionIDResult) :=
  if str_empty target then go (Err (ErrMsg no_target_text))
  else if str_empty sessionID then go (Err (ErrMsg no_session_text))
  else
    r <! store "SetSessionID" (fun _ d => SetSessionID target sessionID d) ;;
    go (match r with Err e => Err e | Ok _ => Ok (mkSetSession target sessionID discovered) end).

Record setMetabolismResult : Type := mkSetMetabolism {
  sm_Agent : string;
  sm_Metabolism : string;
  sm_MetabolismSetAt : string
}.

Definition no_caller_text : string := "cannot resolve caller identity — run inside a registered tmux pane".

Definition setMetabolism (caller value0 : string) : M (result setMetabolismResult) :=
  let value := Str.TrimSpace value0 in
  if str_empty caller then go (Err (ErrMsg no_caller_text))
  else
    r <! store "SetMetabolism" (SetMetabolism caller value) ;;
    match r with
    | Err e => go (Err e)
    | Ok _ =>
        a <! query "GetAgent" (GetAgent caller) ;;
        go (Ok (mkSetMetabolism caller value
                  (match a with Ok a => null_string (a_metabolism_set_at a) | Err _ => EmptyString end)))
    end.

Section Operator.
Context (getenv : string -> string) (getppid : Z) (environ stat : Z -> option string) (BinaryName : string).

Definition resolve_self : M (result string) := resolveMCPIdentity getenv getppid environ stat BinaryName EmptyString.

(** The name given, or the caller when it can be told. *)
Definition target_or_self (name : string) : M string :=
  let target := Str.TrimSpace name in
  if str_empty target
  then r <! resolve_self ;; go (match r with Ok self => self | Err _ => EmptyString end)
  else go target.

Definition usage_set (what : string) : string := "usage: " +:+ BinaryName +:+ " " +:+ what.

Definition runSetRespawnAfterShrinksCLI (name value format : string) : M (outcome (string * Z)) :=
  let v := Str.TrimSpace value in
  if str_empty v
  then go (Failed (usage_set "set-respawn-after-shrinks [--name <chamber>] <N>   (N >= 0; 0 disables)") exitUsage)
  else match Str.Atoi v with
       | None => go (Failed ("invalid N " +:+ Str.Quote v +:+ ": must be a non-negative integer") exitUsage)
       | Some n =>
           target <! target_or_self name ;;
           r <! setRespawnAfterShrinks target n ;;
           match r with Err e => fail e exitUsage | Ok res => go (answer_as format res) end
       end.

Definition runSetRelaunchCmdCLI (name cmd format : string) : M (outcome (string * string)) :=
  let c := Str.TrimSpace cmd in
  if str_empty c then go (Failed (usage_set "set-relaunch-cmd [--name <chamber>] <command...>") exitUsage)
  else
    target <! target_or_self name ;;
    r <! setRelaunchCmd target c ;;
    match r with Err e => fail e exitUsage | Ok res => go (answer_as format res) end.

Definition runSetAutoRestartCLI (name value format : string) : M (outcome (string * bool)) :=
  let v := Str.TrimSpace value in
  if str_empty v then go (Failed (usage_set "set-auto-restart [--name <chamber>] <on|off>") exitUsage)
  else match parseOnOff v with
       | Err e => fail e exitUsage
       | Ok on =>
           target <! target_or_self name ;;
           r <! setAutoRestart target on ;;
           match r with Err e => fail e exitUsage | Ok res => go (answer_as format res) end
       end.

(** The session of the pane the target is registered with, when none is given. *)
Definition discover_session (target sessionID : string) : M (string * bool) :=
  if negb (str_empty sessionID) || str_empty target then go (sessionID, false)
  else
    a <! query "GetAgent" (GetAgent target) ;;
    match a with
    | Ok a => if str_empty (PaneID a) then go (sessionID, false)
              else r <! ask "SessionIDForPane" (fun sw h => SessionIDForPane (sw_walker sw) h (PaneID a)) ;;
                   go (match r with Some sid => (sid, true) | None => (sessionID, false) end)
    | Err _ => go (sessionID, false)
    end.

Definition runSetSessionIDCLI (name sessionID format : string) : M (outcome setSessionIDResult) :=
  target <! target_or_self name ;;
  s <! discover_session target (Str.TrimSpace sessionID) ;;
  r <! setSessionID target (fst s) (snd s) ;;
  match r with Err e => fail e exitUsage | Ok res => go (answer_as format res) end.

Definition mcpSetSessionID (name sessionID : string) : M (result setSessionIDResult) :=
  setSessionID (Str.TrimSpace name) (Str.TrimSpace sessionID) false.

Definition runSetMetabolismCLI (clear : bool) (value0 format : string) : M (outcome setMetabolismResult) :=
  let value := if clear then EmptyString else Str.TrimSpace value0 in
  if negb clear && str_empty value
  then go (Failed (usage_set "set-metabolism <warming|saturating|compact-pending> (or --clear)") exitUsage)
  else
    who <! resolve_self ;;
    match who with
    | Err e => fail e exitInternal
    | Ok caller =>
        r <! setMetabolism caller value ;;
        match r with Err e => fail e exitUsage | Ok res => go (answer_as format res) end
    end.

Definition mcpSetMetabolism (injected value : string) : M (result setMetabolismResult) :=
  as_tool getenv getppid environ stat BinaryName injected (fun caller => setMetabolism caller value).

(** ** The title of a pane *)

Record setPaneNameResult : Type := mkSetPaneName {
  sp_Agent : string;
  sp_Pane : string;
  sp_Title : string;
  sp_DisplayPersisted : bool;
  sp_DisplayError : string
}.

Definition no_pane_to_title : error := ErrMsg
  "cannot resolve caller pane: $TMUX_PANE is empty and no registered pane to fall back on — run inside a tmux pane or pass --as <name>".

(** The pane and the name of the caller, or of the agent named. *)
Definition resolveCallerPane (override : string) : M (result (string * string)) :=
  who <! ResolveIdentity getenv override ;;
  match who with
  | Err e => go (Err e)
  | Ok (name, SourceExplicit) =>
      a <! query "GetAgent" (GetAgent name) ;;
      go (match a with
          | Err e => Err (ErrWrap ("agent " +:+ Str.Quote name +:+ ": " +:+ error_text e) e)
          | Ok a => if str_empty (PaneID a)
                    then Err (ErrMsg ("agent " +:+ Str.Quote name +:+ " has no registered pane"))
                    else Ok (PaneID a, name)
          end)
  | Ok (name, _) =>
      let own := getenv "TMUX_PANE" in
      pane <! (if str_empty own && negb (str_empty name)
               then a <! query "GetAgent" (GetAgent name) ;;
                    go (match a with Ok a => PaneID a | Err _ => own end)
               else go own) ;;
      go (if str_empty pane then Err no_pane_to_title else Ok (pane, name))
  end.

Definition setPaneName (override title : string) : M (result setPaneNameResult) :=
  if str_empty (Str.TrimSpace title) then go (Err (ErrMsg "name required"))
  else
    p <! resolveCallerPane override ;;
    match p with
    | Err e => go (Err e)
    | Ok (pane, agent) =>
        t <! lift (SetPaneTitle pane title) ;;
        match t with
        | Err e => go (Err e)
        | Ok _ =>
            if str_empty agent then go (Ok (mkSetPaneName agent pane title false EmptyString))
            else
              r <! store "SetDisplayName" (fun _ d => SetDisplayName agent title d) ;;
              go (Ok (match r with
                      | Ok _ => mkSetPaneName agent pane title true EmptyString
                      | Err e => mkSetPaneName agent pane title false (error_text e)
                      end))
        end
    end.

Definition runSetPaneNameCLI (asName title0 format : string) : M (outcome setPaneNameResult) :=
  let title := Str.TrimSpace title0 in
  if str_empty title then go (Failed (usage_set "set-pane-name [--as NAME] <name>") exitUsage)
  else
    r <! setPaneName asName title ;;
    match r with Err e => fail e exitInternal | Ok res => go (answer_as format res) end.

Definition mcpSetPaneName (title : string) : M (result setPaneNameResult) := setPaneName EmptyString title.

(** ** Compactions *)

Definition not_registered_hint (agent : string) (src : IdentitySource) : string :=
  "agent " +:+ Str.Quote agent +:+ " is not registered — " +:+
  match src with
  | SourceExplicit => "omit --from to resolve from $TMUX_PANE"
  | _ => "run `" +:+ BinaryName +:+ " register --name " +:+ agent +:+ "` to register this pane"
  end.

(** The agent whose compaction is noted, with the event of the payload. *)
Definition runNoteCompactCLI (from : string) (payload : option string) : M (outcome (string * string)) :=
  who <! ResolveIdentity getenv from ;;
  match who with
  | Err e => fail e exitInternal
  | Ok (agent, src) =>
      if str_empty agent
      then go (Failed "cannot resolve identity: pass --from, set $TMUX_AGENT_NAME, or register this pane" exitUsage)
      else
        a <! query "GetAgent" (GetAgent agent) ;;
        match a with
        | Err _ => go (Failed (not_registered_hint agent src) exitUsage)
        | Ok _ =>
            r <! store "SetSelfCompactSignal" (SetSelfCompactSignal agent) ;;
            match r with
            | Err e => fail e exitInternal
            | Ok _ => go (Done (agent, null_string payload))
            end
        end
  end.

(** ** Restarting the mailmen *)

Context (systemctl : history -> list string -> string * option error).

(** The agent of a unit of this adapter. *)
Definition mailmanUnitAgent (unit : string) : string :=
  match Str.CutPrefix unit (BinaryName +:+ "-mailman@") with
  | Some rest => Str.TrimSuffix rest ".service"
  | None => EmptyString
  end.

Definition agent_of_line (line : string) : option string :=
  match Str.Fields line with
  | [] => None
  | unit :: _ => let a := mailmanUnitAgent unit in if str_empty a then None else Some a
  end.

Definition runningMailmanAgents : M (result (list string)) :=
  out <! ask "systemctl" (fun _ h => systemctl h ["list-units"; "--type=service"; "--state=active"; "--plain";
                                        "--no-legend"; BinaryName +:+ "-mailman@*.service"]) ;;
  go (match snd out with
      | Some e => Err (ErrWrap ("systemctl list-units: " +:+ error_text e +:+ ": " +:+ Str.TrimSpace (fst out)) e)
      | None => Ok (omap agent_of_line (Str.Lines (fst out)))
      end).

(** The agents whose mailman restarted, and those whose restart failed, in turn. *)
Fixpoint restart_each (agents : list string) : M (list string * list (string * string)) :=
  match agents with
  | [] => go ([], [])
  | a :: agents' =>
      e <! restartMailman BinaryName systemctl a ;;
      rest <! restart_each agents' ;;
      go (match e with
          | None => (a :: fst rest, snd rest)
          | Some e => (fst rest, (a, error_text e) :: snd rest)
          end)
  end.

Definition runRestartMailmen : M (outcome (list string * list (string * string) * Z)) :=
  l <! runningMailmanAgents ;;
  match l with
  | Err e => go (Failed ("list mailman units: " +:+ error_text e) exitInternal)
  | Ok agents =>
      r <! restart_each agents ;;
      go (Done (r, if bool_decide (snd r = []) then exitOK else exitInternal))
  end.
End Operator.
