(* ===== verification/Fleet.v ===== *)
(** * The commands over all agents (internal/cli: discover.go, refresh.go)

    Bringing the registry in line with the panes of the terminal, and restarting the
    servers of every agent. *)

From stdpp Require Import sorting.
From S2P Require Import Prelude GoStd Clock StoreTypes Messages Agents Lifecycle Invariants TmuxIO ObserveGate Mailman Serve ServeDemo RespawnProps Discover Alone Identity Send Control SendDemo Config ServeConfig Upkeep Views Operator.

Open Scope Z_scope.
Open Scope tell_scope.

(** ** Discovering *)

Record discoverResult : Type := mkDiscover {
  dr_Name : string;
  dr_NewPaneID : string;
  dr_OldPaneID : string;
  dr_Source : string;
  dr_Status : string;
  dr_AliasOf : string
}.

Definition Source_string (s : Source) : string :=
  match s with
  | SourceCmdline => "cmdline"
  | SourceTitle => "pane_title"
  | SourceWindowName => "window_name"
  end.

Definition tokenizeForAliasMatch (s : string) : list string := map Str.ToLower (Str.Fields s).

Definition EqualFold (a b : string) : bool := bool_decide (Str.ToLower a = Str.ToLower b).

(** The one agent whose name is a word of the longer name. *)
Definition findCanonicalForAlias (canonicals : list Agent) (discoveredName : string) : string :=
  if str_empty discoveredName then EmptyString
  else
    let tokens := tokenizeForAliasMatch discoveredName in
    match List.filter (fun c => negb (bool_decide (a_name c = discoveredName)) &&
                                existsb (fun tok => EqualFold tok (a_name c)) tokens) canonicals with
    | [c] => a_name c
    | _ => EmptyString
    end.

(** The first pane that was resolved to a name. *)
Definition found (resolved : list Resolved) (name : string) : option Resolved :=
  List.find (fun r => bool_decide (rv_AgentName r = name)) resolved.

(** The agents of the registry. *)
Fixpoint known_each (dryRun : bool) (resolved : list Resolved) (agents : list Agent) : M (result (list discoverResult)) :=
  match agents with
  | [] => go (Ok [])
  | a :: agents' =>
      let and_then (r : discoverResult) :=
        rest <! known_each dryRun resolved agents' ;;
        go (match rest with Err e => Err e | Ok rs => Ok (r :: rs) end) in
      match found resolved (a_name a) with
      | None => and_then (mkDiscover (a_name a) EmptyString (PaneID a) EmptyString "missing" EmptyString)
      | Some v =>
          let res := mkDiscover (a_name a) (rv_PaneID v) (PaneID a) (Source_string (rv_Source v)) in
          if bool_decide (rv_PaneID v = PaneID a) then and_then (res "unchanged" EmptyString)
          else if dryRun then and_then (res "updated" EmptyString)
          else
            u <! store "UpsertAgent" (UpsertAgent (a_name a) (rv_PaneID v)) ;;
            match u with Err e => go (Err e) | Ok _ => and_then (res "updated" EmptyString) end
      end
  end.

(** The names without a row: an alias of an agent, or a new one. *)
Fixpoint new_each (dryRun applyAliases : bool) (existing : list Agent) (fresh : list Resolved)
    : M (result (list discoverResult)) :=
  match fresh with
  | [] => go (Ok [])
  | v :: fresh' =>
      let name := rv_AgentName v in
      let and_then (r : discoverResult) :=
        rest <! new_each dryRun applyAliases existing fresh' ;;
        go (match rest with Err e => Err e | Ok rs => Ok (r :: rs) end) in
      let res := mkDiscover name (rv_PaneID v) EmptyString (Source_string (rv_Source v)) in
      let canonical := findCanonicalForAlias existing name in
      if negb (str_empty canonical) then
        if applyAliases && negb dryRun then
          al <! store "AddAlias" (AddAlias canonical name) ;;
          match al with
          | Err e => go (Err (ErrMsg ("add alias " +:+ Str.Quote name +:+ " on " +:+ Str.Quote canonical +:+ ": " +:+ error_text e)))
          | Ok _ =>
              u <! store "UpsertAgent" (UpsertAgent canonical (rv_PaneID v)) ;;
              match u with Err e => go (Err e) | Ok _ => and_then (res "alias_added" canonical) end
          end
        else and_then (res "alias_proposed" canonical)
      else if dryRun then and_then (res "new" EmptyString)
      else
        u <! store "UpsertAgent" (UpsertAgent name (rv_PaneID v)) ;;
        match u with Err e => go (Err e) | Ok _ => and_then (res "new" EmptyString) end
  end.

Section Discover.
(** What the walker finds, and the order in which a map is ranged over. *)
Context (walk : history -> result (list Resolved)) (order : list Resolved -> list Resolved).

(** The first pane of each name. *)
Fixpoint firsts (seen : list string) (resolved : list Resolved) : list Resolved :=
  match resolved with
  | [] => []
  | v :: rest =>
      if bool_decide (rv_AgentName v ∈ seen) then firsts seen rest
      else v :: firsts (rv_AgentName v :: seen) rest
  end.

Definition unknown_names (existing : list Agent) (resolved : list Resolved) : list Resolved :=
  List.filter (fun v => negb (bool_decide (rv_AgentName v ∈ map a_name existing))) (firsts [] resolved).

Definition runDiscoverWithStore (dryRun applyAliases : bool) (format : string) : M (outcome (list discoverResult)) :=
  w <! ask "WalkAll" (fun _ h => walk h) ;;
  match w with
  | Err e => fail e exitInternal
  | Ok resolved =>
      l <! store_read "ListAgents" ListAgents ;;
      match l with
      | Err e => fail e exitInternal
      | Ok existing =>
          k <! known_each dryRun resolved existing ;;
          match k with
          | Err e => fail e exitInternal
          | Ok known =>
              n <! new_each dryRun applyAliases existing (order (unknown_names existing resolved)) ;;
              match n with
              | Err e => fail e exitInternal
              | Ok fresh => if bool_decide (format ∈ ["json"; "text"; EmptyString]) then go (Done (known ++ fresh))
                            else go (Failed (unknown_format format) exitUsage)
              end
          end
      end
  end.
End Discover.

(** ** Refreshing the servers of all agents *)

Definition refreshMethodControlMacro : string := "control-macro".
Definition refreshMethodCodexSessionRestart : string := "codex-session-restart".
Definition defaultCodexSessionRestartCmd : string := "/srv/scripts/chamber-codex.sh".
Definition provider_OpenAI : string := "openai".

Record refreshAgentEntry : Type := mkEntry {
  re_Name : string;
  re_OK : bool;
  re_Method : string;
  re_DisableID : string;
  re_EnableID : string;
  re_Warning : string;
  re_Error : string
}.

Record refreshResult : Type := mkRefresh {
  rf_OK : bool;
  rf_Sender : string;
  rf_Total : Z;
  rf_Queued : Z;
  rf_Restarted : Z;
  rf_Failed : Z;
  rf_Agents : list refreshAgentEntry
}.

Record refreshOptions : Type := mkRefreshOptions {
  ro_Config : option Config.File;
  ro_CodexSessionRestartCmd : string;
  ro_CodexSessionRestartCmdSet : bool
}.

Definition quote1 : ascii := Ascii.ascii_of_nat 39.

(** ['] is closed, quoted and opened again. *)
Definition shellQuote (s : string) : string :=
  String quote1 (Str.ReplaceByte quote1 (Str.of_bytes [39; 34; 39; 34; 39]%nat) s) +:+ String quote1 EmptyString.

Section Refresh.
(** Whether the default restart script exists. *)
Context (default_cmd_exists : bool).

Definition resolveCodexSessionRestartCommand (agent : string) (o : refreshOptions) : result string :=
  if ro_CodexSessionRestartCmdSet o then
    if str_empty (ro_CodexSessionRestartCmd o) then Err (ErrMsg "codex session restart command is empty")
    else Ok (ro_CodexSessionRestartCmd o)
  else
    let cfgCmd := Config.ResolveString (ro_Config o) agent "codex-session-restart-command" EmptyString in
    if negb (str_empty cfgCmd) then Ok cfgCmd
    else if default_cmd_exists then Ok defaultCodexSessionRestartCmd
    else Err (ErrMsg "codex session restart command not configured; set --codex-session-restart-command or TOML codex-session-restart-command").

Definition restart_command (cwd restartCmd name : string) : string :=
  "cd " +:+ shellQuote cwd +:+ " && exec " +:+ shellQuote restartCmd +:+ " " +:+ shellQuote name.

Definition restart_error (name : string) (e : error) : error :=
  ErrWrap ("codex session restart for " +:+ name +:+ ": " +:+ error_text e) e.

Definition refreshCodexSession (a : Agent) (o : refreshOptions) : M (option error) :=
  if str_empty (PaneID a)
  then go (Some (ErrMsg ("codex session restart for " +:+ a_name a +:+ ": no pane registered")))
  else match resolveCodexSessionRestartCommand (a_name a) o with
       | Err e => go (Some e)
       | Ok restartCmd =>
           p <! lift (PaneCurrentPath (PaneID a)) ;;
           match p with
           | Err e => go (Some (restart_error (a_name a) e))
           | Ok cwd =>
               r <! lift (RespawnPane (PaneID a) (restart_command cwd restartCmd (a_name a))) ;;
               go (match r with Err e => Some (restart_error (a_name a) e) | Ok _ => None end)
           end
       end.

Definition provider_warning : string :=
  "provider empty; used legacy control macro, which may be a no-op for Codex adapters".

(** One agent: restarted, or sent the pair of commands. *)
Definition refresh_agent (sender : string) (maxSender : Z) (o : refreshOptions) (a : Agent) : M refreshAgentEntry :=
  let failed method w e := mkEntry (a_name a) false method EmptyString EmptyString w e in
  p <! store_read "ProviderCapConfig" (ProviderCapConfig (a_name a)) ;;
  match p with
  | Err e => go (failed refreshMethodControlMacro EmptyString ("read provider config: " +:+ error_text e))
  | Ok (providerID, _) =>
      if bool_decide (providerID = provider_OpenAI) then
        e <! refreshCodexSession a o ;;
        go (match e with
            | Some e => failed refreshMethodCodexSessionRestart EmptyString (error_text e)
            | None => mkEntry (a_name a) true refreshMethodCodexSessionRestart EmptyString EmptyString EmptyString EmptyString
            end)
      else
        let w := if str_empty providerID then provider_warning else EmptyString in
        c <! doControl (mkControl sender (a_name a) "mcp-restart-tmux-tell" EmptyString false EmptyString
                          Control.capRecipientQueue maxSender capBodyBytes) ;;
        go (match c with
            | Err e => failed refreshMethodControlMacro w (error_text e)
            | Ok res => mkEntry (a_name a) true refreshMethodControlMacro (cr_ID res) (cr_EnableID res) w EmptyString
            end)
  end.

Definition how_many (p : refreshAgentEntry -> bool) (l : list refreshAgentEntry) : Z := Z.of_nat (length (List.filter p l)).

Definition by_method (method : string) (e : refreshAgentEntry) : bool := re_OK e && bool_decide (re_Method e = method).

Definition refresh_result (sender : string) (entries : list refreshAgentEntry) : refreshResult :=
  mkRefresh (forallb re_OK entries) sender (Z.of_nat (length entries))
    (how_many (by_method refreshMethodControlMacro) entries)
    (how_many (by_method refreshMethodCodexSessionRestart) entries)
    (how_many (fun e => negb (re_OK e)) entries) entries.

Definition runRefreshAllMcps (sender format : string) (o : refreshOptions) : M (outcome (refreshResult * Z)) :=
  l <! store_read "ListAgents" ListAgents ;;
  match l with
  | Err e => go (Failed ("list agents: " +:+ error_text e) exitInternal)
  | Ok agents0 =>
      let agents := merge_sort name_le agents0 in
      let maxSender := 2 * Z.of_nat (length agents) + Control.capSenderBacklog in
      entries <! each_row (refresh_agent sender maxSender o) agents ;;
      let res := refresh_result sender entries in
      if bool_decide (format ∈ ["json"; "text"; EmptyString])
      then go (Done (res, if rf_OK res then exitOK else exitInternal))
      else go (Failed (unknown_format format) exitUsage)
  end.

Section CLI.
Context (getenv : string -> string).

Definition runRefreshAllMcpsCLI (cfg : Config.File * option error) (from format : string) (cmd : option string)
    : M (outcome (refreshResult * Z)) :=
  who <! ResolveIdentity getenv from ;;
  match who with
  | Err e => fail e exitUnavailable
  | Ok (sender, _) =>
      if str_empty sender
      then go (Failed ("cannot resolve sender identity: set $TMUX_AGENT_NAME, or register this pane (TMUX_PANE=" +:+
                       getenv "TMUX_PANE" +:+ ") in the agents table") exitUnavailable)
      else match cfg with
           | (_, Some e) => go (Failed ("load config: " +:+ error_text e) exitDataErr)
           | (f, None) =>
               runRefreshAllMcps sender format
                 (mkRefreshOptions (Some f) (null_string cmd) (match cmd with Some _ => true | None => false end))
           end
  end.
End CLI.

(** ** The text of a refresh *)

Definition pad_right (w : Z) (s : string) : string :=
  s +:+ Str.Repeat " " (Z.to_nat (w - Str.RuneCountInString s)).

Definition refresh_line (e : refreshAgentEntry) : string :=
  let name := "  " +:+ pad_right 16 (re_Name e) in
  if re_OK e then
    if bool_decide (re_Method e = refreshMethodCodexSessionRestart) then name +:+ " ok method=" +:+ re_Method e
    else name +:+ " ok method=" +:+ re_Method e +:+ " disable=" +:+ re_DisableID e +:+ " enable=" +:+ re_EnableID e +:+
         (if str_empty (re_Warning e) then EmptyString else " warning=" +:+ Str.Quote (re_Warning e))
  else name +:+ " FAILED method=" +:+ re_Method e +:+ " " +:+ re_Error e.

Definition renderRefreshText (r : refreshResult) : list string :=
  ("refresh-all-mcps from=" +:+ rf_Sender r +:+ " total=" +:+ Str.itoa (rf_Total r) +:+ " queued=" +:+
   Str.itoa (rf_Queued r) +:+ " restarted=" +:+ Str.itoa (rf_Restarted r) +:+ " failed=" +:+ Str.itoa (rf_Failed r)) ::
  (if bool_decide (rf_Agents r = []) then ["  (no agents registered)"] else map refresh_line (rf_Agents r)).
End Refresh.

(** * The commands over all agents: what they type, and what they miss

    The restart of a session passes its words through a shell unharmed; concrete runs
    show where discovery and the settings do not do what they say. *)

Import StrFacts.

(** ** A shell reading its words *)

Inductive quoting : Type := Plain | Single | Double.

Definition dquote1 : ascii := Ascii.ascii_of_nat 34.
Definition blank1 : ascii := Ascii.ascii_of_nat 32.

(** Bytes without a meaning of their own outside quotes; [&] only for the word [&&]. *)
Definition plain_byte (a : ascii) : bool :=
  alnum a || existsb (fun n => (Ascii.nat_of_ascii a =? n)%nat) [38; 45; 46; 47; 95]%nat.

(** What expands inside double quotes: dollar, backquote, backslash. *)
Definition expands (a : ascii) : bool := existsb (fun n => (Ascii.nat_of_ascii a =? n)%nat) [36; 96; 92]%nat.

Definition push (w : option string) (a : ascii) : option string := Some (default EmptyString w +:+ String a EmptyString).

(** POSIX word splitting of texts that need no expansion; [None] for any other text. *)
Fixpoint sh_words (q : quoting) (w : option string) (s : string) : option (list string) :=
  match s with
  | EmptyString =>
      match q with Plain => Some (match w with Some x => [x] | None => [] end) | _ => None end
  | String a s' =>
      match q with
      | Plain =>
          if bool_decide (a = blank1) then
            option_map (fun l => match w with Some x => x :: l | None => l end) (sh_words Plain None s')
          else if bool_decide (a = quote1) then sh_words Single (Some (default EmptyString w)) s'
          else if bool_decide (a = dquote1) then sh_words Double (Some (default EmptyString w)) s'
          else if plain_byte a then sh_words Plain (push w a) s' else None
      | Single => if bool_decide (a = quote1) then sh_words Plain w s' else sh_words Single (push w a) s'
      | Double =>
          if bool_decide (a = dquote1) then sh_words Plain w s'
          else if expands a then None else sh_words Double (push w a) s'
      end
  end.

Lemma in_single s : forall w rest,
  sh_words Single (Some w) (Str.ReplaceByte quote1 (Str.of_bytes [39; 34; 39; 34; 39]%nat) s +:+ String quote1 rest) =
  sh_words Plain (Some (w +:+ s)) rest.
Proof.
  induction s as [|a s IH]; intros w rest.
  - change (sh_words Plain (Some w) rest = sh_words Plain (Some (w +:+ EmptyString)) rest). by rewrite string_app_nil_r.
  - cbn [Str.ReplaceByte]. destruct (decide (a = quote1)) as [->|Hne].
    + change (sh_words Single (Some ((w +:+ String quote1 EmptyString)))
                (Str.ReplaceByte quote1 (Str.of_bytes [39; 34; 39; 34; 39]%nat) s +:+ String quote1 rest) =
              sh_words Plain (Some (w +:+ String quote1 s)) rest).
      rewrite IH. do 2 f_equal. by rewrite string_app_assoc.
    + rewrite bool_decide_false by done.
      change (sh_words Single (Some w) (String a (Str.ReplaceByte quote1 (Str.of_bytes [39; 34; 39; 34; 39]%nat) s +:+ String quote1 rest)) =
              sh_words Plain (Some (w +:+ String a s)) rest).
      cbn [sh_words]. rewrite bool_decide_false by done. unfold push. cbn [default]. rewrite IH.
      do 2 f_equal. by rewrite string_app_assoc.
Qed.

Lemma quoted_word s w rest :
  sh_words Plain w (shellQuote s +:+ rest) = sh_words Plain (Some (default EmptyString w +:+ s)) rest.
Proof.
  unfold shellQuote. rewrite string_app_assoc.
  change (sh_words Plain w (String quote1 (Str.ReplaceByte quote1 (Str.of_bytes [39; 34; 39; 34; 39]%nat) s +:+ String quote1 rest)) =
          sh_words Plain (Some (default EmptyString w +:+ s)) rest).
  cbn [sh_words]. rewrite bool_decide_false by done. rewrite bool_decide_true by done. apply in_single.
Qed.

(** The directory, the command and the name of a session reach the shell as they
    are.  Whatever the three texts hold (blanks, quotes, any punctuation), a POSIX
    shell splits the command line of a restart into the six words cd, directory, &&,
    exec, command and name, and nothing in them is expanded or run. *)
Theorem restart_words_intact cwd cmd name :
  sh_words Plain None (restart_command cwd cmd name) = Some ["cd"; cwd; "&&"; "exec"; cmd; name].
Proof.
  unfold restart_command.
  change (sh_words Plain None ("cd " +:+ shellQuote cwd +:+ " && exec " +:+ shellQuote cmd +:+ " " +:+ shellQuote name))
    with (option_map (cons "cd") (sh_words Plain None (shellQuote cwd +:+ " && exec " +:+ shellQuote cmd +:+ " " +:+ shellQuote name))).
  rewrite quoted_word.
  change (sh_words Plain (Some (default EmptyString None +:+ cwd)) (" && exec " +:+ shellQuote cmd +:+ " " +:+ shellQuote name))
    with (option_map (cons cwd) (option_map (cons "&&") (option_map (cons "exec")
            (sh_words Plain None (shellQuote cmd +:+ " " +:+ shellQuote name))))).
  rewrite quoted_word.
  change (sh_words Plain (Some (default EmptyString None +:+ cmd)) (" " +:+ shellQuote name))
    with (option_map (cons cmd) (sh_words Plain None (shellQuote name))).
  rewrite <- (string_app_nil_r (shellQuote name)), quoted_word. done.
Qed.

(** ** Concrete runs *)

Local Notation on d := (mkS d (initial_vars demo_opts) []).

Definition no_env (_ : string) : string := EmptyString.
Definition no_proc (_ : Z) : option string := None.

(** A setting is written before its output format is looked at: the command fails, and
    the setting has changed. *)
Lemma bad_format_has_written :
  let r := runSetAutoRestartCLI no_env 1 no_proc no_proc "tmux-tell-claude" "bob" "on" "yaml" bus (on bus_db) in
  fst r = Go (Failed "unknown --format: yaml" exitUsage) /\
  option_map a_auto_restart (db_agents (s_db (snd r)) !! "bob") = Some true.
Proof. cbv zeta. split; vm_compute; reflexivity. Qed.

(** A session named after an agent, but with a capital: the agent counts as missing, its
    pane is not recorded, and its own name is proposed to it as an alias. *)
Lemma capital_name_is_missed :
  let walk _ := Ok [mkResolved "%9" "Alice" SourceCmdline] in
  let r := runDiscoverWithStore walk id false false "json" bus (on bus_db) in
  (exists l, fst r = Go (Done l) /\
     map (fun v => (dr_Name v, dr_Status v, dr_AliasOf v)) l =
       [("alice", "missing", EmptyString); ("bob", "missing", EmptyString); ("carol", "missing", EmptyString);
        ("Alice", "alias_proposed", "alice")]) /\
  s_db (snd r) = bus_db.
Proof. cbv zeta. split; [eexists; split; vm_compute; reflexivity|vm_compute; reflexivity]. Qed.

(** The backlog of a sender is counted per recipient: with the usual limit of two the
    pair of commands fits for every agent, so the limit need not grow with their number. *)
Lemma sender_cap_is_per_recipient :
  let send to := doControl (mkControl "alice" to "mcp-restart-tmux-tell" EmptyString false EmptyString
                   Control.capRecipientQueue Control.capSenderBacklog capBodyBytes) in
  let r := (a <! send "bob" ;; b <! send "carol" ;; go (a, b)) bus (on bus_db) in
  (exists a b, fst r = Go (Ok a, Ok b)) /\
  map (fun m => (m_ToAgent m, m_Body m)) (db_messages (s_db (snd r))) =
    [("bob", "/mcp disable tmux-tell"); ("bob", "/mcp enable tmux-tell");
     ("carol", "/mcp disable tmux-tell"); ("carol", "/mcp enable tmux-tell")].
Proof. cbv zeta. split; [do 2 eexists; vm_compute; reflexivity|vm_compute; reflexivity]. Qed.
