(* ===== verification/Tail.v ===== *)
(** * Watching the bus (internal/cli/tail.go)

    The firehose polls for rows above the last id it saw and looks again at those that
    were still on their way.  It only ends when it is cancelled or the store fails, so
    a run is cut after a number of polls. *)

From stdpp Require Import gmap sorting.
From S2P Require Import Prelude GoStd Clock StoreTypes Priority Messages Queue Agents Queries Lifecycle Invariants TmuxIO Mailman Serve ServeDemo RespawnProps Send SendDemo Config Window ServeConfig Upkeep Views.

Open Scope Z_scope.
Open Scope tell_scope.

Definition tailDefaultInterval : Z := 300 * Time.Millisecond.
Definition tailFetchCap : Z := 1000.
Definition tailPreviewLn : Z := 60.

Record tailOpts : Type := mkTailOpts {
  to_filter : TailFilter;
  to_state : string;
  to_interval : Z;
  to_format : string
}.

Record tailState : Type := mkTailState {
  ts_lastID : Z;
  ts_pending : gmap Z State
}.

Definition newTailState : tailState := mkTailState 0 ∅.

(** A row that is new, or that left the state it was in. *)
Record tail_change : Type := mkChange {
  tc_prev : option State;
  tc_row : Message
}.

Definition validTailState (s : string) : bool :=
  bool_decide (s ∈ map State_string [StateQueued; StateDelivering; StateDelivered; StateFailed]).

Definition ended (s : State) : bool := isTerminalState (State_string s).

(** The state and the changes so far, the last one first. *)
Definition see_new (acc : tailState * list tail_change) (m : Message) : tailState * list tail_change :=
  let (ts, told) := acc in
  (mkTailState (Z.max (ts_lastID ts) (m_ID m))
     (if ended (m_State m) then ts_pending ts else <[m_ID m := m_State m]> (ts_pending ts)),
   mkChange None m :: told).

Definition see_again (acc : tailState * list tail_change) (m : Message) : tailState * list tail_change :=
  let (ts, told) := acc in
  match ts_pending ts !! m_ID m with
  | None => acc
  | Some prev =>
      if bool_decide (m_State m = prev) then acc
      else (mkTailState (ts_lastID ts)
              (if ended (m_State m) then delete (m_ID m) (ts_pending ts) else <[m_ID m := m_State m]> (ts_pending ts)),
            mkChange (Some prev) m :: told)
  end.

Definition pending_ids (ts : tailState) : list Z := merge_sort Z.le (map fst (map_to_list (ts_pending ts))).

Definition tail_poll (opts : tailOpts) (ts : tailState) (told : list tail_change)
    : M (tailState * list tail_change * option error) :=
  r <! store_read "TailRows" (TailRows (ts_lastID ts) (to_filter opts) tailFetchCap) ;;
  match r with
  | Err e => go (ts, told, Some e)
  | Ok rows =>
      let (ts, told) := foldl see_new (ts, told) rows in
      if bool_decide (ts_pending ts = ∅) then go (ts, told, None)
      else
        c <! store_read "MessagesByIDs" (MessagesByIDs (pending_ids ts)) ;;
        go (match c with
            | Err e => (ts, told, Some e)
            | Ok cur => (foldl see_again (ts, told) cur, None)
            end)
  end.

(** Cancelled, failed, or still polling when the run was cut. *)
Inductive tail_end : Type :=
  | TailCancelled
  | TailFailed (e : error)
  | TailPolling.

Fixpoint tailLoop (polls : nat) (opts : tailOpts) (ts : tailState) (told : list tail_change)
    : M (tailState * list tail_change * tail_end) :=
  match polls with
  | O => go (ts, told, TailPolling)
  | S polls' =>
      r <! tail_poll opts ts told ;;
      match r with
      | (ts, told, Some e) =>
          c <! lift ctx_Err ;;
          go (ts, told, match c with Some _ => TailCancelled | None => TailFailed e end)
      | (ts, told, None) =>
          c <! lift (wait (to_interval opts)) ;;
          match c with
          | Some _ => go (ts, told, TailCancelled)
          | None => tailLoop polls' opts ts told
          end
      end
  end.

(** ** What is shown *)

(** The changes of the state asked for. *)
Definition tail_rendered (opts : tailOpts) (c : tail_change) : bool :=
  str_empty (to_state opts) || bool_decide (State_string (m_State (tc_row c)) = to_state opts).

Fixpoint hhmmss_from (all s : string) : string :=
  match s with
  | EmptyString => all
  | String a s' => if bool_decide (a = "T"%char) && (8 <=? String.length s')%nat then Str.take 8 s' else hhmmss_from all s'
  end.
Definition hhmmss (iso : string) : string := hhmmss_from iso iso.

Definition tail_oneLine (body : string) : string := Str.Join (Str.Fields body) " ".

Definition pad_col (w : Z) (s : string) : string := s +:+ Str.Repeat " " (Z.to_nat (w - Str.RuneCountInString s)).

Definition renderTailText (c : tail_change) : string :=
  let m := tc_row c in
  let stamp := let at_ := null_string (m_DeliveredAt m) in if str_empty at_ then m_CreatedAt m else at_ in
  let status := match tc_prev c with
                | Some prev => State_string prev +:+ "→" +:+ State_string (m_State m)
                | None => State_string (m_State m)
                end in
  let preview := shortBody (tail_oneLine (m_Body m)) tailPreviewLn in
  hhmmss stamp +:+ "  " +:+ pad_col 18 status +:+ "  " +:+ m_PublicID m +:+ " " +:+ m_FromAgent m +:+ "→" +:+ m_ToAgent m +:+
  (if bool_decide (m_Kind m = KindMessage) then EmptyString else " [" +:+ Kind_string (m_Kind m) +:+ "]") +:+
  (if m_NoReplyExpected m then " 🔕" else EmptyString) +:+
  match tc_prev c with
  | Some _ => EmptyString
  | None => if str_empty preview then EmptyString else "  (" +:+ preview +:+ ")"
  end.

(** The object of a change. *)
Record tailEvent : Type := mkTailEvent {
  te_Event : string;
  te_ID : string;
  te_From : string;
  te_To : string;
  te_Kind : string;
  te_State : string;
  te_PrevState : string;
  te_CreatedAt : string;
  te_DeliveredAt : string;
  te_Body : string
}.

Definition tail_object (c : tail_change) : tailEvent :=
  let m := tc_row c in
  mkTailEvent (match tc_prev c with Some _ => "transition" | None => "new" end) (m_PublicID m) (m_FromAgent m)
    (m_ToAgent m) (Kind_string (m_Kind m)) (State_string (m_State m))
    (match tc_prev c with Some prev => State_string prev | None => EmptyString end)
    (m_CreatedAt m) (null_string (m_DeliveredAt m)) (m_Body m).

Section CLI.
Context (midnight : Z -> Z -> Z).

(** What was shown, and how the command ended: an exit code or an error. *)
Definition runTailCLI (polls : nat) (from to kind state since : string) (interval : Z) (format : string)
    : M (list tail_change * outcome Z) :=
  if negb (str_empty state) && negb (validTailState state)
  then go ([], Failed ("invalid --state " +:+ Str.Quote state +:+ " (want queued|delivering|delivered|failed)") exitUsage)
  else if interval <=? 0 then go ([], Failed "--interval must be positive" exitUsage)
  else
    now <! lift time_Now ;;
    match parseWindow midnight since now with
    | Err e => go ([], Failed (error_text e) exitUsage)
    | Ok w =>
        let floor := match w with All => EmptyString | Since t => Time.formatISO t end in
        let opts := mkTailOpts (mkTailFilter from to kind floor) state interval format in
        r <! tailLoop polls opts newTailState [] ;;
        let '(_, told, e) := r in
        let shown := List.filter (tail_rendered opts) (rev told) in
        match e with
        | TailCancelled => go (shown, Done exitOK)
        | TailFailed e => go (shown, Failed (error_text e) exitInternal)
        | TailPolling => out_of_fuel
        end
    end.
End CLI.

(** * Correctness of the firehose

    Whatever the other processes do between the polls, what is shown of every row is
    its announcement followed by the states it was seen in, and after a poll nothing
    that could be shown is missing. *)

(** ** What is told *)

(** The state a row was last shown in. *)
Fixpoint last_told (told : list tail_change) (id : Z) : option State :=
  match told with
  | [] => None
  | c :: told' => if m_ID (tc_row c) =? id then Some (m_State (tc_row c)) else last_told told' id
  end.

(** Latest change first: a row is announced once, ids growing, and then only told to
    have left the state it was last shown in, while that was not its last. *)
Inductive told_right : list tail_change -> Prop :=
  | told_nothing : told_right []
  | told_new m told :
      told_right told -> (forall c, c ∈ told -> m_ID (tc_row c) < m_ID m) -> told_right (mkChange None m :: told)
  | told_change prev m told :
      told_right told -> last_told told (m_ID m) = Some prev -> ended prev = false -> m_State m <> prev ->
      told_right (mkChange (Some prev) m :: told).

(** The rows the filter is for. *)
Definition selected (f : TailFilter) (m : Message) : bool :=
  (str_empty (CanonicalName (tf_From f)) || bool_decide (m_FromAgent m = CanonicalName (tf_From f))) &&
  (str_empty (CanonicalName (tf_To f)) || bool_decide (m_ToAgent m = CanonicalName (tf_To f))) &&
  (str_empty (tf_Kind f) || bool_decide (Kind_string (m_Kind m) = tf_Kind f)) &&
  (str_empty (tf_SinceCreatedAt f) || Str.leb (tf_SinceCreatedAt f) (m_CreatedAt m)).

Lemma selected_letter f m m' : same_letter m m' -> selected f m' = selected f m.
Proof. intros (_ & _ & Ef & Et & _ & _ & Ek & Ec & _). unfold selected. by rewrite Ef, Et, Ek, Ec. Qed.

(** The watcher's memory agrees with what it told and with the store. *)
Record tracked (f : TailFilter) (ts : tailState) (told : list tail_change) (d : DB) : Prop := {
  tk_right : told_right told;
  tk_below : forall c, c ∈ told -> m_ID (tc_row c) <= ts_lastID ts;
  tk_pending : forall id s, ts_pending ts !! id = Some s <-> last_told told id = Some s /\ ended s = false;
  tk_all : forall m, m ∈ db_messages d -> selected f m = true -> m_ID m <= ts_lastID ts -> last_told told (m_ID m) <> None;
  tk_last : ts_lastID ts <= db_seq d
}.

Lemma last_told_None told id : (forall c, c ∈ told -> m_ID (tc_row c) < id) -> last_told told id = None.
Proof.
  induction told as [|c told IH]; intros H; [done|]. simpl.
  assert (m_ID (tc_row c) < id) by (apply H, elem_of_cons; by left).
  rewrite (proj2 (Z.eqb_neq _ _)) by lia. apply IH. intros c' Hc'. apply H, elem_of_cons. by right.
Qed.

(** The others do not disturb it. *)
Lemma tracked_steps f ts told d d' : store_wf d -> store_steps d d' -> tracked f ts told d -> tracked f ts told d'.
Proof.
  intros Hw Hs [Hr Hb Hp Ha Hl]. destruct (steps_aged d d' Hs Hw) as [Hseq Hrows]. split; [done..| |lia].
  intros m' Hm' Hsel Hid. destruct (Hrows m' Hm') as [(m & Hm & Hstep)|Hnew]; [|lia].
  apply rtc_row_same_letter in Hstep as Hlet. rewrite (selected_letter f m m') in Hsel by done.
  destruct Hlet as [Eid _]. rewrite Eid in *. by apply Ha.
Qed.

(** ** New rows *)

Lemma ended_scanned m : m_State (scanned m) = m_State m /\ m_ID (scanned m) = m_ID m.
Proof. by destruct m. Qed.

Lemma see_new_tracked ts told m :
  told_right told -> (forall c, c ∈ told -> m_ID (tc_row c) <= ts_lastID ts) ->
  (forall id s, ts_pending ts !! id = Some s <-> last_told told id = Some s /\ ended s = false) ->
  ts_lastID ts < m_ID m ->
  let (ts', told') := see_new (ts, told) m in
  told_right told' /\ (forall c, c ∈ told' -> m_ID (tc_row c) <= ts_lastID ts') /\
  (forall id s, ts_pending ts' !! id = Some s <-> last_told told' id = Some s /\ ended s = false) /\
  ts_lastID ts' = m_ID m.
Proof.
  intros Hr Hb Hp Hlt. unfold see_new. cbn [ts_lastID ts_pending].
  assert (Hbelow : forall c, c ∈ told -> m_ID (tc_row c) < m_ID m) by (intros c Hc; specialize (Hb c Hc); lia).
  split; [by apply told_new|]. split; [|split; [|lia]].
  - intros c [->|Hc]%elem_of_cons; [simpl; lia|]. specialize (Hb c Hc). lia.
  - intros id s. simpl. destruct (m_ID m =? id) eqn:E.
    + apply Z.eqb_eq in E. subst id. destruct (ended (m_State m)) eqn:Ee.
      * rewrite Hp, (last_told_None told (m_ID m)) by done. split; [by intros [? _]|]. intros [[= <-] ?]. congruence.
      * rewrite lookup_insert_eq. split; [intros [= <-]; done|by intros [[= ->] _]].
    + apply Z.eqb_neq in E. destruct (ended (m_State m)); [apply Hp|]. rewrite lookup_insert_ne by done. apply Hp.
Qed.

Definition consistent (ts : tailState) (told : list tail_change) : Prop :=
  told_right told /\ (forall c, c ∈ told -> m_ID (tc_row c) <= ts_lastID ts) /\
  (forall id s, ts_pending ts !! id = Some s <-> last_told told id = Some s /\ ended s = false).

Lemma last_told_in told id : last_told told id <> None <-> exists c, c ∈ told /\ m_ID (tc_row c) = id.
Proof.
  induction told as [|c told IH]; simpl.
  - split; [done|]. intros (c & Hc & _). by apply elem_of_nil in Hc.
  - destruct (m_ID (tc_row c) =? id) eqn:E.
    + apply Z.eqb_eq in E. split; [|done]. intros _. exists c. split; [apply elem_of_cons; by left|done].
    + apply Z.eqb_neq in E. rewrite IH. split.
      * intros (c' & Hc' & E'). exists c'. split; [apply elem_of_cons; by right|done].
      * intros (c' & [->|Hc']%elem_of_cons & E'); [done|by exists c'].
Qed.

(** A batch in id order, all above the cursor. *)
Lemma see_rows rows : forall ts told,
  consistent ts told -> StronglySorted Z.lt (map m_ID rows) -> (forall m, m ∈ rows -> ts_lastID ts < m_ID m) ->
  let (ts', told') := foldl see_new (ts, told) rows in
  consistent ts' told' /\ told' = rev (map (mkChange None) rows) ++ told /\
  ts_lastID ts <= ts_lastID ts' /\ (rows <> [] -> exists m, m ∈ rows /\ m_ID m = ts_lastID ts') /\
  (rows = [] -> ts_lastID ts' = ts_lastID ts).
Proof.
  induction rows as [|m rows IH]; intros ts told (Hr & Hb & Hp) Hsort Hlt; cbn [foldl].
  - split; [exact (conj Hr (conj Hb Hp))|]. split; [done|]. split; [lia|]. by split.
  - assert (Hm : ts_lastID ts < m_ID m) by (apply Hlt, elem_of_cons; by left).
    pose proof (see_new_tracked ts told m Hr Hb Hp Hm) as H. destruct (see_new (ts, told) m) as [ts1 told1] eqn:E.
    destruct H as (Hr1 & Hb1 & Hp1 & Hl1). cbn [map] in Hsort. inversion_clear Hsort as [|? ? Hsort' Hall].
    rewrite Forall_forall in Hall.
    specialize (IH ts1 told1 (conj Hr1 (conj Hb1 Hp1)) Hsort').
    assert (Habove : forall m', m' ∈ rows -> ts_lastID ts1 < m_ID m').
    { intros m' Hm'. rewrite Hl1. apply Hall, list_elem_of_In, in_map. by apply list_elem_of_In. }
    specialize (IH Habove). destruct (foldl see_new (ts1, told1) rows) as [ts' told'].
    destruct IH as (Hc & -> & Hle & Hex & Hnil). split; [done|].
    assert (told1 = mkChange None m :: told) as -> by (unfold see_new in E; by injection E).
    split; [cbn [map rev]; by rewrite <- app_assoc|]. split; [lia|]. split; [|done]. intros _.
    destruct rows as [|m' rows]; [exists m; split; [apply elem_of_cons; by left|]; rewrite Hnil by done; lia|].
    destruct Hex as (x & Hx & Ex); [done|]. exists x. split; [apply elem_of_cons; by right|done].
Qed.

(** ** Rows on their way *)

Lemma see_again_cases ts told m :
  see_again (ts, told) m = (ts, told) /\ (forall s, ts_pending ts !! m_ID m = Some s -> s = m_State m) \/
  exists prev, ts_pending ts !! m_ID m = Some prev /\ m_State m <> prev /\
    see_again (ts, told) m =
      (mkTailState (ts_lastID ts)
         (if ended (m_State m) then delete (m_ID m) (ts_pending ts) else <[m_ID m := m_State m]> (ts_pending ts)),
       mkChange (Some prev) m :: told).
Proof.
  unfold see_again. destruct (ts_pending ts !! m_ID m) as [prev|] eqn:E; [|by left].
  destruct (decide (m_State m = prev)) as [Heq|Hne].
  - left. rewrite bool_decide_true by done. split; [done|]. by intros s [= <-].
  - right. exists prev. by rewrite bool_decide_false.
Qed.

Lemma pending_after ts told m : consistent ts told -> forall id s,
  (if ended (m_State m) then delete (m_ID m) (ts_pending ts) else <[m_ID m := m_State m]> (ts_pending ts)) !! id = Some s <->
  last_told (mkChange (ts_pending ts !! m_ID m) m :: told) id = Some s /\ ended s = false.
Proof.
  intros (_ & _ & Hp) id s. simpl. destruct (m_ID m =? id) eqn:E.
  - apply Z.eqb_eq in E. subst id. destruct (ended (m_State m)) eqn:Ee.
    + rewrite lookup_delete_eq. split; [done|]. intros [[= <-] ?]. congruence.
    + rewrite lookup_insert_eq. split; [intros [= <-]; done|by intros [[= ->] _]].
  - apply Z.eqb_neq in E. destruct (ended (m_State m)); [rewrite lookup_delete_ne by done|rewrite lookup_insert_ne by done];
      apply Hp.
Qed.

(** The rows read again, each at most once: memory and story stay together, every row
    read is told as it stands now, and the others as before. *)
Lemma see_rows_again cur : forall ts told,
  consistent ts told -> NoDup (map m_ID cur) ->
  let (ts', told') := foldl see_again (ts, told) cur in
  consistent ts' told' /\ ts_lastID ts' = ts_lastID ts /\
  (forall m, m ∈ cur -> (exists s, ts_pending ts !! m_ID m = Some s) -> last_told told' (m_ID m) = Some (m_State m)) /\
  (forall id, id ∉ map m_ID cur -> last_told told' id = last_told told id) /\
  (forall id, last_told told id <> None -> last_told told' id <> None).
Proof.
  induction cur as [|m cur IH]; intros ts told Hc Hnd; cbn [foldl].
  - split; [done|]. split; [done|]. split; [intros m Hm; by apply elem_of_nil in Hm|]. by split.
  - cbn [map] in Hnd. apply NoDup_cons in Hnd as [Hfresh Hnd].
    assert (Hother : forall m', m' ∈ cur -> m_ID m' <> m_ID m).
    { intros m' Hm' E. apply Hfresh. rewrite <- E. apply list_elem_of_In, in_map. by apply list_elem_of_In. }
    destruct (see_again_cases ts told m) as [[-> Hsame]|(prev & Hprev & Hne & ->)].
    + specialize (IH ts told Hc Hnd). destruct (foldl see_again (ts, told) cur) as [ts' told'].
      destruct IH as (Hc' & Hl & Hin & Hout & Hmono). split; [done|]. split; [done|]. split; [|split; [|done]].
      * intros m' [->|Hm']%elem_of_cons Hs; [|by apply Hin]. destruct Hs as [s Hs].
        rewrite Hout by done. rewrite <- (Hsame s Hs). by apply Hc.
      * intros id Hid. apply Hout. intros H. apply Hid. cbn [map]. apply elem_of_cons. by right.
    + pose proof Hc as (Hr & Hb & Hp). pose proof (proj1 (Hp _ _) Hprev) as [Htold Hend].
      set (ts1 := mkTailState _ _). set (told1 := mkChange (Some prev) m :: told).
      assert (Hc1 : consistent ts1 told1).
      { split; [by apply told_change|]. split.
        - intros c [->|Hin]%elem_of_cons; [|by apply Hb]. cbn [tc_row ts_lastID].
          destruct (proj1 (last_told_in told (m_ID m))) as (c & Hin & <-); [congruence|]. by apply Hb.
        - unfold told1. rewrite <- Hprev. exact (pending_after ts told m Hc). }
      specialize (IH ts1 told1 Hc1 Hnd). destruct (foldl see_again (ts1, told1) cur) as [ts' told'].
      destruct IH as (Hc' & Hl & Hin & Hout & Hmono). split; [done|]. split; [done|]. split; [|split].
      * intros m' [->|Hm']%elem_of_cons Hs.
        -- rewrite Hout by done. unfold told1. simpl. by rewrite Z.eqb_refl.
        -- apply Hin; [done|]. destruct Hs as [s Hs]. exists s. unfold ts1. cbn [ts_pending].
           destruct (ended _); [rewrite lookup_delete_ne|rewrite lookup_insert_ne]; try done; intros E; by apply (Hother m' Hm').
      * intros id Hid. cbn [map] in Hid. rewrite elem_of_cons in Hid. rewrite Hout by tauto. unfold told1. simpl.
        rewrite (proj2 (Z.eqb_neq _ _)); [done|]. intros E. apply Hid. by left.
      * intros id Hid. apply Hmono. unfold told1. simpl. by destruct (_ =? _).
Qed.

(** ** A poll *)

Lemma sorted_take_in rows n m x :
  StronglySorted Z.lt (map m_ID rows) -> m ∈ rows -> x ∈ take n rows -> m_ID m <= m_ID x -> m ∈ take n rows.
Proof.
  intros Hs Hm Hx Hle. rewrite <- (take_drop n rows) in Hm, Hs. apply elem_of_app in Hm as [Hm|Hm]; [done|].
  exfalso. rewrite map_app in Hs. enough (m_ID x < m_ID m) by lia.
  revert Hs Hx. generalize (take n rows) as l. induction l as [|y l IH]; intros Hs Hx; [by apply elem_of_nil in Hx|].
  cbn [map app] in Hs. inversion_clear Hs as [|? ? Hs' Hall]. apply elem_of_cons in Hx as [->|Hx]; [|by apply IH].
  rewrite Forall_forall in Hall. apply Hall, elem_of_app. right. apply list_elem_of_In, in_map. by apply list_elem_of_In.
Qed.

Lemma sorted_sub rows n : StronglySorted Z.lt (map m_ID rows) -> StronglySorted Z.lt (map m_ID (take n rows)).
Proof.
  rewrite <- firstn_map. generalize (map m_ID rows) as l. intros l H. revert n.
  induction H as [|x l Hs IH Hall]; intros [|n]; simpl; constructor; [apply IH|by apply Forall_take].
Qed.

Definition above (after : Z) (f : TailFilter) (m : Message) : bool := (after <? m_ID m) && selected f m.

Lemma TailRows_spec after f d :
  TailRows after f tailFetchCap d = map scanned (take 1000 (sql_where (above after f) (db_messages d))).
Proof.
  unfold TailRows. cbv zeta. do 2 f_equal. apply sql_where_ext. intros m _. unfold above, selected.
  by rewrite !andb_assoc.
Qed.

Lemma scanned_ids rows : map m_ID (map scanned rows) = map m_ID rows.
Proof. rewrite map_map. by apply map_ext. Qed.

Lemma first_read f ts told d : store_wf d -> tracked f ts told d ->
  let (ts', told') := foldl see_new (ts, told) (TailRows (ts_lastID ts) f tailFetchCap d) in
  tracked f ts' told' d /\
  ((forall m, m ∈ db_messages d -> selected f m = true -> m_ID m <= ts_lastID ts') \/
   (length told + 1000 <= length told')%nat).
Proof.
  intros [Hw _] [Hr Hb Hp Ha Hl]. rewrite TailRows_spec. set (rows := sql_where (above (ts_lastID ts) f) (db_messages d)).
  assert (Hs : StronglySorted Z.lt (map m_ID rows)) by apply sorted_where, Hw.
  assert (Hrow : forall m, m ∈ rows <-> m ∈ db_messages d /\ ts_lastID ts < m_ID m /\ selected f m = true).
  { intros m. unfold rows. rewrite sql_where_elem. unfold above. rewrite andb_true_iff, Z.ltb_lt. tauto. }
  assert (Hsub : forall m, m ∈ take 1000 rows -> m ∈ rows).
  { intros m (i & Hi & _)%elem_of_take. by apply list_elem_of_lookup_2 in Hi. }
  pose proof (see_rows (map scanned (take 1000 rows)) ts told (conj Hr (conj Hb Hp))) as H.
  rewrite scanned_ids in H. specialize (H (sorted_sub rows 1000 Hs)).
  assert (Habove : forall m, m ∈ map scanned (take 1000 rows) -> ts_lastID ts < m_ID m).
  { intros m' (m & <- & Hm)%list_elem_of_In%in_map_iff. apply list_elem_of_In in Hm. by apply Hsub, Hrow in Hm as (_ & ? & _). }
  specialize (H Habove). destruct (foldl see_new (ts, told) _) as [ts' told'].
  destruct H as ((Hr' & Hb' & Hp') & -> & Hle & Hex & Hnil).
  assert (Hknown : forall m, m ∈ rows -> m_ID m <= ts_lastID ts' -> m ∈ take 1000 rows).
  { intros m Hm Hid. destruct (take 1000 rows) as [|y l] eqn:El.
    - apply Hrow in Hm as (_ & Hm & _). rewrite Hnil in Hid by done. lia.
    - rewrite <- El in *. destruct Hex as (x & Hx & Ex); [by rewrite El|].
      apply list_elem_of_In, in_map_iff in Hx as (x0 & <- & Hx). apply list_elem_of_In in Hx.
      eapply sorted_take_in; [done|done|exact Hx|]. change (m_ID x0) with (m_ID (scanned x0)). lia. }
  assert (Htold : forall m, m ∈ take 1000 rows -> last_told (rev (map (mkChange None) (map scanned (take 1000 rows))) ++ told) (m_ID m) <> None).
  { intros m Hm. apply last_told_in. exists (mkChange None (scanned m)). split; [|done]. apply elem_of_app. left.
    apply list_elem_of_In. rewrite <- in_rev. apply in_map, in_map. by apply list_elem_of_In. }
  split; [split; try done|].
  - intros m Hm Hsel Hid. destruct (Z_le_gt_dec (m_ID m) (ts_lastID ts)) as [Hold|Hnew].
    + apply last_told_in. destruct (proj1 (last_told_in told (m_ID m)) (Ha m Hm Hsel Hold)) as (c & Hc & E).
      exists c. split; [apply elem_of_app; by right|done].
    + apply Htold, Hknown; [|done]. apply Hrow. repeat split; [done|lia|done].
  - destruct (take 1000 rows) as [|y l] eqn:El; [rewrite Hnil by done; done|].
    destruct Hex as (x & Hx & <-); [done|]. apply list_elem_of_In, in_map_iff in Hx as (x0 & <- & Hx).
    apply list_elem_of_In in Hx. apply Hsub, Hrow in Hx as (Hx & _). simpl. by apply Hw.
  - destruct (decide (1000 <= length rows)%nat) as [Hlong|Hshort].
    + right. rewrite length_app, length_rev, !length_map, length_take. lia.
    + left. intros m Hm Hsel. destruct (Z_le_gt_dec (m_ID m) (ts_lastID ts)) as [Hold|Hnew]; [lia|].
      assert (Hin : m ∈ take 1000 rows) by (rewrite take_ge by lia; apply Hrow; repeat split; [done|lia|done]).
      destruct (proj1 (last_told_in _ _) (Htold m Hin)) as (c & Hc & <-). by apply Hb'.
Qed.

(** Everything that could be shown is, as it stands or in its last state. *)
Definition up_to_date (f : TailFilter) (ts : tailState) (told : list tail_change) (d : DB) : Prop :=
  forall m, m ∈ db_messages d -> selected f m = true -> m_ID m <= ts_lastID ts ->
    exists s, last_told told (m_ID m) = Some s /\ (s = m_State m \/ ended s = true).

Lemma pending_ids_elem ts id : id ∈ pending_ids ts <-> is_Some (ts_pending ts !! id).
Proof.
  unfold pending_ids. rewrite (merge_sort_Permutation Z.le), list_elem_of_fmap. split.
  - intros ([id' s] & -> & H%elem_of_map_to_list). by exists s.
  - intros [s H%elem_of_map_to_list]. by exists (id, s).
Qed.

Lemma second_read f ts told d : store_wf d -> tracked f ts told d ->
  let (ts', told') := foldl see_again (ts, told) (MessagesByIDs (pending_ids ts) d) in
  tracked f ts' told' d /\ up_to_date f ts' told' d /\ ts_lastID ts' = ts_lastID ts.
Proof.
  intros [Hw _] [Hr Hb Hp Ha Hl]. unfold MessagesByIDs.
  set (rows := sql_where (fun m => existsb (Z.eqb (m_ID m)) (pending_ids ts)) (db_messages d)).
  assert (Hnd : NoDup (map m_ID (map scanned rows))) by (rewrite scanned_ids; apply sorted_NoDup, sorted_where, Hw).
  pose proof (see_rows_again (map scanned rows) ts told (conj Hr (conj Hb Hp)) Hnd) as H.
  destruct (foldl see_again (ts, told) (map scanned rows)) as [ts' told'].
  destruct H as ((Hr' & Hb' & Hp') & Hlast & Hread & Hsame & Hmono).
  split; [split; try done; rewrite Hlast; [|done]; intros m Hm Hsel Hid; by apply Hmono, Ha|].
  split; [|done]. intros m Hm Hsel Hid. rewrite Hlast in Hid.
  destruct (last_told told (m_ID m)) as [s|] eqn:Es; [|by destruct (Ha m Hm Hsel Hid)].
  destruct (decide (m_ID m ∈ map m_ID (map scanned rows))) as [Hin|Hout].
  - rewrite scanned_ids in Hin. apply list_elem_of_In, in_map_iff in Hin as (m0 & E & Hm0). apply list_elem_of_In in Hm0.
    pose proof Hm0 as [Hm0' Hids]%sql_where_elem.
    assert (m0 = m) as -> by (by apply (inj_on_NoDup m_ID (db_messages d)); [apply ids_NoDup, Hw|..]).
    exists (m_State m). split; [|by left].
    change (m_ID m) with (m_ID (scanned m)). change (m_State m) with (m_State (scanned m)).
    apply Hread; [apply list_elem_of_In, in_map; by apply list_elem_of_In|].
    apply existsb_exists in Hids as (id & Hid' & Eid). apply Z.eqb_eq in Eid. subst id.
    apply list_elem_of_In, pending_ids_elem in Hid' as [s' Hs']. by exists s'.
  - exists s. rewrite Hsame by done. split; [done|]. right. destruct (ended s) eqn:Ee; [done|]. exfalso. apply Hout.
    rewrite scanned_ids. apply list_elem_of_In, in_map, list_elem_of_In, sql_where_elem. split; [done|].
    apply existsb_exists. exists (m_ID m). split; [|apply Z.eqb_refl]. apply list_elem_of_In, pending_ids_elem. exists s. by apply Hp.
Qed.

Section Watch.
Context (sw : SWorld) (Hothers : forall h d, store_steps d (sw_others sw h d)).

(** A read: the others may act, then it fails or answers. *)
Lemma read_cases {A} what (g : DB -> A) st : store_wf (s_db st) ->
  exists r st', store_read what g sw st = (Go r, st') /\ store_wf (s_db st') /\
    store_steps (s_db st) (s_db st') /\ (r = Ok (g (s_db st')) \/ exists e, r = Err e).
Proof.
  intros Hw. unfold store_read, access. cbv zeta. set (h := EvCall what :: s_hist st).
  assert (Hw' : store_wf (sw_others sw h (s_db st))) by (eapply store_steps_wf; [apply Hothers|done]).
  destruct (sw_fault sw h) as [e|]; eexists _, _; (split; [reflexivity|]); (split; [exact Hw'|]);
    (split; [apply Hothers|]); [right; by eexists|by left].
Qed.

(** What a poll without an error leaves: nothing is missing among the rows up to the
    cursor, and the cursor is past every row there was unless the batch was full. *)
Definition caught_up (f : TailFilter) (told : list tail_change) (d : DB) (ts' : tailState) (told' : list tail_change) (d' : DB) : Prop :=
  up_to_date f ts' told' d' /\
  exists d1, store_steps d d1 /\ store_steps d1 d' /\
    ((forall m, m ∈ db_messages d1 -> selected f m = true -> m_ID m <= ts_lastID ts') \/
     (length told + 1000 <= length told')%nat).

Lemma see_again_longer cur : forall ts told, (length told <= length (snd (foldl see_again (ts, told) cur)))%nat.
Proof.
  induction cur as [|m cur IH]; intros ts told; cbn [foldl]; [done|].
  destruct (see_again_cases ts told m) as [[-> _]|(prev & _ & _ & ->)]; [apply IH|].
  etransitivity; [|apply IH]. simpl. lia.
Qed.

Lemma poll_tracked opts ts told st :
  store_wf (s_db st) -> tracked (to_filter opts) ts told (s_db st) ->
  exists ts' told' e st', tail_poll opts ts told sw st = (Go (ts', told', e), st') /\
    store_wf (s_db st') /\ store_steps (s_db st) (s_db st') /\ tracked (to_filter opts) ts' told' (s_db st') /\
    (e = None -> caught_up (to_filter opts) told (s_db st) ts' told' (s_db st')).
Proof.
  intros Hw Ht. unfold tail_poll, andthen at 1. set (f := to_filter opts) in *.
  destruct (read_cases "TailRows" (TailRows (ts_lastID ts) f tailFetchCap) st Hw) as (r & st1 & -> & Hw1 & Hs1 & Hr).
  pose proof (tracked_steps f ts told _ _ Hw Hs1 Ht) as Ht1.
  destruct Hr as [->|[e ->]]; [|by exists ts, told, (Some e), st1].
  pose proof (first_read f ts told (s_db st1) Hw1 Ht1) as H.
  destruct (foldl see_new (ts, told) _) as [ts1 told1]. destruct H as [Ht1' Hbatch].
  case_bool_decide as Hempty.
  - exists ts1, told1, None, st1. do 4 (split; [done|]). intros _. split; [|exists (s_db st1); by split; [|split; [apply rtc_refl|]]].
    intros m Hm Hsel Hid. destruct (last_told told1 (m_ID m)) as [s|] eqn:Es; [|by destruct (tk_all _ _ _ _ Ht1' m Hm Hsel Hid)].
    exists s. split; [done|]. right. destruct (ended s) eqn:Ee; [done|].
    pose proof (proj2 (tk_pending _ _ _ _ Ht1' (m_ID m) s) (conj Es Ee)) as Hp. rewrite Hempty in Hp. by rewrite lookup_empty in Hp.
  - unfold andthen at 1.
    destruct (read_cases "MessagesByIDs" (MessagesByIDs (pending_ids ts1)) st1 Hw1) as (c & st2 & -> & Hw2 & Hs2 & Hc).
    pose proof (tracked_steps f ts1 told1 _ _ Hw1 Hs2 Ht1') as Ht2.
    assert (Hs : store_steps (s_db st) (s_db st2)) by (etransitivity; eauto).
    destruct Hc as [->|[e ->]]; [|by exists ts1, told1, (Some e), st2].
    pose proof (second_read f ts1 told1 (s_db st2) Hw2 Ht2) as H.
    pose proof (see_again_longer (MessagesByIDs (pending_ids ts1) (s_db st2)) ts1 told1) as Hlong.
    destruct (foldl see_again (ts1, told1) _) as [ts2 told2]. destruct H as (Ht2' & Hup & Hlast).
    exists ts2, told2, None, st2. do 4 (split; [done|]). intros _. split; [done|]. exists (s_db st1).
    split; [done|]. split; [done|]. rewrite Hlast. simpl in Hlong. destruct Hbatch as [?|?]; [by left|right; lia].
Qed.

Lemma lift_keeps {A} (c : T A) st : exists a st', lift c sw st = (Go a, st') /\ s_db st' = s_db st.
Proof. unfold lift. destruct (c _ _) as [a h]. by eexists _, _. Qed.

(** One poll and the wait after it. *)
Lemma loop_step opts ts told st : store_wf (s_db st) -> tracked (to_filter opts) ts told (s_db st) ->
  exists ts' told' st1, store_wf (s_db st1) /\ tracked (to_filter opts) ts' told' (s_db st1) /\
    ((exists e, e <> TailPolling /\ forall n, tailLoop (S n) opts ts told sw st = (Go (ts', told', e), st1)) \/
     ((forall n, tailLoop (S n) opts ts told sw st = tailLoop n opts ts' told' sw st1) /\
      caught_up (to_filter opts) told (s_db st) ts' told' (s_db st1))).
Proof.
  intros Hw Ht. destruct (poll_tracked opts ts told st Hw Ht) as (ts' & told' & e & st1 & E & Hw1 & _ & Ht1 & Hc).
  exists ts', told'. destruct e as [e|].
  - destruct (lift_keeps ctx_Err st1) as (c & st2 & E2 & Ed). exists st2. rewrite Ed. do 2 (split; [done|]). left.
    exists (match c with Some _ => TailCancelled | None => TailFailed e end). split; [by destruct c|]. intros n.
    cbn [tailLoop]. unfold andthen at 1. rewrite E. unfold andthen at 1. by rewrite E2.
  - destruct (lift_keeps (wait (to_interval opts)) st1) as (c & st2 & E2 & Ed). exists st2. rewrite Ed. do 2 (split; [done|]).
    assert (H : forall n, tailLoop (S n) opts ts told sw st =
                  match c with Some _ => (Go (ts', told', TailCancelled), st2) | None => tailLoop n opts ts' told' sw st2 end).
    { intros n. cbn [tailLoop]. unfold andthen at 1. rewrite E. unfold andthen at 1. rewrite E2. by destruct c. }
    destruct c as [c|]; [left; by exists TailCancelled|right; split; [done|by apply Hc]].
Qed.

Lemma loop_tracked opts n : forall ts told st, store_wf (s_db st) -> tracked (to_filter opts) ts told (s_db st) ->
  exists ts' told' e st', tailLoop n opts ts told sw st = (Go (ts', told', e), st') /\
    tracked (to_filter opts) ts' told' (s_db st').
Proof.
  induction n as [|n IH]; intros ts told st Hw Ht; [by exists ts, told, TailPolling, st|].
  destruct (loop_step opts ts told st Hw Ht) as (ts' & told' & st1 & Hw1 & Ht1 & [(e & _ & E)|[E _]]).
  - by exists ts', told', e, st1.
  - rewrite E. by apply IH.
Qed.

Lemma loop_last opts n : forall ts told st ts' told' st', store_wf (s_db st) -> tracked (to_filter opts) ts told (s_db st) ->
  tailLoop (S n) opts ts told sw st = (Go (ts', told', TailPolling), st') ->
  exists ts0 told0 st0, tailLoop n opts ts told sw st = (Go (ts0, told0, TailPolling), st0) /\
    caught_up (to_filter opts) told0 (s_db st0) ts' told' (s_db st').
Proof.
  induction n as [|n IH]; intros ts told st ts' told' st' Hw Ht E;
    destruct (loop_step opts ts told st Hw Ht) as (ts1 & told1 & st1 & Hw1 & Ht1 & [(e & He & E1)|[E1 Hc]]);
    rewrite E1 in E; try (injection E as -> -> -> ->; done).
  - injection E as -> -> ->. by exists ts, told, st.
  - rewrite E1. by apply IH.
Qed.

(** Nothing told yet. *)
Lemma tracked_start f d : store_wf d -> tracked f newTailState [] d.
Proof.
  intros [Hw _]. split; simpl; try done.
  - constructor.
  - intros c Hc. by apply elem_of_nil in Hc.
  - intros id s. rewrite lookup_empty. split; [done|by intros [? _]].
  - intros m Hm _ Hid. apply (mw_bound _ Hw) in Hm. lia.
  - apply Hw.
Qed.
End Watch.

(** C30: the firehose tells the story of the bus as it is.  Whatever the other processes
    do (and whichever reads fail) between its polls: every row is announced once, in
    the order of the ids; after that it is told to have changed only from the state it
    was last told in to another one, and never after it was delivered or failed.  After
    every poll without an error each row the filter selects up to the cursor has been
    told and is in the state last told, unless that was its end; and the cursor is past
    every row there was at the first read, unless the batch was full. *)
Theorem tail_faithful sw opts n st :
  (forall h d, store_steps d (sw_others sw h d)) -> store_wf (s_db st) ->
  exists ts told e st', tailLoop n opts newTailState [] sw st = (Go (ts, told, e), st') /\ told_right told /\
    forall k, n = S k -> e = TailPolling ->
      exists ts0 told0 st0, tailLoop k opts newTailState [] sw st = (Go (ts0, told0, TailPolling), st0) /\
        caught_up (to_filter opts) told0 (s_db st0) ts told (s_db st').
Proof.
  intros Ho Hw. pose proof (tracked_start (to_filter opts) _ Hw) as Ht.
  destruct (loop_tracked sw Ho opts n newTailState [] st Hw Ht) as (ts & told & e & st' & E & [Hr _ _ _ _]).
  exists ts, told, e, st'. split; [done|]. split; [done|]. intros k -> ->. by eapply loop_last.
Qed.

(** A message is delivered between two polls. *)
Definition deliver_later (h : history) (d : DB) : DB :=
  if (2 <? Z.of_nat (length h))
  then snd (MarkDelivered "0001" t1 (snd (ClaimNext "bob" d))) else d.

Definition busy_bus : SWorld :=
  mkSWorld ticking_world demo_walker deliver_later no_faults
    (fun h k => Some (Z.of_nat k, Z.of_nat (length h))) (fun _ => Qmake 0 1) (fun _ => inl "%1")
    (fun m _ _ => m_Body m) (fun _ => None).

Definition tail_db : DB := snd (InsertMessage (simple_params "alice" "bob" "first" None) (entropy 1) (entropy 9) t0 bus_db).

Definition tail_all : tailOpts :=
  mkTailOpts (mkTailFilter EmptyString EmptyString EmptyString EmptyString) EmptyString tailDefaultInterval "text".

Lemma busy_steps h d : store_steps d (sw_others busy_bus h d).
Proof.
  simpl. unfold deliver_later. destruct (_ <? _); [|apply rtc_refl].
  eapply rtc_l; [apply step_Claim|]. eapply rtc_l; [apply step_MarkDelivered|]. apply rtc_refl.
Qed.

Lemma tail_faithful_witness :
  exists ts told st', tailLoop 2 tail_all newTailState [] busy_bus (mkS tail_db (initial_vars demo_opts) []) =
      (Go (ts, told, TailPolling), st') /\ told_right told /\
    map (fun c => (tc_prev c, m_State (tc_row c))) told = [(Some StateQueued, StateDelivered); (None, StateQueued)].
Proof.
  assert (Hw : store_wf tail_db) by (eapply store_step_wf; [apply step_InsertMessage|apply bus_store_wf]).
  destruct (tail_faithful busy_bus tail_all 2 (mkS tail_db (initial_vars demo_opts) []) busy_steps Hw)
    as (ts & told & e & st' & E & H & _).
  exists ts, told, st'. vm_compute in E. injection E as <- <- <- <-. split; [vm_compute; reflexivity|].
  split; [exact H|vm_compute; reflexivity].
Defined.
