(* ===== verification/Server.v ===== *)
(** * The MCP server (internal/mcp/server.go; internal/cli: mcp.go, remote.go)

    JSON-RPC over lines: which line gets which answer, the tools and their calls, and
    the server of a remote session, whose tools all forward to the host of the bus.
    Values, the decoder of a line and the encoder of a result are parameters. *)

From stdpp Require Import gmap sorting.
From S2P Require Import Prelude GoStd StoreTypes TmuxIO ObserveGate Mailman ServeDemo Identity Send Control SendDemo Upkeep Fleet.

Open Scope Z_scope.
Open Scope tell_scope.

Definition ProtocolVersion : string := "2024-11-05".

Definition ErrCodeParseError : Z := -32700.
Definition ErrCodeInvalidRequest : Z := -32600.
Definition ErrCodeMethodNotFound : Z := -32601.
Definition ErrCodeInvalidParams : Z := -32602.
Definition ErrCodeInternalError : Z := -32603.

(** A request as decoded: raw id and parameters, absent or not. *)
Record rpc_request : Type := mkRequest {
  rq_JSONRPC : string;
  rq_ID : option string;
  rq_Method : string;
  rq_Params : option string
}.

Section Server.
(** What a handler returns, how it is encoded, how a line and the parameters of a call
    are decoded, and how a write fails. *)
Context {J : Type} (MarshalIndent : J -> result string) (decode : string -> result rpc_request)
  (decode_call : option string -> result (string * option string)).

Record Tool : Type := mkTool {
  tl_Name : string;
  tl_Description : string;
  tl_InputSchema : string;
  tl_Handler : option string -> M (result J)
}.

Record Server : Type := mkServer {
  sv_name : string;
  sv_version : string;
  sv_tools : gmap string Tool
}.

Definition NewServer (name version : string) : Server := mkServer name version ∅.

Definition RegisterTool (name description schema : string) (handler : option string -> M (result J)) (s : Server) : Server :=
  mkServer (sv_name s) (sv_version s) (<[name := mkTool name description schema handler]> (sv_tools s)).

Inductive rpc_result : Type :=
  | Initialized (protocol name version : string)
  | ToolsListed (tools : list (string * string * string))
  | Pong
  | Content (text : string) (isError : bool).

Record response : Type := mkResponse {
  rs_ID : option string;
  rs_Answer : rpc_result + (Z * string)
}.

Definition okResp (id : option string) (r : rpc_result) : response := mkResponse id (inl r).
Definition errorResp (id : option string) (code : Z) (msg : string) : response := mkResponse id (inr (code, msg)).

(** The element sinks from the end of a sorted prefix, kept last element first. *)
Fixpoint sink (t : Tool) (prefix : list Tool) : list Tool :=
  match prefix with
  | [] => [t]
  | x :: r => if Str.ltb (tl_Name t) (tl_Name x) then x :: sink t r else t :: prefix
  end.

Definition sortTools (l : list Tool) : list Tool := rev (foldl (fun p t => sink t p) [] l).

(** The order in which a map is ranged over. *)
Context (order : list Tool -> list Tool).

Definition ToolList (s : Server) : list Tool := sortTools (order (map snd (map_to_list (sv_tools s)))).

Definition handleInitialize (s : Server) (req : rpc_request) : response :=
  okResp (rq_ID req) (Initialized ProtocolVersion (sv_name s) (sv_version s)).

Definition handleToolsList (s : Server) (req : rpc_request) : response :=
  okResp (rq_ID req) (ToolsListed (map (fun t => (tl_Name t, tl_Description t, tl_InputSchema t)) (ToolList s))).

Definition Dispatch (s : Server) (name : string) (args : option string) : M (result J) :=
  match sv_tools s !! name with
  | None => go (Err (ErrMsg ("unknown tool: " +:+ name)))
  | Some tool => tl_Handler tool args
  end.

Definition handleToolsCall (s : Server) (req : rpc_request) : M response :=
  match decode_call (rq_Params req) with
  | Err e => go (errorResp (rq_ID req) ErrCodeInvalidParams (error_text e))
  | Ok (name, args) =>
      if str_empty name then go (errorResp (rq_ID req) ErrCodeInvalidParams "tool name required")
      else match sv_tools s !! name with
           | None => go (errorResp (rq_ID req) ErrCodeMethodNotFound ("unknown tool: " +:+ name))
           | Some tool =>
               r <! tl_Handler tool args ;;
               go (match r with
                   | Err e => okResp (rq_ID req) (Content (error_text e) true)
                   | Ok v => match MarshalIndent v with
                             | Err e => errorResp (rq_ID req) ErrCodeInternalError (error_text e)
                             | Ok body => okResp (rq_ID req) (Content body false)
                             end
                   end)
           end
  end.

Definition rpc_dispatch (s : Server) (req : rpc_request) : M (option response) :=
  let m := rq_Method req in
  if bool_decide (m = "initialize") then go (Some (handleInitialize s req))
  else if bool_decide (m ∈ ["initialized"; "notifications/initialized"]) then go None
  else if bool_decide (m = "tools/list") then go (Some (handleToolsList s req))
  else if bool_decide (m = "tools/call") then r <! handleToolsCall s req ;; go (Some r)
  else if bool_decide (m = "ping") then go (Some (okResp (rq_ID req) Pong))
  else match rq_ID req with
       | None => go None
       | Some _ => go (Some (errorResp (rq_ID req) ErrCodeMethodNotFound ("method not found: " +:+ m)))
       end.

Definition serve_line (s : Server) (line : string) : M (option response) :=
  if str_empty line then go None
  else match decode line with
       | Err e => go (Some (errorResp None ErrCodeParseError ("parse error: " +:+ error_text e)))
       | Ok req =>
           if negb (str_empty (rq_JSONRPC req)) && negb (bool_decide (rq_JSONRPC req = "2.0"))
           then go (Some (errorResp (rq_ID req) ErrCodeInvalidRequest "unsupported jsonrpc version"))
           else rpc_dispatch s req
       end.

(** Whether the next write to the client fails. *)
Context (write_error : history -> option error).

(** The lines the scanner yields and its own error at the end; the responses written,
    and the error that ended the server. *)
Fixpoint Serve (s : Server) (lines : list string) (scan_err : option error) : M (list response * option error) :=
  match lines with
  | [] => go ([], scan_err)
  | line :: lines' =>
      c <! lift ctx_Err ;;
      match c with
      | Some e => go ([], Some e)
      | None =>
          r <! serve_line s line ;;
          match r with
          | None => Serve s lines' scan_err
          | Some resp =>
              w <! ask "write" (fun _ h => write_error h) ;;
              match w with
              | Some e => go ([], Some e)
              | None => rest <! Serve s lines' scan_err ;; go (resp :: fst rest, snd rest)
              end
          end
      end
  end.
End Server.

(** ** The server of a remote session *)

Record remoteConfig : Type := mkRemote {
  rm_Host : string;
  rm_Port : Z;
  rm_Identity : string
}.

Definition defaultRemotePort : Z := 7777.
Definition remoteRecvSubcommand : string := "__remote-mcp-recv".

(** [^[A-Za-z0-9][A-Za-z0-9._-]*$] *)
Definition identity_byte (a : ascii) : bool :=
  alnum a || existsb (fun n => (Ascii.nat_of_ascii a =? n)%nat) [46; 95; 45]%nat.

Definition shellSafeIdentityRe (s : string) : bool :=
  match s with EmptyString => false | String a s' => alnum a && all_bytes identity_byte s' end.

Definition validateRemoteIdentity (name : string) : option error :=
  if str_empty name then Some (ErrMsg "remote MCP mode: resolved agent identity is empty")
  else if negb (shellSafeIdentityRe name) then
    Some (ErrMsg ("remote MCP mode: agent identity " +:+ Str.Quote name +:+
      " is not a single shell-safe token ([A-Za-z0-9._-], starting alphanumeric) — it crosses to the originating host's login shell via ssh, so whitespace would truncate it (silent mis-attribution) and shell metacharacters would be interpreted; set $TMUX_AGENT_NAME to a single-token name"))
  else None.

(** [[user@]host[:port]], with or without [ssh://]. *)
Definition parseRemoteHost (env0 : string) : result (string * Z) :=
  let env := Str.TrimSpace env0 in
  if str_empty env then Err (ErrMsg "TMUX_TELL_REMOTE_HOST is empty")
  else
    let env := Str.TrimPrefix env "ssh://" in
    let '(host, port) :=
      match Str.LastIndex env ":" with
      | Some i => match Str.Atoi (Str.drop (S i) env) with
                  | Some p => (Str.take i env, p)
                  | None => (env, defaultRemotePort)
                  end
      | None => (env, defaultRemotePort)
      end in
    if str_empty host then Err (ErrMsg "TMUX_TELL_REMOTE_HOST missing host") else Ok (host, port).

Definition io_EOF : error := ErrMsg "EOF".

(** The exit code once the server has ended. *)
Definition served (e : option error) : Z :=
  match e with
  | None => exitOK
  | Some e => if errors_Is e io_EOF then exitOK else exitInternal
  end.

Section Remote.
(** The environment, the session of the terminal, and what [ssh -p port host words]
    does with a text on its input: both outputs and its error. *)
Context (getenv : string -> string) (session_name : result string) (BinaryName : string)
  (ssh : string -> Z -> list string -> string -> M (string * string * option error)).

Definition no_remote_identity : error := ErrMsg
  "remote MCP mode: cannot resolve agent identity — set $TMUX_AGENT_NAME to the name this session sends AS on the originating host, or run inside a tmux whose session name is that identity".

Definition resolveRemoteIdentity : result string :=
  let own := Str.TrimSpace (getenv "TMUX_AGENT_NAME") in
  let own := if str_empty own then Str.TrimSpace (getenv "CLAUDE_AGENT_NAME") else own in
  let name := if str_empty own then match session_name with Ok n => Str.TrimSpace n | Err _ => own end else own in
  if str_empty name then Err no_remote_identity
  else match validateRemoteIdentity name with Some e => Err e | None => Ok name end.

Definition remote_args (cfg : remoteConfig) (toolName : string) : list string :=
  [BinaryName; remoteRecvSubcommand; "--tool"; toolName; "--from"; rm_Identity cfg].

Definition forward_text (cfg : remoteConfig) (toolName : string) : string :=
  "remote forward of " +:+ toolName +:+ " to " +:+ rm_Host cfg +:+ ":" +:+ Str.itoa (rm_Port cfg).

(** What came back over the tunnel, as the outcome of the tool. *)
Definition forwarded (cfg : remoteConfig) (toolName : string) (r : string * string * option error) : result string :=
  let '(out, err_out, e) := r in
  match e with
  | Some e =>
      let msg := Str.TrimSpace err_out in
      Err (ErrMsg (forward_text cfg toolName +:+ " failed: " +:+ (if str_empty msg then error_text e else msg)))
  | None =>
      let out := Str.TrimSpace out in
      if str_empty out then Err (ErrMsg (forward_text cfg toolName +:+ " returned no result")) else Ok out
  end.

Definition forwardTool (cfg : remoteConfig) (toolName : string) (args : option string) : M (result string) :=
  let body := let a := match args with Some a => a | None => EmptyString end in
              if str_empty (Str.TrimSpace a) then "{}" else a in
  r <! ssh (rm_Host cfg) (rm_Port cfg) (remote_args cfg toolName) body ;;
  go (forwarded cfg toolName r).

(** Every tool of the local server, with a handler that forwards. *)
Definition newRemoteMCPServer (meta : list (string * string * string)) (cfg : remoteConfig) : Server (J := string) :=
  foldl (fun s t => let '(name, description, schema) := t in
           RegisterTool name description schema (fun args => forwardTool cfg name args) s)
        (NewServer "tmux-tell" "0.1.0") meta.

Context (Indent : string -> result string) (decode : string -> result rpc_request)
  (decode_call : option string -> result (string * option string))
  (order : list (Tool (J := string)) -> list (Tool (J := string))) (write_error : history -> option error).

(** What came over the tunnel is indented anew, as a raw text. *)
Definition runRemoteMCP (meta : list (string * string * string)) (remoteHost : string) (lines : list string)
    (scan_err : option error) : M (list response * Z) :=
  match parseRemoteHost remoteHost with
  | Err _ => go ([], exitUsage)
  | Ok (host, port) =>
      match resolveRemoteIdentity with
      | Err _ => go ([], exitUsage)
      | Ok name =>
          r <! Serve Indent decode decode_call order write_error
                 (newRemoteMCPServer meta (mkRemote host port name)) lines scan_err ;;
          go (fst r, served (snd r))
      end
  end.
End Remote.

(** ** The far end of the tunnel *)

Section Receiver.
(** The server whose tools act for an injected identity, and the encoder of a result. *)
Context {J : Type} (newMCPServer : string -> Server (J := J)) (Encode : J -> result string).

Definition dispatchRemoteRecv (tool from rawArgs : string) : M (result J) :=
  let rawArgs := if str_empty rawArgs then "{}" else rawArgs in
  Dispatch (newMCPServer from) tool (Some rawArgs).

Definition recv_text (what : string) : string := remoteRecvSubcommand +:+ ": " +:+ what +:+ nl_str.

(** Both outputs and the exit code, once the store is open. *)
Definition runRemoteRecvCLI (tool from : string) (stdin : result string) (open_error : option error)
    : M (string * string * Z) :=
  if str_empty tool || str_empty from then go (EmptyString, recv_text "--tool and --from are required", exitUsage)
  else match stdin with
       | Err e => go (EmptyString, recv_text ("read args: " +:+ error_text e), exitInternal)
       | Ok rawArgs =>
           match open_error with
           | Some e => go (EmptyString, recv_text ("open store: " +:+ error_text e), exitInternal)
           | None =>
               r <! dispatchRemoteRecv tool from rawArgs ;;
               go (match r with
                   | Err e => (EmptyString, recv_text (error_text e), exitInternal)
                   | Ok v => match Encode v with
                             | Err e => (EmptyString, recv_text ("encode result: " +:+ error_text e), exitInternal)
                             | Ok text => (text, EmptyString, exitOK)
                             end
                   end)
           end
       end.

(** The server of this host, or of a remote one when the environment names it. *)
Definition runMCPCLI (MarshalIndent : J -> result string) (decode : string -> result rpc_request)
    (decode_call : option string -> result (string * option string)) (order : list (Tool (J := J)) -> list (Tool (J := J)))
    (write_error : history -> option error) (remote : string -> M (list response * Z)) (getenv : string -> string)
    (open_error : option error) (lines : list string) (scan_err : option error) : M (list response * Z) :=
  let remoteHost := getenv "TMUX_TELL_REMOTE_HOST" in
  if negb (str_empty remoteHost) then remote remoteHost
  else match open_error with
       | Some _ => go ([], exitInternal)
       | None =>
           r <! Serve MarshalIndent decode decode_call order write_error (newMCPServer EmptyString) lines scan_err ;;
           go (fst r, served (snd r))
       end.
End Receiver.

(** * What the MCP server answers

    One response per request and none for a notification, in the order of the lines;
    which faults are errors of the transport and which are results of a tool; the list
    of tools does not depend on the order a map is ranged over.  A server of a remote
    session passes its words through two shells unharmed. *)

Import StrFacts.

(** ** The list of tools *)

Section Tools.
Context {J : Type}.
Implicit Types (t x : Tool (J := J)) (l : list (Tool (J := J))) (s : Server (J := J)).

Definition by_name t x : Prop := String.le (tl_Name t) (tl_Name x).

Lemma ltb_le a b : Str.ltb a b = true -> String.le a b.
Proof. unfold Str.ltb, String.ltb, String.le, String.leb. by destruct (a ?= b)%string. Qed.

Lemma not_ltb_le a b : Str.ltb a b = false -> String.le b a.
Proof.
  unfold Str.ltb, String.ltb, String.le, String.leb. rewrite (String.compare_antisym a b).
  by destruct (b ?= a)%string.
Qed.

#[local] Instance by_name_trans : Transitive by_name.
Proof. intros a b c H1 H2. unfold by_name in *. by etrans. Qed.

Lemma sink_perm t l : sink t l ≡ₚ t :: l.
Proof.
  induction l as [|x l IH]; simpl; [done|]. destruct (Str.ltb _ _); [|done].
  rewrite IH. apply Permutation_swap.
Qed.

Lemma sink_sorted t l : StronglySorted (flip by_name) l -> StronglySorted (flip by_name) (sink t l).
Proof.
  induction 1 as [|x l Hl IH Hx]; simpl; [repeat constructor|]. destruct (Str.ltb _ _) eqn:E.
  - constructor; [done|]. rewrite sink_perm. constructor; [by apply ltb_le|done].
  - apply not_ltb_le in E. repeat constructor; [done|done|exact E|].
    eapply Forall_impl; [exact Hx|]. intros y Hy. by etrans.
Qed.

Lemma rev_sorted (R : Tool (J := J) -> Tool (J := J) -> Prop) l : StronglySorted R l -> StronglySorted (flip R) (rev l).
Proof.
  induction 1 as [|x l Hl IH Hx]; simpl; [constructor|].
  apply StronglySorted_app_2; [|done|repeat constructor].
  intros y z Hy%list_elem_of_In%in_rev%list_elem_of_In ->%list_elem_of_singleton.
  by apply (Forall_forall (R x) l).
Qed.

Lemma sortTools_ok l : sortTools l ≡ₚ l /\ StronglySorted by_name (sortTools l).
Proof.
  unfold sortTools.
  assert (forall p, StronglySorted (flip by_name) p ->
    foldl (fun p t => sink t p) p l ≡ₚ p ++ l /\ StronglySorted (flip by_name) (foldl (fun p t => sink t p) p l)) as H.
  { induction l as [|t l IH]; intros p Hp; simpl; [by rewrite app_nil_r|].
    destruct (IH (sink t p) (sink_sorted t p Hp)) as [E Hs]. split; [|done].
    rewrite E, sink_perm. apply Permutation_middle. }
  destruct (H [] ltac:(constructor)) as [E Hs]. split.
  - rewrite <- E at 2. symmetry. apply Permutation_rev.
  - by apply (rev_sorted (flip by_name)).
Qed.

(** Every tool is registered under its own name. *)
Definition well_named s : Prop := map_Forall (fun n t => tl_Name t = n) (sv_tools s).

Lemma NewServer_named name version : well_named (NewServer name version).
Proof. apply map_Forall_empty. Qed.

Lemma RegisterTool_named name description schema handler s :
  well_named s -> well_named (RegisterTool name description schema handler s).
Proof. intros H. by apply map_Forall_insert_2. Qed.

Lemma ToolList_members order s t : (forall l, order l ≡ₚ l) -> well_named s ->
  t ∈ ToolList order s <-> sv_tools s !! tl_Name t = Some t.
Proof.
  intros Ho Hs. unfold ToolList. rewrite (proj1 (sortTools_ok _)), Ho. rewrite list_elem_of_fmap. split.
  - intros ([n t'] & -> & H%elem_of_map_to_list). simpl. by rewrite (Hs _ _ H).
  - intros H%elem_of_map_to_list. by exists (tl_Name t, t).
Qed.

Lemma ToolList_order order order' s :
  (forall l, order l ≡ₚ l) -> (forall l, order' l ≡ₚ l) -> well_named s -> ToolList order s = ToolList order' s.
Proof.
  intros Ho Ho' Hs. apply (StronglySorted_unique_strong by_name).
  - intros t x Ht%(ToolList_members _ _ _ Ho Hs) Hx%(ToolList_members _ _ _ Ho' Hs) H1 H2.
    assert (tl_Name t = tl_Name x) as E by (by apply (anti_symm String.le)). congruence.
  - apply sortTools_ok.
  - apply sortTools_ok.
  - unfold ToolList. by rewrite !(proj1 (sortTools_ok _)), Ho, Ho'.
Qed.
End Tools.

(** ** One response per request *)

Section Answers.
Context {J : Type} (MarshalIndent : J -> result string) (decode : string -> result rpc_request)
  (decode_call : option string -> result (string * option string))
  (order : list (Tool (J := J)) -> list (Tool (J := J))) (write_error : history -> option error)
  (s : Server (J := J)).

Definition bad_version (req : rpc_request) : bool :=
  negb (str_empty (rq_JSONRPC req)) && negb (bool_decide (rq_JSONRPC req = "2.0")).

(** The response a line is owed, if any, by its id. *)
Definition owed_id (line : string) : option (option string) :=
  if str_empty line then None
  else match decode line with
       | Err _ => Some None
       | Ok req =>
           if bad_version req then Some (rq_ID req)
           else if bool_decide (rq_Method req ∈ ["initialized"; "notifications/initialized"]) then None
           else if bool_decide (rq_Method req ∈ ["initialize"; "tools/list"; "tools/call"; "ping"]) then Some (rq_ID req)
           else option_map Some (rq_ID req)
       end.

(** What is wrong with a line before any tool runs. *)
Definition call_blame (req : rpc_request) : option Z :=
  match decode_call (rq_Params req) with
  | Err _ => Some ErrCodeInvalidParams
  | Ok (name, _) =>
      if str_empty name then Some ErrCodeInvalidParams
      else match sv_tools s !! name with None => Some ErrCodeMethodNotFound | Some _ => None end
  end.

Definition blame (line : string) : option Z :=
  match decode line with
  | Err _ => Some ErrCodeParseError
  | Ok req =>
      if bad_version req then Some ErrCodeInvalidRequest
      else if bool_decide (rq_Method req = "tools/call") then call_blame req
      else if bool_decide (rq_Method req ∈ ["initialize"; "tools/list"; "ping"]) then None
      else Some ErrCodeMethodNotFound
  end.

Context (sw : SWorld).

(** The line asks for the method. *)
Definition asks (line method : string) : Prop := exists req, decode line = Ok req /\ rq_Method req = method.

(** The line called a tool, and that call, run from some state, ended with [r]. *)
Definition called (line : string) (r : result J) : Prop :=
  asks line "tools/call" /\
  exists req name args t st st', decode line = Ok req /\ decode_call (rq_Params req) = Ok (name, args) /\
    sv_tools s !! name = Some t /\ tl_Handler t args sw st = (Go r, st').

Definition outcome_shown (r : result J) (text : string) (isError : bool) : Prop :=
  match r with
  | Err e => text = error_text e /\ isError = true
  | Ok v => MarshalIndent v = Ok text /\ isError = false
  end.

Definition metadata (t : Tool (J := J)) : string * string * string := (tl_Name t, tl_Description t, tl_InputSchema t).

(** The answer to a line. *)
Definition answer_right (line : string) (a : rpc_result + (Z * string)) : Prop :=
  match a with
  | inr (code, _) => blame line = Some code \/
      (blame line = None /\ code = ErrCodeInternalError /\ exists v e, called line (Ok v) /\ MarshalIndent v = Err e)
  | inl (Content text isError) => blame line = None /\ exists r, called line r /\ outcome_shown r text isError
  | inl (ToolsListed l) => blame line = None /\ asks line "tools/list" /\ l = map metadata (ToolList order s)
  | inl (Initialized v n w) =>
      blame line = None /\ asks line "initialize" /\ (v, n, w) = (ProtocolVersion, sv_name s, sv_version s)
  | inl Pong => blame line = None /\ asks line "ping"
  end.

Definition answers (line : string) (r : response) : Prop := owed_id line = Some (rs_ID r) /\ answer_right line (rs_Answer r).

(** The tools always end normally. *)
Definition handled : Prop := forall name t args st, sv_tools s !! name = Some t ->
  exists r st', tl_Handler t args sw st = (Go r, st').

Context (Hhandled : handled).

Lemma call_answers req line st :
  decode line = Ok req -> bad_version req = false -> rq_Method req = "tools/call" ->
  exists r st', handleToolsCall MarshalIndent decode_call s req sw st = (Go r, st') /\
    rs_ID r = rq_ID req /\ answer_right line (rs_Answer r).
Proof.
  intros E Hv Hm.
  assert (blame line = call_blame req) as Hb by (unfold blame; by rewrite E, Hv, Hm).
  unfold answer_right. rewrite Hb. unfold handleToolsCall, call_blame.
  destruct (decode_call (rq_Params req)) as [[name args]|e] eqn:Ed; [|by eexists _, st; repeat split; left].
  destruct (str_empty name); [by eexists _, st; repeat split; left|].
  destruct (sv_tools s !! name) as [t|] eqn:Et; [|by eexists _, st; repeat split; left].
  destruct (Hhandled name t args st Et) as (r & st' & Er). unfold andthen. rewrite Er.
  assert (called line r) as Hc by (split; [by exists req|]; by exists req, name, args, t, st, st').
  eexists _, st'. split; [done|]. destruct r as [v|e]; [destruct (MarshalIndent v) as [body|e] eqn:Ej|].
  - split; [done|]. split; [done|]. by exists (Ok v).
  - split; [done|]. right. split; [done|]. split; [done|]. by exists v, e.
  - split; [done|]. split; [done|]. by exists (Err e).
Qed.

(** A line gets the response it is owed, or none when none is. *)
Lemma line_answers line st :
  exists o st', serve_line MarshalIndent decode decode_call order s line sw st = (Go o, st') /\
    match o with Some r => answers line r | None => owed_id line = None end.
Proof.
  unfold serve_line, answers, owed_id.
  destruct (str_empty line); [by eexists None, st|].
  destruct (decode line) as [req|e] eqn:E.
  2:{ eexists (Some _), st. repeat split. left. unfold blame. by rewrite E. }
  fold (bad_version req). destruct (bad_version req) eqn:Hv.
  { eexists (Some _), st. repeat split. left. unfold blame. by rewrite E, Hv. }
  unfold rpc_dispatch. case_bool_decide as H1.
  { eexists (Some _), st. rewrite H1. repeat split; [unfold blame; by rewrite E, Hv, H1|by exists req]. }
  case_bool_decide as H2; [by eexists None, st|].
  case_bool_decide as H3.
  { eexists (Some _), st. rewrite H3. repeat split; [unfold blame; by rewrite E, Hv, H3|by exists req]. }
  case_bool_decide as H4.
  { destruct (call_answers req line st E Hv H4) as (r & st' & Er & Hid & Ha).
    unfold andthen. rewrite Er. exists (Some r), st'. rewrite H4, Hid. by repeat split. }
  case_bool_decide as H5.
  { eexists (Some _), st. rewrite H5. repeat split; [unfold blame; by rewrite E, Hv, H5|by exists req]. }
  assert (rq_Method req ∉ ["initialize"; "tools/list"; "tools/call"; "ping"]) as Hn by set_solver.
  rewrite (bool_decide_false _ Hn). destruct (rq_ID req) as [id|] eqn:Ei; [|by eexists None, st].
  eexists (Some _), st. repeat split. left. unfold blame. rewrite E, Hv.
  rewrite bool_decide_false by done. rewrite bool_decide_false by set_solver. done.
Qed.

Definition quiet : Prop := (forall h, w_ctx (sw_io sw) h = None) /\ (forall h, write_error h = None).

Notation owed := (filter (fun line => is_Some (owed_id line))).

(** C28: what gets an answer, and which.  With tools that always end normally the server
    ends; its responses answer, one by one, in order and with their ids, the first lines
    of its input to which one is owed, and all of them unless the context is cancelled or
    a write fails.  One is owed to every line that cannot be read or has another protocol
    version, to initialize, tools/list, tools/call and ping with an id or without (the
    comment of the server says that a request without an id gets none), and to any other
    method that has an id, the two notifications of initialization excepted.  An error
    object reports exactly an unreadable line (without an id), another protocol version,
    an unknown method or tool, or bad parameters (or a result that has no encoding); a
    call is answered by what the tool ended with: its encoded result, or, when it fails, a
    result flagged as an error with the text of the failure; the tools are listed alike
    for every order of the map. *)
Theorem serve_answers lines scan_err st :
  (forall order', (forall l, order l ≡ₚ l) -> (forall l, order' l ≡ₚ l) -> well_named s ->
     ToolList order s = ToolList order' s) /\
  exists rs e st', Serve MarshalIndent decode decode_call order write_error s lines scan_err sw st = (Go (rs, e), st') /\
    Forall2 answers (take (length rs) (owed lines)) rs /\
    (e = None -> length rs = length (owed lines)) /\
    (quiet -> e = scan_err /\ length rs = length (owed lines)).
Proof.
  split; [intros; by apply ToolList_order|]. revert st.
  induction lines as [|line lines IH]; intros st; [by exists [], scan_err, st|].
  cbn [Serve]. unfold andthen at 1, lift, ctx_Err. cbn [fst snd].
  destruct (w_ctx (sw_io sw) (s_hist st)) as [c|] eqn:Ec.
  { eexists [], (Some _), _. do 3 (split; [done|]). intros [Hq _]. by rewrite Hq in Ec. }
  set (st0 := mkS _ _ _). destruct (line_answers line st0) as (o & st1 & El & Ho).
  unfold andthen at 1. rewrite El. rewrite filter_cons. destruct o as [r|].
  - rewrite decide_True by (destruct Ho as [-> _]; eauto).
    unfold andthen at 1, ask. destruct (write_error _) as [e|] eqn:Ew.
    { eexists [], (Some e), _. do 3 (split; [done|]). intros [_ Hq]. by rewrite Hq in Ew. }
    set (st2 := mkS _ _ _). destruct (IH st2) as (rs & e & st3 & Er & Hf & He & Hq).
    unfold andthen. rewrite Er. exists (r :: rs), e, st3. simpl. split; [done|].
    split; [by constructor|]. split; [intros Hn; by rewrite He|].
    intros Hn. destruct (Hq Hn) as [-> ->]. done.
  - rewrite decide_False by (rewrite Ho; by intros [? [=]]). apply IH.
Qed.
End Answers.

(** ** A call over the tunnel *)

(** A word that any shell leaves alone. *)
Definition plain_word (w : string) : Prop := w <> EmptyString /\ all_bytes plain_byte w = true.

Lemma plain_step a w rest : plain_byte a = true -> sh_words Plain w (String a rest) = sh_words Plain (push w a) rest.
Proof.
  intros H. cbn [sh_words]. rewrite !bool_decide_false, H; [done|..]; by intros ->.
Qed.

Lemma plain_bytes w : forall acc rest, all_bytes plain_byte w = true ->
  sh_words Plain (Some acc) (w +:+ rest) = sh_words Plain (Some (acc +:+ w)) rest.
Proof.
  induction w as [|a w IH]; intros acc rest H.
  - by rewrite string_app_nil_r.
  - cbn [all_bytes] in H. apply andb_prop in H as [Ha Hw].
    change (String a w +:+ rest) with (String a (w +:+ rest)). rewrite plain_step by done.
    unfold push. cbn [default]. rewrite IH by done. do 2 f_equal. by rewrite string_app_assoc.
Qed.

Lemma plain_word_read w rest : plain_word w -> sh_words Plain None (w +:+ rest) = sh_words Plain (Some w) rest.
Proof.
  intros [Hne H]. destruct w as [|a w]; [done|]. cbn [all_bytes] in H. apply andb_prop in H as [Ha Hw].
  change (String a w +:+ rest) with (String a (w +:+ rest)). rewrite plain_step by done.
  change (push None a) with (Some (String a EmptyString)). by rewrite plain_bytes.
Qed.

(** Plain words, joined by blanks, are read back as they are. *)
Lemma plain_words_read ws : Forall plain_word ws -> sh_words Plain None (Str.Join ws " ") = Some ws.
Proof.
  induction 1 as [|w ws Hw Hws IH]; [done|]. destruct ws as [|v ws].
  - change (Str.Join [w] " ") with w. rewrite <- (string_app_nil_r w), plain_word_read by done.
    by rewrite string_app_nil_r.
  - change (Str.Join (w :: v :: ws) " ") with (w +:+ String blank1 (Str.Join (v :: ws) " ")).
    rewrite plain_word_read by done. cbn [sh_words]. rewrite bool_decide_true by done. by rewrite IH.
Qed.

Lemma identity_plain a : identity_byte a = true -> plain_byte a = true.
Proof. by destruct a as [[] [] [] [] [] [] [] []]. Qed.

Lemma alnum_plain a : alnum a = true -> plain_byte a = true.
Proof. unfold plain_byte. by intros ->. Qed.

Lemma identity_word name : validateRemoteIdentity name = None -> plain_word name.
Proof.
  unfold validateRemoteIdentity. destruct name as [|a s]; [done|].
  change (str_empty (String a s)) with false. cbn iota.
  destruct (shellSafeIdentityRe (String a s)) eqn:E; [intros _|done].
  cbn [shellSafeIdentityRe] in E. apply andb_prop in E as [Ha Hs]. split; [done|].
  cbn [all_bytes]. rewrite alnum_plain by done. cbn [andb].
  clear Ha. induction s as [|b s IH]; [done|]. cbn [all_bytes] in *. apply andb_prop in Hs as [Hb Hs].
  rewrite identity_plain by done. by apply IH.
Qed.

(** A text that starts with a byte of no blank is not blank. *)
Lemma trim_right_keeps a fuel : forall s, forallb (fun e => negb (has_byte a e)) Str.space_runes = true ->
  exists s', Str.trim_right fuel Str.space_runes (String a s) = String a s'.
Proof.
  induction fuel as [|fuel IH]; intros s H; [by exists s|]. cbn [Str.trim_right].
  destruct (List.find _ _) as [e|] eqn:E; [|by exists s].
  apply List.find_some in E as [Hin Hs]. apply (proj1 (forallb_forall _ _) H) in Hin.
  unfold Str.HasSuffix in Hs. apply andb_prop in Hs as [_ Hs%bool_decide_eq_true].
  destruct (String.length (String a s) - String.length e)%nat as [|k].
  - change (Str.drop 0 (String a s)) with (String a s) in Hs. subst e.
    cbn [has_byte] in Hin. by rewrite bool_decide_true in Hin.
  - change (Str.take (S k) (String a s)) with (String a (Str.take k s)). by apply IH.
Qed.

Lemma recv_text_shown what : str_empty (Str.TrimSpace (recv_text what)) = false.
Proof.
  unfold recv_text, remoteRecvSubcommand.
  change ("__remote-mcp-recv" +:+ ": " +:+ what +:+ nl_str)
    with (String (Ascii.ascii_of_nat 95) ("_remote-mcp-recv: " +:+ what +:+ nl_str)).
  unfold Str.TrimSpace, Str.TrimLeft. rewrite trim_left_id by done. unfold Str.TrimRight.
  by destruct (trim_right_keeps (Ascii.ascii_of_nat 95)
    (String.length (String (Ascii.ascii_of_nat 95) ("_remote-mcp-recv: " +:+ what +:+ nl_str)))
    ("_remote-mcp-recv: " +:+ what +:+ nl_str) eq_refl) as [s' ->].
Qed.

Section Tunnel.
Context {J : Type} (newMCPServer : string -> Server (J := J)) (Encode : J -> result string) (BinaryName : string).

(** The login shell of the far end splits the words it gets, and runs the receiver. *)
Definition tunnel (host : string) (port : Z) (words : list string) (body : string) : M (string * string * option error) :=
  match sh_words Plain None (Str.Join words " ") with
  | Some [binary; sub; tool_flag; tool; from_flag; from] =>
      if bool_decide ((binary, sub, tool_flag, from_flag) = (BinaryName, remoteRecvSubcommand, "--tool", "--from")) then
        r <! runRemoteRecvCLI newMCPServer Encode tool from (Ok body) None ;;
        let '(out, err_out, code) := r in
        go (out, err_out, if code =? exitOK then None else Some (ExecError ("exit status " +:+ Str.itoa code)))
      else go (EmptyString, "usage", Some (ExecError "exit status 64"))
  | _ => go (EmptyString, "syntax error", Some (ExecError "exit status 2"))
  end.

(** The outcome of a tool, as the session at the near end sees it. *)
Definition across (cfg : remoteConfig) (tool : string) (r : result J) : result string :=
  let failed what := Err (ErrMsg (forward_text cfg tool +:+ " failed: " +:+ Str.TrimSpace (recv_text what))) in
  match r with
  | Err e => failed (error_text e)
  | Ok v => match Encode v with Err e => failed ("encode result: " +:+ error_text e) | Ok text => Ok (Str.TrimSpace text) end
  end.

(** C29: a call over the tunnel is the call on the host of the bus, in the name of
    the session.  For every validated identity, and a tool and a binary whose names are
    plain words, the words of the command survive the login shell; the receiver runs the
    tool of that name with that identity and the arguments of the call, on the store of
    that host, exactly once; the session gets the result, and every failure of the tool
    (an unknown tool as well) as an error with its text, never an empty success. *)
Theorem remote_call_is_local cfg tool args sw st :
  validateRemoteIdentity (rm_Identity cfg) = None -> plain_word BinaryName -> plain_word tool ->
  (forall v text, Encode v = Ok text -> str_empty (Str.TrimSpace text) = false) ->
  forwardTool BinaryName tunnel cfg tool args sw st =
  (r <! Dispatch (newMCPServer (rm_Identity cfg)) tool
          (Some (if str_empty (Str.TrimSpace (default EmptyString args)) then "{}" else default EmptyString args)) ;;
   go (across cfg tool r)) sw st.
Proof.
  intros Hid%identity_word Hb Ht Henc. unfold forwardTool, tunnel.
  set (body := if str_empty (Str.TrimSpace (default EmptyString args)) then "{}" else default EmptyString args).
  change (if str_empty (Str.TrimSpace match args with Some a => a | None => EmptyString end) then "{}"
          else match args with Some a => a | None => EmptyString end) with body.
  assert (str_empty body = false) as Hbody.
  { subst body. destruct (str_empty (Str.TrimSpace _)) eqn:E; [done|].
    by destruct (default EmptyString args). }
  unfold remote_args. rewrite plain_words_read by (repeat constructor; (done || apply Hb || apply Ht || apply Hid)).
  rewrite bool_decide_true by done. unfold runRemoteRecvCLI.
  destruct Ht as [Ht _], Hid as [Hid _].
  assert (str_empty tool = false) as -> by (by destruct tool).
  assert (str_empty (rm_Identity cfg) = false) as -> by (by destruct (rm_Identity cfg)).
  unfold dispatchRemoteRecv. rewrite Hbody. cbn [orb]. unfold andthen.
  assert (forall what, forwarded cfg tool (EmptyString, recv_text what,
      if exitInternal =? exitOK then None else Some (ExecError ("exit status " +:+ Str.itoa exitInternal))) =
    Err (ErrMsg (forward_text cfg tool +:+ " failed: " +:+ Str.TrimSpace (recv_text what)))) as Hfail.
  { intros what. change (exitInternal =? exitOK) with false. cbv iota. unfold forwarded. cbv zeta. by rewrite recv_text_shown. }
  destruct (Dispatch _ _ _ _ _) as [[[v|e]| | | |] st'] eqn:E; try done.
  - unfold across, go. cbv beta iota zeta. destruct (Encode v) as [text|e] eqn:Ev.
    + cbv beta iota zeta. change (exitOK =? exitOK) with true. cbv iota. unfold forwarded. cbv zeta. by rewrite (Henc v).
    + cbv beta iota zeta. by rewrite Hfail.
  - unfold across, go. cbv beta iota zeta. by rewrite Hfail.
Qed.
End Tunnel.

(** ** Concrete runs *)

Definition demo_decode (line : string) : result rpc_request :=
  if bool_decide (line = "hello") then Ok (mkRequest "2.0" (Some "1") "initialize" None)
  else if bool_decide (line = "ready") then Ok (mkRequest "2.0" None "notifications/initialized" None)
  else if bool_decide (line = "list") then Ok (mkRequest "2.0" (Some "2") "tools/list" None)
  else if bool_decide (line = "echo") then Ok (mkRequest "2.0" (Some "3") "tools/call" (Some "echo"))
  else if bool_decide (line = "bell") then Ok (mkRequest "2.0" (Some "4") "tools/call" (Some "bell"))
  else if bool_decide (line = "lost") then Ok (mkRequest "2.0" (Some "5") "tools/call" (Some "lost"))
  else if bool_decide (line = "silent ping") then Ok (mkRequest "2.0" None "ping" None)
  else if bool_decide (line = "silent call") then Ok (mkRequest "2.0" None "tools/call" (Some "echo"))
  else if bool_decide (line = "silent other") then Ok (mkRequest "2.0" None "other" None)
  else if bool_decide (line = "old") then Ok (mkRequest "1.0" (Some "6") "ping" None)
  else Err (ErrMsg "unexpected end").

Definition demo_call (params : option string) : result (string * option string) :=
  match params with Some name => Ok (name, Some "{}") | None => Err (ErrMsg "no params") end.

Definition demo_server (_ : string) : Server (J := string) :=
  RegisterTool "echo" "says it back" "{}" (fun args => go (Ok (default EmptyString args)))
    (RegisterTool "bell" "always fails" "{}" (fun _ => go (Err (ErrMsg "broken"))) (NewServer "tmux-tell" "0.1.0")).

Lemma demo_handled : handled (demo_server EmptyString) bus.
Proof.
  intros name t args st H. unfold demo_server, RegisterTool, NewServer in *. cbn [sv_tools] in H.
  destruct (decide (name = "echo")) as [->|Hne].
  - rewrite lookup_insert_eq in H. injection H as <-. by eexists _, st.
  - rewrite lookup_insert_ne in H by done. destruct (decide (name = "bell")) as [->|Hnb].
    + rewrite lookup_insert_eq in H. injection H as <-. by eexists _, st.
    + by rewrite lookup_insert_ne in H by done.
Qed.

Definition backwards : list (Tool (J := string)) -> list (Tool (J := string)) := fun l => rev l.

Definition demo_encode (s : string) : result string :=
  if str_empty (Str.TrimSpace s) then Err (ErrMsg "blank") else Ok s.

Local Notation start := (mkS bus_db (initial_vars demo_opts) []).
Local Notation run lines := (fst (Serve Ok demo_decode demo_call backwards (fun _ => None) (demo_server EmptyString) lines None bus start)).

(** A session: the responses in order, errors of tools as results. *)
Lemma demo_session :
  run ["hello"; "ready"; "list"; "echo"; "bell"; "lost"; EmptyString; "old"; "silent other"; "???"] =
  Go ([okResp (Some "1") (Initialized "2024-11-05" "tmux-tell" "0.1.0");
       okResp (Some "2") (ToolsListed [("bell", "always fails", "{}"); ("echo", "says it back", "{}")]);
       okResp (Some "3") (Content "{}" false);
       okResp (Some "4") (Content "broken" true);
       errorResp (Some "5") ErrCodeMethodNotFound "unknown tool: lost";
       errorResp (Some "6") ErrCodeInvalidRequest "unsupported jsonrpc version";
       errorResp None ErrCodeParseError "parse error: unexpected end"], None).
Proof. vm_compute. reflexivity. Qed.

(** A request without an id is a notification, and yet some get a response. *)
Lemma notification_answered :
  run ["silent ping"; "silent call"] = Go ([okResp None Pong; okResp None (Content "{}" false)], None).
Proof. vm_compute. reflexivity. Qed.

Lemma serve_answers_witness :
  let lines := ["hello"; "ready"; "echo"; "???"] in
  exists rs e st', Serve Ok demo_decode demo_call backwards (fun _ => None) (demo_server EmptyString) lines None bus start = (Go (rs, e), st') /\
    Forall2 (answers Ok demo_decode demo_call backwards (demo_server EmptyString) bus)
      (take (length rs) (filter (fun line => is_Some (owed_id demo_decode line)) lines)) rs.
Proof.
  cbv zeta.
  destruct (serve_answers Ok demo_decode demo_call backwards (fun _ => None) (demo_server EmptyString) bus demo_handled
              ["hello"; "ready"; "echo"; "???"] None start) as (_ & rs & e & st' & E & H & _).
  by exists rs, e, st'.
Defined.

Lemma remote_call_is_local_witness :
  validateRemoteIdentity "alice" = None /\ plain_word "tmux-tell-claude" /\ plain_word "echo" /\
  forwardTool "tmux-tell-claude" (tunnel demo_server demo_encode "tmux-tell-claude") (mkRemote "bus.example" 7777 "alice")
    "echo" (Some "[1]") bus start = (Go (Ok "[1]"), start).
Proof.
  split; [reflexivity|]. split; [by split|]. split; [by split|].
  rewrite (remote_call_is_local demo_server demo_encode "tmux-tell-claude"); [reflexivity|reflexivity|by split|by split|].
  intros v text H. unfold demo_encode in H. destruct (str_empty (Str.TrimSpace v)) eqn:E; [done|].
  injection H as <-. exact E.
Defined.
