(* ===== verification/Notify.v ===== *)
(** * The doorbell (internal/notify/notify.go)

    A ring writes a file of the recipient; one watch on the directory of these files
    wakes the subscribers of a process.  The goroutines of the watcher, its subscribers,
    the producers and the queue of the file system are one step relation; rings whose
    events the file system loses, and the end of the watcher's goroutine once it is
    closed, are steps of it. *)

From stdpp Require Import gmap.
From S2P Require Import Prelude GoStd Control Register.

Open Scope Z_scope.
Open Scope tell_scope.

Section Files.
Context (getenv : string -> string).

Definition runtimeDir : string :=
  if negb (str_empty (getenv "XDG_RUNTIME_DIR")) then getenv "XDG_RUNTIME_DIR"
  else if negb (str_empty (getenv "TMPDIR")) then getenv "TMPDIR"
  else "/tmp".

Definition notifyDir : string := path_join (path_join runtimeDir "tmux-tell") "notify".
End Files.

Definition key_byte (a : ascii) : bool :=
  alnum a || existsb (fun n => (Ascii.nat_of_ascii a =? n)%nat) [46; 95; 45]%nat.

(** One byte per rune: the rune itself or an underscore. *)
Fixpoint sanitize (fuel : nat) (s : string) : string :=
  match fuel, s with
  | S fuel', String a _ =>
      let rest := sanitize fuel' (Str.drop (fst (Str.decode_width (Str.bytes_of s))) s) in
      if key_byte a then String a rest else String (Ascii.ascii_of_nat 95) rest
  | _, _ => EmptyString
  end.
Definition sanitizeKey (key : string) : string := sanitize (String.length key) key.

(** The file a ring writes; the two names of directories cannot be written. *)
Definition ring_file (key : string) : option string :=
  let f := sanitizeKey key in
  if str_empty key || bool_decide (f ∈ ["."; ".."]) then None else Some f.

(** ** Events of the directory *)

Inductive fs_op : Type := Create | Write | Remove | Rename | Chmod.

#[global] Instance fs_op_eq_dec : EqDecision fs_op.
Proof. solve_decision. Defined.

Record fs_event : Type := mkFsEvent {
  ev_Name : string;
  ev_Op : list fs_op
}.

#[global] Instance fs_event_eq_dec : EqDecision fs_event.
Proof. solve_decision. Defined.

(** [filepath.Base] of a path that does not end in a slash. *)
Fixpoint base_from (cur s : string) : string :=
  match s with
  | EmptyString => cur
  | String a s' => if bool_decide (a = "/"%char) then base_from EmptyString s' else base_from (cur +:+ String a EmptyString) s'
  end.
Definition Base (path : string) : string := base_from EmptyString path.

(** The key a write or a creation is for. *)
Definition event_key (ev : fs_event) : option string :=
  if bool_decide (Create ∈ ev_Op ev) || bool_decide (Write ∈ ev_Op ev) then Some (Base (ev_Name ev)) else None.

(** Writing a file, new or not. *)
Definition write_events (dir file : string) (exists_ : bool) : list fs_event :=
  let name := path_join dir file in
  if exists_ then [mkFsEvent name [Write]] else [mkFsEvent name [Create]; mkFsEvent name [Write]].

(** The queue of the kernel merges an event with an equal one at its end. *)
Definition enqueue (q : list fs_event) (ev : fs_event) : list fs_event :=
  if bool_decide (last q = Some ev) then q else q ++ [ev].

(** ** The watcher *)

Record Watcher : Type := mkWatcher {
  w_subs : gmap string (list nat);
  w_next : nat;
  w_closed : bool
}.

Definition NewWatcher : Watcher := mkWatcher ∅ 0 false.

(** A new channel at the end of the subscribers of the key. *)
Definition Watch (key : string) (w : Watcher) : nat * Watcher :=
  let k := sanitizeKey key in
  (w_next w, mkWatcher (<[k := default [] (w_subs w !! k) ++ [w_next w]]> (w_subs w)) (S (w_next w)) (w_closed w)).

Fixpoint cut_first (ch : nat) (l : list nat) : list nat :=
  match l with
  | [] => []
  | c :: l' => if (c =? ch)%nat then l' else c :: cut_first ch l'
  end.

(** The cleanup of one subscription. *)
Definition release (key : string) (ch : nat) (w : Watcher) : Watcher :=
  let k := sanitizeKey key in
  let subs := cut_first ch (default [] (w_subs w !! k)) in
  mkWatcher (if bool_decide (subs = []) then delete k (w_subs w) else <[k := subs]> (w_subs w)) (w_next w) (w_closed w).

Definition Close (w : Watcher) : Watcher := mkWatcher (w_subs w) (w_next w) true.

(** The subscribers an event wakes, copied at once. *)
Definition fan (ev : fs_event) (w : Watcher) : list nat :=
  match event_key ev with Some k => default [] (w_subs w !! k) | None => [] end.

(** ** Everyone together *)

(** A process that waits: what it polls for, how many writes its last look at the
    store saw, whether it owes itself a look, and whether its context is done. *)
Record consumer : Type := mkConsumer {
  co_key : string;
  co_seen : nat;
  co_due : bool;
  co_done : bool
}.

Record bell : Type := mkBell {
  bl_w : Watcher;
  bl_loop : bool;
  bl_queue : list fs_event;
  bl_sending : list nat;
  bl_pending : gset nat;
  bl_consumers : gmap nat consumer;
  bl_files : gset string;
  bl_db : gmap string nat;
  bl_rung : gmap string nat
}.

Definition bell_start : bell := mkBell NewWatcher true [] [] ∅ ∅ ∅ ∅ ∅.

Definition count_of (m : gmap string nat) (key : string) : nat := default 0%nat (m !! key).

Section Steps.
Context (dir : string).

(** A ring after the writes of the key that were committed so far; [bl_rung] keeps how
    many there were at the last ring of the key that the file system reports. *)
Definition ring (key file : string) (b : bell) : bell :=
  mkBell (bl_w b) (bl_loop b) (foldl enqueue (bl_queue b) (write_events dir file (bool_decide (file ∈ bl_files b))))
    (bl_sending b) (bl_pending b) (bl_consumers b) ({[file]} ∪ bl_files b) (bl_db b)
    (<[key := count_of (bl_db b) key]> (bl_rung b)).

(** A ring of which only the events [evs] are reported: the queue of the file system
    overflows (the watcher ignores the error it then gets), or the file could not be
    written, of which its errors tell nobody. *)
Definition ring_lost (file : string) (evs : list fs_event) (made : bool) (b : bell) : bell :=
  mkBell (bl_w b) (bl_loop b) (foldl enqueue (bl_queue b) evs) (bl_sending b) (bl_pending b) (bl_consumers b)
    (if made then {[file]} ∪ bl_files b else bl_files b) (bl_db b) (bl_rung b).

Definition set_watcher (w : Watcher) (b : bell) : bell :=
  mkBell w (bl_loop b) (bl_queue b) (bl_sending b) (bl_pending b) (bl_consumers b) (bl_files b) (bl_db b) (bl_rung b).

Definition set_consumers (cs : gmap nat consumer) (b : bell) : bell :=
  mkBell (bl_w b) (bl_loop b) (bl_queue b) (bl_sending b) (bl_pending b) cs (bl_files b) (bl_db b) (bl_rung b).

Definition set_consumer (ch : nat) (c : consumer) (b : bell) : bell := set_consumers (<[ch := c]> (bl_consumers b)) b.

(** What is still to be taken, to be sent, and to be received. *)
Definition set_traffic (q : list fs_event) (sending : list nat) (pending : gset nat) (b : bell) : bell :=
  mkBell (bl_w b) (bl_loop b) q sending pending (bl_consumers b) (bl_files b) (bl_db b) (bl_rung b).

Definition set_loop (running : bool) (b : bell) : bell :=
  mkBell (bl_w b) running (bl_queue b) (bl_sending b) (bl_pending b) (bl_consumers b) (bl_files b) (bl_db b) (bl_rung b).

(** The steps of the watcher's goroutine.  Once the watcher is closed it may find the
    channel of the events closed, and returns. *)
Inductive demux_step (b : bell) : bell -> Prop :=
  | ds_take ev q :
      bl_loop b = true -> bl_queue b = ev :: q -> bl_sending b = [] ->
      demux_step b (set_traffic q (fan ev (bl_w b)) (bl_pending b) b)
  | ds_send ch rest :
      bl_sending b = ch :: rest ->
      demux_step b (set_traffic (bl_queue b) rest ({[ch]} ∪ bl_pending b) b)
  | ds_return :
      bl_loop b = true -> bl_sending b = [] -> w_closed (bl_w b) = true -> demux_step b (set_loop false b).

(** The cleanup of one subscription. *)
Inductive release_step (b : bell) : bell -> Prop :=
  | rs_release ch c :
      bl_consumers b !! ch = Some c -> co_done c || w_closed (bl_w b) = true ->
      release_step b (set_watcher (release (co_key c) ch (bl_w b)) (set_consumers (delete ch (bl_consumers b)) b)).

Inductive bell_step (b : bell) : bell -> Prop :=
  | bs_demux b' : demux_step b b' -> bell_step b b'
  | bs_commit key :
      bell_step b (mkBell (bl_w b) (bl_loop b) (bl_queue b) (bl_sending b) (bl_pending b) (bl_consumers b) (bl_files b)
                     (<[key := S (count_of (bl_db b) key)]> (bl_db b)) (bl_rung b))
  | bs_ring key file : ring_file key = Some file -> bell_step b (ring key file b)
  | bs_ring_lost key file evs made :
      ring_file key = Some file -> evs `sublist_of` write_events dir file (bool_decide (file ∈ bl_files b)) ->
      bell_step b (ring_lost file evs made b)
  | bs_other_event ev : bell_step b (set_traffic (enqueue (bl_queue b) ev) (bl_sending b) (bl_pending b) b)
  | bs_watch key :
      bell_step b (set_watcher (snd (Watch key (bl_w b)))
                     (set_consumer (fst (Watch key (bl_w b))) (mkConsumer key 0 true false) b))
  | bs_wake ch c :
      ch ∈ bl_pending b -> bl_consumers b !! ch = Some c ->
      bell_step b (set_traffic (bl_queue b) (bl_sending b) (bl_pending b ∖ {[ch]})
                     (set_consumer ch (mkConsumer (co_key c) (co_seen c) true (co_done c)) b))
  | bs_poll ch c :
      bl_consumers b !! ch = Some c ->
      bell_step b (set_consumer ch (mkConsumer (co_key c) (count_of (bl_db b) (co_key c)) false (co_done c)) b)
  | bs_cancel ch c :
      bl_consumers b !! ch = Some c ->
      bell_step b (set_consumer ch (mkConsumer (co_key c) (co_seen c) (co_due c) true) b)
  | bs_release b' : release_step b b' -> bell_step b b'
  | bs_close : bell_step b (set_watcher (Close (bl_w b)) b).

Definition bell_reachable : bell -> Prop := rtc bell_step bell_start.
End Steps.

(** * No wake is lost

    Whatever the order of rings, events, wakes, looks at the store and cancellations: as
    long as the watcher is open, a subscriber that has not seen a write its doorbell was
    heard for has a look, a wake or an event still to come; a closed watcher and an ended
    subscription leave nothing behind. *)

Import StrFacts.

(** ** Names of files *)

Definition no_slash (s : string) : Prop := has_byte "/"%char s = false.

Lemma sanitize_no_slash fuel s : no_slash (sanitize fuel s).
Proof.
  revert s. induction fuel as [|fuel IH]; intros s; [done|]. destruct s as [|a s]; [done|].
  cbn [sanitize]. unfold no_slash in *. destruct (key_byte a) eqn:E; cbn [has_byte]; rewrite IH, orb_false_r.
  - apply bool_decide_eq_false. by intros ->.
  - done.
Qed.

Lemma base_from_file cur s : no_slash s -> base_from cur s = cur +:+ s.
Proof.
  revert cur. induction s as [|a s IH]; intros cur H; cbn [base_from]; [by rewrite string_app_nil_r|].
  unfold no_slash in H. cbn [has_byte] in H. apply orb_false_iff in H as [Ha Hs]. rewrite Ha.
  rewrite IH by done. by rewrite string_app_assoc.
Qed.

Lemma base_from_dir file d : forall cur, no_slash file -> base_from cur (d +:+ String "/"%char file) = file.
Proof.
  induction d as [|a d IH]; intros cur H.
  - change (base_from EmptyString file = file). by rewrite base_from_file.
  - change (String a d +:+ String "/"%char file) with (String a (d +:+ String "/"%char file)). cbn [base_from].
    destruct (bool_decide _); by apply IH.
Qed.

Lemma Base_join dir file : no_slash file -> Base (path_join dir file) = file.
Proof. apply base_from_dir. Qed.

(** ** The queue *)

Lemma elem_of_enqueue q ev x : x ∈ enqueue q ev <-> x ∈ q \/ x = ev.
Proof.
  unfold enqueue. case_bool_decide as H.
  - apply last_Some_elem_of in H. naive_solver.
  - rewrite elem_of_app, list_elem_of_singleton. done.
Qed.

Lemma elem_of_enqueued evs q x : x ∈ foldl enqueue q evs <-> x ∈ q \/ x ∈ evs.
Proof.
  revert q. induction evs as [|ev evs IH]; intros q; simpl.
  - split; [by left|]. by intros [H|H%elem_of_nil].
  - rewrite IH, elem_of_enqueue, elem_of_cons. naive_solver.
Qed.

(** Writing the file of a key is an event of that key. *)
Lemma write_is_heard dir key file exists_ : ring_file key = Some file ->
  exists ev, ev ∈ write_events dir file exists_ /\ event_key ev = Some (sanitizeKey key).
Proof.
  unfold ring_file. destruct (_ || _); [done|]. intros [= <-].
  exists (mkFsEvent (path_join dir (sanitizeKey key)) [Write]). split; [by destruct exists_; set_solver|].
  change (Some (Base (path_join dir (sanitizeKey key))) = Some (sanitizeKey key)).
  f_equal. apply Base_join, sanitize_no_slash.
Qed.

(** ** Subscribers *)

Lemma elem_of_cut ch l x : NoDup l -> x ∈ cut_first ch l <-> x ∈ l /\ x <> ch.
Proof.
  induction 1 as [|c l Hc Hl IH]; simpl; [split; [by intros ?%elem_of_nil|by intros [?%elem_of_nil _]]|].
  destruct (Nat.eqb_spec c ch) as [->|Hne]; rewrite ?elem_of_cons, ?IH; [|naive_solver].
  split; [|naive_solver]. intros H. split; [by right|]. by intros ->.
Qed.

Lemma cut_NoDup ch l : NoDup l -> NoDup (cut_first ch l).
Proof.
  induction 1 as [|c l Hc Hl IH]; simpl; [constructor|]. destruct (c =? ch)%nat; [done|].
  constructor; [|done]. rewrite elem_of_cut by done. by intros [? _].
Qed.

Definition subs_of (w : Watcher) (f : string) : list nat := default [] (w_subs w !! f).

Lemma subs_of_Watch key w f :
  subs_of (snd (Watch key w)) f = if bool_decide (f = sanitizeKey key) then subs_of w f ++ [w_next w] else subs_of w f.
Proof.
  unfold subs_of, Watch. simpl. case_bool_decide as H; [subst f; by rewrite lookup_insert_eq|].
  by rewrite lookup_insert_ne by done.
Qed.

Lemma subs_of_release key ch w f :
  subs_of (release key ch w) f = if bool_decide (f = sanitizeKey key) then cut_first ch (subs_of w f) else subs_of w f.
Proof.
  unfold subs_of, release. simpl. set (k := sanitizeKey key). destruct (decide (f = k)) as [->|Hne].
  - rewrite (bool_decide_true (k = k)) by done. case_bool_decide as E.
    + by rewrite lookup_delete_eq, E.
    + by rewrite lookup_insert_eq.
  - rewrite (bool_decide_false (f = k)) by done. case_bool_decide.
    + by rewrite lookup_delete_ne by done.
    + by rewrite lookup_insert_ne by done.
Qed.

(** What a subscriber may count on. *)
Definition heard (b : bell) (ch : nat) (c : consumer) : Prop :=
  (count_of (bl_rung b) (co_key c) <= co_seen c)%nat \/ co_due c = true \/ ch ∈ bl_pending b \/ ch ∈ bl_sending b \/
  exists ev, ev ∈ bl_queue b /\ event_key ev = Some (sanitizeKey (co_key c)).

(** Exactly the running subscriptions are in the table, once, and no key is empty. *)
Record table_ok (w : Watcher) (cs : gmap nat consumer) : Prop := {
  tb_in : forall ch c, cs !! ch = Some c -> ch ∈ subs_of w (sanitizeKey (co_key c));
  tb_only : forall f ch, ch ∈ subs_of w f -> exists c, cs !! ch = Some c /\ sanitizeKey (co_key c) = f;
  tb_nodup : forall f, NoDup (subs_of w f);
  tb_full : forall f, w_subs w !! f <> Some [];
  tb_fresh : forall ch c, cs !! ch = Some c -> (ch < w_next w)%nat
}.

Record bell_ok (b : bell) : Prop := {
  bo_table : table_ok (bl_w b) (bl_consumers b);
  bo_heard : w_closed (bl_w b) = false -> forall ch c, bl_consumers b !! ch = Some c -> heard b ch c;
  bo_loop : w_closed (bl_w b) = false -> bl_loop b = true;
  bo_rung : forall key, (count_of (bl_rung b) key <= count_of (bl_db b) key)%nat
}.

Lemma start_ok : bell_ok bell_start.
Proof.
  split; [split|..]; simpl; try done.
  - by intros f ch ?%elem_of_nil.
  - intros f. constructor.
Qed.

Lemma table_watch key w cs : table_ok w cs ->
  table_ok (snd (Watch key w)) (<[fst (Watch key w) := mkConsumer key 0 true false]> cs).
Proof.
  intros [Hi Ho Hn Hf Hfr]. change (fst (Watch key w)) with (w_next w).
  assert (Hnew : forall c, cs !! w_next w <> Some c) by (intros c H; apply Hfr in H; lia).
  split.
  - intros ch c. rewrite lookup_insert_Some, subs_of_Watch. intros [[<- <-]|[Hne Hc]].
    + rewrite bool_decide_true by done. set_solver.
    + case_bool_decide; [apply elem_of_app; left|]; by apply Hi.
  - intros f ch. rewrite subs_of_Watch. intros H.
    assert (ch ∈ subs_of w f \/ (ch = w_next w /\ f = sanitizeKey key)) as [H'|[-> ->]].
    { case_bool_decide; [|by left]. apply elem_of_app in H as [H|H%list_elem_of_singleton]; [by left|by right]. }
    + destruct (Ho f ch H') as (c & Hc & E). exists c. split; [|done].
      rewrite lookup_insert_ne; [done|]. intros <-. by apply (Hnew c).
    + exists (mkConsumer key 0 true false). by rewrite lookup_insert_eq.
  - intros f. rewrite subs_of_Watch. case_bool_decide; [|done]. apply NoDup_app. split; [done|]. split.
    + intros x Hx ->%list_elem_of_singleton. destruct (Ho f _ Hx) as (c & Hc & _). by apply (Hnew c).
    + apply NoDup_singleton.
  - intros f. unfold Watch. simpl. rewrite lookup_insert_Some. intros [[_ H]|[_ H]]; [|by apply (Hf f)].
    by apply app_eq_nil in H as [_ H].
  - intros ch c. simpl. rewrite lookup_insert_Some. intros [[<- _]|[_ H]]; [lia|]. apply Hfr in H. lia.
Qed.

Lemma table_release w cs ch c : table_ok w cs -> cs !! ch = Some c ->
  table_ok (release (co_key c) ch w) (delete ch cs).
Proof.
  intros [Hi Ho Hn Hf Hfr] Hc. split.
  - intros ch' c'. rewrite lookup_delete_Some, subs_of_release. intros [Hne H]. apply Hi in H.
    case_bool_decide; [|done]. by apply elem_of_cut.
  - intros f ch'. rewrite subs_of_release. intros H.
    assert (ch' ∈ subs_of w f /\ ch' <> ch) as [H' Hne].
    { case_bool_decide as E; [by apply elem_of_cut in H|]. split; [done|]. intros ->.
      destruct (Ho f ch H) as (c' & Hc' & E'). congruence. }
    destruct (Ho f ch' H') as (c' & Hc' & E'). exists c'. by rewrite lookup_delete_ne.
  - intros f. rewrite subs_of_release. case_bool_decide; [by apply cut_NoDup|done].
  - intros f. unfold release. simpl. case_bool_decide as E.
    + rewrite lookup_delete_Some. intros [_ H]. by apply (Hf f).
    + rewrite lookup_insert_Some. intros [[_ H]|[_ H]]; [done|by apply (Hf f)].
  - intros ch' c'. rewrite lookup_delete_Some. intros [_ H]. simpl. by eapply Hfr.
Qed.

(** Changing what a consumer knows keeps the table. *)
Lemma table_same_key w cs ch c c' : table_ok w cs -> cs !! ch = Some c -> co_key c' = co_key c ->
  table_ok w (<[ch := c']> cs).
Proof.
  intros [Hi Ho Hn Hf Hfr] Hc E. split; try done.
  - intros ch1 c1. rewrite lookup_insert_Some. intros [[<- <-]|[_ H]]; [rewrite E|]; by apply Hi.
  - intros f ch1 H. destruct (Ho f ch1 H) as (c1 & Hc1 & E1). destruct (decide (ch1 = ch)) as [->|Hne].
    + exists c'. rewrite lookup_insert_eq. split; [done|]. rewrite E. congruence.
    + exists c1. by rewrite lookup_insert_ne.
  - intros ch1 c1. rewrite lookup_insert_Some. intros [[<- <-]|[_ H]]; by eapply Hfr.
Qed.

(** ** Every step *)

Section Bell.
Context (dir : string).

(** More to come only helps a subscriber. *)
Lemma heard_more b b' ch c : heard b ch c -> bl_rung b' = bl_rung b ->
  (ch ∈ bl_pending b -> ch ∈ bl_pending b') -> (ch ∈ bl_sending b -> ch ∈ bl_sending b' \/ ch ∈ bl_pending b') ->
  (forall ev, ev ∈ bl_queue b -> event_key ev = Some (sanitizeKey (co_key c)) -> ev ∈ bl_queue b' \/ ch ∈ bl_sending b') ->
  heard b' ch c.
Proof.
  intros H Hr Hp Hs Hq. unfold heard in *. rewrite Hr.
  destruct H as [H|[H|[H|[H|(ev & H & He)]]]]; [by left|by right; left|do 2 right; left; auto| |].
  - destruct (Hs H) as [?|?]; [do 3 right; by left|do 2 right; by left].
  - destruct (Hq ev H He) as [?|?]; [do 4 right; eauto|do 3 right; by left].
Qed.

Lemma demux_ok b b' : demux_step b b' -> bell_ok b -> bell_ok b'.
Proof.
  intros [ev q Hl Hq Hs|ch rest Hs|Hl Hs Hcl] [Ht Hh Hlp Hr]; split; simpl; try done; try (intros; congruence);
    intros Ho ch' c Hc; (eapply heard_more; [by apply Hh|done|..]); simpl; rewrite ?Hq, ?Hs.
  - done.
  - by intros ?%elem_of_nil.
  - intros ev' [->|H]%elem_of_cons E; [right|by left]. unfold fan. rewrite E. by apply (tb_in _ _ Ht).
  - set_solver.
  - rewrite elem_of_cons. set_solver.
  - by left.
Qed.

Lemma ring_ok key file b : ring_file key = Some file -> bell_ok b -> bell_ok (ring dir key file b).
Proof.
  intros Hd [Ht Hh Hl Hr]. split; [done| |done|].
  - intros Ho ch c Hc. destruct (decide (co_key c = key)) as [E|Hne].
    + do 4 right. destruct (write_is_heard dir key file (bool_decide (file ∈ bl_files b)) Hd) as (ev & Hev & He).
      exists ev. rewrite E. split; [|done]. simpl. apply elem_of_enqueued. by right.
    + specialize (Hh Ho ch c Hc). unfold heard in *. simpl. unfold count_of in *. rewrite lookup_insert_ne by done.
      destruct Hh as [?|[?|[?|[?|(ev & H & He)]]]]; eauto 6. do 4 right. exists ev.
      split; [|done]. apply elem_of_enqueued. by left.
  - intros k. simpl. unfold count_of at 1. destruct (decide (k = key)) as [->|Hne].
    + by rewrite lookup_insert_eq.
    + rewrite lookup_insert_ne by done. apply Hr.
Qed.

(** A step that keeps the watcher, the subscribers and the counts. *)
Lemma more_traffic_ok b b' : bell_ok b -> bl_w b' = bl_w b -> bl_loop b' = bl_loop b ->
  bl_consumers b' = bl_consumers b -> bl_rung b' = bl_rung b ->
  (forall key, (count_of (bl_db b) key <= count_of (bl_db b') key)%nat) ->
  bl_pending b' = bl_pending b -> bl_sending b' = bl_sending b ->
  (forall ev, ev ∈ bl_queue b -> ev ∈ bl_queue b') -> bell_ok b'.
Proof.
  intros [Ht Hh Hl Hr] Ew El Ec Er Hd Ep Es Hq. split; rewrite ?Ew, ?El, ?Ec; try done.
  - intros Ho ch c Hc. eapply heard_more; [by apply Hh|done|by rewrite Ep|rewrite Es; by left|]. intros ev H _. left. auto.
  - intros key. rewrite Er. etrans; [apply Hr|apply Hd].
Qed.

(** A consumer that learns something, the rest as it was. *)
Lemma consumer_ok b b' ch c c' : bell_ok b -> bl_consumers b !! ch = Some c -> co_key c' = co_key c ->
  bl_w b' = bl_w b -> bl_loop b' = bl_loop b -> bl_queue b' = bl_queue b -> bl_sending b' = bl_sending b ->
  bl_db b' = bl_db b -> bl_rung b' = bl_rung b -> bl_consumers b' = <[ch := c']> (bl_consumers b) ->
  (forall ch', ch' <> ch -> ch' ∈ bl_pending b -> ch' ∈ bl_pending b') ->
  (w_closed (bl_w b) = false -> heard b' ch c') -> bell_ok b'.
Proof.
  intros [Ht Hh Hl Hr] Hc Hk Ew El Eq Es Ed Er Ec Hp Hn. split.
  - rewrite Ew, Ec. by eapply table_same_key.
  - rewrite Ew. intros Ho ch1 c1. rewrite Ec, lookup_insert_Some. intros [[<- <-]|[Hne H]]; [by apply Hn|].
    eapply heard_more; [by apply Hh| |by apply Hp| |]; rewrite ?Eq, ?Es; auto.
  - by rewrite Ew, El.
  - by rewrite Er, Ed.
Qed.

Lemma release_ok b b' : release_step b b' -> bell_ok b -> bell_ok b'.
Proof.
  intros [ch c Hc Hd] [Ht Hh Hl Hr]. split; simpl; try done; [by apply table_release|].
  intros Ho ch' c'. rewrite lookup_delete_Some. intros [_ Hc'].
  by eapply heard_more; [by apply Hh|..]; auto.
Qed.

Lemma bell_step_ok b b' : bell_step dir b b' -> bell_ok b -> bell_ok b'.
Proof.
  intros Hstep Hb. pose proof Hb as [Ht Hh Hl Hr].
  destruct Hstep as [? H|key|key file H|key file evs made H Hsub|ev|key|ch c Hp Hc|ch c Hc|ch c Hc|? H|].
  - by eapply demux_ok.
  - apply (more_traffic_ok b); try done. intros k. simpl. unfold count_of at 2.
    destruct (decide (k = key)) as [->|Hne]; [rewrite lookup_insert_eq; simpl; lia|by rewrite lookup_insert_ne].
  - by apply ring_ok.
  - apply (more_traffic_ok b); try done. intros ev Hev. apply elem_of_enqueued. by left.
  - apply (more_traffic_ok b); try done. intros ev' H. apply elem_of_enqueue. by left.
  - split; simpl; try done; [by apply (table_watch key)|]. intros Ho ch c. rewrite lookup_insert_Some.
    intros [[<- <-]|[_ H]]; [by right; left|]. by eapply heard_more; [by apply Hh|..]; auto.
  - apply (consumer_ok b _ ch c (mkConsumer (co_key c) (co_seen c) true (co_done c))); try done; simpl;
      [|by right; left].
    intros ch' Hne Hin. apply elem_of_difference. by rewrite elem_of_singleton.
  - apply (consumer_ok b _ ch c (mkConsumer (co_key c) (count_of (bl_db b) (co_key c)) false (co_done c))); try done.
    left. simpl. apply Hr.
  - apply (consumer_ok b _ ch c (mkConsumer (co_key c) (co_seen c) (co_due c) true)); try done.
    intros Ho. exact (Hh Ho ch c Hc).
  - by eapply release_ok.
  - split; simpl; try done. by destruct Ht.
Qed.

Lemma bell_reachable_ok b : bell_reachable dir b -> bell_ok b.
Proof.
  unfold bell_reachable. intros H. assert (bell_ok bell_start -> bell_ok b) as Hs; [|apply Hs, start_ok].
  induction H as [|b1 b2 b3 H1 _ IH]; [done|]. intros Hb. apply IH. by eapply bell_step_ok.
Qed.

(** The watcher's goroutine, left alone, comes to rest. *)
Definition at_rest (b : bell) : Prop := bl_queue b = [] /\ bl_sending b = [].

Definition same_world (b b' : bell) : Prop :=
  bl_w b' = bl_w b /\ bl_loop b' = bl_loop b /\ bl_consumers b' = bl_consumers b /\
  bl_rung b' = bl_rung b /\ bl_db b' = bl_db b.

Lemma sends_done b : exists b', rtc demux_step b b' /\ bl_sending b' = [] /\ bl_queue b' = bl_queue b /\ same_world b b'.
Proof.
  remember (bl_sending b) as l eqn:E. revert b E. induction l as [|ch l IH]; intros b E.
  - exists b. split; [apply rtc_refl|]. by rewrite <- E.
  - edestruct (IH (set_traffic (bl_queue b) l ({[ch]} ∪ bl_pending b) b)) as (b' & Hb' & Hs & Hq & Hw); [done|].
    exists b'. split; [|done]. eapply rtc_l; [|exact Hb']. by apply ds_send.
Qed.

Lemma comes_to_rest b : bl_loop b = true -> exists b', rtc demux_step b b' /\ at_rest b' /\ same_world b b'.
Proof.
  remember (bl_queue b) as q eqn:E. revert b E. induction q as [|ev q IH]; intros b E Hl.
  - destruct (sends_done b) as (b' & H & Hs & Hq & Hw). exists b'. split; [done|]. split; [|done]. split; congruence.
  - destruct (sends_done b) as (b1 & H1 & Hs1 & Hq1 & Hw1).
    assert (Hl1 : bl_loop b1 = true) by (destruct Hw1 as (_ & -> & _); done).
    edestruct (IH (set_traffic q (fan ev (bl_w b1)) (bl_pending b1) b1)) as (b2 & H2 & Hr2 & Hw2); [done|done|].
    exists b2. split; [|split; [done|]].
    + etrans; [exact H1|]. eapply rtc_l; [|exact H2]. eapply ds_take; [done| |done]. by rewrite Hq1, <- E.
    + unfold same_world in *. simpl in *. destruct Hw1 as (?&?&?&?&?), Hw2 as (?&?&?&?&?). by split_and!; congruence.
Qed.

Lemma demux_steps_ok b b' : rtc demux_step b b' -> bell_ok b -> bell_ok b'.
Proof. induction 1 as [|b1 b2 b3 H1 _ IH]; [done|]. intros Hb. apply IH. by eapply demux_ok. Qed.

(** Without subscribers the table is empty. *)
Lemma table_empty b : bell_ok b -> bl_consumers b = ∅ -> w_subs (bl_w b) = ∅.
Proof.
  intros Hb E. apply map_empty. intros f. destruct (w_subs (bl_w b) !! f) as [l|] eqn:El; [|done]. exfalso.
  destruct l as [|ch l]; [by apply (tb_full _ _ (bo_table _ Hb) f)|].
  destruct (tb_only _ _ (bo_table _ Hb) f ch) as (c & Hc & _); [unfold subs_of; rewrite El; set_solver|].
  by rewrite E, lookup_empty in Hc.
Qed.

(** The goroutine of a closed watcher returns. *)
Lemma closed_returns b : w_closed (bl_w b) = true ->
  exists b', rtc demux_step b b' /\ bl_loop b' = false /\ bl_w b' = bl_w b /\ bl_consumers b' = bl_consumers b.
Proof.
  intros Hc. destruct (sends_done b) as (b1 & H1 & Hs & _ & (Ew & El & Ec & _)).
  destruct (bl_loop b1) eqn:E; [|by exists b1].
  exists (set_loop false b1). split; [|done]. eapply rtc_r; [exact H1|]. apply ds_return; congruence.
Qed.

(** ... and so do the cleanups of its subscriptions. *)
Lemma closed_releases n : forall b, size (bl_consumers b) = n -> w_closed (bl_w b) = true ->
  exists b', rtc release_step b b' /\ bl_loop b' = bl_loop b /\ bl_consumers b' = ∅.
Proof.
  induction n as [|n IH]; intros b Hn Hc.
  - exists b. split; [apply rtc_refl|]. split; [done|]. by apply map_size_empty_inv.
  - destruct (map_choose (bl_consumers b)) as (ch & c & Hch).
    { intros E. by rewrite E, map_size_empty in Hn. }
    set (b1 := set_watcher (release (co_key c) ch (bl_w b)) (set_consumers (delete ch (bl_consumers b)) b)).
    destruct (IH b1) as (b' & H & Hl & He); [|done|].
    { simpl. rewrite map_size_delete_Some by eauto. rewrite Hn. lia. }
    exists b'. split; [|done]. eapply rtc_l; [|exact H]. apply rs_release; [done|]. by rewrite Hc, orb_true_r.
Qed.

Lemma release_steps_ok b b' : rtc release_step b b' -> bell_ok b -> bell_ok b'.
Proof. induction 1 as [|b1 b2 b3 H1 _ IH]; [done|]. intros Hb. apply IH. by eapply release_ok. Qed.

(** C31: no wake is lost.  In every state the processes can reach, in any order of
    commits, rings (those of which the file system loses the events among them), events
    of other files, wakes, looks, cancellations, cleanups and the closing of the watcher:
    while the watcher is open its goroutine runs, and a subscriber whose last look missed
    a write that was there at the last ring of its key the file system reported owes
    itself a look, has a wake pending, is about to get one, or has an event in the queue;
    so once the goroutine has come to rest, which it does by itself, the wake is pending.
    (A ring whose events are lost, and a closed watcher, wake nobody; the callers go on
    polling.)  A ring never counts writes that were not committed; when the last
    subscription is gone the watcher's table is empty; and after [Close] the goroutine
    returns and all subscriptions can end, which leaves the table empty. *)
Theorem no_wake_lost b : bell_reachable dir b ->
  (forall key, (count_of (bl_rung b) key <= count_of (bl_db b) key)%nat) /\
  (bl_consumers b = ∅ -> w_subs (bl_w b) = ∅) /\
  (w_closed (bl_w b) = false ->
   bl_loop b = true /\
   exists b', rtc demux_step b b' /\ at_rest b' /\ bl_consumers b' = bl_consumers b /\ bl_rung b' = bl_rung b /\
     forall ch c, bl_consumers b' !! ch = Some c -> co_due c = false -> (co_seen c < count_of (bl_rung b') (co_key c))%nat ->
       ch ∈ bl_pending b') /\
  (w_closed (bl_w b) = true ->
   exists b1 b2, rtc demux_step b b1 /\ rtc release_step b1 b2 /\ bl_loop b2 = false /\ w_subs (bl_w b2) = ∅).
Proof.
  intros Hreach. pose proof (bell_reachable_ok _ Hreach) as Hb. split; [apply Hb|].
  split; [by apply table_empty|]. split.
  - intros Ho. pose proof (bo_loop _ Hb Ho) as Hl. split; [done|].
    destruct (comes_to_rest b Hl) as (b' & Hsteps & [Hq Hs] & (Hw & El & Ec & Er & Ed)). exists b'.
    split; [done|]. split; [done|]. split; [done|]. split; [done|]. intros ch c Hc Hdue Hlt.
    pose proof (demux_steps_ok _ _ Hsteps Hb) as Hb'. rewrite <- Hw in Ho.
    destruct (bo_heard _ Hb' Ho ch c Hc) as [H|[H|[H|[H|(ev & H & _)]]]]; [lia|congruence|done|..].
    + rewrite Hs in H. by apply elem_of_nil in H.
    + rewrite Hq in H. by apply elem_of_nil in H.
  - intros Hcl. destruct (closed_returns b Hcl) as (b1 & H1 & Hl1 & Ew & Ec).
    destruct (closed_releases _ b1 eq_refl ltac:(by rewrite Ew)) as (b2 & H2 & Hl2 & E2).
    exists b1, b2. split; [done|]. split; [done|]. split; [by rewrite Hl2|].
    apply table_empty; [|done]. eapply release_steps_ok; [exact H2|]. by eapply demux_steps_ok.
Qed.
End Bell.

(** A subscriber looks, a message is committed for it and its doorbell is rung. *)
Lemma no_wake_lost_witness :
  exists b b', bell_reachable "/run/tmux-tell/notify" b /\ bl_pending b = ∅ /\
    bl_consumers b !! 0%nat = Some (mkConsumer "bob" 0 false false) /\
    rtc demux_step b b' /\ 0%nat ∈ bl_pending b'.
Proof.
  set (dir := "/run/tmux-tell/notify").
  assert (exists b, bell_reachable dir b /\ bl_pending b = ∅ /\ count_of (bl_rung b) "bob" = 1%nat /\
            bl_consumers b !! 0%nat = Some (mkConsumer "bob" 0 false false) /\
            w_closed (bl_w b) = false) as (b & Hb & Hp & Hr & Hc & Ho).
  { eexists. split; [|split; [|split; [|split]]].
    - eapply rtc_l; [apply (bs_watch dir _ "bob")|].
      eapply rtc_l; [eapply (bs_poll dir _ 0%nat); apply lookup_insert_eq|].
      eapply rtc_l; [apply (bs_commit dir _ "bob")|].
      eapply rtc_l; [by apply (bs_ring dir _ "bob" "bob")|]. apply rtc_refl.
    - done.
    - done.
    - cbn [bl_consumers ring set_consumer set_consumers]. apply lookup_insert_eq.
    - done. }
  destruct (no_wake_lost dir b Hb) as (_ & _ & H0 & _). destruct (H0 Ho) as (_ & b' & Hs & _ & Ec & Er & H).
  exists b, b'. repeat (split; [done|]). eapply H; [by rewrite Ec, Hc|done|]. rewrite Er. simpl. rewrite Hr. lia.
Defined.
