(* ===== verification/Codex.v ===== *)
(** * Installing the Codex adapter (internal/cli/codex_install.go)

    The configuration file of another program is edited as text: an old section is
    renamed or removed line by line, missing hook blocks are appended.  The decoder of
    TOML and the writing of the file are parameters. *)

From S2P Require Import Prelude GoStd StoreTypes Agents TmuxIO ObserveGate Mailman Discover Send Upkeep UpkeepProps Register Views Fleet.

Open Scope Z_scope.
Open Scope tell_scope.

Definition codexHookCommand : string := "tmux-tell-codex hook-context".

(** [strings.ReplaceAll] for a text that is not empty; [skip] bytes of a match are left. *)
Fixpoint replace_from (skip : nat) (old new s : string) : string :=
  match s with
  | EmptyString => EmptyString
  | String a s' =>
      match skip with
      | S k => replace_from k old new s'
      | O => if Str.HasPrefix s old then new +:+ replace_from (String.length old - 1) old new s'
             else String a (replace_from 0 old new s')
      end
  end.
Definition ReplaceAll (s old new : string) : string := replace_from 0 old new s.

(** ** Headers *)

(** A blank or a tab. *)
Definition tab_or_space (a : ascii) : bool := (Ascii.nat_of_ascii a =? 32)%nat || (Ascii.nat_of_ascii a =? 9)%nat.

Fixpoint skip_blanks (s : string) : string :=
  match s with
  | String a s' => if tab_or_space a then skip_blanks s' else s
  | EmptyString => s
  end.

Definition starts_with (a : ascii) (s : string) : option string :=
  match s with String b s' => if bool_decide (b = a) then Some s' else None | EmptyString => None end.

(** What follows the first closing bracket. *)
Fixpoint after_bracket (s : string) : option string :=
  match s with
  | EmptyString => None
  | String a s' => if bool_decide (a = "]"%char) then Some s' else after_bracket s'
  end.

Definition at_eol (s : string) : bool :=
  match s with EmptyString => true | String a _ => bool_decide (a = Str.nl) end.

Definition server_header (name : string) : string := "[mcp_servers." +:+ name.

(** The header of the server, or of one of its tables, to the end of a line; a header
    may only have blanks around it. *)
Definition header_here (name s : string) : bool :=
  match Str.CutPrefix (skip_blanks s) (server_header name) with
  | None => false
  | Some r =>
      match starts_with "]"%char r with
      | Some r' => at_eol (skip_blanks r')
      | None => match starts_with "."%char r with
                | Some r' => match after_bracket r' with Some r'' => at_eol (skip_blanks r'') | None => false end
                | None => false
                end
      end
  end.

(** The same at the start of any line. *)
Fixpoint header_from (at_start : bool) (name s : string) : bool :=
  (at_start && header_here name s) ||
  match s with
  | EmptyString => false
  | String a s' => header_from (bool_decide (a = Str.nl)) name s'
  end.
Definition header_in (name s : string) : bool := header_from true name s.

(** Any line whose first byte after blanks is an opening bracket. *)
Definition any_header (line : string) : bool :=
  match starts_with "["%char (skip_blanks line) with Some _ => true | None => false end.

(** The assignment of the command. *)
Definition cmd_line (line : string) : bool :=
  match Str.CutPrefix (skip_blanks line) "command" with
  | Some r => match starts_with "="%char (skip_blanks r) with Some _ => true | None => false end
  | None => false
  end.

(** ** Migrating an old section *)

Definition legacyMcpRenames : list (string * string) := [("tmux-msg", "tmux-tell")].

Fixpoint rename_lines (oldName newName : string) (inSection : bool) (lines : list string) : list string :=
  match lines with
  | [] => []
  | line :: rest =>
      if header_in oldName line then ReplaceAll line oldName newName :: rename_lines oldName newName true rest
      else if any_header line then line :: rename_lines oldName newName false rest
      else if inSection && cmd_line line && Str.Contains line (oldName +:+ "-")
      then ReplaceAll line (oldName +:+ "-") (newName +:+ "-") :: rename_lines oldName newName inSection rest
      else line :: rename_lines oldName newName inSection rest
  end.

Definition renameLegacyMcpSections (content oldName newName : string) : string :=
  Str.Join (rename_lines oldName newName false (Str.Lines content)) nl_str.

Fixpoint remove_lines (name : string) (skipping : bool) (lines : list string) : list string :=
  match lines with
  | [] => []
  | line :: rest =>
      if header_in name line then remove_lines name true rest
      else if skipping && any_header line then line :: remove_lines name false rest
      else if skipping then remove_lines name skipping rest
      else line :: remove_lines name skipping rest
  end.

Definition removeTomlSections (content name : string) : string :=
  Str.Join (remove_lines name false (Str.Lines content)) nl_str.

Inductive migration : Type := NotMigrated | Renamed | Removed.

Definition migrateLegacyMcpSection (content oldName newName : string) : string * migration :=
  if negb (header_in oldName content) then (content, NotMigrated)
  else if header_in newName content then (removeTomlSections content oldName, Removed)
  else (renameLegacyMcpSections content oldName newName, Renamed).

Definition migration_notice (configPath oldName newName : string) (m : migration) : list string :=
  match m with
  | NotMigrated => []
  | Renamed => ["migrating_legacy_codex_mcp_section old=mcp_servers." +:+ oldName +:+ " new=mcp_servers." +:+ newName +:+
                " path=" +:+ configPath]
  | Removed => ["removing_orphaned_codex_mcp_section old_section=[mcp_servers." +:+ oldName +:+ "] reason=" +:+
                Str.dquote +:+ "post-rename coexistence with canonical [mcp_servers." +:+ newName +:+ "]" +:+ Str.dquote]
  end.

(** All renames of the table, with their notices. *)
Definition migrate_all (configPath content : string) : string * list string :=
  foldl (fun acc r =>
           let '(content', m) := migrateLegacyMcpSection (fst acc) (fst r) (snd r) in
           (content', snd acc ++ migration_notice configPath (fst r) (snd r) m))
        (content, []) legacyMcpRenames.

(** ** Merging the hooks *)

(** The commands of the two hooks, and of the server its command and its pinned name. *)
Record codexConfigProbe : Type := mkProbe {
  cp_UserPromptSubmit : option string;
  cp_SessionStart : option string;
  cp_server : option (string * option string)
}.

Definition empty_probe : codexConfigProbe := mkProbe None None None.

Record codexMerge : Type := mkMerge {
  cm_hooksWritten : bool;
  cm_alreadyOK : bool;
  cm_warnings : list string;
  cm_notices : list string
}.

Definition toml_hook_block (name : string) : string :=
  "[hooks." +:+ name +:+ "]" +:+ nl_str +:+ "command = " +:+ Str.Quote codexHookCommand.

(** What is missing, and what is there but different. *)
Definition hook_missing (name : string) (there : option string) : list string :=
  match there with None => [toml_hook_block name] | Some _ => [] end.

Definition hook_warning (name : string) (there : option string) : list string :=
  match there with
  | Some c => if bool_decide (c = codexHookCommand) then []
              else ["hooks." +:+ name +:+ ".command is " +:+ Str.Quote c +:+ " (not " +:+ Str.Quote codexHookCommand +:+
                    "); skipped — update manually"]
  | None => []
  end.

Definition stale_binary_warning (p : codexConfigProbe) : list string :=
  match cp_server p with
  | Some (c, _) =>
      if negb (str_empty c) && Str.Contains c "tmux-msg-"
      then ["mcp_servers.tmux-tell.command is " +:+ Str.Quote c +:+
            " (still names a pre-rename tmux-msg-* binary); skipped — update manually to the tmux-tell-* binary"]
      else []
  | None => []
  end.

Definition pinned_name_warning (p : codexConfigProbe) : list string :=
  match cp_server p with
  | Some (_, Some n) =>
      if str_empty n then []
      else ["mcp_servers.tmux-tell.env.TMUX_AGENT_NAME is " +:+ Str.Quote n +:+
            "; global MCP agent pins apply to every Codex chamber and can misattribute sends — remove it to use parent-pane identity resolution (#553)"]
  | _ => []
  end.

(** The text appended to the file. *)
Definition appended (content : string) (blocks : list string) : string :=
  let lead :=
    if str_empty content || bool_decide (blocks = []) then EmptyString
    else (if Str.HasSuffix content nl_str then EmptyString else nl_str) +:+ nl_str in
  lead +:+ Str.Join (map (fun b => b +:+ nl_str) blocks) nl_str.

Section Merge.
(** Reading the file ([None]: there is none), decoding it, and the step at which
    writing it fails. *)
Context (decode : string -> result codexConfigProbe) (write_fault : string -> option (string * error)).

(** The outcome, and the new text of the file when it was written. *)
Definition mergeCodexConfig (configPath : string) (existing : result (option string)) (dryRun : bool)
    : result codexMerge * option string :=
  match existing with
  | Err e => (Err (ErrWrap ("read: " +:+ error_text e) e), None)
  | Ok file =>
      let '(content, notices) := migrate_all configPath (default EmptyString file) in
      let migrated := negb (bool_decide (notices = [])) in
      match (if str_empty content then Ok empty_probe else decode content) with
      | Err e => (Err (ErrWrap ("parse TOML: " +:+ error_text e) e), None)
      | Ok p =>
          let blocks := hook_missing "UserPromptSubmit" (cp_UserPromptSubmit p) ++
                        hook_missing "SessionStart" (cp_SessionStart p) in
          let warnings := stale_binary_warning p ++ hook_warning "UserPromptSubmit" (cp_UserPromptSubmit p) ++
                          hook_warning "SessionStart" (cp_SessionStart p) ++ pinned_name_warning p in
          let hooksWritten := negb (bool_decide (blocks = [])) in
          if bool_decide (blocks = []) && negb migrated
          then (Ok (mkMerge false (bool_decide (warnings = [])) warnings notices), None)
          else if dryRun then (Ok (mkMerge hooksWritten false warnings notices), None)
          else
            let new := content +:+ appended content blocks in
            match write_fault new with
            | Some (stage, e) => (Err (ErrWrap (stage +:+ ": " +:+ error_text e) e), None)
            | None => (Ok (mkMerge hooksWritten false warnings notices), Some new)
            end
      end
  end.
End Merge.

(** ** The command *)

Record codexInstallResult : Type := mkInstall {
  ci_OK : bool;
  ci_Agent : string;
  ci_Registered : bool;
  ci_HooksWritten : bool;
  ci_AlreadyOK : bool;
  ci_Warnings : list string;
  ci_Notices : list string
}.

Definition emitCodexInstallResult (configPath agentName : string) (dryRun : bool) (r : codexInstallResult) : list string :=
  (if ci_AlreadyOK r then ["OK" +:+ String Str.tab EmptyString +:+ "codex config already wired for " +:+ Str.Quote agentName +:+ " — no changes"]
   else map (fun n => "NOTICE" +:+ String Str.tab n) (ci_Notices r) ++
        (if ci_Registered r then ["REGISTERED" +:+ String Str.tab (agentName +:+ " delivery_mode=hook-context")] else []) ++
        (if ci_HooksWritten r then ["WRITTEN" +:+ String Str.tab ("hooks.UserPromptSubmit + hooks.SessionStart → " +:+ configPath)] else []) ++
        map (fun w => "WARN" +:+ String Str.tab w) (ci_Warnings r)) ++
  (if negb dryRun && negb (ci_AlreadyOK r) then
     [EmptyString; "Post-install: launch or restart your Codex session."; "When Codex prompts for hook approval, enable:";
      "  UserPromptSubmit: " +:+ codexHookCommand; "  SessionStart:     " +:+ codexHookCommand;
      "Messages addressed to " +:+ Str.Quote agentName +:+ " will appear as additionalContext on each turn."]
   else []) ++
  (if ci_OK r then ["OK" +:+ String Str.tab "codex-install complete"] else []).

Definition codex_not_found (BinaryName agentName : string) : string :=
  "agent " +:+ Str.Quote agentName +:+ " not found after discover — ensure the codex pane is in the current tmux session with TMUX_AGENT_NAME=" +:+
  agentName +:+ " set, or run `" +:+ BinaryName +:+ " register --name " +:+ agentName +:+ " --delivery-mode=hook-context` first".

Section Install.
Context (getenv : string -> string) (BinaryName : string)
  (walk : history -> result (list Resolved)) (order : list Resolved -> list Resolved)
  (decode : string -> result codexConfigProbe) (read_file : string -> result (option string))
  (write_fault : string -> option (string * error)).

(** The mode of the agent; a refusal with its exit code. *)
Definition install_register (agentName : string) : M (option (string * Z)) :=
  a <! query "GetAgent" (GetAgent agentName) ;;
  match a with
  | Err _ => go (Some (codex_not_found BinaryName agentName, exitDataErr))
  | Ok a =>
      if bool_decide (a_delivery_mode a = DeliveryModeHookContext) then go None
      else
        r <! store "SetDeliveryMode" (SetDeliveryMode agentName DeliveryModeHookContext) ;;
        go (match r with
            | Err e => Some ("set hook-context delivery mode for " +:+ Str.Quote agentName +:+ ": " +:+ error_text e, exitInternal)
            | Ok _ => None
            end)
  end.

Definition install_config (resolvedConfig agentName : string) (dryRun : bool)
    : outcome codexInstallResult * option string :=
  match mergeCodexConfig decode write_fault resolvedConfig (read_file resolvedConfig) dryRun with
  | (Err e, _) => (Failed ("write codex config " +:+ resolvedConfig +:+ ": " +:+ error_text e) exitInternal, None)
  | (Ok m, new) =>
      (Done (mkInstall true agentName (negb dryRun) (cm_hooksWritten m) (cm_alreadyOK m) (cm_warnings m) (cm_notices m)), new)
  end.

(** The result, and what was written to the file. *)
Definition runCodexInstallCLI (agentName codexConfigPath : string) (dryRun skipDiscover : bool)
    : M (outcome codexInstallResult * option string) :=
  let home := getenv "HOME" in
  if str_empty agentName then go (Failed "--agent required" exitUsage, None)
  else if str_empty codexConfigPath && str_empty home
  then go (Failed "HOME not set; pass --codex-config to specify the config path" exitUsage, None)
  else
    let resolvedConfig := if str_empty codexConfigPath then path_join (path_join home ".codex") "config.toml" else codexConfigPath in
    d <! (if skipDiscover then go None
          else r <! runDiscoverWithStore walk order false false "json" ;;
               go (match r with Failed _ code => Some code | Done _ => None end)) ;;
    match d with
    | Some code => go (Failed "discover failed; see stderr" code, None)
    | None =>
        if dryRun then go (install_config resolvedConfig agentName dryRun)
        else
          r <! install_register agentName ;;
          go (match r with
              | Some (msg, code) => (Failed msg code, None)
              | None => install_config resolvedConfig agentName dryRun
              end)
    end.
End Install.

(** * What the installation does to the file of another program

    The migration touches only lines of the old section, and those as documented; a
    second one finds nothing to do.  The merge keeps the text it found and appends the
    missing blocks. *)

Import StrFacts Str.

(** ** Headers are found line by line *)

Lemma tab_not_nl a : tab_or_space a = true -> a <> nl.
Proof. by intros H ->. Qed.

Lemma skip_blanks_line s rest : one_line s -> skip_blanks (s +:+ String nl rest) = skip_blanks s +:+ String nl rest.
Proof.
  induction s as [|a s IH]; intros H; [done|].
  change (String a s +:+ String nl rest) with (String a (s +:+ String nl rest)). cbn [skip_blanks].
  unfold one_line in H. cbn [has_byte] in H. apply orb_false_iff in H as [_ H].
  destruct (tab_or_space a); [by apply IH|done].
Qed.

Lemma skip_blanks_one_line s : one_line s -> one_line (skip_blanks s).
Proof.
  induction s as [|a s IH]; intros H; [done|]. cbn [skip_blanks]. destruct (tab_or_space a); [|done].
  unfold one_line in H. cbn [has_byte] in H. apply orb_false_iff in H as [_ H]. by apply IH.
Qed.

(** A prefix without line breaks ends within the line. *)
Lemma CutPrefix_line p s rest : one_line p -> one_line s ->
  CutPrefix (s +:+ String nl rest) p = option_map (fun r => r +:+ String nl rest) (CutPrefix s p).
Proof.
  intros Hp Hs. destruct (CutPrefix s p) as [r|] eqn:E; simpl.
  - apply CutPrefix_Some in E as ->. rewrite string_app_assoc. by apply CutPrefix_Some.
  - destruct (CutPrefix (s +:+ String nl rest) p) as [r|] eqn:E'; [|done]. exfalso.
    apply CutPrefix_Some in E'. revert p E E' Hp. induction s as [|a s IH]; intros p E E' Hp.
    + destruct p as [|b p]; [by rewrite (proj2 (CutPrefix_Some EmptyString EmptyString EmptyString) eq_refl) in E|].
      change (EmptyString +:+ String nl rest) with (String nl rest) in E'.
      change (String b p +:+ r) with (String b (p +:+ r)) in E'. injection E' as <- _. done.
    + destruct p as [|b p].
      * assert (CutPrefix (String a s) EmptyString = Some (String a s)) as H by (by apply CutPrefix_Some). congruence.
      * change (String a s +:+ String nl rest) with (String a (s +:+ String nl rest)) in E'.
        change (String b p +:+ r) with (String b (p +:+ r)) in E'. injection E' as <- E'.
        unfold one_line in Hs, Hp. cbn [has_byte] in Hs, Hp.
        apply orb_false_iff in Hs as [_ Hs], Hp as [_ Hp]. eapply (IH Hs p); [|exact E'|exact Hp].
        destruct (CutPrefix s p) as [r'|] eqn:E2; [|done]. apply CutPrefix_Some in E2 as ->.
        assert (CutPrefix (String a (p +:+ r')) (String a p) = Some r') as H by (by apply CutPrefix_Some). congruence.
Qed.

Lemma after_bracket_line s rest : has_byte "]"%char s = true ->
  after_bracket (s +:+ rest) = option_map (fun r => r +:+ rest) (after_bracket s).
Proof.
  induction s as [|a s IH]; intros H; [done|].
  change (String a s +:+ rest) with (String a (s +:+ rest)). cbn [after_bracket]. cbn [has_byte] in H.
  destruct (bool_decide (a = "]"%char)); [done|]. by apply IH.
Qed.

Lemma after_bracket_one_line s r : one_line s -> after_bracket s = Some r -> one_line r.
Proof.
  induction s as [|a s IH]; intros H; [done|]. cbn [after_bracket].
  unfold one_line in H. cbn [has_byte] in H. apply orb_false_iff in H as [_ H].
  destruct (bool_decide _); [intros [= <-]; done|by apply IH].
Qed.

Lemma at_eol_line s rest : one_line s -> at_eol (s +:+ String nl rest) = at_eol s.
Proof.
  destruct s as [|a s]; [done|]. intros H. unfold one_line in H. cbn [has_byte] in H.
  change (String a s +:+ String nl rest) with (String a (s +:+ String nl rest)). done.
Qed.

(** A header of the server that opens a table closes it on its line. *)
Definition closed (name line : string) : Prop :=
  forall r, CutPrefix (skip_blanks line) (server_header name) = Some r -> has_byte "]"%char r = true.

Lemma has_byte_tail a b s : has_byte b (String a s) = true -> a <> b -> has_byte b s = true.
Proof. cbn [has_byte]. intros H Hne. by rewrite (bool_decide_false _ Hne) in H. Qed.

Lemma header_here_line name line rest : one_line name -> one_line line -> closed name line ->
  header_here name (line +:+ String nl rest) = header_here name line.
Proof.
  intros Hn Hl Hc. unfold header_here. rewrite skip_blanks_line by done.
  pose proof (skip_blanks_one_line line Hl) as Hsk.
  assert (Hp : one_line (server_header name)) by (by apply one_line_app).
  rewrite CutPrefix_line by done. destruct (CutPrefix (skip_blanks line) (server_header name)) as [r|] eqn:E; [|done].
  specialize (Hc r E). apply CutPrefix_Some in E. rewrite E in Hsk.
  unfold one_line in Hsk. rewrite has_byte_app in Hsk. apply orb_false_iff in Hsk as [_ Hr]. simpl.
  destruct r as [|a r]; [done|]. change (String a r +:+ String nl rest) with (String a (r +:+ String nl rest)).
  pose proof Hr as Hr'. cbn [has_byte] in Hr'. apply orb_false_iff in Hr' as [_ Hr'].
  cbn [starts_with]. case_bool_decide as Ha.
  - rewrite skip_blanks_line, at_eol_line by (try apply skip_blanks_one_line; done). done.
  - case_bool_decide; [|done]. rewrite after_bracket_line by (eapply has_byte_tail; eauto).
    destruct (after_bracket r) as [r2|] eqn:E2; [|done]. simpl. pose proof (after_bracket_one_line r r2 Hr' E2) as H2.
    rewrite skip_blanks_line, at_eol_line by (try apply skip_blanks_one_line; done). done.
Qed.

Lemma header_from_inside name s rest : one_line s ->
  header_from false name (s +:+ String nl rest) = header_in name rest.
Proof.
  induction s as [|a s IH]; intros H.
  - cbn [header_from String.append]. by rewrite bool_decide_true.
  - unfold one_line in H. cbn [has_byte] in H. apply orb_false_iff in H as [Ha H].
    change (String a s +:+ String nl rest) with (String a (s +:+ String nl rest)). cbn [header_from andb orb].
    rewrite Ha. by apply IH.
Qed.

Lemma header_in_line name line : one_line line -> header_in name line = header_here name line.
Proof.
  unfold header_in. assert (forall s, one_line s -> header_from false name s = false) as Hin.
  { induction s as [|a s IH]; intros H; [done|]. unfold one_line in H. cbn [has_byte] in H.
    apply orb_false_iff in H as [Ha H]. cbn [header_from]. rewrite Ha. by apply IH. }
  intros H. destruct line as [|a s]; [cbn [header_from andb]; apply orb_false_r|].
  pose proof H as H'. unfold one_line in H'. cbn [has_byte] in H'. apply orb_false_iff in H' as [Ha H'].
  cbn [header_from andb]. rewrite Ha, Hin by done. by rewrite orb_false_r.
Qed.

Lemma header_in_lines name lines : one_line name -> Forall one_line lines -> Forall (closed name) lines ->
  header_in name (Join lines nl_str) = existsb (header_in name) lines.
Proof.
  intros Hn Hl Hc. induction Hl as [|line lines Hline Hl IH]; [done|].
  apply Forall_cons in Hc as [Hcl Hc]. destruct lines as [|line2 lines].
  - change (Join [line] nl_str) with line. simpl. by rewrite orb_false_r.
  - change (Join (line :: line2 :: lines) nl_str) with (line +:+ String nl (Join (line2 :: lines) nl_str)).
    change (existsb (header_in name) (line :: line2 :: lines))
      with (header_in name line || existsb (header_in name) (line2 :: lines)).
    rewrite (header_in_line name line), <- IH by done. set (rest := Join (line2 :: lines) nl_str).
    rewrite <- (header_here_line name line rest) by done. unfold header_in.
    destruct line as [|a s].
    + change (EmptyString +:+ String nl rest) with (String nl rest). cbn [header_from andb]. by rewrite bool_decide_true.
    + unfold one_line in Hline. cbn [has_byte] in Hline. apply orb_false_iff in Hline as [Ha Hs].
      change (String a s +:+ String nl rest) with (String a (s +:+ String nl rest)). cbn [header_from andb].
      rewrite Ha. rewrite header_from_inside by done. done.
Qed.

(** ** What a migration is: the reference *)

(** The section a line belongs to is named by the last header at or above it. *)
Definition in_section (name : string) (above : list string) : bool :=
  match last (List.filter any_header above) with Some h => header_in name h | None => false end.

Definition renamed_line (old new : string) (above : list string) (line : string) : string :=
  if header_in old line then ReplaceAll line old new
  else if in_section old above && cmd_line line && Contains line (old +:+ "-")
  then ReplaceAll line (old +:+ "-") (new +:+ "-")
  else line.

Definition renamed_lines (old new : string) (lines : list string) : list string :=
  imap (fun i line => renamed_line old new (firstn (S i) lines) line) lines.

Definition kept_lines (old : string) (lines : list string) : list string :=
  concat (imap (fun i line => if in_section old (firstn (S i) lines) then [] else [line]) lines).

Lemma header_any name line : one_line line -> header_in name line = true -> any_header line = true.
Proof.
  intros Hl. rewrite header_in_line by done. unfold header_here, any_header.
  destruct (CutPrefix _ _) as [r|] eqn:E; [|done]. apply CutPrefix_Some in E as ->. done.
Qed.

Lemma in_section_snoc name above line : in_section name (above ++ [line]) =
  if any_header line then header_in name line else in_section name above.
Proof.
  unfold in_section. rewrite List.filter_app. cbn [List.filter]. destruct (any_header line).
  - by rewrite last_snoc.
  - by rewrite app_nil_r.
Qed.

Lemma above_cons {A} i above (line : A) lines : above ++ firstn (S i) (line :: lines) = (above ++ [line]) ++ firstn i lines.
Proof. by rewrite <- app_assoc. Qed.

Lemma rename_lines_spec old new lines : forall above, Forall one_line lines ->
  rename_lines old new (in_section old above) lines =
  imap (fun i line => renamed_line old new (above ++ firstn (S i) lines) line) lines.
Proof.
  induction lines as [|line lines IH]; intros above H; [done|]. apply Forall_cons in H as [Hline H].
  specialize (IH (above ++ [line]) H). rewrite in_section_snoc in IH. cbn [rename_lines imap].
  rewrite (imap_ext _ (fun i l => renamed_line old new ((above ++ [line]) ++ firstn (S i) lines) l));
    [|intros i l _; unfold compose; cbv beta; by rewrite above_cons].
  rewrite <- IH. rewrite above_cons. change (firstn 0 lines) with (@nil string). rewrite app_nil_r.
  unfold renamed_line. rewrite in_section_snoc.
  destruct (header_in old line) eqn:E; [by rewrite (header_any old line)|].
  destruct (any_header line); [done|]. by destruct (in_section old above && cmd_line line && Contains line (old +:+ "-")).
Qed.

Lemma remove_lines_spec old lines : forall above, Forall one_line lines ->
  remove_lines old (in_section old above) lines =
  concat (imap (fun i line => if in_section old (above ++ firstn (S i) lines) then [] else [line]) lines).
Proof.
  induction lines as [|line lines IH]; intros above H; [done|]. apply Forall_cons in H as [Hline H].
  specialize (IH (above ++ [line]) H). rewrite in_section_snoc in IH. cbn [remove_lines imap concat].
  rewrite (imap_ext _ (fun i l => if in_section old ((above ++ [line]) ++ firstn (S i) lines) then [] else [l]));
    [|intros i l _; unfold compose; cbv beta; by rewrite above_cons].
  rewrite <- IH. rewrite above_cons. change (firstn 0 lines) with (@nil string). rewrite app_nil_r, in_section_snoc.
  destruct (header_in old line) eqn:E; [by rewrite (header_any old line)|].
  destruct (any_header line); [by destruct (in_section old above)|]. by destruct (in_section old above).
Qed.

(** ** The renamed lines hold no old header *)

Notation msg := "tmux-msg".
Notation tell := "tmux-tell".

Lemma replace_one_line old new s : forall skip, one_line new -> one_line s -> one_line (replace_from skip old new s).
Proof.
  induction s as [|a s IH]; intros skip Hn H; [done|]. unfold one_line in H. cbn [has_byte] in H.
  apply orb_false_iff in H as [Ha H]. cbn [replace_from]. destruct skip; [|by apply IH].
  destruct (HasPrefix _ _).
  - apply one_line_app; [done|]. by apply IH.
  - unfold one_line. cbn [has_byte]. rewrite Ha. by apply IH.
Qed.

(** Blanks at the start are not replaced. *)
Lemma skip_blanks_replace c old new s : tab_or_space c = false ->
  skip_blanks (ReplaceAll s (String c old) new) = skip_blanks (ReplaceAll (skip_blanks s) (String c old) new).
Proof.
  intros Hc. induction s as [|a s IH]; [done|]. cbn [skip_blanks]. destruct (tab_or_space a) eqn:E; [|done].
  rewrite <- IH. unfold ReplaceAll. cbn [replace_from].
  assert (HasPrefix (String a s) (String c old) = false) as ->.
  { unfold HasPrefix. cbn [String.prefix]. destruct (Ascii.ascii_dec c a) as [->|]; [congruence|done]. }
  cbn [skip_blanks]. by rewrite E.
Qed.

Lemma renamed_no_header above line : one_line line -> header_in msg (renamed_line msg tell above line) = false /\
  one_line (renamed_line msg tell above line).
Proof.
  intros Hl. unfold renamed_line.
  destruct (header_in msg line) eqn:E; [|destruct (in_section msg above && cmd_line line && Contains line (msg +:+ "-")) eqn:E2; [|done]].
  - assert (Hr : one_line (ReplaceAll line msg tell)) by (by apply replace_one_line). split; [|done].
    rewrite header_in_line in E |- * by done. unfold header_here in *.
    destruct (CutPrefix (skip_blanks line) _) as [r|] eqn:Ec; [|done]. apply CutPrefix_Some in Ec.
    rewrite (skip_blanks_replace "t"%char "mux-msg") by done. rewrite Ec. by destruct r.
  - assert (Hr : one_line (ReplaceAll line (msg +:+ "-") (tell +:+ "-"))) by (by apply replace_one_line). split; [|done].
    rewrite header_in_line by done. unfold header_here.
    apply andb_prop in E2 as [[_ Hcmd]%andb_prop _]. unfold cmd_line in Hcmd.
    destruct (CutPrefix (skip_blanks line) "command") as [r|] eqn:Ec; [|done]. apply CutPrefix_Some in Ec.
    change (msg +:+ "-") with (String "t"%char "mux-msg-"). rewrite skip_blanks_replace by done. rewrite Ec. reflexivity.
Qed.

(** A line without the header of a server needs no closing bracket. *)
Lemma closed_kept above line : one_line line -> closed msg line -> closed msg (renamed_line msg tell above line).
Proof.
  intros Hl Hc. unfold renamed_line.
  destruct (header_in msg line) eqn:E; [|destruct (in_section msg above && cmd_line line && Contains line (msg +:+ "-")) eqn:E2; [|done]].
  - rewrite header_in_line in E by done. unfold header_here in E.
    destruct (CutPrefix (skip_blanks line) _) as [r|] eqn:Ec; [|done]. apply CutPrefix_Some in Ec.
    intros r'. rewrite (skip_blanks_replace "t"%char "mux-msg") by done. rewrite Ec. by destruct r.
  - apply andb_prop in E2 as [[_ Hcmd]%andb_prop _]. unfold cmd_line in Hcmd.
    destruct (CutPrefix (skip_blanks line) "command") as [r|] eqn:Ec; [|done]. apply CutPrefix_Some in Ec.
    intros r'. change (msg +:+ "-") with (String "t"%char "mux-msg-"). rewrite skip_blanks_replace by done. rewrite Ec. done.
Qed.

Definition closed_headers (content : string) : Prop :=
  Forall (closed msg) (Lines content) /\ Forall (closed tell) (Lines content).

(** The reference: what becomes of a file. *)
Definition migrated_text (content : string) : string * migration :=
  let lines := Lines content in
  if negb (existsb (header_in msg) lines) then (content, NotMigrated)
  else if existsb (header_in tell) lines then (Join (kept_lines msg lines) nl_str, Removed)
  else (Join (renamed_lines msg tell lines) nl_str, Renamed).

Lemma header_in_content name content : one_line name -> Forall (closed name) (Lines content) ->
  header_in name content = existsb (header_in name) (Lines content).
Proof.
  intros Hn Hc. rewrite <- (header_in_lines name (Lines content)) by (done || apply Lines_one_line).
  unfold Lines. by rewrite nl_str_eq, Join_Split.
Qed.

Lemma migrate_reference content : closed_headers content ->
  migrateLegacyMcpSection content msg tell = migrated_text content.
Proof.
  intros [H1 H2]. unfold migrateLegacyMcpSection, migrated_text.
  rewrite !header_in_content by done. destruct (negb _); [done|]. destruct (existsb (header_in tell) _).
  - unfold removeTomlSections. do 2 f_equal. apply (remove_lines_spec msg _ []), Lines_one_line.
  - unfold renameLegacyMcpSections. do 2 f_equal. apply (rename_lines_spec msg tell _ []), Lines_one_line.
Qed.

(** Lines without an old header, whose headers are closed. *)
Definition clean (l : list string) : Prop :=
  Forall (fun line => one_line line /\ closed msg line /\ header_in msg line = false) l.

Lemma clean_text l : clean l -> header_in msg (Join l nl_str) = false.
Proof.
  intros H. rewrite header_in_lines; [|done|..]; try (eapply Forall_impl; [exact H|]; naive_solver).
  induction H as [|line l (_ & _ & E) H IH]; [done|]. cbn [existsb]. by rewrite E.
Qed.

Lemma renamed_clean content : closed_headers content -> clean (renamed_lines msg tell (Lines content)).
Proof.
  intros [Hc _]. apply Forall_lookup. intros i line. unfold renamed_lines. rewrite list_lookup_imap.
  destruct (Lines content !! i) as [line0|] eqn:E; [|done]. intros [= <-].
  pose proof (Forall_lookup_1 _ _ _ _ (Lines_one_line content) E) as Hl.
  pose proof (Forall_lookup_1 _ _ _ _ Hc E) as Hcl.
  destruct (renamed_no_header (firstn (S i) (Lines content)) line0 Hl). split; [done|]. split; [by apply closed_kept|done].
Qed.

Lemma kept_clean content : closed_headers content -> clean (kept_lines msg (Lines content)).
Proof.
  intros [Hc _]. apply Forall_forall. intros line. unfold kept_lines. rewrite list_elem_of_In, in_concat.
  intros (l & Hl & Hin). apply list_elem_of_In, list_elem_of_lookup in Hl as [i Hl]. rewrite list_lookup_imap in Hl.
  destruct (Lines content !! i) as [line0|] eqn:E; [|done]. injection Hl as <-.
  destruct (in_section _ _) eqn:Es; [done|]. destruct Hin as [->|[]].
  pose proof (Forall_lookup_1 _ _ _ _ (Lines_one_line content) E) as Hl.
  split; [done|]. split; [by apply (Forall_lookup_1 _ _ _ _ Hc E)|].
  destruct (header_in msg line) eqn:Eh; [|done]. exfalso.
  rewrite (take_S_r _ _ _ E), in_section_snoc, (header_any msg line Hl Eh), Eh in Es. done.
Qed.

Lemma unchanged_clean content : closed_headers content -> existsb (header_in msg) (Lines content) = false ->
  clean (Lines content).
Proof.
  intros [Hc _] H. apply Forall_forall. intros line Hin. split; [by apply (proj1 (Forall_forall one_line _) (Lines_one_line content))|].
  split; [by apply (Forall_forall (closed msg) (Lines content))|].
  destruct (header_in msg line) eqn:E; [|done]. rewrite <- H. symmetry. apply existsb_exists. exists line.
  split; [by apply list_elem_of_In|done].
Qed.

(** The text after the migration, line by line. *)
Lemma migrated_clean content : closed_headers content ->
  exists l, fst (migrated_text content) = Join l nl_str /\ clean l /\ (fst (migrated_text content) <> EmptyString -> l <> []).
Proof.
  intros H. unfold migrated_text. destruct (existsb (header_in msg) (Lines content)) eqn:E; cbn [negb].
  - destruct (existsb (header_in tell) _); eexists; (split; [reflexivity|]).
    + split; [by apply kept_clean|]. intros Hne E0. apply Hne. cbn [fst]. by rewrite E0.
    + split; [by apply renamed_clean|]. intros Hne E0. apply Hne. cbn [fst]. by rewrite E0.
  - exists (Lines content). split; [simpl; unfold Lines; by rewrite nl_str_eq, Join_Split|].
    split; [by apply unchanged_clean|]. intros _. apply Split_not_nil.
Qed.

(** ** The merge *)

Lemma toml_hook_cases u s : exists blocks, hook_missing "UserPromptSubmit" u ++ hook_missing "SessionStart" s = blocks /\
  blocks ∈ [[]; [toml_hook_block "UserPromptSubmit"]; [toml_hook_block "SessionStart"];
            [toml_hook_block "UserPromptSubmit"; toml_hook_block "SessionStart"]].
Proof. destruct u, s; eexists; (split; [reflexivity|]); simpl; set_solver. Qed.

(** What is appended to a text starts on a line of its own and has no old header. *)
Lemma appended_clean content u s : content <> EmptyString ->
  let blocks := hook_missing "UserPromptSubmit" u ++ hook_missing "SessionStart" s in
  blocks = [] \/ exists l, appended content blocks = String nl (Join l nl_str) /\ clean l /\ l <> [].
Proof.
  intros Hne. cbv zeta. destruct (toml_hook_cases u s) as (blocks & -> & Hb).
  assert (str_empty content = false) as Hc by (by destruct content).
  set (y := Join (map (fun b => b +:+ nl_str) blocks) nl_str).
  destruct (decide (blocks = [])) as [->|Hbl]; [by left|right].
  assert (exists l, y = Join l nl_str /\ clean l /\ l <> []) as (l & Hy & Hl & Hln).
  { exists (Lines y). split; [unfold Lines; by rewrite nl_str_eq, Join_Split|]. split; [|apply Split_not_nil].
    apply Forall_forall. intros line Hin. split; [by apply (proj1 (Forall_forall one_line _) (Lines_one_line y))|].
    apply list_elem_of_In in Hin. revert line Hin. apply List.Forall_forall.
    assert (forallb (fun line => match CutPrefix (skip_blanks line) (server_header msg) with Some _ => false | None => true end
                                 && negb (header_in msg line)) (Lines y) = true) as Hall.
    { subst y. clear Hc Hne content. set_unfold in Hb. destruct Hb as [->|[->|[->|[->|[]]]]]; [done|vm_compute; reflexivity..]. }
    apply List.Forall_forall. intros line Hin. apply (proj1 (forallb_forall _ _) Hall) in Hin.
    apply andb_prop in Hin as [H1 H2%negb_true_iff]. split; [|done]. intros r E. by rewrite E in H1. }
  unfold appended. rewrite Hc, (bool_decide_false _ Hbl). cbn [orb]. fold y. destruct (HasSuffix content nl_str).
  - exists l. split; [by rewrite Hy|done].
  - exists (EmptyString :: l). split; [|split; [|done]].
    + rewrite Hy. destruct l; done.
    + constructor; [|done]. by repeat split.
Qed.

(** A text followed by lines of its own. *)
Lemma merged_clean content l1 l2 : content = Join l1 nl_str -> clean l1 -> l1 <> [] -> clean l2 -> l2 <> [] ->
  header_in msg (content +:+ String nl (Join l2 nl_str)) = false.
Proof.
  intros -> H1 Hn1 H2 Hn2.
  assert (Join l1 nl_str +:+ String nl (Join l2 nl_str) = Join (l1 ++ l2) nl_str) as ->.
  { clear H1 H2. induction l1 as [|s l1 IH]; [done|]. destruct l1 as [|s2 l1].
    - destruct l2; [done|]. done.
    - change (Join (s :: s2 :: l1) nl_str) with (s +:+ String nl (Join (s2 :: l1) nl_str)).
      change (Join ((s :: s2 :: l1) ++ l2) nl_str) with (s +:+ String nl (Join ((s2 :: l1) ++ l2) nl_str)).
      rewrite <- IH by done. by rewrite string_app_assoc. }
  apply clean_text. by apply Forall_app.
Qed.

Lemma appended_to_nothing u s :
  header_in msg (appended EmptyString (hook_missing "UserPromptSubmit" u ++ hook_missing "SessionStart" s)) = false.
Proof. by destruct u, s. Qed.

Lemma migrate_all_one path content : closed_headers content ->
  migrate_all path content =
  (fst (migrated_text content), migration_notice path msg tell (snd (migrated_text content))).
Proof.
  intros H. unfold migrate_all. cbn [legacyMcpRenames foldl fst snd]. rewrite migrate_reference by done.
  by destruct (migrated_text content).
Qed.

(** The migrated text, with what is appended, needs no migration. *)
Lemma merged_no_header content u s : closed_headers content ->
  let text := fst (migrated_text content) in
  header_in msg (text +:+ appended text (hook_missing "UserPromptSubmit" u ++ hook_missing "SessionStart" s)) = false.
Proof.
  intros H. cbv zeta. destruct (migrated_clean content H) as (l & E & Hl & Hne).
  destruct (decide (fst (migrated_text content) = EmptyString)) as [->|Hc]; [apply appended_to_nothing|].
  destruct (appended_clean _ u s Hc) as [->|(l2 & -> & Hl2 & Hn2)].
  - unfold appended. rewrite orb_true_r. change (Join (map _ []) nl_str) with EmptyString.
    rewrite string_app_nil_r, E. by apply clean_text.
  - by apply (merged_clean _ l l2); auto.
Qed.

Lemma no_header_stays path content : header_in msg content = false -> migrate_all path content = (content, []).
Proof. intros H. unfold migrate_all, migrateLegacyMcpSection. cbn [legacyMcpRenames foldl fst snd]. by rewrite H. Qed.

(** C32: the installation edits the file of the other program as it says, once.  For a
    file whose server headers are closed on their line, what is written is the migrated
    text followed by the missing hook blocks: an old section is renamed, header and
    command lines only, or, where the new one exists, its lines are left out; every other
    line is kept byte for byte (the section of a line is that of the last header at or
    above it).  The file is written exactly when an old section was migrated or a hook
    was missing, and the call was not a dry run; and once both hooks are read back from
    what was written, the next installation writes nothing. *)
Theorem codex_install_once decode write_fault path file dryRun m written :
  closed_headers (default EmptyString file) ->
  mergeCodexConfig decode write_fault path (Ok file) dryRun = (Ok m, written) ->
  let '(text, how) := migrated_text (default EmptyString file) in
  exists p, (if str_empty text then Ok empty_probe else decode text) = Ok p /\
  let complete := how = NotMigrated /\ cp_UserPromptSubmit p <> None /\ cp_SessionStart p <> None in
  match written with
  | None => complete \/ dryRun = true
  | Some new =>
      ~ complete /\ dryRun = false /\ cm_alreadyOK m = false /\
      new = text +:+ appended text (hook_missing "UserPromptSubmit" (cp_UserPromptSubmit p) ++
                                    hook_missing "SessionStart" (cp_SessionStart p)) /\
      forall p wf again, decode new = Ok p -> new <> EmptyString -> cp_UserPromptSubmit p <> None -> cp_SessionStart p <> None ->
        exists m', mergeCodexConfig decode wf path (Ok (Some new)) again = (Ok m', None) /\
          cm_hooksWritten m' = false /\ cm_notices m' = []
  end.
Proof.
  intros Hc H. unfold mergeCodexConfig in H. rewrite (migrate_all_one path _ Hc) in H.
  pose proof (merged_no_header (default EmptyString file)) as Hno.
  destruct (migrated_text (default EmptyString file)) as [text how]. cbn [fst snd] in *.
  destruct (if str_empty text then Ok empty_probe else decode text) as [p|e] eqn:Ed; [|done].
  exists p. split; [done|]. cbv zeta.
  set (blocks := hook_missing "UserPromptSubmit" (cp_UserPromptSubmit p) ++ hook_missing "SessionStart" (cp_SessionStart p)) in *.
  assert (blocks = [] <-> cp_UserPromptSubmit p <> None /\ cp_SessionStart p <> None) as Hbl
    by (unfold blocks; destruct (cp_UserPromptSubmit p), (cp_SessionStart p); simpl; naive_solver).
  destruct (bool_decide (blocks = []) && negb (negb (bool_decide (migration_notice path msg tell how = [])))) eqn:E1.
  { injection H as <- <-. left. apply andb_prop in E1 as [E0%bool_decide_eq_true E1].
    split; [by destruct how|by apply Hbl]. }
  destruct dryRun; [injection H as <- <-; by right|].
  destruct (write_fault _) as [[stage e]|]; [done|]. injection H as <- <-.
  split. { intros [-> Hb%Hbl]. rewrite Hb in E1. done. }
  split; [done|]. split; [done|]. split; [done|]. intros p2 wf again Hd Hne Hu Hs.
  specialize (Hno (cp_UserPromptSubmit p) (cp_SessionStart p) Hc).
  unfold mergeCodexConfig. cbn [from_option id]. fold blocks in Hno. rewrite (no_header_stays path _ Hno).
  assert (str_empty (text +:+ appended text blocks) = false) as -> by (by destruct (text +:+ appended text blocks)).
  rewrite Hd. destruct (cp_UserPromptSubmit p2), (cp_SessionStart p2); try done. simpl. eexists. by split; [reflexivity|].
Qed.

(** ** Concrete files *)

Definition nl_lines (l : list string) : string := Join l nl_str.

Definition old_file : string := nl_lines
  ["model = 1"; "[mcp_servers.tmux-msg]"; "command = tmux-msg-codex # tmux-msg"; "note = tmux-msg";
   "[mcp_servers.tmux-msg.tools.tmux-msg]"; "[other]"; "command = tmux-msg-codex"].

Definition demo_toml (s : string) : result codexConfigProbe :=
  let hook name := if Contains s ("[hooks." +:+ name +:+ "]") then Some codexHookCommand else None in
  Ok (mkProbe (hook "UserPromptSubmit") (hook "SessionStart") None).

Lemma old_file_migrates : migrated_text old_file = (nl_lines
  ["model = 1"; "[mcp_servers.tmux-tell]"; "command = tmux-tell-codex # tmux-msg"; "note = tmux-msg";
   "[mcp_servers.tmux-tell.tools.tmux-tell]"; "[other]"; "command = tmux-msg-codex"], Renamed).
Proof. vm_compute. reflexivity. Qed.

(** A line of a nested array in the old section counts as the next header: the rest of
    the section survives its removal. *)
Lemma removal_stops_at_an_array :
  migrateLegacyMcpSection (nl_lines ["[mcp_servers.tmux-msg]"; "args = ["; "  [1, 2],"; "]"; "[mcp_servers.tmux-tell]"])
    msg tell = (nl_lines ["  [1, 2],"; "]"; "[mcp_servers.tmux-tell]"], Removed).
Proof. vm_compute. reflexivity. Qed.

Lemma codex_install_once_witness :
  closed_headers old_file /\
  exists m new, mergeCodexConfig demo_toml (fun _ => None) "config.toml" (Ok (Some old_file)) false = (Ok m, Some new) /\
    exists m', mergeCodexConfig demo_toml (fun _ => None) "config.toml" (Ok (Some new)) false = (Ok m', None) /\
      cm_hooksWritten m' = false.
Proof.
  assert (closed_headers old_file) as Hc.
  { split; apply List.Forall_forall; intros line Hin r E; vm_compute in Hin;
      repeat (destruct Hin as [<-|Hin]; [vm_compute in E; (discriminate || (injection E as <-; reflexivity))|]); destruct Hin. }
  split; [exact Hc|].
  destruct (mergeCodexConfig demo_toml (fun _ => None) "config.toml" (Ok (Some old_file)) false) as [r w] eqn:E.
  assert (exists m new, r = Ok m /\ w = Some new) as (m & new & -> & ->).
  { vm_compute in E. injection E as <- <-. eexists _, _. split; reflexivity. }
  exists m, new. split; [reflexivity|].
  pose proof (codex_install_once demo_toml (fun _ => None) "config.toml" (Some old_file) false m (Some new) Hc E) as H.
  destruct (migrated_text _) as [text how]. destruct H as (p & _ & _ & _ & _ & _ & H).
  vm_compute in E. injection E as _ <-.
  destruct (H (mkProbe (Some codexHookCommand) (Some codexHookCommand) None) (fun _ => None) false) as (m' & E' & Hw & _);
    [vm_compute; reflexivity|discriminate..|].
  exists m'. split; [exact E'|exact Hw].
Defined.
