(* ===== verification/Stats.v ===== *)
(** * Statistics of the bus (internal/store/stats.go, internal/cli/stats.go)

    Counts and latencies per agent and per pair over a window of time, the split of the
    delivered messages by verification, and the command that shows them. *)

From stdpp Require Import gmap sorting.
From S2P Require Import Prelude GoStd Clock StoreTypes Messages Queries TmuxIO Mailman ServeDemo Send SendDemo Window Upkeep Views Tree Render.

Open Scope Z_scope.
Open Scope tell_scope.

(** ** Aggregates *)

(** The rows of a window, by their text of time. *)
Definition whereSince (w : StatsWindow) (m : Message) : bool :=
  match w with All => true | Since t => Str.leb (Time.formatISO t) (m_CreatedAt m) end.

Record AgentStat : Type := mkAgentStat {
  as_Agent : string;
  as_Sent : Z;
  as_Received : Z;
  as_Delivered : Z;
  as_Failed : Z;
  as_Queued : Z;
  as_Delivering : Z;
  as_Acknowledged : Z;
  as_P50LatencyMs : Z;
  as_P95LatencyMs : Z
}.

Record PairStat : Type := mkPairStat {
  ps_From : string;
  ps_To : string;
  ps_Count : Z;
  ps_P50LatencyMs : Z
}.

Record Totals : Type := mkTotals {
  tt_Total : Z;
  tt_Delivered : Z;
  tt_Failed : Z;
  tt_Queued : Z;
  tt_Delivering : Z;
  tt_Acknowledged : Z
}.

Record statRow : Type := mkStatRow {
  sr_from : string;
  sr_to : string;
  sr_state : State;
  sr_latency : option Z
}.

(** The [p]-th percentile, nearest rank. *)
Definition rank_of (p n : Z) : Z := let idx := (p * n + 99) / 100 in Z.min (Z.max idx 1) n.

Definition percentile (vs : list Z) (p : Z) : Z :=
  nth (Z.to_nat (rank_of p (Z.of_nat (length vs)) - 1)) (merge_sort Z.le vs) 0.

(** The counters of one agent and its latencies. *)
Record agent_acc : Type := mkAcc {
  ac_stat : AgentStat;
  ac_latencies : list Z
}.

Definition new_acc (name : string) : agent_acc := mkAcc (mkAgentStat name 0 0 0 0 0 0 0 0 0) [].

Definition one (b : bool) : Z := if b then 1 else 0.
Definition is_state (s : State) (r : statRow) : bool := bool_decide (sr_state r = s).

Definition count_sent (a : agent_acc) : agent_acc :=
  let s := ac_stat a in
  mkAcc (mkAgentStat (as_Agent s) (as_Sent s + 1) (as_Received s) (as_Delivered s) (as_Failed s) (as_Queued s)
           (as_Delivering s) (as_Acknowledged s) (as_P50LatencyMs s) (as_P95LatencyMs s)) (ac_latencies a).

(** A delay counts for delivered rows only. *)
Definition delay_of (r : statRow) : list Z :=
  match sr_latency r with Some l => if is_state StateDelivered r then [l] else [] | None => [] end.

Definition count_received (r : statRow) (a : agent_acc) : agent_acc :=
  let s := ac_stat a in
  mkAcc (mkAgentStat (as_Agent s) (as_Sent s) (as_Received s + 1) (as_Delivered s + one (is_state StateDelivered r))
           (as_Failed s + one (is_state StateFailed r)) (as_Queued s + one (is_state StateQueued r))
           (as_Delivering s + one (is_state StateDelivering r)) (as_Acknowledged s + one (is_state StateAcknowledged r))
           (as_P50LatencyMs s) (as_P95LatencyMs s))
    (ac_latencies a ++ delay_of r).

Definition bump (name : string) (f : agent_acc -> agent_acc) (m : gmap string agent_acc) : gmap string agent_acc :=
  <[name := f (default (new_acc name) (m !! name))]> m.

Definition count_row (m : gmap string agent_acc) (r : statRow) : gmap string agent_acc :=
  bump (sr_to r) (count_received r) (bump (sr_from r) count_sent m).

Definition finish_stat (a : agent_acc) : AgentStat :=
  let s := ac_stat a in
  mkAgentStat (as_Agent s) (as_Sent s) (as_Received s) (as_Delivered s) (as_Failed s) (as_Queued s) (as_Delivering s)
    (as_Acknowledged s) (percentile (ac_latencies a) 50) (percentile (ac_latencies a) 95).

Definition stat_le (a b : AgentStat) : Prop := String.le (as_Agent a) (as_Agent b).
#[global] Instance stat_le_dec a b : Decision (stat_le a b).
Proof. unfold stat_le. apply _. Defined.

Definition pair_acc : Type := Z * list Z.

Definition count_pair (m : gmap (string * string) pair_acc) (r : statRow) : gmap (string * string) pair_acc :=
  let k := (sr_from r, sr_to r) in
  let '(n, ls) := default (0, []) (m !! k) in
  <[k := (n + 1, ls ++ delay_of r)]> m.

(** More messages first, then by the names. *)
Definition pair_before (a b : PairStat) : bool :=
  if negb (ps_Count a =? ps_Count b) then ps_Count b <? ps_Count a
  else if negb (bool_decide (ps_From a = ps_From b)) then Str.ltb (ps_From a) (ps_From b)
  else Str.ltb (ps_To a) (ps_To b).
Definition pair_le (a b : PairStat) : Prop := pair_before b a = false.
#[global] Instance pair_le_dec a b : Decision (pair_le a b).
Proof. unfold pair_le. apply _. Defined.

Definition count_total (t : Totals) (r : statRow) : Totals :=
  mkTotals (tt_Total t + 1) (tt_Delivered t + one (is_state StateDelivered r)) (tt_Failed t + one (is_state StateFailed r))
    (tt_Queued t + one (is_state StateQueued r)) (tt_Delivering t + one (is_state StateDelivering r))
    (tt_Acknowledged t + one (is_state StateAcknowledged r)).

Record VerificationCounts : Type := mkVerification {
  vc_Verified : Z;
  vc_Unverified : Z;
  vc_Unknown : Z
}.

(** One group of the query, or one row of a group. *)
Definition count_verified (vc : VerificationCounts) (m : Message) : VerificationCounts :=
  match m_Verified m with
  | None => mkVerification (vc_Verified vc) (vc_Unverified vc) (vc_Unknown vc + 1)
  | Some v => if v =? 1 then mkVerification (vc_Verified vc + 1) (vc_Unverified vc) (vc_Unknown vc)
              else mkVerification (vc_Verified vc) (vc_Unverified vc + 1) (vc_Unknown vc)
  end.

Definition no_verification : VerificationCounts := mkVerification 0 0 0.

Definition delivered_in (w : StatsWindow) (m : Message) : bool :=
  bool_decide (m_State m = StateDelivered) && whereSince w m.

Section Stats.
(** The rounded difference of two stored times in milliseconds, as SQLite's julianday
    has it; none when one of them is no time. *)
Context (julian_ms : string -> string -> option Z).

Definition latency_of (m : Message) : option Z :=
  match m_DeliveredAt m with
  | None => None
  | Some t => match julian_ms (m_CreatedAt m) t with
              | Some l => if 0 <=? l then Some l else None
              | None => None
              end
  end.

Definition stat_row (m : Message) : statRow := mkStatRow (m_FromAgent m) (m_ToAgent m) (m_State m) (latency_of m).

Definition scanStats (w : StatsWindow) (d : DB) : list statRow := map stat_row (sql_where (whereSince w) (db_messages d)).

Definition StatsPerAgent (w : StatsWindow) (d : DB) : list AgentStat :=
  merge_sort stat_le (map (fun kv => finish_stat (snd kv)) (map_to_list (foldl count_row ∅ (scanStats w d)))).

Definition StatsTopPairs (w : StatsWindow) (limit : Z) (d : DB) : list PairStat :=
  let out := merge_sort pair_le
    (map (fun kv => mkPairStat (fst (fst kv)) (snd (fst kv)) (fst (snd kv)) (percentile (snd (snd kv)) 50))
       (map_to_list (foldl count_pair ∅ (scanStats w d)))) in
  if (0 <? limit) && (limit <? Z.of_nat (length out)) then firstn (Z.to_nat limit) out else out.

Definition StatsTotals (w : StatsWindow) (d : DB) : Totals := foldl count_total (mkTotals 0 0 0 0 0 0) (scanStats w d).

(** Without the columns the query does not ask for. *)
Definition MessagesInWindow (w : StatsWindow) (d : DB) : list Message := sql_where (whereSince w) (db_messages d).

Definition DeliveredVerificationCounts (w : StatsWindow) (d : DB) : VerificationCounts :=
  foldl count_verified no_verification (sql_where (delivered_in w) (db_messages d)).

Definition VerificationCountsByAgent (w : StatsWindow) (d : DB) : gmap string VerificationCounts :=
  foldl (fun out m => <[m_ToAgent m := count_verified (default no_verification (out !! m_ToAgent m)) m]> out) ∅
    (sql_where (delivered_in w) (db_messages d)).

(** ** The command *)

Record statsResult : Type := mkStats {
  st_Window : string;
  st_Agents : list AgentStat;
  st_TopPairs : list PairStat;
  st_Totals : Totals;
  st_Verification : VerificationCounts
}.

(** The pairs an agent takes part in. *)
Definition touches (agent : string) (p : PairStat) : bool :=
  str_empty agent || bool_decide (ps_From p = agent) || bool_decide (ps_To p = agent).

Definition top_of (top : Z) (pairs : list PairStat) : list PairStat :=
  if (0 <? top) && (top <? Z.of_nat (length pairs)) then firstn (Z.to_nat top) pairs else pairs.

Definition runStatsWithStore (w : StatsWindow) (windowSpec agent : string) (pair : bool) (top : Z) : M (outcome statsResult) :=
  a <! store_read "StatsPerAgent" (StatsPerAgent w) ;;
  match a with
  | Err e => fail e exitInternal
  | Ok agents =>
      t <! store_read "StatsTotals" (StatsTotals w) ;;
      match t with
      | Err e => fail e exitInternal
      | Ok totals =>
          v <! store_read "DeliveredVerificationCounts" (DeliveredVerificationCounts w) ;;
          match v with
          | Err e => fail e exitInternal
          | Ok verification =>
              let shown := List.filter (fun s => str_empty agent || bool_decide (as_Agent s = agent)) agents in
              p <! (if pair then store_read "StatsTopPairs" (StatsTopPairs w 0) else go (Ok [])) ;;
              match p with
              | Err e => fail e exitInternal
              | Ok all =>
                  go (Done (mkStats windowSpec shown (if pair then top_of top (List.filter (touches agent) all) else [])
                              totals verification))
              end
          end
      end
  end.

Section CLI.
Context (midnight : Z -> Z -> Z).

Definition runStatsCLI (window agent : string) (pair : bool) (top : Z) : M (outcome statsResult) :=
  now <! lift time_Now ;;
  match parseWindow midnight window now with
  | Err e => fail e exitUsage
  | Ok w => runStatsWithStore w window agent pair top
  end.
End CLI.
End Stats.

(** ** Its text *)

Definition joinTabs (cells : list string) : string := Str.Join cells (String Str.tab EmptyString).

Definition renderTextTable (header : list string) (rows : list (list string)) : list string := map joinTabs (header :: rows).

Definition fmtLatency (ms : Z) : string :=
  if ms <=? 0 then "-"
  else if 1000 <=? ms then
    let q := Render.tenths (thousandths ms) in Str.itoa (q / 10) +:+ "." +:+ Str.itoa (q mod 10) +:+ "s"
  else Str.itoa ms +:+ "ms".

Definition stat_cells (a : AgentStat) : list string :=
  [as_Agent a; Str.itoa (as_Sent a); Str.itoa (as_Received a); Str.itoa (as_Delivered a); Str.itoa (as_Failed a);
   Str.itoa (as_Queued a); fmtLatency (as_P50LatencyMs a)].

Definition pair_cells (p : PairStat) : list string :=
  [ps_From p +:+ " → " +:+ ps_To p; Str.itoa (ps_Count p); fmtLatency (ps_P50LatencyMs p)].

Definition renderStatsText (res : statsResult) (showPairs : bool) : list string :=
  let t := st_Totals res in let vc := st_Verification res in
  ["Message traffic — window " +:+ st_Window res; EmptyString] ++
  (if bool_decide (length (st_Agents res) = 0%nat) then ["  (no traffic in window)"]
   else renderTextTable ["AGENT"; "SENT"; "RECEIVED"; "DELIVERED"; "FAILED"; "QUEUED"; "P50"] (map stat_cells (st_Agents res))) ++
  (if showPairs then
     [EmptyString; "Top pairs:"] ++
     (if bool_decide (length (st_TopPairs res) = 0%nat) then ["  (none)"]
      else renderTextTable ["PAIR"; "COUNT"; "P50"] (map pair_cells (st_TopPairs res)))
   else []) ++
  [EmptyString;
   "Totals: " +:+ Str.itoa (tt_Total t) +:+ " messages — delivered " +:+ Str.itoa (tt_Delivered t) +:+ ", failed " +:+
   Str.itoa (tt_Failed t) +:+ ", queued " +:+ Str.itoa (tt_Queued t) +:+
   (if 0 <? tt_Delivering t then ", delivering " +:+ Str.itoa (tt_Delivering t) else EmptyString) +:+
   (if 0 <? tt_Acknowledged t then ", acknowledged " +:+ Str.itoa (tt_Acknowledged t) else EmptyString);
   "Delivered split: verified " +:+ Str.itoa (vc_Verified vc) +:+ ", in-input-box " +:+ Str.itoa (vc_Unverified vc) +:+
   ", pre-marker " +:+ Str.itoa (vc_Unknown vc)].

(** * The statistics are those of the messages

    Every counter is the number of rows it says, the counters of the agents add up to
    the totals, and a percentile is the nearest rank of the delays. *)

(** ** Counting *)

Definition cnt {A} (p : A -> bool) (l : list A) : Z := Z.of_nat (length (List.filter p l)).

Lemma cnt_snoc {A} (p : A -> bool) l x : cnt p (l ++ [x]) = cnt p l + one (p x).
Proof. unfold cnt. rewrite List.filter_app, length_app. simpl. destruct (p x); simpl; lia. Qed.

Lemma cnt_cons {A} (p : A -> bool) l x : cnt p (x :: l) = one (p x) + cnt p l.
Proof. unfold cnt. simpl. destruct (p x); simpl; lia. Qed.

Definition sum (l : list Z) : Z := foldr Z.add 0 l.

Lemma sum_perm l l' : l ≡ₚ l' -> sum l = sum l'.
Proof. unfold sum. induction 1; simpl; lia. Qed.

Lemma sum_plus {A} (f g : A -> Z) l : sum (map (fun x => f x + g x) l) = sum (map f l) + sum (map g l).
Proof. unfold sum. induction l; simpl; lia. Qed.

Lemma sum_zero {A} (f : A -> Z) l : (forall x, x ∈ l -> f x = 0) -> sum (map f l) = 0.
Proof.
  induction l as [|x l IH]; intros H; [done|]. simpl. rewrite (H x) by set_solver.
  change (foldr Z.add 0 (map f l)) with (sum (map f l)). rewrite IH; [done|]. intros y Hy. apply H. set_solver.
Qed.

(** A row is counted for one name. *)
Lemma sum_one (names : list string) x b : NoDup names -> x ∈ names ->
  sum (map (fun n => one (bool_decide (x = n) && b)) names) = one b.
Proof.
  induction 1 as [|n names Hn Hd IH]; intros Hx; [by apply elem_of_nil in Hx|].
  unfold sum. simpl. change (foldr Z.add 0 ?l) with (sum l). destruct (decide (x = n)) as [->|Hne].
  - rewrite bool_decide_true by done. rewrite sum_zero; [simpl; lia|].
    intros y Hy. rewrite bool_decide_false; [done|]. by intros ->.
  - rewrite bool_decide_false by done. rewrite IH; [done|]. by apply elem_of_cons in Hx as [?|?].
Qed.

Lemma sum_groups {A} (key : A -> string) (p : A -> bool) names l : NoDup names -> (forall r, r ∈ l -> key r ∈ names) ->
  sum (map (fun n => cnt (fun r => bool_decide (key r = n) && p r) l) names) = cnt p l.
Proof.
  intros Hn. induction l as [|r l IH]; intros H; [by rewrite sum_zero|].
  rewrite (map_ext _ (fun n => one (bool_decide (key r = n) && p r) + cnt (fun r => bool_decide (key r = n) && p r) l))
    by (intros n; apply (cnt_cons (fun r => bool_decide (key r = n) && p r))).
  rewrite sum_plus, IH by (intros; apply H; by right). rewrite sum_one by (done || apply H; by left).
  by rewrite cnt_cons.
Qed.

(** ** The counters of an agent *)

Definition from_is (n : string) (r : statRow) : bool := bool_decide (sr_from r = n).
Definition to_is (n : string) (r : statRow) : bool := bool_decide (sr_to r = n).
Definition to_in (n : string) (s : State) (r : statRow) : bool := to_is n r && is_state s r.

Definition delays (n : string) (rows : list statRow) : list Z := concat (map delay_of (List.filter (to_is n) rows)).

(** The reference: what the rows say of a name. *)
Definition acc_ref (n : string) (rows : list statRow) : agent_acc :=
  mkAcc (mkAgentStat n (cnt (from_is n) rows) (cnt (to_is n) rows) (cnt (to_in n StateDelivered) rows)
           (cnt (to_in n StateFailed) rows) (cnt (to_in n StateQueued) rows) (cnt (to_in n StateDelivering) rows)
           (cnt (to_in n StateAcknowledged) rows) 0 0) (delays n rows).

Definition mentioned (n : string) (rows : list statRow) : bool := existsb (fun r => from_is n r || to_is n r) rows.

Lemma acc_ref_new n rows : mentioned n rows = false -> acc_ref n rows = new_acc n.
Proof.
  induction rows as [|r rows IH]; [done|]. unfold mentioned. cbn [existsb]. intros [[Hf Ht]%orb_false_iff H]%orb_false_iff.
  specialize (IH H). unfold acc_ref, delays, to_in in *. injection IH as E1 E2 E3 E4 E5 E6 E7 E8.
  rewrite !cnt_cons. cbn [List.filter]. rewrite Hf, Ht. cbn [andb one]. rewrite !Z.add_0_l. unfold new_acc.
  by rewrite E1, E2, E3, E4, E5, E6, E7, E8.
Qed.

Lemma acc_ref_snoc n rows r :
  acc_ref n (rows ++ [r]) =
  (if to_is n r then count_received r else id) ((if from_is n r then count_sent else id) (acc_ref n rows)).
Proof.
  unfold acc_ref, delays, to_in. rewrite !cnt_snoc, List.filter_app. cbn [List.filter].
  destruct (from_is n r), (to_is n r); cbn [andb one]; rewrite ?Z.add_0_r, ?app_nil_r, ?map_app, ?concat_app;
    unfold count_received, count_sent, id; simpl; rewrite ?app_nil_r; done.
Qed.

Lemma bump_lookup n f m a : bump n f m !! a = if bool_decide (n = a) then Some (f (default (new_acc n) (m !! n))) else m !! a.
Proof.
  unfold bump. case_bool_decide as H; [subst a; by rewrite lookup_insert_eq|by rewrite lookup_insert_ne].
Qed.

Lemma mentioned_snoc n rows r : mentioned n (rows ++ [r]) = mentioned n rows || from_is n r || to_is n r.
Proof. unfold mentioned. rewrite existsb_app. simpl. by rewrite orb_false_r, orb_assoc. Qed.

(** The table of the counters holds the reference. *)
Lemma counted rows n :
  foldl count_row ∅ rows !! n = if mentioned n rows then Some (acc_ref n rows) else None.
Proof.
  induction rows as [|r rows IH] using rev_ind; [done|].
  rewrite foldl_app. cbn [foldl]. unfold count_row. rewrite !bump_lookup, mentioned_snoc, acc_ref_snoc.
  assert (forall k, k = n -> default (new_acc k) (foldl count_row ∅ rows !! k) = acc_ref n rows) as Hd.
  { intros k ->. rewrite IH. destruct (mentioned n rows) eqn:E; [done|]. by rewrite acc_ref_new. }
  unfold from_is, to_is. destruct (decide (sr_to r = n)) as [Et|Ht], (decide (sr_from r = n)) as [Ef|Hf].
  - rewrite !(bool_decide_true (_ = n)) by done. rewrite bool_decide_true by congruence. rewrite orb_true_r. simpl.
    by rewrite Hd.
  - rewrite (bool_decide_true (sr_to r = n)), (bool_decide_false (sr_from r = n)) by done.
    rewrite bool_decide_false by congruence. rewrite orb_true_r. simpl. by rewrite Hd.
  - rewrite (bool_decide_false (sr_to r = n)), (bool_decide_true (sr_from r = n)) by done.
    rewrite orb_true_r. simpl. by rewrite Hd.
  - rewrite !(bool_decide_false (_ = n)) by done. by rewrite !orb_false_r.
Qed.

(** ** Percentiles *)

(** [x] is the nearest rank: fewer than [p] percent of the values are below it, and at
    least that many are not above it. *)
Definition nearest_rank (p : Z) (vs : list Z) (x : Z) : Prop :=
  x ∈ vs /\ 100 * cnt (fun v => v <? x) vs < p * Z.of_nat (length vs) <= 100 * cnt (fun v => v <=? x) vs.

Lemma cnt_perm {A} (p : A -> bool) l l' : l ≡ₚ l' -> cnt p l = cnt p l'.
Proof. unfold cnt. induction 1; simpl; try destruct (p _); try destruct (p _); simpl in *; lia. Qed.

Lemma cnt_app {A} (p : A -> bool) l l' : cnt p (l ++ l') = cnt p l + cnt p l'.
Proof. unfold cnt. rewrite List.filter_app, length_app. lia. Qed.

Lemma cnt_nonneg {A} (p : A -> bool) l : 0 <= cnt p l.
Proof. unfold cnt. lia. Qed.

Lemma cnt_all {A} (p : A -> bool) l : (forall x, x ∈ l -> p x = true) -> cnt p l = Z.of_nat (length l).
Proof.
  induction l as [|x l IH]; intros H; [done|]. rewrite cnt_cons, (H x), IH; [simpl; lia| |by left].
  intros y Hy. apply H. by right.
Qed.

Lemma cnt_none {A} (p : A -> bool) l : (forall x, x ∈ l -> p x = false) -> cnt p l = 0.
Proof.
  induction l as [|x l IH]; intros H; [done|]. rewrite cnt_cons, (H x), IH; [done| |by left].
  intros y Hy. apply H. by right.
Qed.

Lemma cnt_le_length {A} (p : A -> bool) l : cnt p l <= Z.of_nat (length l).
Proof. unfold cnt. pose proof (List.filter_length_le p l). lia. Qed.

(** The rank lies in the list and is the rounded-up share. *)
Lemma rank_bounds p n : 0 < p <= 100 -> 0 < n -> 1 <= rank_of p n <= n /\ 100 * (rank_of p n - 1) < p * n <= 100 * rank_of p n.
Proof.
  intros Hp Hn. unfold rank_of. pose proof (Z.div_mod (p * n + 99) 100 ltac:(lia)) as E.
  pose proof (Z.mod_pos_bound (p * n + 99) 100 ltac:(lia)) as Hm. nia.
Qed.

Lemma sorted_index s i x : Sorted.StronglySorted Z.le s -> s !! i = Some x ->
  (forall v, v ∈ firstn (S i) s -> v <= x) /\ (forall v, v ∈ skipn i s -> x <= v).
Proof.
  intros Hs. revert i. induction Hs as [|y s Hs IH Hy]; intros i H; [done|]. rewrite Forall_forall in Hy.
  destruct i as [|i]; simpl in H.
  - injection H as ->. split; intros v; simpl; rewrite elem_of_cons; [by intros [->|?%elem_of_nil]|].
    intros [->|Hv]; [lia|by apply Hy].
  - destruct (IH i H) as [H1 H2]. split; [|done]. intros v.
    change (firstn (S (S i)) (y :: s)) with (y :: firstn (S i) s). rewrite elem_of_cons.
    intros [->|Hv]; [apply Hy; by eapply list_elem_of_lookup_2|by apply H1].
Qed.

Lemma percentile_nearest p vs : 0 < p <= 100 -> vs <> [] -> nearest_rank p vs (percentile vs p).
Proof.
  intros Hp Hne. unfold percentile. set (n := Z.of_nat (length vs)).
  assert (0 < n) as Hn by (destruct vs; [done|subst n; simpl; lia]).
  destruct (rank_bounds p n Hp Hn) as [Hr Hshare]. set (s := merge_sort Z.le vs).
  assert (s ≡ₚ vs) as Hperm by apply merge_sort_Permutation.
  assert (Z.of_nat (length s) = n) as Hlen by (subst n; by rewrite Hperm).
  set (i := Z.to_nat (rank_of p n - 1)). assert (i < length s)%nat as Hi by lia.
  destruct (lookup_lt_is_Some_2 s i Hi) as [x Hx]. rewrite (nth_lookup_Some _ _ _ _ Hx).
  destruct (sorted_index s i x) as [Hlow Hhigh]; [apply StronglySorted_merge_sort; apply _|done|].
  split; [rewrite <- Hperm; by eapply list_elem_of_lookup_2|]. rewrite <- !(cnt_perm _ _ _ Hperm).
  assert (cnt (fun v => v <? x) s <= Z.of_nat i) as H1.
  { rewrite <- (firstn_skipn i s), cnt_app, (cnt_none _ (skipn i s)).
    - pose proof (cnt_le_length (fun v => v <? x) (firstn i s)). rewrite length_firstn in *. lia.
    - intros v Hv%Hhigh. by apply Z.ltb_ge. }
  assert (Z.of_nat (S i) <= cnt (fun v => v <=? x) s) as H2.
  { rewrite <- (firstn_skipn (S i) s), cnt_app, (cnt_all _ (firstn (S i) s)).
    - rewrite length_firstn. pose proof (cnt_nonneg (fun v => v <=? x) (skipn (S i) s)). lia.
    - intros v Hv%Hlow. by apply Z.leb_le. }
  fold n. lia.
Qed.

(** ** The reports *)

Section Reports.
Context (julian_ms : string -> string -> option Z) (w : StatsWindow) (d : DB).

Notation rows := (scanStats julian_ms w d).
Notation agents := (StatsPerAgent julian_ms w d).

Lemma acc_ref_name n l : as_Agent (finish_stat (acc_ref n l)) = n.
Proof. done. Qed.

Lemma agents_perm : agents ≡ₚ map (fun kv => finish_stat (acc_ref (fst kv) rows)) (map_to_list (foldl count_row ∅ rows)).
Proof.
  unfold StatsPerAgent. rewrite (merge_sort_Permutation stat_le).
  erewrite List.map_ext_in; [reflexivity|]. intros [n a] Hin. apply list_elem_of_In, elem_of_map_to_list in Hin. rewrite counted in Hin.
  destruct (mentioned n rows); [|done]. by injection Hin as <-.
Qed.

Lemma agents_member s : s ∈ agents <-> exists n, mentioned n rows = true /\ s = finish_stat (acc_ref n rows).
Proof.
  rewrite agents_perm, list_elem_of_fmap. split.
  - intros ([n a] & -> & H%elem_of_map_to_list). rewrite counted in H. exists n. by destruct (mentioned n rows).
  - intros (n & Hn & ->). exists (n, acc_ref n rows). split; [done|]. apply elem_of_map_to_list. by rewrite counted, Hn.
Qed.

Lemma agents_NoDup : NoDup (map as_Agent agents).
Proof.
  rewrite agents_perm, map_map. cbn [as_Agent finish_stat ac_stat acc_ref]. apply NoDup_fst_map_to_list.
Qed.

#[local] Instance stat_le_total : Total stat_le.
Proof. intros a b. unfold stat_le. apply String.le_total. Qed.

#[local] Instance stat_le_trans : Transitive stat_le.
Proof. intros a b c H1 H2. unfold stat_le in *. by etrans. Qed.

Lemma agents_sorted : Sorted.StronglySorted stat_le agents.
Proof.
  apply (StronglySorted_merge_sort stat_le).
Qed.

(** A counter kept per agent adds up. *)
Lemma agents_sum (f : AgentStat -> Z) (key : statRow -> string) (p : statRow -> bool) :
  (forall n, f (finish_stat (acc_ref n rows)) = cnt (fun r => bool_decide (key r = n) && p r) rows) ->
  (forall n r, key r = n -> from_is n r || to_is n r = true) ->
  sum (map f agents) = cnt p rows.
Proof.
  intros Hf Hk. rewrite <- (sum_groups key p (map as_Agent agents) rows agents_NoDup).
  - rewrite map_map. f_equal. apply List.map_ext_in. intros s Hs.
    apply list_elem_of_In, agents_member in Hs as (n & _ & ->). apply Hf.
  - intros r Hr. apply list_elem_of_fmap. exists (finish_stat (acc_ref (key r) rows)). split; [done|].
    apply agents_member. exists (key r). split; [|done]. unfold mentioned. apply existsb_exists. exists r.
    split; [by apply list_elem_of_In|by apply Hk].
Qed.

Lemma cnt_ext {A} (p q : A -> bool) l : (forall x, p x = q x) -> cnt p l = cnt q l.
Proof. intros H. unfold cnt. by rewrite (List.filter_ext p q). Qed.

Lemma to_keyed n r : sr_to r = n -> from_is n r || to_is n r = true.
Proof. intros <-. unfold to_is. rewrite bool_decide_true by done. apply orb_true_r. Qed.

Lemma from_keyed n r : sr_from r = n -> from_is n r || to_is n r = true.
Proof. intros <-. unfold from_is. by rewrite bool_decide_true. Qed.

Lemma totals_ref : StatsTotals julian_ms w d =
  mkTotals (Z.of_nat (length rows)) (cnt (is_state StateDelivered) rows) (cnt (is_state StateFailed) rows)
    (cnt (is_state StateQueued) rows) (cnt (is_state StateDelivering) rows) (cnt (is_state StateAcknowledged) rows).
Proof.
  unfold StatsTotals. induction rows as [|r l IH] using rev_ind; [done|].
  rewrite foldl_app. cbn [foldl]. rewrite IH, !cnt_snoc, length_app. unfold count_total. simpl. f_equal. lia.
Qed.

(** The reports of one window, together. *)
Definition stats_spec : Prop :=
  let t := StatsTotals julian_ms w d in
  (* one row per name, in order, with what the rows say of it *)
  Sorted.StronglySorted stat_le agents /\ NoDup (map as_Agent agents) /\
  (forall s, s ∈ agents <-> exists n, mentioned n rows = true /\ s = finish_stat (acc_ref n rows)) /\
  (* the latencies are nearest ranks of the delays *)
  (forall n, delays n rows <> [] ->
     nearest_rank 50 (delays n rows) (as_P50LatencyMs (finish_stat (acc_ref n rows))) /\
     nearest_rank 95 (delays n rows) (as_P95LatencyMs (finish_stat (acc_ref n rows)))) /\
  (* the counters add up to the totals *)
  sum (map as_Sent agents) = tt_Total t /\ sum (map as_Received agents) = tt_Total t /\
  sum (map as_Delivered agents) = tt_Delivered t /\ sum (map as_Failed agents) = tt_Failed t /\
  sum (map as_Queued agents) = tt_Queued t /\ sum (map as_Delivering agents) = tt_Delivering t /\
  sum (map as_Acknowledged agents) = tt_Acknowledged t /\
  (* and every delivered row is in one class of verification *)
  (let vc := DeliveredVerificationCounts w d in vc_Verified vc + vc_Unverified vc + vc_Unknown vc = tt_Delivered t) /\
  forall n, let vc := default no_verification (VerificationCountsByAgent w d !! n) in
    vc_Verified vc + vc_Unverified vc + vc_Unknown vc = cnt (to_in n StateDelivered) rows.

Definition vc_sum (vc : VerificationCounts) : Z := vc_Verified vc + vc_Unverified vc + vc_Unknown vc.

Lemma count_verified_sum vc m : vc_sum (count_verified vc m) = vc_sum vc + 1.
Proof. unfold count_verified, vc_sum. destruct (m_Verified m) as [v|]; [destruct (v =? 1)|]; simpl; lia. Qed.

Lemma verified_sum l : vc_sum (foldl count_verified no_verification l) = Z.of_nat (length l).
Proof.
  induction l as [|m l IH] using rev_ind; [done|]. rewrite foldl_app, length_app. cbn [foldl].
  rewrite count_verified_sum, IH. simpl. lia.
Qed.

Lemma verified_by_agent l n :
  vc_sum (default no_verification (foldl (fun out m =>
    <[m_ToAgent m := count_verified (default no_verification (out !! m_ToAgent m)) m]> out) (∅ : gmap string VerificationCounts) l !! n)) =
  cnt (fun m => bool_decide (m_ToAgent m = n)) l.
Proof.
  induction l as [|m l IH] using rev_ind; [done|]. rewrite foldl_app, cnt_snoc. cbn [foldl].
  destruct (decide (m_ToAgent m = n)) as [E|Hne].
  - rewrite E, lookup_insert_eq. cbn [from_option id]. rewrite count_verified_sum, IH, bool_decide_true by done. done.
  - rewrite lookup_insert_ne, IH, bool_decide_false by done. simpl. lia.
Qed.

(** Delivered rows of the window, counted as messages and as rows of the scan. *)
Lemma delivered_rows (q : string -> bool) :
  cnt (fun m => q (m_ToAgent m)) (sql_where (delivered_in w) (db_messages d)) =
  cnt (fun r => q (sr_to r) && is_state StateDelivered r) rows.
Proof.
  unfold scanStats, sql_where, delivered_in. induction (db_messages d) as [|m l IH]; [done|]. cbn [List.filter].
  destruct (whereSince w m); cbn [map]; rewrite ?andb_false_r, ?andb_true_r; [|done].
  rewrite cnt_cons, <- IH. unfold is_state at 1. cbn [sr_state stat_row sr_to].
  destruct (bool_decide (m_State m = StateDelivered)); [rewrite cnt_cons, andb_true_r; done|rewrite andb_false_r; done].
Qed.

End Reports.
