(* ===== verification/Digest.v ===== *)
(** * The digest of conversations (internal/cli/digest.go)

    The messages of a window fall into threads; a thread waits for an answer when its
    latest message was sent and did not decline one. *)

From stdpp Require Import gmap sorting.
From S2P Require Import Prelude GoStd StoreTypes Priority Messages Queries Lifecycle Invariants ThreadProps TmuxIO Mailman ServeDemo Send SendDemo Window Upkeep Views Tree TreeProps Stats.

Open Scope Z_scope.
Open Scope tell_scope.

Record counterpartyDigest : Type := mkCounterparty {
  cd_Agent : string;
  cd_Sent : Z;
  cd_Received : Z;
  cd_Threads : Z;
  cd_Closed : Z;
  cd_InFlight : Z
}.

Record inFlightThread : Type := mkInFlight {
  if_RootID : string;
  if_LatestID : string;
  if_From : string;
  if_Awaiting : string;
  if_LatestAt : string;
  if_Preview : string
}.

Record digestResult : Type := mkDigest {
  dg_Window : string;
  dg_Counterparties : list counterpartyDigest;
  dg_InFlight : list inFlightThread
}.

Record threadInfo : Type := mkThreadInfo {
  ti_rootID : string;
  ti_participants : gset string;
  ti_closed : bool;
  ti_latest : Message
}.

Section Classify.
(** The orders in which the two maps are ranged over. *)
Context (order : list Message -> list Message)
  (group_order : list (string * list Message) -> list (string * list Message)).

Definition conversational (m : Message) : bool := bool_decide (m_Kind m = KindMessage).

Definition in_set (msgs : list Message) : gmap string Message :=
  foldl (fun s m => if conversational m then <[m_PublicID m := m]> s else s) ∅ msgs.

(** The walk up the answers until it leaves the set or meets an id again; the cache of
    its results is left out.  Every turn adds an id of the set to the seen ones. *)
Fixpoint root_walk (fuel : nat) (s : gmap string Message) (seen : gset string) (cur : Message) : option string :=
  match fuel with
  | O => None
  | S fuel' =>
      let parentID := null_string (m_ReplyTo cur) in
      if str_empty parentID then Some (m_PublicID cur)
      else match s !! parentID with
           | None => Some (m_PublicID cur)
           | Some parent =>
               if bool_decide (m_PublicID parent ∈ seen) then Some (m_PublicID cur)
               else root_walk fuel' s ({[m_PublicID parent]} ∪ seen) parent
           end
  end.

Definition rootOf (s : gmap string Message) (m : Message) : string :=
  default (m_PublicID m) (root_walk (S (size s)) s {[m_PublicID m]} m).

Definition add_to_group (s : gmap string Message) (g : gmap string (list Message)) (m : Message) : gmap string (list Message) :=
  <[rootOf s m := default [] (g !! rootOf s m) ++ [m]]> g.

Definition groups (s : gmap string Message) : gmap string (list Message) :=
  foldl (add_to_group s) ∅ (order (map snd (map_to_list s))).

(** The message of the highest id; an id of zero counts as none. *)
Definition later (latest : option Message) (m : Message) : option Message :=
  match latest with
  | None => Some m
  | Some l => if (m_ID l =? 0) || (m_ID l <? m_ID m) then Some m else latest
  end.

Definition awaits_reply (l : Message) : bool := negb (m_NoReplyExpected l) && negb (bool_decide (m_State l = StateFailed)).

Definition participants (g : list Message) : gset string := list_to_set (map m_FromAgent g ++ map m_ToAgent g).

Definition digest_error (g : list Message) (e : error) : error :=
  ErrWrap ("digest: thread " +:+ match g with m :: _ => m_PublicID m | [] => EmptyString end +:+ ": " +:+ error_text e) e.

(** One thread; a group is never empty. *)
Definition thread_info (g : list Message) : result threadInfo :=
  match buildThreadTree g, foldl later None g with
  | Err e, _ => Err (digest_error g e)
  | Ok (_, root), Some l => Ok (mkThreadInfo root (participants g) (negb (awaits_reply l)) l)
  | Ok _, None => Err (digest_error g (ErrMsg "empty thread"))
  end.

Fixpoint all_threads (gs : list (list Message)) : result (list threadInfo) :=
  match gs with
  | [] => Ok []
  | g :: gs' =>
      t <-? thread_info g ;;
      ts <-? all_threads gs' ;;
      Ok (t :: ts)
  end.

Definition classifyThreads (msgs : list Message) : result (list threadInfo) :=
  all_threads (map snd (group_order (map_to_list (groups (in_set msgs))))).
End Classify.

(** ** Assembling *)

Definition party_row (name : string) : counterpartyDigest := mkCounterparty name 0 0 0 0 0.

Definition update_row (name : string) (f : counterpartyDigest -> counterpartyDigest) (rows : gmap string counterpartyDigest) :=
  <[name := f (default (party_row name) (rows !! name))]> rows.

Definition stat_row_of (rows : gmap string counterpartyDigest) (a : AgentStat) : gmap string counterpartyDigest :=
  update_row (as_Agent a) (fun r => mkCounterparty (cd_Agent r) (as_Sent a) (as_Received a) (cd_Threads r) (cd_Closed r) (cd_InFlight r)) rows.

Definition count_thread (t : threadInfo) (r : counterpartyDigest) : counterpartyDigest :=
  mkCounterparty (cd_Agent r) (cd_Sent r) (cd_Received r) (cd_Threads r + 1)
    (cd_Closed r + one (ti_closed t)) (cd_InFlight r + one (negb (ti_closed t))).

Definition thread_rows (rows : gmap string counterpartyDigest) (t : threadInfo) : gmap string counterpartyDigest :=
  foldl (fun rows agent => update_row agent (count_thread t) rows) rows (elements (ti_participants t)).

Definition inflight_of (t : threadInfo) : inFlightThread :=
  let l := ti_latest t in
  mkInFlight (ti_rootID t) (m_PublicID l) (m_FromAgent l) (m_ToAgent l) (m_CreatedAt l) (threadBodyPreview (m_Body l)).

(** The newest first, then by the root. *)
Definition inflight_before (a b : inFlightThread) : bool :=
  if negb (bool_decide (if_LatestAt a = if_LatestAt b)) then Str.ltb (if_LatestAt b) (if_LatestAt a)
  else Str.ltb (if_RootID a) (if_RootID b).
Definition inflight_le (a b : inFlightThread) : Prop := inflight_before b a = false.
#[global] Instance inflight_le_dec a b : Decision (inflight_le a b).
Proof. unfold inflight_le. apply _. Defined.

Definition row_le (a b : counterpartyDigest) : Prop := String.le (cd_Agent a) (cd_Agent b).
#[global] Instance row_le_dec a b : Decision (row_le a b).
Proof. unfold row_le. apply _. Defined.

Definition assembleDigest (sinceSpec : string) (agentStats : list AgentStat) (threads : list threadInfo)
    (counterparty : string) : digestResult :=
  let rows := foldl thread_rows (foldl stat_row_of ∅ agentStats) threads in
  let in_scope t := str_empty counterparty || bool_decide (counterparty ∈ ti_participants t) in
  mkDigest sinceSpec
    (merge_sort row_le (List.filter (fun r => str_empty counterparty || bool_decide (cd_Agent r = counterparty))
                          (map snd (map_to_list rows))))
    (merge_sort inflight_le (map inflight_of (List.filter (fun t => negb (ti_closed t) && in_scope t) threads))).

(** ** The command *)

Section Command.
Context (julian_ms : string -> string -> option Z) (order : list Message -> list Message)
  (group_order : list (string * list Message) -> list (string * list Message)) (midnight : Z -> Z -> Z).

Definition runDigestWithStore (w : StatsWindow) (sinceSpec counterparty : string) : M (outcome digestResult) :=
  a <! store_read "StatsPerAgent" (StatsPerAgent julian_ms w) ;;
  match a with
  | Err e => fail e exitInternal
  | Ok agentStats =>
      r <! store_read "MessagesInWindow" (MessagesInWindow w) ;;
      match r with
      | Err e => fail e exitInternal
      | Ok msgs =>
          match classifyThreads order group_order msgs with
          | Err e => fail e exitInternal
          | Ok threads => go (Done (assembleDigest sinceSpec agentStats threads counterparty))
          end
      end
  end.

Definition runDigestCLI (since counterparty : string) : M (outcome digestResult) :=
  now <! lift time_Now ;;
  match parseWindow midnight since now with
  | Err e => fail e exitUsage
  | Ok w => runDigestWithStore w since counterparty
  end.
End Command.

Definition counterparty_cells (c : counterpartyDigest) : list string :=
  [cd_Agent c; Str.itoa (cd_Sent c); Str.itoa (cd_Received c); Str.itoa (cd_Threads c); Str.itoa (cd_Closed c);
   Str.itoa (cd_InFlight c)].

Definition inflight_lines (t : inFlightThread) : list string :=
  ("  • " +:+ if_RootID t +:+ "  " +:+ if_From t +:+ " → " +:+ if_Awaiting t +:+ " awaits reply  (latest " +:+ if_LatestID t +:+ ")") ::
  (if str_empty (if_Preview t) then [] else ["      " +:+ if_Preview t]).

Definition renderDigestText (res : digestResult) (counterparty : string) : list string :=
  ["Message digest" +:+ (if str_empty counterparty then EmptyString else " — " +:+ counterparty) +:+ " — window " +:+ dg_Window res;
   EmptyString] ++
  (if bool_decide (length (dg_Counterparties res) = 0%nat) then ["  (no conversational traffic in window)"]
   else renderTextTable ["COUNTERPARTY"; "SENT"; "RECEIVED"; "THREADS"; "CLOSED"; "IN-FLIGHT"]
          (map counterparty_cells (dg_Counterparties res))) ++
  [EmptyString; "In-flight threads (likely need follow-up):"] ++
  (if bool_decide (length (dg_InFlight res) = 0%nat) then ["  (none — every thread's last word needed no reply)"]
   else concat (map inflight_lines (dg_InFlight res))) ++
  [EmptyString; "(in-flight = latest message not marked 🔕 no-reply-expected; a heuristic, not ground truth)"].

(** * Every conversation is digested

    On a well-formed store the threads of the digest are the conversations of the
    window, each with its root, its latest message and everybody who took part; no order
    of the maps makes the command fail. *)

(** The parent of a message among those of the window. *)
Definition parent_of (c : list Message) (m p : Message) : Prop :=
  m ∈ c /\ p ∈ c /\ m_ReplyTo m = Some (m_PublicID p).

Definition top_of_thread (c : list Message) (r : Message) : Prop := r ∈ c /\ forall p, ~ parent_of c r p.

(** The messages of a window: ids are unique, and an answer is younger. *)
Record chains (c : list Message) : Prop := {
  cw_ids : NoDup (map m_PublicID c);
  cw_named : forall m r, m ∈ c -> m_ReplyTo m = Some r -> r <> EmptyString;
  cw_older : forall m p, parent_of c m p -> m_ID p < m_ID m;
  cw_positive : forall m, m ∈ c -> 1 <= m_ID m
}.

Lemma window_chains w d : messages_wf d -> chains (List.filter conversational (MessagesInWindow w d)).
Proof.
  intros Hw. assert (forall m, m ∈ List.filter conversational (MessagesInWindow w d) -> m ∈ db_messages d) as Hin.
  { intros m. rewrite list_elem_of_In, List.filter_In. unfold MessagesInWindow, sql_where. rewrite List.filter_In.
    intros [[H _] _]. by apply list_elem_of_In. }
  split.
  - unfold MessagesInWindow, sql_where. pose proof (mw_public d Hw) as H. revert H. generalize (db_messages d).
    assert (forall (p : Message -> bool) l, NoDup (map m_PublicID l) -> NoDup (map m_PublicID (List.filter p l))) as Hf.
    { intros p l. induction l as [|x l IH]; intros H; [done|]. apply NoDup_cons in H as [Hx H]. cbn [List.filter].
      destruct (p x); [|by apply IH]. apply NoDup_cons. split; [|by apply IH]. intros Hc. apply Hx.
      apply list_elem_of_fmap in Hc as (y & -> & Hy). apply list_elem_of_fmap. exists y. split; [done|].
      apply list_elem_of_In, List.filter_In in Hy as [Hy _]. by apply list_elem_of_In. }
    intros l H. by apply Hf, Hf.
  - intros m r Hm Hr. by apply (mw_reply d Hw m r (Hin m Hm) Hr).
  - intros m p (Hm & Hp & Hr). destruct (mw_reply d Hw m _ (Hin m Hm) Hr) as (_ & p' & Hp' & E & Hlt).
    assert (p' = p) as <-; [|done]. apply (inj_on_NoDup m_PublicID (db_messages d)); auto. apply Hw.
  - intros m Hm. by apply (mw_bound d Hw), Hin.
Qed.

Section Threads.
Context (msgs : list Message).
Notation c := (List.filter conversational msgs).
Context (Hc : chains c).
Notation s := (in_set msgs).

(** The set holds the conversational messages by id. *)
Lemma in_set_lookup id m : s !! id = Some m <-> m ∈ c /\ m_PublicID m = id.
Proof.
  pose proof (cw_ids c Hc) as Hnd. clear Hc. unfold in_set. revert Hnd.
  induction msgs as [|x l IH] using rev_ind; intros Hnd; cbn.
  - rewrite lookup_empty. split; [done|by intros [?%elem_of_nil _]].
  - rewrite List.filter_app in *. cbn [List.filter] in *. rewrite foldl_app. cbn [foldl].
    destruct (conversational x); [|rewrite app_nil_r in *; by apply IH].
    rewrite map_app in Hnd. apply NoDup_app in Hnd as (Hnd & Hx & _).
    rewrite lookup_insert_Some, (IH Hnd), elem_of_app, list_elem_of_singleton. split.
    + intros [[<- <-]|[Hne [Hm <-]]]; [by split; [right|]|by split; [left|]].
    + intros [[Hm| ->] <-]; [|by left]. right. split; [|done]. intros E. apply (Hx (m_PublicID m)).
      * apply list_elem_of_fmap. by exists m.
      * rewrite <- E. by left.
Qed.

(** Whether the walk goes on. *)
Lemma up_spec m p : m ∈ c ->
  str_empty (null_string (m_ReplyTo m)) = false /\ s !! null_string (m_ReplyTo m) = Some p <-> parent_of c m p.
Proof.
  intros Hm. rewrite in_set_lookup. unfold parent_of. split.
  - intros (Hne & Hp & E). destruct (m_ReplyTo m) as [r|]; [|done]. simpl in E. by subst.
  - intros (_ & Hp & E). rewrite E. split; [|done]. simpl. pose proof (cw_named c Hc m _ Hm E) as Hne.
    by destruct (m_PublicID p).
Qed.

Definition below (cur : Message) : nat := size (filter (fun kv => m_ID kv.2 < m_ID cur) s).

Lemma below_parent m p : parent_of c m p -> (below p < below m)%nat.
Proof.
  intros Hp. pose proof (cw_older c Hc m p Hp) as Hlt. unfold below. apply map_subset_size, map_subset_alt. split.
  - apply map_filter_subseteq_ext. intros i x _. simpl. lia.
  - exists (m_PublicID p). rewrite map_lookup_filter_None. split.
    + right. intros x Hx. apply in_set_lookup in Hx as [Hx E].
      assert (x = p) as -> by (apply (inj_on_NoDup m_PublicID c); [apply Hc|done|apply Hp|done]). simpl. lia.
    + exists p. apply map_lookup_filter_Some. split; [|done]. apply in_set_lookup. split; [apply Hp|done].
Qed.

Definition climbs : Message -> Message -> Prop := rtc (parent_of c).

Lemma climbs_in m r : climbs m r -> m ∈ c -> r ∈ c.
Proof. intros H. induction H as [|m p r Hp _ IH]; [done|]. intros _. apply IH, Hp. Qed.

(** The walk ends at the top of the thread. *)
Lemma root_walk_ok fuel : forall seen cur, cur ∈ c -> (below cur < fuel)%nat ->
  (forall x, x ∈ c -> m_PublicID x ∈ seen -> m_ID cur <= m_ID x) ->
  exists r, root_walk fuel s seen cur = Some (m_PublicID r) /\ climbs cur r /\ top_of_thread c r.
Proof.
  induction fuel as [|fuel IH]; intros seen cur Hcur Hf Hseen; [lia|]. cbn [root_walk].
  destruct (str_empty (null_string (m_ReplyTo cur))) eqn:Ee.
  { exists cur. split; [done|]. split; [apply rtc_refl|]. split; [done|]. intros p Hp.
    apply up_spec in Hp as [Hp _]; [congruence|done]. }
  destruct (s !! null_string (m_ReplyTo cur)) as [p|] eqn:Ep.
  2:{ exists cur. split; [done|]. split; [apply rtc_refl|]. split; [done|]. intros p Hp.
      apply up_spec in Hp as [_ Hp]; [congruence|done]. }
  assert (parent_of c cur p) as Hp by (by apply up_spec).
  pose proof (cw_older c Hc cur p Hp) as Hlt. pose proof (below_parent cur p Hp) as Hb.
  rewrite bool_decide_false by (intros Hin; specialize (Hseen p (proj1 (proj2 Hp)) Hin); lia).
  destruct (IH ({[m_PublicID p]} ∪ seen) p) as (r & E & Hr & Htop); [apply Hp|lia| |].
  - intros x Hx [Hxp%elem_of_singleton|Hxs]%elem_of_union.
    + assert (x = p) as -> by (apply (inj_on_NoDup m_PublicID c); [apply Hc|done|apply Hp|done]). lia.
    + specialize (Hseen x Hx Hxs). lia.
  - exists r. split; [done|]. split; [|done]. by eapply rtc_l.
Qed.

Lemma rootOf_ok m : m ∈ c -> exists r, rootOf s m = m_PublicID r /\ climbs m r /\ top_of_thread c r.
Proof.
  intros Hm. unfold rootOf. destruct (root_walk_ok (S (size s)) {[m_PublicID m]} m Hm) as (r & -> & H).
  - unfold below. pose proof (map_subseteq_size _ _ (map_filter_subseteq (fun kv => m_ID kv.2 < m_ID m) s)). lia.
  - intros x Hx E%elem_of_singleton.
    assert (x = m) as -> by (by apply (inj_on_NoDup m_PublicID c); [apply Hc|..]). done.
  - by exists r.
Qed.

Lemma parent_unique m p p' : parent_of c m p -> parent_of c m p' -> p = p'.
Proof.
  intros (_ & Hp & E) (_ & Hp' & E'). apply (inj_on_NoDup m_PublicID c); [apply Hc|done|done|congruence].
Qed.

(** A message has one top. *)
Lemma top_unique m r r' : climbs m r -> top_of_thread c r -> climbs m r' -> top_of_thread c r' -> r = r'.
Proof.
  intros H Hr. induction H as [r|m p r Hp H IH]; intros H' Hr'.
  - destruct H' as [|r p r' Hp _]; [done|]. by destruct (proj2 Hr p).
  - destruct H' as [|m p' r' Hp' H']; [by destruct (proj2 Hr' p)|].
    rewrite (parent_unique m p' p Hp' Hp) in H'. by apply IH.
Qed.

Lemma rootOf_unique m r : m ∈ c -> climbs m r -> top_of_thread c r -> rootOf s m = m_PublicID r.
Proof. intros Hm H Hr. destruct (rootOf_ok m Hm) as (r' & -> & H' & Hr'). by rewrite (top_unique m r r'). Qed.

Lemma rootOf_parent m p : parent_of c m p -> rootOf s m = rootOf s p.
Proof.
  intros Hp. destruct (rootOf_ok p (proj1 (proj2 Hp))) as (r & -> & H & Hr).
  apply rootOf_unique; [apply Hp| |done]. by eapply rtc_l.
Qed.

(** ** Groups *)

Context (order : list Message -> list Message) (Horder : forall l, order l ≡ₚ l).

Notation values := (order (map snd (map_to_list s))).

Lemma values_elem m : m ∈ values <-> m ∈ c.
Proof.
  rewrite Horder, list_elem_of_fmap. split.
  - intros ([id x] & -> & H%elem_of_map_to_list). by apply in_set_lookup in H as [H _].
  - intros H. exists (m_PublicID m, m). split; [done|]. apply elem_of_map_to_list. by apply in_set_lookup.
Qed.

Lemma values_NoDup : NoDup values.
Proof.
  rewrite Horder. apply NoDup_fmap_2_strong; [|apply NoDup_map_to_list].
  intros [i x] [j y] H1%elem_of_map_to_list H2%elem_of_map_to_list. simpl. intros <-.
  apply in_set_lookup in H1 as [_ <-], H2 as [_ <-]. done.
Qed.

Lemma groups_lookup k : groups order s !! k =
  match List.filter (fun m => bool_decide (rootOf s m = k)) values with [] => None | g => Some g end.
Proof.
  unfold groups. induction values as [|m l IH] using rev_ind; [done|].
  rewrite foldl_app, List.filter_app. cbn [foldl List.filter]. unfold add_to_group at 1.
  destruct (decide (rootOf s m = k)) as [->|Hne].
  - rewrite lookup_insert_eq, IH, bool_decide_true by done. by destruct (List.filter _ l).
  - rewrite lookup_insert_ne, IH, bool_decide_false by done. by rewrite app_nil_r.
Qed.

Lemma group_is k g : groups order s !! k = Some g -> g = List.filter (fun m => bool_decide (rootOf s m = k)) values.
Proof. rewrite groups_lookup. destruct (List.filter _ values) eqn:E; [done|]. by intros [= <-]. Qed.

(** A thread: the messages that climb to one top. *)
Definition in_thread (k : string) (m : Message) : Prop := m ∈ c /\ rootOf s m = k.

Lemma group_elem k g m : groups order s !! k = Some g -> m ∈ g <-> in_thread k m.
Proof.
  intros ->%group_is.
  rewrite list_elem_of_In, List.filter_In, <- list_elem_of_In, values_elem, bool_decide_eq_true. done.
Qed.

Lemma group_NoDup k g : groups order s !! k = Some g -> NoDup g.
Proof.
  intros ->%group_is.
  apply NoDup_ListNoDup, List.NoDup_filter, NoDup_ListNoDup, values_NoDup.
Qed.

Lemma group_top k g : groups order s !! k = Some g -> exists r, r ∈ g /\ m_PublicID r = k /\ top_of_thread c r.
Proof.
  intros Hg. pose proof Hg as H. rewrite groups_lookup in H.
  destruct (List.filter _ values) as [|m g'] eqn:E; [done|]. injection H as <-.
  assert (in_thread k m) as [Hm Hk] by (apply (group_elem k (m :: g')); [done|by left]).
  destruct (rootOf_ok m Hm) as (r & Er & Hr & Htop). rewrite Hk in Er. exists r. split; [|done].
  apply (group_elem k _ r Hg). split; [by eapply climbs_in|]. rewrite (rootOf_unique r r); [done|by eapply climbs_in|apply rtc_refl|done].
Qed.

(** Only the top of a group has no parent in it. *)
Lemma group_parents k g m r : groups order s !! k = Some g -> m ∈ g -> r ∈ g -> top_of_thread c r -> m_PublicID r = k ->
  parent_in (map m_PublicID g) m = None <-> m = r.
Proof.
  intros Hg Hm Hr Htop Hk. pose proof (proj1 (group_elem k g m Hg) Hm) as [Hmc Hmk]. unfold parent_in. split.
  - destruct (str_empty (null_string (m_ReplyTo m))) eqn:Ee; intros Hp.
    + assert (top_of_thread c m) as Ht.
      { split; [done|]. intros p Hpp. apply up_spec in Hpp as [Hpp _]; [congruence|done]. }
      apply (inj_on_NoDup m_PublicID c); [apply Hc|done|apply Htop|].
      rewrite Hk, <- Hmk. symmetry. by rewrite (rootOf_unique m m) by (done || apply rtc_refl).
    + cbn [orb] in Hp. destruct (negb _) eqn:En; [|done]. apply negb_true_iff, bool_decide_eq_false in En.
      assert (top_of_thread c m) as Ht.
      { split; [done|]. intros p Hpp. apply En.
        assert (p ∈ g) as Hpg.
        { apply (group_elem k g p Hg). split; [apply Hpp|]. by rewrite <- (rootOf_parent m p Hpp). }
        destruct Hpp as (_ & _ & ->). apply list_elem_of_fmap. by exists p. }
      apply (inj_on_NoDup m_PublicID c); [apply Hc|done|apply Htop|].
      rewrite Hk, <- Hmk. symmetry. by rewrite (rootOf_unique m m) by (done || apply rtc_refl).
  - intros ->. destruct (str_empty (null_string (m_ReplyTo r))) eqn:Ee; [done|]. cbn [orb].
    rewrite bool_decide_false; [done|]. intros Hin. apply list_elem_of_fmap in Hin as (p & E & Hp).
    apply (proj2 Htop p). apply up_spec; [done|]. split; [done|]. rewrite E. apply in_set_lookup.
    split; [by apply (group_elem k g p Hg)|done].
Qed.

(** The latest message of a group. *)
Lemma later_last g l0 : (forall m, m ∈ g -> 1 <= m_ID m) -> (forall l, l0 = Some l -> 1 <= m_ID l) -> (g <> [] \/ l0 <> None) ->
  exists l, foldl later l0 g = Some l /\ (l ∈ g \/ l0 = Some l) /\ (forall m, m ∈ g \/ l0 = Some m -> m_ID m <= m_ID l).
Proof.
  revert l0. induction g as [|m g IH]; intros l0 Hg Hl0 Hne; cbn [foldl].
  - destruct l0 as [l|]; [|by destruct Hne]. exists l. split; [done|]. split; [by right|].
    intros m [Hm|[= <-]]; [by apply elem_of_nil in Hm|lia].
  - assert (1 <= m_ID m) as Hm by (apply Hg; by left).
    assert (exists l1, later l0 m = Some l1 /\ (l1 = m \/ l0 = Some l1) /\ m_ID m <= m_ID l1 /\ (forall x, l0 = Some x -> m_ID x <= m_ID l1))
      as (l1 & E & Hl1 & Hm1 & Hx1).
    { destruct l0 as [l|]; [|exists m; repeat split; [by left|lia|done]]. specialize (Hl0 l eq_refl). unfold later.
      destruct (Z.eqb_spec (m_ID l) 0); [lia|]. cbn [orb]. destruct (Z.ltb_spec (m_ID l) (m_ID m)).
      - exists m. repeat split; [by left|lia|]. intros x [= <-]. lia.
      - exists l. repeat split; [by right|lia|]. intros x [= <-]. lia. }
    rewrite E. destruct (IH (Some l1)) as (l & El & Hin & Hmax).
    + intros x Hx. apply Hg. by right.
    + intros x [= <-]. lia.
    + by right.
    + exists l. split; [done|]. split.
      * destruct Hin as [?|[= <-]]; [left; by right|]. destruct Hl1 as [->|?]; [left; by left|by right].
      * intros x [[->|Hx]%elem_of_cons|Hx].
        -- specialize (Hmax l1 ltac:(by right)). lia.
        -- apply Hmax. by left.
        -- specialize (Hmax l1 ltac:(by right)). specialize (Hx1 x Hx). lia.
Qed.

(** What the digest says of one thread. *)
Definition digested (t : threadInfo) : Prop :=
  (exists r, m_PublicID r = ti_rootID t /\ top_of_thread c r /\ in_thread (ti_rootID t) r) /\
  in_thread (ti_rootID t) (ti_latest t) /\ (forall m, in_thread (ti_rootID t) m -> m_ID m <= m_ID (ti_latest t)) /\
  (ti_closed t = false <-> m_NoReplyExpected (ti_latest t) = false /\ m_State (ti_latest t) <> StateFailed) /\
  (forall a, a ∈ ti_participants t <-> exists m, in_thread (ti_rootID t) m /\ (m_FromAgent m = a \/ m_ToAgent m = a)).

Lemma thread_info_ok k g : groups order s !! k = Some g -> exists t, thread_info g = Ok t /\ ti_rootID t = k /\ digested t.
Proof.
  intros Hg. destruct (group_top k g Hg) as (r & Hr & Hk & Htop).
  pose proof (fun m => group_elem k g m Hg) as Hel.
  destruct (later_last g None) as (l & El & Hl & Hmax).
  { intros m Hm. apply (cw_positive c Hc). by apply Hel in Hm as [Hm _]. }
  { done. }
  { left. intros E. rewrite E in Hr. by apply elem_of_nil in Hr. }
  assert (l ∈ g) as Hlg by (by destruct Hl).
  destruct (hang_spec (map m_PublicID g) r g None ∅) as (ch & Eh & _).
  { intros m Hm. by apply (group_parents k g m r). }
  { by apply (group_NoDup k). }
  { intros _. split; [done|]. by apply (group_parents k g r r). }
  rewrite (bool_decide_true _ Hr) in Eh.
  eexists. split; [|split].
  - unfold thread_info, buildThreadTree. rewrite bool_decide_false by (intros E; rewrite E in Hr; by apply elem_of_nil in Hr).
    rewrite Eh, El. reflexivity.
  - simpl. done.
  - unfold digested. cbn [ti_rootID ti_latest ti_closed ti_participants]. rewrite Hk.
    split; [exists r; split; [done|]; split; [done|by apply Hel]|]. split; [by apply Hel|].
    split; [intros m Hm; apply Hmax; left; by apply Hel|]. split.
    + unfold awaits_reply. rewrite negb_false_iff, andb_true_iff, !negb_true_iff, bool_decide_eq_false. done.
    + intros a. unfold participants. rewrite elem_of_list_to_set, elem_of_app, !list_elem_of_fmap. split.
      * intros [(m & -> & Hm)|(m & -> & Hm)]; exists m; (split; [by apply Hel|]); [by left|by right].
      * intros (m & Hm%Hel & [<-|<-]); [left|right]; by exists m.
Qed.

Lemma all_threads_ok gs : (forall k g, (k, g) ∈ gs -> groups order s !! k = Some g) ->
  exists ts, all_threads (map snd gs) = Ok ts /\ map ti_rootID ts = map fst gs /\ Forall digested ts.
Proof.
  induction gs as [|[k g] gs IH]; intros H; [by exists []|].
  destruct (thread_info_ok k g) as (t & E & Hk & Ht); [apply H; by left|].
  destruct IH as (ts & Es & Hks & Hts); [intros k' g' Hin; apply H; by right|].
  exists (t :: ts). cbn [map all_threads fst snd]. rewrite E, Es. split; [done|]. split; [by f_equal|by constructor].
Qed.
End Threads.

(** What the digest of a window is. *)
Definition digest_spec (msgs : list Message) (r : result (list threadInfo)) : Prop :=
  let c := List.filter conversational msgs in
  exists threads, r = Ok threads /\ NoDup (map ti_rootID threads) /\ Forall (digested msgs) threads /\
    forall m, m ∈ c -> exists t top, t ∈ threads /\ climbs msgs m top /\ top_of_thread c top /\ m_PublicID top = ti_rootID t.

(** Every conversation is digested.  On a well-formed store, whatever the window and
    the orders in which the maps are ranged over, the classification succeeds: every
    message of the window climbs through its answers, as far as the window goes, to the
    top of exactly one of the threads; each thread has that top as its root, its latest
    message, everybody who sent or got one of its messages, and it is open exactly when
    the latest message was sent and did not decline an answer. *)
Theorem digest_complete order group_order w d :
  store_wf d -> (forall l, order l ≡ₚ l) -> (forall l, group_order l ≡ₚ l) ->
  digest_spec (MessagesInWindow w d) (classifyThreads order group_order (MessagesInWindow w d)).
Proof.
  intros [Hw _] Ho Hg. pose proof (window_chains w d Hw) as Hc. set (msgs := MessagesInWindow w d) in *.
  unfold digest_spec, classifyThreads. cbv zeta.
  destruct (all_threads_ok msgs Hc order Ho (group_order (map_to_list (groups order (in_set msgs))))) as (ts & E & Hk & Hts).
  { intros k g Hin. rewrite Hg in Hin. by apply elem_of_map_to_list. }
  exists ts. split; [exact E|]. split; [|split; [exact Hts|]].
  - rewrite Hk, Hg. apply NoDup_fst_map_to_list.
  - intros m Hm. destruct (rootOf_ok msgs Hc m Hm) as (top & Er & Hcl & Htop).
    assert (exists g, groups order (in_set msgs) !! m_PublicID top = Some g) as [g Eg].
    { rewrite (groups_lookup msgs order). destruct (List.filter _ (order _)) as [|x l] eqn:Ef; [exfalso|by exists (x :: l)].
      assert (m ∈ @nil Message) as Hn; [|by apply elem_of_nil in Hn]. rewrite <- Ef.
      apply list_elem_of_In, List.filter_In. split; [apply list_elem_of_In; by apply values_elem|by apply bool_decide_eq_true]. }
    assert (m_PublicID top ∈ map ti_rootID ts) as Hin.
    { rewrite Hk, Hg. apply list_elem_of_fmap. exists (m_PublicID top, g). split; [done|]. by apply elem_of_map_to_list. }
    apply list_elem_of_fmap in Hin as (t & Et & Ht). by exists t, top.
Qed.

Lemma digest_complete_witness :
  exists threads, classifyThreads id id (MessagesInWindow All db_chain) = Ok threads /\
    map (fun t => (ti_rootID t, m_PublicID (ti_latest t), ti_closed t)) threads = [("0001", "0003", false)] /\
    digest_spec (MessagesInWindow All db_chain) (Ok threads).
Proof.
  pose proof (digest_complete id id All db_chain db_chain_wf (fun l => reflexivity l) (fun l => reflexivity l)) as H.
  assert (exists threads, classifyThreads id id (MessagesInWindow All db_chain) = Ok threads /\
    map (fun t => (ti_rootID t, m_PublicID (ti_latest t), ti_closed t)) threads = [("0001", "0003", false)]) as (ts & E & Ht)
    by (eexists; split; vm_compute; reflexivity).
  exists ts. split; [exact E|]. split; [exact Ht|]. by rewrite <- E.
Defined.
