(* ===== verification/Doctor.v ===== *)
(** * Which database every process writes to (internal/cli: doctor.go, doctor_chamber.go,
      whoami_db.go)

    The diagnosis reads /proc: the open database of each process of the adapter, its
    binary, what it is and whose.  /proc and the inode of a path are parameters. *)

From stdpp Require Import gmap sorting.
From S2P Require Import Prelude GoStd StoreTypes Messages Agents TmuxIO Mailman ServeDemo Alone Notify Send SendDemo WindowProps Upkeep Register Views.

Open Scope Z_scope.
Open Scope tell_scope.

Definition observedStateFreshness : Z := 2 * Time.Minute.
Definition exitDoctorIdleStaleOnly : Z := 71.

Record dbBinding : Type := mkBinding {
  bd_PID : Z;
  bd_BinaryPath : string;
  bd_StartedAt : string;
  bd_DBPath : string;
  bd_DBInode : Z;
  bd_DBDeleted : bool;
  bd_Note : string
}.

Record doctorProcInfo : Type := mkProcInfo {
  pi_Role : string;
  pi_AgentName : string
}.

Record doctorProc : Type := mkProc {
  dp_Binding : dbBinding;
  dp_Canonical : bool;
  dp_Divergent : bool;
  dp_Verdict : string;
  dp_Role : string;
  dp_AgentName : string;
  dp_ObservedState : string;
  dp_Softened : bool;
  dp_IdleStale : bool
}.

Record doctorReport : Type := mkDoctorReport {
  dr_CanonicalPath : string;
  dr_CanonicalInode : Z;
  dr_Procs : list doctorProc;
  dr_Divergent : bool
}.

Record classifyOpts : Type := mkClassify {
  co_AllowActiveAgents : bool;
  co_ObservedByChamber : gmap string string
}.

(** ** Classification *)

Definition isMidTurnObservedState (s : string) : bool :=
  bool_decide (s ∈ ["working"; "at-rest-in-compaction"; "awaiting-operator"]).

Definition deleted_mark : string := " (deleted)".
Definition staleBinary (b : dbBinding) : bool := Str.HasSuffix (bd_BinaryPath b) deleted_mark.

Definition different_inode (b : dbBinding) (canonicalInode : Z) : string :=
  "bound to a different DB inode (" +:+ Str.itoa (bd_DBInode b) +:+ ") than canonical (" +:+ Str.itoa canonicalInode +:+ ")".

Definition no_fresh_state (agent : string) : string :=
  "stale binary — agent " +:+ Str.Quote agent +:+
  " has no fresh observed_state (orphan or crashed mailman); MCP cannot be substantiated as mid-turn".
Definition not_mid_turn (agent obs : string) : string :=
  "stale binary — agent " +:+ Str.Quote agent +:+ " observed_state=" +:+ obs +:+
  " (not mid-turn); MCP will not drain without external action".
Definition softened_text (agent obs : string) : string :=
  "stale binary softened — agent " +:+ Str.Quote agent +:+ " is mid-turn (observed_state=" +:+ obs +:+
  "); MCP will refresh on next natural boundary [--allow-active-agents]".

(** A process whose binary was replaced. *)
Definition judge_stale (mk : bool -> bool -> string -> bool -> bool -> doctorProc) (info : doctorProcInfo) (obs : string)
    (opts : classifyOpts) : doctorProc :=
  if co_AllowActiveAgents opts && bool_decide (pi_Role info = "mcp") && negb (str_empty (pi_AgentName info)) then
    if str_empty obs then mk false true (no_fresh_state (pi_AgentName info)) false true
    else if negb (isMidTurnObservedState obs) then mk false true (not_mid_turn (pi_AgentName info) obs) false true
    else mk false false (softened_text (pi_AgentName info) obs) true false
  else mk false true "running a since-replaced binary (process predates the on-disk binary)" false false.

Definition observed_of (info : doctorProcInfo) (opts : classifyOpts) : string :=
  if str_empty (pi_AgentName info) then EmptyString
  else default EmptyString (co_ObservedByChamber opts !! pi_AgentName info).

Definition judge (b : dbBinding) (info : doctorProcInfo) (canonicalInode : Z) (opts : classifyOpts) : doctorProc :=
  let obs := observed_of info opts in
  let mk canonical divergent verdict softened idle :=
    mkProc b canonical divergent verdict (pi_Role info) (pi_AgentName info) obs softened idle in
  if negb (str_empty (bd_Note b)) && str_empty (bd_DBPath b) then mk false false (bd_Note b) false false
  else if bd_DBDeleted b
  then mk false true "orphan DB inode — file removed; writes invisible to mailmen on the canonical path" false false
  else if negb (canonicalInode =? 0) && negb (bd_DBInode b =? canonicalInode)
  then mk false true (different_inode b canonicalInode) false false
  else if staleBinary b then judge_stale mk info obs opts
  else if canonicalInode =? 0 then mk false false "canonical DB path absent — cannot compare inode" false false
  else mk true false "canonical" false false.

Definition no_info : doctorProcInfo := mkProcInfo EmptyString EmptyString.

Definition info_at (i : nat) (infos : list doctorProcInfo) : doctorProcInfo := default no_info (infos !! i).

Definition classifyDoctorProcs (bindings : list dbBinding) (infos : list doctorProcInfo) (canonicalPath : string)
    (canonicalInode : Z) (opts : classifyOpts) : doctorReport :=
  let procs := imap (fun i b => judge b (info_at i infos) canonicalInode opts) bindings in
  mkDoctorReport canonicalPath canonicalInode procs (existsb dp_Divergent procs).

Definition doctorExitCode (rep : doctorReport) : Z :=
  if negb (dr_Divergent rep) then exitOK
  else if existsb (fun p => dp_Divergent p && negb (dp_IdleStale p)) (dr_Procs rep) then exitUnavailable
  else exitDoctorIdleStaleOnly.

(** ** What a process is *)

(** The longest run of bytes that are neither a dot nor a slash, and the rest. *)
Fixpoint name_run (s : string) : string * string :=
  match s with
  | EmptyString => (EmptyString, EmptyString)
  | String a s' =>
      if bool_decide (a = "."%char) || bool_decide (a = "/"%char) then (EmptyString, s)
      else let (n, r) := name_run s' in (String a n, r)
  end.

(** [chamber-([^./]+)\.slice], at the first place it matches. *)
Definition slice_here (s : string) : option string :=
  match Str.CutPrefix s "chamber-" with
  | None => None
  | Some r => let (n, rest) := name_run r in
              if negb (str_empty n) && Str.HasPrefix rest ".slice" then Some n else None
  end.
Fixpoint chamberSlice (s : string) : option string :=
  match slice_here s with
  | Some n => Some n
  | None => match s with EmptyString => None | String _ s' => chamberSlice s' end
  end.

Definition nul_byte : ascii := Ascii.ascii_of_nat 0.

(** The value of [--agent] among the words after the verb. *)
Fixpoint agent_flag (args : list string) : string :=
  match args with
  | [] => EmptyString
  | a :: rest =>
      match rest with
      | v :: _ => if bool_decide (a = "--agent") then v
                  else if Str.HasPrefix a "--agent=" then Str.TrimPrefix a "--agent=" else agent_flag rest
      | [] => if Str.HasPrefix a "--agent=" then Str.TrimPrefix a "--agent=" else EmptyString
      end
  end.

Record openHandle : Type := mkHandle {
  oh_Target : option string;
  oh_Inode : option Z
}.

(** The first handle whose file ends in .db: its path, its inode, whether it was removed. *)
Fixpoint find_db (fds : list openHandle) : option (string * Z * bool) :=
  match fds with
  | [] => None
  | h :: rest =>
      match oh_Target h with
      | None => find_db rest
      | Some target =>
          let clean := Str.TrimSuffix target deleted_mark in
          if Str.HasSuffix clean ".db"
          then Some (clean, default 0 (oh_Inode h), Str.HasSuffix target deleted_mark)
          else find_db rest
      end
  end.

Section Proc.
(** The names in /proc, and per process its binary, its handles, its command line and
    its control group; the inode of a path. *)
Context (proc_names : result (list string)) (exe : Z -> option string) (fd_dir : Z -> result (list openHandle))
  (cmdline cgroup : Z -> option string) (inode_of : string -> option Z)
  (getenv : string -> string) (fileExists : string -> bool) (BinaryName : string) (DeprecatedAliases : list string).

Definition procExe (pid : Z) : string := null_string (exe pid).

Definition procCmdlineForPID (pid : Z) : list string :=
  match cmdline pid with
  | None => []
  | Some raw => List.filter (fun p => negb (str_empty p)) (Str.Split nul_byte raw)
  end.

Definition procCgroupForPID (pid : Z) : string := null_string (cgroup pid).

Definition resolveDoctorProcInfo (pid : Z) : doctorProcInfo :=
  match procCmdlineForPID pid with
  | _ :: verb :: args =>
      if bool_decide (verb = "serve") then mkProcInfo "mailman" (agent_flag args)
      else if bool_decide (verb = "mcp") then mkProcInfo "mcp" (null_string (chamberSlice (procCgroupForPID pid)))
      else mkProcInfo "unknown" EmptyString
  | _ => mkProcInfo "unknown" EmptyString
  end.

Definition openDBHandle (pid : Z) : result (option (string * Z * bool)) :=
  match fd_dir pid with Err e => Err e | Ok fds => Ok (find_db fds) end.

(** [started] is the start of the process, where it is known. *)
Definition collectBinding (pid : Z) (started : string) : dbBinding :=
  match openDBHandle pid with
  | Ok (Some (path, inode, deleted)) => mkBinding pid (procExe pid) started path inode deleted EmptyString
  | Err e => mkBinding pid (procExe pid) started EmptyString 0 false
               ("could not read /proc/" +:+ Str.itoa pid +:+ "/fd: " +:+ error_text e)
  | Ok None => mkBinding pid (procExe pid) started EmptyString 0 false
                 "no open *.db handle (in-memory store, or DB not yet opened)"
  end.

(** The tool of a server asks about itself. *)
Definition mcpWhoamiDB (self : Z) (started : string) : dbBinding := collectBinding self started.

Definition of_adapter (pid : Z) : bool :=
  negb (str_empty (procExe pid)) &&
  bool_decide (Base (Str.TrimSuffix (procExe pid) deleted_mark) ∈ BinaryName :: DeprecatedAliases).

Definition adapter_pids (names : list string) : list Z :=
  merge_sort Z.le (List.filter of_adapter (omap Str.Atoi names)).

Definition gatherDoctorProcs : list dbBinding * list doctorProcInfo :=
  match proc_names with
  | Err _ => ([], [])
  | Ok names => (map (fun pid => collectBinding pid EmptyString) (adapter_pids names),
                 map resolveDoctorProcInfo (adapter_pids names))
  end.

Definition canonicalDBIdentity : string * Z :=
  let path := resolveDBPath getenv fileExists EmptyString in (path, default 0 (inode_of path)).

(** The observed states, read when they may soften a verdict. *)
Definition doctor_opts (allowActive : bool) : M (result classifyOpts) :=
  if negb allowActive then go (Ok (mkClassify false ∅))
  else
    now <! lift time_Now ;;
    r <! store_read "ObservedStateSnapshot" (ObservedStateSnapshot observedStateFreshness now) ;;
    go (match r with
        | Err e => Err (ErrMsg ("observed_state snapshot: " +:+ error_text e))
        | Ok snapshot => Ok (mkClassify true snapshot)
        end).

Definition doctor_report (opts : classifyOpts) : doctorReport :=
  let '(path, inode) := canonicalDBIdentity in
  let '(bindings, infos) := gatherDoctorProcs in
  classifyDoctorProcs bindings infos path inode opts.

Definition runDoctorCLI (format : string) (allowActive : bool) : M (outcome (doctorReport * Z)) :=
  if negb (bool_decide (format ∈ ["text"; "json"])) then go (Failed (unknown_format format) exitUsage)
  else
    o <! doctor_opts allowActive ;;
    match o with
    | Err e => fail e exitInternal
    | Ok opts => let rep := doctor_report opts in go (Done (rep, doctorExitCode rep))
    end.
End Proc.

(** ** Its text *)

Definition proc_line (p : doctorProc) : string :=
  let b := dp_Binding p in
  (if dp_Divergent p then "✗" else if dp_Softened p then "~" else "✓") +:+ " PID " +:+ Str.itoa (bd_PID b) +:+
  "  binary=" +:+ bd_BinaryPath b +:+ "  db=" +:+
  (if str_empty (bd_DBPath b) then "(none)"
   else bd_DBPath b +:+ (if bd_DBInode b =? 0 then EmptyString else " (inode " +:+ Str.itoa (bd_DBInode b) +:+ ")") +:+
        (if bd_DBDeleted b then " [file removed]" else EmptyString)) +:+
  "  — " +:+ dp_Verdict p.

Definition softened_count (rep : doctorReport) : Z :=
  Z.of_nat (length (List.filter (fun p => negb (dp_Divergent p) && dp_Softened p) (dr_Procs rep))).

Definition doctor_summary (BinaryName : string) (rep : doctorReport) : string :=
  if dr_Divergent rep then
    "DIVERGENCE: one or more processes hold a DB binding invisible to mailmen on the canonical path. Run `" +:+
    BinaryName +:+ " refresh-all-mcps` to restart MCP servers (and check for stale mailmen)."
  else if 0 <? softened_count rep then
    "OK: no unrecoverable divergence — " +:+ Str.itoa (softened_count rep) +:+
    " agent-side MCP(s) softened as pending-drain (mid-turn agents under --allow-active-agents)."
  else "OK: all live processes bound to the canonical DB.".

Definition renderDoctorReport (BinaryName : string) (rep : doctorReport) : list string :=
  ("CANONICAL" +:+ String Str.tab (dr_CanonicalPath rep) +:+
   (if dr_CanonicalInode rep =? 0 then " (no file at canonical path)"
    else " (inode " +:+ Str.itoa (dr_CanonicalInode rep) +:+ ")")) ::
  map proc_line (dr_Procs rep) ++ [doctor_summary BinaryName rep].

(** ** The verdicts *)

Section Verdicts.
Context (proc_names : result (list string)) (exe : Z -> option string) (fd_dir : Z -> result (list openHandle))
  (cmdline cgroup : Z -> option string) (inode_of : string -> option Z)
  (getenv : string -> string) (fileExists : string -> bool) (BinaryName : string) (DeprecatedAliases : list string).

Notation canonical_inode := (snd (canonicalDBIdentity inode_of getenv fileExists)).
Notation handle_of := (openDBHandle fd_dir).
Notation info_of := (resolveDoctorProcInfo cmdline cgroup).
Notation judged opts pid := (judge (collectBinding exe fd_dir pid EmptyString) (info_of pid) canonical_inode opts).
Notation report := (doctor_report proc_names exe fd_dir cmdline cgroup inode_of getenv fileExists BinaryName DeprecatedAliases).

(** The inode of the file at the canonical path; 0 when there is none. *)
Notation canonical := (default 0 (inode_of (resolveDBPath getenv fileExists EmptyString))).

(** A process of the adapter: a number among the names of /proc, whose binary has one of
    the adapter's names. *)
Definition live (pid : Z) : Prop :=
  exists names n file, proc_names = Ok names /\ n ∈ names /\ Str.Atoi n = Some pid /\
    exe pid = Some file /\ file <> EmptyString /\
    Base (Str.TrimSuffix file deleted_mark) ∈ BinaryName :: DeprecatedAliases.

(** A handle on the database file [path], removed or not. *)
Definition handle_on (h : openHandle) (path : string) (removed : bool) : Prop :=
  oh_Target h = Some (path +:+ (if removed then deleted_mark else EmptyString)) /\ exists stem, path = stem +:+ ".db".

(** The database a process has open: the first of its handles on one. *)
Definition holds (pid : Z) (path : string) (inode : Z) (removed : bool) : Prop :=
  exists before h after, fd_dir pid = Ok (before ++ h :: after) /\ handle_on h path removed /\
    inode = default 0 (oh_Inode h) /\ forall h' path' removed', h' ∈ before -> ~ handle_on h' path' removed'.

(** It writes where no mailman on the canonical path reads. *)
Definition astray (pid : Z) : Prop :=
  exists path inode removed, holds pid path inode removed /\
    (removed = true \/ canonical <> 0 /\ inode <> canonical).

(** It has a database open and runs a binary that was replaced. *)
Definition outdated (pid : Z) : Prop :=
  (exists path inode removed, holds pid path inode removed) /\ exists file, exe pid = Some (file +:+ deleted_mark).

(** The server of the session of an agent: the verb of its command line, and the name in
    the slice of its control group. *)
Definition server_of (pid : Z) (agent : string) : Prop :=
  exists raw program args group, cmdline pid = Some raw /\
    List.filter (fun p => negb (str_empty p)) (Str.Split nul_byte raw) = program :: "mcp" :: args /\
    cgroup pid = Some group /\ chamberSlice group = Some agent /\ agent <> EmptyString.

(** That agent was seen in the middle of a turn. *)
Definition mid_turn (opts : classifyOpts) (agent : string) : Prop :=
  exists s, co_ObservedByChamber opts !! agent = Some s /\ s ∈ ["working"; "at-rest-in-compaction"; "awaiting-operator"].

Lemma HasSuffix_iff s t : Str.HasSuffix s t = true <-> exists p, s = p +:+ t.
Proof.
  unfold Str.HasSuffix. rewrite andb_true_iff, !bool_decide_eq_true. split.
  - intros [Hl Hd]. exists (Str.take (String.length s - String.length t) s).
    rewrite <- Hd at 2. generalize (String.length s - String.length t)%nat as n. clear.
    induction s as [|a s IH]; intros [|n]; [done..|]. cbn. f_equal. apply IH.
  - intros [p ->]. rewrite StrFacts.string_length_app.
    replace (String.length p + String.length t - String.length t)%nat with (String.length p) by lia.
    split; [lia|apply StrFacts.drop_app].
Qed.

Lemma trim_mark p t : Str.TrimSuffix (p +:+ t) t = p.
Proof.
  unfold Str.TrimSuffix. rewrite (proj2 (HasSuffix_iff (p +:+ t) t)) by eauto.
  rewrite StrFacts.string_length_app.
  replace (String.length p + String.length t - String.length t)%nat with (String.length p) by lia. apply StrFacts.take_whole.
Qed.

(** What the code takes for a database handle. *)
Lemma handle_on_spec h target path removed : oh_Target h = Some target ->
  handle_on h path removed <->
  Str.HasSuffix (Str.TrimSuffix target deleted_mark) ".db" = true /\ path = Str.TrimSuffix target deleted_mark /\
  removed = Str.HasSuffix target deleted_mark.
Proof.
  intros E. unfold handle_on. rewrite E. rewrite HasSuffix_iff.
  destruct (Str.HasSuffix target deleted_mark) eqn:Em.
  - pose proof (proj1 (HasSuffix_iff _ _) Em) as [p ->]. rewrite trim_mark. destruct removed; split.
    + intros [[= H] Hs]. apply (f_equal (fun s => Str.TrimSuffix s deleted_mark)) in H. rewrite !trim_mark in H.
      by subst p.
    + by intros (Hs & -> & _).
    + intros [[= H] (stem & ->)]. exfalso. rewrite StrFacts.string_app_nil_r in H. rewrite H in Em.
      apply suffix_last in Em; [|done].
      assert (last_byte ".db" = last_byte (stem +:+ ".db")) as E2 by (apply suffix_last; [done|apply HasSuffix_iff; eauto]).
      rewrite <- E2 in Em. vm_compute in Em. discriminate Em.
    + by intros (_ & _ & ?).
  - assert (Str.TrimSuffix target deleted_mark = target) as -> by (unfold Str.TrimSuffix; by rewrite Em).
    destruct removed; split.
    + intros [[= H] _]. rewrite (proj2 (HasSuffix_iff target deleted_mark)) in Em; [done|by exists path].
    + by intros (_ & _ & ?).
    + intros [[= H] Hs]. rewrite StrFacts.string_app_nil_r in H. by subst target.
    + intros (Hs & -> & _). by rewrite StrFacts.string_app_nil_r.
Qed.

Lemma find_db_spec fds path inode removed :
  find_db fds = Some (path, inode, removed) <->
  exists before h after, fds = before ++ h :: after /\ handle_on h path removed /\
    inode = default 0 (oh_Inode h) /\ forall h' path' removed', h' ∈ before -> ~ handle_on h' path' removed'.
Proof.
  induction fds as [|h fds IH]; cbn [find_db].
  { split; [done|]. intros (before & h & after & E & _). by destruct before. }
  assert (Hskip : (forall path' removed', ~ handle_on h path' removed') ->
    (find_db fds = Some (path, inode, removed) <->
     exists before h0 after, h :: fds = before ++ h0 :: after /\ handle_on h0 path removed /\
       inode = default 0 (oh_Inode h0) /\ forall h' path' removed', h' ∈ before -> ~ handle_on h' path' removed')).
  { intros Hno. rewrite IH. split.
    - intros (before & h0 & after & -> & Hh & Hi & Hb). exists (h :: before), h0, after. split_and!; try done.
      intros h' path' removed' [->|Hin]%elem_of_cons; [apply Hno|by apply Hb].
    - intros (before & h0 & after & E & Hh & Hi & Hb). destruct before as [|h1 before].
      { injection E as -> ->. by apply Hno in Hh. }
      injection E as -> ->. exists before, h0, after. split_and!; try done. intros h' path' removed' Hin. apply Hb. by right. }
  destruct (oh_Target h) as [target|] eqn:Et.
  2:{ apply Hskip. intros path' removed' [E _]. congruence. }
  cbv zeta. destruct (Str.HasSuffix (Str.TrimSuffix target deleted_mark) ".db") eqn:Ed.
  2:{ apply Hskip. intros path' removed' H. apply (handle_on_spec h target) in H as [H _]; [|done]. congruence. }
  split.
  - intros [= <- <- <-]. exists [], h, fds. split; [done|]. split; [by apply (handle_on_spec h target)|].
    split; [done|]. by intros ? ? ? ?%elem_of_nil.
  - intros (before & h0 & after & E & Hh & -> & Hb). destruct before as [|h1 before].
    + injection E as <- <-. apply (handle_on_spec h target) in Hh as (_ & -> & ->); done.
    + injection E as <- ->. exfalso. eapply (Hb h); [left|]. by apply (handle_on_spec h target).
Qed.

Lemma handle_spec pid path inode removed :
  handle_of pid = Ok (Some (path, inode, removed)) <-> holds pid path inode removed.
Proof.
  unfold openDBHandle, holds. destruct (fd_dir pid) as [fds|e].
  - split.
    + intros [= H]. apply find_db_spec in H as (before & h & after & -> & H). by exists before, h, after.
    + intros (before & h & after & [= ->] & H). do 2 f_equal. apply find_db_spec. by exists before, h, after.
  - split; [done|]. by intros (? & ? & ? & ? & _).
Qed.

Lemma str_empty_false s : str_empty s = false <-> s <> EmptyString.
Proof. by destruct s. Qed.

(** The same tests, as the code makes them. *)
Definition astrayb (pid : Z) : bool :=
  match handle_of pid with
  | Ok (Some (_, inode, deleted)) => deleted || (negb (canonical_inode =? 0) && negb (inode =? canonical_inode))
  | _ => false
  end.

Definition outdatedb (pid : Z) : bool :=
  match handle_of pid with Ok (Some _) => Str.HasSuffix (procExe exe pid) deleted_mark | _ => false end.

Definition serverb (pid : Z) : bool :=
  bool_decide (pi_Role (info_of pid) = "mcp") && negb (str_empty (pi_AgentName (info_of pid))).

Definition mid_turnb (opts : classifyOpts) (pid : Z) : bool :=
  isMidTurnObservedState (observed_of (info_of pid) opts).

Lemma judged_flags opts pid :
  let late := outdatedb pid && negb (astrayb pid) in
  let known := co_AllowActiveAgents opts && serverb pid in
  dp_Divergent (judged opts pid) = astrayb pid || late && negb (known && mid_turnb opts pid) /\
  dp_IdleStale (judged opts pid) = late && known && negb (mid_turnb opts pid) /\
  (dp_Canonical (judged opts pid) = true -> astrayb pid = false /\ outdatedb pid = false /\
     exists path, handle_of pid = Ok (Some (path, canonical_inode, false))).
Proof.
  cbv zeta. unfold astrayb, outdatedb, serverb, mid_turnb, judge, collectBinding. set (ci := canonical_inode).
  destruct (handle_of pid) as [[[[path inode] deleted]|]|e]; [|done|done].
  cbn [bd_Note bd_DBPath bd_DBDeleted bd_DBInode str_empty negb andb].
  destruct deleted; [cbn; by rewrite andb_false_r|]. cbn [orb].
  destruct (negb (ci =? 0) && negb (inode =? ci)) eqn:Ed; [cbn; by rewrite andb_false_r|].
  unfold staleBinary. cbn [bd_BinaryPath]. destruct (Str.HasSuffix (procExe exe pid) deleted_mark); cbn [andb orb negb].
  - unfold judge_stale. rewrite <- andb_assoc.
    destruct (co_AllowActiveAgents opts && (bool_decide (pi_Role (info_of pid) = "mcp") && negb (str_empty (pi_AgentName (info_of pid)))));
      [|done].
    destruct (observed_of (info_of pid) opts) as [|a t] eqn:Eo; [done|]. cbn [str_empty].
    by destruct (isMidTurnObservedState (String a t)).
  - destruct (Z.eqb_spec ci 0) as [E0|Hne]; [done|]. split; [done|]. split; [done|]. intros _. split; [done|]. split; [done|].
    cbn [negb andb] in Ed. apply negb_false_iff, Z.eqb_eq in Ed as ->. by exists path.
Qed.

Lemma astrayb_spec pid : astrayb pid = true <-> astray pid.
Proof.
  unfold astrayb, astray. setoid_rewrite <- handle_spec. destruct (handle_of pid) as [[[[path inode] deleted]|]|e].
  - rewrite orb_true_iff, andb_true_iff, !negb_true_iff, !Z.eqb_neq. split.
    + intros H. exists path, inode, deleted. by split.
    + by intros (path' & inode' & deleted' & [= <- <- <-] & H).
  - split; [done|]. by intros (? & ? & ? & ? & _).
  - split; [done|]. by intros (? & ? & ? & ? & _).
Qed.

Lemma replaced_spec pid : Str.HasSuffix (procExe exe pid) deleted_mark = true <-> exists file, exe pid = Some (file +:+ deleted_mark).
Proof.
  rewrite HasSuffix_iff. unfold procExe, null_string. destruct (exe pid) as [f|]; cbn.
  - split; intros [file H]; exists file; [by rewrite H|by injection H].
  - split; [|by intros [file H]]. intros [file H]. by destruct file.
Qed.

Lemma outdatedb_spec pid : outdatedb pid = true <-> outdated pid.
Proof.
  unfold outdatedb, outdated. rewrite <- replaced_spec. setoid_rewrite <- handle_spec.
  destruct (handle_of pid) as [[[[path inode] removed]|]|e].
  - split; [intros H; split; [by exists path, inode, removed|done]|by intros [_ H]].
  - split; [done|]. by intros [(? & ? & ? & ?) _].
  - split; [done|]. by intros [(? & ? & ? & ?) _].
Qed.

(** The role and the name the code works out. *)
Lemma server_info pid agent : server_of pid agent <->
  pi_Role (info_of pid) = "mcp" /\ pi_AgentName (info_of pid) = agent /\ agent <> EmptyString.
Proof.
  unfold server_of, resolveDoctorProcInfo, procCmdlineForPID, procCgroupForPID. split.
  - intros (raw & program & args & group & -> & -> & -> & Hs & Hn). cbn. by rewrite Hs.
  - intros (Hr & Hn & Hne). destruct (cmdline pid) as [raw|]; [|done].
    destruct (List.filter _ (Str.Split nul_byte raw)) as [|program [|verb args]] eqn:Ew; [done..|].
    destruct (decide (verb = "serve")) as [->|Hs]; [done|]. rewrite (bool_decide_false (verb = "serve")) in * by done.
    destruct (decide (verb = "mcp")) as [->|Hm]; [|by rewrite (bool_decide_false (verb = "mcp")) in Hr].
    rewrite (bool_decide_true ("mcp" = "mcp")) in Hn by done. cbn in Hn. destruct (cgroup pid) as [group|]; [|by subst agent]. cbn in Hn.
    destruct (chamberSlice group) as [n|] eqn:Ec; [|by subst agent]. cbn in Hn. subst n.
    by exists raw, program, args, group.
Qed.

Lemma serverb_spec pid : serverb pid = true <-> exists agent, server_of pid agent.
Proof.
  unfold serverb. setoid_rewrite server_info. rewrite andb_true_iff, bool_decide_eq_true, negb_true_iff, str_empty_false. split.
  - intros [Hr Hn]. by exists (pi_AgentName (info_of pid)).
  - by intros (agent & Hr & <- & Hn).
Qed.

Lemma mid_turnb_spec opts pid : serverb pid = true ->
  mid_turnb opts pid = true <-> exists agent, server_of pid agent /\ mid_turn opts agent.
Proof.
  intros Hs. pose proof (proj1 (serverb_spec pid) Hs) as (agent & (Hr & En & Hn)%server_info).
  unfold mid_turnb, observed_of, mid_turn.
  rewrite En, (proj2 (str_empty_false _) Hn). split.
  - destruct (co_ObservedByChamber opts !! agent) as [st|] eqn:E; [|by intros H; vm_compute in H].
    intros H. exists agent. split; [by apply server_info|]. exists st. split; [done|]. by apply bool_decide_eq_true in H.
  - intros (agent' & (_ & E' & _)%server_info & st & E & H). rewrite En in E'. subst agent'. rewrite E. by apply bool_decide_eq_true.
Qed.

(** The server of an agent that was seen in the middle of a turn will be restarted. *)
Definition will_drain (opts : classifyOpts) (pid : Z) : Prop :=
  co_AllowActiveAgents opts = true /\ exists agent, server_of pid agent /\ mid_turn opts agent.

Lemma will_drain_spec opts pid :
  co_AllowActiveAgents opts && serverb pid && mid_turnb opts pid = true <-> will_drain opts pid.
Proof.
  unfold will_drain. destruct (serverb pid) eqn:E.
  - by rewrite andb_true_r, andb_true_iff, (mid_turnb_spec opts pid E).
  - rewrite andb_false_r. split; [done|]. intros (_ & agent & Hs & _).
    assert (serverb pid = true) by (apply serverb_spec; by exists agent). congruence.
Qed.

Lemma flags_settled (a o x : bool) (A O X : Prop) : (a = true <-> A) -> (o = true <-> O) -> (x = true <-> X) ->
  a || o && negb a && negb x = false <-> ~ A /\ (O -> X).
Proof. intros <- <- <-. destruct a, o, x; cbn; naive_solver. Qed.

(** When a process is in order, and when it is but for a restart of its server. *)
Lemma judged_settled opts pid :
  dp_Divergent (judged opts pid) = false <-> ~ astray pid /\ (outdated pid -> will_drain opts pid).
Proof.
  destruct (judged_flags opts pid) as [-> _].
  by apply flags_settled; [apply astrayb_spec|apply outdatedb_spec|apply will_drain_spec].
Qed.

Lemma judged_closable opts pid :
  dp_Divergent (judged opts pid) && negb (dp_IdleStale (judged opts pid)) = false <->
    ~ astray pid /\ (outdated pid -> co_AllowActiveAgents opts = true /\ exists agent, server_of pid agent).
Proof.
  destruct (judged_flags opts pid) as (-> & -> & _).
  rewrite <- (flags_settled (astrayb pid) (outdatedb pid) (co_AllowActiveAgents opts && serverb pid)).
  - destruct (astrayb pid), (outdatedb pid), (co_AllowActiveAgents opts), (serverb pid), (mid_turnb opts pid); cbn; done.
  - apply astrayb_spec.
  - apply outdatedb_spec.
  - by rewrite andb_true_iff, serverb_spec.
Qed.

(** ** The report *)

Definition live_pids : list Z :=
  match proc_names with Err _ => [] | Ok names => adapter_pids exe BinaryName DeprecatedAliases names end.

Lemma of_adapter_spec pid : of_adapter exe BinaryName DeprecatedAliases pid = true <->
  exists file, exe pid = Some file /\ file <> EmptyString /\
    Base (Str.TrimSuffix file deleted_mark) ∈ BinaryName :: DeprecatedAliases.
Proof.
  unfold of_adapter, procExe, null_string. rewrite andb_true_iff, negb_true_iff, bool_decide_eq_true, str_empty_false.
  destruct (exe pid) as [file|]; cbn [default].
  - split; [by exists file|]. by intros (file' & [= <-] & H).
  - split; [by intros [? _]|]. by intros (? & ? & _).
Qed.

(** The numbers among the names of /proc. *)
Definition numbers : list Z := match proc_names with Ok names => omap Str.Atoi names | Err _ => [] end.

Lemma live_pids_spec pid : pid ∈ live_pids <-> live pid.
Proof.
  unfold live_pids, live. destruct proc_names as [names|e].
  - unfold adapter_pids. rewrite (merge_sort_Permutation Z.le), list_elem_of_In, List.filter_In, <- list_elem_of_In.
    rewrite list_elem_of_omap, of_adapter_spec. naive_solver.
  - split; [intros H; by apply elem_of_nil in H|]. by intros (? & ? & ? & ? & _).
Qed.

Lemma live_pids_once : NoDup numbers -> NoDup live_pids.
Proof.
  unfold numbers, live_pids. destruct proc_names as [names|e]; [|constructor]. intros H. unfold adapter_pids.
  rewrite (merge_sort_Permutation Z.le). by apply NoDup_ListNoDup, List.NoDup_filter, NoDup_ListNoDup.
Qed.

Lemma report_procs opts : dr_Procs (report opts) = map (fun pid => judged opts pid) live_pids.
Proof.
  unfold doctor_report. destruct (canonicalDBIdentity inode_of getenv fileExists) as [path ci].
  unfold gatherDoctorProcs, live_pids. destruct proc_names as [names|e]; [|done].
  cbn [dr_Procs classifyDoctorProcs snd]. apply list_eq. intros i. unfold info_at.
  rewrite list_lookup_imap, !list_lookup_fmap. by destruct (adapter_pids _ _ _ _ !! i).
Qed.

(** What the diagnosis answers. *)
Definition doctor_spec (opts : classifyOpts) (rep : doctorReport) (code : Z) : Prop :=
  (* one line per process of the adapter, in order, and one only where /proc names it once *)
  Sorted.StronglySorted Z.le (map (fun p => bd_PID (dp_Binding p)) (dr_Procs rep)) /\
  (forall pid, pid ∈ map (fun p => bd_PID (dp_Binding p)) (dr_Procs rep) <-> live pid) /\
  (NoDup numbers -> NoDup (map (fun p => bd_PID (dp_Binding p)) (dr_Procs rep))) /\
  (* success exactly when every process is in order *)
  (code = exitOK <-> forall pid, live pid -> ~ astray pid /\ (outdated pid -> will_drain opts pid)) /\
  (* the softer failure exactly when only servers of known agents are not *)
  (code = exitDoctorIdleStaleOnly <->
    ~ (forall pid, live pid -> ~ astray pid /\ (outdated pid -> will_drain opts pid)) /\
    forall pid, live pid -> ~ astray pid /\ (outdated pid -> co_AllowActiveAgents opts = true /\ exists agent, server_of pid agent)) /\
  code ∈ [exitOK; exitDoctorIdleStaleOnly; exitUnavailable].

Lemma judged_pid opts pid : bd_PID (dp_Binding (judged opts pid)) = pid.
Proof.
  assert (forall b info ci, dp_Binding (judge b info ci opts) = b) as ->.
  { intros. unfold judge, judge_stale. by repeat (case_match; try done). }
  unfold collectBinding. by repeat case_match.
Qed.

Lemma existsb_false_forall {A} (p : A -> bool) l : existsb p l = false <-> forall x, x ∈ l -> p x = false.
Proof.
  rewrite <- not_true_iff_false, existsb_exists. setoid_rewrite <- list_elem_of_In. split.
  - intros H x Hx. apply not_true_iff_false. intros Hp. apply H. by exists x.
  - intros H (x & Hx & Hp). by rewrite H in Hp.
Qed.

Lemma all_judged (p : doctorProc -> bool) (Q : Z -> Prop) opts : (forall pid, p (judged opts pid) = false <-> Q pid) ->
  existsb p (dr_Procs (report opts)) = false <-> forall pid, live pid -> Q pid.
Proof.
  intros H. rewrite existsb_false_forall, report_procs. setoid_rewrite <- live_pids_spec. setoid_rewrite <- H.
  setoid_rewrite list_elem_of_fmap. naive_solver.
Qed.

Lemma doctor_exact opts : doctor_spec opts (report opts) (doctorExitCode (report opts)).
Proof.
  assert (Hp : map (fun p => bd_PID (dp_Binding p)) (dr_Procs (report opts)) = live_pids).
  { rewrite report_procs, map_map. rewrite (map_ext _ id) by (intros; apply judged_pid). apply map_id. }
  pose proof (all_judged dp_Divergent _ opts (judged_settled opts)) as Hs.
  pose proof (all_judged (fun p => dp_Divergent p && negb (dp_IdleStale p)) _ opts (judged_closable opts)) as Hc.
  unfold doctor_spec. rewrite Hp, <- Hs, <- Hc.
  split; [unfold live_pids; destruct proc_names; [apply StronglySorted_merge_sort; apply _|constructor]|].
  split; [apply live_pids_spec|]. split; [apply live_pids_once|].
  assert (dr_Divergent (report opts) = existsb dp_Divergent (dr_Procs (report opts))) as Hd.
  { unfold doctor_report. destruct (canonicalDBIdentity _ _ _), (gatherDoctorProcs _ _ _ _ _ _ _). done. }
  unfold doctorExitCode. rewrite Hd. destruct (existsb dp_Divergent _); cbn [negb].
  - destruct (existsb _ (dr_Procs (report opts))); vm_compute; intuition congruence || set_solver.
  - split; [done|]. split; [|set_solver]. split; [done|]. intros [H _]. by destruct H.
Qed.
End Verdicts.

(** ** The command *)

(** The states that may soften a verdict: read only when asked for, and fresh. *)
Definition fresh_states (allow : bool) (now : Z) (d : DB) (opts : classifyOpts) : Prop :=
  co_AllowActiveAgents opts = allow /\
  forall agent s, co_ObservedByChamber opts !! agent = Some s <->
    allow = true /\ exists a, db_agents d !! agent = Some a /\ a_observed_state a = s /\ s <> EmptyString /\
      observed_after (Time.formatISO (now - observedStateFreshness)) a = true.

Lemma snapshot_fresh now d : fresh_states true now d (mkClassify true (ObservedStateSnapshot observedStateFreshness now d)).
Proof.
  split; [done|]. intros agent s. cbn [co_ObservedByChamber]. unfold ObservedStateSnapshot. rewrite lookup_omap_Some. split.
  - intros (a & H & Ha). split; [done|]. exists a. destruct (negb _ && _) eqn:E; [|done]. injection H as <-.
    apply andb_true_iff in E as [E1 E2]. apply negb_true_iff, str_empty_false in E1. done.
  - intros (_ & a & Ha & <- & Hn & Ho). exists a. split; [|done]. by rewrite (proj2 (str_empty_false _) Hn), Ho.
Qed.


(** ** Concrete hosts *)

Definition demo_cmdline (agent_words : list string) : string :=
  Str.Join ("/usr/bin/tmux-tell-claude" :: agent_words) (String nul_byte EmptyString).

(** A host with one process of the adapter, on the replaced binary. *)
Definition demo_doctor (words : list string) (group : string) (fds : result (list openHandle)) (allow : bool) :=
  runDoctorCLI (Ok ["self"; "42"; "7"])
    (fun pid => if pid =? 42 then Some "/usr/bin/tmux-tell-claude (deleted)" else Some "/usr/bin/bash")
    (fun _ => fds) (fun _ => Some (demo_cmdline words)) (fun _ => Some group)
    (fun _ => Some 11) (fun _ => EmptyString) (fun _ => false) "tmux-tell-claude" [] "text" allow.

Definition bus_handle : result (list openHandle) :=
  Ok [mkHandle (Some "socket:[3]") None; mkHandle (Some "/data/messages.db-wal") (Some 12);
      mkHandle (Some "/data/messages.db") (Some 11)].

Definition working_db : DB := SetObservedState "alice" "working" "2999-01-01T00:00:00.000Z" bus_db.

Definition code_of (r : flow (outcome (doctorReport * Z)) * sstate) : option (list string * Z) :=
  match fst r with Go (Done (rep, code)) => Some (map dp_AgentName (dr_Procs rep), code) | _ => None end.

Definition doctor_start : sstate := mkS working_db (initial_vars demo_opts) [].


(** A server whose handles cannot be read counts as bound to the canonical database. *)
Lemma unreadable_is_ok :
  match fst (demo_doctor ["mcp"] EmptyString (Err (ErrMsg "permission denied")) false bus doctor_start) with
  | Go (Done (rep, code)) =>
      code = exitOK /\ doctor_summary "tmux-tell-claude" rep = "OK: all live processes bound to the canonical DB."
  | _ => False
  end.
Proof. vm_compute. split; reflexivity. Qed.

(** systemd nests the slice of a name with a hyphen in that of its first part, which is
    taken for the agent. *)
Lemma hyphenated_slice_names_another :
  chamberSlice "0::/user.slice/chamber.slice/chamber-alice.slice/chamber-alice-two.slice/x.scope" = Some "alice".
Proof. reflexivity. Qed.
