(* ===== verification/Migrate.v ===== *)
(** * Moving the database, and the installation (internal/cli: db.go, bootstrap.go)

    The files are their bytes by path; what the operating system answers, what SQLite
    does to the files of a database and reads from them, and systemd are parameters.
    While a database is open, the database of the state is the one it shows. *)

From stdpp Require Import gmap sorting.
From S2P Require Import Prelude GoStd StoreTypes Messages Agents Queries TmuxIO Mailman ServeDemo Runs Alone Discover Config Send SendDemo Invariants Control ControlProps Upkeep Register Views Fleet.

Open Scope Z_scope.
Open Scope tell_scope.

(** ** Files *)

Notation Disk := (gmap string string).

Definition EXDEV : error := ErrMsg "invalid cross-device link".

(** A computation over the disk and the database that is open. *)
Definition W (A : Type) : Type := Disk -> M (A * Disk).

Definition wret {A} (a : A) : W A := fun k => go (a, k).
Definition wbind {A B} (c : W A) (f : A -> W B) : W B := fun k => r <! c k ;; f (fst r) (snd r).
Definition within {A} (c : M A) : W A := fun k => a <! c ;; go (a, k).

Notation "x <@ c ;; k" := (wbind c (fun x => k)) (at level 100, c at next level, right associativity) : tell_scope.

(** [filepath.Dir] of a clean path. *)
Definition Dir (path : string) : string :=
  match Str.LastIndex path "/" with
  | Some O => "/"
  | Some i => Str.take i path
  | None => "."
  end.

Definition sidecars (path : string) : list string := [path +:+ "-wal"; path +:+ "-shm"].

Record dbMigrateResult : Type := mkMigrate {
  mg_OK : bool;
  mg_DryRun : bool;
  mg_Source : string;
  mg_Dest : string;
  mg_AgentsStopped : Z;
  mg_AgentsStarted : Z;
  mg_Agents : Z;
  mg_Messages : Z;
  mg_Warnings : list string
}.

(** What SQLite makes of the files of a path: opening it (and bringing the schema up to
    date), and [wal_checkpoint(TRUNCATE)], which answers a row whose first column says
    that another connection was in the way, the connection closed again. *)
Record sqlite : Type := mkSqlite {
  sq_open : string -> Disk -> result DB * Disk;
  sq_checkpoint : string -> Disk -> result bool * Disk
}.

Section Migrate.
Context (sq : sqlite)
  (disk_others : history -> Disk -> Disk) (os_fault : history -> option error)
  (stat_dir : history -> string -> result bool) (part_of : string -> string)
  (abs : string -> result string)
  (getenv : string -> string) (fileExists : string -> bool) (BinaryName : string)
  (systemctl : history -> list string -> string * option error)
  (default_cmd_exists : bool).

(** One call of the operating system on the files. *)
Definition os {A} (what : string) (f : Disk -> result A * Disk) : W (result A) := fun k sw st =>
  let h := EvCall what :: s_hist st in
  let k1 := disk_others h k in
  let st' := mkS (s_db st) (s_vars st) h in
  match os_fault h with
  | Some e => (Go (Err e, k1), st')
  | None => (Go (f k1), st')
  end.

Definition os_Stat (path : string) : W (result unit) :=
  os "stat" (fun k => (if k !! path then Ok tt else Err ErrNotExist, k)).
Definition os_Rename (source dest : string) : W (result unit) :=
  os "rename" (fun k => match k !! source with
                        | Some b => (Ok tt, <[dest := b]> (delete source k))
                        | None => (Err ErrNotExist, k)
                        end).
Definition os_Remove (path : string) : W (result unit) :=
  os "remove" (fun k => if k !! path then (Ok tt, delete path k) else (Err ErrNotExist, k)).
Definition os_Read (path : string) : W (result string) :=
  os "open" (fun k => (match k !! path with Some b => Ok b | None => Err ErrNotExist end, k)).
(** A new file only. *)
Definition os_Create (path : string) : W (result unit) :=
  os "create" (fun k => if k !! path then (Err (ErrMsg "file exists"), k) else (Ok tt, <[path := EmptyString]> k)).
(** A copy that fails has written a part. *)
Definition io_Copy (path bytes : string) : W (result unit) := fun k sw st =>
  let h := EvCall "copy" :: s_hist st in
  let st' := mkS (s_db st) (s_vars st) h in
  let k1 := disk_others h k in
  match os_fault h with
  | Some e => (Go (Err e, <[path := part_of bytes]> k1), st')
  | None => (Go (Ok tt, <[path := bytes]> k1), st')
  end.
(** A call that only may fail: looking at an open file, closing it. *)
Definition os_Close : W (result unit) := os "close" (fun k => (Ok tt, k)).

(** [store.Open]: the database that shows becomes that of the state. *)
Definition open_store (path : string) : W (result unit) := fun k sw st =>
  let h := EvCall "store.Open" :: s_hist st in
  match sq_open sq path (disk_others h k) with
  | (Ok d, k') => (Go (Ok tt, k'), mkS d (s_vars st) h)
  | (Err e, k') => (Go (Err e, k'), mkS (s_db st) (s_vars st) h)
  end.

(** The row that is answered is not looked at. *)
Definition checkpointTruncate (path : string) : W (option error) := fun k sw st =>
  let h := EvCall "wal_checkpoint" :: s_hist st in
  let (r, k') := sq_checkpoint sq path (disk_others h k) in
  (Go (match r with Ok _ => None | Err e => Some e end, k'), mkS (s_db st) (s_vars st) h).

(** ** Moving a file *)

Definition cross_device (e : error) : bool := errors_Is e EXDEV || Str.Contains (error_text e) "cross-device".

Definition wrapped (what : string) (e : error) : error := ErrWrap (what +:+ ": " +:+ error_text e) e.

(** The copy proper: what fails takes the copy away again. *)
Definition copy_bytes (source dest bytes : string) : W (option error) :=
  w <@ io_Copy dest bytes ;;
  match w with
  | Err e => _ <@ os_Remove dest ;; wret (Some (wrapped "copy" e))
  | Ok _ =>
      cl <@ os_Close ;;
      match cl with
      | Err e => _ <@ os_Remove dest ;; wret (Some (wrapped "close dest" e))
      | Ok _ =>
          rm <@ os_Remove source ;;
          wret (match rm with
                | Err e => Some (wrapped "remove source after cross-device copy" e)
                | Ok _ => None
                end)
      end
  end.

Definition copy_over (source dest : string) : W (option error) :=
  r <@ os_Read source ;;
  match r with
  | Err e => wret (Some (wrapped "open source" e))
  | Ok bytes =>
      s <@ os_Close ;;
      match s with
      | Err e => wret (Some (wrapped "stat source" e))
      | Ok _ =>
          c <@ os_Create dest ;;
          match c with
          | Err e => wret (Some (wrapped "create dest" e))
          | Ok _ => copy_bytes source dest bytes
          end
      end
  end.

Definition moveFile (source dest : string) : W (option error) :=
  r <@ os_Rename source dest ;;
  match r with
  | Ok _ => wret None
  | Err e => if cross_device e then copy_over source dest else wret (Some e)
  end.

(** ** The destination *)

Definition validateMigrateDest (dest : string) : W (option string) :=
  let parent := Dir dest in
  p <@ within (ask "stat" (fun _ h => stat_dir h parent)) ;;
  match p with
  | Err e => wret (Some (if errors_Is e ErrNotExist then "destination parent dir does not exist: " +:+ parent
                         else "stat destination parent dir " +:+ parent +:+ ": " +:+ error_text e))
  | Ok false => wret (Some ("destination parent path is not a directory: " +:+ parent))
  | Ok true =>
      s <@ os_Stat dest ;;
      match s with
      | Ok _ => wret (Some ("destination already exists, refusing to overwrite: " +:+ dest))
      | Err e =>
          if negb (errors_Is e ErrNotExist) then wret (Some ("stat destination " +:+ dest +:+ ": " +:+ error_text e))
          else
            (* a temporary file is created and removed *)
            t <@ os "probe" (fun k => (Ok tt, k)) ;;
            wret (match t with
                  | Err e => Some ("destination parent " +:+ parent +:+ " not writable: " +:+ error_text e)
                  | Ok _ => None
                  end)
      end
  end.

(** ** The migration *)

Definition mailman_bearing (a : Agent) : bool := negb (bool_decide (a_delivery_mode a = DeliveryModeHookContext)).

Definition bespoke_warning (dest : string) : string :=
  "destination " +:+ dest +:+ " does not match default " +:+ defaultDBLocation getenv fileExists +:+
  " — skipping mailman restart + refresh-all-mcps (#308 dropped the unit-file Environment= override, so systemd-managed mailmen resolve only the default path). Start mailmen as foreground `" +:+
  BinaryName +:+ " serve --agent NAME` and restart chamber MCPs manually.".

Definition profile_warning (dest : string) : string :=
  "$CLAUDE_MSG_DB is set in this shell — update your shell profile to " +:+ dest +:+ " (this command cannot rewrite rc files).".

Definition migrate_warnings (dest : string) : list string :=
  (if bool_decide (dest = defaultDBLocation getenv fileExists) then [] else [bespoke_warning dest]) ++
  (if str_empty (getenv "CLAUDE_MSG_DB") then [] else [profile_warning dest]).

(** One unit after the other, until one fails: how many were done. *)
Fixpoint each_unit (step : string -> M (option error)) (names : list string) : M (Z * option (string * error)) :=
  match names with
  | [] => go (0, None)
  | n :: names' =>
      e <! step n ;;
      match e with
      | Some e => go (0, Some (n, e))
      | None => r <! each_unit step names' ;; go (fst r + 1, snd r)
      end
  end.

Fixpoint remove_all (paths : list string) : W unit :=
  match paths with
  | [] => wret tt
  | p :: paths' => _ <@ os_Remove p ;; remove_all paths'
  end.

Definition failed {A} (msg : string) (code : Z) : W (outcome A) := wret (Failed msg code).

Definition refresh_options : refreshOptions := mkRefreshOptions None EmptyString false.

(** Steps 6 to 8, on the default path. *)
Definition restart_all (dest : string) (names : list string) (res : dbMigrateResult) : W (outcome dbMigrateResult) :=
  u <@ within (each_unit (startMailman BinaryName systemctl) names) ;;
  match u with
  | (_, Some (n, e)) => failed ("start mailman for " +:+ n +:+ ": " +:+ error_text e) exitUnavailable
  | (started, None) =>
      o <@ open_store dest ;;
      match o with
      | Err e => failed ("open dest DB for refresh-all-mcps: " +:+ error_text e) exitInternal
      | Ok _ =>
          c <@ within (store_read "count" (fun d => Z.of_nat (length (db_messages d)))) ;;
          match c with
          | Err e => failed ("verify dest message count: " +:+ error_text e) exitInternal
          | Ok n =>
              r <@ within (runRefreshAllMcps default_cmd_exists "db-migrate" "json" refresh_options) ;;
              match r with
              | Done (_, 0) =>
                  wret (Done (mkMigrate true false (mg_Source res) dest (mg_AgentsStopped res) started (mg_Agents res) n
                                (mg_Warnings res)))
              | _ => failed "refresh-all-mcps after move failed; see stderr for per-agent detail" exitInternal
              end
          end
      end
  end.

(** Steps 2 to 5, and what follows. *)
Definition move_database (source dest : string) (names : list string) (res : dbMigrateResult) : W (outcome dbMigrateResult) :=
  s <@ within (each_unit (stopMailman BinaryName systemctl) names) ;;
  match s with
  | (_, Some (n, e)) => failed ("stop mailman for " +:+ n +:+ ": " +:+ error_text e) exitUnavailable
  | (stopped, None) =>
      c <@ checkpointTruncate source ;;
      match c with
      | Some e => failed ("wal_checkpoint(TRUNCATE) on source: " +:+ error_text e) exitInternal
      | None =>
          m <@ moveFile source dest ;;
          match m with
          | Some e => failed ("move " +:+ source +:+ " → " +:+ dest +:+ ": " +:+ error_text e) exitInternal
          | None =>
              _ <@ remove_all (sidecars source) ;;
              let res' := mkMigrate (mg_OK res) false source dest stopped 0 (mg_Agents res) 0 (mg_Warnings res) in
              if negb (bool_decide (dest = defaultDBLocation getenv fileExists))
              then wret (Done (mkMigrate true false source dest stopped 0 (mg_Agents res) 0 (mg_Warnings res)))
              else restart_all dest names res'
          end
      end
  end.

Definition migrate_from (source dest : string) (dryRun : bool) : W (outcome dbMigrateResult) :=
  if bool_decide (source = dest) then failed ("source and destination are the same path: " +:+ source) exitUsage
  else
    v <@ validateMigrateDest dest ;;
    match v with
    | Some msg => failed msg exitDataErr
    | None =>
        o <@ open_store source ;;
        match o with
        | Err e => failed ("open source DB: " +:+ error_text e) exitInternal
        | Ok _ =>
            l <@ within (store_read "ListAgents" ListAgents) ;;
            match l with
            | Err e => failed ("list agents: " +:+ error_text e) exitInternal
            | Ok agents =>
                let names := map a_name (List.filter mailman_bearing agents) in
                let res := mkMigrate dryRun dryRun source dest 0 0 (Z.of_nat (length agents)) 0 (migrate_warnings dest) in
                if dryRun then wret (Done res)
                else
                  cl <@ os_Close ;;
                  match cl with
                  | Err e => failed ("close source DB before move: " +:+ error_text e) exitInternal
                  | Ok _ => move_database source dest names res
                  end
            end
        end
    end.

Definition runDBMigrateCLI (db : string) (dryRun : bool) (args : list string) : W (outcome dbMigrateResult) :=
  match args with
  | [to] =>
      match abs to with
      | Err e => failed ("resolve destination path: " +:+ error_text e) exitUsage
      | Ok dest =>
          match abs (resolveDBPath getenv fileExists db) with
          | Err e => failed ("resolve source path: " +:+ error_text e) exitUsage
          | Ok source => migrate_from source dest dryRun
          end
      end
  | _ => failed "db migrate requires exactly one positional argument: <new-path>" exitUsage
  end.

Definition runDBCLI (args : list string) (db : string) (dryRun : bool) : W (outcome dbMigrateResult) :=
  match args with
  | [] => failed ("usage: " +:+ BinaryName +:+ " db <verb> [args]") exitUsage
  | verb :: rest =>
      if bool_decide (verb = "migrate") then runDBMigrateCLI db dryRun rest
      else failed (BinaryName +:+ " db: unknown verb " +:+ Str.Quote verb) exitUsage
  end.

(** ** The installation *)

Definition legacyDBPath : string := "/var/lib/tmux-msg/messages.db".

Record bootstrapResult : Type := mkBootstrap {
  bs_OK : bool;
  bs_Migrated : bool;
  bs_Discovered : Z;
  bs_MailmanEnabled : Z;
  bs_OrphansFound : Z;
  bs_OrphansPruned : Z;
  bs_McpsRefreshed : Z;
  bs_Warnings : list string
}.

(** Any answer but that there is no such file counts as a file. *)
Definition pathExists (path : string) : W bool :=
  r <@ os_Stat path ;;
  wret (match r with Ok _ => true | Err e => negb (errors_Is e ErrNotExist) end).

Definition resolveSystemdDir (override : string) : string :=
  if negb (str_empty override) then override
  else if negb (str_empty (getenv "HOME")) then path_join (path_join (path_join (getenv "HOME") ".config") "systemd") "user"
  else EmptyString.

(** An entry of the directory: its name, and whether it is a link, where that is known. *)
Definition dir_entry : Type := string * option bool.

Definition unit_instance (name : string) : option string :=
  let prefix := BinaryName +:+ "-mailman@" in
  if Str.HasPrefix name prefix && Str.HasSuffix name ".service"
  then Some (Str.TrimSuffix (Str.TrimPrefix name prefix) ".service") else None.

Definition is_orphan (known : list string) (e : dir_entry) : bool :=
  match unit_instance (fst e) with
  | None => false
  | Some instance =>
      negb (str_empty instance) && bool_decide (snd e = Some true) && negb (bool_decide (instance ∈ known))
  end.

Definition findOrphanMailmanUnits (read_dir : string -> result (list dir_entry)) (dir : string) (agents : list Agent)
    : result (list string) :=
  if str_empty dir then Err (ErrMsg "systemd dir not set (HOME unset?); pass --systemd-dir to override")
  else match read_dir dir with
       | Err e => if errors_Is e ErrNotExist then Ok []
                  else Err (ErrMsg ("read " +:+ dir +:+ ": " +:+ error_text e))
       | Ok entries => Ok (merge_sort String.le (map fst (List.filter (is_orphan (map a_name agents)) entries)))
       end.

Definition orphanInstanceName (unitFile : string) : string :=
  match Str.Index unitFile "@" with
  | None => EmptyString
  | Some at_ => Str.TrimSuffix (Str.drop (S at_) unitFile) ".service"
  end.

(** Enabled for the next start, and restarted now. *)
Definition enable_mailman (agent : string) : M (option error) :=
  out <! ask "systemctl" (fun _ h => systemctl h ["enable"; ownMailmanUnit BinaryName agent]) ;;
  match snd out with
  | Some e => go (Some (ErrMsg ("enable mailman for " +:+ agent +:+ ": " +:+ error_text e +:+ ": " +:+ Str.TrimSpace (fst out))))
  | None =>
      r <! restartMailman BinaryName systemctl agent ;;
      go (match r with
          | Some e => Some (ErrMsg ("restart mailman for " +:+ agent +:+ ": " +:+ error_text e))
          | None => None
          end)
  end.

Definition disable_orphan (unit : string) : M (option error) := stopMailman BinaryName systemctl (orphanInstanceName unit).

Section Bootstrap.
Context (read_dir : string -> result (list dir_entry)) (walk : history -> result (list Resolved))
  (order : list Resolved -> list Resolved).

(** Steps 4 to 6. *)
Definition bring_up (systemdDir : string) (pruneOrphans migrated : bool) (agents : list Agent) : M (outcome bootstrapResult) :=
  u <! each_unit enable_mailman (map a_name (List.filter mailman_bearing agents)) ;;
  match u with
  | (_, Some (_, e)) => fail e exitUnavailable
  | (enabled, None) =>
      let orphans := findOrphanMailmanUnits read_dir (resolveSystemdDir systemdDir) agents in
      let found := match orphans with Ok l => l | Err _ => [] end in
      let warnings := match orphans with Ok _ => [] | Err e => ["orphan-walk skipped: " +:+ error_text e] end in
      p <! (if pruneOrphans then each_unit disable_orphan found else go (0, None)) ;;
      match p with
      | (_, Some (unit, e)) => go (Failed ("disable orphan " +:+ unit +:+ ": " +:+ error_text e) exitUnavailable)
      | (pruned, None) =>
          r <! runRefreshAllMcps default_cmd_exists "bootstrap" "json" refresh_options ;;
          match r with
          | Done (_, 0) =>
              go (Done (mkBootstrap true migrated (Z.of_nat (length agents)) enabled (Z.of_nat (length found)) pruned
                          (Z.of_nat (length agents)) warnings))
          | Done (_, rc) => go (Failed "refresh-all-mcps failed; see stderr" rc)
          | Failed _ rc => go (Failed "refresh-all-mcps failed; see stderr" rc)
          end
      end
  end.

(** Steps 3 to 6, on the database in place. *)
Definition discover_and_bring_up (resolvedDB systemdDir : string) (pruneOrphans skipDiscover migrated : bool)
    : W (outcome bootstrapResult) :=
  o <@ open_store resolvedDB ;;
  match o with
  | Err e => failed ("open store at " +:+ resolvedDB +:+ ": " +:+ error_text e) exitInternal
  | Ok _ =>
      w <@ within (if skipDiscover then go (Done []) else runDiscoverWithStore walk order false false "json") ;;
      match w with
      | Failed _ rc => failed "discover failed; see stderr" rc
      | Done _ =>
          l <@ within (store_read "ListAgents" ListAgents) ;;
          match l with
          | Err e => failed ("list agents post-discover: " +:+ error_text e) exitInternal
          | Ok agents => within (bring_up systemdDir pruneOrphans migrated agents)
          end
      end
  end.

Definition runBootstrapCLI (db systemdDir : string) (pruneOrphans skipReload skipDiscover : bool)
    : W (outcome bootstrapResult) :=
  reload <@ within (if skipReload then go (EmptyString, None)
                    else ask "systemctl" (fun _ h => systemctl h ["daemon-reload"])) ;;
  match snd reload with
  | Some e => failed ("systemctl --user daemon-reload: " +:+ error_text e +:+ ": " +:+ Str.TrimSpace (fst reload)) exitUnavailable
  | None =>
      let resolvedDB := resolveDBPath getenv fileExists db in
      legacyExists <@ pathExists legacyDBPath ;;
      defaultExists <@ pathExists resolvedDB ;;
      if legacyExists && defaultExists
      then failed ("ambiguous DB state: both legacy " +:+ legacyDBPath +:+ " and default " +:+ resolvedDB +:+
                   " exist — operator-resolution required, refusing to choose") exitDataErr
      else if legacyExists then
        m <@ runDBMigrateCLI legacyDBPath false [resolvedDB] ;;
        match m with
        | Failed _ rc => failed "db migrate from legacy DB failed; see stderr" rc
        | Done _ => discover_and_bring_up resolvedDB systemdDir pruneOrphans skipDiscover true
        end
      else discover_and_bring_up resolvedDB systemdDir pruneOrphans skipDiscover false
  end.
End Bootstrap.
End Migrate.

(** ** Their text *)

Definition emitDBMigrateResult (r : dbMigrateResult) (partial : bool) : list string :=
  let tab s t := s +:+ String Str.tab t in
  (if mg_DryRun r then ["DRY RUN — would execute:"] else []) ++
  [tab "SOURCE" (mg_Source r); tab "DEST" (mg_Dest r); tab "AGENTS" (Str.itoa (mg_Agents r))] ++
  (if mg_DryRun r then []
   else tab "STOPPED" (Str.itoa (mg_AgentsStopped r) +:+ " mailmen") ::
        (if partial then [tab "STARTED" "0 mailmen (skipped — see warnings)"]
         else [tab "STARTED" (Str.itoa (mg_AgentsStarted r) +:+ " mailmen");
               tab "MESSAGES" (Str.itoa (mg_Messages r) +:+ " rows in moved DB")])) ++
  map (tab "WARN") (mg_Warnings r) ++
  (if mg_OK r && negb (mg_DryRun r) then [tab "OK" "migration complete"] else []).

Definition emitBootstrapResult (r : bootstrapResult) : list string :=
  let tab s t := s +:+ String Str.tab t in
  (if bs_Migrated r then [tab "MIGRATED" "legacy DB moved into user-home default"] else []) ++
  [tab "DISCOVERED" (Str.itoa (bs_Discovered r) +:+ " agents");
   tab "MAILMEN" (Str.itoa (bs_MailmanEnabled r) +:+ " enabled (hook-context skipped)");
   tab "ORPHANS" (Str.itoa (bs_OrphansFound r) +:+ " found, " +:+ Str.itoa (bs_OrphansPruned r) +:+ " pruned");
   tab "MCPS" (Str.itoa (bs_McpsRefreshed r) +:+ " refresh macros queued")] ++
  map (tab "WARN") (bs_Warnings r) ++
  (if bs_OK r then [tab "OK" "bootstrap complete"] else []).

(** * No migration loses the database

    Run alone, with no other connection in the way of the checkpoint: whatever fails, the
    database is whole at one of the two paths, no file is overwritten and nothing else
    is touched. *)

(** ** Commands that always end *)

Definition settles {A} (sw : SWorld) (c : M A) : Prop := forall st, exists a st', c sw st = (Go a, st').

Section Settles.
Context (sw : SWorld).

Lemma settles_go {A} (a : A) : settles sw (go a).
Proof. intros st. by exists a, st. Qed.

Lemma settles_bind {A B} (c : M A) (f : A -> M B) : settles sw c -> (forall a, settles sw (f a)) -> settles sw (andthen c f).
Proof.
  intros Hc Hf st. destruct (Hc st) as (a & st1 & E). destruct (Hf a st1) as (b & st2 & E2).
  exists b, st2. unfold andthen. by rewrite E.
Qed.

Lemma settles_lift {A} (c : T A) : settles sw (lift c).
Proof. intros st. unfold lift. destruct (c _ _) as [a h]. by eexists _, _. Qed.

Lemma settles_access {A} what (op : SWorld -> history -> string -> DB -> result A * DB) : settles sw (access what op).
Proof.
  intros st. unfold access. cbv zeta. destruct (sw_fault sw _); [by eexists _, _|].
  destruct (op _ _ _ _). by eexists _, _.
Qed.

Lemma settles_control p : settles sw (doControl p).
Proof. intros st. destruct (runs_doControl sw p st) as (a & st' & ops & E & _). by exists a, st'. Qed.

Lemma settles_rows {A B} (row : A -> M B) l : (forall a, settles sw (row a)) -> settles sw (each_row row l).
Proof.
  intros H. induction l as [|a l IH]; cbn [each_row]; [apply settles_go|].
  apply settles_bind; [apply H|]. intros b. apply settles_bind; [apply IH|]. intros bs. apply settles_go.
Qed.

Lemma settles_refresh dflt sender o : settles sw (runRefreshAllMcps dflt sender "json" o).
Proof.
  apply settles_bind; [apply settles_access|]. intros [agents|e]; [|apply settles_go].
  apply settles_bind; [|intros; apply settles_go].
  apply settles_rows. intros a. unfold refresh_agent. cbv zeta. apply settles_bind; [apply settles_access|].
  intros [[provider cap]|e]; [|apply settles_go]. destruct (bool_decide (provider = provider_OpenAI)).
  - apply settles_bind; [|intros; apply settles_go]. unfold refreshCodexSession.
    destruct (str_empty _); [apply settles_go|]. destruct (resolveCodexSessionRestartCommand _ _ _); [|apply settles_go].
    apply settles_bind; [apply settles_lift|]. intros [cwd|e]; [|apply settles_go].
    apply settles_bind; [apply settles_lift|]. intros; apply settles_go.
  - apply settles_bind; [apply settles_control|]. intros; apply settles_go.
Qed.
End Settles.

(** ** What is assumed of SQLite and the file system *)

Definition family (path : string) : list string := path :: sidecars path.

(** The database of a path, from the bytes of its file and of its log. *)
Definition contents (read : string -> option string -> option DB) (k : Disk) (path : string) : option DB :=
  match k !! path with Some b => read b (k !! (path +:+ "-wal")) | None => None end.

(** The same bytes but for some files. *)
Definition same_but (paths : list string) (k k' : Disk) : Prop := forall q, q ∉ paths -> k' !! q = k !! q.

(** As documented: opening and checkpointing a database keep what it holds and touch only
    its files; a truncating checkpoint that ends without an error and was not blocked has
    written the whole log back, while one that was blocked says so in its row. *)
Record sqlite_laws (sq : sqlite) (read : string -> option string -> option DB) : Prop := {
  open_laws : forall path k d, contents read k path = Some d ->
    contents read (snd (sq_open sq path k)) path = Some d /\ same_but (family path) k (snd (sq_open sq path k)) /\
    forall d', fst (sq_open sq path k) = Ok d' -> d' = d;
  checkpoint_laws : forall path k d, contents read k path = Some d ->
    contents read (snd (sq_checkpoint sq path k)) path = Some d /\ same_but (family path) k (snd (sq_checkpoint sq path k)) /\
    (fst (sq_checkpoint sq path k) = Ok false ->
       exists b, snd (sq_checkpoint sq path k) !! path = Some b /\ read b None = Some d)
}.

(** No other connection blocks a checkpoint. *)
Definition unblocked (sq : sqlite) : Prop := forall path k, fst (sq_checkpoint sq path k) <> Ok true.

Lemma longer p t : p +:+ t = p -> t = EmptyString.
Proof.
  intros E. assert (String.length (p +:+ t) = String.length p) as El by (by rewrite E).
  rewrite StrFacts.string_length_app in El. destruct t; [done|]. simpl in El. lia.
Qed.

Lemma same_but_refl paths k : same_but paths k k.
Proof. by intros q _. Qed.

Lemma same_but_trans paths k k1 k2 : same_but paths k k1 -> same_but paths k1 k2 -> same_but paths k k2.
Proof. intros H1 H2 q Hq. rewrite (H2 q Hq). by apply H1. Qed.

Lemma same_but_more paths paths' k k' : (forall q, q ∈ paths -> q ∈ paths') -> same_but paths k k' -> same_but paths' k k'.
Proof. intros H Hs q Hq. apply Hs. intros Hin. by apply Hq, H. Qed.

(** The database of a path is that of its files. *)
Lemma contents_same read k k' paths path : same_but paths k k' -> path ∉ paths -> path +:+ "-wal" ∉ paths ->
  contents read k' path = contents read k path.
Proof. intros H Hp Hw. unfold contents. by rewrite (H path Hp), (H _ Hw). Qed.

Section Safe.
Context (sq : sqlite) (read : string -> option string -> option DB) (Hsq : sqlite_laws sq read) (Hfree : unblocked sq)
  (disk_others : history -> Disk -> Disk) (Hquiet : forall h k, disk_others h k = k)
  (os_fault : history -> option error) (Hhonest : forall h e, os_fault h = Some e -> errors_Is e ErrNotExist = false)
  (stat_dir : history -> string -> result bool) (part_of : string -> string)
  (getenv : string -> string) (fileExists : string -> bool) (BinaryName : string)
  (systemctl : history -> list string -> string * option error) (default_cmd_exists : bool)
  (sw : SWorld) (Halone : alone sw).

Lemma ends_wbind {A B} (c : W A) (f : A -> W B) k d Q (R : B * Disk -> DB -> Prop) :
  ends_in sw (c k) d Q -> (forall a k' d', Q (a, k') d' -> ends_in sw (f a k') d' R) -> ends_in sw (wbind c f k) d R.
Proof. intros Hc Hf. eapply ends_bind; [exact Hc|]. intros [a k'] d' H. by apply Hf. Qed.

Lemma ends_wret {A} (a : A) k d (Q : A * Disk -> DB -> Prop) : Q (a, k) d -> ends_in sw (wret a k) d Q.
Proof. apply ends_go. Qed.

Lemma ends_within {A} (c : M A) k d (Q : A -> DB -> Prop) :
  ends_in sw c d Q -> ends_in sw (within c k) d (fun r d' => Q (fst r) d' /\ snd r = k).
Proof. intros H. eapply ends_bind; [exact H|]. intros a d' Ha. by apply ends_go. Qed.

Lemma ends_os {A} what (f : Disk -> result A * Disk) k d (Q : result A * Disk -> DB -> Prop) :
  (forall e, errors_Is e ErrNotExist = false -> Q (Err e, k) d) -> Q (f k) d -> ends_in sw (os disk_others os_fault what f k) d Q.
Proof.
  intros He Hf st E. unfold os. cbv zeta. rewrite Hquiet. destruct (os_fault _) as [e|] eqn:Ef; eexists _, _; (split; [reflexivity|]).
  - cbn [s_db]. rewrite E. apply He. by eapply Hhonest.
  - cbn [s_db]. by rewrite E.
Qed.

Lemma ends_open path k d0 d (Q : result unit * Disk -> DB -> Prop) : contents read k path = Some d ->
  (forall k', contents read k' path = Some d -> same_but (family path) k k' ->
     Q (Ok tt, k') d /\ forall e, Q (Err e, k') d0) ->
  ends_in sw (open_store sq disk_others path k) d0 Q.
Proof.
  intros Hk HQ st E. unfold open_store. cbv zeta. rewrite Hquiet.
  destruct (open_laws sq read Hsq path k d Hk) as (H1 & H2 & H3).
  destruct (sq_open sq path k) as [[d'|e] k']; cbn [fst snd] in *; eexists _, _; (split; [reflexivity|]); cbn [s_db].
  - rewrite (H3 d' eq_refl). by apply HQ.
  - rewrite E. by apply HQ.
Qed.

Lemma ends_checkpoint path k d0 d (Q : option error * Disk -> DB -> Prop) : contents read k path = Some d ->
  (forall k', contents read k' path = Some d -> same_but (family path) k k' ->
     (forall b, k' !! path = Some b -> read b None = Some d -> Q (None, k') d0) /\ forall e, Q (Some e, k') d0) ->
  ends_in sw (checkpointTruncate sq disk_others path k) d0 Q.
Proof.
  intros Hk HQ st E. unfold checkpointTruncate. cbv zeta. rewrite Hquiet. 
  destruct (checkpoint_laws sq read Hsq path k d Hk) as (H1 & H2 & H3). specialize (Hfree path k).
  destruct (sq_checkpoint sq path k) as [[[|]|e] k']; cbn [fst snd] in *;
    [done| |eexists _, _; split; [reflexivity|]; cbn [s_db]; rewrite E; by apply HQ].
  eexists _, _. split; [reflexivity|]. cbn [s_db]. rewrite E. destruct (H3 eq_refl) as (b & Hb & Hr). by apply (HQ k' H1 H2) with b.
Qed.

(** ** Moving *)

Lemma ends_stat path k d (Q : result unit * Disk -> DB -> Prop) :
  (forall r, (errors_Is (match r with Err e => e | Ok _ => EXDEV end) ErrNotExist = true -> k !! path = None) -> Q (r, k) d) ->
  ends_in sw (os_Stat disk_others os_fault path k) d Q.
Proof.
  intros H. apply ends_os.
  - intros e He. apply H. congruence.
  - destruct (k !! path) eqn:E; apply H; done.
Qed.

(** A file is gone, or still there. *)
Lemma ends_remove path k d (Q : result unit * Disk -> DB -> Prop) :
  (forall e, Q (Err e, k) d) -> (is_Some (k !! path) -> Q (Ok tt, delete path k) d) ->
  ends_in sw (os_Remove disk_others os_fault path k) d Q.
Proof.
  intros He Hk. apply ends_os; [intros; apply He|]. destruct (k !! path) as [b|] eqn:E; [by apply Hk|apply He].
Qed.

(** A move that succeeds leaves the bytes at the destination only; one that fails
    leaves them at the source. *)
Definition moved (source dest b : string) (k : Disk) (r : option error) (k' : Disk) : Prop :=
  same_but [source; dest] k k' /\
  match r with
  | None => k' !! dest = Some b /\ k' !! source = None
  | Some _ => k' !! source = Some b
  end.

Lemma moved_back source dest b k k' e : source <> dest -> k !! source = Some b ->
  (forall q, q <> dest -> k' !! q = k !! q) -> moved source dest b k (Some e) k'.
Proof.
  intros Hne Hs H. split; [|by rewrite H].
  intros q Hq. apply H. intros ->. apply Hq. right; left.
Qed.

Lemma moved_over source dest b k : source <> dest -> moved source dest b k None (delete source (<[dest := b]> k)).
Proof.
  intros Hne. split.
  - intros q Hq. rewrite lookup_delete_ne, lookup_insert_ne; [done|set_solver|set_solver].
  - rewrite lookup_delete_ne, lookup_insert_eq by done. by rewrite lookup_delete_eq.
Qed.

Lemma undo_copy source dest b (bb : string) (k : Disk) d e : source <> dest -> k !! source = Some b -> k !! dest = None ->
  ends_in sw ((_ <@ os_Remove disk_others os_fault dest ;; wret (Some e)) (<[dest := bb]> k)) d
    (fun r d' => d' = d /\ moved source dest b k (fst r) (snd r)).
Proof.
  intros Hne Hs Hd.
  eapply ends_wbind with (Q := fun r d' => d' = d /\ (snd r = <[dest := bb]> k \/ snd r = k)).
  - apply ends_remove; [intros; split; [done|by left]|]. intros _. split; [done|]. right. cbn [snd].
    by rewrite delete_insert_id.
  - intros a k' d' [-> Hk]. apply ends_wret. split; [done|]. cbn [fst snd] in *.
    apply moved_back; [done|done|]. intros q Hq. destruct Hk as [->| ->]; [by rewrite lookup_insert_ne|done].
Qed.

Lemma copy_bytes_moves source dest b (b0 : string) (k : Disk) d : source <> dest -> k !! source = Some b -> k !! dest = None ->
  ends_in sw (copy_bytes disk_others os_fault part_of source dest b (<[dest := b0]> k)) d
    (fun r d' => d' = d /\ moved source dest b k (fst r) (snd r)).
Proof.
  intros Hne Hs Hd. unfold copy_bytes.
  eapply ends_wbind with (Q := fun r d' => d' = d /\ exists bb, snd r = <[dest := bb]> k /\ match fst r with Ok _ => bb = b | Err _ => True end).
  { intros st E. unfold io_Copy. cbv zeta. rewrite Hquiet, !insert_insert_eq.
    destruct (os_fault _); eexists _, _; (split; [reflexivity|]); (split; [done|]); by eexists. }
  intros [[]|e] k' d' (-> & bb & Hk & Hb); cbn [fst snd] in *; subst k'; [subst bb|by apply undo_copy].
  eapply ends_wbind with (Q := fun r d' => d' = d /\ snd r = <[dest := b]> k); [by apply ends_os|].
  intros [[]|e] k' d' [-> Hk]; cbn [snd] in Hk; subst k'; [|by apply undo_copy].
  eapply ends_wbind with (Q := fun r d' => d' = d /\ match fst r with Ok _ => snd r = delete source (<[dest := b]> k) | Err _ => snd r = <[dest := b]> k end).
  { by apply ends_remove. }
  intros [[]|e] k' d' [-> Hk]; cbn [fst snd] in Hk; subst k'; apply ends_wret; (split; [done|]); [by apply moved_over|].
  apply moved_back; [done|done|]. intros q Hq. cbn [snd]. by rewrite lookup_insert_ne.
Qed.

Lemma copy_over_moves source dest b k d : source <> dest -> k !! source = Some b -> k !! dest = None ->
  ends_in sw (copy_over disk_others os_fault part_of source dest k) d (fun r d' => d' = d /\ moved source dest b k (fst r) (snd r)).
Proof.
  intros Hne Hs Hd. unfold copy_over.
  assert (Hsame : forall e, moved source dest b k (Some e) k) by (intros e; by apply moved_back).
  eapply ends_wbind with (Q := fun r d' => d' = d /\ snd r = k /\ match fst r with Ok x => x = b | Err _ => True end).
  { apply ends_os; [done|]. by rewrite Hs. }
  intros [x|e] k' d' (-> & Hk & Hx); cbn [fst snd] in *; subst k'; [subst x|apply ends_wret; split; [done|apply Hsame]].
  eapply ends_wbind with (Q := fun r d' => d' = d /\ snd r = k); [by apply ends_os|].
  intros [[]|e] k' d' [-> Hk]; cbn [snd] in Hk; subst k'; [|apply ends_wret; split; [done|apply Hsame]].
  eapply ends_wbind with (Q := fun r d' => d' = d /\ match fst r with Ok _ => snd r = <[dest := EmptyString]> k | Err _ => snd r = k end).
  { apply ends_os; [done|]. by rewrite Hd. }
  intros [[]|e] k' d' [-> Hk]; cbn [fst snd] in Hk; subst k'; [by apply copy_bytes_moves|].
  apply ends_wret. split; [done|apply Hsame].
Qed.

Lemma moveFile_moves source dest b k d : source <> dest -> k !! source = Some b -> k !! dest = None ->
  ends_in sw (moveFile disk_others os_fault part_of source dest k) d (fun r d' => d' = d /\ moved source dest b k (fst r) (snd r)).
Proof.
  intros Hne Hs Hd. unfold moveFile.
  eapply ends_wbind with (Q := fun r d' => d' = d /\ match fst r with Ok _ => snd r = <[dest := b]> (delete source k) | Err _ => snd r = k end).
  { apply ends_os; [done|]. by rewrite Hs. }
  intros [[]|e] k' d' [-> Hk]; cbn [fst snd] in Hk; subst k'.
  - apply ends_wret. split; [done|]. cbn [fst snd].
    rewrite insert_delete_ne by done. by apply moved_over.
  - destruct (cross_device e); [by apply copy_over_moves|]. apply ends_wret. split; [done|]. by apply moved_back.
Qed.

Lemma ends_units step names d : (forall n, ends_in sw (step n) d (fun _ d' => d' = d)) ->
  ends_in sw (each_unit step names) d (fun r d' => d' = d /\ (snd r = None -> fst r = Z.of_nat (length names))).
Proof.
  intros H. induction names as [|n names IH]; cbn [each_unit]; [by apply ends_go|].
  apply ends_aside; [apply H|]. intros [e|]; [by apply ends_go|].
  eapply ends_bind; [exact IH|]. intros r d' [-> Hr]. apply ends_go. split; [done|]. cbn [fst snd length]. intros E.
  rewrite (Hr E). lia.
Qed.

Lemma ends_stop n d : ends_in sw (stopMailman BinaryName systemctl n) d (fun _ d' => d' = d).
Proof. apply ends_aside; [by apply ends_ask|]. intros out. by apply ends_go. Qed.

Lemma ends_start n d : ends_in sw (startMailman BinaryName systemctl n) d (fun _ d' => d' = d).
Proof. apply ends_aside; [by apply ends_ask|]. intros out. by apply ends_go. Qed.

Lemma ends_remove_all paths : forall k d,
  ends_in sw (remove_all disk_others os_fault paths k) d (fun r d' => d' = d /\ same_but paths k (snd r)).
Proof.
  induction paths as [|p paths IH]; intros k d; cbn [remove_all]; [apply ends_wret; split; [done|apply same_but_refl]|].
  eapply ends_wbind with (Q := fun r d' => d' = d /\ same_but [p] k (snd r)).
  - apply ends_remove; [intros; split; [done|apply same_but_refl]|]. intros _. split; [done|]. intros q Hq. cbn [snd].
    rewrite lookup_delete_ne; [done|]. set_solver.
  - intros a k1 d' [-> H1]. eapply ends_weaken; [apply IH|]. intros r d' [-> H2]. split; [done|].
    eapply same_but_trans; eapply same_but_more; [|exact H1| |exact H2]; set_solver.
Qed.

(** ** The migration *)

Section Paths.
Context (source dest : string) (Hapart : forall q, q ∈ family source -> q ∉ family dest) (d : DB) (k0 : Disk)
  (Hcontents : contents read k0 source = Some d) (Hnolog : k0 !! (dest +:+ "-wal") = None).

Notation W_contents := (contents read).

Lemma in_family p : p ∈ family p.
Proof. left. Qed.

Lemma log_in_family p : p +:+ "-wal" ∈ family p.
Proof. right. left. Qed.

Lemma dest_apart : dest ∉ family source /\ dest +:+ "-wal" ∉ family source /\ source <> dest.
Proof.
  split; [intros H; by apply (Hapart dest H), in_family|]. split; [intros H; by apply (Hapart _ H), log_in_family|].
  intros E. apply (Hapart source (in_family _)). rewrite E. apply in_family.
Qed.

Lemma source_apart : source ∉ family dest /\ source +:+ "-wal" ∉ family dest.
Proof. split; apply Hapart; [apply in_family|apply log_in_family]. Qed.

(** So far the database is where it was, and the destination untouched. *)
Definition in_place (k : Disk) : Prop := same_but (family source) k0 k /\ W_contents k source = Some d.

(** The database is at the destination and the source gone. *)
Definition at_dest (k : Disk) : Prop :=
  same_but (family source ++ family dest) k0 k /\ W_contents k dest = Some d /\ k !! source = None.

Definition migration_spec (dryRun : bool) (r : outcome dbMigrateResult) (k : Disk) : Prop :=
  same_but (family source ++ family dest) k0 k /\
  (W_contents k source = Some d \/ W_contents k dest = Some d) /\
  (is_Some (k0 !! dest) -> k !! dest = k0 !! dest) /\
  match r with
  | Failed _ _ => True
  | Done res =>
      mg_OK res = true /\ mg_DryRun res = dryRun /\
      if dryRun then in_place k
      else
        let n := Z.of_nat (length (List.filter mailman_bearing (ListAgents d))) in
        at_dest k /\ mg_AgentsStopped res = n /\
        (dest = defaultDBLocation getenv fileExists ->
           mg_AgentsStarted res = n /\ mg_Messages res = Z.of_nat (length (db_messages d)))
  end.

Lemma in_place_spec k dryRun msg code : in_place k -> migration_spec dryRun (Failed msg code) k.
Proof.
  intros [Hs Hc]. split; [eapply same_but_more; [|exact Hs]; set_solver|]. split; [by left|]. split; [|done].
  intros _. apply Hs, dest_apart.
Qed.

Lemma restart_all_safe k d0 names stopped agents :
  k0 !! dest = None -> at_dest k ->
  ends_in sw (restart_all sq disk_others BinaryName systemctl default_cmd_exists dest names
      (mkMigrate false false source dest stopped 0 agents 0 (migrate_warnings getenv fileExists BinaryName dest)) k) d0
    (fun r _ => migration_spec false (match fst r with Done res => Failed EmptyString 0 | f => f end) (snd r) /\
       match fst r with
       | Done res => mg_OK res = true /\ mg_DryRun res = false /\ at_dest (snd r) /\ mg_AgentsStopped res = stopped /\
           mg_AgentsStarted res = Z.of_nat (length names) /\ mg_Messages res = Z.of_nat (length (db_messages d))
       | Failed _ _ => True
       end).
Proof.
  intros Hno Hk.
  assert (Hspec : forall k msg code, at_dest k -> migration_spec false (Failed msg code) k).
  { intros k' msg code (H1 & H2 & H3). split; [done|]. split; [by right|]. split; [|done]. rewrite Hno. by intros [? ?]. }
  unfold restart_all.
  eapply ends_wbind; [apply ends_within, ends_units; intros; apply ends_start|].
  intros [started [[n e]|]] k1 d1 [[-> Hst] Ek]; cbn [fst snd] in *; subst k1.
  { apply ends_wret. cbn [fst snd]. split; [by apply Hspec|done]. }
  specialize (Hst eq_refl). subst started.
  eapply ends_wbind with (Q := fun r d' => at_dest (snd r) /\ match fst r with Ok _ => d' = d | Err _ => True end).
  { eapply (ends_open _ _ _ d); [apply Hk|]. intros k' Hc Hs.
    assert (at_dest k') as H.
    { destruct Hk as (H1 & H2 & H3). split; [eapply same_but_trans; [exact H1|eapply same_but_more; [|exact Hs]; set_solver]|].
      split; [done|]. rewrite (Hs source) by apply source_apart. done. }
    by split; [|intros e; split]. }
  intros [[]|e] k2 d2 [Hk2 Hd]; cbn [fst snd] in *.
  2:{ apply ends_wret. cbn [fst snd]. split; [by apply Hspec|done]. }
  subst d2.
  eapply ends_wbind; [apply ends_within, (ends_read sw Halone _ _ _ (fun r d' => r = Ok (Z.of_nat (length (db_messages d))) /\ d' = d)); done|].
  intros r k3 d3 [[Er ->] E]. cbn [fst snd] in Er, E. subst r k3.
  eapply ends_wbind with (Q := fun r _ => snd r = k2).
  { intros st E. destruct (settles_refresh sw default_cmd_exists "db-migrate" refresh_options st) as (a & st' & Ea).
    exists (a, k2), st'. split; [|done]. unfold within, andthen. by rewrite Ea. }
  intros a k4 d4 E. cbn [snd] in E. subst k4.
  destruct a as [msg code|[res rc]]; [apply ends_wret; cbn [fst snd]; split; [by apply Hspec|done]|].
  destruct rc; apply ends_wret; cbn [fst snd]; (split; [by apply Hspec|]); try done.
Qed.

(** A move between the two files, forth or not. *)
Lemma moved_same k2 k3 : in_place k2 -> same_but [source; dest] k2 k3 -> same_but (family source ++ family dest) k0 k3.
Proof.
  intros [Hk2 _] Hs3. eapply same_but_trans; [eapply same_but_more; [|exact Hk2]|eapply same_but_more; [|exact Hs3]]; [set_solver|].
  intros q [->|[->|H%elem_of_nil]%elem_of_cons]%elem_of_cons; [apply elem_of_app; left; apply in_family| |done].
  apply elem_of_app; right; apply in_family.
Qed.

Lemma not_moved k2 k3 b : in_place k2 -> k2 !! source = Some b -> same_but [source; dest] k2 k3 -> k3 !! source = Some b ->
  W_contents k3 source = Some d.
Proof.
  intros [_ Hk2] Hb Hs3 Hm. unfold contents in *. rewrite Hb in Hk2. rewrite Hm, (Hs3 (source +:+ "-wal")); [done|].
  intros [E|[E|H%elem_of_nil]%elem_of_cons]%elem_of_cons; [|by apply (proj2 source_apart); rewrite E; apply in_family|done].
  by apply (longer source "-wal") in E.
Qed.

Lemma has_moved k2 k3 k4 b : in_place k2 -> same_but [source; dest] k2 k3 -> k3 !! dest = Some b -> k3 !! source = None ->
  read b None = Some d -> same_but (sidecars source) k3 k4 -> at_dest k4.
Proof.
  intros [Hk2 Hc] Hs3 Hmd Hms Hr Hs4. destruct dest_apart as (Hd1 & Hd2 & Hne).
  assert (Hside : forall q, q ∈ sidecars source -> q ∈ family source) by (intros q H; by right).
  assert (k4 !! (dest +:+ "-wal") = None) as Hlog.
  { rewrite (Hs4 _ (fun H => Hd2 (Hside _ H))), (Hs3 (dest +:+ "-wal")), (Hk2 _ Hd2); [done|].
    intros [E|[E|H%elem_of_nil]%elem_of_cons]%elem_of_cons; [by apply Hd2; rewrite E; apply in_family| |done].
    by apply (longer dest "-wal") in E. }
  split; [|split].
  - eapply same_but_trans; [apply (moved_same k2 k3); [by split|done]|]. eapply same_but_more; [|exact Hs4]. set_solver.
  - unfold contents. rewrite Hlog, (Hs4 dest (fun H => Hd1 (Hside _ H))), Hmd. exact Hr.
  - rewrite (Hs4 source); [done|]. intros [E|[E|H%elem_of_nil]%elem_of_cons]%elem_of_cons; [| |done];
      symmetry in E; by apply longer in E.
Qed.

(** Up to the checkpoint the database is in place; then it is moved. *)
Lemma move_database_safe k names agents : in_place k -> k0 !! dest = None ->
  names = map a_name (List.filter mailman_bearing (ListAgents d)) ->
  ends_in sw (move_database sq disk_others os_fault part_of getenv fileExists BinaryName systemctl default_cmd_exists source dest
      names (mkMigrate false false source dest 0 0 agents 0 (migrate_warnings getenv fileExists BinaryName dest)) k) d
    (fun r _ => migration_spec false (fst r) (snd r)).
Proof.
  intros Hk Hno Hnames. destruct dest_apart as (Hd1 & _ & Hne). unfold move_database.
  eapply ends_wbind; [apply ends_within, ends_units; intros; apply ends_stop|].
  intros [stopped [[n e]|]] k1 d1 [[-> Hst] Ek]; cbn [fst snd] in *; subst k1; [by apply ends_wret, in_place_spec|].
  specialize (Hst eq_refl). subst stopped.
  eapply ends_wbind with (Q := fun r d' => d' = d /\ in_place (snd r) /\
    match fst r with None => exists b, snd r !! source = Some b /\ read b None = Some d | Some _ => True end).
  { eapply ends_checkpoint; [apply Hk|]. intros k' Hc Hs.
    assert (in_place k') as H by (split; [eapply same_but_trans; [apply Hk|done]|done]).
    split; [intros b Hb Hr; split; [done|]; split; [done|by exists b]|by intros e]. }
  intros [e|] k2 d2 (-> & Hk2 & Hb); cbn [fst snd] in *; [by apply ends_wret, in_place_spec|]. destruct Hb as (b & Hb & Hr).
  assert (k2 !! dest = None) as Hd by (by rewrite (proj1 Hk2 dest Hd1)).
  eapply ends_wbind; [apply (moveFile_moves source dest b); [done|exact Hb|exact Hd]|].
  intros [e|] k3 d3 (-> & Hs3 & Hm); cbn [fst snd] in *.
  { apply ends_wret. cbn [fst snd]. split; [by apply (moved_same k2 k3)|]. split; [left; by apply (not_moved k2 k3 b)|].
    split; [rewrite Hno; by intros [? ?]|done]. }
  destruct Hm as [Hmd Hms].
  eapply ends_wbind; [apply ends_remove_all|]. intros [] k4 d4 [-> Hs4]. cbn [fst snd] in Hs4.
  pose proof (has_moved k2 k3 k4 b Hk2 Hs3 Hmd Hms Hr Hs4) as H4.
  cbv zeta. case_bool_decide as Edef; cbn [negb].
  - eapply ends_weaken; [by apply restart_all_safe|]. intros [[msg code|res] k'] d' [Hspec Hres]; cbn [fst snd] in *; [done|].
    destruct Hspec as (H1 & H2 & H3 & _). destruct Hres as (Ho & Hdr & Ha & Hs & Hst & Hm).
    split; [done|]. split; [done|]. split; [done|]. split; [done|]. split; [done|].
    rewrite Hnames, length_map in *. by split.
  - apply ends_wret. cbn [fst snd]. split; [apply H4|]. split; [right; apply H4|]. split; [rewrite Hno; by intros [? ?]|].
    split; [done|]. split; [done|]. split; [done|]. split; [by rewrite Hnames, length_map|done].
Qed.

(** The check of the destination changes nothing, and passes only a free path. *)
Lemma validate_safe d0 :
  ends_in sw (validateMigrateDest disk_others os_fault stat_dir dest k0) d0
    (fun r d' => d' = d0 /\ snd r = k0 /\ (fst r = None -> k0 !! dest = None)).
Proof.
  unfold validateMigrateDest. cbv zeta.
  eapply ends_wbind; [apply ends_within, (ends_ask sw _ _ _ (fun _ d' => d' = d0)); done|]. intros p k1 d1 [-> Ek]. cbn [snd] in Ek. subst k1.
  destruct p as [[|]|e]; [|by apply ends_wret|by apply ends_wret].
  eapply ends_wbind with (Q := fun r d' => d' = d0 /\ snd r = k0 /\
    (errors_Is (match fst r with Err e => e | Ok _ => EXDEV end) ErrNotExist = true -> k0 !! dest = None)).
  { apply ends_stat. by intros r H. }
  intros [[]|e] k1 d1 (-> & Ek & H); cbn [fst snd] in *; subst k1; [by apply ends_wret|].
  destruct (errors_Is e ErrNotExist); cbn [negb]; [|by apply ends_wret].
  eapply ends_wbind with (Q := fun r d' => d' = d0 /\ snd r = k0); [by apply ends_os|].
  intros t k1 d1 [-> Ek]. cbn [snd] in Ek. subst k1. apply ends_wret. split; [done|]. split; [done|]. intros _. by apply H.
Qed.

Lemma migrate_from_safe dryRun d0 :
  ends_in sw (migrate_from sq disk_others os_fault stat_dir part_of getenv fileExists BinaryName systemctl default_cmd_exists
      source dest dryRun k0) d0 (fun r _ => migration_spec dryRun (fst r) (snd r)).
Proof.
  assert (H0 : in_place k0) by (split; [apply same_but_refl|done]). destruct dest_apart as (Hd1 & _ & Hne).
  unfold migrate_from. rewrite bool_decide_false by done.
  eapply ends_wbind; [apply validate_safe|]. intros [msg|] k1 d1 (-> & Ek & Hno); cbn [fst snd] in *; subst k1;
    [by apply ends_wret, in_place_spec|]. specialize (Hno eq_refl).
  eapply ends_wbind with (Q := fun r d' => in_place (snd r) /\ match fst r with Ok _ => d' = d | Err _ => True end).
  { eapply (ends_open _ _ _ d); [done|]. intros k' Hc Hs. by split. }
  intros [[]|e] k2 d2 [Hk2 Hd]; cbn [fst snd] in *; [subst d2|by apply ends_wret, in_place_spec].
  eapply ends_wbind; [apply ends_within, (ends_read sw Halone _ _ _ (fun r d' => r = Ok (ListAgents d) /\ d' = d)); done|].
  intros r k3 d3 [[Er ->] E]. cbn [fst snd] in Er, E. subst r k3. cbv zeta.
  destruct dryRun.
  2:{ eapply ends_wbind with (Q := fun r d' => d' = d /\ snd r = k2); [by apply ends_os|].
      intros [[]|e] k3 d3 [-> E]; cbn [snd] in E; subst k3; [by apply move_database_safe|by apply ends_wret, in_place_spec]. }
  apply ends_wret. cbn [fst snd]. destruct (in_place_spec k2 true EmptyString 0 Hk2) as (H1 & H2 & H3 & _). done.
Qed.
End Paths.
End Safe.


(** ** Concrete files *)

Definition queued_db : DB := snd (InsertMessage (simple_params "alice" "bob" "first" None) (entropy 1) (entropy 9) t0 bus_db).

(** Databases as the bytes of a file and of its log. *)
Definition demo_read (b : string) (log : option string) : option DB :=
  if bool_decide (b = "bus") then
    if bool_decide (log = Some "more") then Some queued_db
    else if bool_decide (log = Some "other") then Some empty_db else Some bus_db
  else if bool_decide (b = "bus, more") then Some queued_db
  else if bool_decide (b = "nothing") then Some empty_db
  else None.

Definition fold_log (b : string) (log : option string) : string :=
  if bool_decide (b = "bus") then
    if bool_decide (log = Some "more") then "bus, more" else if bool_decide (log = Some "other") then "nothing" else b
  else b.

Lemma fold_log_reads b log : demo_read (fold_log b log) None = demo_read b log.
Proof.
  unfold fold_log, demo_read. destruct (decide (b = "bus")) as [->|Hb].
  - rewrite (bool_decide_true ("bus" = "bus")) by done.
    destruct (decide (log = Some "more")) as [->|H1]; [done|]. rewrite (bool_decide_false (log = Some "more")) by done.
    destruct (decide (log = Some "other")) as [->|H2]; [done|]. by rewrite (bool_decide_false (log = Some "other")).
  - by rewrite !(bool_decide_false (b = "bus")).
Qed.

(** A checkpoint that another connection may block, without an error. *)
Definition demo_sqlite (blocked : bool) : sqlite :=
  mkSqlite
    (fun path k => (match contents demo_read k path with Some d => Ok d | None => Err (ErrMsg "not a database") end, k))
    (fun path k => match k !! path with
                   | None => (Err ErrNotExist, k)
                   | Some b => if blocked then (Ok true, k)
                               else (Ok false, delete (path +:+ "-wal") (<[path := fold_log b (k !! (path +:+ "-wal"))]> k))
                   end).

Lemma demo_laws blocked : sqlite_laws (demo_sqlite blocked) demo_read.
Proof.
  split; intros path k d Hk; cbn [demo_sqlite sq_open sq_checkpoint fst snd].
  - split; [done|]. split; [apply same_but_refl|]. rewrite Hk. by intros d' [= <-].
  - unfold contents in Hk. destruct (k !! path) as [b|] eqn:E; [|done]. cbn [fst snd].
    destruct blocked; cbn [fst snd]; [split; [by unfold contents; rewrite E|]; split; [apply same_but_refl|done]|].
    assert (path +:+ "-wal" <> path) as Hne by (intros H; by apply longer in H).
    unfold contents. rewrite lookup_delete_eq, lookup_delete_ne, lookup_insert_eq by done. split; [by rewrite fold_log_reads|].
    split; [|intros _; eexists; split; [done|]; by rewrite fold_log_reads].
    intros q Hq. rewrite lookup_delete_ne, lookup_insert_ne; [done| |]; intros <-; apply Hq; [left|right; left].
Qed.

Lemma demo_unblocked : unblocked (demo_sqlite false).
Proof. intros path k. cbn. by destruct (k !! path). Qed.

Definition old_path : string := "/srv/old/messages.db".
Definition legacy_path : string := "/home/a/.local/share/tmux-msg/messages.db".
Definition default_path : string := "/home/a/.local/share/tmux-tell/messages.db".
Definition demo_home (v : string) : string := if bool_decide (v = "HOME") then "/home/a" else EmptyString.
Definition started_ok (_ : history) (_ : list string) : string * option error := (EmptyString, None).

Definition demo_migrate (sq : sqlite) (systemctl : history -> list string -> string * option error)
    (fileExists : string -> bool) (source : string) (k : Disk) :=
  migrate_from sq (fun _ k => k) (fun _ => None) (fun _ _ => Ok true) (fun _ => EmptyString) demo_home fileExists
    "tmux-tell-claude" systemctl true source default_path false k bus (mkS empty_db (initial_vars demo_opts) []).

(** What a run answers, and what the two paths hold then. *)
Definition migrated (source : string) (r : flow (outcome dbMigrateResult * Disk) * sstate) :=
  match fst r with
  | Go (Done res, k) => Some (mg_OK res, mg_AgentsStopped res, mg_AgentsStarted res, mg_Messages res,
                              length (mg_Warnings res), k !! source, k !! default_path)
  | _ => None
  end.

Definition old_disk : Disk := <[old_path +:+ "-wal" := "more"]> (<[old_path := "bus"]> ∅).

Lemma paths_apart : forall q, q ∈ family old_path -> q ∉ family default_path.
Proof.
  apply Forall_forall. apply (bool_decide_unpack (Forall (fun q => q ∉ family default_path) (family old_path))).
  vm_compute. exact I.
Qed.


(** A checkpoint that another connection blocks keeps the documented laws and is not an
    error for the code: the log is then deleted with what only it held, and the command
    succeeds. *)
Lemma blocked_checkpoint_loses :
  sqlite_laws (demo_sqlite true) demo_read /\
  migrated old_path (demo_migrate (demo_sqlite true) started_ok (fun _ => false) old_path old_disk)
    = Some (true, 3, 3, 0, 0%nat, None, Some "bus") /\
  contents demo_read old_disk old_path = Some queued_db /\ demo_read "bus" None = Some bus_db.
Proof. split; [apply demo_laws|]. split_and!; vm_compute; reflexivity. Qed.

(** A log left behind at the destination is taken for that of the moved database. *)
Lemma leftover_log_is_taken :
  match demo_migrate (demo_sqlite false) started_ok (fun _ => false) old_path
          (<[default_path +:+ "-wal" := "other"]> (<[old_path := "bus"]> ∅)) with
  | (Go (Done res, k), _) => mg_OK res = true /\ contents demo_read k default_path = Some empty_db
  | _ => False
  end.
Proof. vm_compute. split; reflexivity. Qed.

(** From the older default to the present one: until the move the older one is the
    default, so the mailmen stay disabled. *)
Lemma legacy_default_stays_stopped :
  migrated legacy_path (demo_migrate (demo_sqlite false) started_ok (fun p => bool_decide (p = legacy_path)) legacy_path
                          (<[legacy_path := "bus"]> ∅))
    = Some (true, 3, 0, 0, 1%nat, None, Some "bus").
Proof. vm_compute. reflexivity. Qed.

(** The units of the adapter that runs the command are stopped and started for every
    agent, also for those of the other adapter, whose own units are left alone. *)
Lemma other_adapters_are_missed :
  let sq := mkSqlite (fun _ k => (Ok (SetProvider "bob" provider_OpenAI bus_db), k)) (fun _ k => (Ok false, k)) in
  let systemctl (_ : history) (args : list string) :=
    if existsb (fun a => Str.HasPrefix a "tmux-tell-codex-mailman@") args
    then (EmptyString, Some (ErrMsg "never asked")) else (EmptyString, None) in
  match fst (demo_migrate sq systemctl (fun _ => false) old_path old_disk) with
  | Go (Done res, _) => mg_AgentsStopped res = 3 /\ mg_AgentsStarted res = 3
  | _ => False
  end.
Proof. vm_compute. split; reflexivity. Qed.
