(* ===== verification/Health.v ===== *)
(** * What the log of a mailman says (internal/healthscan, internal/cli: health.go,
      status.go)

    The counters of the health report are read back from the lines of the journal, with
    the regular expressions written out.  The journal, systemctl and the local zone are
    parameters. *)

From stdpp Require Import gmap sorting.
From S2P Require Import Prelude GoStd Clock StoreTypes Messages Agents Queries TmuxIO ObserveGate Mailman ServeDemo Alone Window Send SendDemo Upkeep Views Stats.

Open Scope Z_scope.
Open Scope tell_scope.

Record AgentHealth : Type := mkHealth {
  ah_Name : string;
  ah_Delivered : Z;
  ah_DeliveredInInputBox : Z;
  ah_DeliveredUnverified : Z;
  ah_Failed : Z;
  ah_QuietCapExceeded : Z;
  ah_DriftAmbiguous : Z;
  ah_DriftUnrecoverable : Z;
  ah_DeliverP50Ms : Z;
  ah_DeliverP95Ms : Z;
  ah_DeliverP99Ms : Z;
  ah_CrashCount : Z
}.

Definition no_health (name : string) : AgentHealth := mkHealth name 0 0 0 0 0 0 0 0 0 0 0.

(** ** The regular expressions *)

(** A pattern in which [d] is a digit: the text it matches at the front, and the rest. *)
Fixpoint like (pattern s : string) : option (string * string) :=
  match pattern with
  | EmptyString => Some (EmptyString, s)
  | String p pattern' =>
      match s with
      | EmptyString => None
      | String a s' =>
          if if bool_decide (p = "d"%char) then Str.is_digit a else bool_decide (a = p)
          then match like pattern' s' with Some (t, r) => Some (String a t, r) | None => None end
          else None
      end
  end.

Fixpoint fraction_digits (s : string) : string * string :=
  match s with
  | String a s' => if Str.is_digit a then let (n, r) := fraction_digits s' in (String a n, r) else (EmptyString, s)
  | EmptyString => (EmptyString, EmptyString)
  end.

(** [(\d{4}/\d{2}/\d{2} \d{2}:\d{2}:\d{2}(?:\.\d+)?)] at the front. *)
Definition stamp_here (s : string) : option (string * string) :=
  match like "dddd/dd/dd dd:dd:dd" s with
  | None => None
  | Some (t, r) =>
      match r with
      | String a r' =>
          if bool_decide (a = "."%char) then
            let (n, rest) := fraction_digits r' in
            if str_empty n then Some (t, r) else Some (t +:+ "." +:+ n, rest)
          else Some (t, r)
      | EmptyString => Some (t, r)
      end
  end.

(** [\s]. *)
Definition re_space (a : ascii) : bool :=
  existsb (Nat.eqb (Ascii.nat_of_ascii a)) [9; 10; 12; 13; 32]%nat.

Fixpoint word_run (s : string) : string :=
  match s with
  | String a s' => if re_space a then EmptyString else String a (word_run s')
  | EmptyString => EmptyString
  end.

(** The stamp, then " verb id=" and a word. *)
Definition entry_here (verb s : string) : option (string * string) :=
  match stamp_here s with
  | None => None
  | Some (t, r) =>
      match Str.CutPrefix r (" " +:+ verb +:+ " id=") with
      | None => None
      | Some r' => let id := word_run r' in if str_empty id then None else Some (t, id)
      end
  end.

(** [FindStringSubmatch]: the leftmost match. *)
Fixpoint find_entry (verb s : string) : option (string * string) :=
  match entry_here verb s with
  | Some m => Some m
  | None => match s with EmptyString => None | String _ s' => find_entry verb s' end
  end.

Definition reDelivering : string -> option (string * string) := find_entry "delivering".
Definition reDelivered : string -> option (string * string) := find_entry "delivered".

Definition reUnverified (line : string) : bool := Str.Contains line "WARN delivered_in_input_box".
Definition reFailed (line : string) : bool := Str.Contains line "deliver_failed".
Definition reQuietCapExceeded (line : string) : bool := Str.Contains line "WARN quiet_cap_exceeded".
Definition reDriftAmbiguous (line : string) : bool := Str.Contains line "WARN drift_check_ambiguous".
Definition reDriftUnrecoverable (line : string) : bool := Str.Contains line "WARN drift_detected_unrecoverable".

(** ** The time of a line *)

(** A fraction of a second in nanoseconds: six digits after the point, or any number of
    digits or none. *)
Definition fraction_ns (six : bool) (f : string) : option Z :=
  match f with
  | EmptyString => if six then None else Some 0
  | String p ds =>
      if bool_decide (p = "."%char) && (bool_decide (String.length ds = 6%nat) || negb six && negb (str_empty ds)) then
        match Str.digits_acc 0 ds with
        | None => None
        | Some _ => let kept := Str.take 9 ds in
                    option_map (fun n => n * 10 ^ (9 - Z.of_nat (String.length kept))) (Str.digits_acc 0 kept)
        end
      else None
  end.

(** The wall clock of a stamp, as if it were UTC. *)
Definition parse_wall (six : bool) (s : string) : option Z :=
  if literal 4 "/" s && literal 7 "/" s && literal 10 " " s && literal 13 ":" s && literal 16 ":" s then
    match field 0 4 s, field 5 2 s, field 8 2 s, field 11 2 s, field 14 2 s, field 17 2 s, fraction_ns six (Str.drop 19 s) with
    | Some y, Some m, Some d, Some hh, Some mi, Some ss, Some ns =>
        if (1 <=? m) && (m <=? 12) && (1 <=? d) && (d <=? days_in_month y m) && (hh <? 24) && (mi <? 60) && (ss <? 60)
        then Some ((days_from_civil y m d * 86400 + hh * 3600 + mi * 60 + ss) * Time.Second + ns)
        else None
    | _, _, _, _, _, _, _ => None
    end
  else None.

(** [Time.Sub] stays within the durations. *)
Definition sub_times (t u : Z) : Z := Z.max (- 2 ^ 63) (Z.min (2 ^ 63 - 1) (t - u)).

Definition milliseconds (d : Z) : Z := Z.quot d Time.Millisecond.

Definition percentileMs (ds : list Z) (p : Z) : Z :=
  match ds with
  | [] => 0
  | [d] => milliseconds d
  | _ => milliseconds (nth (Z.to_nat (rank_of p (Z.of_nat (length ds)) - 1)) (merge_sort Z.le ds) 0)
  end.

Section Journal.
(** The instant of a wall clock in the local zone. *)
Context (local_instant : Z -> Z).

Definition parseGoLogTime (s : string) : option Z :=
  match parse_wall true s with
  | Some w => Some (local_instant w)
  | None => option_map local_instant (parse_wall false s)
  end.

(** The lines so far: the counters, the deliveries under way, the delays. *)
Record tally : Type := mkTally {
  ty_Health : AgentHealth;
  ty_DeliveringAt : gmap string Z;
  ty_Durations : list Z
}.

(** The first class that fits. *)
Definition count_class (line : string) (h : AgentHealth) : AgentHealth :=
  let add box failed quiet ambiguous lost :=
    mkHealth (ah_Name h) (ah_Delivered h) (ah_DeliveredInInputBox h + box) (ah_DeliveredUnverified h + box)
      (ah_Failed h + failed) (ah_QuietCapExceeded h + quiet) (ah_DriftAmbiguous h + ambiguous)
      (ah_DriftUnrecoverable h + lost) (ah_DeliverP50Ms h) (ah_DeliverP95Ms h) (ah_DeliverP99Ms h) (ah_CrashCount h) in
  if reUnverified line then add 1 0 0 0 0
  else if reFailed line then add 0 1 0 0 0
  else if reQuietCapExceeded line then add 0 0 1 0 0
  else if reDriftAmbiguous line then add 0 0 0 1 0
  else if reDriftUnrecoverable line then add 0 0 0 0 1
  else h.

Definition see_delivering (line : string) (t : tally) : tally :=
  match reDelivering line with
  | None => t
  | Some (stamp, id) =>
      match parseGoLogTime stamp with
      | Some at_ => mkTally (ty_Health t) (<[id := at_]> (ty_DeliveringAt t)) (ty_Durations t)
      | None => t
      end
  end.

Definition add_delivered (h : AgentHealth) : AgentHealth :=
  mkHealth (ah_Name h) (ah_Delivered h + 1) (ah_DeliveredInInputBox h) (ah_DeliveredUnverified h) (ah_Failed h)
    (ah_QuietCapExceeded h) (ah_DriftAmbiguous h) (ah_DriftUnrecoverable h) (ah_DeliverP50Ms h) (ah_DeliverP95Ms h)
    (ah_DeliverP99Ms h) (ah_CrashCount h).

Definition see_delivered (line : string) (t : tally) : tally :=
  match reDelivered line with
  | None => t
  | Some (stamp, id) =>
      let h := add_delivered (ty_Health t) in
      match parseGoLogTime stamp, ty_DeliveringAt t !! id with
      | Some at_, Some start => mkTally h (delete id (ty_DeliveringAt t)) (ty_Durations t ++ [sub_times at_ start])
      | _, _ => mkTally h (ty_DeliveringAt t) (ty_Durations t)
      end
  end.

Definition count_line (t : tally) (line : string) : tally :=
  see_delivered line (see_delivering line (mkTally (count_class line (ty_Health t)) (ty_DeliveringAt t) (ty_Durations t))).

Definition with_percentiles (h : AgentHealth) (ds : list Z) : AgentHealth :=
  match ds with
  | [] => h
  | _ => mkHealth (ah_Name h) (ah_Delivered h) (ah_DeliveredInInputBox h) (ah_DeliveredUnverified h) (ah_Failed h)
           (ah_QuietCapExceeded h) (ah_DriftAmbiguous h) (ah_DriftUnrecoverable h)
           (percentileMs ds 50) (percentileMs ds 95) (percentileMs ds 99) (ah_CrashCount h)
  end.

Definition classifyLines (lines : list string) (h : AgentHealth) : AgentHealth :=
  let t := foldl count_line (mkTally h ∅ []) lines in with_percentiles (ty_Health t) (ty_Durations t).

(** ** The readers *)

Context (systemctl : history -> list string -> result string) (journalctl : history -> string -> Z -> result string).

(** The lines a scanner yields. *)
Definition scanned_lines (s : string) : list string :=
  let ls := Str.Lines s in
  map (fun l => Str.TrimSuffix l (String (Ascii.ascii_of_nat 13) EmptyString))
    (match last ls with Some EmptyString => removelast ls | _ => ls end).

Definition show_line (out : gmap string string) (line : string) : gmap string string :=
  match Str.Cut "=" line with
  | Some (k, v) => if str_empty k then out else <[k := v]> out
  | None => out
  end.

Definition parseShowOutput (s : string) : gmap string string := foldl show_line ∅ (scanned_lines s).

Definition ShowUnit (unit prop : string) : M (result (gmap string string)) :=
  out <! ask "systemctl" (fun _ h => systemctl h ["--user"; "show"; unit; "--property=" +:+ prop]) ;;
  go (match out with
      | Err e => Err (ErrWrap ("systemctl show " +:+ unit +:+ ": " +:+ error_text e) e)
      | Ok s => Ok (parseShowOutput s)
      end).

Definition ReadLines (unit : string) (since : Z) : M (result (list string)) :=
  out <! ask "journalctl" (fun _ h => journalctl h unit since) ;;
  go (match out with
      | Err e => Err (ErrWrap ("journalctl " +:+ unit +:+ ": " +:+ error_text e) e)
      | Ok s => Ok (Str.Lines (Str.TrimRight s [nl_str]))
      end).

Definition crash_count (props : result (gmap string string)) : Z :=
  match props with
  | Ok ps => match Str.Atoi (default EmptyString (ps !! "NRestarts")) with Some v => v | None => 0 end
  | Err _ => 0
  end.

Definition with_crashes (h : AgentHealth) (n : Z) : AgentHealth :=
  mkHealth (ah_Name h) (ah_Delivered h) (ah_DeliveredInInputBox h) (ah_DeliveredUnverified h) (ah_Failed h)
    (ah_QuietCapExceeded h) (ah_DriftAmbiguous h) (ah_DriftUnrecoverable h) (ah_DeliverP50Ms h) (ah_DeliverP95Ms h)
    (ah_DeliverP99Ms h) n.

(** One agent, by the unit of its own adapter. *)
Definition scanOne (since : Z) (name : string) : M (result AgentHealth) :=
  unit <! unit_of name ;;
  props <! ShowUnit unit "NRestarts" ;;
  lines <! ReadLines unit since ;;
  go (match lines with
      | Err e => Err (ErrWrap ("journal: " +:+ error_text e) e)
      | Ok ls => Ok (classifyLines ls (with_crashes (no_health name) (crash_count props)))
      end).

Fixpoint Scan (since : Z) (agents : list string) : M (result (list AgentHealth)) :=
  match agents with
  | [] => go (Ok [])
  | name :: agents' =>
      r <! scanOne since name ;;
      match r with
      | Err e => go (Err (ErrWrap ("scan " +:+ name +:+ ": " +:+ error_text e) e))
      | Ok h => rs <! Scan since agents' ;; go (match rs with Err e => Err e | Ok hs => Ok (h :: hs) end)
      end
  end.

(** ** The commands *)

Definition runHealthCLI (args : list string) (since : Z) (format : string) : M (outcome (list AgentHealth)) :=
  n <! (match args with
        | [] => l <! store_read "ListAgents" ListAgents ;;
                go (match l with Err e => Err e | Ok agents => Ok (map a_name agents) end)
        | _ => go (Ok args)
        end) ;;
  match n with
  | Err e => go (Failed ("list agents: " +:+ error_text e) exitInternal)
  | Ok [] => go (Failed "no agents to scan; pass AGENT args or register at least one" exitUsage)
  | Ok names =>
      now <! lift time_Now ;;
      out <! Scan (now - since) names ;;
      match out with
      | Err e => go (Failed ("health scan: " +:+ error_text e) exitInternal)
      | Ok hs => if bool_decide (format ∈ ["json"; "text"; EmptyString]) then go (Done hs)
                 else go (Failed (unknown_format format) exitUsage)
      end
  end.

(** A row of the status with what happened today. *)
Record todayStatus : Type := mkToday {
  td_Status : agentStatus;
  td_Today : option AgentHealth;
  td_TodayVerified : option VerificationCounts
}.

Context (midnight : Z -> Z -> Z).

Definition SinceMidnight (now : Z) : Z := midnight now 0.

(** A scan or a count that fails leaves its part out. *)
Definition today_block (rows : list agentStatus) : M (list todayStatus) :=
  now <! lift time_Now ;;
  s <! Scan (SinceMidnight now) (map st_Name rows) ;;
  v <! store_read "VerificationCountsByAgent" (VerificationCountsByAgent (Since (SinceMidnight now))) ;;
  let health i := match s with Ok hs => if bool_decide (length hs = length rows) then hs !! i else None | Err _ => None end in
  let verified r := match v with Ok vca => vca !! st_Name r | Err _ => None end in
  go (imap (fun i r => mkToday r (health i) (verified r)) rows).

Definition runStatusToday (format : string) (includeToday : bool) : M (outcome (list todayStatus)) :=
  r <! mcpStatus ;;
  match r with
  | Err e => fail e exitInternal
  | Ok rows =>
      ts <! (if includeToday then today_block rows else go (map (fun r => mkToday r None None) rows)) ;;
      if bool_decide (format ∈ ["json"; "text"; EmptyString]) then go (Done ts)
      else go (Failed (unknown_format format) exitUsage)
  end.
End Journal.

(** ** Their text *)

Definition health_cells (r : AgentHealth) : list string :=
  ah_Name r :: map Str.itoa [ah_Delivered r; ah_DeliveredInInputBox r; ah_Failed r; ah_QuietCapExceeded r;
    ah_DriftAmbiguous r; ah_DriftUnrecoverable r; ah_CrashCount r; ah_DeliverP50Ms r; ah_DeliverP95Ms r; ah_DeliverP99Ms r].

Definition health_notes (r : AgentHealth) : list string :=
  let note (b : bool) (s : string) := if b then ["  " +:+ ah_Name r +:+ " — " +:+ s] else [] in
  note (0 <? ah_DeliveredInInputBox r) (Str.itoa (ah_DeliveredInInputBox r) +:+
    " delivered_in_input_box (paste+Enter ran but verify token didn't surface; message sits in recipient's input box pending submit)") ++
  note (0 <? ah_Failed r) (Str.itoa (ah_Failed r) +:+ " delivery failures (grep journalctl for details)") ++
  note (0 <? ah_QuietCapExceeded r) (Str.itoa (ah_QuietCapExceeded r) +:+
    " quiet_cap_exceeded (probe-and-watch hit MaxWait; rare post-#52 unless operator was typing the full window)") ++
  note ((0 <? ah_DriftAmbiguous r) || (0 <? ah_DriftUnrecoverable r))
    ("drift events (" +:+ Str.itoa (ah_DriftAmbiguous r) +:+ " ambiguous, " +:+ Str.itoa (ah_DriftUnrecoverable r) +:+
     " unrecoverable); use the WARN-line recipe to disambiguate") ++
  note (5 <? ah_CrashCount r) (Str.itoa (ah_CrashCount r) +:+ " crashes (review systemd state + watchdog timing)").

(** The window of the header is the text of a duration. *)
Definition renderHealthText (rows : list AgentHealth) (window : string) : list string :=
  ["HEALTH SCAN (last " +:+ window +:+ ")"; EmptyString] ++
  renderTextTable ["NAME"; "DELIVERED"; "UNVERIFIED"; "FAILED"; "CAPHIT"; "DRIFT_AMB"; "DRIFT_UNREC"; "CRASHES"; "P50ms"; "P95ms"; "P99ms"]
    (map health_cells rows) ++
  match concat (map health_notes rows) with [] => [] | notes => [EmptyString; "NOTES:"] ++ notes end.

Definition today_cells (r : todayStatus) : list string :=
  match td_Today r with
  | None => st_Name (td_Status r) :: repeat "-" 8
  | Some h =>
      let v := default no_verification (td_TodayVerified r) in
      st_Name (td_Status r) :: map Str.itoa [vc_Verified v + vc_Unverified v + vc_Unknown v; vc_Unverified v; vc_Unknown v;
        ah_Failed h; ah_QuietCapExceeded h; ah_CrashCount h; ah_DeliverP50Ms h; ah_DeliverP99Ms h]
  end.

Definition renderTodayBlock (rows : list todayStatus) : list string :=
  if existsb (fun r => match td_Today r with Some _ => true | None => false end) rows then
    [EmptyString; "TODAY (since 00:00 local):"] ++
    renderTextTable ["NAME"; "DELIVERED"; "IN-INPUT-BOX"; "PRE-MARKER"; "FAILED"; "CAPHIT"; "CRASHES"; "P50ms"; "P99ms"]
      (map today_cells rows)
  else [].

Definition status_cells (r : agentStatus) : list string :=
  [st_Name r; yesNo (st_Paused r); Str.itoa (st_Queued r); Str.itoa (st_Delivering r); Str.itoa (st_Delivered r);
   Str.itoa (st_Failed r); st_OldestQueuedAge r].

Definition renderStatusText (rows : list todayStatus) (includeToday : bool) : list string :=
  renderTextTable ["NAME"; "PAUSED"; "QUEUED"; "DELIVERING"; "DELIVERED"; "FAILED"; "OLDEST"]
    (map (fun r => status_cells (td_Status r)) rows) ++
  (if includeToday then renderTodayBlock rows else []).

(** * The report is what the log says

    Every counter is the number of the lines it stands for, every delay the time since
    the delivery began, and the lines of a mailman are read back. *)

(** ** Delays, looking back *)

Section Delays.
Context (local_instant : Z -> Z).

Notation time_of := (parseGoLogTime local_instant).

(** The instant and the id of an entry. *)
Definition timed_entry (entry : option (string * string)) : option (string * Z) :=
  match entry with Some (stamp, id) => option_map (fun t => (id, t)) (time_of stamp) | None => None end.

(** Since when a delivery is under way, from the lines before, the latest first. *)
Fixpoint since_when (id : string) (past : list string) : option Z :=
  match past with
  | [] => None
  | line :: past' =>
      if bool_decide (option_map fst (timed_entry (reDelivered line)) = Some id) then None
      else match timed_entry (reDelivering line) with
           | Some (id', t) => if bool_decide (id' = id) then Some t else since_when id past'
           | None => since_when id past'
           end
  end.

Definition begun (id line : string) (past : list string) : option Z :=
  match timed_entry (reDelivering line) with
  | Some (id', t) => if bool_decide (id' = id) then Some t else since_when id past
  | None => since_when id past
  end.

(** The delay a line ends. *)
Definition delay_at (line : string) (past : list string) : list Z :=
  match timed_entry (reDelivered line) with
  | Some (id, t) => match begun id line past with Some start => [sub_times t start] | None => [] end
  | None => []
  end.

Fixpoint delays_after (past lines : list string) : list Z :=
  match lines with [] => [] | line :: rest => delay_at line past ++ delays_after (line :: past) rest end.

(** The deliveries under way are those that began and did not end. *)
Definition follows (past : list string) (t : tally) : Prop := forall id, ty_DeliveringAt t !! id = since_when id past.

Lemma see_delivering_begun line past t : follows past t -> forall id,
  ty_DeliveringAt (see_delivering local_instant line t) !! id = begun id line past.
Proof.
  intros H id. unfold see_delivering, begun, timed_entry. destruct (reDelivering line) as [[stamp id']|]; [|apply H].
  destruct (time_of stamp) as [at_|]; [|apply H]. cbn [option_map ty_DeliveringAt].
  destruct (decide (id' = id)) as [->|Hne]; [by rewrite lookup_insert_eq, bool_decide_true|].
  rewrite lookup_insert_ne, bool_decide_false by done. apply H.
Qed.

Lemma count_line_follows line past t : follows past t ->
  follows (line :: past) (count_line local_instant t line) /\
  ty_Durations (count_line local_instant t line) = ty_Durations t ++ delay_at line past.
Proof.
  intros H. unfold count_line. set (t0 := mkTally _ _ _).
  assert (follows past t0) as H0 by exact H.
  pose proof (see_delivering_begun line past t0 H0) as Hb.
  assert (ty_Durations (see_delivering local_instant line t0) = ty_Durations t) as Hd.
  { unfold see_delivering. by repeat case_match. }
  revert Hb Hd. generalize (see_delivering local_instant line t0) as t1. intros t1 Hb Hd.
  unfold see_delivered, delay_at, follows. cbn [since_when].
  destruct (reDelivered line) as [[stamp id']|] eqn:Er; cbn [timed_entry option_map].
  2:{ split; [|by rewrite app_nil_r]. intros id. rewrite Hb. by rewrite bool_decide_false. }
  destruct (time_of stamp) as [at_|] eqn:Et; cbn [option_map].
  2:{ split; [|by rewrite app_nil_r]. intros id. rewrite bool_decide_false by done. apply Hb. }
  cbn [fst]. rewrite (Hb id'). destruct (begun id' line past) as [start|] eqn:Es.
  - cbn [ty_DeliveringAt ty_Durations]. rewrite Hd. split; [|done]. intros id.
    destruct (decide (id' = id)) as [->|Hne]; [by rewrite lookup_delete_eq, bool_decide_true|].
    rewrite lookup_delete_ne, Hb, bool_decide_false by congruence. done.
  - cbn [ty_DeliveringAt ty_Durations]. rewrite Hd, app_nil_r. split; [|done]. intros id. rewrite Hb.
    destruct (decide (id' = id)) as [->|Hne]; [by rewrite bool_decide_true|]. by rewrite bool_decide_false by congruence.
Qed.

Lemma delays_read lines : forall past t, follows past t ->
  ty_Durations (foldl (count_line local_instant) t lines) = ty_Durations t ++ delays_after past lines.
Proof.
  induction lines as [|line rest IH]; intros past t H; cbn [foldl delays_after]; [by rewrite app_nil_r|].
  destruct (count_line_follows line past t H) as [H1 H2]. by rewrite (IH (line :: past) _ H1), H2, app_assoc.
Qed.

(** ** Counters *)

Definition is_box : string -> bool := reUnverified.
Definition is_failed (l : string) : bool := reFailed l && negb (is_box l).
Definition is_quiet (l : string) : bool := reQuietCapExceeded l && negb (is_box l || reFailed l).
Definition is_ambiguous (l : string) : bool := reDriftAmbiguous l && negb (is_box l || reFailed l || reQuietCapExceeded l).
Definition is_lost (l : string) : bool :=
  reDriftUnrecoverable l && negb (is_box l || reFailed l || reQuietCapExceeded l || reDriftAmbiguous l).
Definition is_delivered (l : string) : bool := match reDelivered l with Some _ => true | None => false end.

(** The counters that were there, and those of the lines. *)
Definition counted_on (h : AgentHealth) (lines : list string) : AgentHealth :=
  mkHealth (ah_Name h) (ah_Delivered h + cnt is_delivered lines) (ah_DeliveredInInputBox h + cnt is_box lines)
    (ah_DeliveredUnverified h + cnt is_box lines) (ah_Failed h + cnt is_failed lines)
    (ah_QuietCapExceeded h + cnt is_quiet lines) (ah_DriftAmbiguous h + cnt is_ambiguous lines)
    (ah_DriftUnrecoverable h + cnt is_lost lines) (ah_DeliverP50Ms h) (ah_DeliverP95Ms h) (ah_DeliverP99Ms h) (ah_CrashCount h).

Lemma health_eta h : h = mkHealth (ah_Name h) (ah_Delivered h) (ah_DeliveredInInputBox h) (ah_DeliveredUnverified h) (ah_Failed h)
  (ah_QuietCapExceeded h) (ah_DriftAmbiguous h) (ah_DriftUnrecoverable h) (ah_DeliverP50Ms h) (ah_DeliverP95Ms h)
  (ah_DeliverP99Ms h) (ah_CrashCount h).
Proof. by destruct h. Qed.

Lemma count_class_spec line h : count_class line h =
  mkHealth (ah_Name h) (ah_Delivered h) (ah_DeliveredInInputBox h + one (is_box line))
    (ah_DeliveredUnverified h + one (is_box line)) (ah_Failed h + one (is_failed line))
    (ah_QuietCapExceeded h + one (is_quiet line)) (ah_DriftAmbiguous h + one (is_ambiguous line))
    (ah_DriftUnrecoverable h + one (is_lost line)) (ah_DeliverP50Ms h) (ah_DeliverP95Ms h) (ah_DeliverP99Ms h) (ah_CrashCount h).
Proof.
  unfold count_class, is_failed, is_quiet, is_ambiguous, is_lost, is_box.
  destruct (reUnverified line), (reFailed line), (reQuietCapExceeded line), (reDriftAmbiguous line), (reDriftUnrecoverable line);
    cbn [negb andb orb one]; rewrite ?Z.add_0_r; try done; by rewrite <- health_eta.
Qed.

Lemma line_health line t : ty_Health (count_line local_instant t line) =
  let h := count_class line (ty_Health t) in if is_delivered line then add_delivered h else h.
Proof.
  unfold count_line, see_delivered, is_delivered. set (t0 := mkTally _ _ _).
  assert (ty_Health (see_delivering local_instant line t0) = count_class line (ty_Health t)) as E.
  { unfold see_delivering. by repeat case_match. }
  rewrite <- E. destruct (reDelivered line) as [[stamp id]|]; [|done].
  destruct (time_of stamp); [|done]. by destruct (ty_DeliveringAt (see_delivering local_instant line t0) !! id).
Qed.

Lemma counters_read lines : forall t,
  ty_Health (foldl (count_line local_instant) t lines) = counted_on (ty_Health t) lines.
Proof.
  induction lines as [|line rest IH]; intros t; cbn [foldl].
  - unfold counted_on, cnt. simpl. rewrite !Z.add_0_r. by rewrite <- health_eta.
  - rewrite IH, line_health. cbv zeta. rewrite count_class_spec. unfold counted_on. rewrite !cnt_cons, !Z.add_assoc.
    destruct (is_delivered line); cbn [one add_delivered ah_Name ah_Delivered ah_DeliveredInInputBox ah_DeliveredUnverified
      ah_Failed ah_QuietCapExceeded ah_DriftAmbiguous ah_DriftUnrecoverable ah_DeliverP50Ms ah_DeliverP95Ms ah_DeliverP99Ms
      ah_CrashCount]; by rewrite ?Z.add_0_r.
Qed.
End Delays.

(** ** Percentiles agree *)

Lemma milliseconds_mono a b : a <= b -> milliseconds a <= milliseconds b.
Proof. intros H. unfold milliseconds. apply Z.quot_le_mono; [done|lia]. Qed.

Lemma sorted_map f l : (forall a b : Z, a <= b -> f a <= f b) -> Sorted.StronglySorted Z.le l -> Sorted.StronglySorted Z.le (map f l).
Proof.
  intros Hf. induction 1 as [|x l Hs IH Hx]; simpl; [constructor|]. constructor; [done|].
  rewrite Forall_forall in *. intros y (z & -> & Hz)%list_elem_of_fmap. by apply Hf, Hx.
Qed.

(** Sorting and then scaling is scaling and then sorting. *)
Lemma sort_map f l : (forall a b : Z, a <= b -> f a <= f b) -> map f (merge_sort Z.le l) = merge_sort Z.le (map f l).
Proof.
  intros Hf. apply (StronglySorted_unique Z.le).
  - apply sorted_map; [done|]. apply StronglySorted_merge_sort; apply _.
  - apply StronglySorted_merge_sort; apply _.
  - rewrite (merge_sort_Permutation Z.le (map f l)). by rewrite merge_sort_Permutation.
Qed.

Lemma percentileMs_agrees ds p : percentileMs ds p = percentile (map milliseconds ds) p.
Proof.
  unfold percentile. rewrite length_map, <- (sort_map milliseconds) by apply milliseconds_mono.
  assert (forall n l, nth n (map milliseconds l) 0 = milliseconds (nth n l 0)) as -> by (intros n l; exact (map_nth milliseconds l 0 n)).
  destruct ds as [|d [|d' ds]]; [by destruct (Z.to_nat _)| |done].
  cbn [percentileMs length]. replace (Z.to_nat (rank_of p (Z.of_nat 1) - 1)) with 0%nat; [done|].
  unfold rank_of. change (Z.of_nat 1) with 1. lia.
Qed.

(** ** The lines of a mailman *)

(** The header the logger of [serve] writes: the prefix, then the wall clock in
    microseconds. *)
Definition micro_of (w : Z) : Z := w / 1000 mod 1000000.

Definition stamp_text (y m d hh mi ss us : Z) : string :=
  fixed 4 y +:+ ("/" +:+ (fixed 2 m +:+ ("/" +:+ (fixed 2 d +:+ (" " +:+ (fixed 2 hh +:+ (":" +:+
    (fixed 2 mi +:+ (":" +:+ (fixed 2 ss +:+ ("." +:+ fixed 6 us))))))))))).

Definition stamp_of (w : Z) : string :=
  let '(y, m, d) := Time.civil_from_days (day_no w) in
  stamp_text y m d (hour_of w) (minute_of w) (second_of w) (micro_of w).

Definition log_line (agent : string) (w : Z) (text : string) : string :=
  ("[mailman/" +:+ agent +:+ "] ") +:+ (stamp_of w +:+ (" " +:+ text)).

Lemma parse_stamp_text y m d hh mi ss us :
  0 <= y < 10000 -> 1 <= m <= 12 -> 1 <= d <= days_in_month y m -> d < 100 -> 0 <= hh < 24 -> 0 <= mi < 60 ->
  0 <= ss < 60 -> 0 <= us < 1000000 ->
  parse_wall true (stamp_text y m d hh mi ss us) =
    Some ((days_from_civil y m d * 86400 + hh * 3600 + mi * 60 + ss) * Time.Second + us * 1000).
Proof.
  intros Hy Hm Hd Hd' Hh Hmi Hss Hus. unfold parse_wall, field.
  change (Str.take 4 (Str.drop 0 (stamp_text y m d hh mi ss us))) with (fixed 4 y).
  change (Str.take 2 (Str.drop 5 (stamp_text y m d hh mi ss us))) with (fixed 2 m).
  change (Str.take 2 (Str.drop 8 (stamp_text y m d hh mi ss us))) with (fixed 2 d).
  change (Str.take 2 (Str.drop 11 (stamp_text y m d hh mi ss us))) with (fixed 2 hh).
  change (Str.take 2 (Str.drop 14 (stamp_text y m d hh mi ss us))) with (fixed 2 mi).
  change (Str.take 2 (Str.drop 17 (stamp_text y m d hh mi ss us))) with (fixed 2 ss).
  change (Str.drop 19 (stamp_text y m d hh mi ss us)) with ("." +:+ fixed 6 us).
  rewrite !field_fixed by (simpl Z.of_nat; lia).
  assert (fraction_ns true ("." +:+ fixed 6 us) = Some (us * 1000)) as ->.
  { change (fraction_ns true ("." +:+ fixed 6 us)) with
      (match Str.digits_acc 0 (fixed 6 us) with
       | None => None
       | Some _ => option_map (fun n => n * 10 ^ (9 - Z.of_nat 6)) (Str.digits_acc 0 (fixed 6 us))
       end).
    rewrite !field_fixed by (simpl Z.of_nat; lia). done. }
  change (literal 4 "/" (stamp_text y m d hh mi ss us)) with true.
  change (literal 7 "/" (stamp_text y m d hh mi ss us)) with true.
  change (literal 10 " " (stamp_text y m d hh mi ss us)) with true.
  change (literal 13 ":" (stamp_text y m d hh mi ss us)) with true.
  change (literal 16 ":" (stamp_text y m d hh mi ss us)) with true.
  simpl andb.
  destruct (_ && _) eqn:E; [done|]. exfalso. revert E. apply not_false_iff_true.
  rewrite !andb_true_iff, !Z.leb_le, !Z.ltb_lt. lia.
Qed.

(** The wall clock comes back to the microsecond. *)
Lemma stamp_parsed w : instant w -> parse_wall true (stamp_of w) = Some (w / 1000 * 1000).
Proof.
  intros Hw. destruct (instant_fields w Hw) as (Hd & Hh & Hmi & Hs & Hms & E).
  destruct (civil_shape _ Hd) as (yy & doy & Hsh). apply shape_back in Hsh. unfold stamp_of.
  destruct (Time.civil_from_days (day_no w)) as [[y m] d]. destruct Hsh as (Hy & Hm & Hdd & Hd32 & Ec).
  rewrite parse_stamp_text by (try lia; unfold micro_of; apply Z.mod_pos_bound; lia).
  f_equal. rewrite Ec. clear - E Hms Hw. unfold micro_of, Time.Second.
  assert (second_of w * 1000 + milli_of w + (day_no w * 86400000 + hour_of w * 3600000 + minute_of w * 60000) = ms_of w) as E'
    by lia.
  assert (w / 1000 / 1000 = ms_of w) as E1 by (unfold ms_of, Time.Millisecond; rewrite Z.div_div by lia; done).
  assert (ms_of w mod 1000 = milli_of w) as E2 by (rewrite E; dlia).
  assert (0 <= w / 1000) as H0 by (apply Z.div_pos; unfold instant in Hw; lia).
  revert E1. generalize (w / 1000) H0. intros q Hq E1. dlia.
Qed.

(** The front of such a line is where the entry is found. *)
Lemma digit_is n : Str.is_digit (digit n) = true.
Proof. by destruct (digit_val n). Qed.

Definition longer_match (a : ascii) (m : option (string * string)) : option (string * string) :=
  match m with Some (t, r) => Some (String a t, r) | None => None end.

Lemma like_d p s a : Str.is_digit a = true -> like (String "d" p) (String a s) = longer_match a (like p s).
Proof. intros H. cbn [like]. by rewrite bool_decide_true, H by done. Qed.

Lemma like_c p s c : c <> "d"%char -> like (String c p) (String c s) = longer_match c (like p s).
Proof. intros H. cbn [like]. by rewrite bool_decide_false, bool_decide_true by done. Qed.

Lemma fraction_digits_fixed w n rest : (forall a s, rest = String a s -> Str.is_digit a = false) ->
  fraction_digits (fixed w n +:+ rest) = (fixed w n, rest).
Proof.
  intros Hr. induction w as [|w IH]; cbn [fixed String.append].
  - destruct rest as [|a s]; [done|]. cbn [fraction_digits]. by rewrite (Hr a s eq_refl).
  - cbn [fraction_digits]. by rewrite digit_is, IH.
Qed.

Lemma stamp_found w rest : (forall a s, rest = String a s -> Str.is_digit a = false) ->
  stamp_here (stamp_of w +:+ rest) = Some (stamp_of w, rest).
Proof.
  intros Hr. unfold stamp_of. destruct (Time.civil_from_days (day_no w)) as [[y m] d].
  unfold stamp_here, stamp_text. rewrite !StrFacts.string_app_assoc. set (f := fixed 6 (micro_of w)). cbn [fixed String.append].
  repeat (first [rewrite like_d by apply digit_is | rewrite like_c by done]).
  cbn [like longer_match]. rewrite bool_decide_true by done.
  unfold f. rewrite (fraction_digits_fixed 6 (micro_of w) rest Hr). done.
Qed.

(** Nothing before it is. *)
Lemma not_in_name a2 q : (forall c, c ∈ String.list_ascii_of_string a2 -> c <> "/"%char) ->
  like "dddd/dd/dd dd:dd:dd" (a2 +:+ ("] " +:+ q)) = None.
Proof.
  assert (H : forall n s t p, (forall c, c ∈ String.list_ascii_of_string s -> c <> "/"%char) ->
    like (Str.Repeat "d" n +:+ ("/" +:+ p)) (s +:+ ("] " +:+ t)) = None).
  { induction n as [|n IH]; intros s t p Hs; destruct s as [|a s].
    - reflexivity.
    - change (like (String "/" p) (String a (s +:+ ("] " +:+ t))) = None). cbn [like]. rewrite bool_decide_false by done.
      rewrite bool_decide_false; [done|]. apply Hs. left.
    - reflexivity.
    - change (like (String "d" (Str.Repeat "d" n +:+ ("/" +:+ p))) (String a (s +:+ ("] " +:+ t))) = None). cbn [like].
      rewrite bool_decide_true by done. destruct (Str.is_digit a); [|done]. rewrite (IH s t p); [done|]. intros c Hc. apply Hs. by right. }
  intros Ha. exact (H 4%nat a2 q "dd/dd dd:dd:dd" Ha).
Qed.

Lemma entry_needs_stamp verb s : stamp_here s = None -> entry_here verb s = None.
Proof. unfold entry_here. by intros ->. Qed.

Lemma no_stamp s : like "dddd/dd/dd dd:dd:dd" s = None -> stamp_here s = None.
Proof. unfold stamp_here. by intros ->. Qed.

Lemma find_past_name verb a2 q : (forall c, c ∈ String.list_ascii_of_string a2 -> c <> "/"%char) ->
  find_entry verb (a2 +:+ ("] " +:+ q)) = find_entry verb q.
Proof.
  induction a2 as [|c a2 IH]; intros Ha.
  - change (find_entry verb (String "]" (String " " q)) = find_entry verb q). cbn [find_entry].
    by rewrite !entry_needs_stamp by (by apply no_stamp).
  - change (String c a2 +:+ ("] " +:+ q)) with (String c (a2 +:+ ("] " +:+ q))) at 1. cbn [find_entry].
    rewrite entry_needs_stamp; [apply IH; intros x Hx; apply Ha; by right|].
    apply no_stamp. exact (not_in_name (String c a2) q Ha).
Qed.

(** Every line of the mailman of [agent] that names a verb and an id is read back. *)
Lemma line_read_back verb agent w id rest :
  (forall c, c ∈ String.list_ascii_of_string agent -> c <> "/"%char) -> id <> EmptyString ->
  word_run (id +:+ rest) = id ->
  find_entry verb (log_line agent w (verb +:+ " id=" +:+ id +:+ rest)) = Some (stamp_of w, id).
Proof.
  intros Ha Hid Hw. unfold log_line. rewrite !StrFacts.string_app_assoc.
  set (q := stamp_of w +:+ _).
  change (find_entry verb (String "[" (String "m" (String "a" (String "i" (String "l" (String "m" (String "a" (String "n"
    (String "/" (agent +:+ ("] " +:+ q))))))))))) = Some (stamp_of w, id)). cbn [find_entry].
  rewrite !entry_needs_stamp by (by apply no_stamp). rewrite find_past_name by done.
  assert (entry_here verb q = Some (stamp_of w, id)) as E.
  { unfold entry_here, q. rewrite stamp_found by (intros a s [= <- _]; done).
    assert (Str.CutPrefix (" " +:+ (verb +:+ (" id=" +:+ (id +:+ rest)))) (" " +:+ (verb +:+ " id=")) = Some (id +:+ rest)) as ->.
    { apply StrFacts.CutPrefix_Some. by rewrite !StrFacts.string_app_assoc. }
    rewrite Hw. by destruct id. }
  destruct q; cbn [find_entry]; by rewrite E.
Qed.

(** ** The scan *)

Section Scan.
Context (local_instant : Z -> Z) (systemctl : history -> list string -> result string)
  (journalctl : history -> string -> Z -> result string).

(** The report of an agent, from the journal of the unit of its own adapter. *)
Definition read_from (since : Z) (d : DB) (name : string) (h : AgentHealth) : Prop :=
  exists hist out,
    journalctl hist (mailmanUnit (fst (ProviderCapConfig name d)) name) since = Ok out /\
    let lines := Str.Lines (Str.TrimRight out [nl_str]) in
    let ds := map milliseconds (delays_after local_instant [] lines) in
    (* every line is in at most one class, and the counters are their numbers *)
    ah_Name h = name /\ ah_Delivered h = cnt is_delivered lines /\ ah_DeliveredInInputBox h = cnt is_box lines /\
    ah_DeliveredUnverified h = ah_DeliveredInInputBox h /\ ah_Failed h = cnt is_failed lines /\
    ah_QuietCapExceeded h = cnt is_quiet lines /\ ah_DriftAmbiguous h = cnt is_ambiguous lines /\
    ah_DriftUnrecoverable h = cnt is_lost lines /\
    (* the latencies are nearest ranks of the delays, or zero *)
    (ds <> [] -> nearest_rank 50 ds (ah_DeliverP50Ms h) /\ nearest_rank 95 ds (ah_DeliverP95Ms h) /\
                 nearest_rank 99 ds (ah_DeliverP99Ms h)) /\
    (ds = [] -> ah_DeliverP50Ms h = 0 /\ ah_DeliverP95Ms h = 0 /\ ah_DeliverP99Ms h = 0).

(** The lines that begin and end a delivery are found, with their id and their instant:
    the two verbs the scan looks for, and no other. *)
Definition entries_read_back : Prop :=
  forall agent w id rest, instant w ->
    (forall c, c ∈ String.list_ascii_of_string agent -> c <> "/"%char) -> id <> EmptyString -> word_run (id +:+ rest) = id ->
    timed_entry local_instant (reDelivering (log_line agent w ("delivering" +:+ " id=" +:+ id +:+ rest))) =
      Some (id, local_instant (w / 1000 * 1000)) /\
    timed_entry local_instant (reDelivered (log_line agent w ("delivered" +:+ " id=" +:+ id +:+ rest))) =
      Some (id, local_instant (w / 1000 * 1000)).

Lemma entries_are_read : entries_read_back.
Proof.
  intros agent w id rest Hw Ha Hid Hr. unfold reDelivering, reDelivered.
  split; (rewrite line_read_back by done; cbn [timed_entry]; unfold parseGoLogTime; by rewrite stamp_parsed).
Qed.

Lemma classify_read lines h name :
  let r := classifyLines local_instant lines (with_crashes (no_health name) h) in
  let ds := map milliseconds (delays_after local_instant [] lines) in
  r = mkHealth name (cnt is_delivered lines) (cnt is_box lines) (cnt is_box lines) (cnt is_failed lines) (cnt is_quiet lines)
        (cnt is_ambiguous lines) (cnt is_lost lines)
        (match ds with [] => 0 | _ => percentile ds 50 end) (match ds with [] => 0 | _ => percentile ds 95 end)
        (match ds with [] => 0 | _ => percentile ds 99 end) h.
Proof.
  cbv zeta. unfold classifyLines. set (t := mkTally (with_crashes (no_health name) h) ∅ []).
  assert (follows local_instant [] t) as H0 by (intros id; apply lookup_empty).
  rewrite (counters_read local_instant lines t), (delays_read local_instant lines [] t H0). cbn [ty_Durations t app].
  unfold with_percentiles, counted_on. cbn [ty_Health t with_crashes no_health ah_Name ah_Delivered ah_DeliveredInInputBox
    ah_DeliveredUnverified ah_Failed ah_QuietCapExceeded ah_DriftAmbiguous ah_DriftUnrecoverable ah_DeliverP50Ms
    ah_DeliverP95Ms ah_DeliverP99Ms ah_CrashCount].
  destruct (delays_after local_instant [] lines) as [|x l]; [done|]. by rewrite !percentileMs_agrees.
Qed.

Lemma scanOne_reads sw since name d : alone sw ->
  ends_in sw (scanOne local_instant systemctl journalctl since name) d
    (fun r d' => d' = d /\ match r with
       | Ok h => read_from since d name h
       | Err _ => exists hist e, journalctl hist (mailmanUnit (fst (ProviderCapConfig name d)) name) since = Err e
       end).
Proof.
  intros Ha. unfold scanOne.
  eapply ends_bind with (Q := fun u d' => u = mailmanUnit (fst (ProviderCapConfig name d)) name /\ d' = d).
  { eapply ends_bind with (Q := fun r d' => r = Ok (ProviderCapConfig name d) /\ d' = d); [by apply ends_read|].
    intros r d' [-> ->]. apply ends_go. split; [|done]. by destruct (ProviderCapConfig name d). }
  intros unit d1 [-> ->]. apply ends_aside.
  { apply ends_aside; [by apply ends_ask|]. intros out. by apply ends_go. }
  intros props. eapply ends_bind with (Q := fun r d' => d' = d /\ exists hist,
    r = match journalctl hist (mailmanUnit (fst (ProviderCapConfig name d)) name) since with
        | Err e => Err (ErrWrap ("journalctl " +:+ mailmanUnit (fst (ProviderCapConfig name d)) name +:+ ": " +:+ error_text e) e)
        | Ok s => Ok (Str.Lines (Str.TrimRight s [nl_str]))
        end).
  { eapply ends_bind with (Q := fun r d' => d' = d /\ exists hist, r = journalctl hist (mailmanUnit (fst (ProviderCapConfig name d)) name) since).
    - intros st E. eexists _, _. split; [reflexivity|]. split; [done|]. by eexists.
    - intros r d' [-> [hist ->]]. apply ends_go. split; [done|]. by exists hist. }
  intros r d' [-> [hist ->]]. apply ends_go. split; [done|].
  destruct (journalctl hist _ since) as [out|e] eqn:E; [|by exists hist, e].
  exists hist, out. split; [done|]. cbv zeta. rewrite classify_read. cbn [ah_Name ah_Delivered ah_DeliveredInInputBox
    ah_DeliveredUnverified ah_Failed ah_QuietCapExceeded ah_DriftAmbiguous ah_DriftUnrecoverable ah_DeliverP50Ms
    ah_DeliverP95Ms ah_DeliverP99Ms ah_CrashCount].
  do 8 (split; [done|]). split; [|by intros ->].
  intros Hne. destruct (map milliseconds _) as [|x l]; [done|]. split_and!; by apply percentile_nearest.
Qed.

(** C36: the health report is the log.  Run alone, a scan ends and writes nothing; it
    fails only when a journal cannot be read, and otherwise has one row per agent, in
    order, from the journal of the unit of the agent's own adapter: its counters are the
    numbers of the lines of each class.  Its latencies are nearest-rank percentiles, in the
    convention of the statistics and not interpolated as the comment of percentileMs has
    it, of the times from where a delivery last began to where it ended.  And a line
    the mailman's logger writes for "delivering" or "delivered" is read back with its id
    and its instant; a delivery logged under another verb ends nowhere for the scan. *)
Theorem health_reads_log sw since names d : alone sw ->
  entries_read_back /\
  ends_in sw (Scan local_instant systemctl journalctl since names) d
    (fun r d' => d' = d /\ match r with
       | Ok hs => Forall2 (read_from since d) names hs
       | Err _ => exists name hist e, name ∈ names /\
           journalctl hist (mailmanUnit (fst (ProviderCapConfig name d)) name) since = Err e
       end).
Proof.
  intros Ha. split; [exact entries_are_read|].
  induction names as [|name names IH]; cbn [Scan]; [by apply ends_go|].
  eapply ends_bind; [by apply scanOne_reads|]. intros [h|e] d' [-> H].
  - eapply ends_bind; [exact IH|]. intros [hs|e] d' [-> Hs]; apply ends_go; (split; [done|]); [by constructor|].
    destruct Hs as (n & hist & e' & Hn & Hj). exists n, hist, e'. split; [by right|done].
  - apply ends_go. split; [done|]. destruct H as (hist & e' & Hj). exists name, hist, e'. split; [by left|done].
Qed.
End Scan.

(** A delivery an operator's Enter submitted is not counted as delivered. *)
Example externally_submitted_uncounted :
  is_delivered "[mailman/bob] 2026/05/31 12:00:01.000000 WARN delivered_externally_submitted id=0001 — post-compact resume" = false.
Proof. reflexivity. Qed.

(** ** A concrete journal *)

Definition demo_log : string :=
  Str.Join
    ["Started the mailman.";
     "[mailman/bob] 2026/05/31 12:00:00.000000 delivering id=0001 kind=message from=alice body_bytes=5";
     "[mailman/bob] 2026/05/31 12:00:01.500000 delivered id=0001";
     "[mailman/bob] 2026/05/31 12:00:02.000000 delivering id=0002 kind=message from=alice body_bytes=5";
     "[mailman/bob] 2026/05/31 12:00:09.000000 WARN delivered_in_input_box id=0002 — pending submit";
     "[mailman/bob] 2026/05/31 12:01:00.000000 delivering id=0003 kind=message from=alice body_bytes=5";
     "[mailman/bob] 2026/05/31 12:01:01.000000 deliver_failed id=0003 err=no pane";
     "[mailman/bob] 2026/05/31 12:01:10.000000 delivering id=0003 kind=message from=alice body_bytes=5";
     "[mailman/bob] 2026/05/31 12:01:10.250000 delivered id=0003"] nl_str +:+ nl_str.

Definition demo_show (_ : history) (_ : list string) : result string := Ok ("Id=x" +:+ nl_str +:+ "NRestarts=2" +:+ nl_str).

Definition demo_journal (_ : history) (unit : string) (_ : Z) : result string :=
  if bool_decide (unit = "tmux-tell-claude-mailman@bob.service") then Ok demo_log else Ok EmptyString.

Definition demo_scan : flow (result (list AgentHealth)) * sstate := Scan id demo_show demo_journal 0 ["bob"; "carol"] bus bus_start.

Definition scanned_rows (r : flow (result (list AgentHealth)) * sstate) :=
  match fst r with
  | Go (Ok hs) => Some (map (fun h => (ah_Name h, ah_Delivered h, ah_DeliveredInInputBox h, ah_Failed h, ah_DeliverP50Ms h,
                                       ah_DeliverP95Ms h, ah_CrashCount h)) hs)
  | _ => None
  end.

Lemma health_reads_log_witness :
  (exists hs st', demo_scan = (Go (Ok hs), st') /\ s_db st' = bus_db /\
     Forall2 (read_from id demo_journal 0 bus_db) ["bob"; "carol"] hs) /\
  scanned_rows demo_scan = Some [("bob", 2, 1, 1, 250, 1500, 2); ("carol", 0, 0, 0, 0, 0, 2)].
Proof.
  assert (scanned_rows demo_scan = Some [("bob", 2, 1, 1, 250, 1500, 2); ("carol", 0, 0, 0, 0, 0, 2)]) as Hsc
    by (vm_compute; reflexivity).
  split; [|exact Hsc].
  assert (exists r st', demo_scan = (Go r, st') /\ s_db st' = bus_db /\ match r with
    | Ok hs => Forall2 (read_from id demo_journal 0 bus_db) ["bob"; "carol"] hs
    | Err _ => True
    end) as (r & st' & E & Ed & Hs).
  { pose proof (proj2 (health_reads_log id demo_show demo_journal bus 0 ["bob"; "carol"] bus_db bus_alone) bus_start eq_refl)
      as (r & st' & E & Ed & Hs).
    exists r, st'. split; [exact E|]. split; [exact Ed|]. destruct r; [exact Hs|exact I]. }
  rewrite E in Hsc |- *. destruct r as [hs|e]; [|discriminate Hsc]. exists hs, st'. split; [reflexivity|]. split; [exact Ed|exact Hs].
Defined.
