(* ===== verification/Opening.v ===== *)
(** * Opening the database file (internal/store/store.go, schema.sql)

    The file as tables of named columns, the statements of the schema and of the
    migrations as functions on it, and the two ways to open it.  Every command runs all
    of the migrations again, on the live file: they are proved to repair an old file, to
    be resumable after any failure, and to leave a repaired file alone. *)

From stdpp Require Import gmap.
From S2P Require Import Prelude GoStd StoreTypes.

Open Scope Z_scope.
Open Scope tell_scope.

(** ** The file *)

Inductive value : Type :=
  | VNull
  | VText (s : string)
  | VInt (n : Z).

#[global] Instance value_eq_dec : EqDecision value.
Proof. solve_decision. Defined.

(** A row: its rowid and its cells. *)
Definition row : Type := Z * gmap string value.

Record table : Type := mkTable {
  t_columns : list string;
  t_rows : list row
}.

(** The tables, and the names of the indexes. *)
Record file : Type := mkFile {
  f_tables : gmap string table;
  f_indexes : list string
}.

Definition new_file : file := mkFile ∅ [].

Definition with_table (t : string) (tb : table) (f : file) : file :=
  mkFile (<[t := tb]> (f_tables f)) (f_indexes f).

(** A cell that holds text. *)
Definition text_of (c : string) (r : row) : option string :=
  match snd r !! c with Some (VText s) => Some s | _ => None end.

Definition set_cell (c : string) (v : value) (r : row) : row := (fst r, <[c := v]> (snd r)).

(** ** The statements *)

(** [trim(lower(s))] of SQLite: ASCII letters, and spaces only. *)
Definition sql_trim (s : string) : string := Str.TrimRight (Str.TrimLeft s [" "]) [" "].
Definition sql_canonical (s : string) : string := sql_trim (Str.ToLower s).

Definition canonical_cell (c : string) (r : row) : row :=
  match text_of c r with Some s => set_cell c (VText (sql_canonical s)) r | None => r end.

Inductive statement : Type :=
  (* CREATE TABLE IF NOT EXISTS *)
  | CreateTable (name : string) (columns : list string)
  (* CREATE (UNIQUE) INDEX IF NOT EXISTS *)
  | CreateIndex (unique : bool) (name tbl : string) (columns : list string)
  (* ALTER TABLE ... ADD COLUMN ... DEFAULT *)
  | AddColumn (tbl column : string) (dflt : value)
  (* UPDATE agents SET pane_id = NULL WHERE ... *)
  | HealPanes
  (* DELETE FROM agents WHERE ... *)
  | CollapseNames
  (* UPDATE agents SET name = ... *)
  | RenameAgents
  (* UPDATE messages SET to_agent = ... *)
  | RenamePending.

Definition no_such_table (t : string) : error := ErrMsg ("no such table: " +:+ t).
Definition duplicate_column (c : string) : error := ErrMsg ("duplicate column name: " +:+ c).
Definition unique_failed : error := ErrMsg "UNIQUE constraint failed".

Definition add_column (c : string) (dflt : value) (tb : table) : table :=
  mkTable (t_columns tb ++ [c]) (map (set_cell c dflt) (t_rows tb)).

(** The first row, by rowid, that has the pane. *)
Definition earlier_holder (rows : list row) (r : row) : bool :=
  existsb (fun x => (fst x <? fst r) && bool_decide (text_of "pane_id" x = text_of "pane_id" r)) rows.

Definition heal_pane (rows : list row) (r : row) : row :=
  match text_of "pane_id" r with
  | Some _ => if earlier_holder rows r then set_cell "pane_id" VNull r else r
  | None => r
  end.

Definition canonical_key (r : row) : option string := sql_canonical <$> text_of "name" r.

(** [r] has a newer row of the same canonical name. *)
Definition superseded_by (r x : row) : bool :=
  match canonical_key x, canonical_key r, text_of "updated_at" x, text_of "updated_at" r with
  | Some nx, Some nr, Some ux, Some ur =>
      bool_decide (nx = nr) && (Str.ltb ur ux || bool_decide (ux = ur) && (fst r <? fst x))
  | _, _, _, _ => false
  end.

Definition newest (rows : list row) (r : row) : bool := negb (existsb (superseded_by r) rows).

(** Row by row, and each time against the key of the table as it is then. *)
Fixpoint rename_rows (done todo : list row) : option (list row) :=
  match todo with
  | [] => Some done
  | r :: todo' =>
      let r' := canonical_cell "name" r in
      match text_of "name" r' with
      | Some n =>
          if negb (bool_decide (text_of "name" r = Some n)) &&
             existsb (fun x => bool_decide (text_of "name" x = Some n)) (done ++ todo')
          then None else rename_rows (done ++ [r']) todo'
      | None => rename_rows (done ++ [r']) todo'
      end
  end.

Definition pending_row (r : row) : bool := bool_decide (text_of "state" r ∈ [Some "queued"; Some "deferred"]).

Definition rename_pending (r : row) : row := if pending_row r then canonical_cell "to_agent" r else r.

Definition on_table (t : string) (g : table -> option table) (f : file) : result file :=
  match f_tables f !! t with
  | None => Err (no_such_table t)
  | Some tb => match g tb with Some tb' => Ok (with_table t tb' f) | None => Err unique_failed end
  end.

Definition on_rows (g : list row -> list row) (tb : table) : option table :=
  Some (mkTable (t_columns tb) (g (t_rows tb))).

Definition exec (s : statement) (f : file) : result file :=
  match s with
  | CreateTable t cs =>
      match f_tables f !! t with Some _ => Ok f | None => Ok (with_table t (mkTable cs []) f) end
  | CreateIndex unique i t cs =>
      if bool_decide (i ∈ f_indexes f) then Ok f
      else match f_tables f !! t with
           | None => Err (no_such_table t)
           | Some tb =>
               if negb (forallb (fun c => bool_decide (c ∈ t_columns tb)) cs) then Err (ErrMsg "no such column")
               else if unique && negb (bool_decide (NoDup (omap (fun r => mapM (fun c => text_of c r) cs) (t_rows tb))))
               then Err unique_failed
               else Ok (mkFile (f_tables f) (i :: f_indexes f))
           end
  | AddColumn t c dflt =>
      match f_tables f !! t with
      | None => Err (no_such_table t)
      | Some tb => if bool_decide (c ∈ t_columns tb) then Err (duplicate_column c) else Ok (with_table t (add_column c dflt tb) f)
      end
  | HealPanes => on_table "agents" (on_rows (fun rows => map (heal_pane rows) rows)) f
  | CollapseNames => on_table "agents" (on_rows (fun rows => List.filter (newest rows) rows)) f
  | RenameAgents =>
      on_table "agents" (fun tb => option_map (mkTable (t_columns tb)) (rename_rows [] (t_rows tb))) f
  | RenamePending => on_table "messages" (on_rows (map rename_pending)) f
  end.

Definition schemaSQL : list statement :=
  [CreateTable "messages" ["id"; "public_id"; "from_agent"; "to_agent"; "reply_to"; "body"; "kind"; "no_reply_expected";
     "quick"; "state"; "created_at"; "delivered_at"; "error"];
   CreateIndex false "ix_msg_queue" "messages" ["to_agent"; "state"; "id"];
   CreateTable "agents" ["name"; "pane_id"; "paused"; "updated_at"; "aliases"];
   CreateTable "budgets" ["agent"; "balance"; "updated_at"]].

Definition migrations : list statement :=
  [AddColumn "messages" "kind" (VText "message");
   AddColumn "agents" "aliases" (VText "[]");
   AddColumn "agents" "delivery_mode" (VText "paste-and-enter");
   AddColumn "messages" "no_reply_expected" (VInt 0);
   AddColumn "messages" "replay_of" VNull;
   AddColumn "messages" "replay_of_at" VNull;
   AddColumn "messages" "verified" VNull;
   AddColumn "messages" "quick" (VInt 0);
   AddColumn "agents" "backlog_epoch_id" VNull;
   AddColumn "agents" "attention_state" (VText "idle");
   AddColumn "agents" "stuck_reason" (VText EmptyString);
   CreateTable "presence" ["key"; "value"; "updated_at"];
   AddColumn "messages" "deliver_after" VNull;
   AddColumn "messages" "expects_reply" (VInt 0);
   CreateIndex false "idx_messages_recipient_state_delivered" "messages" ["to_agent"; "state"; "delivered_at"];
   AddColumn "agents" "provider" (VText EmptyString);
   AddColumn "agents" "observed_state" (VText EmptyString);
   AddColumn "agents" "observed_state_at" VNull;
   AddColumn "messages" "priority" (VInt 20);
   AddColumn "agents" "provider_cap" (VInt 0);
   AddColumn "agents" "display_name" (VText EmptyString);
   AddColumn "messages" "force_rate_limited" (VInt 0);
   AddColumn "agents" "session_id" (VText EmptyString);
   AddColumn "agents" "metabolism" (VText EmptyString);
   AddColumn "agents" "metabolism_set_at" VNull;
   AddColumn "agents" "respawn_after_shrinks" (VInt 0);
   AddColumn "agents" "respawn_shrink_count" (VInt 0);
   AddColumn "agents" "last_self_compact_at" VNull;
   AddColumn "agents" "self_compact_counted_at" VNull;
   AddColumn "agents" "resume_promoted_at" VNull;
   HealPanes;
   CreateIndex true "idx_agents_pane_id" "agents" ["pane_id"];
   AddColumn "agents" "relaunch_cmd" (VText EmptyString);
   AddColumn "agents" "auto_restart" (VInt 0);
   CollapseNames;
   RenameAgents;
   RenamePending].

(** ** Opening *)

(** A statement that cannot run at all: the file is locked, or the disk fails. *)
Definition attempt (fault : nat -> option error) (i : nat) (s : statement) (f : file) : result file :=
  match fault i with Some e => Err e | None => exec s f end.

Fixpoint apply_schema (fault : nat -> option error) (i : nat) (ss : list statement) (f : file) : option error * file :=
  match ss with
  | [] => (None, f)
  | s :: ss' =>
      match attempt fault i s f with
      | Ok f' => apply_schema fault (S i) ss' f'
      | Err e => (Some (ErrWrap ("store: apply schema: " +:+ error_text e) e), f)
      end
  end.

Definition duplicate (e : error) : bool := Str.Contains (error_text e) "duplicate column name".

(** A column that is there already is no failure. *)
Fixpoint apply_migrations (fault : nat -> option error) (i : nat) (ss : list statement) (f : file) : option error * file :=
  match ss with
  | [] => (None, f)
  | s :: ss' =>
      match attempt fault i s f with
      | Ok f' => apply_migrations fault (S i) ss' f'
      | Err e => if duplicate e then apply_migrations fault (S i) ss' f
                 else (Some (ErrWrap ("store: migrate: " +:+ error_text e) e), f)
      end
  end.

Section Opening.
(** What precedes the first statement may fail: making the directory, opening the file,
    each of the pragmas; and so may a statement. *)
Context (prepare : list (option error)) (fault : nat -> option error).

Fixpoint first_failure (l : list (option error)) : option error :=
  match l with
  | [] => None
  | Some e :: _ => Some e
  | None :: l' => first_failure l'
  end.

Definition Open (f : file) : option error * file :=
  match first_failure prepare with
  | Some e => (Some (ErrWrap ("store: " +:+ error_text e) e), f)
  | None =>
      match apply_schema fault 0 schemaSQL f with
      | (Some e, f1) => (Some e, f1)
      | (None, f1) => apply_migrations fault (length schemaSQL) migrations f1
      end
  end.
End Opening.

(** No statement at all: the file as it is. *)
Definition OpenReadOnly (path : string) (stat ping : option error) (f : file) : result file :=
  if bool_decide (path = ":memory:")
  then Err (ErrMsg "store: OpenReadOnly does not support :memory: (use Open)")
  else match stat with
       | Some e =>
           if errors_Is e ErrNotExist
           then Err (ErrMsg ("store: OpenReadOnly: " +:+ path +:+ " does not exist (run any writer verb once to create it)"))
           else Err (ErrWrap ("store: OpenReadOnly: stat " +:+ path +:+ ": " +:+ error_text e) e)
       | None =>
           match ping with
           | Some e => Err (ErrWrap ("store: OpenReadOnly: ping: " +:+ error_text e) e)
           | None => Ok f
           end
       end.

(** * What opening does to a file

    [ahead] is what a statement may change; [holds] is what it achieves, and every later
    statement keeps it. *)

(** ** Names *)

Lemma space_cut : StrFacts.nonempty_cut [" "].
Proof. apply List.Forall_cons; [simpl; lia|done]. Qed.

Lemma sql_trim_fixed s :
  List.find (fun e => Str.HasPrefix s e) [" "] = None -> List.find (fun e => Str.HasSuffix s e) [" "] = None -> sql_trim s = s.
Proof.
  intros Hp Hs. unfold sql_trim, Str.TrimLeft. rewrite StrFacts.trim_left_id by done.
  unfold Str.TrimRight. by rewrite StrFacts.trim_right_id.
Qed.

Lemma trimmed_front s :
  List.find (fun e => Str.HasPrefix (sql_trim s) e) [" "] = None.
Proof.
  apply StrFacts.find_none_iff. pose proof (StrFacts.trim_left_fixed [" "] (String.length s) s space_cut (le_n _)) as Hl.
  rewrite StrFacts.find_none_iff in Hl. eapply List.Forall_impl; [|exact Hl]. intros e He. apply not_true_is_false. intros Hp.
  unfold sql_trim, Str.TrimRight, Str.TrimLeft in Hp. apply StrFacts.trim_right_prefix in Hp. congruence.
Qed.

Lemma trimmed_back s :
  List.find (fun e => Str.HasSuffix (sql_trim s) e) [" "] = None.
Proof. unfold sql_trim, Str.TrimRight. by apply StrFacts.trim_right_fixed; [apply space_cut|]. Qed.

Lemma sql_trim_lower s : sql_trim (Str.ToLower s) = Str.ToLower (sql_trim s).
Proof.
  assert (Forall StrFacts.caseless_str [" "]) as H by (apply List.Forall_cons; [by apply StrFacts.no_letters_caseless|done]).
  unfold sql_trim, Str.TrimRight, Str.TrimLeft.
  replace (String.length (Str.ToLower s)) with (String.length s) by (symmetry; apply StrFacts.map_bytes_length).
  rewrite StrFacts.trim_left_lower by done.
  replace (String.length (Str.ToLower _)) with (String.length (Str.trim_left (String.length s) [" "] s))
    by (symmetry; apply StrFacts.map_bytes_length).
  by apply StrFacts.trim_right_lower.
Qed.

Lemma sql_canonical_idem s : sql_canonical (sql_canonical s) = sql_canonical s.
Proof.
  unfold sql_canonical. rewrite <- (sql_trim_lower (Str.ToLower s)), StrFacts.ToLower_idem.
  apply sql_trim_fixed; [apply trimmed_front|apply trimmed_back].
Qed.

(** The names the program writes are left alone. *)
Lemma canonical_names_stay n : sql_canonical (CanonicalName n) = CanonicalName n.
Proof.
  unfold sql_canonical, CanonicalName. rewrite StrFacts.ToLower_idem, <- StrFacts.TrimSpace_lower. set (s := Str.ToLower n).
  assert (" " ∈ Str.space_runes) as Hin by (apply (bool_decide_eq_true_1 (" " ∈ Str.space_runes)); vm_compute; reflexivity).
  pose proof StrFacts.space_runes_nonempty as Hne. apply sql_trim_fixed.
  - apply StrFacts.find_none_iff, List.Forall_cons; [|done]. apply not_true_is_false. intros Hp.
    unfold Str.TrimSpace, Str.TrimRight in Hp. apply StrFacts.trim_right_prefix in Hp.
    pose proof (StrFacts.trim_left_fixed Str.space_runes (String.length s) s Hne (le_n _)) as Hl.
    rewrite StrFacts.find_none_iff, Forall_forall in Hl. specialize (Hl " " Hin). unfold Str.TrimLeft in Hp. congruence.
  - apply StrFacts.find_none_iff, List.Forall_cons; [|done].
    pose proof (StrFacts.trim_right_fixed Str.space_runes _ (Str.TrimLeft s Str.space_runes) Hne (le_n _)) as Hl.
    rewrite StrFacts.find_none_iff, Forall_forall in Hl. by specialize (Hl " " Hin).
Qed.

(** ** The order of time stamps *)

Lemma text_order_trans a b c : String.compare a b <> Gt -> String.compare b c <> Gt ->
  String.compare a c <> Gt /\ (String.compare a c = Eq -> a = b /\ b = c).
Proof.
  revert b c. induction a as [|x a IH]; intros [|y b] [|z c]; cbn [String.compare]; try done.
  unfold Ascii.compare.
  destruct (N.compare_spec (Ascii.N_of_ascii x) (Ascii.N_of_ascii y)) as [E1|L1|G1]; [| |done];
  destruct (N.compare_spec (Ascii.N_of_ascii y) (Ascii.N_of_ascii z)) as [E2|L2|G2]; try done; intros H1 H2.
  - assert (x = y) as -> by (rewrite <- (Ascii.ascii_N_embedding x), E1; apply Ascii.ascii_N_embedding).
    assert (y = z) as -> by (rewrite <- (Ascii.ascii_N_embedding y), E2; apply Ascii.ascii_N_embedding).
    rewrite N.compare_refl. destruct (IH b c H1 H2) as [H3 H4]. split; [done|]. intros E. by destruct (H4 E) as [-> ->].
  - rewrite E1, (proj2 (N.compare_lt_iff _ _) L2). done.
  - rewrite <- E2, (proj2 (N.compare_lt_iff _ _) L1). done.
  - rewrite (proj2 (N.compare_lt_iff _ _) (N.lt_trans _ _ _ L1 L2)). done.
Qed.

Lemma ltb_not_ge a b : Str.ltb a b = false <-> String.compare b a <> Gt.
Proof. unfold Str.ltb, String.ltb. rewrite String.compare_antisym. by destruct (String.compare b a). Qed.

Lemma compare_refl a : String.compare a a = Eq.
Proof. pose proof (String.compare_antisym a a) as H. by destruct (String.compare a a). Qed.

Lemma ltb_ge_trans a b c : Str.ltb b a = false -> Str.ltb c b = false -> Str.ltb c a = false.
Proof. rewrite !ltb_not_ge. intros H1 H2. by apply (text_order_trans a b c). Qed.

Lemma ltb_eq a b : Str.ltb a b = false -> Str.ltb b a = false -> a = b.
Proof.
  rewrite !ltb_not_ge. intros H1 H2. destruct (String.compare a b) eqn:E; [by apply String.compare_eq_iff| |done].
  rewrite String.compare_antisym, E in H1. done.
Qed.

(** ** Newer rows of a name *)

Lemma superseded_irrefl r : superseded_by r r = false.
Proof.
  unfold superseded_by. destruct (canonical_key r), (text_of "updated_at" r) as [u|]; try done.
  rewrite !bool_decide_true by done. rewrite Z.ltb_irrefl, orb_false_r. unfold Str.ltb, String.ltb. by rewrite compare_refl.
Qed.

Lemma superseded_spec r x : superseded_by r x = true <->
  exists n ux ur, canonical_key x = Some n /\ canonical_key r = Some n /\ text_of "updated_at" x = Some ux /\
    text_of "updated_at" r = Some ur /\ Str.ltb ux ur = false /\ (ux = ur -> fst r < fst x).
Proof.
  unfold superseded_by. split.
  - destruct (canonical_key x) as [nx|], (canonical_key r) as [nr|], (text_of "updated_at" x) as [ux|],
      (text_of "updated_at" r) as [ur|]; try done.
    intros [Hn Ho]%andb_prop. bsimp. subst nr. exists nx, ux, ur. split_and!; try done.
    + apply orb_prop in Ho as [Ho|[Hu _]%andb_prop].
      * apply ltb_not_ge. unfold Str.ltb, String.ltb in Ho. by destruct (String.compare ur ux).
      * bsimp. subst. unfold Str.ltb, String.ltb. by rewrite compare_refl.
    + intros ->. apply orb_prop in Ho as [Ho|[_ Hz]%andb_prop]; [|by apply Z.ltb_lt].
      unfold Str.ltb, String.ltb in Ho. by rewrite compare_refl in Ho.
  - intros (n & ux & ur & -> & -> & -> & -> & Hl & Hz). rewrite bool_decide_true by done. cbn [andb].
    destruct (Str.ltb ur ux) eqn:E; [done|]. pose proof (ltb_eq _ _ E Hl) as ->.
    rewrite bool_decide_true by done. cbn [orb andb]. by apply Z.ltb_lt, Hz.
Qed.

Lemma superseded_trans r x y : superseded_by r x = true -> superseded_by x y = true -> superseded_by r y = true.
Proof.
  rewrite !superseded_spec. intros (n & ux & ur & Hx & Hr & Hux & Hur & H1 & Hz1) (n' & uy & ux' & Hy & Hx' & Huy & Hux' & H2 & Hz2).
  rewrite Hx in Hx'. rewrite Hux in Hux'. injection Hx' as <-. injection Hux' as <-.
  exists n, uy, ur. split_and!; try done; [by eapply ltb_ge_trans|].
  intros ->. assert (ur = ux) as -> by (by apply ltb_eq). specialize (Hz1 eq_refl). specialize (Hz2 eq_refl). lia.
Qed.

(** Of two rows with the same name and with stamps, one is the newer. *)
Lemma superseded_total r x n ur ux : canonical_key r = Some n -> canonical_key x = Some n ->
  text_of "updated_at" r = Some ur -> text_of "updated_at" x = Some ux -> fst r <> fst x ->
  superseded_by r x = true \/ superseded_by x r = true.
Proof.
  intros Hr Hx Hur Hux Hne. rewrite !superseded_spec.
  destruct (Str.ltb ux ur) eqn:E1, (Str.ltb ur ux) eqn:E2.
  - exfalso. unfold Str.ltb, String.ltb in E1, E2. rewrite String.compare_antisym in E2. by destruct (String.compare ux ur).
  - right. exists n, ur, ux. split_and!; try done. intros ->. by rewrite E2 in E1.
  - left. exists n, ux, ur. split_and!; try done. intros ->. by rewrite E1 in E2.
  - pose proof (ltb_eq _ _ E1 E2) as ->. destruct (decide (fst r < fst x)).
    + left. exists n, ur, ur. by split_and!.
    + right. exists n, ur, ur. split_and!; try done. intros _. lia.
Qed.

(** The newest row of a name. *)
Lemma newest_of (rows : list row) r : (forall x, x ∈ rows -> superseded_by r x = false) \/
  exists b, b ∈ rows /\ superseded_by r b = true /\ forall c, c ∈ rows -> superseded_by b c = false.
Proof.
  induction rows as [|a rows IH]; [left; set_solver|].
  destruct (superseded_by r a) eqn:E, IH as [IH|(b & Hb & Hrb & Hm)].
  - right. exists a. split; [set_solver|]. split; [done|]. intros c [->|Hc]%elem_of_cons; [apply superseded_irrefl|].
    apply not_true_is_false. intros H. pose proof (superseded_trans _ _ _ E H) as H'. by rewrite IH in H'.
  - right. destruct (superseded_by b a) eqn:Eb.
    + exists a. split; [set_solver|]. split; [done|]. intros c [->|Hc]%elem_of_cons; [apply superseded_irrefl|].
      apply not_true_is_false. intros H. pose proof (superseded_trans _ _ _ Eb H) as H'. by rewrite Hm in H'.
    + exists b. split; [set_solver|]. split; [done|]. intros c [->|Hc]%elem_of_cons; auto.
  - left. intros x [->|Hx]%elem_of_cons; auto.
  - right. destruct (superseded_by b a) eqn:Eb; [by rewrite (superseded_trans _ _ _ Hrb Eb) in E|].
    exists b. split; [set_solver|]. split; [done|]. intros c [->|Hc]%elem_of_cons; auto.
Qed.

(** ** What a statement may change *)

(** The cells that may change: the pane of an agent may be forgotten, its name become
    canonical, and the recipient of a pending message too. *)
Definition canon_value (v : value) : value := match v with VText s => VText (sql_canonical s) | _ => v end.

Definition cell_ahead (t : string) (pending : bool) (c : string) (v v' : value) : Prop :=
  v' = v \/ (t = "agents" /\ c = "pane_id" /\ v' = VNull) \/
  ((t = "agents" /\ c = "name" \/ t = "messages" /\ c = "to_agent" /\ pending = true) /\ v' = canon_value v).

Definition row_ahead (t : string) (r r' : row) : Prop :=
  fst r' = fst r /\ (t = "messages" -> text_of "state" r' = text_of "state" r) /\
  forall c v, snd r !! c = Some v -> exists v', snd r' !! c = Some v' /\ cell_ahead t (pending_row r) c v v'.

(** The rows that are left, in order. *)
Inductive thinned (R : row -> row -> Prop) : list row -> list row -> Prop :=
  | thinned_nil : thinned R [] []
  | thinned_keep r r' l l' : R r r' -> thinned R l l' -> thinned R (r :: l) (r' :: l')
  | thinned_drop r l l' : thinned R l l' -> thinned R (r :: l) l'.

Definition table_ahead (t : string) (tb tb' : table) : Prop :=
  t_columns tb ⊆ t_columns tb' /\ thinned (row_ahead t) (t_rows tb) (t_rows tb') /\
  (t <> "agents" -> length (t_rows tb') = length (t_rows tb)).

Definition ahead (f f' : file) : Prop :=
  f_indexes f ⊆ f_indexes f' /\
  forall t tb, f_tables f !! t = Some tb -> exists tb', f_tables f' !! t = Some tb' /\ table_ahead t tb tb'.

Lemma canon_value_idem v : canon_value (canon_value v) = canon_value v.
Proof. destruct v; cbn; [done| |done]. by rewrite sql_canonical_idem. Qed.

Lemma row_ahead_refl t r : row_ahead t r r.
Proof. split; [done|]. split; [done|]. intros c v H. exists v. split; [done|]. by left. Qed.

Lemma pending_same r r' : text_of "state" r' = text_of "state" r -> pending_row r' = pending_row r.
Proof. unfold pending_row. by intros ->. Qed.

Lemma row_ahead_trans t r1 r2 r3 : row_ahead t r1 r2 -> row_ahead t r2 r3 -> row_ahead t r1 r3.
Proof.
  intros (E1 & S1 & H1) (E2 & S2 & H2). split; [congruence|]. split; [intros Ht; by rewrite S2, S1|].
  intros c v Hv. destruct (H1 c v Hv) as (v2 & Hv2 & C1). destruct (H2 c v2 Hv2) as (v3 & Hv3 & C2).
  exists v3. split; [done|]. unfold cell_ahead in *.
  assert (t = "messages" -> pending_row r2 = pending_row r1) as Hp by (intros Ht; by apply pending_same, S1).
  destruct C2 as [->|[C2|[Hc ->]]]; [done|by right; left|].
  destruct C1 as [->|[(-> & -> & ->)|[Hc' ->]]].
  - right. right. split; [|done]. destruct Hc as [Hc|(-> & -> & Hc)]; [by left|right]. by rewrite <- Hp.
  - right. left. by cbn.
  - right. right. rewrite canon_value_idem. done.
Qed.

Section Thinned.
Context (R : row -> row -> Prop).

Lemma thinned_map g (l : list row) : (forall r, r ∈ l -> R r (g r)) -> thinned R l (map g l).
Proof.
  induction l as [|r l IH]; intros H; cbn [map]; [constructor|]. constructor; [apply H; left|].
  apply IH. intros x Hx. apply H. by right.
Qed.

Lemma thinned_filter (p : row -> bool) l : (forall r, R r r) -> thinned R l (List.filter p l).
Proof. intros H. induction l as [|r l IH]; cbn [List.filter]; [constructor|]. destruct (p r); by constructor. Qed.

Lemma thinned_elem (l l' : list row) r' : thinned R l l' -> r' ∈ l' -> exists r, r ∈ l /\ R r r'.
Proof.
  induction 1 as [|r r1 l l' Hr _ IH|r l l' _ IH]; intros Hin; [set_solver| |].
  - apply elem_of_cons in Hin as [->|Hin]; [exists r; split; [set_solver|done]|].
    destruct (IH Hin) as (x & Hx & HR). exists x. split; [set_solver|done].
  - destruct (IH Hin) as (x & Hx & HR). exists x. split; [set_solver|done].
Qed.

Lemma thinned_omap {A} (g : row -> option A) (l l' : list row) : thinned R l l' ->
  (forall r r', r ∈ l -> R r r' -> g r' = g r \/ g r' = None) -> omap g l' `sublist_of` omap g l.
Proof.
  induction 1 as [|r r1 l l' Hr Hl IH|r l l' Hl IH]; intros H; cbn [omap list_omap]; [constructor| |].
  - assert (omap g l' `sublist_of` omap g l) as Hs by (apply IH; intros x x' Hx; apply H; by right).
    destruct (H r r1 ltac:(left) Hr) as [->| ->]; destruct (g r); first [exact Hs|constructor; exact Hs].
  - assert (omap g l' `sublist_of` omap g l) as Hs by (apply IH; intros x x' Hx; apply H; by right).
    destruct (g r); first [exact Hs|constructor; exact Hs].
Qed.

Lemma thinned_ids l l' : thinned R l l' -> (forall r r', R r r' -> fst r' = fst r) -> map fst l' `sublist_of` map fst l.
Proof.
  induction 1 as [|r r1 l l' Hr Hl IH|r l l' Hl IH]; intros H; cbn [map]; [constructor| |]; [|by constructor; apply IH].
  rewrite (H r r1 Hr). constructor. by apply IH.
Qed.
End Thinned.

Lemma thinned_trans (R : row -> row -> Prop) l1 l2 l3 : (forall a b c, R a b -> R b c -> R a c) ->
  thinned R l1 l2 -> thinned R l2 l3 -> thinned R l1 l3.
Proof.
  intros HR H. revert l3. induction H as [|r r1 l l' Hr Hl IH|r l l' Hl IH]; intros l3 H3.
  - done.
  - inversion H3; subst; [constructor; [by eapply HR|by apply IH]|constructor; by apply IH].
  - constructor. by apply IH.
Qed.

Lemma table_ahead_refl t tb : table_ahead t tb tb.
Proof.
  split; [done|]. split; [|done].
  rewrite <- (map_id (t_rows tb)) at 2. apply thinned_map. intros r _. apply row_ahead_refl.
Qed.

Lemma ahead_refl f : ahead f f.
Proof. split; [done|]. intros t tb H. exists tb. split; [done|]. apply table_ahead_refl. Qed.

Lemma ahead_trans f1 f2 f3 : ahead f1 f2 -> ahead f2 f3 -> ahead f1 f3.
Proof.
  intros [I1 H1] [I2 H2]. split; [set_solver|]. intros t tb Ht. destruct (H1 t tb Ht) as (tb2 & Ht2 & C1 & R1 & L1).
  destruct (H2 t tb2 Ht2) as (tb3 & Ht3 & C2 & R2 & L2). exists tb3. split; [done|]. split; [set_solver|].
  split; [by eapply thinned_trans; [apply row_ahead_trans|..]|]. intros Hn. rewrite L2 by done. by apply L1.
Qed.

(** ** Files that can be opened *)

(** The columns every version of the program has had. *)
Definition base (t : string) : list string :=
  if bool_decide (t = "messages") then
    ["id"; "public_id"; "from_agent"; "to_agent"; "reply_to"; "body"; "state"; "created_at"; "delivered_at"; "error"]
  else if bool_decide (t = "agents") then ["name"; "pane_id"; "paused"; "updated_at"] else [].

Record wf_table (t : string) (tb : table) : Prop := {
  wt_base : base t ⊆ t_columns tb;
  wt_cells : forall r c, r ∈ t_rows tb -> c ∈ t_columns tb <-> is_Some (snd r !! c);
  wt_ids : NoDup (map fst (t_rows tb))
}.

(** Keys are keys, stamps are text, and a unique index tells the truth. *)
Record wf_file (f : file) : Prop := {
  wf_tables : forall t tb, f_tables f !! t = Some tb -> wf_table t tb;
  wf_names : forall tb, f_tables f !! "agents" = Some tb -> NoDup (omap (text_of "name") (t_rows tb));
  wf_stamps : forall tb r, f_tables f !! "agents" = Some tb -> r ∈ t_rows tb -> is_Some (text_of "updated_at" r);
  wf_panes : "idx_agents_pane_id" ∈ f_indexes f ->
    forall tb, f_tables f !! "agents" = Some tb -> NoDup (omap (text_of "pane_id") (t_rows tb))
}.

Definition holds (s : statement) (f : file) : Prop :=
  match s with
  | CreateTable t _ => is_Some (f_tables f !! t)
  | CreateIndex _ i _ _ => i ∈ f_indexes f
  | AddColumn t c _ => exists tb, f_tables f !! t = Some tb /\ c ∈ t_columns tb
  | HealPanes => exists tb, f_tables f !! "agents" = Some tb /\ NoDup (omap (text_of "pane_id") (t_rows tb))
  | CollapseNames => exists tb, f_tables f !! "agents" = Some tb /\
      forall r x, r ∈ t_rows tb -> x ∈ t_rows tb -> superseded_by r x = false
  | RenameAgents => exists tb, f_tables f !! "agents" = Some tb /\
      forall r n, r ∈ t_rows tb -> text_of "name" r = Some n -> sql_canonical n = n
  | RenamePending => exists tb, f_tables f !! "messages" = Some tb /\
      forall r n, r ∈ t_rows tb -> pending_row r = true -> text_of "to_agent" r = Some n -> sql_canonical n = n
  end.

Lemma base_cell t tb r c : wf_table t tb -> r ∈ t_rows tb -> c ∈ base t -> exists v, snd r !! c = Some v.
Proof. intros W Hr Hc. apply (wt_cells t tb W r c Hr), (wt_base t tb W), Hc. Qed.

Lemma in_list (c : string) (l : list string) : bool_decide (c ∈ l) = true -> c ∈ l.
Proof. apply bool_decide_eq_true_1. Qed.

Ltac in_base := apply in_list; vm_compute; reflexivity.

Lemma ahead_stamp r r' : row_ahead "agents" r r' -> is_Some (text_of "updated_at" r) ->
  text_of "updated_at" r' = text_of "updated_at" r.
Proof.
  intros (_ & _ & H) [u Hu]. unfold text_of in *. destruct (snd r !! "updated_at") as [v|] eqn:E; [|done].
  destruct (H _ _ E) as (v' & -> & [->|[(_ & ? & _)|[[[_ ?]|[? _]] _]]]); done.
Qed.

Lemma ahead_name r r' : row_ahead "agents" r r' -> is_Some (snd r !! "name") ->
  canonical_key r' = canonical_key r /\ (text_of "name" r' = text_of "name" r \/ text_of "name" r' = canonical_key r).
Proof.
  intros (_ & _ & H) [v E]. destruct (H _ _ E) as (v' & E' & C). unfold canonical_key, text_of. rewrite E, E'.
  destruct C as [->|[(_ & ? & _)|[_ ->]]]; [by split; [|left]|done|].
  destruct v; cbn; [by split; [|left]| |by split; [|left]]. split; [by rewrite sql_canonical_idem|by right].
Qed.

Lemma ahead_pane r r' : row_ahead "agents" r r' -> is_Some (snd r !! "pane_id") ->
  text_of "pane_id" r' = text_of "pane_id" r \/ text_of "pane_id" r' = None.
Proof.
  intros (_ & _ & H) [v E]. destruct (H _ _ E) as (v' & E' & C). unfold text_of. rewrite E, E'.
  destruct C as [->|[(_ & _ & ->)|[[[_ ?]|[? _]] _]]]; [by left|by right|done|done].
Qed.

Lemma ahead_recipient r r' : row_ahead "messages" r r' -> is_Some (snd r !! "to_agent") ->
  pending_row r' = pending_row r /\
  (text_of "to_agent" r' = text_of "to_agent" r \/
   pending_row r = true /\ text_of "to_agent" r' = sql_canonical <$> text_of "to_agent" r).
Proof.
  intros (_ & S & H) [v E]. split; [by apply pending_same, S|]. destruct (H _ _ E) as (v' & E' & C). unfold text_of. rewrite E, E'.
  destruct C as [->|[(? & _)|[[[? _]|(_ & _ & Hp)] ->]]]; [by left|done|done|]. right. split; [done|]. by destruct v.
Qed.

Lemma ahead_supersedes r r' x x' : row_ahead "agents" r r' -> row_ahead "agents" x x' ->
  is_Some (snd r !! "name") -> is_Some (snd x !! "name") ->
  is_Some (text_of "updated_at" r) -> is_Some (text_of "updated_at" x) -> superseded_by r' x' = superseded_by r x.
Proof.
  intros Hr Hx Nr Nx Ur Ux. unfold superseded_by. rewrite (proj1 (ahead_name _ _ Hr Nr)), (proj1 (ahead_name _ _ Hx Nx)).
  rewrite (ahead_stamp _ _ Hr Ur), (ahead_stamp _ _ Hx Ux). by rewrite (proj1 Hr), (proj1 Hx).
Qed.

(** What a statement has achieved stays. *)
Lemma ahead_panes f tb tb' : wf_file f -> f_tables f !! "agents" = Some tb -> table_ahead "agents" tb tb' ->
  NoDup (omap (text_of "pane_id") (t_rows tb)) -> NoDup (omap (text_of "pane_id") (t_rows tb')).
Proof.
  intros W Ht (_ & R & _) H. eapply sublist_NoDup; [exact H|]. eapply thinned_omap; [exact R|].
  intros r r' Hr Ha. apply ahead_pane; [done|]. eapply base_cell; [by apply (wf_tables f W)|done|in_base].
Qed.

Lemma ahead_holds s f f' : wf_file f -> ahead f f' -> holds s f -> holds s f'.
Proof.
  intros W [I T]. pose proof (wf_tables f W) as Wt. destruct s; cbn [holds].
  - intros [tb Ht]. destruct (T _ _ Ht) as (tb' & Ht' & _). by exists tb'.
  - set_solver.
  - intros (tb & Ht & Hc). destruct (T _ _ Ht) as (tb' & Ht' & C & _). exists tb'. split; [done|set_solver].
  - intros (tb & Ht & Hp). destruct (T _ _ Ht) as (tb' & Ht' & A). exists tb'. split; [done|]. by eapply ahead_panes.
  - intros (tb & Ht & Hn). destruct (T _ _ Ht) as (tb' & Ht' & C & R & _). exists tb'. split; [done|]. intros r' x' Hr' Hx'.
    destruct (thinned_elem _ _ _ _ R Hr') as (r & Hr & Ar). destruct (thinned_elem _ _ _ _ R Hx') as (x & Hx & Ax).
    rewrite (ahead_supersedes _ _ _ _ Ar Ax); [by apply Hn|..];
      first [by eapply wf_stamps | eapply base_cell; [by apply Wt|done|in_base]].
  - intros (tb & Ht & Hn). destruct (T _ _ Ht) as (tb' & Ht' & C & R & _). exists tb'. split; [done|]. intros r' n Hr' E.
    destruct (thinned_elem _ _ _ _ R Hr') as (r & Hr & Ar).
    destruct (ahead_name _ _ Ar) as [_ [E'|E']]; [eapply base_cell; [by apply Wt|done|in_base]|..].
    + apply (Hn r n Hr). congruence.
    + rewrite E' in E. unfold canonical_key in E. destruct (text_of "name" r) as [m|]; [|done]. injection E as <-.
      apply sql_canonical_idem.
  - intros (tb & Ht & Hn). destruct (T _ _ Ht) as (tb' & Ht' & C & R & _). exists tb'. split; [done|]. intros r' n Hr' Hp E.
    destruct (thinned_elem _ _ _ _ R Hr') as (r & Hr & Ar).
    destruct (ahead_recipient _ _ Ar) as [Ep [E'|[_ E']]]; [eapply base_cell; [by apply Wt|done|in_base]|..].
    + apply (Hn r n Hr); congruence.
    + rewrite E' in E. destruct (text_of "to_agent" r) as [m|]; [|done]. injection E as <-. apply sql_canonical_idem.
Qed.

(** ** Keys of a list of rows *)

Section Keys.
Context (g : row -> option string).

Lemma nodup_by_id l : NoDup (map fst l) ->
  (forall r x n, r ∈ l -> x ∈ l -> g r = Some n -> g x = Some n -> fst r = fst x) -> NoDup (omap g l).
Proof.
  induction l as [|r l IH]; cbn [map]; [constructor|]. intros [Hr Hl]%NoDup_cons H.
  assert (NoDup (omap g l)) as Hn by (apply IH; [done|]; intros x y n Hx Hy; apply H; by right).
  cbn [omap list_omap]. destruct (g r) as [n|] eqn:E; [|done]. constructor; [|done].
  intros (x & Hx & Ex)%list_elem_of_omap. apply Hr.
  assert (fst r = fst x) as -> by (apply (H r x n); [left|by right|done|done]).
  by apply list_elem_of_fmap_2.
Qed.

Lemma nodup_inj l r x n : NoDup (omap g l) -> r ∈ l -> x ∈ l -> g r = Some n -> g x = Some n -> r = x.
Proof.
  induction l as [|a l IH]; [set_solver|]. cbn [omap list_omap]. intros Hn Hr Hx Er Ex.
  assert (NoDup (omap g l)) as Hl by (destruct (g a); [by apply NoDup_cons in Hn as [_ Hn]|done]).
  apply elem_of_cons in Hr as [->|Hr], Hx as [->|Hx]; [done| | |by apply IH].
  - rewrite Er in Hn. apply NoDup_cons in Hn as [Hn _]. exfalso. apply Hn, list_elem_of_omap. by exists x.
  - rewrite Ex in Hn. apply NoDup_cons in Hn as [Hn _]. exfalso. apply Hn, list_elem_of_omap. by exists r.
Qed.

Lemma omap_middle a r b : omap g (a ++ r :: b) ≡ₚ omap g (r :: a ++ b).
Proof.
  rewrite omap_app. cbn [omap list_omap]. fold (omap g b). fold (omap g (a ++ b)). rewrite omap_app.
  destruct (g r); [|done]. symmetry. apply Permutation_middle.
Qed.

Lemma nodup_replace a r r' b : NoDup (omap g (a ++ r :: b)) ->
  (forall n, g r' = Some n -> g r = Some n \/ n ∉ omap g (a ++ b)) -> NoDup (omap g (a ++ r' :: b)).
Proof.
  rewrite !omap_middle. cbn [omap list_omap]. fold (omap g (a ++ b)). intros Hn H.
  assert (NoDup (omap g (a ++ b))) as Hl by (destruct (g r); [by apply NoDup_cons in Hn as [_ Hn]|done]).
  destruct (g r') as [n|]; [|done]. destruct (H n eq_refl) as [E|Hm]; [by rewrite E in Hn|by constructor].
Qed.
End Keys.

(** ** The rows after a statement *)

Lemma set_same c v r : snd r !! c = Some v -> set_cell c v r = r.
Proof. intros H. unfold set_cell. rewrite insert_id by done. by destruct r. Qed.

Lemma text_set c v r c' : c' <> c -> text_of c' (set_cell c v r) = text_of c' r.
Proof. intros H. unfold text_of, set_cell. cbn [snd]. by rewrite lookup_insert_ne. Qed.

Lemma text_set_eq c s r : text_of c (set_cell c (VText s) r) = Some s.
Proof. unfold text_of, set_cell. cbn [snd]. by rewrite lookup_insert_eq. Qed.

Lemma text_cell c r s : text_of c r = Some s -> snd r !! c = Some (VText s).
Proof. unfold text_of. destruct (snd r !! c) as [[]|]; congruence. Qed.

Lemma canonical_cell_same c r : (forall s, text_of c r = Some s -> sql_canonical s = s) -> canonical_cell c r = r.
Proof.
  intros H. unfold canonical_cell. destruct (text_of c r) as [s|] eqn:E; [|done]. rewrite (H s eq_refl).
  by apply set_same, text_cell.
Qed.

Lemma text_canonical c r : text_of c (canonical_cell c r) = sql_canonical <$> text_of c r.
Proof. unfold canonical_cell. destruct (text_of c r) as [s|] eqn:E; [apply text_set_eq|by rewrite E]. Qed.

(** Cells that are there stay there. *)
Definition same_cells (r r' : row) : Prop := forall c, is_Some (snd r' !! c) <-> is_Some (snd r !! c).

Lemma set_cells c v r : is_Some (snd r !! c) -> same_cells r (set_cell c v r).
Proof.
  intros H c'. unfold set_cell. cbn [snd]. destruct (decide (c' = c)) as [->|Hne]; [|by rewrite lookup_insert_ne].
  rewrite lookup_insert_eq. split; [done|]. intros _. by eexists.
Qed.

Lemma canonical_cells c r : same_cells r (canonical_cell c r).
Proof.
  unfold canonical_cell. destruct (text_of c r) as [s|] eqn:E; [|done]. apply set_cells. rewrite (text_cell _ _ _ E). by eexists.
Qed.

Lemma canonical_ahead t c r : t = "agents" /\ c = "name" \/ t = "messages" /\ c = "to_agent" /\ pending_row r = true ->
  row_ahead t r (canonical_cell c r).
Proof.
  intros Hc. unfold canonical_cell. destruct (text_of c r) as [s|] eqn:E; [|apply row_ahead_refl].
  split; [done|]. split.
  - intros ->. destruct Hc as [[? _]|(_ & -> & _)]; [done|]. by rewrite text_set.
  - intros c' v Hv. unfold set_cell. cbn [snd]. destruct (decide (c' = c)) as [->|Hne].
    + exists (VText (sql_canonical s)). rewrite lookup_insert_eq. split; [done|]. right. right. split; [done|].
      rewrite (text_cell _ _ _ E) in Hv. injection Hv as <-. done.
    + exists v. rewrite lookup_insert_ne by done. split; [done|]. by left.
Qed.

Lemma heal_ahead rows r : row_ahead "agents" r (heal_pane rows r).
Proof.
  unfold heal_pane. destruct (text_of "pane_id" r) as [p|] eqn:E; [|apply row_ahead_refl].
  destruct (earlier_holder rows r); [|apply row_ahead_refl]. split; [done|]. split; [done|].
  intros c v Hv. unfold set_cell. cbn [snd]. destruct (decide (c = "pane_id")) as [->|Hne].
  - exists VNull. rewrite lookup_insert_eq. split; [done|]. right. by left.
  - exists v. rewrite lookup_insert_ne by done. split; [done|]. by left.
Qed.

Lemma heal_cells rows r : same_cells r (heal_pane rows r).
Proof.
  unfold heal_pane. destruct (text_of "pane_id" r) as [p|] eqn:E; [|done].
  destruct (earlier_holder rows r); [|done]. apply set_cells. rewrite (text_cell _ _ _ E). by eexists.
Qed.

Lemma earlier_spec rows r : earlier_holder rows r = true <->
  exists x, x ∈ rows /\ fst x < fst r /\ text_of "pane_id" x = text_of "pane_id" r.
Proof.
  unfold earlier_holder. rewrite existsb_exists. split.
  - intros (x & Hx & [Hl Ht]%andb_prop). exists x. bsimp. split_and!; [by apply list_elem_of_In|lia|done].
  - intros (x & Hx & Hl & Ht). exists x. split; [by apply list_elem_of_In|]. apply andb_true_intro. split; [by apply Z.ltb_lt|].
    by apply bool_decide_true.
Qed.

Lemma healed_pane rows r p : text_of "pane_id" (heal_pane rows r) = Some p -> text_of "pane_id" r = Some p /\ earlier_holder rows r = false.
Proof.
  unfold heal_pane. destruct (text_of "pane_id" r) as [q|] eqn:E; [|by rewrite E].
  destruct (earlier_holder rows r); [|by rewrite E]. unfold text_of, set_cell. cbn [snd]. by rewrite lookup_insert_eq.
Qed.

Lemma heal_nodup rows : NoDup (map fst rows) -> NoDup (omap (text_of "pane_id") (map (heal_pane rows) rows)).
Proof.
  intros Hid. assert (forall r, fst (heal_pane rows r) = fst r) as Hf by (intros r; apply (heal_ahead rows r)).
  apply nodup_by_id.
  - rewrite map_map, (map_ext _ fst Hf). done.
  - intros r' x' p Hr Hx Er Ex. apply list_elem_of_fmap in Hr as (r & -> & Hr). apply list_elem_of_fmap in Hx as (x & -> & Hx).
    rewrite !Hf. apply healed_pane in Er as [Er Nr]. apply healed_pane in Ex as [Ex Nx].
    destruct (Z.lt_trichotomy (fst r) (fst x)) as [Hl|[E|Hl]]; [|done|].
    + exfalso. apply not_false_iff_true in Nx; [done|]. apply earlier_spec. exists r. split_and!; [done|done|congruence].
    + exfalso. apply not_false_iff_true in Nr; [done|]. apply earlier_spec. exists x. split_and!; [done|done|congruence].
Qed.

Lemma heal_settled rows : NoDup (omap (text_of "pane_id") rows) -> map (heal_pane rows) rows = rows.
Proof.
  intros H. rewrite <- (map_id rows) at 3. apply map_ext_in. intros r Hr%list_elem_of_In. unfold heal_pane.
  destruct (text_of "pane_id" r) as [p|] eqn:E; [|done]. destruct (earlier_holder rows r) eqn:Eh; [|done]. exfalso.
  apply earlier_spec in Eh as (x & Hx & Hl & Et). rewrite E in Et.
  rewrite (nodup_inj _ _ _ _ _ H Hx Hr Et E) in Hl. lia.
Qed.

Lemma rename_is_map done todo res : rename_rows done todo = Some res -> res = done ++ map (canonical_cell "name") todo.
Proof.
  revert done. induction todo as [|r todo IH]; intros done; cbn [rename_rows map]; [by intros [= <-]; rewrite app_nil_r|].
  destruct (text_of "name" _) as [n|]; [destruct (negb _ && _); [done|]|]; intros H; rewrite (IH _ H); by rewrite <- app_assoc.
Qed.

Lemma rename_nodup done todo res : NoDup (omap (text_of "name") (done ++ todo)) ->
  rename_rows done todo = Some res -> NoDup (omap (text_of "name") res).
Proof.
  revert done. induction todo as [|r todo IH]; intros done Hn; cbn [rename_rows]; [intros [= <-]; by rewrite app_nil_r in Hn|].
  set (r' := canonical_cell "name" r). assert (forall n, text_of "name" r' = Some n ->
    text_of "name" r = Some n \/ n ∉ omap (text_of "name") (done ++ todo) -> NoDup (omap (text_of "name") ((done ++ [r']) ++ todo))) as Hs.
  { intros n En H. rewrite <- app_assoc. eapply nodup_replace; [exact Hn|]. intros m Em. rewrite En in Em. by injection Em as <-. }
  destruct (text_of "name" r') as [n|] eqn:En.
  - destruct (decide (text_of "name" r = Some n)) as [E|E].
    + rewrite bool_decide_true by done. cbn [negb andb]. apply IH. by apply (Hs n eq_refl); left.
    + rewrite bool_decide_false by done. cbn [negb andb]. destruct (existsb _ _) eqn:Ex; [done|]. apply IH. apply (Hs n eq_refl). right.
      intros (x & Hx & Ex')%list_elem_of_omap. apply not_true_iff_false in Ex. apply Ex, existsb_exists. exists x.
      split; [by apply list_elem_of_In|]. by apply bool_decide_true.
  - apply IH. rewrite <- app_assoc. eapply nodup_replace; [exact Hn|]. intros m Em. cbn in En. congruence.
Qed.

Lemma rename_progress done todo : NoDup (omap canonical_key (done ++ todo)) -> is_Some (rename_rows done todo).
Proof.
  revert done. induction todo as [|r todo IH]; intros done Hn; cbn [rename_rows]; [by eexists|].
  set (r' := canonical_cell "name" r).
  assert (canonical_key r' = canonical_key r) as Ec.
  { unfold canonical_key, r'. rewrite text_canonical. destruct (text_of "name" r); cbn; [by rewrite sql_canonical_idem|done]. }
  assert (is_Some (rename_rows (done ++ [r']) todo)) as Hs.
  { apply IH. rewrite <- app_assoc. eapply nodup_replace; [exact Hn|]. intros m Em. left. congruence. }
  destruct (text_of "name" r') as [n|] eqn:En; [|done]. destruct (negb _ && existsb _ _) eqn:E; [|done]. exfalso.
  apply andb_prop in E as [_ (x & Hx & Ex)%existsb_exists]. bsimp.
  unfold r' in En. rewrite text_canonical in En. fold (canonical_key r) in En.
  assert (canonical_key x = Some n) as Ex'.
  { unfold canonical_key. rewrite Ex. cbn. f_equal. unfold canonical_key in En. destruct (text_of "name" r); [|done].
    injection En as <-. apply sql_canonical_idem. }
  rewrite omap_middle in Hn. cbn [omap list_omap] in Hn. rewrite En in Hn. apply NoDup_cons in Hn as [Hn _].
  apply Hn, list_elem_of_omap. exists x. split; [by apply list_elem_of_In|done].
Qed.

Lemma rename_settled done todo : (forall r n, r ∈ todo -> text_of "name" r = Some n -> sql_canonical n = n) ->
  rename_rows done todo = Some (done ++ todo).
Proof.
  revert done. induction todo as [|r todo IH]; intros done H; cbn [rename_rows]; [by rewrite app_nil_r|].
  rewrite canonical_cell_same by (intros s; apply H; left).
  assert (rename_rows (done ++ [r]) todo = Some (done ++ r :: todo)) as E.
  { rewrite IH; [by rewrite <- app_assoc|]. intros x n Hx. apply H. by right. }
  destruct (text_of "name" r) as [n|]; [|done]. by rewrite bool_decide_true.
Qed.

(** ** One statement *)

Definition effect (s : statement) (f : file) : option file :=
  match exec s f with Ok f' => Some f' | Err e => if duplicate e then Some f else None end.

(** No registration is lost: the name keeps a row, and one that is not older. *)
Definition covers (f f' : file) : Prop := forall tb r n u, f_tables f !! "agents" = Some tb -> r ∈ t_rows tb ->
  canonical_key r = Some n -> text_of "updated_at" r = Some u ->
  exists tb' r' u', f_tables f' !! "agents" = Some tb' /\ r' ∈ t_rows tb' /\ canonical_key r' = Some n /\
    text_of "updated_at" r' = Some u' /\ Str.ltb u' u = false.

Definition step_ok (f f' : file) : Prop := ahead f f' /\ wf_file f' /\ covers f f'.

Lemma ltb_irrefl u : Str.ltb u u = false.
Proof. unfold Str.ltb, String.ltb. by rewrite compare_refl. Qed.

Lemma covers_refl f : covers f f.
Proof. intros tb r n u Ht Hr Hn Hu. exists tb, r, u. split_and!; try done. apply ltb_irrefl. Qed.

Lemma covers_trans f1 f2 f3 : covers f1 f2 -> covers f2 f3 -> covers f1 f3.
Proof.
  intros H1 H2 tb r n u Ht Hr Hn Hu. destruct (H1 tb r n u Ht Hr Hn Hu) as (tb2 & r2 & u2 & Ht2 & Hr2 & Hn2 & Hu2 & L2).
  destruct (H2 tb2 r2 n u2 Ht2 Hr2 Hn2 Hu2) as (tb3 & r3 & u3 & Ht3 & Hr3 & Hn3 & Hu3 & L3).
  exists tb3, r3, u3. split_and!; try done. by eapply ltb_ge_trans.
Qed.

Lemma covers_rows f t tb tb' : wf_file f -> f_tables f !! t = Some tb ->
  (t = "agents" -> forall r, r ∈ t_rows tb -> exists r', r' ∈ t_rows tb' /\ row_ahead t r r') -> covers f (with_table t tb' f).
Proof.
  intros W Ht H tba r n u Hta Hr Hn Hu. unfold with_table. cbn [f_tables]. destruct (decide (t = "agents")) as [->|Hne].
  - assert (tba = tb) as -> by congruence. destruct (H eq_refl r Hr) as (r' & Hr' & A). exists tb', r', u.
    rewrite lookup_insert_eq. split_and!; try done.
    + rewrite <- Hn. apply (ahead_name _ _ A). eapply base_cell; [by apply (wf_tables f W)|done|in_base].
    + rewrite <- Hu. apply (ahead_stamp _ _ A). by eexists.
    + apply ltb_irrefl.
  - exists tba, r, u. rewrite lookup_insert_ne by done. split_and!; try done. apply ltb_irrefl.
Qed.

(** Another table in the place of one, which is ahead of it. *)
Lemma change_table t tb tb' f : wf_file f -> f_tables f !! t = Some tb -> table_ahead t tb tb' ->
  (forall r c, r ∈ t_rows tb' -> c ∈ t_columns tb' <-> is_Some (snd r !! c)) ->
  (t = "agents" -> NoDup (omap (text_of "name") (t_rows tb'))) ->
  ahead f (with_table t tb' f) /\ wf_file (with_table t tb' f).
Proof.
  intros W Ht A Hc Hn. assert (ahead f (with_table t tb' f)) as HA.
  { split; [done|]. intros t1 tb1 H1. unfold with_table. cbn [f_tables]. destruct (decide (t1 = t)) as [->|Hne].
    - rewrite lookup_insert_eq. exists tb'. split; [done|]. congruence.
    - rewrite lookup_insert_ne by done. exists tb1. split; [done|]. apply table_ahead_refl. }
  split; [done|]. destruct A as (C & R & L). unfold with_table. split; cbn [f_tables f_indexes].
  - intros t1 tb1. destruct (decide (t1 = t)) as [->|Hne]; [|rewrite lookup_insert_ne by done; apply (wf_tables f W)].
    rewrite lookup_insert_eq. intros [= <-]. destruct (wf_tables f W t tb Ht) as [B _ I]. split; [set_solver|exact Hc|].
    eapply sublist_NoDup; [exact I|]. eapply thinned_ids; [exact R|]. by intros r r' (? & _).
  - intros tb1. destruct (decide (t = "agents")) as [->|Hne]; [|rewrite lookup_insert_ne by done; apply (wf_names f W)].
    rewrite lookup_insert_eq. intros [= <-]. by apply Hn.
  - intros tb1 r1. destruct (decide (t = "agents")) as [->|Hne]; [|rewrite lookup_insert_ne by done; apply (wf_stamps f W)].
    rewrite lookup_insert_eq. intros [= <-] Hr. destruct (thinned_elem _ _ _ _ R Hr) as (r & Hr' & Ha).
    rewrite (ahead_stamp _ _ Ha) by (by eapply wf_stamps). by eapply wf_stamps.
  - intros Hi tb1. destruct (decide (t = "agents")) as [->|Hne]; [|rewrite lookup_insert_ne by done; by apply (wf_panes f W)].
    rewrite lookup_insert_eq. intros [= <-]. eapply ahead_panes; [exact W|exact Ht|by split_and!|]. by apply (wf_panes f W).
Qed.

(** Every row in its place, with the same cells. *)
Lemma change_rows t tb g f : wf_file f -> f_tables f !! t = Some tb ->
  (forall r, r ∈ t_rows tb -> row_ahead t r (g r) /\ same_cells r (g r)) ->
  (t = "agents" -> NoDup (omap (text_of "name") (map g (t_rows tb)))) ->
  step_ok f (with_table t (mkTable (t_columns tb) (map g (t_rows tb))) f).
Proof.
  intros W Ht H Hn. set (tb' := mkTable _ _).
  destruct (change_table t tb tb' f W Ht) as [HA HW]; [| |done|split; [done|split; [done|]]].
  - split; [done|]. split; [|by cbn [tb' t_rows]; rewrite length_map]. apply thinned_map. intros r Hr. by apply H.
  - intros r' c (r & -> & Hr)%list_elem_of_fmap. cbn [tb' t_columns]. rewrite (proj2 (H r Hr) c).
    by apply (wt_cells _ _ (wf_tables f W t tb Ht)).
  - eapply covers_rows; [done|done|]. intros -> r Hr. exists (g r). split; [by apply list_elem_of_fmap_2|]. by apply H.
Qed.

Lemma one_column c rows : omap (fun r => mapM (fun c => text_of c r) [c]) rows = map (fun p => [p]) (omap (text_of c) rows).
Proof.
  induction rows as [|r rows IH]; [done|]. cbn [omap list_omap]. cbn [mapM]. destruct (text_of c r) as [p|]; cbn; [|exact IH].
  f_equal. exact IH.
Qed.

Lemma index_panes rows : NoDup (omap (fun r => mapM (fun c => text_of c r) ["pane_id"]) rows) <-> NoDup (omap (text_of "pane_id") rows).
Proof.
  rewrite one_column. split; [apply NoDup_fmap_1|]. apply NoDup_fmap_2. intros x y [= ->]. done.
Qed.

(** A statement of the program: tables have their columns, and the only unique index is
    the one on the panes. *)
Definition statement_ok (s : statement) : bool :=
  match s with
  | CreateTable t cs => bool_decide (Forall (fun c => c ∈ cs) (base t))
  | CreateIndex u i t cs =>
      bool_decide (t ∈ ["messages"; "agents"]) &&
      if bool_decide (i = "idx_agents_pane_id") then u && bool_decide (t = "agents") && bool_decide (cs = ["pane_id"]) else negb u
  | AddColumn t _ _ => bool_decide (t ∈ ["messages"; "agents"])
  | _ => true
  end.

Lemma add_column_step t c v tb f : wf_file f -> f_tables f !! t = Some tb -> c ∉ t_columns tb ->
  step_ok f (with_table t (add_column c v tb) f).
Proof.
  intros W Ht Hc. pose proof (wf_tables f W t tb Ht) as Wt.
  assert (forall c', c' ∈ base t -> c' <> c) as Hb by (intros c' Hb ->; by apply Hc, (wt_base t tb Wt)).
  assert (forall r, r ∈ t_rows tb -> row_ahead t r (set_cell c v r)) as Hr.
  { intros r Hr. split; [done|]. split; [intros ->; apply text_set, Hb; in_base|]. intros c' v' Hv. exists v'. split; [|by left].
    unfold set_cell. cbn [snd]. rewrite lookup_insert_ne; [done|]. intros ->. apply Hc, (wt_cells t tb Wt r c' Hr). by eexists. }
  destruct (change_table t tb (add_column c v tb) f W Ht) as [HA HW]; [| | |split; [done|split; [done|]]].
  - split; [cbn [add_column t_columns]; set_solver|]. split; [by apply thinned_map|]. by cbn [add_column t_rows]; rewrite length_map.
  - intros r' c' (r & -> & Hx)%list_elem_of_fmap. cbn [add_column t_columns]. unfold set_cell. cbn [snd].
    rewrite elem_of_app, list_elem_of_singleton, (wt_cells t tb Wt r c' Hx).
    destruct (decide (c' = c)) as [->|Hne]; [rewrite lookup_insert_eq|rewrite lookup_insert_ne by done].
    + split; [by eexists|by right].
    + split; [by intros [?|?]|by left].
  - intros ->. cbn [add_column t_rows]. pose proof (wf_names f W tb Ht) as Hn. replace (omap _ _) with (omap (text_of "name") (t_rows tb)); [done|].
    clear -Hb. induction (t_rows tb) as [|r l IH]; [done|]. cbn [map omap list_omap]. rewrite text_set by (apply Hb; in_base).
    destruct (text_of "name" r); [by f_equal|exact IH].
  - eapply covers_rows; [done|done|]. intros _ r Hx. exists (set_cell c v r). split; [by apply list_elem_of_fmap_2|by apply Hr].
Qed.

Lemma newest_rows rows : forall r x, r ∈ List.filter (newest rows) rows -> x ∈ List.filter (newest rows) rows -> superseded_by r x = false.
Proof.
  intros r x Hr Hx. apply list_elem_of_In, filter_In in Hr as [_ Hn]. apply list_elem_of_In, filter_In in Hx as [Hx _].
  unfold newest in Hn. apply negb_true_iff in Hn. apply not_true_is_false. intros H. apply not_true_iff_false in Hn.
  apply Hn, existsb_exists. by exists x.
Qed.

Lemma newest_elem rows r : r ∈ List.filter (newest rows) rows <-> r ∈ rows /\ forall x, x ∈ rows -> superseded_by r x = false.
Proof.
  rewrite list_elem_of_In, filter_In, <- list_elem_of_In. unfold newest. rewrite negb_true_iff, <- not_true_iff_false, existsb_exists.
  split; intros [Hr H]; (split; [done|]).
  - intros x Hx. apply not_true_is_false. intros E. apply H. exists x. split; [by apply list_elem_of_In|done].
  - intros (x & Hx & E). apply list_elem_of_In in Hx. by rewrite H in E.
Qed.

Lemma collapse_step tb f : wf_file f -> f_tables f !! "agents" = Some tb ->
  step_ok f (with_table "agents" (mkTable (t_columns tb) (List.filter (newest (t_rows tb)) (t_rows tb))) f).
Proof.
  intros W Ht. set (tb' := mkTable _ _). assert (thinned (row_ahead "agents") (t_rows tb) (t_rows tb')) as Hth
    by (apply thinned_filter, row_ahead_refl).
  destruct (change_table "agents" tb tb' f W Ht) as [HA HW]; [by split; [|split]| |intros _|split; [done|split; [done|]]].
  - intros r c Hr. apply newest_elem in Hr as [Hr _]. by apply (wt_cells _ _ (wf_tables f W _ tb Ht)).
  - eapply sublist_NoDup; [apply (wf_names f W tb Ht)|]. cbn [tb' t_rows].
    eapply (thinned_omap eq); [by apply thinned_filter|]. intros r r' _ <-. by left.
  - intros tba r n u Hta Hr Hn Hu. assert (tba = tb) as -> by congruence. unfold with_table. cbn [f_tables].
    destruct (newest_of (t_rows tb) r) as [Hm|(b & Hb & Hrb & Hm)].
    + exists tb', r, u. rewrite lookup_insert_eq. split_and!; try done; [|apply ltb_irrefl]. by apply newest_elem.
    + apply superseded_spec in Hrb as (n' & ub & ur & Hbn & Hrn & Hub & Hur & Hl & _).
      exists tb', b, ub. rewrite lookup_insert_eq. split_and!; try done; [|congruence|congruence]. by apply newest_elem.
Qed.

Lemma missing_table t : bool_decide (t ∈ ["messages"; "agents"]) = true -> duplicate (no_such_table t) = false.
Proof. intros H. bsimp. by repeat (apply elem_of_cons in H as [->|H]; [reflexivity|]); apply elem_of_nil in H. Qed.

Lemma effect_step s f f' : statement_ok s = true -> wf_file f -> effect s f = Some f' -> step_ok f f' /\ holds s f'.
Proof.
  intros Hs W. pose proof (wf_tables f W) as Wt.
  assert (step_ok f f) as Hrefl by (split; [apply ahead_refl|split; [done|apply covers_refl]]).
  unfold effect. destruct s as [t cs|u i t cs|t c v| | | |]; cbn [exec statement_ok holds on_table] in *.
  - destruct (f_tables f !! t) as [tb|] eqn:Ht; intros [= <-]; [split; [done|by eexists]|]. bsimp.
    split; [|unfold with_table; cbn [f_tables]; rewrite lookup_insert_eq; by eexists].
    assert (forall t1 tb1, f_tables f !! t1 = Some tb1 -> f_tables (with_table t (mkTable cs []) f) !! t1 = Some tb1) as Hk.
    { intros t1 tb1 H1. unfold with_table. cbn [f_tables]. rewrite lookup_insert_ne; [done|]. congruence. }
    split; [|split].
    + split; [done|]. intros t1 tb1 H1. exists tb1. split; [by apply Hk|apply table_ahead_refl].
    + unfold with_table. split; cbn [f_tables f_indexes].
      * intros t1 tb1. destruct (decide (t1 = t)) as [->|Hne]; [|rewrite lookup_insert_ne by done; apply Wt].
        rewrite lookup_insert_eq. intros [= <-]. split; cbn; [|set_solver|constructor]. intros c Hc. by eapply Forall_forall in Hs.
      * intros tb1. destruct (decide (t = "agents")) as [->|Hne]; [|rewrite lookup_insert_ne by done; apply (wf_names f W)].
        rewrite lookup_insert_eq. intros [= <-]. constructor.
      * intros tb1 r1. destruct (decide (t = "agents")) as [->|Hne]; [|rewrite lookup_insert_ne by done; apply (wf_stamps f W)].
        rewrite lookup_insert_eq. intros [= <-] Hr. cbn in Hr. set_solver.
      * intros Hi tb1. destruct (decide (t = "agents")) as [->|Hne]; [|rewrite lookup_insert_ne by done; by apply (wf_panes f W)].
        rewrite lookup_insert_eq. intros [= <-]. constructor.
    + intros tb1 r n u Ht1 Hr Hn Hu. exists tb1, r, u. split_and!; try done; [by apply Hk|apply ltb_irrefl].
  - destruct (decide (i ∈ f_indexes f)) as [Hi|Hi]; [rewrite bool_decide_true by done; intros [= <-]; by split|rewrite bool_decide_false by done].
    apply andb_prop in Hs as [Hm Hs]. destruct (f_tables f !! t) as [tb|] eqn:Ht; [|by rewrite missing_table].
    destruct (forallb (fun c => bool_decide (c ∈ t_columns tb)) cs); cbn [negb]; [|by cbv beta iota; change (duplicate (ErrMsg "no such column")) with false].
    destruct (u && negb (bool_decide (NoDup _))) eqn:Eu; [by cbv beta iota; change (duplicate unique_failed) with false|]. intros [= <-]. split; [|cbn; left].
    split; [|split].
    + split; [cbn; set_solver|]. intros t1 tb1 H1. exists tb1. split; [done|apply table_ahead_refl].
    + split; cbn [f_tables f_indexes]; [exact Wt|apply (wf_names f W)|apply (wf_stamps f W)|].
      intros [<-|Hp]%elem_of_cons tb1 H1; [|by apply (wf_panes f W)].
      rewrite bool_decide_true in Hs by done. apply andb_prop in Hs as [[-> Hta]%andb_prop Hcs]. bsimp. subst t cs.
      cbn [andb] in Eu. apply negb_false_iff, bool_decide_eq_true_1 in Eu. assert (tb1 = tb) as -> by congruence. by apply index_panes.
    + exact (covers_refl f).
  - destruct (f_tables f !! t) as [tb|] eqn:Ht; [|by rewrite missing_table].
    destruct (decide (c ∈ t_columns tb)) as [Hc|Hc]; [rewrite bool_decide_true by done|rewrite bool_decide_false by done].
    + destruct (duplicate _); [|done]. intros [= <-]. split; [done|]. by exists tb.
    + intros [= <-]. split; [by apply add_column_step|]. exists (add_column c v tb). unfold with_table. cbn [f_tables].
      rewrite lookup_insert_eq. split; [done|]. cbn [add_column t_columns]. set_solver.
  - unfold on_table, on_rows. destruct (f_tables f !! "agents") as [tb|] eqn:Ht; [|by rewrite missing_table]. intros [= <-]. split.
    + apply change_rows; [done|done| |intros _].
      * intros r _. split; [apply heal_ahead|apply heal_cells].
      * pose proof (wf_names f W tb Ht) as Hn. set (g := heal_pane (t_rows tb)).
        assert (forall r, text_of "name" (g r) = text_of "name" r) as Hg.
        { intros r. unfold g, heal_pane. destruct (text_of "pane_id" r); [|done]. destruct (earlier_holder _ r); [|done]. by apply text_set. }
        clearbody g. replace (omap _ _) with (omap (text_of "name") (t_rows tb)); [done|].
        clear -Hg. induction (t_rows tb) as [|r l IH]; [done|]. cbn [map omap list_omap]. rewrite Hg.
        destruct (text_of "name" r); [by f_equal|exact IH].
    + unfold with_table. cbn [f_tables]. eexists. rewrite lookup_insert_eq. split; [done|]. cbn [t_rows].
      apply heal_nodup, (wt_ids _ _ (Wt _ _ Ht)).
  - unfold on_table, on_rows. destruct (f_tables f !! "agents") as [tb|] eqn:Ht; [|by rewrite missing_table]. intros [= <-]. split; [by apply collapse_step|].
    unfold with_table. cbn [f_tables]. eexists. rewrite lookup_insert_eq. split; [done|]. cbn [t_rows]. apply newest_rows.
  - unfold on_table. destruct (f_tables f !! "agents") as [tb|] eqn:Ht; [|by rewrite missing_table].
    destruct (rename_rows [] (t_rows tb)) as [res|] eqn:Er; cbn [option_map]; [|by cbv beta iota; change (duplicate unique_failed) with false]. intros [= <-].
    pose proof (rename_nodup [] _ _ (wf_names f W tb Ht) Er) as Hn. apply rename_is_map in Er. cbn [app] in Er. subst res. split.
    + apply change_rows; [done|done| |done]. intros r _. split; [apply canonical_ahead; by left|apply canonical_cells].
    + unfold with_table. cbn [f_tables]. eexists. rewrite lookup_insert_eq. split; [done|]. cbn [t_rows].
      intros r' n (r & -> & Hr)%list_elem_of_fmap. rewrite text_canonical. destruct (text_of "name" r); [|done]. intros [= <-].
      apply sql_canonical_idem.
  - unfold on_table, on_rows. destruct (f_tables f !! "messages") as [tb|] eqn:Ht; [|by rewrite missing_table]. intros [= <-]. split.
    + apply change_rows; [done|done| |done]. intros r _. unfold rename_pending. destruct (pending_row r) eqn:Ep.
      * split; [apply canonical_ahead; by right|apply canonical_cells].
      * split; [apply row_ahead_refl|done].
    + unfold with_table. cbn [f_tables]. eexists. rewrite lookup_insert_eq. split; [done|]. cbn [t_rows].
      intros r' n (r & -> & Hr)%list_elem_of_fmap. unfold rename_pending. destruct (pending_row r) eqn:Ep.
      * intros _. rewrite text_canonical. destruct (text_of "to_agent" r); [|done]. intros [= <-]. apply sql_canonical_idem.
      * congruence.
Qed.

(** What holds is not done again. *)
Lemma duplicate_is c : duplicate (duplicate_column c) = true.
Proof. unfold duplicate. apply StrFacts.Contains_true. exists EmptyString, (": " +:+ c). reflexivity. Qed.

Lemma same_table t tb f : f_tables f !! t = Some tb -> with_table t tb f = f.
Proof. intros H. unfold with_table. rewrite insert_id by done. by destruct f. Qed.

Lemma filter_all {A} (p : A -> bool) l : (forall x, x ∈ l -> p x = true) -> List.filter p l = l.
Proof.
  induction l as [|x l IH]; intros H; cbn [List.filter]; [done|]. rewrite H by left. f_equal. apply IH. intros y Hy. apply H. by right.
Qed.

Lemma settled s f : holds s f -> effect s f = Some f.
Proof.
  unfold effect. destruct s as [t cs|u i t cs|t c v| | | |]; cbn [exec holds]; unfold on_table, on_rows.
  - by intros [tb ->].
  - intros Hi. by rewrite bool_decide_true.
  - intros (tb & -> & Hc). rewrite bool_decide_true by done. by rewrite duplicate_is.
  - intros (tb & Ht & Hp). rewrite Ht, heal_settled by done. f_equal. apply same_table. by destruct tb.
  - intros (tb & Ht & Hn). rewrite Ht, filter_all; [f_equal; apply same_table; by destruct tb|].
    intros r Hr. unfold newest. apply negb_true_iff, not_true_is_false. intros (x & Hx & E)%existsb_exists.
    apply list_elem_of_In in Hx. by rewrite Hn in E.
  - intros (tb & Ht & Hn). rewrite Ht, rename_settled by done. cbn [option_map app]. f_equal. apply same_table. by destruct tb.
  - intros (tb & Ht & Hn). rewrite Ht. f_equal. replace (map rename_pending (t_rows tb)) with (t_rows tb); [apply same_table; by destruct tb|].
    rewrite <- (map_id (t_rows tb)) at 1. apply map_ext_in. intros r Hr%list_elem_of_In. unfold rename_pending.
    destruct (pending_row r) eqn:Ep; [|done]. symmetry. apply canonical_cell_same. intros s. by apply Hn.
Qed.

(** ** The statements in their order *)

Definition creates (t : string) (s : statement) : bool := match s with CreateTable t' _ => bool_decide (t' = t) | _ => false end.
Definition heals (s : statement) : bool := match s with HealPanes => true | _ => false end.
Definition collapses (s : statement) : bool := match s with CollapseNames => true | _ => false end.
Definition adds (s : statement) : bool := match s with AddColumn _ _ _ => true | _ => false end.

(** What a statement needs has been done before. *)
Definition prepared (earlier : list statement) (s : statement) : bool :=
  match s with
  | CreateTable _ _ => true
  | CreateIndex u _ t cs => existsb (creates t) earlier && bool_decide (Forall (fun c => c ∈ base t) cs) && (negb u || existsb heals earlier)
  | AddColumn t _ _ => existsb (creates t) earlier
  | HealPanes | CollapseNames => existsb (creates "agents") earlier
  | RenameAgents => existsb collapses earlier
  | RenamePending => existsb (creates "messages") earlier
  end.

Fixpoint ordered (earlier ss : list statement) : bool :=
  match ss with
  | [] => true
  | s :: ss' => statement_ok s && prepared earlier s && ordered (s :: earlier) ss'
  end.

Lemma program_ordered : ordered [] (schemaSQL ++ migrations) = true.
Proof. vm_compute. reflexivity. Qed.

Definition all_hold (ss : list statement) (f : file) : Prop := forall s, s ∈ ss -> holds s f.

Lemma created t ss f : all_hold ss f -> existsb (creates t) ss = true -> exists tb, f_tables f !! t = Some tb.
Proof.
  intros H (s & Hs & E)%existsb_exists. apply list_elem_of_In in Hs. specialize (H s Hs).
  destruct s; cbn in E; try done. bsimp. by subst.
Qed.

Lemma collapsed_names f tb : wf_file f -> holds CollapseNames f -> f_tables f !! "agents" = Some tb ->
  NoDup (omap canonical_key (t_rows tb)).
Proof.
  intros W (tb' & Ht' & H) Ht. assert (tb' = tb) as -> by congruence. apply nodup_by_id; [apply (wt_ids _ _ (wf_tables f W _ _ Ht))|].
  intros r x n Hr Hx Er Ex. destruct (decide (fst r = fst x)) as [E|E]; [done|exfalso].
  destruct (wf_stamps f W tb r Ht Hr) as [ur Hur], (wf_stamps f W tb x Ht Hx) as [ux Hux].
  destruct (superseded_total r x n ur ux Er Ex Hur Hux E) as [Hs|Hs]; rewrite H in Hs; done.
Qed.

Lemma progress earlier s f : wf_file f -> all_hold earlier f -> statement_ok s = true -> prepared earlier s = true ->
  is_Some (effect s f).
Proof.
  intros W H Hs Hp. unfold effect. destruct s as [t cs|u i t cs|t c v| | | |]; cbn [exec prepared statement_ok] in *; unfold on_table, on_rows.
  - destruct (f_tables f !! t); by eexists.
  - destruct (decide (i ∈ f_indexes f)) as [Hi|Hi]; [rewrite bool_decide_true by done; by eexists|rewrite bool_decide_false by done].
    apply andb_prop in Hp as [[Ht Hc%bool_decide_eq_true_1]%andb_prop Hu]. apply andb_prop in Hs as [_ Hs].
    destruct (created _ _ _ H Ht) as [tb Etb]. rewrite Etb.
    assert (forallb (fun c => bool_decide (c ∈ t_columns tb)) cs = true) as Hcs.
    { apply forallb_forall. intros c Hin%list_elem_of_In. apply bool_decide_true, (wt_base _ _ (wf_tables f W _ _ Etb)). by eapply Forall_forall in Hc. }
    rewrite Hcs. cbn [negb]. destruct u; cbn [andb]; [|by eexists].
    destruct (bool_decide (i = _)); [|done]. apply andb_prop in Hs as [Hta%bool_decide_eq_true_1 Hcol%bool_decide_eq_true_1]. subst t cs.
    cbn [negb orb] in Hu. apply existsb_exists in Hu as (s & Hin & E). apply list_elem_of_In in Hin. specialize (H s Hin).
    destruct s; try done. destruct H as (tb' & Ht' & Hn). assert (tb' = tb) as -> by congruence.
    rewrite bool_decide_true by (by apply index_panes). by eexists.
  - destruct (created _ _ _ H Hp) as [tb ->]. destruct (bool_decide (c ∈ t_columns tb)); [rewrite duplicate_is|]; by eexists.
  - destruct (created _ _ _ H Hp) as [tb ->]. by eexists.
  - destruct (created _ _ _ H Hp) as [tb ->]. by eexists.
  - apply existsb_exists in Hp as (s & Hin & E). apply list_elem_of_In in Hin. specialize (H s Hin). destruct s; try done.
    pose proof H as (tb & Ht & _). rewrite Ht. destruct (rename_progress [] (t_rows tb)) as [res ->]; [by eapply collapsed_names|by eexists].
  - destruct (created _ _ _ H Hp) as [tb ->]. by eexists.
Qed.

Fixpoint effects (ss : list statement) (f : file) : option file :=
  match ss with
  | [] => Some f
  | s :: ss' => match effect s f with Some f' => effects ss' f' | None => None end
  end.

Lemma effects_app p q f : effects (p ++ q) f = match effects p f with Some f' => effects q f' | None => None end.
Proof. revert f. induction p as [|s p IH]; intros f; cbn [app effects]; [done|]. by destruct (effect s f). Qed.

Lemma step_ok_refl f : wf_file f -> step_ok f f.
Proof. intros W. split; [apply ahead_refl|split; [done|apply covers_refl]]. Qed.

Lemma step_ok_trans f1 f2 f3 : step_ok f1 f2 -> step_ok f2 f3 -> step_ok f1 f3.
Proof. intros (A1 & _ & C1) (A2 & W2 & C2). split; [by eapply ahead_trans|]. split; [done|by eapply covers_trans]. Qed.

(** Statements that are in order run, and what was done is still done at the end. *)
Lemma effects_run ss earlier f : wf_file f -> all_hold earlier f -> ordered earlier ss = true ->
  exists f', effects ss f = Some f' /\ step_ok f f' /\ all_hold earlier f' /\ all_hold ss f'.
Proof.
  revert earlier f. induction ss as [|s ss IH]; intros earlier f W H; cbn [ordered effects].
  - intros _. exists f. split; [done|]. split; [by apply step_ok_refl|]. split; [done|]. by intros s Hs%elem_of_nil.
  - intros [[Hs Hp]%andb_prop Ho]%andb_prop. destruct (progress earlier s f W H Hs Hp) as [f1 E]. rewrite E.
    destruct (effect_step s f f1 Hs W E) as [(A & W1 & C) Hd].
    assert (all_hold (s :: earlier) f1) as H1.
    { intros x [->|Hx]%elem_of_cons; [done|]. by apply (ahead_holds x f f1 W A), H. }
    destruct (IH _ f1 W1 H1 Ho) as (f2 & E2 & S & He & Hss). exists f2. split; [done|].
    split; [by eapply step_ok_trans|]. split; [intros x Hx; apply He; by right|].
    intros x [->|Hx]%elem_of_cons; [apply He; left|by apply Hss].
Qed.

Lemma ordered_prefix p q earlier : ordered earlier (p ++ q) = true -> ordered earlier p = true.
Proof.
  revert earlier. induction p as [|s p IH]; intros earlier; cbn [app ordered]; [done|].
  intros [H1 H2]%andb_prop. rewrite H1. by apply IH.
Qed.

Lemma effects_settled ss f : all_hold ss f -> effects ss f = Some f.
Proof.
  induction ss as [|s ss IH]; intros H; cbn [effects]; [done|]. rewrite settled by (apply H; left). apply IH. intros x Hx. apply H. by right.
Qed.

(** An interrupted run is completed by another one. *)
Lemma effects_resume p q f f1 f' : wf_file f -> ordered [] (p ++ q) = true -> effects p f = Some f1 ->
  effects (p ++ q) f = Some f' -> effects (p ++ q) f1 = Some f'.
Proof.
  intros W Ho E1 E. rewrite effects_app, E1 in E.
  destruct (effects_run p [] f W ltac:(by intros s Hs%elem_of_nil) (ordered_prefix _ _ _ Ho)) as (f1' & E1' & _ & _ & Hp).
  rewrite E1 in E1'. injection E1' as <-. by rewrite effects_app, effects_settled.
Qed.

(** ** Opening *)

Notation no_fault := (fun _ : nat => @None error).

(** No failure claims to be about a column that is there. *)
Definition honest (fault : nat -> option error) : Prop := forall i e, fault i = Some e -> duplicate e = false.

Lemma schema_runs ss f f' i : forallb (fun s => statement_ok s && negb (adds s)) ss = true -> effects ss f = Some f' ->
  apply_schema no_fault i ss f = (None, f').
Proof.
  revert f i. induction ss as [|s ss IH]; intros f i; cbn [forallb effects apply_schema]; [by intros _ [= ->]|].
  intros [[Hs Ha]%andb_prop Hss]%andb_prop. unfold effect, attempt. destruct (exec s f) as [f1|e] eqn:E; [by apply IH|].
  destruct (duplicate e) eqn:Ed; [|done]. exfalso. destruct s as [t cs|u j t cs|t c v| | | |]; cbn [exec statement_ok] in *; try done.
  - by destruct (f_tables f !! t).
  - apply andb_prop in Hs as [Hm _]. destruct (bool_decide (j ∈ f_indexes f)); [done|]. destruct (f_tables f !! t).
    + destruct (forallb (fun c => bool_decide (c ∈ t_columns t0)) cs); cbn [negb] in E; [|by injection E as <-].
      destruct (u && negb (bool_decide (NoDup _))); [by injection E as <-|done].
    + injection E as <-. by rewrite missing_table in Ed.
  - unfold on_table, on_rows in E. destruct (f_tables f !! "agents"); [done|by injection E as <-].
  - unfold on_table, on_rows in E. destruct (f_tables f !! "agents"); [done|by injection E as <-].
  - unfold on_table in E. destruct (f_tables f !! "agents") as [tb|]; [|by injection E as <-].
    destruct (rename_rows [] (t_rows tb)); cbn [option_map] in E; [done|by injection E as <-].
  - unfold on_table, on_rows in E. destruct (f_tables f !! "messages"); [done|by injection E as <-].
Qed.

Lemma migrations_run ss f f' i : effects ss f = Some f' -> apply_migrations no_fault i ss f = (None, f').
Proof.
  revert f i. induction ss as [|s ss IH]; intros f i; cbn [effects apply_migrations]; [by intros [= ->]|].
  unfold effect, attempt. destruct (exec s f) as [f1|e]; [by apply IH|]. destruct (duplicate e); [by apply IH|done].
Qed.

(** However it ends, a run has performed the first so many statements. *)
Lemma schema_prefix fault ss i f r f1 : honest fault -> apply_schema fault i ss f = (r, f1) ->
  exists p q, ss = p ++ q /\ effects p f = Some f1 /\ (r = None -> q = []).
Proof.
  intros Hf. revert i f. induction ss as [|s ss IH]; intros i f; cbn [apply_schema]; [intros [= <- <-]; by exists [], []|].
  unfold attempt. destruct (fault i) as [e|]; [intros [= <- <-]; by exists [], (s :: ss)|].
  destruct (exec s f) as [f2|e] eqn:E; [|intros [= <- <-]; by exists [], (s :: ss)].
  intros H. destruct (IH _ _ H) as (p & q & -> & Ep & Hq). exists (s :: p), q. split; [done|]. split; [|done].
  cbn [effects]. unfold effect. by rewrite E.
Qed.

Lemma migrations_prefix fault ss i f r f1 : honest fault -> apply_migrations fault i ss f = (r, f1) ->
  exists p q, ss = p ++ q /\ effects p f = Some f1 /\ (r = None -> q = []).
Proof.
  intros Hf. revert i f. induction ss as [|s ss IH]; intros i f; cbn [apply_migrations]; [intros [= <- <-]; by exists [], []|].
  unfold attempt. destruct (fault i) as [e|] eqn:Ef.
  - rewrite (Hf _ _ Ef). intros [= <- <-]. by exists [], (s :: ss).
  - destruct (exec s f) as [f2|e] eqn:E; [|destruct (duplicate e) eqn:Ed; [|intros [= <- <-]; by exists [], (s :: ss)]];
      intros H; destruct (IH _ _ H) as (p & q & -> & Ep & Hq); exists (s :: p), q; (split; [done|]); (split; [|done]);
      cbn [effects]; unfold effect; rewrite E; [done|by rewrite Ed].
Qed.

Lemma open_prefix prepare fault f r f1 : honest fault -> Open prepare fault f = (r, f1) ->
  exists p q, schemaSQL ++ migrations = p ++ q /\ effects p f = Some f1 /\ (r = None -> q = []).
Proof.
  intros Hf. unfold Open. destruct (first_failure prepare) as [e|]; [intros [= <- <-]; by exists [], (schemaSQL ++ migrations)|].
  destruct (apply_schema fault 0 schemaSQL f) as [r0 f0] eqn:E0. destruct (schema_prefix _ _ _ _ _ _ Hf E0) as (p & q & Es & Ep & Hq).
  destruct r0 as [e|].
  - intros [= <- <-]. exists p, (q ++ migrations). by rewrite app_assoc, <- Es.
  - rewrite Hq, app_nil_r in Es by done. intros E. destruct (migrations_prefix _ _ _ _ _ _ Hf E) as (p' & q' & Em & Ep' & Hq').
    exists (p ++ p'), q'. split; [by rewrite <- app_assoc, <- Em, <- Es|]. split; [|done]. by rewrite effects_app, Ep.
Qed.

Lemma open_all f f' : effects (schemaSQL ++ migrations) f = Some f' -> Open [] no_fault f = (None, f').
Proof.
  rewrite effects_app. destruct (effects schemaSQL f) as [f1|] eqn:E; [|done]. intros E'. unfold Open. cbn [first_failure].
  rewrite (schema_runs _ _ f1) by (vm_compute; reflexivity || exact E). by apply migrations_run.
Qed.

(** C37: opening repairs, can be interrupted, and then changes nothing.  Take any file whose
    tables, where they exist, have at least the columns they always had.  Opening it
    without a failure succeeds: every table, column and index of today is there, no two
    agents have a pane or a canonical name in common, and every agent and every pending
    message is stored under a canonical name.  On the way no cell has changed but panes
    that were given up and names that became canonical, in the rows of agents and the
    recipients of pending messages; no message is gone, and every name keeps a
    registration that is not older.  Whatever fails while another run opens the file, that run
    leaves a file of which the same is true, and opening it again gives the very same result;
    in particular, opening a file that was opened changes nothing. *)
Theorem open_heals f : wf_file f ->
  exists f', Open [] no_fault f = (None, f') /\ ahead f f' /\ covers f f' /\ wf_file f' /\
    (forall s, s ∈ schemaSQL ++ migrations -> holds s f') /\
    (forall agents, f_tables f' !! "agents" = Some agents -> NoDup (omap canonical_key (t_rows agents))) /\
    forall prepare fault r f1, honest fault -> Open prepare fault f = (r, f1) ->
      ahead f f1 /\ covers f f1 /\ wf_file f1 /\ Open [] no_fault f1 = (None, f') /\ (r = None -> f1 = f').
Proof.
  intros W. assert (forall g, all_hold [] g) as Hnil by (intros g s Hs; by apply elem_of_nil in Hs).
  destruct (effects_run _ [] f W (Hnil f) program_ordered) as (f' & E & (A & W' & C) & _ & H).
  exists f'. split; [by apply open_all|]. do 3 (split; [done|]). split; [exact H|]. split.
  { intros tb Ht. apply (collapsed_names f'); [done| |done]. apply H. apply list_elem_of_In. cbn. repeat (first [left; reflexivity|right]). }
  intros prepare fault r f1 Hf Ho. destruct (open_prefix _ _ _ _ _ Hf Ho) as (p & q & Epq & Ep & Hq).
  pose proof program_ordered as Hord. rewrite Epq in E, Hord.
  destruct (effects_run p [] f W (Hnil f) (ordered_prefix _ _ _ Hord)) as (f1' & Ep' & (A1 & W1 & C1) & _).
  rewrite Ep in Ep'. injection Ep' as <-. do 3 (split; [done|]). split.
  - apply open_all. rewrite Epq. by apply (effects_resume p q f f1 f').
  - intros Hr. rewrite Hq, app_nil_r in E by done. congruence.
Qed.

(** ** Concrete files *)

Definition cells (l : list (string * value)) : gmap string value := list_to_map l.

(** A file of the first version: an agent that came back under another case, in the same pane,
    and messages to it under the old name. *)
Definition old_agent (id : Z) (name stamp : string) : row :=
  (id, cells [("name", VText name); ("pane_id", VText "%1"); ("paused", VInt 0); ("updated_at", VText stamp)]).

Definition old_message (id : Z) (state : string) : row :=
  (id, cells [("id", VInt id); ("public_id", VText (Str.itoa id)); ("from_agent", VText "bob"); ("to_agent", VText "Alice");
    ("reply_to", VNull); ("body", VText "hello"); ("state", VText state); ("created_at", VText "2026-01-01T00:00:00.000Z");
    ("delivered_at", VNull); ("error", VNull)]).

Definition old_file : file :=
  mkFile (<["agents" := mkTable (base "agents") [old_agent 1 "Alice" "2026-01-01T00:00:00.000Z"; old_agent 2 "alice" "2026-02-01T00:00:00.000Z"]]>
    (<["messages" := mkTable (base "messages") [old_message 1 "delivered"; old_message 2 "queued"; old_message 3 "delivering"]]> ∅)) [].

Definition texts (t c : string) (f : file) : list (Z * option string) :=
  match f_tables f !! t with Some tb => map (fun r => (fst r, text_of c r)) (t_rows tb) | None => [] end.

Lemma old_cells (cs : list string) (rows : list row) :
  Forall (fun r => dom (snd r) = (list_to_set cs : gset string)) rows ->
  forall r c, r ∈ rows -> c ∈ cs <-> is_Some (snd r !! c).
Proof. intros H r c Hr. eapply Forall_forall in H; [|exact Hr]. by rewrite <- elem_of_dom, H, elem_of_list_to_set. Qed.

Lemma old_wf : wf_file old_file.
Proof.
  split.
  - intros t tb. unfold old_file. cbn [f_tables]. destruct (decide (t = "agents")) as [->|Ha].
    { rewrite lookup_insert_eq. intros [= <-]. split; [done| |].
      - apply old_cells. repeat (apply List.Forall_cons; [apply (bool_decide_eq_true_1 (_ = _)); vm_compute; reflexivity|]). done.
      - apply (bool_decide_eq_true_1 (NoDup _)). vm_compute. reflexivity. }
    rewrite lookup_insert_ne by done. destruct (decide (t = "messages")) as [->|Hm].
    { rewrite lookup_insert_eq. intros [= <-]. split; [done| |].
      - apply old_cells. repeat (apply List.Forall_cons; [apply (bool_decide_eq_true_1 (_ = _)); vm_compute; reflexivity|]). done.
      - apply (bool_decide_eq_true_1 (NoDup _)). vm_compute. reflexivity. }
    by rewrite lookup_insert_ne.
  - intros tb. cbn [old_file f_tables]. rewrite lookup_insert_eq. intros [= <-].
    apply (bool_decide_eq_true_1 (NoDup _)). vm_compute. reflexivity.
  - intros tb r. cbn [old_file f_tables]. rewrite lookup_insert_eq. intros [= <-] Hr. cbn [t_rows] in Hr.
    repeat (apply elem_of_cons in Hr as [->|Hr]; [by eexists|]). by apply elem_of_nil in Hr.
  - intros Hi. by apply elem_of_nil in Hi.
Qed.

(** The disk is full from the thirtieth statement on. *)
Definition full_disk (i : nat) : option error := if (30 <=? i)%nat then Some (ErrMsg "database or disk is full") else None.

Lemma open_heals_witness :
  exists f', Open [] no_fault old_file = (None, f') /\ Open [] no_fault f' = (None, f') /\
    Open [] no_fault (snd (Open [] full_disk old_file)) = (None, f') /\
    texts "agents" "name" f' = [(2, Some "alice")].
Proof.
  destruct (open_heals old_file old_wf) as (f' & E & _ & _ & _ & _ & _ & H). exists f'. split; [exact E|].
  split; [apply (H [] no_fault None f'); [done|exact E]|].
  assert (honest full_disk) as Hd.
  { intros i e. unfold full_disk. destruct (30 <=? i)%nat; [|done]. intros [= <-]. reflexivity. }
  split; [|replace f' with (snd (Open [] no_fault old_file)) by (by rewrite E); vm_compute; reflexivity].
  destruct (Open [] full_disk old_file) as [r f1] eqn:E1. apply (H [] full_disk r f1 Hd E1).
Defined.

(** Two repairs that do not fit: the pane stays with the older row, which is then removed. *)
Lemma survivor_loses_pane :
  texts "agents" "pane_id" old_file = [(1, Some "%1"); (2, Some "%1")] /\
  texts "agents" "pane_id" (snd (Open [] no_fault old_file)) = [(2, None)].
Proof. vm_compute. done. Qed.

(** A message that was being delivered keeps the old name, under which nobody recovers it. *)
Lemma inflight_keeps_old_name :
  texts "messages" "to_agent" (snd (Open [] no_fault old_file)) = [(1, Some "Alice"); (2, Some "alice"); (3, Some "Alice")].
Proof. vm_compute. done. Qed.
