(* ===== verification/CommandLine.v ===== *)
(** * The command line (internal/cli: flagorder.go, run.go, deprecation.go, log.go,
      budgetcmd.go, flag_operator.go)

    The order of flags and positional arguments, over Go's parser of flags written out;
    the choice of the subcommand; and the commands that are little more than a call. *)

From S2P Require Import Prelude GoStd StoreTypes Messages Agents Queries Render TmuxIO Mailman Config Send ServeConfig Alone Upkeep Views Identity Register Notify.

Open Scope Z_scope.
Open Scope tell_scope.

(** ** [flag.FlagSet] *)

(** A defined flag: whether it is one that needs no value, and which texts it accepts. *)
Record Flag : Type := mkFlag {
  fg_IsBool : bool;
  fg_Set : string -> bool
}.

Definition FlagSet : Type := string -> option Flag.

(** What the parser makes of one argument. *)
Inductive token : Type :=
  | Positional
  | Terminator
  | BadSyntax
  | Named (name : string) (value : option string).

Definition token_of (s : string) : token :=
  if (String.length s <? 2)%nat || negb (Str.HasPrefix s "-") then Positional
  else if bool_decide (s = "--") then Terminator
  else
    let name := if Str.HasPrefix s "--" then Str.drop 2 s else Str.drop 1 s in
    if str_empty name || Str.HasPrefix name "-" || Str.HasPrefix name "=" then BadSyntax
    else match Str.Cut "=" name with
         | Some (n, v) => Named n (Some v)
         | None => Named name None
         end.

Definition bad_syntax (s : string) : error := ErrMsg ("bad flag syntax: " +:+ s).
Definition not_defined (n : string) : error := ErrMsg ("flag provided but not defined: -" +:+ n).
Definition needs_argument (n : string) : error := ErrMsg ("flag needs an argument: -" +:+ n).
Definition invalid_value (v n : string) : error := ErrMsg ("invalid value " +:+ Str.Quote v +:+ " for flag -" +:+ n).

Section Flags.
Context (fs : FlagSet).

Definition assign (f : Flag) (n v : string) (k : result (list (string * string) * list string))
    : result (list (string * string) * list string) :=
  if fg_Set f v then match k with Ok (sets, rest) => Ok ((n, v) :: sets, rest) | Err e => Err e end
  else Err (invalid_value v n).

(** [fs.Parse]: what was set, in order, and the arguments that are left. *)
Fixpoint Parse (args : list string) : result (list (string * string) * list string) :=
  match args with
  | [] => Ok ([], [])
  | s :: rest =>
      match token_of s with
      | Positional => Ok ([], args)
      | Terminator => Ok ([], rest)
      | BadSyntax => Err (bad_syntax s)
      | Named n v =>
          match fs n with
          | None => Err (not_defined n)
          | Some f =>
              if fg_IsBool f then assign f n (default "true" v) (Parse rest)
              else match v with
                   | Some v => assign f n v (Parse rest)
                   | None =>
                       match rest with
                       | [] => Err (needs_argument n)
                       | v :: rest' => assign f n v (Parse rest')
                       end
                   end
          end
      end
  end.

Definition isFlagToken (tok : string) : bool := (1 <? String.length tok)%nat && Str.HasPrefix tok "-".

Fixpoint trim_dashes (s : string) : string :=
  match s with
  | String a s' => if bool_decide (a = "-"%char) then trim_dashes s' else s
  | EmptyString => EmptyString
  end.

(** The flag tokens and the positional ones. *)
Fixpoint reorder (args : list string) : list string * list string :=
  match args with
  | [] => ([], [])
  | tok :: rest =>
      if bool_decide (tok = "--") then ([], rest)
      else if isFlagToken tok then
        let alone := let (f, p) := reorder rest in (tok :: f, p) in
        if Str.Contains tok "=" then alone
        else match fs (trim_dashes tok), rest with
             | Some fl, v :: rest' => if fg_IsBool fl then alone else let (f, p) := reorder rest' in (tok :: v :: f, p)
             | _, _ => alone
             end
      else let (f, p) := reorder rest in (f, tok :: p)
  end.

Definition reorderFlagsFirst (args : list string) : list string := let (f, p) := reorder args in f ++ p.
End Flags.

(** ** The subcommand *)

(** The handler of each subcommand. *)
Definition handlers : list (string * string) :=
  [("send", "runSendCLI"); ("budget", "runBudgetCLI"); ("resend", "runResendCLI"); ("flush", "runFlushCLI"); ("ask", "runAskCLI");
   ("wait-for-reply", "runWaitForReplyCLI"); ("check-replies", "runCheckRepliesCLI"); ("ping", "runPingCLI");
   ("control", "runControlCLI"); ("track", "runTrackCLI"); ("get", "runGetCLI"); ("inbox", "runInboxCLI"); ("sent", "runSentCLI");
   ("status", "runStatusCLI"); ("stats", "runStatsCLI"); ("digest", "runDigestCLI"); ("tail", "runTailCLI"); ("health", "runHealthCLI");
   ("observe-mailmen", "runObserveMailmenCLI"); ("doctor", "runDoctorCLI"); ("config", "runConfigCLI"); ("agents", "runAgentsCLI");
   ("whoami", "runWhoamiCLI"); ("set-pane-name", "runSetPaneNameCLI"); ("set-metabolism", "runSetMetabolismCLI");
   ("set-respawn-after-shrinks", "runSetRespawnAfterShrinksCLI"); ("set-relaunch-cmd", "runSetRelaunchCmdCLI");
   ("set-auto-restart", "runSetAutoRestartCLI"); ("set-session-id", "runSetSessionIDCLI"); ("register", "runRegisterCLI");
   ("unregister", "runUnregisterCLI"); ("serve", "runServeCLI"); ("pause", "runPauseCLI true"); ("resume", "runPauseCLI false");
   ("reset", "runResetCLI"); ("reap", "runReapCLI"); ("log", "runLogCLI"); ("thread", "runThreadCLI"); ("stranded", "runStrandedCLI");
   ("discover", "runDiscoverCLI"); ("state", "runStateCLI"); ("refresh-all-mcps", "runRefreshAllMcpsCLI");
   ("restart-mailmen", "runRestartMailmenCLI"); ("db", "runDBCLI"); ("bootstrap", "runBootstrapCLI");
   ("codex-install", "runCodexInstallCLI"); ("flag-operator", "runFlagOperatorCLI"); ("clear-operator-flag", "runClearOperatorFlagCLI");
   ("mcp", "runMCPCLI"); ("__remote-mcp-recv", "runRemoteRecvCLI"); ("hook-context", "runHookContextCLI"); ("note-compact", "runNoteCompactCLI")].

(** The subcommands of the usage text. *)
Definition usage_verbs : list string :=
  ["send"; "resend"; "flush"; "ask"; "wait-for-reply"; "check-replies"; "ping"; "control"; "track"; "get"; "inbox"; "sent"; "status";
   "stats"; "digest"; "tail"; "health"; "observe-mailmen"; "doctor"; "config"; "agents"; "whoami"; "set-pane-name"; "set-metabolism";
   "set-session-id"; "register"; "unregister"; "serve"; "pause"; "resume"; "reset"; "reap"; "log"; "thread"; "stranded"; "discover";
   "state"; "refresh-all-mcps"; "restart-mailmen"; "db"; "bootstrap"; "codex-install"; "mcp"; "hook-context"; "note-compact"].

Inductive invocation : Type :=
  | Usage (code : Z)
  | Version
  | Handled (handler : string) (args : list string)
  | Unknown (name : string).

Definition find_handler (name : string) : option string := snd <$> List.find (fun h => bool_decide (fst h = name)) handlers.

Definition Run (args : list string) : invocation :=
  match args with
  | [] => Usage exitUsage
  | name :: rest =>
      if bool_decide (name ∈ ["-h"; "--help"; "help"]) then Usage exitOK
      else if bool_decide (name ∈ ["-v"; "--version"; "version"]) then Version
      else match find_handler name with Some h => Handled h rest | None => Unknown name end
  end.

(** ** Deprecated names *)

Section Deprecation.
Context (BinaryName DeprecatedRemoval : string) (DeprecatedAliases : list string)
  (getenv : string -> string) (fileExists : string -> bool).

Definition warnIfDeprecatedName (argv0 : string) : list string :=
  match List.find (fun alias => bool_decide (Base argv0 = alias)) DeprecatedAliases with
  | Some alias => ["WARN deprecated_surface_used name=" +:+ alias +:+ " removal=" +:+ DeprecatedRemoval +:+ " — invoke " +:+
                   BinaryName +:+ " instead (ADR-0008)"]
  | None => []
  end.

Definition deprecatedRemovalVersion : string := "v1.0".

Definition warnIfDeprecatedEnv : list string :=
  omap (fun p => if str_empty (getenv (fst p)) then None
                 else Some ("WARN deprecated_env_var_used name=" +:+ fst p +:+ " removal=" +:+ deprecatedRemovalVersion +:+
                            " — set " +:+ snd p +:+ " instead (ADR-0008)"))
    [("CLAUDE_MSG_DB", "TMUX_TELL_DB"); ("CLAUDE_MSG_CONFIG", "TMUX_TELL_CONFIG")].

Definition legacy_warning (kind from to : string) : string :=
  "WARN legacy_data_path_in_use kind=" +:+ kind +:+ " removal=" +:+ deprecatedRemovalVersion +:+ " — migrate with: mv " +:+ from +:+ " " +:+ to.

Definition warnIfLegacyDataPath : list string :=
  (if str_empty (getenv "TMUX_TELL_DB") && str_empty (getenv "CLAUDE_MSG_DB") && snd (defaultDBLocationResolved getenv fileExists)
   then [legacy_warning "db" (legacyDataDir getenv) (defaultDataDir getenv)] else []) ++
  (if snd (Config.ResolvePath getenv fileExists) then [legacy_warning "config" Config.LegacyPath Config.DefaultPath] else []).

Definition dbPathSource (flagValue : string) : string :=
  if negb (str_empty flagValue) then "flag(--db)"
  else if negb (str_empty (getenv "TMUX_TELL_DB")) then "env(TMUX_TELL_DB)"
  else if negb (str_empty (getenv "CLAUDE_MSG_DB")) then "env(CLAUDE_MSG_DB)"
  else "default(env unset)".
End Deprecation.

(** ** The commands that are little more than a call *)

Inductive log_answer : Type :=
  | LogJSON (rows : list messageView)
  | LogText (text : string).

Section Commands.
Context (math_Pow : Q -> Q -> Q) (getenv : string -> string) (getppid : Z) (environ stat : Z -> option string) (BinaryName : string)
  (zone : Z -> Z) (ParseFloat : string -> option Q).

Definition log_footer (m : Message) : string :=
  "  state=" +:+ State_string (m_State m) +:+ "  created=" +:+ m_CreatedAt m +:+
  match m_DeliveredAt m with Some t => "  delivered=" +:+ t | None => EmptyString end +:+
  match m_Error m with Some e => "  error=" +:+ Str.Quote e | None => EmptyString end +:+ String Str.nl EmptyString.

(** A message as it was pasted, with a footer; each is rendered at its own instant. *)
Fixpoint log_text (threshold : Z) (first : bool) (msgs : list Message) : M string :=
  match msgs with
  | [] => go EmptyString
  | m :: msgs' =>
      now <! lift time_Now ;;
      rest <! log_text threshold false msgs' ;;
      go ((if first then EmptyString else String Str.nl EmptyString) +:+ render_Message zone m threshold now +:+ log_footer m +:+ rest)
  end.

Definition runLogWithStore (threadID format : string) (threshold : Z) : M (outcome log_answer) :=
  r <! query "GetThread" (GetThread threadID) ;;
  match r with
  | Err e => if errors_Is e ErrNotFound then go (Failed ("unknown id: " +:+ threadID) exitDataErr) else fail e exitInternal
  | Ok msgs =>
      if bool_decide (format = "json") then go (Done (LogJSON (map messageToMap msgs)))
      else if bool_decide (format ∈ ["text"; EmptyString]) then
        text <! log_text threshold true msgs ;; go (Done (LogText text))
      else go (Failed (unknown_format format) exitUsage)
  end.

Definition log_threshold (cfg : option Config.File) : Z :=
  let raw := Config.ResolveString cfg EmptyString "render-byte-marker-threshold" EmptyString in
  if str_empty raw then DefaultByteMarkerThreshold
  else match Config.ParseByteSize ParseFloat raw with Ok n => n | Err _ => DefaultByteMarkerThreshold end.

Definition runLogCLI (cfg : option Config.File) (thread format : string) : M (outcome log_answer) :=
  if str_empty thread then go (Failed "--thread <id> required" exitUsage)
  else runLogWithStore thread format (log_threshold cfg).

(** Without recipients, the quote of an empty send is the balance. *)
Definition balance_params (from body : string) (tunables : budgetTunables) : sendParams :=
  mkSend from EmptyString [] EmptyString body false false EmptyString false 0 false 0 0 0 0 tunables EmptyString true false false 0 false.

Definition runBudgetCLI (cfg : option Config.File) (from to body : string) : M answer :=
  who <! ResolveIdentity getenv from ;;
  match who with
  | Err e => go (JSONError (error_text e) exitInternal)
  | Ok (fromName, _) =>
      let on := negb (Config.ResolveInt cfg fromName "budget-enabled" 0 =? 0) in
      let tunables := resolveBudgetTunables (Config.ResolveInt cfg fromName) on in
      writeBudgetQuote math_Pow (balance_params fromName body tunables) (splitRecipients to)
  end.

(** The name given, or else the identity; never empty. *)
Definition sender_unknown : error :=
  ErrMsg ("cannot resolve sender identity: set $TMUX_AGENT_NAME, or register this pane (TMUX_PANE=" +:+ getenv "TMUX_PANE" +:+
          ") in the agents table").

Definition known_sender (r : result string) : result string :=
  match r with
  | Ok name => if str_empty name then Err sender_unknown else Ok name
  | Err e => Err e
  end.

Definition resolveSender (fromFlag : string) : M (result string) :=
  if negb (str_empty fromFlag) then go (Ok fromFlag)
  else r <! resolveMCPIdentity getenv getppid environ stat BinaryName EmptyString ;; go (known_sender r).

(** The message map: the flag that was set or cleared, or an error. *)
Inductive flag_answer : Type :=
  | FlagResult (r : flag_result) (code : Z)
  | Cleared (name : string)
  | FlagUsage
  | FlagFailed (msg : string) (code : Z).

Definition ok_format (format : string) : bool := bool_decide (format ∈ ["json"; "text"; EmptyString]).

(** An unknown format is noticed when there is something to write out. *)
Definition emitFlagOperatorResult (a : flag_answer) (format : string) : flag_answer :=
  if ok_format format then a else FlagFailed (unknown_format format) exitUsage.

Definition runFlagOperatorCLI (rest : list string) (from format : string) : M flag_answer :=
  match rest with
  | [] => go FlagUsage
  | _ =>
      let body := Str.Join rest " " in
      if str_empty body then go (FlagFailed "flag-operator: body required (the question or choice for the operator)" exitUsage)
      else
        who <! resolveSender from ;;
        match who with
        | Err e => go (FlagFailed (error_text e) exitInternal)
        | Ok sender =>
            r <! doFlagOperator BinaryName sender body ;;
            go (emitFlagOperatorResult (FlagResult (fst r) (snd r)) format)
        end
  end.

Definition clear_flag (sender : string) : M (result unit) :=
  store "SetAttentionState" (fun _ d => SetAttentionState sender AttentionStateIdle d).

Definition runClearOperatorFlagCLI (from format : string) : M flag_answer :=
  who <! resolveSender from ;;
  match who with
  | Err e => go (FlagFailed (error_text e) exitInternal)
  | Ok sender =>
      r <! clear_flag sender ;;
      go (match r with
          | Err e => FlagFailed ("clear attention_state: " +:+ error_text e) exitInternal
          | Ok _ => emitFlagOperatorResult (Cleared sender) format
          end)
  end.

Definition mcp_sender (injected : string) : M (result string) :=
  r <! resolveMCPIdentity getenv getppid environ stat BinaryName injected ;; go (known_sender r).

(** Over MCP a refusal is a result, and an unknown sender an error. *)
Definition mcpFlagOperatorHandler (injected body : string) : M (result flag_result) :=
  if str_empty body then go (Err (ErrMsg "body required (the question or choice for the operator)"))
  else
    who <! mcp_sender injected ;;
    match who with
    | Err e => go (Err e)
    | Ok sender => r <! doFlagOperator BinaryName sender body ;; go (Ok (fst r))
    end.

Definition mcpClearOperatorFlagHandler (injected : string) : M (result string) :=
  who <! mcp_sender injected ;;
  match who with
  | Err e => go (Err e)
  | Ok sender =>
      r <! clear_flag sender ;;
      go (match r with Err e => Err (ErrWrap ("clear attention_state: " +:+ error_text e) e) | Ok _ => Ok sender end)
  end.
End Commands.

(** * What the order of the arguments means

    Flags may stand anywhere: the reference reads the arguments from left to right, takes
    flags with their values wherever they are and keeps the others. *)

Section Anywhere.
Context (fs : FlagSet).

Fixpoint parse_anywhere (args : list string) : result (list (string * string) * list string) :=
  match args with
  | [] => Ok ([], [])
  | s :: rest =>
      match token_of s with
      | Positional => match parse_anywhere rest with Ok (sets, pos) => Ok (sets, s :: pos) | Err e => Err e end
      | Terminator => Ok ([], rest)
      | BadSyntax => Err (bad_syntax s)
      | Named n v =>
          match fs n with
          | None => Err (not_defined n)
          | Some f =>
              if fg_IsBool f then assign f n (default "true" v) (parse_anywhere rest)
              else match v with
                   | Some v => assign f n v (parse_anywhere rest)
                   | None =>
                       match rest with
                       | [] => Err (needs_argument n)
                       | v :: rest' => assign f n v (parse_anywhere rest')
                       end
                   end
          end
      end
  end.
End Anywhere.

(** ** Tokens *)

Lemma contains_cut c s : Str.Contains s (String c EmptyString) = match Str.Cut c s with Some _ => true | None => false end.
Proof.
  induction s as [|a s IH]; [reflexivity|]. cbn [Str.Contains Str.Cut]. rewrite IH. unfold Str.HasPrefix. cbn [String.prefix].
  destruct (Ascii.ascii_dec c a) as [->|Hne].
  - rewrite bool_decide_true by done. by destruct s.
  - rewrite bool_decide_false by congruence. by destruct (Str.Cut c s) as [[]|].
Qed.

Lemma token_positional s : token_of s = Positional <-> isFlagToken s = false.
Proof.
  unfold token_of, isFlagToken. destruct (String.length s <? 2)%nat eqn:E.
  - cbn [orb]. split; [|done]. intros _. apply Nat.ltb_lt in E. by replace (1 <? String.length s)%nat with false by (symmetry; apply Nat.ltb_ge; lia).
  - apply Nat.ltb_ge in E. replace (1 <? String.length s)%nat with true by (symmetry; apply Nat.ltb_lt; lia). cbn [orb andb].
    destruct (Str.HasPrefix s "-"); cbn [negb]; [|done]. split; [|done].
    destruct (bool_decide _); [done|]. destruct (_ || _ || _); [done|]. by destruct (Str.Cut _ _) as [[]|].
Qed.

Lemma token_terminator s : token_of s = Terminator -> s = "--".
Proof.
  unfold token_of. destruct (_ || _); [done|]. destruct (decide (s = "--")) as [->|Hne]; [done|]. rewrite bool_decide_false by done.
  destruct (_ || _ || _); [done|]. by destruct (Str.Cut _ _) as [[]|].
Qed.

Lemma dashes_stop name : Str.HasPrefix name "-" = false -> trim_dashes name = name.
Proof.
  destruct name as [|a name]; [done|]. unfold Str.HasPrefix. cbn [String.prefix trim_dashes].
  destruct (Ascii.ascii_dec "-" a) as [<-|Hne]; [by destruct name|]. by rewrite bool_decide_false by congruence.
Qed.

Lemma contains_dash s : Str.Contains (String "-" s) "=" = Str.Contains s "=".
Proof. reflexivity. Qed.

(** A name is what both readers take it for. *)
Lemma token_named s n v : token_of s = Named n v ->
  s <> "--" /\ isFlagToken s = true /\ Str.Contains s "=" = (match v with Some _ => true | None => false end) /\
  (v = None -> trim_dashes s = n).
Proof.
  intros H. assert (isFlagToken s = true) as Hf.
  { destruct (isFlagToken s) eqn:E; [done|]. apply token_positional in E. congruence. }
  split; [by intros ->|]. split; [done|]. unfold token_of in H. destruct (_ || _) in H; [done|].
  destruct (bool_decide (s = "--")) in H; [done|].
  assert (exists a, s = String "-" a) as [a ->].
  { unfold isFlagToken in Hf. apply andb_prop in Hf as [_ Hf].
    unfold Str.HasPrefix in Hf. apply StrFacts.prefix_true in Hf as [t ->]. by exists t. }
  assert (forall name, Str.Cut "=" name = (match v with Some x => Some (n, x) | None => None end) -> (v = None -> n = name) ->
    Str.HasPrefix name "-" = false -> Str.Contains name "=" = (match v with Some _ => true | None => false end) /\ (v = None -> trim_dashes name = n)) as Hn.
  { intros name Hc Hv Hd. split; [by rewrite (contains_cut "="%char), Hc; destruct v|]. intros Hv'. rewrite dashes_stop by done. by rewrite Hv. }
  destruct (Str.HasPrefix (String "-" a) "--") eqn:E2.
  - destruct a as [|b a]; [done|]. unfold Str.HasPrefix in E2. cbn [String.prefix] in E2.
    destruct (Ascii.ascii_dec "-" "-"); [|done]. destruct (Ascii.ascii_dec "-" b) as [<-|]; [|done]. cbn [Str.drop] in H.
    destruct (str_empty a || Str.HasPrefix a "-" || Str.HasPrefix a "=") eqn:Eb; [done|].
    apply orb_false_iff in Eb as [[_ Ed]%orb_false_iff _].
    assert (trim_dashes (String "-" (String "-" a)) = trim_dashes a) as -> by reflexivity. rewrite !contains_dash.
    destruct (Str.Cut "=" a) as [[n' v']|] eqn:Ec; injection H as <- <-; by apply Hn.
  - cbn [Str.drop] in H. destruct (str_empty a || Str.HasPrefix a "-" || Str.HasPrefix a "=") eqn:Eb; [done|].
    apply orb_false_iff in Eb as [[_ Ed]%orb_false_iff _].
    assert (trim_dashes (String "-" a) = trim_dashes a) as -> by reflexivity. rewrite contains_dash.
    destruct (Str.Cut "=" a) as [[n' v']|] eqn:Ec; injection H as <- <-; by apply Hn.
Qed.

(** ** Moving the flags *)

Section Reordering.
Context (fs : FlagSet).

Lemma assign_ok f n v k sets rest : assign f n v k = Ok (sets, rest) ->
  exists sets', k = Ok (sets', rest) /\ sets = (n, v) :: sets' /\ forall k', assign f n v k' = match k' with Ok (s, r) => Ok ((n, v) :: s, r) | Err e => Err e end.
Proof.
  unfold assign. destruct (fg_Set f v); [|done]. destruct k as [[s r]|e]; [|done]. intros [= <- <-]. by exists s.
Qed.

(** The flags that are moved are read as they were, whatever comes behind them. *)
Lemma reorder_reads len args sets pos : (length args <= len)%nat -> parse_anywhere fs args = Ok (sets, pos) ->
  exists flags, reorder fs args = (flags, pos) /\
    (forall tail, match tail with [] => True | t :: _ => isFlagToken t = false end -> Parse fs (flags ++ tail) = Ok (sets, tail)) /\
    (args ≡ₚ flags ++ pos \/ args ≡ₚ "--" :: flags ++ pos).
Proof.
  revert args sets pos. induction len as [|len IH]; intros args sets pos Hlen.
  { destruct args; [|cbn in Hlen; lia]. intros [= <- <-]. exists []. split; [done|]. split; [|by left].
    intros [|t tail] Ht; [done|]. cbn [app Parse]. by rewrite (proj2 (token_positional t) Ht). }
  destruct args as [|s rest]; [apply (IH [] sets pos); cbn; lia|]. cbn [length] in Hlen. cbn [parse_anywhere reorder].
  destruct (token_of s) as [| | |n v] eqn:Et.
  - apply token_positional in Et as Ef. destruct (parse_anywhere fs rest) as [[s0 p0]|] eqn:E; [|done]. intros [= <- <-].
    destruct (IH rest s0 p0) as (flags & Hr & Hp & Hperm); [lia|done|].
    rewrite bool_decide_false by (intros ->; done). rewrite Ef, Hr. exists flags. split; [done|]. split; [done|].
    destruct Hperm as [-> | ->]; [left|right]; [by rewrite Permutation_middle|]. rewrite <- Permutation_middle. apply perm_swap.
  - apply token_terminator in Et as ->. rewrite bool_decide_true by done. intros [= <- <-]. exists []. split; [done|]. split; [|by right].
    intros [|t tail] Ht; [done|]. cbn [app Parse]. by rewrite (proj2 (token_positional t) Ht).
  - done.
  - destruct (token_named s n v Et) as (Hs & Hf & Hc & Hn). rewrite bool_decide_false by done. rewrite Hf, Hc.
    destruct (fs n) as [f|] eqn:Efn; [|done].
    (* a flag that stands alone *)
    assert (forall w, assign f n w (parse_anywhere fs rest) = Ok (sets, pos) ->
      (forall tl, Parse fs (s :: tl) = assign f n w (Parse fs tl)) ->
      exists flags, (let (g, p) := reorder fs rest in (s :: g, p)) = (flags, pos) /\
        (forall tail, match tail with [] => True | t :: _ => isFlagToken t = false end -> Parse fs (flags ++ tail) = Ok (sets, tail)) /\
        (s :: rest ≡ₚ flags ++ pos \/ s :: rest ≡ₚ "--" :: flags ++ pos)) as Halone.
    { intros w H HP. apply assign_ok in H as (sets' & E & -> & Hk). destruct (IH rest sets' pos) as (flags & -> & Hp & Hperm); [lia|done|].
      exists (s :: flags). split; [done|]. split; [intros tail Ht; cbn [app]; rewrite HP, Hk, Hp by done; done|].
      destruct Hperm as [Hperm|Hperm]; [left|right]; rewrite Hperm; [done|]. apply perm_swap. }
    destruct (fg_IsBool f) eqn:Eb.
    + intros H. destruct (Halone _ H) as (flags & Hr & Hrest); [intros tl; cbn [Parse]; by rewrite Et, Efn, Eb|].
      exists flags. split; [|done]. destruct v as [w|]; [done|]. rewrite (Hn eq_refl), Efn, Eb. by destruct rest.
    + destruct v as [w|].
      { intros H. apply (Halone w H). intros tl. cbn [Parse]. by rewrite Et, Efn, Eb. }
      destruct rest as [|w rest']; [done|]. intros H. rewrite (Hn eq_refl), Efn, Eb.
      apply assign_ok in H as (sets' & E & -> & Hk). destruct (IH rest' sets' pos) as (flags & -> & Hp & Hperm); [cbn in Hlen; lia|done|].
      exists (s :: w :: flags). split; [done|]. split.
      * intros tail Ht. cbn [app Parse]. by rewrite Et, Efn, Eb, Hk, Hp.
      * destruct Hperm as [Hperm|Hperm]; [left|right]; rewrite Hperm; [done|]. cbn [app].
        by rewrite (perm_swap "--" w), (perm_swap "--" s).
Qed.
End Reordering.

(** C38: the order of the arguments does not matter.  Whatever a reader that takes the flags
    and their values out of an argument list wherever they stand makes of it, the settings in
    their order and the positional arguments, the program's parser makes of the
    reordered list, unless the first positional argument, which can then only come from behind
    a terminator, looks like a flag itself; and nothing but that one terminator is lost. *)
Theorem flags_anywhere fs args sets pos :
  parse_anywhere fs args = Ok (sets, pos) -> match pos with [] => True | p :: _ => isFlagToken p = false end ->
  Parse fs (reorderFlagsFirst fs args) = Ok (sets, pos) /\
  (args ≡ₚ reorderFlagsFirst fs args \/ args ≡ₚ "--" :: reorderFlagsFirst fs args).
Proof.
  intros H Hp. destruct (reorder_reads fs (length args) args sets pos (le_n _) H) as (flags & Hr & Hread & Hperm).
  unfold reorderFlagsFirst. rewrite Hr. split; [by apply Hread|done].
Qed.

Definition demo_flags (n : string) : option Flag :=
  if bool_decide (n ∈ ["from"; "command"]) then Some (mkFlag false (fun _ => true))
  else if bool_decide (n = "quick") then Some (mkFlag true (fun v => bool_decide (v ∈ ["true"; "false"])))
  else None.

Lemma flags_anywhere_witness :
  Parse demo_flags (reorderFlagsFirst demo_flags ["alice"; "--command"; "compact"; "-quick"; "--from=bob"; "--"; "--"]) =
    Ok ([("command", "compact"); ("quick", "true"); ("from", "bob")], ["alice"; "--"]).
Proof.
  refine (proj1 (flags_anywhere demo_flags _ _ _ _ _)); [vm_compute; reflexivity|reflexivity].
Defined.

(** A body behind the terminator cannot start with a dash. *)
Lemma terminator_is_lost :
  parse_anywhere demo_flags ["--"; "-1 or +1?"] = Ok ([], ["-1 or +1?"]) /\
  Parse demo_flags ["--"; "-1 or +1?"] = Ok ([], ["-1 or +1?"]) /\
  Parse demo_flags (reorderFlagsFirst demo_flags ["--"; "-1 or +1?"]) = Err (not_defined "1 or +1?").
Proof. vm_compute. done. Qed.

(** A flag whose value is missing takes the recipient for it. *)
Lemma missing_value_eats_recipient :
  parse_anywhere demo_flags ["alice"; "--command"] = Err (needs_argument "command") /\
  Parse demo_flags (reorderFlagsFirst demo_flags ["alice"; "--command"]) = Ok ([("command", "alice")], []).
Proof. vm_compute. done. Qed.

(** Subcommands the usage text does not name. *)
Lemma undocumented_verbs :
  map fst (List.filter (fun h => negb (bool_decide (fst h ∈ usage_verbs))) handlers) =
    ["budget"; "set-respawn-after-shrinks"; "set-relaunch-cmd"; "set-auto-restart"; "flag-operator"; "clear-operator-flag"; "__remote-mcp-recv"] /\
  forallb (fun v => match Run [v] with Handled _ _ => true | _ => false end) usage_verbs = true.
Proof. vm_compute. done. Qed.
